(* ===== verification/_CoqProject ===== *)
-Q . S2P
Prelude.v
CList.v
BuddyDefs.v
BuddyBits.v
BuddyInv.v
BuddyOps.v
BuddyFree.v
BuddyInit.v
Pmem.v
PmemSpec.v
Ring.v
PipeDefs.v
Pipe.v
PipeSpec.v
FifoDefs.v
Fifo.v
FifoSpec.v
FutexDefs.v
Futex.v
FutexSpec.v
CStringDefs.v
CString.v
CStringSpec.v
VMemDefs.v
VMem.v
VMemCopy.v
VMemSpec.v
VMemFree.v
SlabDefs.v
Slab.v
SlabOps.v
SlabSpec.v
LockDefs.v
LockSpec.v
CListSort.v
PrintDefs.v
Print.v
PrintSpec.v
BioDefs.v
Bio.v
BioInv.v
BioSpec.v
PathDefs.v
Path.v
PathSpec.v
SignalDefs.v
Signal.v
SignalSend.v
SignalSpec.v
ProcDefs.v
Proc.v
ProcSpec.v
ProcSafe.v
ProcCalls.v
FileDefs.v
FileInv.v
File.v
FileOps.v
FileStep.v
FilePipe.v
FileFork.v
FileSpec.v
FileCalls.v
FileStream.v
FileRuns.v
VmaDefs.v
MmapDefs.v
VmaForkDefs.v
VmaRing.v
VmaInv.v
VmaUnmap.v
VmaPages.v
VmaMap.v
VmaFault.v
VmaView.v
VmaCalls.v
VmaExit.v
VmaSpec.v
VmaRuns.v
VmaExitRuns.v
