(* ===== verification/Prelude.v ===== *)
(** * SC7 kernel verification

    SC7 is an operating-system kernel in C for RISC-V and LoongArch (an
    offspring of xv6): memory management, processes and threads, file
    descriptors over an ext4 library, pipes, futexes, signals and some 300
    system calls.  This library is a shallow embedding of its core services in
    Rocq with the theorems that make them correct.  The RISC-V configuration
    is modelled.

    ** Conventions

    A C function is a Rocq function in the error monad [res] of this file:
    [Ok] is a normal return, [Panic] a call of [panic] or a failed assertion,
    [Undef] an access through a null pointer or out of range, or an integer
    overflow that C leaves undefined, and [NoFuel] the end of a loop's
    iteration bound.  Every theorem that a call works states that it is [Ok],
    so loops that are given fuel are proved to stay below it: the fuel is the
    length of the list, string or range that is left (plus one for the test
    that ends the loop), 13 for the twelve orders of the buddy allocator and
    64 for the digits of a number.  Integers are [Z], with the wrap-around of
    the 32-bit and 64-bit types written out ([u32], [u64], [i32]).  State is
    passed explicitly; a lock that a function takes is part of its state, and
    taking it twice is a panic.  A function that sleeps is cut at the call
    that sleeps: the part before returns [Sleep] or is a step of its own, the
    part after is a [resume] function, and theorems about concurrent use
    quantify over all interleavings of these parts ([rtc] of a step relation).

    Of each component the file [XDefs] holds the definitions (data and
    operations, as in the C file), the files in between the invariant and the
    lemmas, and [XSpec] the theorems, each with a witness that applies it.

    ** Parts

    - Linked lists, kernel/fs/list.c: [CList] (operations on a heap of links
      with sentinels; a list is a doubly linked chain, [dll]), [CListSort]
      (merge sort: termination, sortedness, permutation).
    - Physical pages, kernel/pmem.c: [BuddyDefs] (bitmap, node array, free
      lists, splitting and merging, clean-up), [BuddyBits], [BuddyInv] (the
      invariant: every page is metadata, uncovered or in exactly one aligned
      block), [BuddyOps], [BuddyFree], [BuddyInit], [Pmem] (the interface
      [PageAllocator] with its laws, and the buddy allocator as an instance),
      [PmemSpec] (any sequence of calls keeps blocks disjoint and loses
      nothing; each operation's behaviour; round trip; errors).
    - Pipes, kernel/fs/pipe.c: [Ring] (a queue in a circular buffer with
      counters that wrap), [PipeDefs], [Pipe], [PipeSpec]; named pipes,
      kernel/fs/fifo.c: [FifoDefs], [Fifo], [FifoSpec].  The theorems: readers
      receive what writers sent, in order, under any interleaving; each call's
      outcomes; resizing; the table of names.
    - Futexes, kernel/futex.c: [FutexDefs], [Futex], [FutexSpec]: queue
      invariant, wake and requeue wake exactly the first waiters.
    - Strings, kernel/string.c: [CStringDefs], [CString], [CStringSpec], on a
      byte-addressed memory where a stray access is [Undef].
    - Page tables, kernel/vmem.c: [VMemDefs], [VMem], [VMemCopy], [VMemSpec],
      [VMemFree]: three-level tables in memory obtained from any
      [PageAllocator]; mapping, unmapping, copies between kernel and user
      memory, access checks, giving all tables back.
    - Slab caches, kernel/slab_common.c: [SlabDefs], [Slab], [SlabOps],
      [SlabSpec], on the buddy allocator.
    - Locks, kernel/spinlock.c, kernel/sleeplock.c, and sleep and wakeup of
      kernel/process.c: [LockDefs], [LockSpec]: mutual exclusion and no lost
      wake-up for every interleaving.
    - Formatted text, hsai/print.c: [PrintDefs], [Print], [PrintSpec]:
      [snprintf] against a reference meaning of formats, printing and scanning
      as inverse functions, the digit array of [printf].
    - Buffer cache, kernel/fs/bio.c: [BioDefs], [Bio] (the LRU ring),
      [BioInv], [BioSpec]: coherence with the disk for concurrent users, the
      replacement policy.
    - Path names, kernel/fs/inode.c: [PathDefs], [Path], [PathSpec]:
      normalisation and confinement to the root directory of a process.
    - Signals, kernel/signal.c with kill and tgkill of kernel/process.c, the
      cancellation functions of kernel/thread.c and the system calls kill and
      sigreturn: [SignalDefs], [Signal], [SignalSend], [SignalSpec]: a
      delivery saves the trap frame and the mask in user memory and enters the
      handler with the arguments the ABI asks for; nested deliveries are
      undone by as many returns; which signal is taken; who receives a kill.

    - Memory areas, kernel/vma.c, with [pagefault_handler] of
      hsai/hsai_trap.c, the loop of fork over the areas and the part of
      freeproc that gives the memory back, of kernel/process.c, and uvmalloc1
      and uvmdealloc of kernel/vmem.c: [VmaDefs] (the areas in memory, the search
      for a place, the first area of a process), [MmapDefs] (mmap, munmap,
      copy on write, segments of shared memory), [VmaForkDefs] (faults, fork,
      exit, brk).  A [struct vma] is a node in a page of its own; loads and
      stores through the links are performed, so that a pointer to a freed
      area is [Undef].  [VmaRing] (the ring as a list), [VmaInv] (the
      invariant of the ring, the page tables and the frames; unmapping),
      [VmaUnmap] (munmap), [VmaPages], [VmaMap] (mmap), [VmaFault] (faults and
      copy on write), [VmaView] (the bytes that a process sees, the invariant
      of an address space), [VmaCalls] (each call on an address space),
      [VmaExit] (the end of a process), [VmaSpec] (the theorems), [VmaRuns] and
      [VmaExitRuns] (a concrete machine).  The theorems:
      mmap, munmap and page faults refine an abstract address space, a list of
      areas with the bytes in them; what each call changes and that it changes
      nothing else; mapping and unmapping cancel out; copy on write keeps
      every byte and gives the page a frame of its own; a process that ends
      gives back its areas, its pages and its tables, nothing else and nothing
      twice, and leaves the address spaces of the others as they are.  They
      cover private anonymous mappings; shared mappings, mappings of files,
      fork and brk are defined but have no theorems.  The number of nodes bounds the
      walks along the ring, the number of pages the loops over a range.

    - Processes, kernel/process.c (fork, clone, exit, waitpid, waitid, kill,
      yield and the scheduler) with the timer interrupt of hsai/hsai_trap.c:
      [ProcDefs], [Proc] (the invariant of the process table), [ProcSpec],
      [ProcSafe], [ProcCalls].  The kernel code of a process is cut into
      sections at the points where another hart or an interrupt can intervene;
      a run is any sequence of sections on any harts.  The theorems: the table
      stays consistent; the wake-up of a waiting parent is never lost; every
      exit is collected at most once and keeps its code until then; which
      sections can panic or touch a freed slot; [exit] ends; the result of
      [waitpid].  A section that cannot run because another hart holds a lock
      gives [NoFuel] and is not part of a run.
    - Open files, kernel/fs/file.c (filealloc, filedup, fileclose, fdalloc,
      the pipe branches of fileread, filewrite and filepoll), pipealloc, the
      system calls openat, close, dup, dup3, fcntl, pipe2, read and write of
      kernel/syscall.c and the loops of fork and exit over the descriptors:
      [FileDefs]; [FileInv] (references and the invariant), [File] (how a
      section preserves it), [FileOps], [FileStep], [FilePipe], [FileFork]
      (the sections); [FileSpec], [FileCalls], [FileStream] (the theorems),
      [FileRuns] (their use on a concrete machine).  Processes of one thread
      interleave at the critical sections of [ftable.lock].  The theorems:
      reference counts are exact and no descriptor names a file that is
      closed; a pipe and each of its ends live exactly as long as a file for
      them; no call panics; end of file and broken pipe are reported exactly
      when the other end is closed in every process; [exit] closes everything
      and ends; what is written to a new pipe can be read.  The pages of pipes
      come from any [PageAllocator] with 2048 pages to give, two for each of
      at most 1024 pipes; the file system is the class [Vfs].

    Components meet in interfaces: pipes and page tables are proved against
    the class [PageAllocator] that [Pmem] instantiates; named pipes reuse the
    ring and the loops of pipes; the buffer cache uses the sleep locks;
    signal frames are written and read with the user copies of page tables;
    open files hold the pipes, close them through their own operations, and
    give back their pages; memory areas use any [PageAllocator] for nodes and
    frames, the page tables for their pages, and the files behind a mapping
    through the class [MapFiles];
    formatted text is tied to the string library by the round trip through
    [atoi].

    ** Not modelled

    The dispatch and argument decoding of the system calls (kernel/syscall.c);
    what fork and exit do to the threads of a process, and fork to its memory
    beyond the areas; reads and writes on files that are not pipes, the
    resizing of a pipe through fcntl and its file locks; the system calls on
    shared memory (shmget, shmat, shmdt, shmctl), mprotect, mremap and brk;
    program loading and sockets; the lwext4 library in kernel/fs/ext4*.c, which is third-party
    code, and the glue around it;
    the drivers, trap handling and start-up code, which work on device
    registers; the LoongArch variants; the user programs and their binary
    images.  Memory is sequentially consistent, and a user copy in a pipe
    operation is a parameter that says which bytes fault. *)

From Stdlib Require Export ZArith Lia String.
From stdpp Require Export prelude gmap list.

#[export] Set Warnings "-clear-no-such-hyp".
#[global] Open Scope Z_scope.

(** ** Outcomes of a C computation

    [Ok a] is a normal return, [Panic m] a call of [panic]/[assert] (which
    never returns in the kernel), [Undef] an access through a null pointer or
    outside an array, [NoFuel] the exhaustion of the iteration bound of a
    modelled loop. *)
Inductive res (A : Type) : Type :=
| Ok (a : A)
| Panic (m : string)
| Undef
| NoFuel.
Arguments Ok {A} a.
Arguments Panic {A} m.
Arguments Undef {A}.
Arguments NoFuel {A}.

Definition bind {A B} (m : res A) (k : A → res B) : res B :=
  match m with
  | Ok a => k a
  | Panic m => Panic m
  | Undef => Undef
  | NoFuel => NoFuel
  end.

Declare Scope c_scope.
Notation "'let*' x ':=' m 'in' k" := (bind m (fun x => k))
  (at level 10, x pattern, m at level 200, k at level 200,
   format "'[v' 'let*'  x  ':='  m  'in' '/' k ']'") : c_scope.
#[global] Open Scope c_scope.

Definition of_opt {A} (o : option A) : res A :=
  match o with Some a => Ok a | None => Undef end.

(** [assert(c, m)] and [ASSERT(c)] of include/kernel/print.h. *)
Definition assert_ (c : bool) (m : string) : res unit :=
  if c then Ok tt else Panic m.

(** The computation returns. *)
Definition is_Ok {A} (m : res A) : Prop := ∃ a, m = Ok a.

(** The result of a computation that returns, [d] otherwise. *)
Definition get {A} (d : A) (r : res A) : A := match r with Ok a => a | _ => d end.

Lemma get_Ok {A} (d x : A) r : r = Ok x → get d r = x.
Proof. by intros ->. Qed.

Section res_lemmas.
Context {A B : Type}.
Implicit Types (m : res A) (k : A → res B).

Lemma bind_Ok m k b : bind m k = Ok b ↔ ∃ a, m = Ok a ∧ k a = Ok b.
Proof.
  split; [|intros (a & -> & H); exact H].
  destruct m; cbn; intros H; try discriminate; eauto.
Qed.

Lemma bind_Ok_1 m k a : m = Ok a → bind m k = k a.
Proof. intros ->; reflexivity. Qed.

Lemma of_opt_Ok (o : option A) a : of_opt o = Ok a ↔ o = Some a.
Proof. destruct o; cbn; split; intros; simplify_eq; done. Qed.

Lemma Ok_pair_inj (a a' : A) (b b' : B) : Ok (a, b) = Ok (a', b') → a = a' ∧ b = b'.
Proof. by intros [= -> ->]. Qed.
End res_lemmas.

(** Runs the first bind of the goal with an equation for its first action. *)
Tactic Notation "step" uconstr(H) := rewrite (bind_Ok_1 _ _ _ H); cbn beta iota.

(** Breaks every hypothesis [bind m k = Ok b] into its steps. *)
Ltac inv_res :=
  repeat match goal with
  | H : bind _ _ = Ok _ |- _ =>
      let a := fresh "r" in let H1 := fresh "Hr" in
      apply bind_Ok in H; destruct H as (a & H1 & H)
  | H : of_opt _ = Ok _ |- _ => apply of_opt_Ok in H
  | H : Ok _ = Ok _ |- _ => injection H; clear H; intros; subst
  | H : Panic _ = Ok _ |- _ => discriminate H
  | H : Undef = Ok _ |- _ => discriminate H
  | H : NoFuel = Ok _ |- _ => discriminate H
  end.

(** ** Machine integers

    A C integer of w bits is a [Z]; [u64], [u32] and [i32] write the
    wrap-around out. *)
Definition u64 (z : Z) : Z := z mod 2 ^ 64.
Definition u32 (z : Z) : Z := z mod 2 ^ 32.
Definition i32 (z : Z) : Z := (z + 2 ^ 31) mod 2 ^ 32 - 2 ^ 31.
Definition u8 (z : Z) : Z := z mod 2 ^ 8.

(** A C truth value. *)
Definition truthy (z : Z) : bool := negb (z =? 0).

Lemma u64_small z : 0 ≤ z < 2 ^ 64 → u64 z = z.
Proof. apply Z.mod_small. Qed.
Lemma u32_small z : 0 ≤ z < 2 ^ 32 → u32 z = z.
Proof. apply Z.mod_small. Qed.
Lemma i32_small z : - 2 ^ 31 ≤ z < 2 ^ 31 → i32 z = z.
Proof. intros H. unfold i32. rewrite Z.mod_small; lia. Qed.
Lemma u64_range z : 0 ≤ u64 z < 2 ^ 64.
Proof. apply Z.mod_pos_bound. lia. Qed.
Lemma u32_range z : 0 ≤ u32 z < 2 ^ 32.
Proof. apply Z.mod_pos_bound. lia. Qed.

(** ** Counted loops

    [for_range lo hi body s] is
    [for (i = lo; i < hi; i++) s = body(i, s);]. *)
Fixpoint for_loop {S} (n : nat) (i : Z) (body : Z → S → res S) (s : S) : res S :=
  match n with
  | O => Ok s
  | Datatypes.S n' => let* s' := body i s in for_loop n' (i + 1) body s'
  end.

Definition for_range {S} (lo hi : Z) (body : Z → S → res S) (s : S) : res S :=
  for_loop (Z.to_nat (hi - lo)) lo body s.

(** Total correctness rule of a counted loop. *)
Lemma for_range_inv {S} (P : Z → S → Prop) lo hi body s :
  lo ≤ hi →
  P lo s →
  (∀ i s, lo ≤ i < hi → P i s → ∃ s', body i s = Ok s' ∧ P (i + 1) s') →
  ∃ s', for_range lo hi body s = Ok s' ∧ P hi s'.
Proof.
  intros Hle H0 Hstep. unfold for_range.
  remember (Z.to_nat (hi - lo)) as n eqn:Hn.
  assert (Hgen : ∀ n i s, i + Z.of_nat n = hi → lo ≤ i → P i s →
            ∃ s', for_loop n i body s = Ok s' ∧ P hi s').
  { clear -Hstep. induction n as [|n IH]; intros i s Hi Hlo HP; cbn.
    - exists s. split; [done|]. by replace hi with i by lia.
    - destruct (Hstep i s) as (s' & Hb & HP'); [lia|done|].
      rewrite Hb; cbn. apply IH; [lia|lia|done]. }
  apply Hgen; [lia|lia|done].
Qed.

(** A counted loop whose every step succeeds is a fold. *)
Lemma for_range_empty {S} lo hi body (s : S) :
  hi ≤ lo → for_range lo hi body s = Ok s.
Proof. intros H. unfold for_range. by replace (Z.to_nat (hi - lo)) with O by lia. Qed.

(** A loop splits at an index. *)
Lemma for_loop_app {S} n m i body (s : S) :
  for_loop (n + m) i body s = (let* s := for_loop n i body s in for_loop m (i + Z.of_nat n) body s).
Proof.
  revert i s; induction n as [|n IH]; intros i s; cbn [for_loop Nat.add bind].
  - by rewrite Z.add_0_r.
  - destruct (body i s); cbn [bind]; try done. rewrite IH.
    by replace (i + 1 + Z.of_nat n) with (i + Z.of_nat (Datatypes.S n)) by lia.
Qed.

Lemma for_range_split {S} lo mid hi body (s : S) :
  lo ≤ mid ≤ hi → for_range lo hi body s = (let* s := for_range lo mid body s in for_range mid hi body s).
Proof.
  intros H. unfold for_range. replace (Z.to_nat (hi - lo)) with (Z.to_nat (mid - lo) + Z.to_nat (hi - mid))%nat by lia.
  rewrite for_loop_app. by replace (lo + Z.of_nat (Z.to_nat (mid - lo))) with mid by lia.
Qed.
