(* ===== verification/CList.v ===== *)
(** * Intrusive doubly linked lists (kernel/fs/list.c)

    The free lists of the buddy allocator, the pool of free threads, the
    threads of a process and the signal frames of a thread are all lists of
    this component.  A [struct list_elem] lives at a location: the head or the
    tail sentinel of a list, or the [elem] member of the structure number [n]
    of the client.  The heap maps locations to the two pointers, [None] is
    [NULL].  Every operation performs the loads, stores and assertions of the
    C function; [dll] relates a heap to the abstract list of its elements and
    the [_spec] lemmas show that each operation implements the list operation
    of its name and leaves all other locations alone. *)

From Stdlib Require Import Sorted.
From S2P Require Import Prelude.

Module CList.

(** ** Data *)

Inductive eloc :=
| LHead (l : Z)
| LTail (l : Z)
| LNode (n : Z).

#[export] Instance eloc_eq_dec : EqDecision eloc.
Proof. solve_decision. Defined.
#[export] Instance eloc_countable : Countable eloc.
Proof.
  refine (inj_countable'
    (λ e, match e with
          | LHead l => inl (inl l) | LTail l => inl (inr l) | LNode n => inr n
          end)
    (λ s, match s with
          | inl (inl l) => LHead l | inl (inr l) => LTail l | inr n => LNode n
          end) _).
  by intros [].
Defined.

(** A pointer to a list element; [None] is [NULL]. *)
Abbreviation ptr := (option eloc).

(** [struct list_elem]. *)
Record list_elem := mk_elem { le_prev : ptr; le_next : ptr }.

Abbreviation heap := (gmap eloc list_elem).

Definition load (p : ptr) (h : heap) : res list_elem := of_opt (p ≫= λ a, h !! a).

(** [p->prev = v] and [p->next = v]. *)
Definition set_prev (p : ptr) (v : ptr) (h : heap) : res heap :=
  match p with
  | Some a => let* e := load p h in Ok (<[a := mk_elem v (le_next e)]> h)
  | None => Undef
  end.
Definition set_next (p : ptr) (v : ptr) (h : heap) : res heap :=
  match p with
  | Some a => let* e := load p h in Ok (<[a := mk_elem (le_prev e) v]> h)
  | None => Undef
  end.

Arguments load : simpl never.
Arguments set_prev : simpl never.
Arguments set_next : simpl never.

(** ** Operations *)

Definition is_head (elem : ptr) (h : heap) : res bool :=
  match elem with
  | None => Ok false
  | Some _ => let* e := load elem h in Ok (bool_decide (le_prev e = None) && bool_decide (le_next e ≠ None))
  end.

Definition is_interior (elem : ptr) (h : heap) : res bool :=
  match elem with
  | None => Ok false
  | Some _ => let* e := load elem h in Ok (bool_decide (le_prev e ≠ None) && bool_decide (le_next e ≠ None))
  end.

Definition is_tail (elem : ptr) (h : heap) : res bool :=
  match elem with
  | None => Ok false
  | Some _ => let* e := load elem h in Ok (bool_decide (le_prev e ≠ None) && bool_decide (le_next e = None))
  end.

Definition list_init (l : Z) (h : heap) : heap :=
  <[LTail l := mk_elem (Some (LHead l)) None]>
    (<[LHead l := mk_elem None (Some (LTail l))]> h).

Definition list_begin (l : Z) (h : heap) : res ptr :=
  let* e := load (Some (LHead l)) h in Ok (le_next e).

Definition list_next (elem : ptr) (h : heap) : res ptr :=
  let* b1 := is_head elem h in
  let* b2 := is_interior elem h in
  let* _ := assert_ (b1 || b2) "is_head (elem) || is_interior (elem)" in
  let* e := load elem h in
  Ok (le_next e).

Definition list_end (l : Z) : ptr := Some (LTail l).

Definition list_rbegin (l : Z) (h : heap) : res ptr :=
  let* e := load (Some (LTail l)) h in Ok (le_prev e).

Definition list_prev (elem : ptr) (h : heap) : res ptr :=
  let* b1 := is_interior elem h in
  let* b2 := is_tail elem h in
  let* _ := assert_ (b1 || b2) "is_interior (elem) || is_tail (elem)" in
  let* e := load elem h in
  Ok (le_prev e).

Definition list_rend (l : Z) : ptr := Some (LHead l).
Definition list_head (l : Z) : ptr := Some (LHead l).
Definition list_tail (l : Z) : ptr := Some (LTail l).

Definition list_insert (before elem : ptr) (h : heap) : res heap :=
  let* b1 := is_interior before h in
  let* b2 := is_tail before h in
  let* _ := assert_ (b1 || b2) "is_interior (before) || is_tail (before)" in
  let* _ := assert_ (bool_decide (elem ≠ None)) "elem != NULL" in
  let* b := load before h in
  let* h := set_prev elem (le_prev b) h in
  let* h := set_next elem before h in
  let* b := load before h in
  let* h := set_next (le_prev b) elem h in
  set_prev before elem h.

Definition list_splice (before first last : ptr) (h : heap) : res heap :=
  let* b1 := is_interior before h in
  let* b2 := is_tail before h in
  let* _ := assert_ (b1 || b2) "is_interior (before) || is_tail (before)" in
  if bool_decide (first = last) then Ok h
  else
    let* last := list_prev last h in
    let* c1 := is_interior first h in
    let* _ := assert_ c1 "is_interior (first)" in
    let* c2 := is_interior last h in
    let* _ := assert_ c2 "is_interior (last)" in
    let* f := load first h in
    let* e := load last h in
    let* h := set_next (le_prev f) (le_next e) h in
    let* f := load first h in
    let* e := load last h in
    let* h := set_prev (le_next e) (le_prev f) h in
    let* b := load before h in
    let* h := set_prev first (le_prev b) h in
    let* h := set_next last before h in
    let* b := load before h in
    let* h := set_next (le_prev b) first h in
    set_prev before last h.

Definition list_push_front (l : Z) (elem : ptr) (h : heap) : res heap :=
  let* b := list_begin l h in
  list_insert b elem h.

Definition list_push_back (l : Z) (elem : ptr) (h : heap) : res heap :=
  list_insert (list_end l) elem h.

Definition list_remove (elem : ptr) (h : heap) : res (ptr * heap) :=
  let* b := is_interior elem h in
  let* _ := assert_ b "is_interior (elem)" in
  let* e := load elem h in
  let* h := set_next (le_prev e) (le_next e) h in
  let* e := load elem h in
  let* h := set_prev (le_next e) (le_prev e) h in
  let* e := load elem h in
  Ok (le_next e, h).

Definition list_empty (l : Z) (h : heap) : res bool :=
  let* b := list_begin l h in
  Ok (bool_decide (b = list_end l)).

Definition list_front (l : Z) (h : heap) : res ptr :=
  let* b := list_empty l h in
  let* _ := assert_ (negb b) "!list_empty (list)" in
  let* e := load (Some (LHead l)) h in
  Ok (le_next e).

Definition list_back (l : Z) (h : heap) : res ptr :=
  let* b := list_empty l h in
  let* _ := assert_ (negb b) "!list_empty (list)" in
  let* e := load (Some (LTail l)) h in
  Ok (le_prev e).

Definition list_pop_front (l : Z) (h : heap) : res (ptr * heap) :=
  let* front := list_front l h in
  let* (_, h) := list_remove front h in
  Ok (front, h).

Definition list_pop_back (l : Z) (h : heap) : res (ptr * heap) :=
  let* back := list_back l h in
  let* (_, h) := list_remove back h in
  Ok (back, h).

(** [for (e = from; e != list_end(l); e = list_next(e)) cnt++;] with a bound
    on the number of iterations. *)
Fixpoint list_size_loop (fuel : nat) (l : Z) (e : ptr) (cnt : Z) (h : heap) : res Z :=
  match fuel with
  | O => NoFuel
  | S fuel =>
      if bool_decide (e = list_end l) then Ok cnt
      else
        let* e' := list_next e h in
        list_size_loop fuel l e' (u64 (cnt + 1)) h
  end.

Definition list_size (fuel : nat) (l : Z) (h : heap) : res Z :=
  let* b := list_begin l h in
  list_size_loop fuel l b 0 h.

(** [swap (&e->prev, &e->next)]. *)
Definition swap_links (e : ptr) (h : heap) : res heap :=
  let* c := load e h in
  let* h := set_prev e (le_next c) h in
  set_next e (le_prev c) h.

Fixpoint list_reverse_loop (fuel : nat) (l : Z) (e : ptr) (h : heap) : res heap :=
  match fuel with
  | O => NoFuel
  | S fuel =>
      if bool_decide (e = list_end l) then Ok h
      else
        let* h := swap_links e h in
        let* c := load e h in
        list_reverse_loop fuel l (le_prev c) h
  end.

(** [swap (&list->head.next, &list->tail.prev)] followed by
    [swap (&list->head.next->prev, &list->tail.prev->next)]. *)
Definition swap_ends (l : Z) (h : heap) : res heap :=
  let* hd := load (Some (LHead l)) h in
  let* tl := load (Some (LTail l)) h in
  let* h := set_next (Some (LHead l)) (le_prev tl) h in
  let* h := set_prev (Some (LTail l)) (le_next hd) h in
  let* hd := load (Some (LHead l)) h in
  let* tl := load (Some (LTail l)) h in
  let* f := load (le_next hd) h in
  let* g := load (le_prev tl) h in
  let* h := set_prev (le_next hd) (le_next g) h in
  set_next (le_prev tl) (le_prev f) h.

Definition list_reverse (fuel : nat) (l : Z) (h : heap) : res heap :=
  let* b := list_empty l h in
  if b then Ok h
  else
    let* e := list_begin l h in
    let* h := list_reverse_loop fuel l e h in
    swap_ends l h.

Section ordered.
(** [less (a, b, aux)], the caller's comparison. *)
Variable less : ptr → ptr → bool.

(** [for (; e != list_end (list); e = list_next (e)) if (less (elem, e)) break;] *)
Fixpoint insert_ordered_loop (fuel : nat) (l : Z) (elem e : ptr) (h : heap) : res ptr :=
  match fuel with
  | O => NoFuel
  | S fuel =>
      if bool_decide (e = list_end l) then Ok e
      else if less elem e then Ok e
      else
        let* e' := list_next e h in
        insert_ordered_loop fuel l elem e' h
  end.

Definition list_insert_ordered (fuel : nat) (l : Z) (elem : ptr) (h : heap) : res heap :=
  let* _ := assert_ (bool_decide (elem ≠ None)) "elem != NULL" in
  let* b := list_begin l h in
  let* e := insert_ordered_loop fuel l elem b h in
  list_insert e elem h.

(** The loops of [list_max] ([keep m e = less m e]) and [list_min]
    ([keep m e = less e m]). *)
Fixpoint list_extremum_loop (fuel : nat) (keep : ptr → ptr → bool) (l : Z) (m e : ptr)
    (h : heap) : res ptr :=
  match fuel with
  | O => NoFuel
  | S fuel =>
      if bool_decide (e = list_end l) then Ok m
      else
        let* e' := list_next e h in
        list_extremum_loop fuel keep l (if keep m e then e else m) e' h
  end.

Definition list_max (fuel : nat) (l : Z) (h : heap) : res ptr :=
  let* m := list_begin l h in
  if bool_decide (m = list_end l) then Ok m
  else
    let* e := list_next m h in
    list_extremum_loop fuel (λ m e, less m e) l m e h.

Definition list_min (fuel : nat) (l : Z) (h : heap) : res ptr :=
  let* m := list_begin l h in
  if bool_decide (m = list_end l) then Ok m
  else
    let* e := list_next m h in
    list_extremum_loop fuel (λ m e, less e m) l m e h.
End ordered.

(** ** Representation *)

Definition nx (h : heap) (a : eloc) : ptr := h !! a ≫= le_next.
Definition pv (h : heap) (a : eloc) : ptr := h !! a ≫= le_prev.
Definition live (h : heap) (a : eloc) : Prop := is_Some (h !! a).

(** [a] and the elements of [ys] are linked both ways, in this order. *)
Fixpoint path (h : heap) (a : eloc) (ys : list eloc) : Prop :=
  match ys with
  | [] => True
  | y :: ys => nx h a = Some y ∧ pv h y = Some a ∧ path h y ys
  end.

(** The heap holds list [l] with the elements [xs], front to back. *)
Definition dll (h : heap) (l : Z) (xs : list Z) : Prop :=
  path h (LHead l) ((LNode <$> xs) ++ [LTail l]) ∧
  pv h (LHead l) = None ∧ nx h (LTail l) = None ∧ NoDup xs.

(** The locations list [l] with elements [xs] occupies. *)
Definition footprint (l : Z) (xs : list Z) : list eloc :=
  LHead l :: LTail l :: (LNode <$> xs).

(** ** Stores and loads as updates of [nx] and [pv] *)

Definition upd_prev (a : eloc) (v : ptr) (h : heap) : heap :=
  alter (λ e, mk_elem v (le_next e)) a h.
Definition upd_next (a : eloc) (v : ptr) (h : heap) : heap :=
  alter (λ e, mk_elem (le_prev e) v) a h.

Section updates.
Implicit Types (h : heap) (a b : eloc) (v : ptr).

Lemma set_prev_upd h a v : live h a → set_prev (Some a) v h = Ok (upd_prev a v h).
Proof.
  intros [e He]. unfold set_prev, load, upd_prev. cbn. rewrite He. cbn. f_equal.
  apply map_eq. intros b. rewrite lookup_alter, lookup_insert.
  case_decide; subst; by simplify_map_eq.
Qed.

Lemma set_next_upd h a v : live h a → set_next (Some a) v h = Ok (upd_next a v h).
Proof.
  intros [e He]. unfold set_next, load, upd_next. cbn. rewrite He. cbn. f_equal.
  apply map_eq. intros b. rewrite lookup_alter, lookup_insert.
  case_decide; subst; by simplify_map_eq.
Qed.

Lemma live_upd_prev h a b v : live (upd_prev a v h) b ↔ live h b.
Proof. unfold live, upd_prev. rewrite lookup_alter. case_decide; subst; by rewrite ?fmap_is_Some. Qed.
Lemma live_upd_next h a b v : live (upd_next a v h) b ↔ live h b.
Proof. unfold live, upd_next. rewrite lookup_alter. case_decide; subst; by rewrite ?fmap_is_Some. Qed.

Lemma nx_upd_prev h a b v : nx (upd_prev a v h) b = nx h b.
Proof.
  unfold nx, upd_prev. rewrite lookup_alter. case_decide; subst; [|done].
  by destruct (h !! b).
Qed.
Lemma pv_upd_next h a b v : pv (upd_next a v h) b = pv h b.
Proof.
  unfold pv, upd_next. rewrite lookup_alter. case_decide; subst; [|done].
  by destruct (h !! b).
Qed.
Lemma nx_upd_next h a b v : live h a →
  nx (upd_next a v h) b = if decide (a = b) then v else nx h b.
Proof.
  intros [e He]. unfold nx, upd_next. rewrite lookup_alter. case_decide; subst; [|done].
  by rewrite He.
Qed.
Lemma pv_upd_prev h a b v : live h a →
  pv (upd_prev a v h) b = if decide (a = b) then v else pv h b.
Proof.
  intros [e He]. unfold pv, upd_prev. rewrite lookup_alter. case_decide; subst; [|done].
  by rewrite He.
Qed.

Lemma lookup_upd_prev_ne h a b v : a ≠ b → upd_prev a v h !! b = h !! b.
Proof. apply lookup_alter_ne. Qed.
Lemma lookup_upd_next_ne h a b v : a ≠ b → upd_next a v h !! b = h !! b.
Proof. apply lookup_alter_ne. Qed.

Lemma load_live h a : live h a → load (Some a) h = Ok (mk_elem (pv h a) (nx h a)).
Proof. intros [[p n] He]. unfold load, pv, nx. cbn. by rewrite He. Qed.

Lemma nx_live h a b : nx h a = Some b → live h a.
Proof. unfold nx, live. destruct (h !! a); cbn; [by eauto | done]. Qed.
Lemma pv_live h a b : pv h a = Some b → live h a.
Proof. unfold pv, live. destruct (h !! a); cbn; [by eauto | done]. Qed.
End updates.

Create HintDb clist.
Create Rewrite HintDb clist.
#[export] Hint Rewrite live_upd_prev live_upd_next nx_upd_prev pv_upd_next : clist.
#[export] Hint Resolve nx_live pv_live : clist.

(** Normalises [nx], [pv] and [live] over updates. *)
Ltac clist_simpl :=
  repeat first
    [ rewrite live_upd_prev | rewrite live_upd_next
    | rewrite nx_upd_prev | rewrite pv_upd_next
    | rewrite nx_upd_next by (autorewrite with clist; eauto with clist)
    | rewrite pv_upd_prev by (autorewrite with clist; eauto with clist) ].

(** ** Paths *)

Lemma last_cons_default {A} (y : A) ys d : List.last (y :: ys) d = List.last ys y.
Proof.
  revert y d; induction ys as [|z ys IH]; intros y d; [done|].
  change (List.last (y :: z :: ys) d) with (List.last (z :: ys) d).
  by rewrite !IH.
Qed.

Lemma last_in {A} (a : A) ys : List.last ys a ∈ a :: ys.
Proof.
  revert a; induction ys as [|y ys IH]; intros a; [left|].
  rewrite last_cons_default. right. apply IH.
Qed.

Section paths.
Implicit Types (h : heap) (a b c : eloc) (ys zs : list eloc).

Lemma path_app h a ys zs :
  path h a (ys ++ zs) ↔ path h a ys ∧ path h (List.last ys a) zs.
Proof.
  revert a; induction ys as [|y ys IH]; intros a; [cbn; tauto|].
  rewrite last_cons_default. cbn. rewrite IH. tauto.
Qed.

Lemma path_ext h h' a ys :
  path h a ys → NoDup (a :: ys) →
  (∀ c, c ∈ a :: ys → c ≠ List.last ys a → nx h' c = nx h c) →
  (∀ c, c ∈ ys → pv h' c = pv h c) →
  path h' a ys.
Proof.
  revert a; induction ys as [|y ys IH]; intros a; [done|].
  rewrite last_cons_default. cbn. intros (H1 & H2 & H3) [Ha Hnd]%NoDup_cons Hn Hp.
  split_and!.
  - rewrite Hn; [done|left|]. intros ->. by destruct Ha; apply last_in.
  - rewrite Hp; [done|left].
  - apply IH; [done|done| |]; intros c Hc; [apply Hn | apply Hp]; by right.
Qed.

Lemma path_live h a ys c : path h a ys → c ∈ ys → live h c.
Proof.
  revert a; induction ys as [|y ys IH]; intros a; cbn; [by intros _ ?%not_elem_of_nil|].
  intros (_ & H & Hp) [->|Hc]%elem_of_cons; eauto with clist.
Qed.
End paths.

(** ** Insertion and removal *)

Section insert_remove.
Implicit Types (h : heap) (a b p q x : eloc) (ys zs : list eloc).

(** What [list_insert] does to the links, [p] being the old predecessor. *)
Lemma list_insert_links h b x p :
  pv h b = Some p → live h p → live h x → x ≠ b →
  ∃ h', list_insert (Some b) (Some x) h = Ok h' ∧
    (∀ c, live h' c ↔ live h c) ∧
    (∀ c, nx h' c = if decide (p = c) then Some x else if decide (x = c) then Some b else nx h c) ∧
    (∀ c, pv h' c = if decide (b = c) then Some x else if decide (x = c) then Some p else pv h c) ∧
    (∀ c, c ≠ b → c ≠ x → c ≠ p → h' !! c = h !! c).
Proof.
  intros Hp Hlp Hlx Hxb. assert (Hlb : live h b) by eauto with clist.
  unfold list_insert, is_interior, is_tail.
  rewrite (load_live h b Hlb), Hp. cbn [bind le_prev le_next].
  destruct (nx h b) as [q|]; cbn.
  all: rewrite set_prev_upd by done; cbn.
  all: rewrite set_next_upd by by clist_simpl.
  all: cbn; rewrite load_live by by clist_simpl.
  all: cbn; clist_simpl; rewrite decide_False by done; rewrite Hp.
  all: rewrite set_next_upd by by clist_simpl.
  all: cbn; rewrite set_prev_upd by by clist_simpl.
  all: eexists; split; [done|]; split_and!; intros c; clist_simpl; try done.
  all: intros; rewrite lookup_upd_prev_ne, !lookup_upd_next_ne, lookup_upd_prev_ne; done.
Qed.

(** What [list_remove] does to the links. *)
Lemma list_remove_links h x p q :
  pv h x = Some p → nx h x = Some q → live h p → live h q → x ≠ p → x ≠ q →
  ∃ h', list_remove (Some x) h = Ok (Some q, h') ∧
    (∀ c, live h' c ↔ live h c) ∧
    (∀ c, nx h' c = if decide (p = c) then Some q else nx h c) ∧
    (∀ c, pv h' c = if decide (q = c) then Some p else pv h c) ∧
    (∀ c, c ≠ p → c ≠ q → h' !! c = h !! c).
Proof.
  intros Hp Hq Hlp Hlq Hxp Hxq. assert (Hlx : live h x) by eauto with clist.
  unfold list_remove, is_interior.
  rewrite (load_live h x Hlx), Hp, Hq. cbn.
  rewrite set_next_upd by done; cbn.
  rewrite load_live by by clist_simpl. cbn. clist_simpl.
  rewrite decide_False, Hp, Hq by done.
  rewrite set_prev_upd by by clist_simpl. cbn.
  rewrite load_live by by clist_simpl. cbn. clist_simpl.
  rewrite decide_False, Hq by done.
  eexists; split; [done|]; split_and!; intros c; clist_simpl; try done.
  intros; rewrite lookup_upd_prev_ne, lookup_upd_next_ne; done.
Qed.

Lemma path_insert h a ys b zs x :
  path h a (ys ++ b :: zs) → NoDup (a :: ys ++ b :: zs) →
  live h x → x ∉ a :: ys ++ b :: zs → live h a →
  ∃ h', list_insert (Some b) (Some x) h = Ok h' ∧
    path h' a (ys ++ x :: b :: zs) ∧
    (∀ c, live h' c ↔ live h c) ∧
    (∀ c, c ∉ x :: b :: a :: ys → h' !! c = h !! c) ∧
    (∀ c, c ≠ b → c ≠ x → pv h' c = pv h c) ∧
    (∀ c, c ≠ List.last ys a → c ≠ x → nx h' c = nx h c).
Proof.
  intros Hpath Hnd Hlx Hx Hla.
  apply path_app in Hpath as (Hys & Hn & Hp & Hzs).
  set (p := List.last ys a) in *.
  assert (Hpin : p ∈ a :: ys) by apply last_in.
  rewrite app_comm_cons in Hnd, Hx.
  apply NoDup_app in Hnd as (Hnd1 & Hdis & [Hb Hnd2]%NoDup_cons).
  apply not_elem_of_app in Hx as [Hx1 [Hxb Hx2]%not_elem_of_cons].
  assert (Hbp : b ∉ a :: ys) by (intros H; apply (Hdis _ H); left).
  destruct (list_insert_links h b x p) as (h' & Hop & Hlive & Hnx & Hpv & Hfr); eauto with clist.
  exists h'; split; [done|].
  assert (Hnp : ∀ c, c ≠ p → c ≠ x → nx h' c = nx h c) by (intros; rewrite Hnx, !decide_False by done; done).
  assert (Hpp : ∀ c, c ≠ b → c ≠ x → pv h' c = pv h c) by (intros; rewrite Hpv, !decide_False by done; done).
  split_and!; try done.
  - apply path_app; split.
    { apply (path_ext h); try done; fold p; intros c Hc.
      - intros Hcp. apply Hnp; [done|]. by intros ->.
      - apply Hpp; intros ->; [destruct Hbp | destruct Hx1]; by right. }
    assert (Hpx : p ≠ x) by (by intros ->).
    cbn. fold p. split_and!.
    + by rewrite Hnx, decide_True.
    + by rewrite Hpv, decide_False, decide_True by congruence.
    + by rewrite Hnx, decide_False, decide_True by congruence.
    + by rewrite Hpv, decide_True.
    + apply (path_ext h); [done| by apply NoDup_cons | |]; intros c Hc.
      * intros _. apply Hnp; [intros ->; by apply (Hdis p) | intros ->].
        by apply elem_of_cons in Hc as [?|?].
      * apply Hpp; by intros ->.
  - intros c [? [? Hc]%not_elem_of_cons]%not_elem_of_cons. apply Hfr; [done..|]. by intros ->.
Qed.

Lemma path_remove h a ys x q zs :
  path h a (ys ++ x :: q :: zs) → NoDup (a :: ys ++ x :: q :: zs) → live h a →
  ∃ h', list_remove (Some x) h = Ok (Some q, h') ∧
    path h' a (ys ++ q :: zs) ∧
    (∀ c, live h' c ↔ live h c) ∧
    (∀ c, c ∉ q :: a :: ys → h' !! c = h !! c) ∧
    (∀ c, c ≠ q → pv h' c = pv h c) ∧
    (∀ c, c ≠ List.last ys a → nx h' c = nx h c).
Proof.
  intros Hpath Hnd Hla.
  apply path_app in Hpath as (Hys & Hn & Hp & Hn2 & Hp2 & Hzs).
  set (p := List.last ys a) in *.
  assert (Hpin : p ∈ a :: ys) by apply last_in.
  rewrite app_comm_cons in Hnd.
  apply NoDup_app in Hnd as (Hnd1 & Hdis & [Hx [Hq Hnd2]%NoDup_cons]%NoDup_cons).
  assert (Hlp : live h p) by eauto with clist.
  destruct (list_remove_links h x p q) as (h' & Hop & Hlive & Hnx & Hpv & Hfr); eauto with clist.
  { intros ->. apply (Hdis p Hpin). left. }
  { intros ->. apply Hx. left. }
  exists h'; split; [done|].
  assert (Hnp : ∀ c, c ≠ p → nx h' c = nx h c) by (intros; by rewrite Hnx, decide_False).
  assert (Hpp : ∀ c, c ≠ q → pv h' c = pv h c) by (intros; by rewrite Hpv, decide_False).
  split_and!; try done.
  - apply path_app; split.
    { apply (path_ext h); try done; fold p; intros c Hc.
      - intros Hcp. by apply Hnp.
      - apply Hpp; intros ->. apply (Hdis q); [by right | by right; left]. }
    cbn. fold p. split_and!.
    + by rewrite Hnx, decide_True.
    + by rewrite Hpv, decide_True.
    + apply (path_ext h); [done| by apply NoDup_cons | |]; intros c Hc.
      * intros _. apply Hnp. intros ->. apply (Hdis p); [done | by right].
      * apply Hpp; by intros ->.
  - intros c [? Hc]%not_elem_of_cons. apply Hfr; [|done]. by intros ->.
Qed.
End insert_remove.

(** ** Refinement: each operation implements its list operation *)

Section refinement.
Implicit Types (h : heap) (l x : Z) (xs ys : list Z) (c : eloc).

Lemma dll_nodup l xs : NoDup xs → NoDup (LHead l :: (LNode <$> xs) ++ [LTail l]).
Proof.
  intros H. apply NoDup_cons; split.
  - rewrite not_elem_of_app, list_elem_of_fmap. split; [by intros (?&?&?)|].
    by rewrite list_elem_of_singleton.
  - apply NoDup_app; split_and!; [|intros c|apply NoDup_singleton].
    + apply NoDup_fmap; [|done]. by intros ?? [=].
    + intros (?&->&?)%list_elem_of_fmap. by rewrite list_elem_of_singleton.
Qed.

Lemma dll_live h l xs c : dll h l xs → c ∈ footprint l xs → live h c.
Proof.
  intros (Hp & _ & _ & _) [->|Hc]%elem_of_cons.
  - destruct xs; cbn in Hp; destruct Hp as [Hp _]; eauto with clist.
  - apply (path_live _ _ _ _ Hp). rewrite elem_of_app, list_elem_of_singleton.
    apply elem_of_cons in Hc. tauto.
Qed.

(** Writes outside its footprint do not change a list. *)
Lemma dll_frame h h' l xs :
  dll h l xs → (∀ c, c ∈ footprint l xs → h' !! c = h !! c) → dll h' l xs.
Proof.
  intros (Hp & Hh & Ht & Hnd) Hfr.
  assert (Hn : ∀ c, c ∈ footprint l xs → nx h' c = nx h c) by (intros; unfold nx; by rewrite Hfr).
  assert (Hv : ∀ c, c ∈ footprint l xs → pv h' c = pv h c) by (intros; unfold pv; by rewrite Hfr).
  assert (Hin : ∀ c, c ∈ (LNode <$> xs) ++ [LTail l] → c ∈ footprint l xs).
  { intros c. unfold footprint. rewrite elem_of_app, list_elem_of_singleton, !elem_of_cons. tauto. }
  split_and!; [|rewrite Hv; [done|left]|rewrite Hn; [done|by right; left]|done].
  apply (path_ext h); [done|by apply dll_nodup| |intros c Hc; apply Hv; auto].
  intros c [->|Hc]%elem_of_cons _; apply Hn; [left|auto].
Qed.

Lemma dll_init h l : dll (list_init l h) l [].
Proof.
  unfold dll. cbn. unfold nx, pv, list_init.
  rewrite !lookup_insert_eq, lookup_insert_ne, lookup_insert_eq by done. cbn.
  split_and!; try done. constructor.
Qed.

Lemma list_init_frame h l c : c ∉ footprint l [] → list_init l h !! c = h !! c.
Proof.
  unfold list_init, footprint. rewrite !not_elem_of_cons. intros (?&?&_).
  by rewrite !lookup_insert_ne by congruence.
Qed.

(** The element [list_insert] inserts before: the first of [ys] or the tail. *)
Lemma list_insert_dll h l xs ys x :
  dll h l (xs ++ ys) → x ∉ xs ++ ys → live h (LNode x) →
  ∃ h', list_insert (Some (List.hd (LTail l) (LNode <$> ys))) (Some (LNode x)) h = Ok h' ∧
    dll h' l (xs ++ x :: ys) ∧
    (∀ c, live h' c ↔ live h c) ∧
    (∀ c, c ∉ footprint l (x :: xs ++ ys) → h' !! c = h !! c).
Proof.
  intros Hd Hx Hlx. pose proof Hd as (Hp & Hh & Ht & Hnd).
  assert (Hlh : live h (LHead l)) by (eapply dll_live; [done|left]).
  pose proof (dll_nodup l _ Hnd) as Hnd'.
  assert (Hx' : LNode x ∉ LHead l :: (LNode <$> xs ++ ys) ++ [LTail l]).
  { rewrite not_elem_of_cons, not_elem_of_app, not_elem_of_cons.
    rewrite list_elem_of_fmap. split_and!; try done; [|apply not_elem_of_nil].
    by intros (y & [= <-] & Hy). }
  assert (∃ zs, (LNode <$> ys) ++ [LTail l] = List.hd (LTail l) (LNode <$> ys) :: zs) as [zs Hzs].
  { destruct ys; cbn; eauto. }
  set (b := List.hd (LTail l) (LNode <$> ys)) in *.
  rewrite fmap_app, <-app_assoc, Hzs in Hp, Hnd', Hx'.
  destruct (path_insert h (LHead l) (LNode <$> xs) b zs (LNode x))
    as (h' & Hop & Hp' & Hlive & Hfr & Hpv & Hnx); try done.
  exists h'. split_and!; try done.
  - split_and!.
    + rewrite fmap_app, <-app_assoc. cbn. by rewrite Hzs.
    + rewrite Hpv; [done| |done]. intros Heq. unfold b in Heq. by destruct ys.
    + rewrite Hnx; [done| |done]. intros Heq.
      pose proof (last_in (LHead l) (LNode <$> xs)) as Hin. rewrite <-Heq in Hin.
      apply elem_of_cons in Hin as [?|(?&?&?)%list_elem_of_fmap]; done.
    + apply NoDup_app in Hnd as (Hn1 & Hn2 & Hn3). apply not_elem_of_app in Hx as [Hx1 Hx2].
      apply NoDup_app; split_and!; [done| |by apply NoDup_cons].
      intros y Hy [->|?]%elem_of_cons; [done|]. by apply (Hn2 y).
  - intros c Hc. apply Hfr. intros Hin. apply Hc. unfold footprint.
    revert Hin. rewrite !elem_of_cons. cbn. rewrite elem_of_cons, fmap_app, elem_of_app.
    unfold b. destruct ys; cbn; rewrite ?elem_of_cons; tauto.
Qed.

Lemma list_push_front_spec h l xs x :
  dll h l xs → x ∉ xs → live h (LNode x) →
  ∃ h', list_push_front l (Some (LNode x)) h = Ok h' ∧ dll h' l (x :: xs) ∧
    (∀ c, live h' c ↔ live h c) ∧
    (∀ c, c ∉ footprint l (x :: xs) → h' !! c = h !! c).
Proof.
  intros Hd Hx Hlx. unfold list_push_front, list_begin.
  rewrite load_live by (eapply dll_live; [done|left]). cbn.
  destruct (list_insert_dll h l [] xs x) as (h' & Hop & ?); try done.
  exists h'. split; [|done]. rewrite <-Hop. do 2 f_equal.
  destruct Hd as (Hp & _). by destruct xs; cbn in *; destruct Hp as [-> _].
Qed.

Lemma list_push_back_spec h l xs x :
  dll h l xs → x ∉ xs → live h (LNode x) →
  ∃ h', list_push_back l (Some (LNode x)) h = Ok h' ∧ dll h' l (xs ++ [x]) ∧
    (∀ c, live h' c ↔ live h c) ∧
    (∀ c, c ∉ footprint l (x :: xs) → h' !! c = h !! c).
Proof.
  intros Hd Hx Hlx. rewrite <-(app_nil_r xs) in Hd, Hx.
  destruct (list_insert_dll h l xs [] x) as (h' & Hop & Hd' & Hl & Hf); try done.
  exists h'. rewrite app_nil_r in Hf. split_and!; done.
Qed.

Lemma list_remove_spec h l xs x ys :
  dll h l (xs ++ x :: ys) →
  ∃ h', list_remove (Some (LNode x)) h =
          Ok (Some (List.hd (LTail l) (LNode <$> ys)), h') ∧
    dll h' l (xs ++ ys) ∧
    (∀ c, live h' c ↔ live h c) ∧
    (∀ c, c ∉ footprint l (xs ++ ys) → h' !! c = h !! c).
Proof.
  intros Hd. pose proof Hd as (Hp & Hh & Ht & Hnd).
  assert (Hlh : live h (LHead l)) by (eapply dll_live; [done|left]).
  pose proof (dll_nodup l _ Hnd) as Hnd'.
  assert (∃ zs, (LNode <$> ys) ++ [LTail l] = List.hd (LTail l) (LNode <$> ys) :: zs) as [zs Hzs].
  { destruct ys; cbn; eauto. }
  set (b := List.hd (LTail l) (LNode <$> ys)) in *.
  rewrite fmap_app, <-app_assoc in Hp, Hnd'. cbn in Hp, Hnd'. rewrite Hzs in Hp, Hnd'.
  destruct (path_remove h (LHead l) (LNode <$> xs) (LNode x) b zs)
    as (h' & Hop & Hp' & Hlive & Hfr & Hpv & Hnx); try done.
  exists h'. split_and!; try done.
  - split_and!.
    + by rewrite fmap_app, <-app_assoc, Hzs.
    + rewrite Hpv; [done|]. intros Heq. unfold b in Heq. by destruct ys.
    + rewrite Hnx; [done|]. intros Heq.
      pose proof (last_in (LHead l) (LNode <$> xs)) as Hin. rewrite <-Heq in Hin.
      apply elem_of_cons in Hin as [?|(?&?&?)%list_elem_of_fmap]; done.
    + apply NoDup_app in Hnd as (Hn1 & Hn2 & [Hn3 Hn4]%NoDup_cons).
      apply NoDup_app; split_and!; [done| |done].
      intros y Hy ?. apply (Hn2 y); [done|]. by right.
  - intros c Hc. apply Hfr. intros Hin. apply Hc. unfold footprint.
    revert Hin. rewrite !elem_of_cons, fmap_app, elem_of_app.
    unfold b. destruct ys; cbn; rewrite ?elem_of_cons; tauto.
Qed.

Lemma list_begin_spec h l xs :
  dll h l xs → list_begin l h = Ok (Some (List.hd (LTail l) (LNode <$> xs))).
Proof.
  intros Hd. unfold list_begin.
  rewrite load_live by (eapply dll_live; [done|left]). cbn.
  destruct Hd as (Hp & _). by destruct xs; cbn in *; destruct Hp as [-> _].
Qed.

Lemma list_empty_spec h l xs :
  dll h l xs → list_empty l h = Ok (bool_decide (xs = [])).
Proof.
  intros Hd. unfold list_empty. rewrite (list_begin_spec _ _ _ Hd). cbn. f_equal.
  apply bool_decide_ext. unfold list_end. destruct xs; cbn; split; intros; simplify_eq; done.
Qed.

Lemma list_pop_front_spec h l x xs :
  dll h l (x :: xs) →
  ∃ h', list_pop_front l h = Ok (Some (LNode x), h') ∧ dll h' l xs ∧
    (∀ c, live h' c ↔ live h c) ∧
    (∀ c, c ∉ footprint l xs → h' !! c = h !! c).
Proof.
  intros Hd. unfold list_pop_front, list_front.
  rewrite (list_empty_spec _ _ _ Hd). cbn.
  rewrite load_live by (eapply dll_live; [done|left]). cbn.
  pose proof Hd as ((Hn & _) & _). cbn in Hn. rewrite Hn.
  destruct (list_remove_spec h l [] x xs Hd) as (h' & Hop & Hd' & Hl & Hf).
  rewrite Hop. cbn. exists h'. split_and!; done.
Qed.

Lemma list_pop_back_spec h l xs x :
  dll h l (xs ++ [x]) →
  ∃ h', list_pop_back l h = Ok (Some (LNode x), h') ∧ dll h' l xs ∧
    (∀ c, live h' c ↔ live h c) ∧
    (∀ c, c ∉ footprint l xs → h' !! c = h !! c).
Proof.
  intros Hd. unfold list_pop_back, list_back.
  rewrite (list_empty_spec _ _ _ Hd).
  rewrite bool_decide_false by by destruct xs. cbn.
  rewrite load_live by (eapply dll_live; [done|right; left]). cbn.
  pose proof Hd as (Hp & _).
  rewrite fmap_app, <-app_assoc in Hp. apply path_app in Hp as [_ Hp]. cbn in Hp.
  destruct Hp as (_ & _ & _ & Hp & _). rewrite Hp.
  destruct (list_remove_spec h l xs x [] Hd) as (h' & Hop & Hd' & Hl & Hf).
  rewrite Hop. cbn. rewrite app_nil_r in Hd', Hf. exists h'. split_and!; done.
Qed.

Lemma list_pop_empty h l :
  dll h l [] → list_pop_front l h = Panic "!list_empty (list)"
             ∧ list_pop_back l h = Panic "!list_empty (list)".
Proof.
  intros Hd. unfold list_pop_front, list_pop_back, list_front, list_back.
  rewrite (list_empty_spec _ _ _ Hd). done.
Qed.

Lemma dll_links h l xs y ys :
  dll h l (xs ++ y :: ys) →
  pv h (LNode y) = Some (List.last (LNode <$> xs) (LHead l)) ∧
  nx h (LNode y) = Some (List.hd (LTail l) (LNode <$> ys)).
Proof.
  intros (Hp & _). rewrite fmap_app, <-app_assoc in Hp. apply path_app in Hp as [_ Hp].
  cbn in Hp. destruct Hp as (_ & Hp & Hq). split; [done|].
  by destruct ys; cbn in *; destruct Hq as [? _].
Qed.

Lemma list_next_spec h l xs y ys :
  dll h l (xs ++ y :: ys) →
  list_next (Some (LNode y)) h = Ok (Some (List.hd (LTail l) (LNode <$> ys))).
Proof.
  intros [Hp Hn]%dll_links. unfold list_next, is_head, is_interior.
  rewrite load_live by eauto with clist. by rewrite Hp, Hn.
Qed.

Lemma list_size_loop_spec h l xs ys fuel cnt :
  dll h l (xs ++ ys) → (length ys < fuel)%nat → 0 ≤ cnt →
  cnt + Z.of_nat (length ys) < 2 ^ 64 →
  list_size_loop fuel l (Some (List.hd (LTail l) (LNode <$> ys))) cnt h =
    Ok (cnt + Z.of_nat (length ys)).
Proof.
  revert xs cnt fuel; induction ys as [|y ys IH]; intros xs cnt fuel Hd Hf H0 Hc;
    (destruct fuel as [|fuel]; [cbn in Hf; lia|]); cbn.
  - rewrite bool_decide_true by done. f_equal. lia.
  - rewrite (list_next_spec _ _ _ _ _ Hd). cbn. cbn in Hc, Hf.
    rewrite u64_small by lia.
    rewrite (IH (xs ++ [y])); [f_equal; lia|by rewrite <-app_assoc|lia..].
Qed.

Lemma list_size_spec h l xs fuel :
  dll h l xs → (length xs < fuel)%nat → Z.of_nat (length xs) < 2 ^ 64 →
  list_size fuel l h = Ok (Z.of_nat (length xs)).
Proof.
  intros Hd Hf Hc. unfold list_size. rewrite (list_begin_spec _ _ _ Hd). cbn.
  by rewrite (list_size_loop_spec h l [] xs) by (done || lia).
Qed.

Lemma insert_ordered_loop_spec less h l xs ys x fuel :
  dll h l (xs ++ ys) → (length ys < fuel)%nat →
  ∃ pre post, ys = pre ++ post ∧
    insert_ordered_loop less fuel l (Some (LNode x)) (Some (List.hd (LTail l) (LNode <$> ys))) h =
      Ok (Some (List.hd (LTail l) (LNode <$> post))) ∧
    Forall (λ y, less (Some (LNode x)) (Some (LNode y)) = false) pre ∧
    (∀ y, head post = Some y → less (Some (LNode x)) (Some (LNode y)) = true).
Proof.
  revert xs fuel; induction ys as [|y ys IH]; intros xs fuel Hd Hf;
    (destruct fuel as [|fuel]; [cbn in Hf; lia|]); cbn.
  - exists [], []. rewrite bool_decide_true by done. done.
  - destruct (less (Some (LNode x)) (Some (LNode y))) eqn:E.
    + exists [], (y :: ys). split_and!; try done. by intros ? [= <-].
    + rewrite (list_next_spec _ _ _ _ _ Hd). cbn. cbn in Hf.
      destruct (IH (xs ++ [y]) fuel) as (pre & post & -> & Hl & Hpre & Hpost);
        [by rewrite <-app_assoc|lia|].
      exists (y :: pre), post. split_and!; try done. by constructor.
Qed.

(** [list_insert_ordered] keeps the elements sorted by any asymmetric
    comparison. *)
Lemma list_insert_ordered_spec less h l xs x fuel :
  dll h l xs → x ∉ xs → live h (LNode x) → (length xs < fuel)%nat →
  (∀ a b, less a b = true → less b a = false) →
  let le a b := less (Some (LNode b)) (Some (LNode a)) = false in
  Sorted le xs →
  ∃ h' ys, list_insert_ordered less fuel l (Some (LNode x)) h = Ok h' ∧
    dll h' l ys ∧ Permutation ys (x :: xs) ∧ Sorted le ys.
Proof.
  intros Hd Hx Hlx Hf Hasym le Hs. unfold list_insert_ordered. cbn.
  rewrite (list_begin_spec _ _ _ Hd). cbn.
  destruct (insert_ordered_loop_spec less h l [] xs x fuel)
    as (pre & post & -> & -> & Hpre & Hpost); try done. cbn.
  destruct (list_insert_dll h l pre post x) as (h' & Hop & Hd' & _); try done.
  exists h', (pre ++ x :: post). split_and!; try done.
  { symmetry. apply Permutation_middle. }
  clear -Hs Hpre Hpost Hasym. induction pre as [|a pre IH]; cbn in *.
  - constructor; [done|]. destruct post as [|y post]; [constructor|].
    constructor. unfold le. apply Hasym. by apply Hpost.
  - inversion Hpre; subst. inversion Hs as [|? ? Hs1 Hs2]; subst. constructor; [by apply IH|].
    destruct pre as [|b pre]; cbn in *; constructor; [done|]. by inversion Hs2.
Qed.
End refinement.

(** ** Reversal *)

Section reversal.
Implicit Types (h : heap) (a c : eloc) (ys : list eloc).

Lemma rev_last_tail {A} (a : A) (ys : list A) : rev (a :: ys) = List.last ys a :: List.tl (rev (a :: ys)).
Proof.
  revert a; induction ys as [|y ys IH]; intros a; [done|].
  rewrite last_cons_default. cbn [rev]. cbn [rev] in IH.
  rewrite (IH y) at 1. rewrite (IH y). done.
Qed.

Lemma path_rev h h' a ys :
  path h a ys → NoDup (a :: ys) →
  (∀ c, c ∈ ys → nx h' c = pv h c) →
  (∀ c, c ∈ a :: ys → c ≠ List.last ys a → pv h' c = nx h c) →
  path h' (List.last ys a) (List.tl (rev (a :: ys))).
Proof.
  induction ys as [|z ys IH] using rev_ind; [done|]. intros Hp Hnd Hn Hv.
  apply path_app in Hp as (Hp & Hz1 & Hz2 & _).
  rewrite last_last. rewrite app_comm_cons, rev_app_distr. cbn [rev app List.tl].
  change (rev ys ++ [a]) with (rev (a :: ys)). rewrite rev_last_tail.
  rewrite app_comm_cons in Hnd. apply NoDup_app in Hnd as (Hnd & Hd & _).
  pose proof (last_in a ys) as Hl.
  cbn [path]. split_and!.
  - rewrite Hn; [done|]. apply elem_of_app. right. by left.
  - rewrite Hv; [done|by rewrite app_comm_cons, elem_of_app; left|].
    rewrite last_last. intros Heq. apply (Hd _ Hl). rewrite Heq. left.
  - apply IH; [done|done| |].
    + intros c Hc. apply Hn. apply elem_of_app. by left.
    + intros c Hc Hne. apply Hv; [by rewrite app_comm_cons, elem_of_app; left|].
      rewrite last_last. intros ->. apply (Hd _ Hc). left.
Qed.

(** [h'] is [h] with the links of the elements of [S] exchanged. *)
Definition swapped h h' (S : list eloc) : Prop :=
  (∀ c, live h' c ↔ live h c) ∧
  (∀ c, c ∈ S → nx h' c = pv h c ∧ pv h' c = nx h c) ∧
  (∀ c, c ∉ S → nx h' c = nx h c ∧ pv h' c = pv h c).

Lemma swap_links_swapped h hk S y :
  swapped h hk S → y ∉ S → live h y →
  ∃ h', swap_links (Some y) hk = Ok h' ∧ swapped h h' (S ++ [y]).
Proof.
  intros (Hl & Hin & Hout) Hy Hly. destruct (Hout y Hy) as [Hn Hp].
  assert (Hly' : live hk y) by by apply Hl.
  unfold swap_links. rewrite load_live by done. cbn.
  rewrite set_prev_upd by done. cbn. rewrite set_next_upd by by clist_simpl.
  eexists; split; [done|]. rewrite Hn, Hp. split_and!; intros c.
  - clist_simpl. apply Hl.
  - intros [Hc| ->%list_elem_of_singleton]%elem_of_app; clist_simpl.
    + rewrite !decide_False by (by intros ->). by apply Hin.
    + by rewrite !decide_True.
  - intros [Hc Hc']%not_elem_of_app. rewrite list_elem_of_singleton in Hc'. clist_simpl.
    rewrite !decide_False by congruence. by apply Hout.
Qed.

Lemma list_reverse_loop_spec h l (xs ys : list Z) fuel hk :
  dll h l (xs ++ ys) → swapped h hk (LNode <$> xs) → (length ys < fuel)%nat →
  ∃ h', list_reverse_loop fuel l (Some (List.hd (LTail l) (LNode <$> ys))) hk = Ok h' ∧
    swapped h h' (LNode <$> xs ++ ys).
Proof.
  revert xs fuel hk; induction ys as [|y ys IH]; intros xs fuel hk Hd Hs Hf;
    (destruct fuel as [|fuel]; [cbn in Hf; lia|]); cbn.
  - rewrite bool_decide_true by done. exists hk. by rewrite app_nil_r.
  - pose proof (dll_links _ _ _ _ _ Hd) as [Hp Hn].
    destruct (swap_links_swapped h hk (LNode <$> xs) (LNode y)) as (h1 & Hop & Hs1).
    { done. }
    { intros (z & [= <-] & Hz)%list_elem_of_fmap. destruct Hd as (_ & _ & _ & Hnd).
      apply NoDup_app in Hnd as (_ & Hnd & _). apply (Hnd y Hz). left. }
    { eauto with clist. }
    rewrite Hop. cbn. rewrite load_live.
    2:{ apply Hs1. eauto with clist. }
    cbn. destruct Hs1 as (H1 & H2 & H3).
    destruct (H2 (LNode y)) as [_ ->]; [apply elem_of_app; right; by left|].
    rewrite Hn.
    destruct (IH (xs ++ [y]) fuel h1) as (h' & Hl & Hs'); [by rewrite <-app_assoc| |cbn in Hf; lia|].
    { by rewrite fmap_app. }
    exists h'. split; [done|]. by rewrite <-app_assoc in Hs'.
Qed.

Lemma swap_ends_links h l f g :
  nx h (LHead l) = Some f → pv h (LTail l) = Some g →
  live h f → live h g → f ≠ LHead l → g ≠ LTail l →
  ∃ h', swap_ends l h = Ok h' ∧
    (∀ c, nx h' c = if decide (f = c) then pv h g else if decide (LHead l = c) then Some g else nx h c) ∧
    (∀ c, pv h' c = if decide (g = c) then nx h f else if decide (LTail l = c) then Some f else pv h c).
Proof.
  intros Hh Ht Hf Hg Hfh Hgt. unfold swap_ends.
  rewrite !load_live by eauto with clist. cbn [bind le_prev le_next]. rewrite Hh, Ht.
  rewrite set_next_upd by eauto with clist. cbn [bind].
  rewrite set_prev_upd by (clist_simpl; eauto with clist). cbn [bind].
  rewrite !load_live by (clist_simpl; eauto with clist). cbn [bind le_prev le_next]. clist_simpl.
  rewrite !decide_True by done. rewrite !load_live by by clist_simpl.
  cbn [bind le_prev le_next]. clist_simpl.
  rewrite (decide_False (P := LHead l = f)), (decide_False (P := LTail l = g)) by done.
  rewrite set_prev_upd by by clist_simpl. cbn [bind].
  rewrite set_next_upd by by clist_simpl.
  eexists; split; [done|]. split; intros c; clist_simpl; done.
Qed.

Lemma fmap_last (x : Z) xs : List.last (LNode <$> xs) (LNode x) = LNode (List.last xs x).
Proof.
  revert x; induction xs as [|y ys IH]; intros x; [done|].
  by rewrite fmap_cons, !last_cons_default.
Qed.

(** The elements of a reversed list, front to back. *)
Lemma path_reverse h h' l x (xs : list Z) (L := LNode (List.last xs x)) :
  path h (LHead l) ((LNode <$> x :: xs) ++ [LTail l]) → NoDup (LNode <$> x :: xs) →
  nx h' (LHead l) = Some L → pv h' L = Some (LHead l) →
  nx h' (LNode x) = Some (LTail l) → pv h' (LTail l) = Some (LNode x) →
  (∀ c, c ∈ LNode <$> xs → nx h' c = pv h c) →
  (∀ c, c ∈ LNode <$> x :: xs → c ≠ L → pv h' c = nx h c) →
  path h' (LHead l) ((LNode <$> reverse (x :: xs)) ++ [LTail l]).
Proof.
  intros Hp Hnd H1 H2 H3 H4 Hn Hv.
  assert (Hrev : LNode <$> reverse (x :: xs) = L :: List.tl (rev (LNode <$> x :: xs))).
  { rewrite fmap_reverse. unfold reverse. rewrite <-rev_alt, fmap_cons, rev_last_tail.
    by rewrite fmap_last. }
  assert (Hlast : List.last (List.tl (rev (LNode <$> x :: xs))) L = LNode x).
  { rewrite <-(last_cons_default L _ (LHead l)), <-Hrev, fmap_reverse.
    unfold reverse. rewrite <-rev_alt. cbn [fmap list_fmap rev]. by rewrite last_last. }
  rewrite Hrev, <-app_comm_cons. cbn [path]. split_and!; [done..|].
  apply path_app. rewrite Hlast. cbn [path]. split_and!; try done.
  cbn [fmap list_fmap app path] in Hp. destruct Hp as (_ & _ & Hp). apply path_app in Hp as [Hp _].
  unfold L. rewrite <-fmap_last. rewrite fmap_cons in Hnd |- *.
  apply (path_rev h); try done. intros c Hc. rewrite fmap_last. by apply Hv.
Qed.

Lemma list_reverse_spec h l xs fuel :
  dll h l xs → (length xs < fuel)%nat →
  ∃ h', list_reverse fuel l h = Ok h' ∧ dll h' l (reverse xs).
Proof.
  intros Hd Hf. unfold list_reverse. rewrite (list_empty_spec _ _ _ Hd).
  destruct xs as [|x xs]; [by eexists|].
  rewrite bool_decide_false by done. cbn [bind].
  rewrite (list_begin_spec _ _ _ Hd). cbn [bind].
  destruct (list_reverse_loop_spec h l [] (x :: xs) fuel h) as (h1 & Hop & Hlive & Hin & Hout);
    [done|split_and!; by (done || intros ? ?%not_elem_of_nil)|done|].
  cbn [app] in Hin, Hout, Hop. rewrite Hop. cbn [bind].
  pose proof Hd as (Hpath & Hh & Ht & Hnd).
  pose proof (dll_links h l [] x xs Hd) as [Hx _].
  destruct (proj1 (path_app _ _ (LNode <$> x :: xs) _) Hpath) as [_ (HnL & HvT & _)].
  rewrite fmap_cons, last_cons_default, fmap_last in HnL, HvT.
  set (L := LNode (List.last xs x)) in *.
  assert (HLin : L ∈ LNode <$> x :: xs) by (unfold L; rewrite <-fmap_last; apply last_in).
  destruct (Hout (LHead l)) as [Eh1 Eh2]; [by intros (?&?&?)%list_elem_of_fmap|].
  destruct (Hout (LTail l)) as [Et1 Et2]; [by intros (?&?&?)%list_elem_of_fmap|].
  rewrite (proj1 Hpath) in Eh1. rewrite HvT in Et2.
  destruct (swap_ends_links h1 l (LNode x) L) as (h' & Hop' & Hnx & Hpv); try done.
  1, 2: apply Hlive; eauto with clist.
  rewrite (proj2 (Hin L HLin)), HnL in Hnx. rewrite (proj1 (Hin (LNode x) ltac:(left))), Hx in Hpv.
  exists h'. split; [done|].
  assert (HN : NoDup (LNode <$> x :: xs)) by (apply NoDup_fmap; [by intros ?? [=]|done]).
  split_and!.
  - apply (path_reverse h); try done.
    + by rewrite Hnx, decide_False, decide_True.
    + by rewrite Hpv, decide_True.
    + by rewrite Hnx, decide_True.
    + by rewrite Hpv, decide_False, decide_True.
    + intros c Hc. rewrite Hnx, decide_False, decide_False; [apply Hin; by right| |].
      * by intros <-; apply list_elem_of_fmap in Hc as (?&?&?).
      * intros <-. rewrite fmap_cons in HN. by apply NoDup_cons in HN as [? _].
    + intros c Hc HcL. rewrite Hpv, decide_False, decide_False; [by apply Hin| |done].
      by intros <-; apply list_elem_of_fmap in Hc as (?&?&?).
  - by rewrite Hpv, decide_False, decide_False, Eh2.
  - by rewrite Hnx, decide_False, decide_False, Et1.
  - by rewrite reverse_Permutation.
Qed.
End reversal.

(** ** Several lists in one heap *)

Section lists.
Implicit Types (h : heap) (ids : list Z) (F : Z → list Z) (l x : Z) (xs ys : list Z).

Definition fupd (F : Z → list Z) (l : Z) (xs : list Z) : Z → list Z :=
  λ l', if decide (l = l') then xs else F l'.

(** The lists [ids] are in the heap, [F l] being the elements of [l], and
    no element is on two of them. *)
Definition lists h ids F : Prop :=
  (∀ l, l ∈ ids → dll h l (F l)) ∧
  (∀ l1 l2 x, l1 ∈ ids → l2 ∈ ids → x ∈ F l1 → x ∈ F l2 → l1 = l2).

Lemma fupd_eq F l xs : fupd F l xs l = xs.
Proof. unfold fupd. by rewrite decide_True. Qed.
Lemma fupd_ne F l l' xs : l ≠ l' → fupd F l xs l' = F l'.
Proof. intros. unfold fupd. by rewrite decide_False. Qed.

(** An operation on list [l] that only writes to its footprint and to a
    free element keeps the other lists. *)
Lemma lists_update h h' ids F l xs x :
  lists h ids F → l ∈ ids → dll h' l xs →
  (∀ y, y ∈ xs → y ∈ F l ∨ y = x) →
  (∀ l', l' ∈ ids → l' ≠ l → x ∉ F l') →
  (∀ c, c ∉ footprint l (x :: F l) → h' !! c = h !! c) →
  lists h' ids (fupd F l xs).
Proof.
  intros [Hl Hdis] Hin Hd Hxs Hx Hfr. split.
  - intros l' Hl'. destruct (decide (l = l')) as [<-|Hne].
    { by rewrite fupd_eq. }
    rewrite fupd_ne by done. apply (dll_frame h); [by apply Hl|].
    intros c Hc. apply Hfr. unfold footprint in *. intros Hc'.
    rewrite !elem_of_cons, list_elem_of_fmap in Hc, Hc'.
    destruct Hc as [->|[->|(y&->&Hy)]]; destruct Hc' as [Heq|[Heq|(z&Heq&Hz)]]; simplify_eq.
    apply elem_of_cons in Hz as [->|Hz]; [by apply (Hx l')|].
    by apply Hne, (Hdis l l' z).
  - intros l1 l2 y H1 H2. unfold fupd. repeat case_decide; subst; try done.
    + intros Hy Hy2. destruct (Hxs _ Hy) as [?| ->]; [by apply (Hdis l1 l2 y)|].
      exfalso. by apply (Hx l2).
    + intros Hy2 Hy. destruct (Hxs _ Hy) as [?| ->]; [by apply (Hdis l1 l2 y)|].
      exfalso. by apply (Hx l1).
    + intros. by apply (Hdis l1 l2 y).
Qed.

Lemma lists_push_front h ids F l x :
  lists h ids F → l ∈ ids → live h (LNode x) → (∀ l', l' ∈ ids → x ∉ F l') →
  ∃ h', list_push_front l (Some (LNode x)) h = Ok h' ∧
    lists h' ids (fupd F l (x :: F l)) ∧ (∀ c, live h' c ↔ live h c).
Proof.
  intros HF Hl Hlx Hx. pose proof (proj1 HF l Hl) as Hd.
  destruct (list_push_front_spec h l (F l) x) as (h' & Hop & Hd' & Hlive & Hfr); auto.
  exists h'. split_and!; try done. apply (lists_update h h' ids F l _ x); auto.
  intros y [->|?]%elem_of_cons; auto.
Qed.

Lemma lists_pop_front h ids F l x xs :
  lists h ids F → l ∈ ids → F l = x :: xs →
  ∃ h', list_pop_front l h = Ok (Some (LNode x), h') ∧
    lists h' ids (fupd F l xs) ∧ (∀ c, live h' c ↔ live h c).
Proof.
  intros HF Hl HFl. pose proof (proj1 HF l Hl) as Hd. rewrite HFl in Hd.
  destruct (list_pop_front_spec h l x xs) as (h' & Hop & Hd' & Hlive & Hfr); [done|].
  exists h'. split_and!; try done. apply (lists_update h h' ids F l _ x); auto.
  - intros y ?. left. rewrite HFl. by right.
  - intros l' Hl' Hne Hin. apply Hne. symmetry. apply (proj2 HF l l' x); auto. rewrite HFl. left.
  - intros c Hc. apply Hfr. intros Hc'. apply Hc. unfold footprint in *. rewrite HFl.
    revert Hc'. cbn. rewrite !elem_of_cons. tauto.
Qed.

Lemma lists_remove h ids F l x xs ys :
  lists h ids F → l ∈ ids → F l = xs ++ x :: ys →
  ∃ h' q, list_remove (Some (LNode x)) h = Ok (q, h') ∧
    lists h' ids (fupd F l (xs ++ ys)) ∧ (∀ c, live h' c ↔ live h c).
Proof.
  intros HF Hl HFl. pose proof (proj1 HF l Hl) as Hd. rewrite HFl in Hd.
  destruct (list_remove_spec h l xs x ys) as (h' & Hop & Hd' & Hlive & Hfr); [done|].
  eexists h', _. split_and!; try done. apply (lists_update h h' ids F l _ x); auto.
  - intros y H. left. rewrite HFl. rewrite elem_of_app, elem_of_cons. apply elem_of_app in H. tauto.
  - intros l' Hl' Hne Hin. apply Hne. symmetry. apply (proj2 HF l l' x); auto. rewrite HFl.
    apply elem_of_app. right. left.
  - intros c Hc. apply Hfr. intros Hc'. apply Hc. unfold footprint in *. rewrite HFl.
    revert Hc'. cbn. rewrite !fmap_app, !elem_of_cons, !elem_of_app. cbn. rewrite elem_of_cons. tauto.
Qed.

Lemma lists_empty h ids F l :
  lists h ids F → l ∈ ids → list_empty l h = Ok (bool_decide (F l = [])).
Proof. intros HF Hl. apply list_empty_spec. by apply HF. Qed.

(** Writing an element that is on no list keeps all lists. *)
Lemma lists_store h ids F x e :
  lists h ids F → (∀ l, l ∈ ids → x ∉ F l) → lists (<[LNode x := e]> h) ids F.
Proof.
  intros [Hl Hd] Hx. split; [|done]. intros l Hin. apply (dll_frame h); [by apply Hl|].
  intros c Hc. rewrite lookup_insert_ne; [done|]. intros <-.
  unfold footprint in Hc. rewrite !elem_of_cons, list_elem_of_fmap in Hc.
  destruct Hc as [?|[?|(y&[= <-]&Hy)]]; try done. by apply (Hx l).
Qed.
End lists.

End CList.
