(* ===== verification/BuddyDefs.v ===== *)
(** * Physical memory: the buddy allocator (kernel/pmem.c), definitions

    [buddy] is [buddy_system_t]: the managed range, the bitmap (an array of
    64-bit words, one bit per page, set = used), the array of per-page nodes
    and the intrusive free lists, one per order, whose elements are the [elem]
    members of the nodes ([CList.LNode p] is [&nodes[p].elem], list [i] is
    [free_lists[i]]).  [lock] is the state of [buddy_sys.lock] as the running
    hart sees it and [mem] the contents of the managed pages.  Reads and writes
    outside the arrays are [Undef].  [printf] and the read-only diagnostics
    have no effect on this state. *)

From S2P Require Import Prelude CList.
Import CList.

Module Buddy.

Definition PGSIZE : Z := 4096.
Definition BUDDY_MAX_ORDER : Z := 11.
(** [sizeof(buddy_node_t)]: a pointer-sized address, an [int] with padding
    and a [list_elem]. *)
Definition sizeof_node : Z := 32.

(** The [addr] and [order] members of [buddy_node_t]. *)
Record node := mk_node { n_addr : Z; n_order : Z }.

Record buddy := mk_buddy {
  mem_start : Z;
  mem_end : Z;
  total_pages : Z;
  bitmap : gmap Z Z;
  nodes : gmap Z node;
  lh : heap;
  lock : bool;
  mem : Z → Z
}.

Definition with_bitmap (s : buddy) (b : gmap Z Z) : buddy :=
  mk_buddy (mem_start s) (mem_end s) (total_pages s) b (nodes s) (lh s) (lock s) (mem s).
Definition with_nodes (s : buddy) (n : gmap Z node) : buddy :=
  mk_buddy (mem_start s) (mem_end s) (total_pages s) (bitmap s) n (lh s) (lock s) (mem s).
Definition with_lh (s : buddy) (h : heap) : buddy :=
  mk_buddy (mem_start s) (mem_end s) (total_pages s) (bitmap s) (nodes s) h (lock s) (mem s).
Definition with_lock (s : buddy) (l : bool) : buddy :=
  mk_buddy (mem_start s) (mem_end s) (total_pages s) (bitmap s) (nodes s) (lh s) l (mem s).
Definition with_mem (s : buddy) (m : Z → Z) : buddy :=
  mk_buddy (mem_start s) (mem_end s) (total_pages s) (bitmap s) (nodes s) (lh s) (lock s) m.

(** [acquire(&buddy_sys.lock)] panics when this hart already holds it. *)
Definition acquire (s : buddy) : res buddy :=
  if lock s then Panic "double acquire" else Ok (with_lock s true).
Definition release (s : buddy) : res buddy :=
  if lock s then Ok (with_lock s false) else Panic "release".

(** [1 << n] on 64 bits; shifting by a negative amount or by 64 and more is
    undefined. *)
Definition shl (a n : Z) : res Z :=
  if (0 <=? n) && (n <? 64) then Ok (u64 (Z.shiftl a n)) else Undef.

Definition ALIGN_UP (num align : Z) : Z :=
  Z.land (u64 (num + (align - 1))) (Z.lnot (align - 1)).

Fixpoint get_order_loop (fuel : nat) (size temp order : Z) : res Z :=
  match fuel with
  | O => NoFuel
  | S fuel =>
      if (temp <? size) && (order <? BUDDY_MAX_ORDER)
      then get_order_loop fuel size (u64 (Z.shiftl temp 1)) (order + 1)
      else Ok order
  end.

(** At most [BUDDY_MAX_ORDER] iterations. *)
Definition get_order (size : Z) : res Z :=
  let* order := get_order_loop 12 size 1 0 in
  Ok (if BUDDY_MAX_ORDER <=? order then -1 else order).

Definition get_buddy_addr (addr order : Z) : Z :=
  let block_size := Z.shiftl PGSIZE order in
  Z.lxor addr block_size.

(** [bitmap[page >> 6] & (1ULL << (page & 0x3F))]. *)
Definition test_bit (bm : gmap Z Z) (page : Z) : res bool :=
  let* w := of_opt (bm !! Z.shiftr page 6) in
  Ok (truthy (Z.land w (Z.shiftl 1 (Z.land page 63)))).

(** [bitmap[page >> 6] |= (1ULL << (page & 0x3F))]. *)
Definition set_bit (page : Z) (bm : gmap Z Z) : res (gmap Z Z) :=
  let bitmap_idx := Z.shiftr page 6 in
  let bit_idx := Z.land page 63 in
  let* w := of_opt (bm !! bitmap_idx) in
  Ok (<[bitmap_idx := Z.lor w (Z.shiftl 1 bit_idx)]> bm).

(** [bitmap[page >> 6] &= ~(1ULL << (page & 0x3F))]. *)
Definition clear_bit (page : Z) (bm : gmap Z Z) : res (gmap Z Z) :=
  let bitmap_idx := Z.shiftr page 6 in
  let bit_idx := Z.land page 63 in
  let* w := of_opt (bm !! bitmap_idx) in
  Ok (<[bitmap_idx := Z.land w (Z.lnot (Z.shiftl 1 bit_idx))]> bm).

(** [(addr - buddy_sys.mem_start) / PGSIZE]. *)
Definition page_index (s : buddy) (addr : Z) : Z := u64 (addr - mem_start s) / PGSIZE.

Definition is_buddy_available (addr order : Z) (s : buddy) : res bool :=
  let block_size := Z.shiftl PGSIZE order in
  if (addr <? mem_start s) || (mem_end s <=? addr)
     || negb (u64 (addr - mem_start s) mod block_size =? 0)
  then Ok false
  else
    let page_idx := page_index s addr in
    let* node := of_opt (nodes s !! page_idx) in
    if (n_addr node =? addr) && (n_order node =? order)
    then let* u := test_bit (bitmap s) page_idx in Ok (negb u)
    else Ok false.

Definition set_buddy_used (addr order : Z) (s : buddy) : res buddy :=
  let block_size := Z.shiftl PGSIZE order in
  let start_page := page_index s addr in
  let end_page := start_page + block_size / PGSIZE in
  let* bm := for_range start_page end_page set_bit (bitmap s) in
  Ok (with_bitmap s bm).

Definition set_buddy_free (addr order : Z) (s : buddy) : res buddy :=
  let block_size := Z.shiftl PGSIZE order in
  let start_page := page_index s addr in
  let end_page := start_page + block_size / PGSIZE in
  let* bm := for_range start_page end_page clear_bit (bitmap s) in
  Ok (with_bitmap s bm).

(** [nodes[i].addr = addr; nodes[i].order = order]. *)
Definition set_node (i : Z) (nd : node) (ns : gmap Z node) : res (gmap Z node) :=
  let* _ := of_opt (ns !! i) in
  Ok (<[i := nd]> ns).

Definition set_block_metadata (addr order : Z) (s : buddy) : res buddy :=
  let start_page_idx := page_index s addr in
  let page_count := Z.shiftl 1 order in
  let* ns := for_range 0 page_count (λ i ns,
      let current_page_idx := start_page_idx + i in
      if current_page_idx <? total_pages s
      then set_node current_page_idx (mk_node addr order) ns
      else Ok ns) (nodes s) in
  Ok (with_nodes s ns).

(** [nodes[i].addr = addr; .order = order; .elem.prev = .elem.next = NULL]. *)
Definition reset_node (i addr order : Z) (s : buddy) : res buddy :=
  let* ns := set_node i (mk_node addr order) (nodes s) in
  let* _ := load (Some (LNode i)) (lh s) in
  Ok (with_lh (with_nodes s ns) (<[LNode i := mk_elem None None]> (lh s))).

Definition push_free (order i : Z) (s : buddy) : res buddy :=
  let* h := list_push_front order (Some (LNode i)) (lh s) in
  Ok (with_lh s h).

(** ** buddy_init *)

(** [n] array cells with the same contents. *)
Definition filled {A} (n : Z) (v : A) : gmap Z A :=
  list_to_map ((λ i, (i, v)) <$> seqZ 0 n).

Definition init_lists (h : heap) : heap :=
  foldl (λ h i, list_init i h) h (seqZ 0 (BUDDY_MAX_ORDER + 1)).

Definition bitmap_words (total : Z) : Z := (total + 63) / 64.
Definition meta_pages (total : Z) : Z :=
  let bitmap_bytes := bitmap_words total * 8 in
  let nodes_bytes := total * sizeof_node in
  let meta_total := bitmap_bytes + nodes_bytes in
  (meta_total + PGSIZE - 1) / PGSIZE.

(** One iteration of the loop that marks the metadata pages used. *)
Definition mark_meta_page (start : Z) (page_idx : Z) (s : buddy) : res buddy :=
  let* bm := set_bit page_idx (bitmap s) in
  let* ns := set_node page_idx (mk_node (u64 (start + page_idx * PGSIZE)) (-1)) (nodes s) in
  Ok (with_nodes (with_bitmap s bm) ns).

(** [while (aligned_start + block_size <= available_end)]: adds the blocks of
    one order. *)
Fixpoint add_blocks (fuel : nat) (order aligned_start available_end : Z) (s : buddy) : res buddy :=
  match fuel with
  | O => NoFuel
  | S fuel =>
      let block_size := Z.shiftl PGSIZE order in
      if u64 (aligned_start + block_size) <=? available_end then
        let page_idx := page_index s aligned_start in
        let* s := reset_node page_idx aligned_start order s in
        let* s := push_free order page_idx s in
        let* s := set_block_metadata aligned_start order s in
        add_blocks fuel order (u64 (aligned_start + block_size)) available_end s
      else Ok s
  end.

(** [while (max_order >= 0)]: the largest order of which a block fits. *)
Fixpoint add_available (fuel : nat) (max_order available_start available_end : Z) (s : buddy)
    : res buddy :=
  match fuel with
  | O => NoFuel
  | S fuel =>
      if 0 <=? max_order then
        let block_size := Z.shiftl PGSIZE max_order in
        let aligned_start := ALIGN_UP available_start block_size in
        if available_end <? u64 (aligned_start + block_size)
        then add_available fuel (max_order - 1) available_start available_end s
        else add_blocks (Z.to_nat (total_pages s) + 1) max_order aligned_start available_end s
      else Ok s
  end.

(** The list elements of the zeroed node array. *)
Definition zero_elems (n : Z) : heap :=
  list_to_map ((λ i, (LNode i, mk_elem None None)) <$> seqZ 0 n).

Definition buddy_init (start end_ : Z) (s : buddy) : res buddy :=
  let total := u64 (end_ - start) / PGSIZE in
  let h := init_lists (lh s) in
  let s := mk_buddy start end_ total
             (filled (bitmap_words total) 0) (filled total (mk_node 0 0))
             (zero_elems total ∪ h) false (mem s) in
  let meta_end := u64 (start + meta_pages total * PGSIZE) in
  let* s := for_range 0 (meta_pages total) (mark_meta_page start) s in
  add_available 13 BUDDY_MAX_ORDER meta_end end_ s.

(** ** buddy_alloc *)

(** [while (current_order > order)]: splits the block at [addr]. *)
Fixpoint split_block (fuel : nat) (current_order order addr : Z) (s : buddy) : res buddy :=
  match fuel with
  | O => NoFuel
  | S fuel =>
      if order <? current_order then
        let current_order := current_order - 1 in
        let block_size := Z.shiftl PGSIZE current_order in
        let buddy_addr := u64 (addr + block_size) in
        let buddy_page_idx := page_index s buddy_addr in
        let* s := reset_node buddy_page_idx buddy_addr current_order s in
        let* s := set_block_metadata buddy_addr current_order s in
        let* s := push_free current_order buddy_page_idx s in
        let* s := set_buddy_free buddy_addr current_order s in
        split_block fuel current_order order addr s
      else Ok s
  end.

(** [memset((void * )addr, 0, n)]. *)
Definition zero_mem (addr n : Z) (m : Z → Z) : Z → Z :=
  λ a, if (addr <=? a) && (a <? addr + n) then 0 else m a.

(** [while (current_order <= BUDDY_MAX_ORDER)]: the first non-empty list. *)
Fixpoint find_block (fuel : nat) (current_order order : Z) (s : buddy) : res (Z * buddy) :=
  match fuel with
  | O => NoFuel
  | S fuel =>
      if current_order <=? BUDDY_MAX_ORDER then
        let* empty := list_empty current_order (lh s) in
        if empty then find_block fuel (current_order + 1) order s
        else
          let* (e, h) := list_pop_front current_order (lh s) in
          match e with
          | Some (LNode i) =>
              let s := with_lh s h in
              let* node := of_opt (nodes s !! i) in
              let addr := n_addr node in
              let* s := split_block 13 current_order order addr s in
              let* s := reset_node i addr order s in
              let s := with_mem s (zero_mem addr (Z.shiftl PGSIZE order) (mem s)) in
              let* s := set_block_metadata addr order s in
              let* s := set_buddy_used addr order s in
              let* s := release s in
              Ok (addr, s)
          | _ => Undef
          end
      else
        let* s := release s in
        Ok (0, s)
  end.

(** The address of the block, 0 ([NULL]) when there is none. *)
Definition buddy_alloc (order : Z) (s : buddy) : res (Z * buddy) :=
  if (order <? 0) || (BUDDY_MAX_ORDER <? order) then Ok (0, s)
  else
    let* s := acquire s in
    find_block 13 order order s.

(** ** buddy_free *)

(** [for (page = start; page < end; page++) if (bit set) ...break;]: is a page
    of the range in use? *)
Fixpoint any_used (n : nat) (page : Z) (bm : gmap Z Z) : res bool :=
  match n with
  | O => Ok false
  | S n =>
      let* u := test_bit bm page in
      if u then Ok true else any_used n (page + 1) bm
  end.

(** [while (merge_order < BUDDY_MAX_ORDER)]: merges with free buddies. *)
Fixpoint merge_buddies (fuel : nat) (merge_addr merge_order : Z) (s : buddy)
    : res (Z * Z * buddy) :=
  match fuel with
  | O => NoFuel
  | S fuel =>
      if merge_order <? BUDDY_MAX_ORDER then
        let buddy_addr := get_buddy_addr merge_addr merge_order in
        let buddy_page_idx := page_index s buddy_addr in
        if total_pages s <=? buddy_page_idx then Ok (merge_addr, merge_order, s)
        else
          let* av := is_buddy_available buddy_addr merge_order s in
          let* buddy_node := of_opt (nodes s !! buddy_page_idx) in
          if negb av || negb (n_addr buddy_node =? buddy_addr)
             || negb (n_order buddy_node =? merge_order)
          then Ok (merge_addr, merge_order, s)
          else
            let* (_, h) := list_remove (Some (LNode buddy_page_idx)) (lh s) in
            let s := with_lh s (<[LNode buddy_page_idx := mk_elem None None]> h) in
            let merge_addr := if buddy_addr <? merge_addr then buddy_addr else merge_addr in
            let merge_order := merge_order + 1 in
            let new_page_idx := page_index s merge_addr in
            if total_pages s <=? new_page_idx
            then Panic "buddy_free: invalid merged page index"
            else
              let* s := reset_node new_page_idx merge_addr merge_order s in
              let* s := set_block_metadata merge_addr merge_order s in
              merge_buddies fuel merge_addr merge_order s
      else Ok (merge_addr, merge_order, s)
  end.

Definition buddy_free (ptr order : Z) (s : buddy) : res buddy :=
  if (ptr =? 0) || (order <? 0) || (BUDDY_MAX_ORDER <? order) then Ok s
  else
    let* s := acquire s in
    let addr := ptr in
    let page_idx := page_index s addr in
    if total_pages s <=? page_idx then Panic "buddy_free: invalid address"
    else
      let* node := of_opt (nodes s !! page_idx) in
      let actual_addr := n_addr node in
      let actual_order := n_order node in
      let* block_size := shl PGSIZE actual_order in
      let start_page := page_index s actual_addr in
      let end_page := start_page + block_size / PGSIZE in
      let* used := any_used (Z.to_nat (end_page - start_page)) start_page (bitmap s) in
      if negb used then Ok s
      else if (addr <? actual_addr) || (u64 (actual_addr + block_size) <=? addr)
      then Panic "buddy_free: address outside block"
      else
        let* s := set_buddy_free actual_addr actual_order s in
        let* (actual_addr, actual_order, s) := merge_buddies 13 actual_addr actual_order s in
        let final_page_idx := page_index s actual_addr in
        if total_pages s <=? final_page_idx
        then Panic "buddy_free: invalid final page index"
        else
          let* s := reset_node final_page_idx actual_addr actual_order s in
          let* s := set_block_metadata actual_addr actual_order s in
          let* s := push_free actual_order final_page_idx s in
          release s.

(** ** Recovery from an empty allocator *)

(** The orphan test of the two recovery scans: [full] is the test of
    [buddy_cleanup_and_rebuild], which also checks the address. *)
Definition is_orphan (full : bool) (s : buddy) (nd : node) : bool :=
  (n_order nd <? 0) || (BUDDY_MAX_ORDER <? n_order nd)
  || (full && ((n_addr nd =? 0) || (n_addr nd <? mem_start s) || (mem_end s <=? n_addr nd))).

(** One page of a recovery scan; the counter is [cleaned_pages]/[reclaimed]. *)
Definition scan_page (full : bool) (page_idx : Z) (cs : Z * buddy) : res (Z * buddy) :=
  let '(cleaned, s) := cs in
  let* u := test_bit (bitmap s) page_idx in
  if u then
    let* nd := of_opt (nodes s !! page_idx) in
    if n_order nd =? -1 then Ok (cleaned, s)
    else if is_orphan full s nd then
      let* bm := clear_bit page_idx (bitmap s) in
      let* s := reset_node page_idx (u64 (mem_start s + page_idx * PGSIZE)) 0 (with_bitmap s bm) in
      Ok (cleaned + 1, s)
    else Ok (cleaned, s)
  else Ok (cleaned, s).

(** [while (aligned_start + block_size <= available_end)] of the rebuild. *)
Fixpoint readd_blocks (fuel : nat) (order aligned_start available_end : Z) (s : buddy) : res buddy :=
  match fuel with
  | O => NoFuel
  | S fuel =>
      let block_size := Z.shiftl PGSIZE order in
      if u64 (aligned_start + block_size) <=? available_end then
        let start_page := page_index s aligned_start in
        let* used := any_used (Z.to_nat (block_size / PGSIZE)) start_page (bitmap s) in
        let* s :=
          (if used then Ok s
           else
             let* s := reset_node start_page aligned_start order s in
             let* s := set_block_metadata aligned_start order s in
             push_free order start_page s) in
        readd_blocks fuel order (u64 (aligned_start + block_size)) available_end s
      else Ok s
  end.

Fixpoint readd_available (fuel : nat) (max_order available_start available_end : Z) (s : buddy)
    : res buddy :=
  match fuel with
  | O => NoFuel
  | S fuel =>
      if 0 <=? max_order then
        let block_size := Z.shiftl PGSIZE max_order in
        let aligned_start := ALIGN_UP available_start block_size in
        if available_end <? u64 (aligned_start + block_size)
        then readd_available fuel (max_order - 1) available_start available_end s
        else readd_blocks (Z.to_nat (total_pages s) + 1) max_order aligned_start available_end s
      else Ok s
  end.

Definition buddy_cleanup_and_rebuild (s : buddy) : res buddy :=
  let* s := acquire s in
  let s := with_lh s (init_lists (lh s)) in
  let* (_, s) := for_range 0 (total_pages s) (scan_page true) (0, s) in
  let available_start := u64 (mem_start s + meta_pages (total_pages s) * PGSIZE) in
  let* s := readd_available 13 BUDDY_MAX_ORDER available_start (mem_end s) s in
  release s.

(** The free-page count of the C function is only printed. *)
Definition emergency_memory_cleanup (s : buddy) : res buddy := buddy_cleanup_and_rebuild s.

Definition force_memory_reclaim (s : buddy) : res buddy :=
  let* s := acquire s in
  let* (reclaimed, s) :=
    for_range (meta_pages (total_pages s)) (total_pages s) (scan_page false) (0, s) in
  let* s := release s in
  if 0 <? reclaimed then buddy_cleanup_and_rebuild s else Ok s.

(** ** The page allocator interface *)

Definition pmem_alloc_pages (npages : Z) (s : buddy) : res (Z * buddy) :=
  if npages <=? 0 then Ok (0, s)
  else
    let* order := get_order npages in
    if order =? -1 then Ok (0, s)
    else
      let* (ptr, s) := buddy_alloc order s in
      if ptr =? 0 then
        let* s := emergency_memory_cleanup s in
        let* (ptr, s) := buddy_alloc order s in
        if ptr =? 0 then
          let* s := force_memory_reclaim s in
          buddy_alloc order s
        else Ok (ptr, s)
      else Ok (ptr, s).

(** The value [1UL << actual_order] is used after the test of the order. *)
Definition pmem_free_pages (ptr npages : Z) (s : buddy) : res buddy :=
  if (ptr =? 0) || (npages <=? 0) then Ok s
  else if (ptr <? mem_start s) || (mem_end s <=? ptr) then Ok s
  else
    let page_idx := page_index s ptr in
    if total_pages s <=? page_idx then Ok s
    else
      let* nd := of_opt (nodes s !! page_idx) in
      let block_start := n_addr nd in
      let actual_order := n_order nd in
      if (block_start <? mem_start s) || (mem_end s <=? block_start) then Ok s
      else if (actual_order <? 0) || (BUDDY_MAX_ORDER <? actual_order) then Ok s
      else
        let* actual_pages := shl 1 actual_order in
        if actual_pages <? npages then Ok s
        else
          let* block_size := shl PGSIZE actual_order in
          if negb (block_start mod block_size =? 0) then Ok s
          else
            let start_page := page_index s block_start in
            let end_page := start_page + actual_pages in
            let* used := any_used (Z.to_nat (end_page - start_page)) start_page (bitmap s) in
            if negb used then Ok s
            else buddy_free block_start actual_order s.

Definition kalloc (s : buddy) : res (Z * buddy) :=
  let* (ptr, s) := pmem_alloc_pages 1 s in
  if ptr =? 0 then Panic "kmalloc failed" else Ok (ptr, s).

Definition kfree (ptr : Z) (s : buddy) : res buddy := pmem_free_pages ptr 1 s.

(** The size arguments are ignored by the C functions. *)
Definition kmalloc (size : Z) (s : buddy) : res (Z * buddy) := kalloc s.
Definition kcalloc (n size : Z) (s : buddy) : res (Z * buddy) := kalloc s.

(** [hsai_get_mem_start()] is the linker symbol [KERNEL_DATA], an argument. *)
Definition PAGE_NUM : Z := 250 * 1024.
Definition PGROUNDUP (sz : Z) : Z := Z.land (u64 (sz + PGSIZE - 1)) (Z.lnot (PGSIZE - 1)).
Definition pmem_init (kernel_data : Z) (s : buddy) : res buddy :=
  let mem_start := PGROUNDUP kernel_data in
  let mem_end := u64 (mem_start + PAGE_NUM * PGSIZE) in
  buddy_init mem_start mem_end s.

End Buddy.
