(* ===== verification/BuddyBits.v ===== *)
(** * The page bitmap and the node array of the buddy allocator

    Functional behaviour of the loops over pages: [used] reads the bit of a
    page, and setting, clearing or testing the bits of a block and writing the
    metadata of a block act on exactly the pages of the block. *)

From S2P Require Import Prelude CList BuddyDefs.
Import CList Buddy.

Module BuddyBits.

(** Is page [p] marked used? *)
Definition used (bm : gmap Z Z) (p : Z) : bool :=
  match bm !! (p / 64) with
  | Some w => Z.testbit w (p mod 64)
  | None => false
  end.

(** The bitmap has a word for each of the first [n] pages. *)
Definition covers (bm : gmap Z Z) (n : Z) : Prop :=
  ∀ p, 0 ≤ p < n → is_Some (bm !! (p / 64)).

Lemma truthy_land_bit w b : 0 ≤ b → truthy (Z.land w (Z.shiftl 1 b)) = Z.testbit w b.
Proof.
  intros Hb. unfold truthy. destruct (Z.testbit w b) eqn:E.
  - apply negb_true_iff, Z.eqb_neq. intros H.
    assert (Z.testbit (Z.land w (Z.shiftl 1 b)) b = true) as Ht.
    { rewrite Z.land_spec, Z.shiftl_spec, E by done. by rewrite Z.sub_diag. }
    by rewrite H, Z.bits_0 in Ht.
  - apply negb_false_iff, Z.eqb_eq. apply Z.bits_inj'. intros n Hn.
    rewrite Z.bits_0, Z.land_spec, Z.shiftl_1_l, Z.pow2_bits_eqb by done.
    destruct (Z.eqb_spec b n); [subst; by rewrite E|by rewrite andb_false_r].
Qed.

Lemma word_index p : Z.shiftr p 6 = p / 64.
Proof. by rewrite Z.shiftr_div_pow2. Qed.
Lemma bit_index p : Z.land p 63 = p mod 64.
Proof. change 63 with (Z.ones 6). by rewrite Z.land_ones. Qed.

Lemma test_bit_used bm p : is_Some (bm !! (p / 64)) → test_bit bm p = Ok (used bm p).
Proof.
  intros [w Hw]. unfold test_bit, used. rewrite word_index, bit_index, Hw. cbn.
  rewrite truthy_land_bit; [done|]. apply Z.mod_pos_bound. lia.
Qed.

(** [upd_bit v] is [set_bit] or [clear_bit]. *)
Definition upd_bit (v : bool) : Z → gmap Z Z → res (gmap Z Z) :=
  if v then set_bit else clear_bit.

Lemma upd_bit_spec v bm p :
  0 ≤ p → is_Some (bm !! (p / 64)) →
  ∃ bm', upd_bit v p bm = Ok bm' ∧
    (∀ i, is_Some (bm' !! i) ↔ is_Some (bm !! i)) ∧
    (∀ q, 0 ≤ q → used bm' q = if decide (q = p) then v else used bm q).
Proof.
  intros Hp [w Hw].
  set (w' := if v then Z.lor w (Z.shiftl 1 (p mod 64)) else Z.land w (Z.lnot (Z.shiftl 1 (p mod 64)))).
  assert (Hop : upd_bit v p bm = Ok (<[p / 64 := w']> bm)).
  { unfold upd_bit, set_bit, clear_bit, w'. destruct v; cbv beta zeta; by rewrite word_index, bit_index, Hw. }
  assert (Hbit : ∀ b, 0 ≤ b → Z.testbit w' b = if decide (b = p mod 64) then v else Z.testbit w b).
  { intros b Hb. pose proof (Z.mod_pos_bound p 64 ltac:(lia)) as Hm.
    unfold w'. destruct v.
    - rewrite Z.lor_spec, Z.shiftl_1_l, Z.pow2_bits_eqb by lia.
      case_decide; [subst; by rewrite Z.eqb_refl, orb_true_r|].
      by rewrite (proj2 (Z.eqb_neq _ _)), orb_false_r by congruence.
    - rewrite Z.land_spec, Z.lnot_spec, Z.shiftl_1_l, Z.pow2_bits_eqb by lia.
      case_decide; [subst; by rewrite Z.eqb_refl, andb_false_r|].
      by rewrite (proj2 (Z.eqb_neq _ _)), andb_true_r by congruence. }
  exists (<[p / 64 := w']> bm). split_and!; [done| |].
  - intros i. rewrite lookup_insert_is_Some. destruct (decide (p / 64 = i)); [subst; split; eauto|tauto].
  - intros q Hq. unfold used. rewrite lookup_insert. destruct (decide (p / 64 = q / 64)) as [E|E].
    + rewrite Hbit by (apply Z.mod_pos_bound; lia). rewrite <-E, Hw.
      repeat case_decide; try done; exfalso.
      * pose proof (Z.div_mod p 64). pose proof (Z.div_mod q 64). lia.
      * by subst.
    + rewrite (decide_False (P := q = p)); [done|]. by intros ->.
Qed.

(** Updating the bits of the pages [lo .. hi-1]. *)
Lemma upd_range_spec v bm lo hi n :
  0 ≤ lo ≤ hi → hi ≤ n → covers bm n →
  ∃ bm', for_range lo hi (upd_bit v) bm = Ok bm' ∧ covers bm' n ∧
    (∀ q, 0 ≤ q → used bm' q = if decide (lo ≤ q < hi) then v else used bm q).
Proof.
  intros Hlo Hhi Hc.
  destruct (for_range_inv (λ i b, covers b n ∧
      ∀ q, 0 ≤ q → used b q = if decide (lo ≤ q < i) then v else used bm q)
    lo hi (upd_bit v) bm) as (bm' & Hop & Hc' & Hu); [lia| | |eauto].
  - split; [done|]. intros q Hq. by rewrite decide_False by lia.
  - intros i b Hi [Hcb Hub].
    destruct (upd_bit_spec v b i) as (b' & Hop & Hs & Hu); [lia|apply Hcb; lia|].
    exists b'. split_and!; [done|intros p Hp; by apply Hs, Hcb|].
    intros q Hq. rewrite Hu, Hub by done.
    repeat case_decide; try done; lia.
Qed.

(** The early-exit scan finds a used page iff there is one. *)
Lemma any_used_spec bm n lo k :
  0 ≤ lo → lo + Z.of_nat k ≤ n → covers bm n →
  ∃ b, any_used k lo bm = Ok b ∧
    (b = true ↔ ∃ p, lo ≤ p < lo + Z.of_nat k ∧ used bm p = true).
Proof.
  revert lo; induction k as [|k IH]; intros lo Hlo Hn Hc; cbn.
  - exists false. split; [done|]. split; [done|]. intros (p & ? & _). lia.
  - rewrite test_bit_used by (apply Hc; lia). cbn. destruct (used bm lo) eqn:E.
    + exists true. split; [done|]. split; [|done]. intros _. exists lo. split; [lia|done].
    + destruct (IH (lo + 1)) as (b & -> & Hb); [lia|lia|done|]. exists b. split; [done|].
      rewrite Hb. split; intros (p & Hp & Hu); exists p.
      * split; [lia|done].
      * split; [|done]. destruct (decide (p = lo)); [congruence|lia].
Qed.

(** Writing the metadata of [cnt] pages starting at [st]. *)
Lemma set_nodes_spec (ns : gmap Z node) st cnt n nd :
  0 ≤ st → 0 ≤ cnt → st + cnt ≤ n → (∀ p, 0 ≤ p < n → is_Some (ns !! p)) →
  ∃ ns', for_range 0 cnt (λ i ns,
      if st + i <? n then set_node (st + i) nd ns else Ok ns) ns = Ok ns' ∧
    (∀ p, ns' !! p = if decide (st ≤ p < st + cnt) then Some nd else ns !! p).
Proof.
  intros Hst Hcnt Hn Hdom.
  destruct (for_range_inv (λ i (m : gmap Z node),
      ∀ p, m !! p = if decide (st ≤ p < st + i) then Some nd else ns !! p)
    0 cnt (λ i ns, if st + i <? n then set_node (st + i) nd ns else Ok ns) ns)
    as (ns' & Hop & Hm); [lia| | |eauto].
  - intros p. by rewrite decide_False by lia.
  - intros i m Hi Hm. rewrite (proj2 (Z.ltb_lt _ _)) by lia.
    unfold set_node. rewrite Hm, decide_False by lia.
    destruct (Hdom (st + i)) as [x Hx]; [lia|]. rewrite Hx. cbn.
    eexists; split; [done|]. intros p. rewrite lookup_insert, Hm.
    repeat case_decide; try done; lia.
Qed.

End BuddyBits.
