(* ===== verification/BuddyInv.v ===== *)
(** * The invariant of the buddy allocator

    Every page outside a set [H] of pages (the block an operation is working
    on, empty between operations) is a metadata page, a page no block covers,
    or a page of a block: a naturally aligned run of [2^order] pages whose
    nodes all name the block and whose bits agree.  The free lists hold
    exactly the first pages of the free blocks of their order.  The lemmas
    take a block out of the invariant and put one back; the operations are
    compositions of the two. *)

From S2P Require Import Prelude CList BuddyDefs BuddyBits.
Import CList Buddy BuddyBits.

Module BuddyInv.

Definition paddr (s : buddy) (p : Z) : Z := mem_start s + PGSIZE * p.

Definition orders : list Z := seqZ 0 12.

(** Page [p] heads a free block of order [o]. *)
Definition free_head (s : buddy) (o p : Z) : Prop :=
  nodes s !! p = Some (mk_node (paddr s p) o) ∧ used (bitmap s) p = false.

(** The pages [q .. q + 2^o - 1] can be a block. *)
Definition block_ok (s : buddy) (q o : Z) : Prop :=
  0 ≤ o ≤ BUDDY_MAX_ORDER ∧ meta_pages (total_pages s) ≤ q ∧
  q + 2 ^ o ≤ total_pages s ∧ paddr s q mod (PGSIZE * 2 ^ o) = 0.

Definition in_block (q o p : Z) : Prop := q ≤ p < q + 2 ^ o.

(** The nodes and bits of the block agree. *)
Definition uniform (s : buddy) (q o : Z) (v : bool) : Prop :=
  ∀ r, in_block q o r →
    nodes s !! r = Some (mk_node (paddr s q) o) ∧ used (bitmap s) r = v.

Definition page_ok (s : buddy) (H : Z → Prop) (p : Z) : Prop :=
  ∃ nd, nodes s !! p = Some nd ∧
    ((n_order nd = -1 ∧ used (bitmap s) p = true) ∨
     (nd = mk_node 0 0 ∧ used (bitmap s) p = false) ∨
     (∃ q o, nd = mk_node (paddr s q) o ∧ block_ok s q o ∧ in_block q o p ∧
        uniform s q o (used (bitmap s) p) ∧ ∀ r, in_block q o r → ¬ H r)).

(** Geometry of the managed range and sizes of the arrays. *)
Record geom (s : buddy) : Prop := {
  g_align : mem_start s mod PGSIZE = 0;
  g_pos : 0 < mem_start s;
  g_total : 0 ≤ total_pages s;
  g_end : mem_end s = paddr s (total_pages s);
  g_bound : mem_end s ≤ 2 ^ 56;
  g_nodes : ∀ p, 0 ≤ p < total_pages s → is_Some (nodes s !! p);
  g_cover : covers (bitmap s) (total_pages s);
  g_elems : ∀ p, 0 ≤ p < total_pages s → live (lh s) (LNode p)
}.

Record core (s : buddy) (H : Z → Prop) : Prop := {
  c_geom : geom s;
  c_meta : ∀ p, 0 ≤ p < meta_pages (total_pages s) →
    p < total_pages s ∧ ¬ H p ∧ nodes s !! p = Some (mk_node (paddr s p) (-1));
  c_pages : ∀ p, 0 ≤ p < total_pages s → ¬ H p → page_ok s H p
}.

(** [F o] are the heads of the free blocks of order [o] outside [H]. *)
Definition flists (s : buddy) (H : Z → Prop) (F : Z → list Z) : Prop :=
  ∀ o p, 0 ≤ o ≤ BUDDY_MAX_ORDER →
    (p ∈ F o ↔ 0 ≤ p < total_pages s ∧ ¬ H p ∧ free_head s o p).

Definition wfx (s : buddy) (H : Z → Prop) : Prop :=
  core s H ∧ ∃ F, lists (lh s) orders F ∧ flists s H F.

Definition none (p : Z) : Prop := False.

(** The invariant between operations. *)
Definition wf (s : buddy) : Prop := wfx s none.

(** ** Arithmetic *)

Lemma elem_of_orders o : o ∈ orders ↔ 0 ≤ o ≤ BUDDY_MAX_ORDER.
Proof. unfold orders, BUDDY_MAX_ORDER. rewrite elem_of_seqZ. lia. Qed.

Lemma meta_pages_nonneg n : 0 ≤ n → 0 ≤ meta_pages n.
Proof.
  intros H. unfold meta_pages, bitmap_words, sizeof_node, PGSIZE.
  pose proof (Z.div_pos (n + 63) 64). apply Z.div_pos; lia.
Qed.

Lemma pow2_pos o : 0 ≤ o → 0 < 2 ^ o.
Proof. intros. by apply Z.pow_pos_nonneg. Qed.

Lemma shiftl_page o : 0 ≤ o → Z.shiftl PGSIZE o = PGSIZE * 2 ^ o.
Proof. intros. by rewrite Z.shiftl_mul_pow2. Qed.

Lemma shiftl_one o : 0 ≤ o → Z.shiftl 1 o = 2 ^ o.
Proof. intros. by rewrite Z.shiftl_mul_pow2, Z.mul_1_l. Qed.

Lemma paddr_inj s p q : paddr s p = paddr s q → p = q.
Proof. unfold paddr, PGSIZE. lia. Qed.

Section geometry.
Context (s : buddy) (Hg : geom s).

Lemma paddr_bound p : 0 ≤ p ≤ total_pages s → 0 < paddr s p ≤ 2 ^ 56.
Proof.
  pose proof (g_end _ Hg). pose proof (g_bound _ Hg). pose proof (g_pos _ Hg).
  unfold paddr, PGSIZE in *. lia.
Qed.

Lemma page_index_paddr p : 0 ≤ p ≤ total_pages s → page_index s (paddr s p) = p.
Proof.
  intros Hp. pose proof (paddr_bound p Hp). pose proof (g_pos _ Hg).
  unfold page_index, paddr in *. rewrite u64_small by (unfold PGSIZE in *; lia).
  replace (mem_start s + PGSIZE * p - mem_start s) with (p * PGSIZE) by lia.
  apply Z.div_mul. by unfold PGSIZE.
Qed.

(** Any address of a page. *)
Lemma page_index_in p a :
  0 ≤ p < total_pages s → paddr s p ≤ a < paddr s p + PGSIZE → page_index s a = p.
Proof.
  intros Hp Ha. pose proof (paddr_bound p ltac:(lia)). pose proof (paddr_bound (p + 1) ltac:(lia)).
  pose proof (g_pos _ Hg). unfold page_index, paddr, PGSIZE in *.
  rewrite u64_small by lia. symmetry. apply Z.div_unique with (r := a - mem_start s - 4096 * p); lia.
Qed.

(** An address outside the range has a page index outside the arrays. *)
Lemma page_index_out a :
  0 ≤ a < 2 ^ 64 → a < mem_start s ∨ mem_end s ≤ a → total_pages s ≤ page_index s a.
Proof.
  intros Ha Hout. pose proof (g_pos _ Hg) as Hpos. pose proof (g_total _ Hg) as Htot.
  pose proof (g_end _ Hg) as Hend. pose proof (g_bound _ Hg) as Hb. unfold page_index.
  apply Z.div_le_lower_bound; [by unfold PGSIZE|]. rewrite Hend in Hb, Hout.
  unfold paddr, PGSIZE in *. unfold u64. destruct Hout as [Hout|Hout].
  - replace (a - mem_start s) with (a - mem_start s + 2 ^ 64 + (-1) * 2 ^ 64) by lia.
    rewrite Z.mod_add by lia. rewrite Z.mod_small by lia. lia.
  - rewrite Z.mod_small by lia. lia.
Qed.
End geometry.

(** ** Blocks determine their pages *)

Lemma uniform_same s q o v q' o' v' r :
  uniform s q o v → uniform s q' o' v' → in_block q o r → in_block q' o' r → q = q' ∧ o = o'.
Proof.
  intros H1 H2 Hr Hr'. destruct (H1 r Hr) as [E _]. destruct (H2 r Hr') as [E' _].
  rewrite E in E'. injection E' as Ha Ho. split; [|done]. by eapply paddr_inj.
Qed.

Lemma in_block_head q o : 0 ≤ o → in_block q o q.
Proof. intros H. unfold in_block. pose proof (pow2_pos o H). lia. Qed.

(** A node with a valid order describes a whole block. *)
Lemma page_block s H p a o :
  core s H → 0 ≤ p < total_pages s → ¬ H p →
  nodes s !! p = Some (mk_node a o) → 0 ≤ o → a ≠ 0 →
  ∃ q, a = paddr s q ∧ block_ok s q o ∧ in_block q o p ∧
    uniform s q o (used (bitmap s) p) ∧ ∀ r, in_block q o r → ¬ H r.
Proof.
  intros [Hg Hm Hp] Hr HH Hn Ho Ha. destruct (Hp p Hr HH) as (nd & Hn' & Hc).
  rewrite Hn in Hn'. injection Hn' as <-. destruct Hc as [[? _]|[[[= -> _] _]|(q & o' & [= -> <-] & ?)]].
  - cbn in *. lia.
  - done.
  - eauto.
Qed.

Lemma free_head_block s H o p :
  core s H → 0 ≤ p < total_pages s → ¬ H p → 0 ≤ o → free_head s o p →
  block_ok s p o ∧ uniform s p o false ∧ ∀ r, in_block p o r → ¬ H r.
Proof.
  intros Hc Hr HH Ho [Hn Hu]. pose proof (c_geom _ _ Hc) as Hg.
  destruct (page_block s H p (paddr s p) o Hc Hr HH Hn Ho) as (q & Heq & Hb & Hin & Hun & Hd).
  { pose proof (paddr_bound s Hg p). lia. }
  apply paddr_inj in Heq as <-. rewrite Hu in Hun. done.
Qed.

(** ** Taking a block out *)

(** [H'] is [H] with the pages of a block added. *)
Definition extends (H H' : Z → Prop) (q o : Z) : Prop :=
  ∀ r, H' r ↔ H r ∨ in_block q o r.

Lemma core_take s H H' q o v :
  core s H → block_ok s q o → uniform s q o v → extends H H' q o → core s H'.
Proof.
  intros [Hg Hm Hp] Hb Hu He. unfold extends in He. split; [done| |].
  - intros p Hpm. destruct (Hm p Hpm) as (Hlt & HH & Hn). split_and!; try done.
    rewrite He. intros [?|Hin]; [done|]. destruct Hb as (_ & Hmq & _). unfold in_block in Hin. lia.
  - intros p Hr HH'. rewrite He in HH'. destruct (Hp p Hr) as (nd & Hn & Hc); [tauto|].
    exists nd. split; [done|]. destruct Hc as [?|[?|(q' & o' & -> & Hb' & Hin & Hu' & Hd)]]; [tauto|tauto|].
    right; right. exists q', o'. split_and!; try done.
    intros r Hr'. rewrite He. intros [?|Hrb]; [by apply (Hd r)|].
    destruct (uniform_same s q o v q' o' _ r Hu Hu' Hrb Hr') as [<- <-]. tauto.
Qed.

(** A used block was on no free list. *)
Lemma flists_take_used s H H' F q o :
  uniform s q o true → extends H H' q o → flists s H F → flists s H' F.
Proof.
  intros Hu He HF o' p Ho. unfold extends in He. rewrite (HF o' p Ho), He.
  split; [|tauto]. intros (Hr & HH & Hn & Hus). split; [done|]. split; [|by split].
  intros [?|Hin]; [done|]. destruct (Hu p Hin) as [_ Hu']. congruence.
Qed.

(** A free block leaves its free list. *)
Lemma flists_take_free s H H' F q o xs ys :
  uniform s q o false → extends H H' q o → flists s H F → 0 ≤ o ≤ BUDDY_MAX_ORDER →
  F o = xs ++ q :: ys → NoDup (F o) →
  flists s H' (fupd F o (xs ++ ys)).
Proof.
  intros Hu He HF Ho HFo Hnd o' p Ho'. unfold extends in He. rewrite He.
  rewrite HFo in Hnd. apply NoDup_app in Hnd as (_ & Hnd1 & [Hnd2 _]%NoDup_cons).
  assert (Hq : q ∉ xs ++ ys).
  { rewrite not_elem_of_app. split; [|done]. intros Hq. apply (Hnd1 q Hq). left. }
  assert (Hin : p ∈ fupd F o (xs ++ ys) o' ↔ p ∈ F o' ∧ ¬ (p = q ∧ o' = o)).
  { unfold fupd. case_decide as E; [subst o'|clear -E; naive_solver].
    rewrite HFo, !elem_of_app, elem_of_cons. rewrite elem_of_app in Hq.
    split; [intros Hp; split; [tauto|intros [-> _]; tauto]|tauto]. }
  rewrite Hin, (HF o' p Ho'). split.
  - intros [(Hr & HH & Hn & Hus) Hne]. split; [done|]. split; [|by split]. intros [?|Hb]; [done|].
    destruct (Hu p Hb) as [Hn' _]. rewrite Hn in Hn'. injection Hn' as Ha Hoo.
    apply Hne. split; [by eapply paddr_inj|done].
  - intros (Hr & HH & Hfh). split_and!; try tauto. intros [-> ->]. apply HH. right.
    apply in_block_head. lia.
Qed.

(** ** Putting a block back *)

Definition same_geom (s s' : buddy) : Prop :=
  mem_start s' = mem_start s ∧ mem_end s' = mem_end s ∧ total_pages s' = total_pages s.

(** [s'] differs from [s] only on the pages of [H]. *)
Record agrees (s s' : buddy) (H : Z → Prop) : Prop := {
  a_geom : same_geom s s';
  a_dom : ∀ p, is_Some (nodes s' !! p) ↔ is_Some (nodes s !! p);
  a_cover : covers (bitmap s') (total_pages s);
  a_live : ∀ c, live (lh s') c ↔ live (lh s) c;
  a_nodes : ∀ p, 0 ≤ p → ¬ H p → nodes s' !! p = nodes s !! p;
  a_bits : ∀ p, 0 ≤ p → ¬ H p → used (bitmap s') p = used (bitmap s) p
}.

Lemma same_geom_paddr s s' p : same_geom s s' → paddr s' p = paddr s p.
Proof. intros (E & _). unfold paddr. by rewrite E. Qed.

Lemma geom_agrees s s' H : geom s → agrees s s' H → geom s'.
Proof.
  intros [] [(E1 & E2 & E3) Hd Hcv Hl _ _]. split; rewrite ?E1, ?E2, ?E3; try done.
  - rewrite g_end0. unfold paddr. by rewrite E1.
  - intros p Hp. by apply Hd, g_nodes0.
  - intros p Hp. by apply Hl, g_elems0.
Qed.

Lemma block_ok_geom s s' q o : same_geom s s' → block_ok s q o ↔ block_ok s' q o.
Proof.
  intros Hs. pose proof (same_geom_paddr s s' q Hs) as E. destruct Hs as (_ & _ & E3).
  unfold block_ok. by rewrite E, E3.
Qed.

Lemma block_nonneg s q o : geom s → block_ok s q o → 0 ≤ q.
Proof. intros Hg (_ & Hq & _). pose proof (meta_pages_nonneg _ (g_total _ Hg)). lia. Qed.

Lemma page_ok_agrees s s' H H' p :
  geom s → agrees s s' H → (∀ r, H' r → H r) → 0 ≤ p → ¬ H p → page_ok s H p → page_ok s' H' p.
Proof.
  intros Hg Ha Hsub Hp0 HH (nd & Hn & Hc). pose proof (a_geom _ _ _ Ha) as Hs.
  exists nd. rewrite (a_nodes _ _ _ Ha), (a_bits _ _ _ Ha) by done. split; [done|].
  destruct Hc as [?|[?|(q & o & -> & Hb & Hin & Hu & Hd)]]; [tauto|tauto|].
  right; right. exists q, o. rewrite (same_geom_paddr _ _ _ Hs). split_and!; try done.
  - by rewrite <-block_ok_geom.
  - intros r Hr. pose proof (block_nonneg _ _ _ Hg Hb). unfold in_block in Hr.
    rewrite (same_geom_paddr _ _ _ Hs), (a_nodes _ _ _ Ha), (a_bits _ _ _ Ha);
      [by apply Hu|lia|by apply Hd|lia|by apply Hd].
  - intros r Hr HrH. by apply (Hd r), Hsub.
Qed.

Lemma core_give s s' H H' q o v :
  core s H → agrees s s' H → block_ok s q o → uniform s' q o v →
  extends H' H q o → (∀ r, in_block q o r → ¬ H' r) → core s' H'.
Proof.
  intros [Hg Hm Hp] Ha Hb Hu He Hdis. unfold extends in He. pose proof (a_geom _ _ _ Ha) as Hs.
  assert (Hsub : ∀ r, H' r → H r) by (intros; apply He; tauto).
  destruct (Hs) as (E1 & E2 & E3). split.
  - by apply (geom_agrees s s' H).
  - intros p. rewrite E3. intros Hpm. destruct (Hm p Hpm) as (Hlt & HH & Hn).
    split_and!; [done|by intros ?%Hsub|].
    rewrite (a_nodes _ _ _ Ha), (same_geom_paddr _ _ _ Hs) by (done || lia). done.
  - intros p. rewrite E3. intros Hr HH'.
    destruct (decide (q ≤ p < q + 2 ^ o)) as [Hin|Hout].
    + destruct (Hu p Hin) as [Hn Hus]. eexists. split; [done|]. right; right.
      exists q, o. split_and!; try done; [by rewrite <-block_ok_geom|]. by rewrite Hus.
    + assert (¬ H p) by (rewrite He; unfold in_block; tauto).
      apply (page_ok_agrees s s' H); auto. lia.
Qed.

(** The hole may be changed freely. *)
Lemma core_agrees s s' H : core s H → agrees s s' H → core s' H.
Proof.
  intros [Hg Hm Hp] Ha. pose proof (a_geom _ _ _ Ha) as Hs. destruct (Hs) as (E1 & E2 & E3). split.
  - by apply (geom_agrees s s' H).
  - intros p. rewrite E3. intros Hpm. destruct (Hm p Hpm) as (Hlt & HH & Hn). split_and!; try done.
    rewrite (a_nodes _ _ _ Ha), (same_geom_paddr _ _ _ Hs) by (done || lia). done.
  - intros p. rewrite E3. intros Hr HH. apply (page_ok_agrees s s' H); auto. lia.
Qed.

Lemma free_head_agrees s s' H o p :
  agrees s s' H → 0 ≤ p → ¬ H p → free_head s' o p ↔ free_head s o p.
Proof.
  intros Ha Hp HH. unfold free_head.
  by rewrite (a_nodes _ _ _ Ha), (a_bits _ _ _ Ha), (same_geom_paddr _ _ _ (a_geom _ _ _ Ha)).
Qed.

Lemma flists_agrees s s' H F : agrees s s' H → flists s H F → flists s' H F.
Proof.
  intros Ha HF o p Ho. rewrite (HF o p Ho). destruct (a_geom _ _ _ Ha) as (_ & _ & ->).
  split; intros (Hr & HH & Hf); (split; [done|]); (split; [done|]);
    apply (free_head_agrees s s' H); by (done || lia).
Qed.

Lemma flists_give s s' H H' F q o v :
  core s H → agrees s s' H → block_ok s q o → uniform s' q o v →
  extends H' H q o → (∀ r, in_block q o r → ¬ H' r) → flists s H F →
  flists s' H' (if v then F else fupd F o (q :: F o)).
Proof.
  intros [Hg Hm Hp] Ha Hb Hu He Hdis HF o' p Ho'. unfold extends in He.
  pose proof (a_geom _ _ _ Ha) as Hs. destruct (Hs) as (E1 & E2 & E3).
  assert (Hin : p ∈ (if v then F else fupd F o (q :: F o)) o' ↔ p ∈ F o' ∨ (v = false ∧ p = q ∧ o' = o)).
  { destruct v; [naive_solver|]. unfold fupd. case_decide; subst; rewrite ?elem_of_cons; naive_solver. }
  rewrite Hin, (HF o' p Ho'), E3. clear Hin. split.
  - intros [(Hr & HH & Hf)|(-> & -> & ->)].
    + split_and!; [lia|lia|by rewrite He in HH; tauto|]. apply (free_head_agrees s s' H); auto. lia.
    + destruct Hb as (Hb1 & Hb2 & Hb3 & Hb4). pose proof (in_block_head q o ltac:(lia)) as Hqh.
      pose proof (meta_pages_nonneg _ (g_total _ Hg)). pose proof (pow2_pos o ltac:(lia)).
      split_and!; [lia|lia|by apply Hdis|]. destruct (Hu q Hqh). unfold free_head.
      by rewrite (same_geom_paddr _ _ _ Hs) in *.
  - intros (Hr & HH & Hn & Hus). destruct (decide (q ≤ p < q + 2 ^ o)) as [Hb'|Hb'].
    + right. destruct (Hu p Hb') as [Hn' Hus']. rewrite Hn in Hn'. injection Hn' as Ha1 Ha2.
      apply paddr_inj in Ha1. split_and!; congruence.
    + left. assert (HnH : ¬ H p) by (rewrite He; unfold in_block; tauto).
      split_and!; try done; try lia. apply (free_head_agrees s s' H); [done|lia|done|]. by split.
Qed.

(** The hole is a set. *)
Lemma wfx_iff s H H' : (∀ r, H r ↔ H' r) → wfx s H → wfx s H'.
Proof.
  intros Hiff ([Hg Hm Hp] & F & HF & Hfl). split; [split; [done|..]|].
  - intros p Hpm. rewrite <-Hiff. by apply Hm.
  - intros p Hr. rewrite <-Hiff. intros HH. destruct (Hp p Hr HH) as (nd & Hn & Hc). exists nd.
    split; [done|]. destruct Hc as [?|[?|(q & o & ? & ? & ? & ? & Hd)]]; [tauto|tauto|].
    right; right. exists q, o. split_and!; try done. intros r Hr'. rewrite <-Hiff. by apply Hd.
  - exists F. split; [done|]. intros o p Ho. rewrite <-Hiff. by apply Hfl.
Qed.

End BuddyInv.
