(* ===== verification/BuddyOps.v ===== *)
(** * The buddy allocator keeps its invariant

    [buddy_alloc] and [buddy_free] on a well-formed allocator: they return
    (the loops terminate, no assertion fails, no access is out of range), keep
    the invariant and change exactly the bits of the block in question. *)

From S2P Require Import Prelude CList BuddyDefs BuddyBits BuddyInv.
Import CList Buddy BuddyBits BuddyInv.

Module BuddyOps.

(** ** Steps *)

Section steps.
Context (s : buddy) (Hg : geom s).

Lemma reset_node_spec i a o :
  0 ≤ i < total_pages s →
  reset_node i a o s =
    Ok (with_lh (with_nodes s (<[i := mk_node a o]> (nodes s)))
          (<[LNode i := mk_elem None None]> (lh s))).
Proof.
  intros Hi. unfold reset_node, set_node.
  destruct (g_nodes _ Hg i Hi) as [nd ->]. cbn.
  by rewrite load_live by by apply (g_elems _ Hg).
Qed.

Lemma set_block_metadata_spec q o :
  block_ok s q o →
  ∃ ns, set_block_metadata (paddr s q) o s = Ok (with_nodes s ns) ∧
    ∀ p, ns !! p = if decide (in_block q o p) then Some (mk_node (paddr s q) o) else nodes s !! p.
Proof.
  intros Hb. pose proof (block_nonneg _ _ _ Hg Hb) as Hq. destruct Hb as (Ho & Hm & Ht & _).
  pose proof (pow2_pos o ltac:(lia)).
  unfold set_block_metadata. rewrite page_index_paddr by (done || lia).
  rewrite shiftl_one by lia.
  destruct (set_nodes_spec (nodes s) q (2 ^ o) (total_pages s) (mk_node (paddr s q) o))
    as (ns & Hop & Hns); [lia..|apply (g_nodes _ Hg)|].
  rewrite Hop. exists ns. split; [done|]. intros p. rewrite Hns. unfold in_block. done.
Qed.

Lemma set_bits_spec (v : bool) q o :
  block_ok s q o →
  ∃ bm, (if v then set_buddy_used else set_buddy_free) (paddr s q) o s = Ok (with_bitmap s bm) ∧
    covers bm (total_pages s) ∧
    ∀ p, 0 ≤ p → used bm p = if decide (in_block q o p) then v else used (bitmap s) p.
Proof.
  intros Hb. pose proof (block_nonneg _ _ _ Hg Hb) as Hq. destruct Hb as (Ho & Hm & Ht & _).
  pose proof (pow2_pos o ltac:(lia)).
  assert (Hend : q + Z.shiftl PGSIZE o / PGSIZE = q + 2 ^ o).
  { rewrite shiftl_page by lia. rewrite Z.mul_comm, Z.div_mul; [done|by unfold PGSIZE]. }
  destruct (upd_range_spec v (bitmap s) q (q + 2 ^ o) (total_pages s))
    as (bm & Hop & Hc & Hu); [lia|lia|apply (g_cover _ Hg)|].
  exists bm. unfold in_block. split_and!; [|done|done].
  unfold set_buddy_used, set_buddy_free, upd_bit in *.
  destruct v; cbv beta zeta; rewrite page_index_paddr, Hend by (done || lia); by rewrite Hop.
Qed.
End steps.

(** Writing the node and list element of a page of the hole. *)
Lemma agrees_reset s H i a o :
  geom s → 0 ≤ i < total_pages s → H i →
  agrees s (with_lh (with_nodes s (<[i := mk_node a o]> (nodes s)))
              (<[LNode i := mk_elem None None]> (lh s))) H.
Proof.
  intros Hg Hi HH. split; cbn; try done.
  - intros p. rewrite lookup_insert_is_Some.
    destruct (decide (i = p)) as [->|]; [|tauto]. pose proof (g_nodes _ Hg p Hi). tauto.
  - apply (g_cover _ Hg).
  - intros c. unfold live. rewrite lookup_insert_is_Some.
    destruct (decide (LNode i = c)) as [<-|]; [|tauto]. pose proof (g_elems _ Hg i Hi). tauto.
  - intros p _ Hp. rewrite lookup_insert_ne; [done|]. by intros ->.
Qed.

Lemma agrees_nodes s H q o nd ns :
  geom s → block_ok s q o → (∀ r, in_block q o r → H r) →
  (∀ p, ns !! p = if decide (in_block q o p) then Some nd else nodes s !! p) →
  agrees s (with_nodes s ns) H.
Proof.
  intros Hg Hb HH Hns. split; cbn; try done.
  - intros p. rewrite Hns. case_decide as Hin; [|done].
    assert (is_Some (nodes s !! p)).
    { apply (g_nodes _ Hg). pose proof (block_nonneg _ _ _ Hg Hb).
      destruct Hb as (_ & _ & ? & _). unfold in_block in Hin. lia. }
    naive_solver.
  - apply (g_cover _ Hg).
  - intros p _ Hp. rewrite Hns, decide_False; [done|]. by intros ?%HH.
Qed.

Lemma agrees_bits s H q o v bm :
  geom s → (∀ r, in_block q o r → H r) → covers bm (total_pages s) →
  (∀ p, 0 ≤ p → used bm p = if decide (in_block q o p) then v else used (bitmap s) p) →
  agrees s (with_bitmap s bm) H.
Proof.
  intros Hg HH Hc Hu. split; cbn; try done.
  intros p Hp HnH. rewrite Hu, decide_False; [done| |done]. by intros ?%HH.
Qed.

Lemma agrees_trans s1 s2 s3 H : agrees s1 s2 H → agrees s2 s3 H → agrees s1 s3 H.
Proof.
  intros [(E1&E2&E3) A2 A3 A4 A5 A6] [(F1&F2&F3) B2 B3 B4 B5 B6]. split.
  - unfold same_geom. by rewrite F1, F2, F3.
  - intros p. by rewrite B2, A2.
  - by rewrite <-E3.
  - intros c. by rewrite B4, A4.
  - intros p Hp HH. by rewrite B5, A5.
  - intros p Hp HH. by rewrite B6, A6.
Qed.

(** Changing only the lock or the memory contents. *)
Lemma agrees_lock s l H : geom s → agrees s (with_lock s l) H.
Proof. intros Hg. split; try done. apply (g_cover _ Hg). Qed.
Lemma agrees_mem s m H : geom s → agrees s (with_mem s m) H.
Proof. intros Hg. split; try done. apply (g_cover _ Hg). Qed.
Lemma agrees_lh s h H : geom s → (∀ c, live h c ↔ live (lh s) c) → agrees s (with_lh s h) H.
Proof. intros Hg Hl. split; try done. apply (g_cover _ Hg). Qed.

Lemma wfx_agrees_lists s s' H :
  wfx s H → agrees s s' H → lh s' = lh s → wfx s' H.
Proof.
  intros (Hc & F & HF & Hfl) Ha Hl. split; [by apply (core_agrees s)|].
  exists F. rewrite Hl. split; [done|]. by apply (flists_agrees s).
Qed.

Lemma wf_lock s l : wf s → wf (with_lock s l).
Proof. intros Hw. apply (wfx_agrees_lists s); [done| |done]. apply agrees_lock. apply Hw. Qed.

(** The element of a page of the hole is on no list. *)
Lemma hole_not_listed s H F i o :
  flists s H F → H i → o ∈ orders → i ∉ F o.
Proof. intros HF HH Ho%elem_of_orders Hi. apply HF in Hi; [|done]. tauto. Qed.

(** ** Writing a block: reset its node, write its metadata *)

Lemma write_block s H q o F :
  core s H → lists (lh s) orders F → flists s H F →
  block_ok s q o → (∀ r, in_block q o r → H r) →
  ∃ s1, (let* s1 := reset_node q (paddr s q) o s in set_block_metadata (paddr s q) o s1) = Ok s1 ∧
    agrees s s1 H ∧ lists (lh s1) orders F ∧ bitmap s1 = bitmap s ∧ lock s1 = lock s ∧ mem s1 = mem s ∧
    (∀ p, nodes s1 !! p = if decide (in_block q o p) then Some (mk_node (paddr s q) o) else nodes s !! p).
Proof.
  intros Hc HF Hfl Hb HH. pose proof (c_geom _ _ Hc) as Hg.
  pose proof (block_nonneg _ _ _ Hg Hb) as Hq.
  assert (Hqin : in_block q o q) by (apply in_block_head; destruct Hb; lia).
  assert (Hqt : 0 ≤ q < total_pages s).
  { destruct Hb as (?&?&?&?). unfold in_block in Hqin. lia. }
  rewrite reset_node_spec by done. cbn [bind].
  set (s0 := with_lh _ _).
  assert (Ha0 : agrees s s0 H) by (apply agrees_reset; auto).
  assert (Hg0 : geom s0) by by apply (geom_agrees s s0 H).
  assert (Hb0 : block_ok s0 q o) by by apply (block_ok_geom s s0).
  change (paddr s q) with (paddr s0 q).
  destruct (set_block_metadata_spec s0 Hg0 q o Hb0) as (ns & Hop & Hns).
  exists (with_nodes s0 ns). split_and!; try done.
  - apply (agrees_trans s s0); [done|]. by apply (agrees_nodes s0 H q o (mk_node (paddr s0 q) o)).
  - cbn. apply lists_store; [done|]. intros l Hl. apply (hole_not_listed s H); auto.
  - intros p. cbn. rewrite Hns. case_decide; [done|]. cbn. rewrite lookup_insert_ne; [done|].
    by intros <-.
Qed.

(** Pushing the head of a block that is in the hole. *)
Lemma push_free_spec s1 o q F :
  lists (lh s1) orders F → 0 ≤ o ≤ BUDDY_MAX_ORDER → live (lh s1) (LNode q) →
  (∀ l, l ∈ orders → q ∉ F l) →
  ∃ h, push_free o q s1 = Ok (with_lh s1 h) ∧ lists h orders (fupd F o (q :: F o)) ∧
    (∀ c, live h c ↔ live (lh s1) c).
Proof.
  intros HF Ho Hl Hq. unfold push_free.
  destruct (lists_push_front (lh s1) orders F o q) as (h & Hop & HF' & Hlive);
    [done|by apply elem_of_orders|done|done|].
  rewrite Hop. by exists h.
Qed.

(** ** Splitting *)

Lemma pow2_half c : 1 ≤ c → 2 ^ c = 2 * 2 ^ (c - 1).
Proof. intros. rewrite <-Z.pow_succ_r by lia. f_equal. lia. Qed.

Lemma block_ok_half s q c :
  block_ok s q c → 1 ≤ c → block_ok s q (c - 1) ∧ block_ok s (q + 2 ^ (c - 1)) (c - 1).
Proof.
  intros (Ho & Hm & Ht & Ha) Hc. pose proof (pow2_half c Hc) as E.
  pose proof (pow2_pos (c - 1) ltac:(lia)) as Hp.
  assert (Hdiv : ∃ k, paddr s q = k * (PGSIZE * 2 ^ c)).
  { apply Z.mod_divide in Ha; [exact Ha|]. unfold PGSIZE. lia. }
  destruct Hdiv as [k Hk]. unfold block_ok. split_and!; try lia.
  - apply Z.mod_divide; [unfold PGSIZE; lia|]. exists (2 * k). rewrite Hk, E. lia.
  - apply Z.mod_divide; [unfold PGSIZE; lia|]. exists (2 * k + 1).
    unfold paddr in *. rewrite E in Hk. lia.
Qed.

Lemma block_ok_smaller s q c o : block_ok s q c → 0 ≤ o ≤ c → block_ok s q o.
Proof.
  intros (Ho & Hm & Ht & Ha) Hc. pose proof (pow2_pos o ltac:(lia)).
  pose proof (Z.pow_le_mono_r 2 o c). unfold block_ok. split_and!; try lia.
  apply Z.mod_divide in Ha as [k Hk]; [|unfold PGSIZE; lia].
  apply Z.mod_divide; [unfold PGSIZE; lia|]. exists (k * 2 ^ (c - o)).
  rewrite Hk. replace (2 ^ c) with (2 ^ (c - o) * 2 ^ o); [lia|].
  rewrite <-Z.pow_add_r by lia. f_equal. lia.
Qed.

Lemma in_block_split q c r :
  1 ≤ c → in_block q c r ↔ in_block q (c - 1) r ∨ in_block (q + 2 ^ (c - 1)) (c - 1) r.
Proof.
  intros Hc. unfold in_block. rewrite (pow2_half c Hc).
  pose proof (pow2_pos (c - 1) ltac:(lia)). lia.
Qed.

(** The node of page [p] has been assigned to a block or to the metadata. *)
Definition nonblank (s : buddy) (p : Z) : Prop :=
  ∃ nd, nodes s !! p = Some nd ∧ n_addr nd ≠ 0.

(** What an operation that works on a hole keeps besides the invariant. *)
Definition keeps (s s' : buddy) : Prop :=
  same_geom s s' ∧ lock s' = lock s ∧ mem s' = mem s ∧
  (∀ p, 0 ≤ p → used (bitmap s') p = used (bitmap s) p) ∧
  (∀ p, 0 ≤ p → used (bitmap s) p = true → nodes s' !! p = nodes s !! p) ∧
  (∀ p, 0 ≤ p → nonblank s p → nonblank s' p).

Lemma keeps_refl s : keeps s s.
Proof. by split. Qed.

Lemma keeps_trans s1 s2 s3 : keeps s1 s2 → keeps s2 s3 → keeps s1 s3.
Proof.
  intros ((E1&E2&E3)&A1&A2&A3&A4&A5) ((F1&F2&F3)&B1&B2&B3&B4&B5). unfold keeps, same_geom.
  split_and!; try congruence; intros p Hp.
  - by rewrite B3, A3.
  - intros Hu. rewrite B4, A4; rewrite ?A3; done.
  - intros Hn. by apply B5, A5.
Qed.

(** Labelling the pages of a block with its (non-zero) address. *)
Lemma nonblank_write s s' q o :
  geom s → block_ok s q o →
  (∀ p, nodes s' !! p = if decide (in_block q o p) then Some (mk_node (paddr s q) o) else nodes s !! p) →
  ∀ p, nonblank s p → nonblank s' p.
Proof.
  intros Hg Hb Hns p (nd & Hn & Ha). unfold nonblank. rewrite Hns. case_decide; [|eauto].
  eexists. split; [done|]. cbn. pose proof (block_nonneg _ _ _ Hg Hb). destruct Hb as (?&?&?&?).
  pose proof (pow2_pos o ltac:(lia)). pose proof (paddr_bound s Hg q ltac:(lia)). lia.
Qed.

(** Gives a block of the hole back as a free block: write it, push it,
    clear its bits. *)
Lemma give_free s H H' q o :
  wfx s H → block_ok s q o → extends H' H q o → (∀ r, in_block q o r → ¬ H' r) →
  (∀ r, in_block q o r → used (bitmap s) r = false) →
  ∃ s1 s2 s3, reset_node q (paddr s q) o s = Ok s1 ∧ set_block_metadata (paddr s q) o s1 = Ok s2 ∧
    push_free o q s2 = Ok s3 ∧ wfx s3 H' ∧ keeps s s2 ∧ keeps s s3 ∧
    (∀ p, ¬ in_block q o p → nodes s3 !! p = nodes s !! p).
Proof.
  intros (Hc & F & HF & Hfl) Hb He Hdis Hfree. unfold extends in He.
  assert (HH : ∀ r, in_block q o r → H r) by (intros; apply He; tauto).
  assert (Ho : 0 ≤ o ≤ BUDDY_MAX_ORDER) by apply Hb.
  assert (Hqin : in_block q o q) by (apply in_block_head; lia).
  destruct (write_block s H q o F) as (s2 & Hop & Ha & HF2 & Hbm & Hlk & Hmem & Hns); try done.
  apply bind_Ok in Hop as (s1 & Hop1 & Hop2).
  pose proof (c_geom _ _ Hc) as Hg. pose proof (block_nonneg _ _ _ Hg Hb) as Hq.
  destruct (push_free_spec s2 o q F) as (h & Hop3 & HF3 & Hlive); try done.
  { apply (a_live _ _ _ Ha), (g_elems _ Hg). destruct Hb as (_&_&?&_). unfold in_block in Hqin. lia. }
  { intros l Hl. apply (hole_not_listed s H); auto. }
  assert (Hkeep : ∀ p, 0 ≤ p → used (bitmap s) p = true → nodes s2 !! p = nodes s !! p).
  { intros p _ Hu. rewrite Hns, decide_False; [done|]. intros Hin. by rewrite Hfree in Hu. }
  exists s1, s2, (with_lh s2 h). split_and!; try done.
  - assert (Ha3 : agrees s (with_lh s2 h) H).
    { apply (agrees_trans s s2); [done|]. apply agrees_lh; [|done]. by apply (geom_agrees s s2 H). }
    assert (Hu : uniform (with_lh s2 h) q o false).
    { intros r Hr. cbn. rewrite Hns, decide_True, Hbm by done. split; [|by apply Hfree].
      f_equal. f_equal. symmetry. apply (same_geom_paddr s). apply Ha. }
    split; [by apply (core_give s _ H H' q o false)|].
    exists (fupd F o (q :: F o)). split; [done|].
    by apply (flists_give s _ H H' F q o false).
  - split_and!; [apply Ha|done|done|by rewrite Hbm|by apply Hkeep|].
    intros p _. by apply (nonblank_write s s2 q o).
  - split_and!; [apply Ha|done|done|cbn; by rewrite Hbm|by apply Hkeep|].
    intros p _. by apply (nonblank_write s s2 q o).
  - intros p Hp. cbn. by rewrite Hns, decide_False.
Qed.

(** Clearing the bits of a free block changes nothing. *)
Lemma clear_free s H q o :
  wfx s H → block_ok s q o → (∀ r, in_block q o r → used (bitmap s) r = false) →
  ∃ s', set_buddy_free (paddr s q) o s = Ok s' ∧ wfx s' H ∧ keeps s s'.
Proof.
  intros Hw Hb Hfree. pose proof (c_geom _ _ (proj1 Hw)) as Hg.
  destruct (set_bits_spec s Hg false q o Hb) as (bm & Hop & Hcv & Hu).
  assert (Hsame : ∀ p, 0 ≤ p → used bm p = used (bitmap s) p).
  { intros p Hp. rewrite Hu by done. case_decide as Hin; [|done]. symmetry. by apply Hfree. }
  exists (with_bitmap s bm). split_and!; [done| |done].
  apply (wfx_agrees_lists s); [done| |done]. split; cbn; try done. auto.
Qed.

Lemma split_block_spec fuel c o s q :
  wfx s (in_block q c) → block_ok s q c → 0 ≤ o ≤ c → (Z.to_nat (c - o) < fuel)%nat →
  (∀ r, in_block q c r → used (bitmap s) r = false) →
  ∃ s', split_block fuel c o (paddr s q) s = Ok s' ∧ wfx s' (in_block q o) ∧ keeps s s'.
Proof.
  revert c s; induction fuel as [|fuel IH]; intros c s Hw Hb Ho Hf Hfree; [lia|]. cbn.
  destruct (Z.ltb_spec o c) as [Hlt|Hge].
  2:{ exists s. replace o with c by lia. split_and!; try done. }
  pose proof (c_geom _ _ (proj1 Hw)) as Hg.
  destruct (block_ok_half s q c Hb ltac:(lia)) as [Hb1 Hb2].
  set (b := q + 2 ^ (c - 1)) in *.
  assert (Haddr : u64 (paddr s q + Z.shiftl PGSIZE (c - 1)) = paddr s b).
  { rewrite shiftl_page by lia. pose proof (paddr_bound s Hg b) as Hbd.
    pose proof (block_nonneg _ _ _ Hg Hb2). destruct Hb2 as (?&?&?&?).
    pose proof (pow2_pos (c - 1) ltac:(lia)).
    rewrite u64_small; unfold paddr, b in *; lia. }
  rewrite Haddr.
  assert (Hidx : page_index s (paddr s b) = b).
  { apply page_index_paddr; [done|]. pose proof (block_nonneg _ _ _ Hg Hb2).
    destruct Hb2 as (?&?&?&?). pose proof (pow2_pos (c - 1) ltac:(lia)). lia. }
  rewrite Hidx.
  destruct (give_free s (in_block q c) (in_block q (c - 1)) b (c - 1))
    as (s1 & s2 & s3 & -> & Hop2 & Hop3 & Hw3 & _ & Hk3 & _); try done.
  { intros r. apply in_block_split. lia. }
  { intros r Hr Hr'. unfold in_block, b in *. lia. }
  { intros r Hr. apply Hfree. apply in_block_split; [lia|by right]. }
  cbn. rewrite Hop2. cbn. rewrite Hop3. cbn.
  rewrite <-(same_geom_paddr s s3 b) by apply Hk3.
  destruct (clear_free s3 (in_block q (c - 1)) b (c - 1)) as (s4 & -> & Hw4 & Hk4); [done| | |].
  { apply (block_ok_geom s s3); [apply Hk3|done]. }
  { intros r Hr. destruct Hk3 as (_&_&_&Hk3&_). rewrite Hk3.
    - apply Hfree. apply in_block_split; [lia|by right].
    - pose proof (block_nonneg _ _ _ Hg Hb2). unfold in_block in Hr. lia. }
  cbn. pose proof (keeps_trans _ _ _ Hk3 Hk4) as Hk.
  rewrite <-(same_geom_paddr s s4 q) by apply Hk.
  destruct (IH (c - 1) s4) as (s' & Hop & Hw' & Hk'); try done; [|lia|lia| |].
  { apply (block_ok_geom s s4); [apply Hk|done]. }
  { intros r Hr. destruct Hk as (_&_&_&Hk&_). rewrite Hk.
    - apply Hfree. apply in_block_split; [lia|by left].
    - pose proof (block_nonneg _ _ _ Hg Hb1). unfold in_block in Hr. lia. }
  exists s'. split_and!; try done. by apply (keeps_trans _ s4).
Qed.

(** ** Allocation *)

Lemma set_block_metadata_mem a o s m :
  set_block_metadata a o (with_mem s m) =
    (let* s' := set_block_metadata a o s in Ok (with_mem s' m)).
Proof.
  unfold set_block_metadata. change (page_index (with_mem s m) a) with (page_index s a). cbn.
  by destruct (for_range _ _ _ _).
Qed.

(** What a successful allocation of [2^o] pages at page [p] does: the pages
    were free and are used, zeroed and labelled with the block. *)
Definition allocated_from (s s' : buddy) (o p : Z) : Prop :=
  block_ok s p o ∧ same_geom s s' ∧
  (∀ r, in_block p o r → used (bitmap s) r = false) ∧
  uniform s' p o true ∧
  (∀ r, 0 ≤ r → ¬ in_block p o r → used (bitmap s') r = used (bitmap s) r) ∧
  (∀ r, 0 ≤ r → used (bitmap s) r = true → nodes s' !! r = nodes s !! r) ∧
  (∀ r, 0 ≤ r → nonblank s r → nonblank s' r) ∧
  (∀ a, mem s' a = if decide (paddr s p ≤ a < paddr s p + PGSIZE * 2 ^ o) then 0 else mem s a).

(** The second half of an allocation: mark the block at the hole used. *)
Lemma occupy_block s p o :
  wfx s (in_block p o) → block_ok s p o → lock s = true →
  (∀ r, in_block p o r → used (bitmap s) r = false) →
  ∃ s1 s2 s3, reset_node p (paddr s p) o s = Ok s1 ∧
    set_block_metadata (paddr s p) o
      (with_mem s1 (zero_mem (paddr s p) (Z.shiftl PGSIZE o) (mem s1))) = Ok s2 ∧
    set_buddy_used (paddr s p) o s2 = Ok s3 ∧ release s3 = Ok (with_lock s3 false) ∧
    wf (with_lock s3 false) ∧ allocated_from s (with_lock s3 false) o p.
Proof.
  intros (Hc & F & HF & Hfl) Hb Hlk Hfree. pose proof (c_geom _ _ Hc) as Hg.
  assert (Ho : 0 ≤ o) by (destruct Hb; lia).
  destruct (write_block s (in_block p o) p o F) as (sm & Hop & Ha & HF2 & Hbm & Hlk2 & Hmem & Hns); try done.
  apply bind_Ok in Hop as (s1 & Hop1 & Hop2).
  set (s2 := with_mem sm (zero_mem (paddr s p) (Z.shiftl PGSIZE o) (mem s1))).
  assert (Hm1 : mem s1 = mem s).
  { unfold reset_node in Hop1. inv_res. done. }
  assert (Ha2 : agrees s s2 (in_block p o)).
  { apply (agrees_trans s sm); [done|]. apply agrees_mem. by apply (geom_agrees s sm (in_block p o)). }
  assert (Hg2 : geom s2) by by apply (geom_agrees s s2 (in_block p o)).
  assert (Hpa : paddr s2 p = paddr s p) by (apply same_geom_paddr, Ha2).
  destruct (set_bits_spec s2 Hg2 true p o) as (bm & Hop3 & Hcv & Hu).
  { apply (block_ok_geom s s2); [apply Ha2|done]. }
  rewrite Hpa in Hop3.
  assert (Hlk3 : lock (with_bitmap s2 bm) = true) by (cbn; by rewrite Hlk2).
  exists s1, s2, (with_bitmap s2 bm). split_and!; try done.
  - rewrite set_block_metadata_mem, Hop2. done.
  - unfold release. by rewrite Hlk3.
  - assert (Ha3 : agrees s (with_lock (with_bitmap s2 bm) false) (in_block p o)).
    { apply (agrees_trans s s2); [done|]. apply (agrees_trans s2 (with_bitmap s2 bm)).
      - by apply (agrees_bits s2 _ p o true).
      - apply agrees_lock. apply (geom_agrees s2 _ (in_block p o)); [done|].
        by apply (agrees_bits s2 _ p o true). }
    assert (Hun : uniform (with_lock (with_bitmap s2 bm) false) p o true).
    { intros r Hr. cbn. rewrite Hns, decide_True by done.
      rewrite Hu, decide_True by (done || pose proof (block_nonneg _ _ _ Hg Hb); unfold in_block in Hr; lia).
      split; [|done]. do 2 f_equal. symmetry. exact Hpa. }
    split; [apply (core_give s _ (in_block p o) none p o true); try done|].
    + intros r. unfold none. tauto.
    + by intros r _ [].
    + exists F. split; [done|].
      apply (flists_give s _ (in_block p o) none F p o true); try done; [|by intros r _ []].
      intros r. unfold none. tauto.
  - split_and!; try done; [apply Ha2| | | | |].
    + intros r Hr. cbn. rewrite Hns, decide_True by done.
      rewrite Hu, decide_True by (done || pose proof (block_nonneg _ _ _ Hg Hb); unfold in_block in Hr; lia).
      split; [|done]. do 2 f_equal. symmetry. exact Hpa.
    + intros r Hr Hnr. cbn. rewrite Hu, decide_False by done. cbn. by rewrite Hbm.
    + intros r Hr Hus. cbn. rewrite Hns, decide_False; [done|]. intros Hin. by rewrite Hfree in Hus.
    + intros r _. by apply (nonblank_write s _ p o).
    + intros a. cbn. unfold zero_mem. rewrite Hm1, shiftl_page by done.
      destruct (Z.leb_spec (paddr s p) a), (Z.ltb_spec a (paddr s p + PGSIZE * 2 ^ o)); cbn;
        case_decide; try done; lia.
Qed.

(** Adds the steps before the split. *)
Lemma allocated_from_keeps s s0 s' o p :
  keeps s s0 → geom s → allocated_from s0 s' o p → allocated_from s s' o p.
Proof.
  intros ((E1&E2&E3)&_&Hm&Hu&Hkn&Hkb) Hg (Hb & (F1&F2&F3) & Hf & Hun & Hr & Hn & Hnb & Hmem).
  assert (Hs : same_geom s s0) by done.
  assert (Hb' : block_ok s p o) by by apply (block_ok_geom s s0).
  pose proof (block_nonneg _ _ _ Hg Hb') as Hp.
  split_and!; try done.
  - split_and!; congruence.
  - intros r Hin. rewrite <-Hu by (unfold in_block in Hin; lia). by apply Hf.
  - intros r Hr0 Hnin. by rewrite Hr, Hu.
  - intros r Hr0 Hus. rewrite Hn, Hkn; rewrite ?Hu; done.
  - intros r Hr0 Hb0. by apply Hnb, Hkb.
  - intros a. rewrite Hmem, (same_geom_paddr s s0 p Hs), Hm. done.
Qed.

Lemma find_block_spec fuel c o s :
  wf s → lock s = true → 0 ≤ o ≤ c → c ≤ 12 → (Z.to_nat (12 - c) < fuel)%nat →
  ∃ r s', find_block fuel c o s = Ok (r, s') ∧ wf s' ∧ lock s' = false ∧
    ((r = 0 ∧ s' = with_lock s false ∧ ∀ k p, c ≤ k ≤ BUDDY_MAX_ORDER → 0 ≤ p < total_pages s → ¬ free_head s k p) ∨
     (∃ p, r = paddr s p ∧ allocated_from s s' o p)).
Proof.
  revert c; induction fuel as [|fuel IH]; intros c Hw Hlk Ho Hc Hf; [lia|]. cbn [find_block].
  destruct (Z.leb_spec c BUDDY_MAX_ORDER) as [Hle|Hgt].
  2:{ unfold release. rewrite Hlk. exists 0, (with_lock s false). split_and!; try done.
      - by apply wf_lock.
      - left. split_and!; try done. intros. lia. }
  pose proof Hw as (Hcore & F & HF & Hfl). pose proof (c_geom _ _ Hcore) as Hg.
  assert (Hco : c ∈ orders) by (apply elem_of_orders; lia).
  rewrite (lists_empty _ _ _ _ HF Hco). cbn [bind].
  destruct (F c) as [|i xs] eqn:EF.
  - rewrite bool_decide_true by done.
    destruct (IH (c + 1)) as (r & s' & Hop & Hw' & Hlk' & Hcase); try done;
      [lia|unfold BUDDY_MAX_ORDER in *; lia|unfold BUDDY_MAX_ORDER in *; lia|].
    exists r, s'. split_and!; try done. destruct Hcase as [(-> & -> & Hno)|?]; [left|by right].
    split_and!; try done. intros k p Hk Hp Hfh. destruct (decide (k = c)) as [->|].
    + assert (p ∈ F c) as Hin by (apply Hfl; [lia|]; split; [done|]; split; [by intros []|done]).
      rewrite EF in Hin. by apply not_elem_of_nil in Hin.
    + apply (Hno k p); [lia|done|done].
  - rewrite bool_decide_false by done.
    destruct (lists_pop_front (lh s) orders F c i xs) as (h & Hpop & HF' & Hlive); try done.
    rewrite Hpop. cbn [bind].
    assert (Hi : i ∈ F c) by (rewrite EF; left). apply Hfl in Hi as (Hr & _ & Hfh); [|lia].
    destruct (free_head_block s none c i Hcore Hr) as (Hb & Hun & _); [by intros []|lia|done|].
    destruct (Hfh) as [Hn _]. cbn [nodes with_lh]. rewrite Hn. cbn [bind of_opt n_addr].
    assert (Hext : extends none (in_block i c) i c) by (intros r; unfold none; tauto).
    assert (Hndup : NoDup (F c)) by (destruct (proj1 HF c Hco) as (_&_&_&?); done).
    assert (Hw1 : wfx (with_lh s h) (in_block i c)).
    { split.
      - apply (core_agrees s); [by apply (core_take s none _ i c false)|]. by apply agrees_lh.
      - exists (fupd F c xs). split; [done|].
        apply (flists_agrees s); [by apply agrees_lh|].
        apply (flists_take_free s none _ F i c [] xs); try done. lia. }
    assert (Hk1 : keeps s (with_lh s h)) by by split.
    assert (Hfree : ∀ r, in_block i c r → used (bitmap s) r = false) by (intros r Hin; by apply Hun).
    change (paddr s i) with (paddr (with_lh s h) i).
    destruct (split_block_spec 13 c o (with_lh s h) i) as (s2 & Hsp & Hw2 & Hk2); try done.
    { unfold BUDDY_MAX_ORDER in Hle. lia. }
    rewrite Hsp. cbn [bind]. pose proof (keeps_trans _ _ _ Hk1 Hk2) as Hk.
    assert (Hb2 : block_ok s2 i o).
    { apply (block_ok_geom s s2); [apply Hk|]. by apply (block_ok_smaller s i c). }
    change (paddr (with_lh s h) i) with (paddr s i).
    rewrite <-(same_geom_paddr s s2 i) by apply Hk.
    destruct (occupy_block s2 i o) as (s3 & s4 & s5 & -> & Hop4 & Hop5 & Hop6 & Hw6 & Hal); try done.
    { destruct Hk as (_&->&_). done. }
    { intros r Hin. destruct Hk as (_&_&_&Hk&_).
      assert (in_block i c r).
      { unfold in_block in *. pose proof (Z.pow_le_mono_r 2 o c). lia. }
      rewrite Hk; [by apply Hfree|unfold in_block in *; lia]. }
    cbn [bind]. rewrite Hop4. cbn [bind]. rewrite Hop5. cbn [bind]. rewrite Hop6. cbn [bind].
    exists (paddr s2 i), (with_lock s5 false). split_and!; try done. right. exists i. split.
    + apply same_geom_paddr, Hk.
    + by apply (allocated_from_keeps s s2).
Qed.

Lemma buddy_alloc_wf s order :
  wf s → lock s = false → 0 ≤ order ≤ BUDDY_MAX_ORDER →
  ∃ r s', buddy_alloc order s = Ok (r, s') ∧ wf s' ∧ lock s' = false ∧
    ((r = 0 ∧ s' = s ∧ ∀ k p, order ≤ k ≤ BUDDY_MAX_ORDER → 0 ≤ p < total_pages s → ¬ free_head s k p) ∨
     (∃ p, r = paddr s p ∧ allocated_from s s' order p)).
Proof.
  intros Hw Hlk Ho. unfold buddy_alloc, acquire.
  rewrite (proj2 (Z.ltb_ge _ _)), (proj2 (Z.ltb_ge _ _)), Hlk by lia. cbn [orb bind].
  destruct (find_block_spec 13 order order (with_lock s true)) as (r & s' & Hop & Hw' & Hlk' & Hcase);
    [by apply wf_lock|done|lia|unfold BUDDY_MAX_ORDER in Ho; lia|lia|].
  exists r, s'. split_and!; try done. destruct Hcase as [(-> & -> & Hno)|(p & -> & Hal)].
  - left. split_and!; try done. destruct s; cbn in *. by rewrite Hlk.
  - right. by exists p.
Qed.

(** ** Buddies *)

Lemma lxor_pow2 a n :
  0 ≤ a → 0 ≤ n → a mod 2 ^ n = 0 →
  Z.lxor a (2 ^ n) = if Z.odd (a / 2 ^ n) then a - 2 ^ n else a + 2 ^ n.
Proof.
  intros Ha Hn Hm. pose proof (pow2_pos n Hn).
  assert (Hland : ∀ c, 0 ≤ c → Z.odd (c / 2 ^ n) = false → Z.land c (2 ^ n) = 0).
  { intros c Hc Hodd. apply Z.bits_inj'. intros i Hi.
    rewrite Z.land_spec, Z.pow2_bits_eqb, Z.bits_0 by done.
    destruct (Z.eqb_spec n i) as [<-|]; [|by rewrite andb_false_r].
    rewrite andb_true_r. by rewrite Z.testbit_odd, Z.shiftr_div_pow2. }
  destruct (Z.odd (a / 2 ^ n)) eqn:E.
  - assert (Hdiv : (a - 2 ^ n) / 2 ^ n = a / 2 ^ n - 1).
    { replace (a - 2 ^ n) with (a + (-1) * 2 ^ n) by lia. rewrite Z.div_add by lia. lia. }
    assert (Hge : 1 ≤ a / 2 ^ n).
    { pose proof (Z.div_pos a (2 ^ n)). destruct (decide (a / 2 ^ n = 0)) as [E0|]; [|lia].
      by rewrite E0 in E. }
    assert (0 ≤ a - 2 ^ n).
    { pose proof (Z.div_mod a (2 ^ n)). nia. }
    assert (Hl : Z.land (a - 2 ^ n) (2 ^ n) = 0).
    { apply Hland; [done|]. rewrite Hdiv, Z.odd_sub, E. done. }
    apply Z.add_nocarry_lxor in Hl. replace (a - 2 ^ n + 2 ^ n) with a in Hl by lia.
    rewrite Hl at 1. by rewrite Z.lxor_assoc, Z.lxor_nilpotent, Z.lxor_0_r.
  - symmetry. by apply Z.add_nocarry_lxor, Hland.
Qed.

Lemma pow2_page k : 0 ≤ k → PGSIZE * 2 ^ k = 2 ^ (12 + k).
Proof. intros. rewrite Z.pow_add_r by lia. done. Qed.

(** The buddy is the neighbouring block, and the two form a block of the next
    order. *)
Lemma buddy_cases s q k :
  geom s → block_ok s q k →
  ∃ b, get_buddy_addr (paddr s q) k = paddr s b ∧
    ((b = q + 2 ^ k ∧ paddr s q mod (PGSIZE * 2 ^ (k + 1)) = 0) ∨
     (b = q - 2 ^ k ∧ paddr s b mod (PGSIZE * 2 ^ (k + 1)) = 0)).
Proof.
  intros Hg Hb. pose proof (block_nonneg _ _ _ Hg Hb) as Hq.
  destruct Hb as (Hk & Hm & Ht & Ha). pose proof (pow2_pos k ltac:(lia)) as Hp.
  pose proof (paddr_bound s Hg q ltac:(lia)) as Hbd.
  unfold get_buddy_addr. rewrite shiftl_page by lia.
  rewrite pow2_page in Ha |- * by lia. rewrite lxor_pow2 by (lia || done).
  rewrite (pow2_page (k + 1)) by lia. replace (12 + (k + 1)) with (Z.succ (12 + k)) by lia.
  rewrite Z.pow_succ_r by lia. set (n := 2 ^ (12 + k)) in *.
  assert (Hn : n = PGSIZE * 2 ^ k) by (unfold n; rewrite pow2_page; [done|lia]).
  assert (Hn0 : 0 < n) by (unfold PGSIZE in Hn; lia).
  apply Z.mod_divide in Ha as [j Hj]; [|lia].
  rewrite Hj, Z.div_mul by lia. destruct (Z.odd j) eqn:E.
  - exists (q - 2 ^ k). split; [unfold paddr in *; lia|]. right. split; [done|].
    apply Z.odd_spec in E as [i Hi]. apply Z.mod_divide; [lia|]. exists i.
    unfold paddr in *. subst j. lia.
  - exists (q + 2 ^ k). split; [unfold paddr in *; lia|]. left. split; [done|].
    assert (Z.even j = true) as [i Hi]%Z.even_spec by by rewrite <-Z.negb_odd, E.
    apply Z.mod_divide; [lia|]. exists i. subst j. lia.
Qed.

Lemma is_buddy_available_spec s b k :
  geom s → 0 ≤ b < total_pages s → 0 ≤ k →
  ∃ v, is_buddy_available (paddr s b) k s = Ok v ∧
    (v = true ↔ free_head s k b ∧ (PGSIZE * b) mod (PGSIZE * 2 ^ k) = 0).
Proof.
  intros Hg Hb Hk. pose proof (paddr_bound s Hg b ltac:(lia)). pose proof (g_pos _ Hg).
  unfold is_buddy_available. rewrite shiftl_page by done.
  assert (Hoff : u64 (paddr s b - mem_start s) = PGSIZE * b).
  { unfold paddr in *. rewrite u64_small; unfold PGSIZE in *; lia. }
  rewrite Hoff.
  assert (E1 : (paddr s b <? mem_start s) = false).
  { apply Z.ltb_ge. unfold paddr, PGSIZE. lia. }
  assert (E2 : (mem_end s <=? paddr s b) = false).
  { apply Z.leb_gt. rewrite (g_end _ Hg). unfold paddr, PGSIZE. lia. }
  rewrite E1, E2. cbn [orb].
  destruct (Z.eqb_spec ((PGSIZE * b) mod (PGSIZE * 2 ^ k)) 0) as [Hal|Hal]; cbn [negb].
  2:{ exists false. split; [done|]. split; [done|]. tauto. }
  rewrite page_index_paddr by (done || lia).
  destruct (g_nodes _ Hg b Hb) as [[a o] Hn]. rewrite Hn. cbn.
  unfold free_head. rewrite Hn.
  destruct (Z.eqb_spec a (paddr s b)) as [->|]; cbn.
  2:{ exists false. split; [done|]. split; [done|]. intros [[[=] _] _]. done. }
  destruct (Z.eqb_spec o k) as [->|].
  2:{ exists false. split; [done|]. split; [done|]. intros [[[=] _] _]. done. }
  rewrite test_bit_used by by apply (g_cover _ Hg). cbn. eexists; split; [done|].
  rewrite negb_true_iff. tauto.
Qed.

(** ** Merging *)

(** One successful merge step: the free buddy leaves its list and the hole
    becomes the doubled block. *)
Lemma take_buddy s q k b q' :
  wfx s (in_block q k) → free_head s k b → 0 ≤ b < total_pages s → 0 ≤ k ≤ BUDDY_MAX_ORDER →
  ¬ in_block q k b →
  (∀ r, in_block q' (k + 1) r ↔ in_block q k r ∨ in_block b k r) →
  ∃ h x, list_remove (Some (LNode b)) (lh s) = Ok (x, h) ∧
    wfx (with_lh s (<[LNode b := mk_elem None None]> h)) (in_block q' (k + 1)) ∧
    block_ok s b k ∧ (∀ r, in_block b k r → used (bitmap s) r = false).
Proof.
  intros (Hc & F & HF & Hfl) Hfh Hb Hk Hnb Hext. pose proof (c_geom _ _ Hc) as Hg.
  destruct (free_head_block s (in_block q k) k b Hc Hb Hnb ltac:(lia) Hfh) as (Hbk & Hun & _).
  assert (Hin : b ∈ F k) by (apply Hfl; [done|]; by split).
  apply list_elem_of_split in Hin as (xs & ys & EF).
  destruct (lists_remove (lh s) orders F k b xs ys) as (h & x & Hop & HF' & Hlive); try done.
  { by apply elem_of_orders. }
  exists h, x. split_and!; try done; [|intros r Hr; by apply Hun].
  assert (Hnd : NoDup (F k)).
  { destruct (proj1 HF k ltac:(by apply elem_of_orders)) as (_&_&_&?). done. }
  assert (Hfl' : flists s (in_block q' (k + 1)) (fupd F k (xs ++ ys))).
  { by apply (flists_take_free s (in_block q k) _ F b k xs ys). }
  assert (Ha : agrees s (with_lh s (<[LNode b:=mk_elem None None]> h)) (in_block q' (k + 1))).
  { apply agrees_lh; [done|]. intros c. unfold live. rewrite lookup_insert_is_Some, (Hlive c).
    destruct (decide (LNode b = c)) as [<-|]; [|tauto]. pose proof (g_elems _ Hg b Hb). tauto. }
  split.
  - apply (core_agrees s); [|done]. by apply (core_take s (in_block q k) _ b k false).
  - exists (fupd F k (xs ++ ys)). split; [|by apply (flists_agrees s)].
    cbn. apply lists_store; [done|]. intros l Hl.
    apply (hole_not_listed s (in_block q' (k + 1))); [done| |done].
    apply Hext. right. apply in_block_head. lia.
Qed.

(** The doubled block is a block. *)
Lemma merged_block s q k b :
  block_ok s q k → block_ok s b k → k < BUDDY_MAX_ORDER →
  ((b = q + 2 ^ k ∧ paddr s q mod (PGSIZE * 2 ^ (k + 1)) = 0) ∨
   (b = q - 2 ^ k ∧ paddr s b mod (PGSIZE * 2 ^ (k + 1)) = 0)) →
  let q' := Z.min q b in
  block_ok s q' (k + 1) ∧ ¬ in_block q k b ∧
  (∀ r, in_block q' (k + 1) r ↔ in_block q k r ∨ in_block b k r) ∧
  (if paddr s b <? paddr s q then paddr s b else paddr s q) = paddr s q'.
Proof.
  intros (Hk & Hm & Ht & Ha) (_ & Hmb & Htb & _) Hlt Hcase q'.
  assert (Hp2 : 2 ^ (k + 1) = 2 * 2 ^ k) by (rewrite <-Z.pow_succ_r by lia; done).
  pose proof (pow2_pos k ltac:(lia)).
  assert (Hpa : paddr s b - paddr s q = PGSIZE * (b - q)) by (unfold paddr; lia).
  unfold PGSIZE in Hpa.
  destruct Hcase as [[Hb Hal]|[Hb Hal]].
  - assert (q' = q) as -> by lia. unfold block_ok, in_block. rewrite Hp2.
    split_and!; try lia; [by rewrite <-Hp2|].
    destruct (Z.ltb_spec (paddr s b) (paddr s q)); [lia|done].
  - assert (q' = b) as -> by lia. unfold block_ok, in_block. rewrite Hp2.
    split_and!; try lia; [by rewrite <-Hp2|].
    destruct (Z.ltb_spec (paddr s b) (paddr s q)); [done|lia].
Qed.

End BuddyOps.
