(* ===== verification/BuddyFree.v ===== *)
(** * Freeing: merging and [buddy_free]

    [merge_buddies] grows the hole left by the freed block by the free buddies
    it meets, and [buddy_free] gives the result back: the call returns, the
    invariant holds again and exactly the bits of the freed block change. *)

From S2P Require Import Prelude CList BuddyDefs BuddyBits BuddyInv BuddyOps.
Import CList Buddy BuddyBits BuddyInv BuddyOps.

Module BuddyFree.

Lemma same_geom_trans s1 s2 s3 : same_geom s1 s2 → same_geom s2 s3 → same_geom s1 s3.
Proof. intros (E1&E2&E3) (F1&F2&F3). unfold same_geom. by rewrite F1, F2, F3. Qed.

(** A state with a hole: the pages of the block are outside the invariant and
    their bits are clear. *)
Definition hole (s : buddy) (q k : Z) : Prop :=
  wfx s (in_block q k) ∧ block_ok s q k ∧
  ∀ r, in_block q k r → used (bitmap s) r = false.

Lemma hole_geom s q k : hole s q k → geom s.
Proof. intros ((Hc & _) & _). apply (c_geom _ _ Hc). Qed.

(** The buddy of a block either lies outside the managed range or is a page
    of it. *)
Lemma buddy_page s q k b :
  geom s → block_ok s q k → get_buddy_addr (paddr s q) k = paddr s b →
  b = q + 2 ^ k ∨ b = q - 2 ^ k →
  (total_pages s ≤ page_index s (paddr s b) ∨
   (0 ≤ b < total_pages s ∧ page_index s (paddr s b) = b)).
Proof.
  intros Hg Hb Heq Hcase. pose proof (block_nonneg _ _ _ Hg Hb) as Hq.
  destruct Hb as (Hk & Hm & Ht & _). pose proof (pow2_pos k ltac:(lia)).
  assert (Hnn : 0 ≤ paddr s b).
  { rewrite <-Heq. unfold get_buddy_addr. apply Z.lxor_nonneg. rewrite shiftl_page by lia.
    pose proof (paddr_bound s Hg q ltac:(lia)). unfold PGSIZE. lia. }
  destruct (decide (0 ≤ b < total_pages s)) as [Hin|Hout].
  - right. split; [done|]. apply page_index_paddr; [done|lia].
  - left. pose proof (paddr_bound s Hg (q + 2 ^ k) ltac:(lia)). pose proof (g_end _ Hg).
    apply page_index_out; [done| |]; unfold paddr, PGSIZE in *; lia.
Qed.

(** Relabelling the pages of a hole. *)
Lemma relabel_hole s q k :
  hole s q k →
  ∃ s1 s2, reset_node q (paddr s q) k s = Ok s1 ∧ set_block_metadata (paddr s q) k s1 = Ok s2 ∧
    hole s2 q k ∧ keeps s s2.
Proof.
  intros ((Hc & F & HF & Hfl) & Hb & Hfree).
  destruct (write_block s (in_block q k) q k F) as (s2 & Hop & Ha & HF2 & Hbm & Hlk & Hmem & Hns); try done.
  apply bind_Ok in Hop as (s1 & Hop1 & Hop2). exists s1, s2. split_and!; try done.
  - split_and!; [split; [by apply (core_agrees s)|exists F; split; [done|by apply (flists_agrees s)]]| |].
    + apply (block_ok_geom s s2); [apply Ha|done].
    + by rewrite Hbm.
  - split_and!; [apply Ha|done|done|by rewrite Hbm| |].
    + intros p _ Hu. rewrite Hns, decide_False; [done|]. intros Hin. by rewrite Hfree in Hu.
    + intros p _. apply (nonblank_write s s2 q k); [apply (c_geom _ _ Hc)|done|done].
Qed.

(** A successful merge step. *)
Lemma merge_step s q k b :
  hole s q k → k < BUDDY_MAX_ORDER → 0 ≤ b < total_pages s → free_head s k b →
  ((b = q + 2 ^ k ∧ paddr s q mod (PGSIZE * 2 ^ (k + 1)) = 0) ∨
   (b = q - 2 ^ k ∧ paddr s b mod (PGSIZE * 2 ^ (k + 1)) = 0)) →
  ∃ x h, list_remove (Some (LNode b)) (lh s) = Ok (x, h) ∧
    let s1 := with_lh s (<[LNode b := mk_elem None None]> h) in
    let q' := Z.min q b in
    (if paddr s b <? paddr s q then paddr s b else paddr s q) = paddr s1 q' ∧
    hole s1 q' (k + 1) ∧ keeps s s1.
Proof.
  intros (Hw & Hb & Hfree) Hlt Hin Hfh Hcase. pose proof (c_geom _ _ (proj1 Hw)) as Hg.
  assert (Hk : 0 ≤ k ≤ BUDDY_MAX_ORDER) by apply Hb.
  assert (Hnb : ¬ in_block q k b).
  { pose proof (pow2_pos k ltac:(lia)). unfold in_block. lia. }
  destruct (free_head_block s (in_block q k) k b (proj1 Hw) Hin Hnb ltac:(lia) Hfh) as (Hbk & _ & _).
  destruct (merged_block s q k b Hb Hbk Hlt Hcase) as (Hb' & _ & Hext & Haddr).
  destruct (take_buddy s q k b (Z.min q b)) as (h & x & Hop & Hw' & _ & Hfree'); try done.
  exists x, h. split; [done|]. split_and!; [done| |by split].
  split_and!; [done|done|]. intros r Hr. cbn. apply Hext in Hr as [Hr|Hr]; auto.
Qed.

Lemma hole_page_index s q k : hole s q k → page_index s (paddr s q) = q ∧ (total_pages s <=? q) = false.
Proof.
  intros Hh. pose proof (hole_geom _ _ _ Hh) as Hg. destruct Hh as (_ & Hb & _).
  pose proof (block_nonneg _ _ _ Hg Hb) as Hq. destruct Hb as (Ho & Hm & Ht & _).
  pose proof (pow2_pos k ltac:(lia)). split.
  - apply page_index_paddr; [done|lia].
  - apply Z.leb_gt. lia.
Qed.

(** The merge loop returns a hole that contains the one it started from. *)
Lemma merge_buddies_spec fuel s q k :
  hole s q k → (Z.to_nat (11 - k) < fuel)%nat →
  ∃ q' k' s', merge_buddies fuel (paddr s q) k s = Ok (paddr s q', k', s') ∧
    hole s' q' k' ∧ keeps s s' ∧ (∀ r, in_block q k r → in_block q' k' r).
Proof.
  revert s q k; induction fuel as [|fuel IH]; intros s q k Hh Hf; [lia|]. cbn [merge_buddies].
  assert (Hstop : ∃ q' k' s', Ok (paddr s q, k, s) = Ok (paddr s q', k', s') ∧
    hole s' q' k' ∧ keeps s s' ∧ (∀ r, in_block q k r → in_block q' k' r)).
  { exists q, k, s. split_and!; try done. }
  destruct (Z.ltb_spec k BUDDY_MAX_ORDER) as [Hlt|]; [|exact Hstop].
  pose proof (hole_geom _ _ _ Hh) as Hg. pose proof Hh as (Hw & Hb & _).
  assert (Hk : 0 ≤ k) by (destruct Hb; lia).
  destruct (buddy_cases s q k Hg Hb) as (b & Heq & Hcase). rewrite Heq.
  destruct (buddy_page s q k b Hg Hb Heq) as [Hout|[Hin Hidx]]; [tauto| |].
  { rewrite (proj2 (Z.leb_le _ _)) by done. exact Hstop. }
  rewrite Hidx, (proj2 (Z.leb_gt _ _)) by lia.
  destruct (is_buddy_available_spec s b k Hg Hin Hk) as (v & -> & Hv). cbn [bind].
  destruct (g_nodes _ Hg b Hin) as [nd Hn]. rewrite Hn. cbn [bind of_opt].
  destruct v; [|exact Hstop]. destruct (proj1 Hv eq_refl) as [Hfh _].
  destruct (Hfh) as [Hn' _]. rewrite Hn in Hn'. injection Hn' as ->.
  cbn [n_addr n_order]. rewrite !Z.eqb_refl. cbn [negb orb].
  destruct (merge_step s q k b Hh Hlt Hin Hfh Hcase) as (x & h & -> & Haddr & Hh1 & Hk1).
  cbn [bind]. rewrite Haddr. set (s1 := with_lh s _) in *. set (q' := Z.min q b) in *.
  destruct (hole_page_index _ _ _ Hh1) as [-> E]. rewrite E.
  destruct (relabel_hole s1 q' (k + 1) Hh1) as (s2 & s3 & -> & Hop3 & Hh3 & Hk3).
  cbn [bind]. rewrite Hop3. cbn [bind]. pose proof (keeps_trans _ _ _ Hk1 Hk3) as Hk13.
  replace (paddr s1 q') with (paddr s3 q') by (apply same_geom_paddr, Hk3).
  destruct (IH s3 q' (k + 1) Hh3) as (q'' & k'' & s' & Hop & Hh' & Hk' & Hsub).
  { unfold BUDDY_MAX_ORDER in Hlt. lia. }
  exists q'', k'', s'. rewrite <-(same_geom_paddr s s3 q'') by apply Hk13.
  split_and!; [done|done|by apply (keeps_trans _ s3)|].
  intros r Hr. apply Hsub. assert (2 ^ (k + 1) = 2 * 2 ^ k) by (rewrite <-Z.pow_succ_r by lia; done).
  unfold in_block, q' in *. destruct Hcase as [[-> _]|[-> _]]; lia.
Qed.

(** ** Freeing a used block *)

(** Taking a used block out of the invariant and clearing its bits leaves a
    hole. *)
Lemma open_used s q o :
  wf s → block_ok s q o → uniform s q o true →
  ∃ s', set_buddy_free (paddr s q) o s = Ok s' ∧ hole s' q o ∧ same_geom s s' ∧
    lock s' = lock s ∧ mem s' = mem s ∧ nodes s' = nodes s ∧
    ∀ r, 0 ≤ r → used (bitmap s') r = if decide (in_block q o r) then false else used (bitmap s) r.
Proof.
  intros (Hc & F & HF & Hfl) Hb Hun. pose proof (c_geom _ _ Hc) as Hg.
  destruct (set_bits_spec s Hg false q o Hb) as (bm & Hop & Hcv & Hu).
  assert (Hext : extends none (in_block q o) q o) by (intros r; unfold none; tauto).
  assert (Ha : agrees s (with_bitmap s bm) (in_block q o)) by by apply (agrees_bits s _ q o false).
  exists (with_bitmap s bm). split_and!; try done. split_and!; [split| |].
  - apply (core_agrees s); [|done]. by apply (core_take s none _ q o true).
  - exists F. split; [done|]. apply (flists_agrees s); [done|].
    by apply (flists_take_used s none _ F q o).
  - done.
  - intros r Hr. cbn. rewrite Hu, decide_True; [done|done|].
    pose proof (block_nonneg _ _ _ Hg Hb). unfold in_block in Hr. lia.
Qed.

(** What freeing the block of [2^o] pages at page [q] does. *)
Definition freed_from (s s' : buddy) (o q : Z) : Prop :=
  same_geom s s' ∧ mem s' = mem s ∧
  (∀ r, 0 ≤ r → used (bitmap s') r = if decide (in_block q o r) then false else used (bitmap s) r) ∧
  (∀ r, 0 ≤ r → used (bitmap s') r = true → nodes s' !! r = nodes s !! r) ∧
  (∀ r, 0 ≤ r → nonblank s r → nonblank s' r).

(** The last part of [buddy_free]: merge the hole and give the result back. *)
Lemma close_hole s q o :
  hole s q o → lock s = true →
  ∃ s', (let* (actual_addr, actual_order, s) := merge_buddies 13 (paddr s q) o s in
        let final_page_idx := page_index s actual_addr in
        if total_pages s <=? final_page_idx
        then Panic "buddy_free: invalid final page index"
        else
          let* s := reset_node final_page_idx actual_addr actual_order s in
          let* s := set_block_metadata actual_addr actual_order s in
          let* s := push_free actual_order final_page_idx s in
          release s) = Ok s' ∧
    wf s' ∧ lock s' = false ∧ same_geom s s' ∧ mem s' = mem s ∧
    (∀ r, 0 ≤ r → used (bitmap s') r = used (bitmap s) r) ∧
    (∀ r, 0 ≤ r → used (bitmap s) r = true → nodes s' !! r = nodes s !! r) ∧
    (∀ r, 0 ≤ r → nonblank s r → nonblank s' r).
Proof.
  intros Hh Hlk.
  destruct (merge_buddies_spec 13 s q o Hh) as (q' & k' & s1 & -> & Hh1 & Hk1 & _).
  { destruct Hh as (_ & (?&_) & _). lia. }
  cbn [bind]. rewrite <-(same_geom_paddr s s1 q') by apply Hk1.
  destruct (hole_page_index _ _ _ Hh1) as [-> E]. cbv zeta. rewrite E.
  destruct Hh1 as (Hw1 & Hb1 & Hfree1).
  destruct (give_free s1 (in_block q' k') none q' k')
    as (s2 & s3 & s4 & -> & Hop3 & Hop4 & Hw4 & _ & Hk4 & _); try done.
  { intros r. unfold none. tauto. }
  { by intros r _ []. }
  cbn [bind]. rewrite Hop3. cbn [bind]. rewrite Hop4. cbn [bind].
  pose proof (keeps_trans _ _ _ Hk1 Hk4) as (Hs & Hl & Hm & Hu & Hn & Hnb).
  unfold release. rewrite Hl, Hlk. exists (with_lock s4 false).
  split_and!; try done. by apply wf_lock.
Qed.

(** [buddy_free] on any address inside a used block. *)
Lemma buddy_free_spec s p a q o ord :
  wf s → lock s = false → block_ok s q o → uniform s q o true → in_block q o p →
  paddr s p ≤ a < paddr s p + PGSIZE → 0 ≤ ord ≤ BUDDY_MAX_ORDER →
  ∃ s', buddy_free a ord s = Ok s' ∧ wf s' ∧ lock s' = false ∧ freed_from s s' o q.
Proof.
  intros Hw Hlk Hb Hun Hin Ha Hord. pose proof (c_geom _ _ (proj1 Hw)) as Hg.
  pose proof (block_nonneg _ _ _ Hg Hb) as Hq. destruct (Hb) as (Ho & Hm & Ht & _).
  pose proof (pow2_pos o ltac:(lia)) as Hpow.
  assert (Hp : 0 ≤ p < total_pages s) by (unfold in_block in Hin; lia).
  pose proof (paddr_bound s Hg p ltac:(lia)) as Hpb.
  assert (Hbs : Z.shiftl PGSIZE o = PGSIZE * 2 ^ o) by (apply shiftl_page; lia).
  assert (Hsmall : 2 ^ o ≤ 2 ^ 11) by (apply Z.pow_le_mono_r; unfold BUDDY_MAX_ORDER in *; lia).
  unfold buddy_free, acquire.
  rewrite (proj2 (Z.eqb_neq a 0)), (proj2 (Z.ltb_ge _ _)), (proj2 (Z.ltb_ge _ _)), Hlk by lia.
  cbn [orb bind]. set (sl := with_lock s true).
  assert (Hwl : wf sl) by by apply wf_lock.
  change (page_index sl) with (page_index s). rewrite (page_index_in s Hg p a Hp Ha).
  change (total_pages sl) with (total_pages s). rewrite (proj2 (Z.leb_gt _ _)) by lia.
  destruct (Hun p Hin) as [Hn Hu]. change (nodes sl) with (nodes s). rewrite Hn. cbn [bind of_opt n_addr n_order].
  unfold shl. rewrite (proj2 (Z.leb_le _ _)), (proj2 (Z.ltb_lt _ _)) by (unfold BUDDY_MAX_ORDER in *; lia).
  cbn [andb bind]. rewrite Hbs, (u64_small (PGSIZE * 2 ^ o)) by (unfold PGSIZE in *; lia).
  rewrite page_index_paddr by (done || lia).
  assert (Hdiv : PGSIZE * 2 ^ o / PGSIZE = 2 ^ o) by (rewrite Z.mul_comm, Z.div_mul; [done|by unfold PGSIZE]).
  rewrite Hdiv. replace (q + 2 ^ o - q) with (2 ^ o) by lia. change (bitmap sl) with (bitmap s).
  destruct (any_used_spec (bitmap s) (total_pages s) q (Z.to_nat (2 ^ o))) as (b & -> & Hbu);
    [lia|lia|apply (g_cover _ Hg)|].
  assert (b = true) as ->.
  { apply Hbu. exists p. split; [unfold in_block in Hin; lia|done]. }
  cbn [bind negb].
  rewrite (proj2 (Z.ltb_ge _ _)) by (unfold paddr, in_block, PGSIZE in *; lia).
  pose proof (paddr_bound s Hg (q + 2 ^ o) ltac:(lia)) as Hend.
  rewrite u64_small by (unfold paddr, PGSIZE in *; lia).
  rewrite (proj2 (Z.leb_gt _ _)) by (unfold paddr, in_block, PGSIZE in *; lia). cbn [orb].
  destruct (open_used sl q o) as (s1 & Hop1 & Hh & Hs1 & Hl1 & Hm1 & Hn1 & Hu1); try done.
  change (paddr sl q) with (paddr s q) in Hop1. rewrite Hop1. cbn [bind].
  change (paddr s q) with (paddr sl q). rewrite <-(same_geom_paddr sl s1 q Hs1).
  destruct (close_hole s1 q o Hh Hl1) as (s' & Hop & Hw' & Hl' & Hs' & Hm' & Hu' & Hn' & Hnb').
  exists s'. split_and!; try done.
  split_and!; [by apply (same_geom_trans sl s1)| | | |].
  - by rewrite Hm', Hm1.
  - intros r Hr. by rewrite Hu', Hu1.
  - intros r Hr Hus. rewrite Hu' in Hus by done. by rewrite Hn', Hn1.
  - intros r Hr Hb'. apply Hnb'; [done|]. unfold nonblank. by rewrite Hn1.
Qed.

End BuddyFree.
