(* ===== verification/BuddyInit.v ===== *)
(** * [buddy_init] establishes the invariant

    After the metadata pages are marked, the pages behind them form a hole of
    pages with zeroed nodes; every block that is added leaves the hole, and
    what remains of it at the end are pages no block covers. *)

From S2P Require Import Prelude CList BuddyDefs BuddyBits BuddyInv BuddyOps.
Import CList Buddy BuddyBits BuddyInv BuddyOps.

Module BuddyInit.

(** The metadata fits into the range it describes. *)
Lemma meta_pages_le n : 0 ≤ n → meta_pages n ≤ n.
Proof.
  intros Hn. unfold meta_pages, bitmap_words, sizeof_node, PGSIZE.
  pose proof (Z.div_mod (n + 63) 64 ltac:(lia)). pose proof (Z.mod_pos_bound (n + 63) 64 ltac:(lia)).
  set (w := (n + 63) / 64) in *.
  destruct (decide (n = 0)) as [->|].
  - subst w. vm_compute. congruence.
  - apply Z.lt_succ_r, Z.div_lt_upper_bound; lia.
Qed.

Lemma lookup_filled {A} n (v : A) i : 0 ≤ i < n → (filled n v : gmap Z A) !! i = Some v.
Proof.
  intros Hi. unfold filled. apply elem_of_list_to_map_1.
  - rewrite <-list_fmap_compose. cbn. rewrite list_fmap_id. apply NoDup_seqZ.
  - apply list_elem_of_fmap. exists i. split; [done|]. apply elem_of_seqZ. lia.
Qed.

Lemma lookup_zero_elems n i :
  0 ≤ i < n → zero_elems n !! LNode i = Some (mk_elem None None).
Proof.
  intros Hi. unfold zero_elems. apply elem_of_list_to_map_1.
  - rewrite <-list_fmap_compose. apply NoDup_fmap_2; [intros ??[=]; done|]. apply NoDup_seqZ.
  - apply list_elem_of_fmap. exists i. split; [done|]. apply elem_of_seqZ. lia.
Qed.

Lemma lookup_zero_elems_end n c : (∀ i, c ≠ LNode i) → zero_elems n !! c = None.
Proof.
  intros Hc. unfold zero_elems. apply not_elem_of_list_to_map_1.
  rewrite <-list_fmap_compose, list_elem_of_fmap. intros (i & -> & _). by apply (Hc i).
Qed.

(** Initialising the list heads in turn. *)
Lemma init_lists_fold h ids :
  ∀ l, l ∈ ids →
    foldl (λ h i, list_init i h) h ids !! LHead l = Some (mk_elem None (Some (LTail l))) ∧
    foldl (λ h i, list_init i h) h ids !! LTail l = Some (mk_elem (Some (LHead l)) None).
Proof.
  induction ids as [|i ids IH] using rev_ind; intros l Hl; [by apply elem_of_nil in Hl|].
  rewrite foldl_app. cbn. unfold list_init at 1 3.
  destruct (decide (l = i)) as [->|Hne].
  - split; [rewrite lookup_insert_ne, lookup_insert_eq by done|rewrite lookup_insert_eq]; done.
  - rewrite !lookup_insert_ne by congruence. apply IH. set_solver.
Qed.

(** All free lists are empty. *)
Lemma init_lists_empty h n : lists (zero_elems n ∪ init_lists h) orders (λ _, []).
Proof.
  split; [|intros ????? Hx; by apply elem_of_nil in Hx].
  intros l Hl. unfold init_lists. change (seqZ 0 (BUDDY_MAX_ORDER + 1)) with orders.
  destruct (init_lists_fold h orders l Hl) as [Hh Ht].
  set (h' := zero_elems n ∪ _).
  assert (Hh' : h' !! LHead l = Some (mk_elem None (Some (LTail l)))).
  { unfold h'. rewrite lookup_union_r; [done|]. by apply lookup_zero_elems_end. }
  assert (Ht' : h' !! LTail l = Some (mk_elem (Some (LHead l)) None)).
  { unfold h'. rewrite lookup_union_r; [done|]. by apply lookup_zero_elems_end. }
  unfold dll, path, nx, pv. cbn. rewrite Hh', Ht'. split_and!; try done. constructor.
Qed.

(** ** Marking the metadata pages *)

(** The managed range is page aligned and within the 56-bit physical
    addresses of RISC-V. *)
Definition range_ok (start end_ n : Z) : Prop :=
  0 < start ∧ start mod PGSIZE = 0 ∧ 0 ≤ n ∧ end_ = start + PGSIZE * n ∧ end_ ≤ 2 ^ 56.

Lemma range_total start end_ n : range_ok start end_ n → u64 (end_ - start) / PGSIZE = n.
Proof.
  intros (H1 & H2 & H3 & -> & H5). rewrite u64_small by (unfold PGSIZE in *; lia).
  replace (start + PGSIZE * n - start) with (n * PGSIZE) by lia. by rewrite Z.div_mul.
Qed.

(** The pages of [s] from [lo] on still have zeroed nodes and clear bits. *)
Definition blank (s : buddy) (H : Z → Prop) : Prop :=
  ∀ p, 0 ≤ p < total_pages s → H p →
    nodes s !! p = Some (mk_node 0 0) ∧ used (bitmap s) p = false.

Definition beyond (m p : Z) : Prop := m ≤ p.

(** The state before the marking loop. *)
Definition zeroed (start end_ n : Z) (s : buddy) : buddy :=
  mk_buddy start end_ n (filled (bitmap_words n) 0) (filled n (mk_node 0 0))
    (zero_elems n ∪ init_lists (lh s)) false (mem s).

Lemma zeroed_geom start end_ n s : range_ok start end_ n → geom (zeroed start end_ n s).
Proof.
  intros (H1 & H2 & H3 & H4 & H5). split; try done; cbn [zeroed total_pages nodes bitmap lh].
  - intros p Hp. rewrite lookup_filled by done. eauto.
  - intros p Hp. rewrite lookup_filled; [eauto|]. unfold bitmap_words. split; [apply Z.div_pos; lia|].
    apply Z.div_lt_upper_bound; [lia|].
    pose proof (Z.div_mod (n + 63) 64 ltac:(lia)). pose proof (Z.mod_pos_bound (n + 63) 64 ltac:(lia)). lia.
  - intros p Hp. unfold live. rewrite (lookup_union_Some_l _ _ _ (mk_elem None None)); [eauto|].
    by apply lookup_zero_elems.
Qed.

Lemma zeroed_used start end_ n s p : used (bitmap (zeroed start end_ n s)) p = false.
Proof.
  unfold used. cbn. destruct (filled _ _ !! _) as [w|] eqn:E; [|done].
  unfold filled in E. apply elem_of_list_to_map_2, list_elem_of_fmap in E as (i & Heq & _).
  injection Heq as _ ->.
  apply Z.bits_0.
Qed.

(** After the first [i] pages have been marked. *)
Record marked (start end_ n : Z) (s0 : buddy) (i : Z) (s : buddy) : Prop := {
  m_geom : geom s;
  m_same : same_geom (zeroed start end_ n s0) s;
  m_lh : lh s = lh (zeroed start end_ n s0);
  m_lock : lock s = false;
  m_mem : mem s = mem s0;
  m_nodes : ∀ p, 0 ≤ p < n → nodes s !! p =
    Some (if decide (p < i) then mk_node (start + PGSIZE * p) (-1) else mk_node 0 0);
  m_bits : ∀ p, 0 ≤ p → used (bitmap s) p = bool_decide (p < i)
}.

Lemma mark_meta_page_spec start end_ n s0 i s :
  range_ok start end_ n → 0 ≤ i < n → marked start end_ n s0 i s →
  ∃ s', mark_meta_page start i s = Ok s' ∧ marked start end_ n s0 (i + 1) s'.
Proof.
  intros Hr Hi [Hg Hs Hlh Hlk Hme Hns Hb]. destruct (Hs) as (E1 & E2 & E3).
  cbn [zeroed mem_start mem_end total_pages] in E1, E2, E3.
  destruct (upd_bit_spec true (bitmap s) i) as (bm & Hop & Hdom & Hu); [lia|apply (g_cover _ Hg); lia|].
  unfold mark_meta_page. change set_bit with (upd_bit true). rewrite Hop. cbn [bind].
  unfold set_node. rewrite Hns by lia. cbn [bind of_opt].
  assert (Ha : u64 (start + i * PGSIZE) = start + PGSIZE * i).
  { destruct Hr as (?&?&?&?&?). rewrite u64_small; unfold PGSIZE in *; lia. }
  rewrite Ha. eexists; split; [done|]. split; try done; cbn [nodes bitmap with_nodes with_bitmap].
  - destruct Hg. split; try done; cbn [nodes bitmap with_nodes with_bitmap total_pages].
    + intros p Hp. rewrite lookup_insert_is_Some. destruct (decide (i = p)); [by left|right; eauto].
    + intros p Hp. by apply Hdom, g_cover.
  - intros p Hp. rewrite lookup_insert. repeat case_decide; try lia; subst; try done;
      rewrite Hns by done; by repeat case_decide; try lia.
  - intros p Hp. rewrite Hu, Hb by done. case_decide; repeat case_bool_decide; try done; lia.
Qed.

Lemma marked_wfx start end_ n s0 s :
  range_ok start end_ n → marked start end_ n s0 (meta_pages n) s →
  wfx s (beyond (meta_pages n)) ∧ blank s (beyond (meta_pages n)).
Proof.
  intros Hr [Hg (E1 & E2 & E3) Hlh Hlk Hme Hns Hb]. cbn [zeroed mem_start mem_end total_pages] in E1, E2, E3.
  assert (Hn : 0 ≤ n) by apply Hr. pose proof (meta_pages_le n Hn) as Hle.
  unfold beyond. split; [split; [split; [done|..]|]|].
  - intros p. rewrite E3. intros Hp. split_and!; [lia|lia|]. rewrite Hns, decide_True by lia.
    unfold paddr. by rewrite E1.
  - intros p. rewrite E3. intros Hp Hnb. eexists. rewrite Hns, decide_True by lia. split; [done|].
    left. cbn. split; [done|]. rewrite Hb by lia. apply bool_decide_eq_true. lia.
  - exists (λ _, []). rewrite Hlh. split; [apply init_lists_empty|].
    intros o p Ho. rewrite E3. split; [by intros ?%elem_of_nil|].
    intros (Hp & Hnb & Hn' & _). rewrite Hns, decide_True in Hn' by lia. injection Hn' as _ <-. lia.
  - intros p. rewrite E3. intros Hp Hb'. rewrite Hns, decide_False by lia. split; [done|].
    rewrite Hb by lia. apply bool_decide_eq_false. lia.
Qed.

(** ** Adding the blocks *)

(** [set_block_metadata] does not depend on the list elements. *)
Lemma set_block_metadata_lh a o s h s' :
  set_block_metadata a o s = Ok s' → set_block_metadata a o (with_lh s h) = Ok (with_lh s' h).
Proof.
  unfold set_block_metadata. change (page_index (with_lh s h) a) with (page_index s a). cbn.
  intros H. inv_res. by rewrite Hr.
Qed.

Lemma push_free_nodes o i s ns s' :
  push_free o i (with_nodes s ns) = Ok s' → ∃ h, push_free o i s = Ok (with_lh s h) ∧
    s' = with_lh (with_nodes s ns) h.
Proof.
  unfold push_free. cbn. intros H. inv_res. rewrite Hr. eauto.
Qed.

(** The order the loop of [buddy_init] uses: reset, push, then the metadata. *)
Lemma give_free_init s H H' q o :
  wfx s H → block_ok s q o → extends H' H q o → (∀ r, in_block q o r → ¬ H' r) →
  (∀ r, in_block q o r → used (bitmap s) r = false) →
  ∃ s1 s2 s3, reset_node q (paddr s q) o s = Ok s1 ∧ push_free o q s1 = Ok s2 ∧
    set_block_metadata (paddr s q) o s2 = Ok s3 ∧ wfx s3 H' ∧ keeps s s3 ∧
    (∀ p, ¬ in_block q o p → nodes s3 !! p = nodes s !! p).
Proof.
  intros Hw Hb He Hd Hf.
  destruct (give_free s H H' q o) as (s1 & s2 & s3 & Hop1 & Hop2 & Hop3 & Hw3 & _ & Hk & Hns); try done.
  assert (Hs2 : ∃ ns, s2 = with_nodes s1 ns).
  { unfold set_block_metadata in Hop2. inv_res. eauto. }
  destruct Hs2 as [ns ->]. destruct (push_free_nodes _ _ _ _ _ Hop3) as (h & Hop3' & ->).
  exists s1, (with_lh s1 h), (with_lh (with_nodes s1 ns) h). split_and!; try done.
  by apply set_block_metadata_lh.
Qed.

(** The part of the range behind the metadata that holds no block yet, when
    the blocks of [a .. c-1] have been added. *)
Definition rest (m a c p : Z) : Prop := m ≤ p ∧ ¬ (a ≤ p < c).

Lemma blank_keep s s3 H H' q o :
  blank s H → keeps s s3 → (∀ r, H' r → H r ∧ ¬ in_block q o r) →
  (∀ p, ¬ in_block q o p → nodes s3 !! p = nodes s !! p) → blank s3 H'.
Proof.
  intros Hbl ((_&_&E)&_&_&Hu&_) Hsub Hns p. rewrite E. intros Hp HH.
  destruct (Hsub p HH) as [HH' Hnin]. rewrite Hns, Hu by (done || lia). by apply Hbl.
Qed.

Lemma add_blocks_spec fuel o m a c s :
  wfx s (rest m a c) → blank s (rest m a c) → m = meta_pages (total_pages s) →
  m ≤ a ≤ c → c ≤ total_pages s → 0 ≤ o ≤ BUDDY_MAX_ORDER →
  paddr s c mod (PGSIZE * 2 ^ o) = 0 → (Z.to_nat (total_pages s - c) < fuel)%nat →
  ∃ s' c', add_blocks fuel o (paddr s c) (mem_end s) s = Ok s' ∧
    wfx s' (rest m a c') ∧ blank s' (rest m a c') ∧ keeps s s'.
Proof.
  revert c s; induction fuel as [|fuel IH]; intros c s Hw Hbl Hm Ha Hc Ho Hal Hf; [lia|].
  cbn [add_blocks]. pose proof (c_geom _ _ (proj1 Hw)) as Hg.
  pose proof (pow2_pos o ltac:(lia)) as Hpow. pose proof (g_end _ Hg) as Hend.
  pose proof (meta_pages_nonneg _ (g_total _ Hg)) as Hm0.
  pose proof (paddr_bound s Hg c ltac:(lia)) as Hcb.
  assert (Hsmall : 2 ^ o ≤ 2 ^ 11) by (apply Z.pow_le_mono_r; unfold BUDDY_MAX_ORDER in *; lia).
  assert (Hnext : u64 (paddr s c + Z.shiftl PGSIZE o) = paddr s (c + 2 ^ o)).
  { rewrite shiftl_page by lia. rewrite u64_small; unfold paddr, PGSIZE in *; lia. }
  rewrite Hnext, Hend. destruct (Z.leb_spec (paddr s (c + 2 ^ o)) (paddr s (total_pages s))) as [Hle|Hgt].
  2:{ exists s, c. split_and!; try done. }
  assert (Hfit : c + 2 ^ o ≤ total_pages s) by (unfold paddr, PGSIZE in Hle; lia).
  assert (Hb : block_ok s c o) by (split_and!; try done; lia).
  rewrite page_index_paddr by (done || lia).
  destruct (give_free_init s (rest m a c) (rest m a (c + 2 ^ o)) c o)
    as (s1 & s2 & s3 & -> & Hop2 & Hop3 & Hw3 & Hk & Hns); try done.
  { intros r. unfold rest, in_block. lia. }
  { intros r. unfold rest, in_block. lia. }
  { intros r Hr. apply Hbl; unfold rest, in_block in *; lia. }
  cbn [bind]. rewrite Hop2. cbn [bind]. rewrite Hop3. cbn [bind].
  destruct (Hk) as (Hs & _). pose proof Hs as (E1 & E2 & E3).
  rewrite <-(same_geom_paddr s s3) by done. rewrite <-Hend, <-E2.
  destruct (IH (c + 2 ^ o) s3) as (s' & c' & Hop & Hw' & Hbl' & Hk'); try done; rewrite ?E3; try lia.
  { apply (blank_keep s s3 (rest m a c) _ c o); try done. intros r. unfold rest, in_block. lia. }
  { rewrite (same_geom_paddr s s3) by done. unfold paddr in *.
    replace (mem_start s + PGSIZE * (c + 2 ^ o))
      with (mem_start s + PGSIZE * c + 1 * (PGSIZE * 2 ^ o)) by lia.
    rewrite Z.mod_add; [done|]. unfold PGSIZE. lia. }
  exists s', c'. split_and!; try done. by apply (keeps_trans _ s3).
Qed.

(** [ALIGN_UP] rounds a page address up to a block address. *)
Lemma ALIGN_UP_spec a k :
  0 ≤ a → 0 ≤ k ≤ 12 + BUDDY_MAX_ORDER → a + 2 ^ k ≤ 2 ^ 64 →
  ALIGN_UP a (2 ^ k) = (a + 2 ^ k - 1) / 2 ^ k * 2 ^ k.
Proof.
  intros Ha Hk Hb. pose proof (pow2_pos k ltac:(lia)). unfold ALIGN_UP.
  rewrite u64_small by lia. replace (a + (2 ^ k - 1)) with (a + 2 ^ k - 1) by lia.
  replace (2 ^ k - 1) with (Z.ones k) by (rewrite Z.ones_equiv; lia).
  rewrite <-Z.ldiff_land, Z.ldiff_ones_r, Z.shiftl_mul_pow2, Z.shiftr_div_pow2 by lia. done.
Qed.

(** The page the first block of an order would start at. *)
Lemma align_page s m o :
  geom s → 0 ≤ m ≤ total_pages s → 0 ≤ o ≤ BUDDY_MAX_ORDER →
  ∃ c, ALIGN_UP (paddr s m) (Z.shiftl PGSIZE o) = paddr s c ∧ m ≤ c < m + 2 ^ o ∧
    paddr s c mod (PGSIZE * 2 ^ o) = 0.
Proof.
  intros Hg Hm Ho. rewrite shiftl_page, pow2_page by lia.
  pose proof (paddr_bound s Hg m Hm) as Hb. pose proof (pow2_pos (12 + o) ltac:(lia)) as Hp.
  assert (Hs : 2 ^ (12 + o) ≤ 2 ^ 23) by (apply Z.pow_le_mono_r; unfold BUDDY_MAX_ORDER in *; lia).
  rewrite ALIGN_UP_spec by lia. set (n := 2 ^ (12 + o)) in *.
  assert (Hn : n = PGSIZE * 2 ^ o) by (unfold n; rewrite pow2_page; [done|lia]).
  set (j := (paddr s m + n - 1) / n).
  assert (Hj : paddr s m ≤ j * n < paddr s m + n).
  { pose proof (Z.div_mod (paddr s m + n - 1) n ltac:(lia)). pose proof (Z.mod_pos_bound (paddr s m + n - 1) n Hp).
    unfold j. lia. }
  pose proof (g_align _ Hg) as Hal. apply Z.mod_divide in Hal as [i Hi]; [|done].
  exists (j * 2 ^ o - i). unfold paddr in *. unfold PGSIZE in *.
  assert (E : j * n = mem_start s + 4096 * (j * 2 ^ o - i)) by (rewrite Hi, Hn; ring).
  rewrite <-E. split_and!; [done|nia|nia|]. apply Z.mod_divide; [lia|]. by exists j.
Qed.

Lemma add_available_spec fuel o m s :
  wfx s (beyond m) → blank s (beyond m) → m = meta_pages (total_pages s) → m ≤ total_pages s →
  -1 ≤ o ≤ BUDDY_MAX_ORDER → (Z.to_nat (o + 1) < fuel)%nat →
  ∃ s' a c, add_available fuel o (paddr s m) (mem_end s) s = Ok s' ∧
    wfx s' (rest m a c) ∧ blank s' (rest m a c) ∧ keeps s s'.
Proof.
  revert o; induction fuel as [|fuel IH]; intros o Hw Hbl Hm Hle Ho Hf; [lia|]. cbn [add_available].
  pose proof (c_geom _ _ (proj1 Hw)) as Hg. pose proof (meta_pages_nonneg _ (g_total _ Hg)).
  assert (Hiff : ∀ a r, beyond m r ↔ rest m a a r) by (intros; unfold beyond, rest; lia).
  destruct (Z.leb_spec 0 o) as [Ho0|Ho0].
  2:{ exists s, m, m. split_and!; try done; [|intros p Hp Hr; by apply Hbl, (Hiff m)].
      by apply (wfx_iff s (beyond m)). }
  destruct (align_page s m o) as (c & -> & Hc & Hal); [done|lia|lia|].
  destruct (Z.ltb_spec (mem_end s) (u64 (paddr s c + Z.shiftl PGSIZE o))) as [Hno|Hfit].
  { destruct (IH (o - 1)) as (s' & a & c' & Hop & Hw' & Hbl' & Hk'); try done; [lia|lia|].
    by exists s', a, c'. }
  assert (Hct : c ≤ total_pages s).
  { pose proof (g_end _ Hg) as Hend. rewrite Hend in Hfit. rewrite shiftl_page in Hfit by lia.
    pose proof (paddr_bound s Hg m ltac:(lia)). pose proof (pow2_pos o Ho0).
    assert (Hsmall : 2 ^ o ≤ 2 ^ 11) by (apply Z.pow_le_mono_r; unfold BUDDY_MAX_ORDER in *; lia).
    rewrite u64_small in Hfit; unfold paddr, PGSIZE in *; lia. }
  destruct (add_blocks_spec (Z.to_nat (total_pages s) + 1) o m c c s) as (s' & c' & Hop & Hw' & Hbl' & Hk');
    try done; try lia.
  - by apply (wfx_iff s (beyond m)).
  - intros p Hp Hr. by apply Hbl, (Hiff c).
  - by exists s', c, c'.
Qed.

(** Pages left blank are pages no block covers. *)
Lemma close_blank s m a c : wfx s (rest m a c) → blank s (rest m a c) → wf s.
Proof.
  intros ([Hg Hm Hp] & F & HF & Hfl) Hbl. split; [split; [done|..]|].
  - intros p Hpm. destruct (Hm p Hpm) as (?&?&?). split_and!; try done. by intros [].
  - intros p Hr _. destruct (decide (m ≤ p ∧ ¬ (a ≤ p < c))) as [HH|HH].
    + destruct (Hbl p Hr HH) as [Hn Hu]. eexists. split; [done|]. right; left. done.
    + destruct (Hp p Hr HH) as (nd & Hn & Hc). exists nd. split; [done|].
      destruct Hc as [?|[?|(q & o & ? & ? & ? & ? & Hd)]]; [tauto|tauto|].
      right; right. exists q, o. split_and!; try done. by intros r _ [].
  - exists F. split; [done|]. intros o p Ho. rewrite (Hfl o p Ho). split.
    + intros (? & _ & ?). split_and!; try done; [lia|lia|by intros []].
    + intros (Hr & _ & Hfh). split_and!; try done; [lia|lia|]. intros HH.
      destruct (Hbl p Hr HH) as [Hn _]. destruct Hfh as [Hn' _]. rewrite Hn in Hn'.
      injection Hn' as Ha _. pose proof (paddr_bound s Hg p). lia.
Qed.

Lemma buddy_init_spec start end_ n s :
  range_ok start end_ n →
  ∃ s', buddy_init start end_ s = Ok s' ∧ wf s' ∧ lock s' = false ∧
    mem_start s' = start ∧ mem_end s' = end_ ∧ total_pages s' = n ∧ mem s' = mem s ∧
    (∀ p, 0 ≤ p → used (bitmap s') p = bool_decide (p < meta_pages n)).
Proof.
  intros Hr. pose proof (range_total _ _ _ Hr) as Ht. destruct (Hr) as (H1 & H2 & Hn & H4 & H5).
  pose proof (meta_pages_le n Hn) as Hle. pose proof (meta_pages_nonneg n Hn) as Hm0.
  unfold buddy_init. rewrite Ht. cbv zeta.
  change (mk_buddy start _ _ _ _ _ _ _) with (zeroed start end_ n s).
  pose proof (zeroed_geom start end_ n s Hr) as Hg.
  destruct (for_range_inv (marked start end_ n s) 0 (meta_pages n) (mark_meta_page start)
    (zeroed start end_ n s)) as (s1 & -> & Hmk); [done| | |].
  { split; try done; intros p Hp.
    - rewrite decide_False by lia. cbn. by apply lookup_filled.
    - rewrite zeroed_used. symmetry. apply bool_decide_eq_false. lia. }
  { intros i s' Hi Hmk. apply mark_meta_page_spec; [done|lia|done]. }
  cbn [bind]. destruct (marked_wfx _ _ _ _ _ Hr Hmk) as [Hw Hbl].
  destruct Hmk as [_ (E1 & E2 & E3) _ Hlk Hme _ Hb]. cbn [zeroed mem_start mem_end total_pages] in E1, E2, E3.
  destruct (add_available_spec 13 BUDDY_MAX_ORDER (meta_pages n) s1) as (s' & a & c & Hop & Hw' & Hbl' & Hk);
    try done; rewrite ?E3; try lia; [unfold BUDDY_MAX_ORDER; lia..|].
  assert (Hst : u64 (start + meta_pages n * PGSIZE) = paddr s1 (meta_pages n)).
  { unfold paddr. rewrite E1, u64_small; unfold PGSIZE in *; lia. }
  rewrite Hst, <-E2. exists s'. destruct Hk as ((K1&K2&K3)&K4&K5&K6&_).
  split_and!; try congruence; [by apply (close_blank s' (meta_pages n) a c)|].
  intros p Hp. by rewrite K6, Hb.
Qed.

End BuddyInit.
