(* ===== verification/Pmem.v ===== *)
(** * The physical page allocator as its clients see it (kernel/pmem.c)

    Lemmas on the entry points over [buddy_alloc] and [buddy_free]: the order
    of a request, blocks handed out stay intact, [kalloc]/[kfree], and the
    class [PageAllocator] that the components above the allocator are verified
    against, with the instance the allocator provides. *)

From S2P Require Import Prelude CList BuddyDefs BuddyBits BuddyInv BuddyOps BuddyFree BuddyInit.
Import CList Buddy BuddyBits BuddyInv BuddyOps BuddyFree BuddyInit.

Module Pmem.

(** ** The order of a request *)

Lemma get_order_loop_spec fuel size k :
  0 ≤ k ≤ BUDDY_MAX_ORDER → (Z.to_nat (BUDDY_MAX_ORDER - k) < fuel)%nat → (k = 0 ∨ 2 ^ (k - 1) < size) →
  ∃ o, get_order_loop fuel size (2 ^ k) k = Ok o ∧ k ≤ o ≤ BUDDY_MAX_ORDER ∧
    (o = 0 ∨ 2 ^ (o - 1) < size) ∧ (o < BUDDY_MAX_ORDER → size ≤ 2 ^ o).
Proof.
  revert k; induction fuel as [|fuel IH]; intros k Hk Hf Hlow; [lia|]. cbn [get_order_loop].
  destruct (Z.ltb_spec (2 ^ k) size); cbn [andb]; [|exists k; split_and!; (done || lia)].
  destruct (Z.ltb_spec k BUDDY_MAX_ORDER); [|exists k; split_and!; (done || lia)].
  assert (E : u64 (Z.shiftl (2 ^ k) 1) = 2 ^ (k + 1)).
  { rewrite Z.shiftl_mul_pow2 by lia. rewrite u64_small; [rewrite Z.pow_add_r by lia; done|].
    pose proof (pow2_pos k ltac:(lia)).
    assert (2 ^ k ≤ 2 ^ 11) by (apply Z.pow_le_mono_r; unfold BUDDY_MAX_ORDER in *; lia). lia. }
  rewrite E. destruct (IH (k + 1)) as (o & Ho & ?); [lia|lia|right; by replace (k + 1 - 1) with k by lia|].
  exists o. split_and!; try done; try lia; tauto.
Qed.

Lemma get_order_small n :
  1 ≤ n ≤ 2 ^ 10 → ∃ o, get_order n = Ok o ∧ 0 ≤ o ≤ 10 ∧ n ≤ 2 ^ o ∧ (o = 0 ∨ 2 ^ (o - 1) < n).
Proof.
  intros Hn. unfold get_order.
  destruct (get_order_loop_spec 12 n 0) as (o & Hop & Ho & Hlow & Hup);
    [unfold BUDDY_MAX_ORDER; lia|unfold BUDDY_MAX_ORDER; lia|by left|].
  change (2 ^ 0) with 1 in Hop. rewrite Hop. cbn [bind].
  assert (o ≤ 10).
  { destruct (decide (o = 11)) as [->|]; [|unfold BUDDY_MAX_ORDER in *; lia].
    destruct Hlow as [?|Hlow]; [lia|]. change (2 ^ (11 - 1)) with (2 ^ 10) in Hlow. lia. }
  rewrite (proj2 (Z.leb_gt _ _)) by (unfold BUDDY_MAX_ORDER; lia).
  exists o. split_and!; try done; try lia. apply Hup. unfold BUDDY_MAX_ORDER. lia.
Qed.

Lemma get_order_big n : 2 ^ 10 < n → get_order n = Ok (-1).
Proof.
  intros Hn. unfold get_order.
  destruct (get_order_loop_spec 12 n 0) as (o & Hop & Ho & Hlow & Hup);
    [unfold BUDDY_MAX_ORDER; lia|unfold BUDDY_MAX_ORDER; lia|by left|].
  change (2 ^ 0) with 1 in Hop. rewrite Hop. cbn [bind].
  destruct (decide (o = 11)) as [->|Hne]; [done|exfalso].
  assert (Hs : 2 ^ o ≤ 2 ^ 10) by (apply Z.pow_le_mono_r; unfold BUDDY_MAX_ORDER in *; lia).
  assert (n ≤ 2 ^ o) by (apply Hup; unfold BUDDY_MAX_ORDER in *; lia). lia.
Qed.

(** ** Blocks handed out *)

Definition live_block (s : buddy) (q o : Z) : Prop := block_ok s q o ∧ uniform s q o true.

Lemma live_block_ext s s' q o :
  geom s → same_geom s s' → live_block s q o →
  (∀ r, in_block q o r → used (bitmap s') r = true ∧ nodes s' !! r = nodes s !! r) →
  live_block s' q o.
Proof.
  intros Hg Hs [Hb Hu] Hk. split; [by apply (block_ok_geom s s')|].
  intros r Hr. destruct (Hk r Hr) as [-> ->]. rewrite (same_geom_paddr s s' q Hs).
  split; [by apply Hu|done].
Qed.

(** Distinct live blocks share no page. *)
Lemma live_block_disjoint s q o q' o' r :
  live_block s q o → live_block s q' o' → in_block q o r → in_block q' o' r → q = q' ∧ o = o'.
Proof. intros [_ H1] [_ H2]. apply (uniform_same s q o true q' o' true r H1 H2). Qed.

Lemma alloc_new_live s s' o p : allocated_from s s' o p → live_block s' p o.
Proof. intros (Hb & Hs & _ & Hun & _). split; [by apply (block_ok_geom s s')|done]. Qed.

Lemma alloc_keeps_live s s' o p q k :
  geom s → allocated_from s s' o p → live_block s q k → live_block s' q k.
Proof.
  intros Hg (Hb & Hs & Hfr & _ & Hbits & Hn & _) Hl. apply (live_block_ext s s'); try done.
  intros r Hr. destruct Hl as [Hbk Hu]. destruct (Hu r Hr) as [_ Hur].
  pose proof (block_nonneg _ _ _ Hg Hbk). assert (0 ≤ r) by (unfold in_block in Hr; lia).
  rewrite Hn, Hbits by (done || (intros Hin; rewrite Hfr in Hur; done)). done.
Qed.

Lemma free_keeps_live s s' o p q k :
  geom s → freed_from s s' o p → live_block s p o → live_block s q k → q ≠ p → live_block s' q k.
Proof.
  intros Hg (Hs & _ & Hbits & Hn & _) Hlp Hl Hne. apply (live_block_ext s s'); try done.
  intros r Hr. assert (Hnin : ¬ in_block p o r).
  { intros Hin. destruct (live_block_disjoint s q k p o r Hl Hlp Hr Hin). congruence. }
  destruct Hl as [Hbk Hu]. destruct (Hu r Hr) as [_ Hur].
  pose proof (block_nonneg _ _ _ Hg Hbk). assert (0 ≤ r) by (unfold in_block in Hr; lia).
  assert (Hus : used (bitmap s') r = true) by by rewrite Hbits, decide_False.
  split; [done|by apply Hn].
Qed.

(** Freeing the block whose address is [paddr s q], with any valid order. *)
Lemma buddy_free_live s q o ord :
  wf s → lock s = false → live_block s q o → 0 ≤ ord ≤ BUDDY_MAX_ORDER →
  ∃ s', buddy_free (paddr s q) ord s = Ok s' ∧ wf s' ∧ lock s' = false ∧ freed_from s s' o q.
Proof.
  intros Hw Hlk [Hb Hu] Ho. apply (buddy_free_spec s q _ q o ord); try done.
  - apply in_block_head. destruct Hb. lia.
  - unfold PGSIZE. lia.
Qed.

(** ** Pages that can still be handed out *)

Definition free_page (s : buddy) (p : Z) : Prop :=
  0 ≤ p < total_pages s ∧ used (bitmap s) p = false ∧ nonblank s p.

Definition avail (s : buddy) (n : nat) : Prop :=
  ∃ L, NoDup L ∧ (n ≤ length L)%nat ∧ ∀ p, p ∈ L → free_page s p.

Lemma free_page_head s p : wf s → free_page s p →
  ∃ q o, 0 ≤ o ≤ BUDDY_MAX_ORDER ∧ 0 ≤ q < total_pages s ∧ free_head s o q.
Proof.
  intros [Hc _] (Hp & Hu & [a o] & Hn & Ha). cbn in Ha.
  destruct (c_pages _ _ Hc p Hp) as (nd & Hn' & Hcase); [by intros []|].
  rewrite Hn in Hn'. injection Hn' as <-.
  destruct Hcase as [[_ ?]|[[[= -> _] _]|(q & o' & [= -> ->] & Hb & Hin & Hun & _)]];
    [congruence|done|].
  exists q, o'. pose proof (block_nonneg _ _ _ (c_geom _ _ Hc) Hb). destruct (Hb) as (?&?&?&?).
  pose proof (pow2_pos o' ltac:(lia)). split_and!; try lia. unfold free_head. rewrite <-Hu.
  apply Hun, in_block_head. lia.
Qed.

Lemma remove_one_length (p : Z) L : NoDup L → (length L ≤ S (length (filter (λ x, x ≠ p) L)))%nat.
Proof.
  induction 1 as [|x L Hx Hnd IH]; [cbn; lia|].
  rewrite filter_cons. case_decide as E; [cbn [length]; lia|].
  subst x. enough (filter (λ x, x ≠ p) L = L) as -> by done.
  clear -Hx. induction L as [|y L IH]; [done|]. apply not_elem_of_cons in Hx as [? ?].
  rewrite filter_cons_True, IH by done. done.
Qed.

(** A one-page request on an allocator with a free page succeeds. *)
Lemma alloc_page_avail s n :
  wf s → lock s = false → avail s (S n) →
  ∃ p s', pmem_alloc_pages 1 s = Ok (paddr s p, s') ∧ kalloc s = Ok (paddr s p, s') ∧ wf s' ∧ lock s' = false ∧ allocated_from s s' 0 p ∧ avail s' n.
Proof.
  intros Hw Hlk (L & Hnd & Hlen & HL). pose proof (c_geom _ _ (proj1 Hw)) as Hg.
  unfold kalloc, pmem_alloc_pages. change (1 <=? 0) with false. cbv iota.
  change (get_order 1) with (@Ok Z 0). cbn [bind]. change (0 =? -1) with false. cbv iota.
  destruct (buddy_alloc_wf s 0 Hw Hlk) as (r & s' & -> & Hw' & Hlk' & Hcase); [unfold BUDDY_MAX_ORDER; lia|].
  cbn [bind]. destruct Hcase as [(_ & _ & Hno)|(p & -> & Hal)].
  { exfalso. destruct L as [|x L]; [cbn in Hlen; lia|].
    destruct (free_page_head s x Hw) as (q & o & Ho & Hq & Hf); [apply HL; left|]. by apply (Hno o q). }
  destruct (Hal) as (Hb & (_&_&E3) & Hfr & _ & Hbits & _ & Hnb & _).
  pose proof (block_nonneg _ _ _ Hg Hb) as Hp. destruct (Hb) as (_ & _ & Ht & _). change (2 ^ 0) with 1 in Ht.
  pose proof (paddr_bound s Hg p ltac:(lia)). rewrite (proj2 (Z.eqb_neq _ _)) by lia. cbn [bind].
  rewrite (proj2 (Z.eqb_neq _ _)) by lia. exists p, s'. split_and!; try done.
  exists (filter (λ x, x ≠ p) L). split_and!.
  - by apply NoDup_filter.
  - pose proof (remove_one_length p L Hnd). lia.
  - intros x [Hx Hin]%list_elem_of_filter. destruct (HL x Hin) as (Hx0 & Hxu & Hxn).
    assert (Hxout : ¬ in_block p 0 x) by (unfold in_block; change (2 ^ 0) with 1; lia).
    split_and!; [lia|lia|by rewrite Hbits by (done || lia)|apply Hnb; [lia|done]].
Qed.

(** ** Freeing through [pmem_free_pages] *)

Lemma pmem_free_live s q o n :
  wf s → lock s = false → live_block s q o → 1 ≤ n ≤ 2 ^ o →
  ∃ s', pmem_free_pages (paddr s q) n s = Ok s' ∧ wf s' ∧ lock s' = false ∧ freed_from s s' o q.
Proof.
  intros Hw Hlk Hl Hn. pose proof (c_geom _ _ (proj1 Hw)) as Hg. destruct (Hl) as [Hb Hu].
  pose proof (block_nonneg _ _ _ Hg Hb) as Hq. destruct (Hb) as (Ho & Hm & Ht & Hal).
  pose proof (pow2_pos o ltac:(lia)) as Hpow. pose proof (paddr_bound s Hg q ltac:(lia)) as Hpb.
  assert (Hsmall : 2 ^ o ≤ 2 ^ 11) by (apply Z.pow_le_mono_r; unfold BUDDY_MAX_ORDER in *; lia).
  assert (Hlo : (paddr s q <? mem_start s) = false) by (apply Z.ltb_ge; unfold paddr, PGSIZE; lia).
  assert (Hhi : (mem_end s <=? paddr s q) = false).
  { apply Z.leb_gt. rewrite (g_end _ Hg). unfold paddr, PGSIZE. lia. }
  unfold pmem_free_pages. rewrite (proj2 (Z.eqb_neq _ _)), (proj2 (Z.leb_gt n 0)), Hlo, Hhi by lia.
  cbn [orb]. rewrite page_index_paddr, (proj2 (Z.leb_gt _ _)) by (done || lia).
  destruct (Hu q) as [Hnode Hus]; [apply in_block_head; lia|]. rewrite Hnode. cbn [of_opt bind n_addr n_order].
  rewrite Hlo, Hhi, (proj2 (Z.ltb_ge _ _)), (proj2 (Z.ltb_ge _ _)) by lia. cbn [orb].
  unfold shl. rewrite (proj2 (Z.leb_le _ _)), (proj2 (Z.ltb_lt _ _)) by (unfold BUDDY_MAX_ORDER in *; lia).
  cbn [andb bind]. rewrite shiftl_one, shiftl_page by lia.
  rewrite !u64_small by (unfold PGSIZE in *; lia). rewrite (proj2 (Z.ltb_ge _ _)) by lia.
  rewrite Hal. cbn [Z.eqb negb]. rewrite page_index_paddr by (done || lia).
  replace (q + 2 ^ o - q) with (2 ^ o) by lia.
  destruct (any_used_spec (bitmap s) (total_pages s) q (Z.to_nat (2 ^ o))) as (b & -> & Hbu);
    [lia|lia|apply (g_cover _ Hg)|].
  assert (b = true) as -> by (apply Hbu; exists q; split; [lia|done]).
  cbn [bind negb]. by apply buddy_free_live.
Qed.

(** ** The interface of the allocator

    [pa_alloc] is [pmem_alloc_pages(1)], [pa_free] is [pmem_free_pages(a, 1)],
    [pa_range s a] the test against [mem_start] and [mem_end];
    [pa_owned s a]: the page at address [a] has been handed out;
    [pa_avail s n]: [n] more pages can be. *)
Class PageAllocator (St : Type) := {
  pa_alloc : St → res (Z * St);
  pa_free : Z → St → res St;
  pa_range : St → Z → bool;
  pa_inv : St → Prop;
  pa_owned : St → Z → Prop;
  pa_avail : St → nat → Prop
}.

Class PageAllocatorLaws (St : Type) `{PageAllocator St} : Prop := {
  pa_alloc_ok : ∀ s n, pa_inv s → pa_avail s (S n) →
    ∃ a s', pa_alloc s = Ok (a, s') ∧ pa_inv s' ∧ pa_avail s' n ∧
      0 < a < 2 ^ 56 ∧ a mod PGSIZE = 0 ∧ ¬ pa_owned s a ∧
      (∀ b, pa_owned s' b ↔ b = a ∨ pa_owned s b);
  pa_free_ok : ∀ s a, pa_inv s → pa_owned s a →
    ∃ s', pa_free a s = Ok s' ∧ pa_inv s' ∧
      (∀ b, pa_owned s' b → pa_owned s b) ∧
      (∀ b, pa_owned s b → b = a ∨ pa_owned s' b) ∧ ¬ pa_owned s' a;
  pa_range_ok : ∀ s a, pa_inv s → pa_owned s a → pa_range s a = true;
  pa_avail_le : ∀ s n m, pa_avail s n → (m ≤ n)%nat → pa_avail s m;
  pa_free_avail : ∀ s a s' n, pa_inv s → pa_owned s a → pa_free a s = Ok s' → pa_avail s n → pa_avail s' (S n)
}.

#[export] Instance buddy_allocator : PageAllocator buddy := {
  pa_alloc := pmem_alloc_pages 1;
  pa_free a := pmem_free_pages a 1;
  pa_range s a := (mem_start s <=? a) && (a <? mem_end s);
  pa_inv s := wf s ∧ lock s = false;
  pa_owned s a := ∃ q, a = paddr s q ∧ live_block s q 0;
  pa_avail := avail
}.

(** A live block after an allocation is the new one or was live before. *)
Lemma live_after_alloc s s' o p q k :
  wf s → allocated_from s s' o p → live_block s' q k → (q = p ∧ k = o) ∨ live_block s q k.
Proof.
  intros Hw Hal Hl. pose proof (c_geom _ _ (proj1 Hw)) as Hg. pose proof (alloc_new_live _ _ _ _ Hal) as Hlp.
  destruct Hal as (Hb & Hs & Hfr & _ & Hbits & Hn & _). destruct (Hl) as [Hbk Hu].
  apply (block_ok_geom s s') in Hbk; [|done]. pose proof (block_nonneg _ _ _ Hg Hbk) as Hq.
  destruct (decide (q = p)) as [->|Hne].
  { left. pose proof (in_block_head p o ltac:(destruct Hb; lia)).
    pose proof (in_block_head p k ltac:(destruct Hbk; lia)).
    by destruct (live_block_disjoint s' p k p o p Hl Hlp). }
  right. split; [done|]. intros r Hr.
  assert (Hout : ¬ in_block p o r).
  { intros Hin. destruct (live_block_disjoint s' q k p o r Hl Hlp Hr Hin). done. }
  destruct (Hu r Hr) as [Hnr Hur]. assert (Hr0 : 0 ≤ r) by (unfold in_block in Hr; lia).
  rewrite Hbits in Hur by done. rewrite <-(Hn r Hr0 Hur), <-(same_geom_paddr s s' q Hs). done.
Qed.

Lemma live_after_free s s' o p q k :
  wf s → freed_from s s' o p → live_block s' q k → live_block s q k ∧ ¬ in_block p o q.
Proof.
  intros Hw (Hs & _ & Hbits & Hn & _) [Hbk Hu]. pose proof (c_geom _ _ (proj1 Hw)) as Hg.
  apply (block_ok_geom s s') in Hbk; [|done]. pose proof (block_nonneg _ _ _ Hg Hbk) as Hq.
  assert (Hr : ∀ r, in_block q k r → ¬ in_block p o r ∧ used (bitmap s) r = true ∧
                     nodes s !! r = Some (mk_node (paddr s q) k)).
  { intros r Hr. destruct (Hu r Hr) as [Hnr Hur]. assert (Hr0 : 0 ≤ r) by (unfold in_block in Hr; lia).
    pose proof (Hn r Hr0 Hur) as Hnn. rewrite Hbits in Hur by done. case_decide; [done|].
    split_and!; try done. by rewrite <-Hnn, <-(same_geom_paddr s s' q Hs). }
  split; [split; [done|]|].
  - intros r Hin. destruct (Hr r Hin) as (_ & ? & ?). done.
  - apply Hr, in_block_head. destruct Hbk. lia.
Qed.

(** A page that is freed can be handed out again. *)
Lemma free_page_avail s s' q n :
  wf s → live_block s q 0 → freed_from s s' 0 q → avail s n → avail s' (S n).
Proof.
  intros Hw [Hb Hu] (Hs & _ & Hbits & _ & Hnb) (L & Hnd & Hlen & HL). pose proof (c_geom _ _ (proj1 Hw)) as Hg.
  pose proof (block_nonneg _ _ _ Hg Hb) as Hq. destruct (Hb) as (_ & _ & Ht & _). change (2 ^ 0) with 1 in Ht.
  pose proof (in_block_head q 0 ltac:(lia)) as Hin. destruct (Hu q Hin) as [Hn Hus].
  assert (Htot : total_pages s' = total_pages s) by (by destruct Hs as (_ & _ & ->)).
  exists (q :: L). split_and!.
  - apply NoDup_cons. split; [|done]. intros (_ & Hf & _)%HL. congruence.
  - cbn. lia.
  - intros p [->|Hp]%elem_of_cons; (split; [|split]; rewrite ?Htot).
    + lia.
    + rewrite Hbits by lia. by rewrite decide_True.
    + apply Hnb; [lia|]. exists (mk_node (paddr s q) 0). split; [done|]. cbn. pose proof (paddr_bound s Hg q ltac:(lia)). lia.
    + by apply HL.
    + destruct (HL p Hp) as (? & Hf & _). rewrite Hbits by lia. by case_decide.
    + destruct (HL p Hp) as (? & _ & ?). apply Hnb; [lia|done].
Qed.

#[export] Instance buddy_allocator_laws : PageAllocatorLaws buddy.
Proof.
  split; cbn.
  - intros s n [Hw Hlk] Hav. pose proof (c_geom _ _ (proj1 Hw)) as Hg.
    destruct (alloc_page_avail s n Hw Hlk Hav) as (p & s' & Hop & _ & Hw' & Hlk' & Hal & Hav').
    exists (paddr s p), s'. pose proof Hal as (Hb & Hs & Hfr & _).
    pose proof (block_nonneg _ _ _ Hg Hb) as Hp. destruct (Hb) as (_ & _ & Ht & Hmod).
    change (2 ^ 0) with 1 in *. rewrite Z.mul_1_r in Hmod.
    pose proof (paddr_bound s Hg p ltac:(lia)). pose proof (paddr_bound s Hg (p + 1) ltac:(lia)).
    split_and!; try done; [lia|unfold paddr, PGSIZE in *; lia| |].
    + intros (q & Hq & _ & Hu). apply paddr_inj in Hq as <-.
      pose proof (in_block_head p 0 ltac:(lia)) as Hin. destruct (Hu p Hin). rewrite Hfr in *; done.
    + intros b. split.
      * intros (q & -> & Hl). rewrite (same_geom_paddr s s' q Hs).
        destruct (live_after_alloc s s' 0 p q 0 Hw Hal Hl) as [[-> _]|]; [by left|right; eauto].
      * intros [->|(q & -> & Hl)].
        -- exists p. split; [by rewrite (same_geom_paddr s s' p Hs)|by apply (alloc_new_live s)].
        -- exists q. split; [by rewrite (same_geom_paddr s s' q Hs)|by apply (alloc_keeps_live s s' 0 p)].
  - intros s a [Hw Hlk] (q & -> & Hl). pose proof (c_geom _ _ (proj1 Hw)) as Hg.
    destruct (pmem_free_live s q 0 1 Hw Hlk Hl ltac:(lia)) as (s' & Hop & Hw' & Hlk' & Hfr).
    exists s'. pose proof Hfr as (Hs & _). split_and!; try done.
    + intros b (k & -> & Hk). exists k. rewrite (same_geom_paddr s s' k Hs).
      split; [done|]. by apply (live_after_free s s' 0 q).
    + intros b (k & -> & Hk). destruct (decide (k = q)) as [->|]; [by left|right].
      exists k. rewrite (same_geom_paddr s s' k Hs). split; [done|]. by apply (free_keeps_live s s' 0 q).
    + intros (k & Heq & Hk). rewrite (same_geom_paddr s s' k Hs) in Heq. apply paddr_inj in Heq as <-.
      destruct (live_after_free s s' 0 q q 0 Hw Hfr Hk) as [_ Hn]. by apply Hn, in_block_head.
  - intros s a [Hw _] (q & -> & Hb & _). pose proof (c_geom _ _ (proj1 Hw)) as Hg.
    pose proof (block_nonneg _ _ _ Hg Hb). destruct Hb as (_ & _ & Ht & _). change (2 ^ 0) with 1 in Ht.
    apply andb_true_iff. split; [apply Z.leb_le|apply Z.ltb_lt; rewrite (g_end _ Hg)]; unfold paddr, PGSIZE; lia.
  - intros s n m (L & ? & ? & ?) Hle. exists L. split_and!; try done. lia.
  - intros s a s' n [Hw Hlk] (q & -> & Hl) Hop.
    destruct (pmem_free_live s q 0 1 Hw Hlk Hl ltac:(lia)) as (s2 & Hop' & _ & _ & Hfr).
    rewrite Hop in Hop'. injection Hop' as <-. by apply (free_page_avail s s' q).
Qed.

End Pmem.
