(* ===== verification/PmemSpec.v ===== *)
(** * What the page allocator guarantees

    The theorems on kernel/pmem.c: the invariant over every sequence of
    allocations and releases, each operation's behaviour, the round trip, and
    the two places where the code does not do what it means to. *)

From S2P Require Import Prelude CList BuddyDefs BuddyBits BuddyInv BuddyOps BuddyFree BuddyInit Pmem.
Import CList Buddy BuddyBits BuddyInv BuddyOps BuddyFree BuddyInit Pmem.

Module PmemSpec.

(** ** Sequences of calls *)

(** The allocator with the blocks its callers hold (address to order). *)
Definition world : Type := buddy * gmap Z Z.

(** A caller allocates a block of any order, or releases one it holds. *)
Inductive call : world → world → Prop :=
| call_alloc s L order r s' :
    buddy_alloc order s = Ok (r, s') →
    call (s, L) (s', if r =? 0 then L else <[r := order]> L)
| call_free s L a o s' :
    L !! a = Some o → buddy_free a o s = Ok s' →
    call (s, L) (s', delete a L).

(** Everything that is used is metadata or held by a caller. *)
Definition no_leak (s : buddy) (L : gmap Z Z) : Prop :=
  ∀ p, meta_pages (total_pages s) ≤ p < total_pages s → used (bitmap s) p = true →
    ∃ q o, L !! paddr s q = Some o ∧ in_block q o p.

Definition held (s : buddy) (L : gmap Z Z) : Prop :=
  ∀ a o, L !! a = Some o → ∃ q, a = paddr s q ∧ live_block s q o.

Record sound (w : world) : Prop := {
  so_wf : wf w.1;
  so_lock : lock w.1 = false;
  so_held : held w.1 w.2;
  so_leak : no_leak w.1 w.2
}.

Lemma buddy_alloc_cases s order :
  wf s → lock s = false →
  ∃ r s', buddy_alloc order s = Ok (r, s') ∧ wf s' ∧ lock s' = false ∧
    ((r = 0 ∧ s' = s) ∨ (∃ p, r = paddr s p ∧ r ≠ 0 ∧ allocated_from s s' order p)).
Proof.
  intros Hw Hlk. destruct (decide (0 ≤ order ≤ BUDDY_MAX_ORDER)) as [Ho|Ho].
  - destruct (buddy_alloc_wf s order Hw Hlk Ho) as (r & s' & Hop & Hw' & Hlk' & [(-> & -> & _)|(p & -> & Hal)]);
      (eexists _, _; split_and!; [done|done|done|]); [by left|]. right. exists p. split_and!; try done.
    pose proof (c_geom _ _ (proj1 Hw)) as Hg. destruct Hal as (Hb & _).
    pose proof (block_nonneg _ _ _ Hg Hb). destruct Hb as (?&?&?&?). pose proof (pow2_pos order ltac:(lia)).
    pose proof (paddr_bound s Hg p ltac:(lia)). lia.
  - exists 0, s. split_and!; try done; [|by left]. unfold buddy_alloc.
    destruct (Z.ltb_spec order 0), (Z.ltb_spec BUDDY_MAX_ORDER order); try done. lia.
Qed.

Lemma sound_alloc s L order r s' :
  sound (s, L) → buddy_alloc order s = Ok (r, s') →
  sound (s', if r =? 0 then L else <[r := order]> L).
Proof.
  intros [Hw Hlk Hh Hnl] Hop. cbn in *. pose proof (c_geom _ _ (proj1 Hw)) as Hg.
  destruct (buddy_alloc_cases s order Hw Hlk) as (r' & s'' & Hop' & Hw' & Hlk' & Hcase).
  rewrite Hop in Hop'. injection Hop' as <- <-. destruct Hcase as [[-> ->]|(p & Hr & Hr0 & Hal)]; [done|].
  rewrite (proj2 (Z.eqb_neq _ _)) by done. pose proof Hal as (_ & Hs & _ & _ & Hbits & _).
  split; cbn; try done.
  - intros a o Ha. apply lookup_insert_Some in Ha as [[<- <-]|[_ Ha]].
    + exists p. rewrite (same_geom_paddr s s' p Hs). split; [done|]. by apply (alloc_new_live s).
    + destruct (Hh a o Ha) as (q & -> & Hl). exists q. rewrite (same_geom_paddr s s' q Hs).
      split; [done|]. by apply (alloc_keeps_live s s' order p).
  - intros x. destruct (Hs) as (_ & _ & ->). intros Hx Hu. pose proof (meta_pages_nonneg _ (g_total _ Hg)).
    destruct (decide (in_block p order x)) as [Hin|Hout].
    + exists p, order. rewrite (same_geom_paddr s s' p Hs), <-Hr, lookup_insert_eq. done.
    + rewrite Hbits in Hu by (done || lia). destruct (Hnl x Hx Hu) as (q & o & Hq & Hin). exists q, o.
      rewrite (same_geom_paddr s s' q Hs), lookup_insert_ne; [done|]. intros Heq. rewrite <-Heq, Hr in Hq.
      destruct (Hh _ _ Hq) as (q' & Heq' & _ & Hun). rewrite Heq in Hr. apply paddr_inj in Hr as ->.
      apply paddr_inj in Heq' as <-. destruct Hal as (Hb & _ & Hfr & _).
      pose proof (in_block_head p order ltac:(destruct Hb; lia)) as Hhd.
      destruct (Hun p) as [_ Hup]; [unfold in_block in Hin |- *; lia|]. rewrite Hfr in Hup by done. done.
Qed.

Lemma sound_free s L a o s' :
  sound (s, L) → L !! a = Some o → buddy_free a o s = Ok s' → sound (s', delete a L).
Proof.
  intros [Hw Hlk Hh Hnl] Ha Hop. cbn in *. pose proof (c_geom _ _ (proj1 Hw)) as Hg.
  destruct (Hh a o Ha) as (p & -> & Hl).
  destruct (buddy_free_live s p o o Hw Hlk Hl) as (s'' & Hop' & Hw' & Hlk' & Hfr); [apply Hl|].
  rewrite Hop in Hop'. injection Hop' as <-. pose proof Hfr as (Hs & _ & Hbits & _).
  split; cbn; try done.
  - intros b k [Hne Hb]%lookup_delete_Some. destruct (Hh b k Hb) as (q & -> & Hlq).
    exists q. rewrite (same_geom_paddr s s' q Hs). split; [done|].
    apply (free_keeps_live s s' o p); try done. by intros ->.
  - intros x. destruct (Hs) as (_ & _ & ->). intros Hx Hu. pose proof (meta_pages_nonneg _ (g_total _ Hg)).
    rewrite Hbits in Hu by lia. case_decide as Hin; [done|].
    destruct (Hnl x Hx Hu) as (q & k & Hq & Hinq). exists q, k. rewrite (same_geom_paddr s s' q Hs).
    split; [|done]. rewrite lookup_delete_ne; [done|]. intros Heq. apply paddr_inj in Heq as <-.
    rewrite Ha in Hq. by injection Hq as <-.
Qed.

Lemma sound_init start end_ n s s' :
  range_ok start end_ n → buddy_init start end_ s = Ok s' → sound (s', ∅).
Proof.
  intros Hr Hop. destruct (buddy_init_spec start end_ n s Hr) as (s'' & Hop' & Hw & Hlk & _ & _ & Hn & _ & Hb).
  rewrite Hop in Hop'. injection Hop' as <-. split; cbn; try done.
  intros p Hp Hu. rewrite Hn in Hp. destruct Hr as (_ & _ & Hn0 & _).
  pose proof (meta_pages_nonneg n Hn0). rewrite Hb in Hu by lia.
  apply bool_decide_eq_true in Hu. lia.
Qed.

Lemma sound_reach w w' : rtc call w w' → sound w → sound w'.
Proof.
  induction 1 as [|w1 w2 w3 Hc _ IH]; [done|]. intros Hs. apply IH. destruct Hc.
  - by apply (sound_alloc s).
  - by apply (sound_free s L a o).
Qed.

(** C1. From the state [buddy_init] builds, after any sequence of
    [buddy_alloc] calls and of [buddy_free] calls on blocks obtained before:
    the allocator is well formed and unlocked, the blocks the callers hold are
    naturally aligned and pairwise disjoint, every used page is metadata or
    belongs to a held block (nothing leaks), and the next call returns without
    panicking, whether it allocates any order or frees any held block. *)
Theorem buddy_calls_safe start end_ n s0 s1 s L :
  range_ok start end_ n → buddy_init start end_ s0 = Ok s1 →
  rtc call (s1, ∅) (s, L) →
  wf s ∧ lock s = false ∧ no_leak s L ∧
  (∀ a o, L !! a = Some o → ∃ q, a = paddr s q ∧ block_ok s q o) ∧
  (∀ q o q' o' r, L !! paddr s q = Some o → L !! paddr s q' = Some o' →
     in_block q o r → in_block q' o' r → q = q' ∧ o = o') ∧
  (∀ order, is_Ok (buddy_alloc order s)) ∧
  (∀ a o, L !! a = Some o → is_Ok (buddy_free a o s)).
Proof.
  intros Hr Hinit Hrun. pose proof (sound_init _ _ _ _ _ Hr Hinit) as Hs.
  apply (sound_reach _ _ Hrun) in Hs as [Hw Hlk Hh Hnl]. cbn in *. split_and!; try done.
  - intros a o Ha. destruct (Hh a o Ha) as (q & -> & Hb & _). eauto.
  - intros q o q' o' r Hq Hq' Hin Hin'. destruct (Hh _ _ Hq) as (x & E & Hl), (Hh _ _ Hq') as (x' & E' & Hl').
    apply paddr_inj in E as <-, E' as <-. by apply (live_block_disjoint s q o q' o' r).
  - intros order. destruct (buddy_alloc_cases s order Hw Hlk) as (r & s' & -> & _). by eexists.
  - intros a o Ha. destruct (Hh a o Ha) as (q & -> & Hl).
    destruct (buddy_free_live s q o o Hw Hlk Hl) as (s' & -> & _); [apply Hl|]. by eexists.
Qed.

(** ** A small allocator: 16 pages at 0x80200000 *)

Definition empty_state : buddy := mk_buddy 0 0 0 ∅ ∅ ∅ false (λ _, 0).
Definition small : res buddy := buddy_init 0x80200000 0x80210000 empty_state.
Definition small_state : buddy := Eval vm_compute in get empty_state small.

Lemma small_range : range_ok 0x80200000 0x80210000 16.
Proof. unfold range_ok. split_and!; vm_compute; congruence. Qed.

Lemma small_init : small = Ok small_state.
Proof. vm_compute. reflexivity. Qed.

Lemma small_wf : wf small_state ∧ lock small_state = false.
Proof.
  destruct (buddy_init_spec _ _ _ empty_state small_range) as (s & Hop & Hw & Hlk & _).
  unfold small in *. pose proof small_init as E. unfold small in E. rewrite Hop in E. injection E as ->. done.
Qed.

(** Pages 8 to 15 of the small allocator are free. *)
Definition free_page_b (s : buddy) (p : Z) : bool :=
  (0 <=? p) && (p <? total_pages s) && negb (used (bitmap s) p) &&
  match nodes s !! p with Some nd => negb (n_addr nd =? 0) | None => false end.

Lemma free_page_b_spec s p : free_page_b s p = true → free_page s p.
Proof.
  unfold free_page_b. rewrite !andb_true_iff, negb_true_iff. intros [[[H1 H2] H3] H4].
  split; [lia|]. split; [done|]. destruct (nodes s !! p) as [nd|] eqn:E; [|done].
  exists nd. split; [done|]. by apply negb_true_iff, Z.eqb_neq in H4.
Qed.

Lemma small_avail : avail small_state 8.
Proof.
  exists (seqZ 8 8). split; [apply NoDup_seqZ|]. split; [by rewrite length_seqZ|].
  intros p Hp. apply free_page_b_spec. revert p Hp. apply Forall_forall. vm_compute. repeat constructor.
Qed.

(** The address and the state of a result. *)
Definition ptr_of (m : res (Z * buddy)) : Z := match m with Ok (r, _) => r | _ => -1 end.
Definition state_of (m : res (Z * buddy)) : buddy := match m with Ok (_, s) => s | _ => empty_state end.

Lemma ptr_of_Ok m r : ptr_of m = r → r ≠ -1 → m = Ok (r, state_of m).
Proof. by destruct m as [[]| | |]; cbn; intros; subst. Qed.

(** An allocation of order 2, then its release. *)
Definition small_held : buddy := state_of (buddy_alloc 2 small_state).

Lemma small_alloc : buddy_alloc 2 small_state = Ok (0x80208000, small_held).
Proof. apply ptr_of_Ok; [vm_compute; reflexivity|discriminate]. Qed.

Lemma buddy_calls_safe_witness :
  rtc call (small_state, ∅) (small_held, <[0x80208000 := 2]> ∅) ∧
  wf small_held ∧ is_Ok (buddy_free 0x80208000 2 small_held).
Proof.
  assert (Hrun : rtc call (small_state, ∅) (small_held, <[0x80208000 := 2]> ∅)).
  { apply rtc_once. exact (call_alloc small_state ∅ 2 0x80208000 small_held small_alloc). }
  destruct (buddy_calls_safe 0x80200000 0x80210000 16 empty_state small_state small_held _
              small_range small_init Hrun) as (Hw & _ & _ & _ & _ & _ & Hf).
  split; [exact Hrun|]. split; [exact Hw|]. apply Hf. reflexivity.
Defined.

(** ** The operations *)

(** C2. [buddy_alloc] on a well-formed, unlocked allocator returns, keeps the
    invariant and releases the lock.  It returns NULL and changes nothing
    exactly when no free block of the order or a larger one exists; otherwise
    it returns the address of an aligned run of [2^order] pages, all of which
    were free and are now used, zeroed and labelled, and no other page's
    bit or used page's label changes. *)
Theorem buddy_alloc_correct s order :
  wf s → lock s = false → 0 ≤ order ≤ BUDDY_MAX_ORDER →
  ∃ r s', buddy_alloc order s = Ok (r, s') ∧ wf s' ∧ lock s' = false ∧
    ((r = 0 ∧ s' = s ∧
      ∀ k p, order ≤ k ≤ BUDDY_MAX_ORDER → 0 ≤ p < total_pages s → ¬ free_head s k p) ∨
     (∃ p, r = paddr s p ∧ r ≠ 0 ∧ allocated_from s s' order p)).
Proof.
  intros Hw Hlk Ho. destruct (buddy_alloc_wf s order Hw Hlk Ho) as (r & s' & Hop & Hw' & Hlk' & Hc).
  destruct (buddy_alloc_cases s order Hw Hlk) as (r' & s'' & Hop' & _ & _ & Hc').
  rewrite Hop in Hop'. injection Hop' as <- <-. exists r, s'. split_and!; try done.
  destruct Hc as [?|(p & Hr & Hal)]; [by left|]. right.
  destruct Hc' as [[-> ->]|(p' & ? & ? & _)]; [|by exists p].
  destruct Hal as (Hb & _ & Hfr & Hun & _). pose proof (in_block_head p order ltac:(lia)) as Hin.
  destruct (Hun p Hin) as [_ Hu]. rewrite Hfr in Hu; done.
Qed.

Lemma buddy_alloc_correct_witness :
  ∃ r s', buddy_alloc 2 small_state = Ok (r, s') ∧ wf s' ∧ lock s' = false.
Proof.
  destruct small_wf as [Hw Hlk].
  destruct (buddy_alloc_correct small_state 2 Hw Hlk) as (r & s' & Hop & Hw' & Hlk' & _);
    [vm_compute; split; congruence|]. exists r, s'. auto.
Defined.

(** C3. [buddy_free], called with any address of a page of a used block and
    any order in range, returns, keeps the invariant, releases the lock and
    marks exactly the pages of the block the address lies in (whatever order
    was passed) as free; the memory and the labels of all used pages stay. *)
Theorem buddy_free_correct s q o a p ord :
  wf s → lock s = false → live_block s q o → in_block q o p →
  paddr s p ≤ a < paddr s p + PGSIZE → 0 ≤ ord ≤ BUDDY_MAX_ORDER →
  ∃ s', buddy_free a ord s = Ok s' ∧ wf s' ∧ lock s' = false ∧ freed_from s s' o q.
Proof. intros Hw Hlk [Hb Hu] Hin Ha Ho. by apply (buddy_free_spec s p a q o ord). Qed.

Lemma small_block : live_block small_held 8 2.
Proof.
  destruct small_wf as [Hw Hlk].
  destruct (buddy_alloc_cases small_state 2 Hw Hlk) as (r & s & Hop & _ & _ & Hc).
  rewrite small_alloc in Hop. apply Ok_pair_inj in Hop as [<- <-]. destruct Hc as [[? _]|(p & Hp & _ & Hal)]; [done|].
  assert (p = 8) as -> by (unfold paddr, PGSIZE in Hp; change (mem_start small_state) with 0x80200000 in Hp; lia).
  apply (alloc_new_live _ _ _ _ Hal).
Qed.

Lemma small_held_wf : wf small_held ∧ lock small_held = false.
Proof.
  destruct small_wf as [Hw Hlk].
  destruct (buddy_alloc_cases small_state 2 Hw Hlk) as (r & s & Hop & Hw' & Hlk' & _).
  rewrite small_alloc in Hop. apply Ok_pair_inj in Hop as [<- <-]. exact (conj Hw' Hlk').
Qed.

Lemma buddy_free_correct_witness :
  ∃ s', buddy_free 0x80209123 0 small_held = Ok s' ∧ wf s' ∧ freed_from small_held s' 2 8.
Proof.
  destruct small_held_wf as [Hw Hlk].
  destruct (buddy_free_correct small_held 8 2 0x80209123 9 0 Hw Hlk small_block) as (s' & Hop & Hw' & _ & Hf).
  - unfold in_block. change (2 ^ 2) with 4. lia.
  - vm_compute. split; congruence.
  - vm_compute. split; congruence.
  - exists s'. auto.
Defined.

(** [buddy_init] on a page-aligned range below 2^56 returns a well-formed
    allocator of [n] pages in which exactly the metadata pages are used; the
    metadata always fits into the range. *)
Theorem buddy_init_correct start end_ n s :
  range_ok start end_ n →
  ∃ s', buddy_init start end_ s = Ok s' ∧ wf s' ∧ lock s' = false ∧
    mem_start s' = start ∧ mem_end s' = end_ ∧ total_pages s' = n ∧
    meta_pages n ≤ n ∧
    (∀ p, 0 ≤ p → used (bitmap s') p = bool_decide (p < meta_pages n)).
Proof.
  intros Hr. destruct (buddy_init_spec start end_ n s Hr) as (s' & ? & ? & ? & ? & ? & ? & _ & ?).
  exists s'. split_and!; try done. apply meta_pages_le, Hr.
Qed.

Lemma buddy_init_correct_witness :
  ∃ s', buddy_init 0x80200000 0x80210000 empty_state = Ok s' ∧ wf s' ∧ total_pages s' = 16.
Proof.
  destruct (buddy_init_correct 0x80200000 0x80210000 16 empty_state small_range)
    as (s' & Hop & Hw & _ & _ & _ & Hn & _). exists s'. auto.
Defined.

(** Round trip: releasing the block just allocated restores the used/free
    state of every page and a well-formed, unlocked allocator. *)
Theorem alloc_free_roundtrip s order r s1 :
  wf s → lock s = false → buddy_alloc order s = Ok (r, s1) → r ≠ 0 →
  ∃ s2, buddy_free r order s1 = Ok s2 ∧ wf s2 ∧ lock s2 = false ∧
    ∀ p, 0 ≤ p → used (bitmap s2) p = used (bitmap s) p.
Proof.
  intros Hw Hlk Hop Hr. destruct (buddy_alloc_cases s order Hw Hlk) as (r' & s1' & Hop' & Hw1 & Hlk1 & Hc).
  rewrite Hop in Hop'. injection Hop' as <- <-. destruct Hc as [[? _]|(p & -> & _ & Hal)]; [done|].
  pose proof (alloc_new_live _ _ _ _ Hal) as Hl. pose proof Hal as (Hb & Hs & Hfr & _ & Hbits & _).
  destruct (buddy_free_live s1 p order order Hw1 Hlk1 Hl) as (s2 & Hop2 & Hw2 & Hlk2 & _ & _ & Hu & _); [apply Hb|].
  rewrite <-(same_geom_paddr s s1 p Hs). exists s2. split_and!; try done.
  intros x Hx. rewrite Hu by done. case_decide as Hin; [symmetry; by apply Hfr|by apply Hbits].
Qed.

Lemma alloc_free_roundtrip_witness :
  ∃ s2, buddy_free 0x80208000 2 small_held = Ok s2 ∧ wf s2 ∧
    ∀ p, 0 ≤ p → used (bitmap s2) p = used (bitmap small_state) p.
Proof.
  destruct small_wf as [Hw Hlk].
  destruct (alloc_free_roundtrip small_state 2 0x80208000 small_held Hw Hlk small_alloc)
    as (s2 & Hop & Hw2 & _ & Hu); [discriminate|]. exists s2. auto.
Defined.

(** The order of a request: for 1 to 1024 pages [get_order] is the least
    order whose block holds them (so [pmem_alloc_pages] wastes less than half
    a block); every larger request is refused, also those of up to 2048 pages,
    a block of the top order 11. *)
Theorem get_order_correct n :
  (1 ≤ n ≤ 1024 → ∃ o, get_order n = Ok o ∧ 0 ≤ o ≤ 10 ∧ n ≤ 2 ^ o ∧ (o = 0 ∨ 2 ^ (o - 1) < n)) ∧
  (1024 < n → get_order n = Ok (-1)).
Proof. split; [apply get_order_small|apply get_order_big]. Qed.

(** A double free: [buddy_free] on an address of a free block takes the
    allocator's lock and returns without releasing it, so that the next
    [buddy_alloc] in range panics. *)
Theorem buddy_double_free_keeps_lock s p ord order :
  wf s → lock s = false → free_page s p → 0 ≤ ord ≤ BUDDY_MAX_ORDER → 0 ≤ order ≤ BUDDY_MAX_ORDER →
  ∃ s', buddy_free (paddr s p) ord s = Ok s' ∧ lock s' = true ∧
    buddy_alloc order s' = Panic "double acquire".
Proof.
  intros Hw Hlk (Hp & Hu & [a o] & Hn & Ha) Hord Horder. pose proof (c_geom _ _ (proj1 Hw)) as Hg.
  exists (with_lock s true). split_and!; [|done|].
  2:{ unfold buddy_alloc. by rewrite (proj2 (Z.ltb_ge _ _)), (proj2 (Z.ltb_ge _ _)) by lia. }
  destruct (c_pages _ _ (proj1 Hw) p Hp) as (nd & Hn' & Hc); [by intros []|].
  rewrite Hn in Hn'. injection Hn' as <-.
  destruct Hc as [[_ ?]|[[[= -> _] _]|(q & o' & [= -> ->] & Hb & Hin & Hun & _)]]; [congruence|done|].
  pose proof (block_nonneg _ _ _ Hg Hb). destruct (Hb) as (Ho & _ & Ht & _).
  pose proof (pow2_pos o' ltac:(lia)). pose proof (paddr_bound s Hg p ltac:(lia)).
  assert (Hsmall : 2 ^ o' ≤ 2 ^ 11) by (apply Z.pow_le_mono_r; unfold BUDDY_MAX_ORDER in *; lia).
  unfold buddy_free, acquire.
  rewrite (proj2 (Z.eqb_neq _ 0)), (proj2 (Z.ltb_ge _ _)), (proj2 (Z.ltb_ge _ _)), Hlk by lia.
  cbn [orb bind]. change (page_index (with_lock s true)) with (page_index s).
  rewrite page_index_paddr by (done || lia). cbn [total_pages with_lock nodes bitmap].
  rewrite (proj2 (Z.leb_gt _ _)), Hn by lia. cbn [of_opt bind n_addr n_order].
  unfold shl. rewrite (proj2 (Z.leb_le _ _)), (proj2 (Z.ltb_lt _ _)) by (unfold BUDDY_MAX_ORDER in *; lia).
  cbn [andb bind]. rewrite shiftl_page, u64_small by (unfold PGSIZE in *; lia).
  rewrite page_index_paddr by (done || lia).
  replace (q + PGSIZE * 2 ^ o' / PGSIZE - q) with (2 ^ o') by (rewrite Z.mul_comm, Z.div_mul; [lia|done]).
  destruct (any_used_spec (bitmap s) (total_pages s) q (Z.to_nat (2 ^ o'))) as ([] & -> & Hbu);
    [lia|lia|apply (g_cover _ Hg)| |done].
  destruct (proj1 Hbu eq_refl) as (x & Hx & Hxu). destruct (Hun x) as [_ Hx']; [unfold in_block; lia|].
  congruence.
Qed.

Lemma buddy_double_free_witness :
  ∃ s', buddy_free 0x80208000 0 small_state = Ok s' ∧ buddy_alloc 0 s' = Panic "double acquire".
Proof.
  destruct small_wf as [Hw Hlk].
  destruct (buddy_double_free_keeps_lock small_state 8 0 0 Hw Hlk) as (s' & Hop & _ & Hal).
  - split; [vm_compute; split; congruence|]. split; [vm_compute; reflexivity|].
    eexists; split; [vm_compute; reflexivity|]. vm_compute. discriminate.
  - vm_compute. split; congruence.
  - vm_compute. split; congruence.
  - exists s'. auto.
Defined.

(** [kalloc] and [kfree], the interface the rest of the kernel uses: with
    [n+1] free pages [kalloc] does not panic, returns a page-aligned address
    no caller holds, and leaves [n] free pages and all other held pages held;
    [kfree] of a held page succeeds and only takes that page away. *)
Theorem kalloc_kfree_correct s n :
  wf s → lock s = false → avail s (S n) →
  (∃ a s', kalloc s = Ok (a, s') ∧ wf s' ∧ lock s' = false ∧ avail s' n ∧
     0 < a < 2 ^ 56 ∧ a mod PGSIZE = 0 ∧ ¬ pa_owned s a ∧
     (∀ b, pa_owned s' b ↔ b = a ∨ pa_owned s b)) ∧
  (∀ a, pa_owned s a → ∃ s', kfree a s = Ok s' ∧ wf s' ∧ lock s' = false ∧
     ∀ b, pa_owned s' b ↔ pa_owned s b ∧ b ≠ a).
Proof.
  intros Hw Hlk Hav. split.
  - destruct (@pa_alloc_ok buddy buddy_allocator _ s n (conj Hw Hlk) Hav) as (a & s' & Hop & [? ?] & ?).
    exists a, s'. split; [|tauto]. destruct (alloc_page_avail s n Hw Hlk Hav) as (p & s2 & Ha1 & Ha2 & _).
    change (pmem_alloc_pages 1 s = Ok (a, s')) in Hop. congruence.
  - intros a Ha. destruct (@pa_free_ok buddy buddy_allocator _ s a (conj Hw Hlk) Ha) as (s' & Hop & [? ?] & H1 & H2 & H3).
    exists s'. split_and!; try done. intros b. split.
    + intros Hb. split; [by apply H1|]. by intros ->.
    + intros [Hb Hne]. by destruct (H2 b Hb).
Qed.

Lemma kalloc_kfree_correct_witness :
  ∃ a s', kalloc small_state = Ok (a, s') ∧ wf s' ∧ avail s' 3.
Proof.
  destruct small_wf as [Hw Hlk].
  destruct (kalloc_kfree_correct small_state 3 Hw Hlk) as [(a & s' & Hop & Hw' & _ & Hav & _) _].
  - exact (pa_avail_le small_state 8 4 small_avail ltac:(lia)).
  - exists a, s'. auto.
Defined.

(** ** Recovery *)

(** Free pages according to the bitmap. *)
Definition free_count (s : buddy) : nat :=
  length (filter (λ p, used (bitmap s) p = false) (seqZ 0 (total_pages s))).

(** The emergency clean-up of a failed request throws free memory away: on
    an allocator of 16 pages from which one page has been taken, a request for
    8 pages fails although the clean-up ran, and after it [kalloc] panics while
    14 of the 16 pages are free (it rebuilds the free lists from blocks of the
    largest order that fits into the range only). *)
Theorem emergency_cleanup_loses_pages :
  ∃ s1 s2, kalloc small_state = Ok (0x80208000, s1) ∧
    pmem_alloc_pages 8 s1 = Ok (0, s2) ∧
    free_count s2 = 14%nat ∧ kalloc s2 = Panic "kmalloc failed".
Proof.
  set (m1 := kalloc small_state). set (m2 := pmem_alloc_pages 8 (state_of m1)).
  exists (state_of m1), (state_of m2). split_and!.
  - apply ptr_of_Ok; [vm_compute; reflexivity|discriminate].
  - apply ptr_of_Ok; [vm_compute; reflexivity|discriminate].
  - vm_compute. reflexivity.
  - vm_compute. reflexivity.
Qed.

End PmemSpec.
