(* ===== verification/Ring.v ===== *)
(** * Ring buffers with free-running counters

    [kernel/fs/pipe.c] and [kernel/fs/fifo.c] both keep a byte queue in an
    array, indexed by two [uint] counters modulo the size: [nwrite] and
    [nread] only ever grow and wrap around at 2^32.  [ring data size nread
    nwrite R q] says that the array holds the queue [q] after [R] bytes have
    been read in total.  The representation is sound while the size divides
    2^32 or the counters have not wrapped. *)

From S2P Require Import Prelude.

Module Ring.

(** The index of a wrapped counter is the index of its total [T]. *)
Definition no_alias (size T : Z) : Prop := (2 ^ 32) mod size = 0 ∨ T < 2 ^ 32.

Record ring (data : gmap Z Z) (size nread nwrite R : Z) (q : list Z) : Prop := {
  rg_R : 0 ≤ R;
  rg_size : 0 < size < 2 ^ 32;
  rg_len : Z.of_nat (length q) ≤ size;
  rg_alias : (2 ^ 32) mod size = 0 ∨ R + Z.of_nat (length q) ≤ 2 ^ 32;
  rg_read : nread = u32 R;
  rg_write : nwrite = u32 (R + Z.of_nat (length q));
  rg_data : ∀ i c, q !! i = Some c → data !! ((R + Z.of_nat i) mod size) = Some c
}.

Lemma u32_add a b : u32 (u32 a + b) = u32 (a + b).
Proof. unfold u32. by rewrite Zplus_mod_idemp_l. Qed.

Lemma u32_eq_small a b : u32 a = u32 b → - 2 ^ 32 < a - b < 2 ^ 32 → a = b.
Proof.
  unfold u32. intros H Hr. pose proof (Z.div_mod a (2 ^ 32)). pose proof (Z.div_mod b (2 ^ 32)). nia.
Qed.

Lemma u32_index size T : 0 < size → 0 ≤ T → no_alias size T → u32 T mod size = T mod size.
Proof.
  intros Hs HT [Hd|Hlt]; [|by rewrite u32_small by lia].
  apply Z.mod_divide in Hd as [k Hk]; [|lia]. unfold u32.
  pose proof (Z.div_mod T (2 ^ 32)) as E. rewrite E at 2 by lia.
  replace (2 ^ 32 * (T / 2 ^ 32) + T mod 2 ^ 32) with (T mod 2 ^ 32 + (k * (T / 2 ^ 32)) * size) by (rewrite Hk; ring).
  by rewrite Z.mod_add by lia.
Qed.

(** Two positions of the window have different indices. *)
Lemma window_index size a b : 0 < size → 0 < b - a < size → a mod size ≠ b mod size.
Proof.
  intros Hs Hd Heq. pose proof (Z.div_mod a size ltac:(lia)). pose proof (Z.div_mod b size ltac:(lia)).
  set (k := b / size - a / size).
  assert (Hk : b - a = size * k) by (unfold k; lia).
  assert (k < 1) by nia. assert (0 < k) by nia. lia.
Qed.

Section ring.
Context (data : gmap Z Z) (size nread nwrite R : Z).
Implicit Types (q : list Z) (c : Z).

Lemma ring_empty q :
  ring data size nread nwrite R q → (nread =? nwrite) = bool_decide (q = []).
Proof.
  intros [HR Hsz Hlen _ -> -> _]. case_bool_decide as E.
  - subst q. apply Z.eqb_eq. f_equal. cbn. lia.
  - apply Z.eqb_neq. intros Heq. apply E. apply u32_eq_small in Heq; [|lia].
    apply nil_length_inv. lia.
Qed.

Lemma ring_full q :
  ring data size nread nwrite R q →
  (nwrite =? u32 (nread + size)) = bool_decide (Z.of_nat (length q) = size).
Proof.
  intros [HR Hsz Hlen _ -> -> _]. rewrite u32_add. case_bool_decide as E.
  - apply Z.eqb_eq. f_equal. lia.
  - apply Z.eqb_neq. intros Heq. apply u32_eq_small in Heq; lia.
Qed.

Lemma ring_push q c :
  ring data size nread nwrite R q → Z.of_nat (length q) < size →
  no_alias size (R + Z.of_nat (length q)) →
  ring (<[nwrite mod size := c]> data) size nread (u32 (nwrite + 1)) R (q ++ [c]).
Proof.
  intros [HR Hsz Hlen Hal -> -> Hd] Hlt Hna.
  split; rewrite ?length_app; cbn [length]; try done; try lia.
  - unfold no_alias in Hna. destruct Hna; [by left|right; lia].
  - rewrite u32_add. f_equal. lia.
  - intros i x Hi. rewrite u32_index by (done || lia).
    destruct (decide (i < length q)%nat) as [Hin|Hin].
    + rewrite lookup_app_l in Hi by lia. rewrite lookup_insert_ne; [by apply Hd|].
      intros Heq. apply (window_index size (R + Z.of_nat i) (R + Z.of_nat (length q))); [lia|lia|done].
    + rewrite lookup_app_r in Hi by lia. apply list_lookup_singleton_Some in Hi as [Hi <-].
      replace i with (length q) by lia. by rewrite lookup_insert_eq.
Qed.

Lemma ring_pop q c :
  ring data size nread nwrite R (c :: q) →
  data !! (nread mod size) = Some c ∧ ring data size (u32 (nread + 1)) nwrite (R + 1) q.
Proof.
  intros [HR Hsz Hlen Hal -> -> Hd]. cbn [length] in *. split.
  - rewrite u32_index; [|lia|lia|].
    + rewrite <-(Hd O c eq_refl). f_equal. f_equal. lia.
    + destruct Hal; [by left|right; lia].
  - split; try done; try lia.
    + by rewrite u32_add.
    + f_equal. lia.
    + intros i x Hi. rewrite <-(Hd (S i) x Hi). f_equal. f_equal. lia.
Qed.

(** An index of the ring is inside the array. *)
Lemma ring_index q k : ring data size nread nwrite R q → 0 ≤ k mod size < size.
Proof. intros H. apply Z.mod_pos_bound. apply (rg_size _ _ _ _ _ _ H). Qed.
End ring.

(** A fresh buffer. *)
Lemma ring_new data size : 0 < size < 2 ^ 32 → ring data size 0 0 0 [].
Proof.
  intros Hs. split; cbn; try done; try lia.
Qed.

End Ring.
