(* ===== verification/PipeDefs.v ===== *)
(** * Pipes (kernel/fs/pipe.c), definitions

    A pipe is [struct pipe]: the data page (4096 bytes), the size of the ring,
    the two [uint] counters, the open flags and the lock.  A blocking call runs
    in segments: from the call, or from the wake-up, to the return or to the
    next [sleep_on_chan], which releases the lock ([Sleep i] records the local
    variable [i] the resumed call continues with).  The events of a segment are
    the wake-ups and signals it sends.  User memory is an argument: [src i] is
    the byte [copyin] reads at [addr + i] (none: the copy fails), [dst i] says
    whether [copyout] to [addr + i] succeeds; [killed i] is the value
    [killed(pr)] has at iteration [i]. *)

From S2P Require Import Prelude Pmem.
Import Pmem.

Module PipeDefs.

Definition PIPESIZE : Z := 512.
Definition EPIPE : Z := 32.
Definition EAGAIN : Z := 11.
(** The data buffer is one page of [kalloc]. *)
Definition BUFPAGE : Z := 4096.

Record pipe := mk_pipe {
  p_lock : bool;
  data : gmap Z Z;
  size : Z;
  nread : Z;
  nwrite : Z;
  readopen : Z;
  writeopen : Z
}.

Definition with_lock (pi : pipe) (l : bool) : pipe :=
  mk_pipe l (data pi) (size pi) (nread pi) (nwrite pi) (readopen pi) (writeopen pi).

Definition acquire (pi : pipe) : res pipe :=
  if p_lock pi then Panic "double acquire" else Ok (with_lock pi true).
Definition release (pi : pipe) : res pipe :=
  if p_lock pi then Ok (with_lock pi false) else Panic "release".

(** Wake-ups on [&pi->nread] and [&pi->nwrite], and [kill(pid, SIGPIPE)]. *)
Inductive event := WakeRead | WakeWrite | SigPipe.

(** How a segment ends. *)
Inductive outcome := Ret (r : Z) | Sleep (i : Z).

(** [pi->data[k] = c] and [pi->data[k]]; [cap] is the length of the array.
    Pages of [kalloc] are zeroed: a byte that was never written is 0.  The
    index read is below the size, which [put] keeps within the array. *)
Definition put (cap k c : Z) (d : gmap Z Z) : res (gmap Z Z) :=
  if (0 <=? k) && (k <? cap) then Ok (<[k := c]> d) else Undef.
Definition peek (k : Z) (d : gmap Z Z) : res Z := Ok (default 0 (d !! k)).

(** The initialisation of the pipe in [pipealloc]; the pages of [kalloc] are
    zeroed. *)
Definition zero_page : gmap Z Z := ∅.
Definition new_pipe : pipe := mk_pipe false zero_page PIPESIZE 0 0 1 1.

(** ** pipewrite *)

Section write.
Context (cap : Z) (src : Z → option Z) (killed : Z → bool) (nonblock : bool) (n : Z).

(** [while (i < n)]: the lock is held. *)
Fixpoint pipewrite_loop (fuel : nat) (i : Z) (pi : pipe) : res (outcome * pipe * list event) :=
  match fuel with
  | O => NoFuel
  | S fuel =>
      if i <? n then
        if (readopen pi =? 0) || killed i then
          let* pi := release pi in
          Ok (Ret (- EPIPE), pi, [SigPipe])
        else if nwrite pi =? u32 (nread pi + size pi) then
          if nonblock then
            let* pi := release pi in
            if i =? 0 then Ok (Ret (- EAGAIN), pi, []) else Ok (Ret i, pi, [])
          else
            let* pi := release pi in
            Ok (Sleep i, pi, [WakeRead])
        else
          match src i with
          | None => let* pi := release pi in Ok (Ret i, pi, [WakeRead])
          | Some ch =>
              let* d := put cap (nwrite pi mod size pi) ch (data pi) in
              let pi := mk_pipe (p_lock pi) d (size pi) (nread pi) (u32 (nwrite pi + 1))
                          (readopen pi) (writeopen pi) in
              pipewrite_loop fuel (i + 1) pi
          end
      else let* pi := release pi in Ok (Ret i, pi, [WakeRead])
  end.

(** The segment that starts (or continues after a sleep) at byte [i]. *)
Definition pipewrite_from (i : Z) (pi : pipe) : res (outcome * pipe * list event) :=
  let* pi := acquire pi in
  pipewrite_loop (Z.to_nat (n - i) + 1) i pi.
End write.

Definition pipewrite src killed nonblock n (pi : pipe) : res (outcome * pipe * list event) :=
  pipewrite_from BUFPAGE src killed nonblock n 0 pi.

(** ** piperead *)

Section read.
Context (dst : Z → bool) (killed : bool) (nonblock : bool) (n : Z).

(** [for (i = 0; i < n; i++)]: the bytes copied out, in order. *)
Fixpoint piperead_copy (fuel : nat) (i : Z) (pi : pipe) : res (Z * pipe * list Z) :=
  match fuel with
  | O => NoFuel
  | S fuel =>
      if i <? n then
        if nread pi =? nwrite pi then Ok (i, pi, [])
        else
          let* ch := peek (nread pi mod size pi) (data pi) in
          let pi := mk_pipe (p_lock pi) (data pi) (size pi) (u32 (nread pi + 1)) (nwrite pi)
                      (readopen pi) (writeopen pi) in
          if dst i then
            let* (i', pi', out) := piperead_copy fuel (i + 1) pi in
            Ok (i', pi', ch :: out)
          else Ok (i, pi, [])
      else Ok (i, pi, [])
  end.

(** The part of [piperead] from the wait loop on, lock held. *)
Definition piperead_rest (pi : pipe) : res (outcome * pipe * list Z * list event) :=
  if (nread pi =? nwrite pi) && truthy (writeopen pi) then
    if killed then let* pi := release pi in Ok (Ret (-1), pi, [], [])
    else if nonblock then let* pi := release pi in Ok (Ret (- EAGAIN), pi, [], [])
    else let* pi := release pi in Ok (Sleep 0, pi, [], [])
  else if (nread pi =? nwrite pi) && negb (truthy (writeopen pi)) then
    let* pi := release pi in Ok (Ret 0, pi, [], [])
  else
    let* (i, pi, out) := piperead_copy (Z.to_nat n + 1) 0 pi in
    let* pi := release pi in
    Ok (Ret i, pi, out, [WakeWrite]).

Definition piperead (pi : pipe) : res (outcome * pipe * list Z * list event) :=
  let* pi := acquire pi in
  if (nread pi =? nwrite pi) && negb (truthy (writeopen pi)) then
    let* pi := release pi in Ok (Ret 0, pi, [], [])
  else piperead_rest pi.

(** After a sleep the call goes on in the wait loop. *)
Definition piperead_resume (pi : pipe) : res (outcome * pipe * list Z * list event) :=
  let* pi := acquire pi in
  piperead_rest pi.
End read.

(** ** pipeset_size, pipeget_size, pipeclose *)

(** [memset(new_data, 0, size)] on a fresh page: writing behind the page is
    out of bounds. *)
Definition memset_page (sz : Z) (d : gmap Z Z) : res (gmap Z Z) := for_range 0 sz (λ i, put BUFPAGE i 0) d.

(** The [kalloc] of the new page cannot return NULL; its address is not used
    by the model, nor is that of the page that is freed. *)
Definition pipeset_size (sz : Z) (pi : pipe) : res (Z * pipe) :=
  if sz =? 0 then Ok (-1, pi)
  else
    let* pi := acquire pi in
    if size pi =? sz then let* pi := release pi in Ok (0, pi)
    else
      let* new_data := memset_page sz zero_page in
      let* (data_size, rd, new_data) :=
        (if nread pi <? nwrite pi then
           let data_size := u32 (nwrite pi - nread pi) in
           let '(data_size, rd) :=
             if sz <? data_size then (sz, u32 (nwrite pi - sz)) else (data_size, nread pi) in
           let* nd := for_range 0 data_size (λ i d,
             let* c := peek (u32 (rd + i) mod size pi) (data pi) in put BUFPAGE i c d) new_data in
           Ok (data_size, rd, nd)
         else Ok (0, nread pi, new_data)) in
      let pi := mk_pipe (p_lock pi) new_data sz 0 data_size (readopen pi) (writeopen pi) in
      let* pi := release pi in
      Ok (0, pi).

Definition pipeget_size (pi : pipe) : res (Z * pipe) :=
  let* pi := acquire pi in
  let sz := size pi in
  let* pi := release pi in
  Ok (sz, pi).

Section close.
Context {St : Type} `{PageAllocator St}.

(** [pi_addr] and [data_addr] are the pages of the structure and its
    buffer; after the last close the pipe is gone. *)
Definition pipeclose (pi_addr data_addr : Z) (writable : bool) (pi : pipe) (s : St)
    : res (option pipe * St * list event) :=
  let* pi := acquire pi in
  let '(pi, ev) :=
    if writable
    then (mk_pipe (p_lock pi) (data pi) (size pi) (nread pi) (nwrite pi) (readopen pi) 0, [WakeRead])
    else (mk_pipe (p_lock pi) (data pi) (size pi) (nread pi) (nwrite pi) 0 (writeopen pi), [WakeWrite]) in
  let* pi := release pi in
  if (readopen pi =? 0) && (writeopen pi =? 0) then
    let* s := pa_free data_addr s in
    let* s := pa_free pi_addr s in
    Ok (None, s, ev)
  else Ok (Some pi, s, ev).
End close.

End PipeDefs.
