(* ===== verification/Pipe.v ===== *)
(** * Pipes: behaviour of each segment and integrity of the byte stream *)

From S2P Require Import Prelude Ring Pmem PipeDefs.
Import Ring Pmem PipeDefs.

Module Pipe.

(** The length of the data array. *)
Section capacity.
Context (cap : Z).

(** The pipe holds the bytes [q] after [R] bytes have been read. *)
Definition holds (pi : pipe) (R : Z) (q : list Z) : Prop :=
  ring (data pi) (size pi) (nread pi) (nwrite pi) R q ∧ size pi ≤ cap.

(** The pipe can be filled without the counters aliasing. *)
Definition room (pi : pipe) (R : Z) : Prop :=
  (2 ^ 32) mod size pi = 0 ∨ R + size pi ≤ 2 ^ 32.

Lemma put_ok pi R q k c : holds pi R q → put cap (k mod size pi) c (data pi) = Ok (<[k mod size pi := c]> (data pi)).
Proof.
  intros [Hr Hs]. unfold put. pose proof (ring_index _ _ _ _ _ _ k Hr).
  rewrite (proj2 (Z.leb_le _ _)), (proj2 (Z.ltb_lt _ _)) by lia. done.
Qed.

Lemma acquire_ok pi : p_lock pi = false → acquire pi = Ok (with_lock pi true).
Proof. intros H. unfold acquire. by rewrite H. Qed.
Lemma release_ok pi : p_lock pi = true → release pi = Ok (with_lock pi false).
Proof. intros H. unfold release. by rewrite H. Qed.

(** ** Writing *)

Section write.
Context (src : Z → option Z) (killed : Z → bool) (nonblock : bool) (n : Z).

(** How a write segment can end when the next byte is [j]. *)
Inductive write_end (ro : Z) (full : bool) (j : Z) : outcome → list event → Prop :=
| we_done : n ≤ j → write_end ro full j (Ret j) [WakeRead]
| we_fault : j < n → full = false → src j = None → write_end ro full j (Ret j) [WakeRead]
| we_epipe : j < n → ro = 0 ∨ killed j = true → write_end ro full j (Ret (- EPIPE)) [SigPipe]
| we_again : j < n → full = true → nonblock = true →
    write_end ro full j (Ret (if j =? 0 then - EAGAIN else j)) []
| we_sleep : j < n → full = true → nonblock = false →
    write_end ro full j (Sleep j) [WakeRead].

(** [bs] are the bytes at [i], [i+1], ... of user memory. *)
Definition bytes_at (i : Z) (bs : list Z) : Prop :=
  ∀ k c, bs !! k = Some c → src (i + Z.of_nat k) = Some c.

(** The segment appended [bs]. *)
Record wrote (pi pi' : pipe) (R : Z) (q bs : list Z) (i : Z) (o : outcome) (ev : list event) : Prop := {
  w_holds : holds pi' R (q ++ bs);
  w_bytes : bytes_at i bs;
  w_lock : p_lock pi' = false;
  w_size : size pi' = size pi;
  w_nread : nread pi' = nread pi;
  w_ro : readopen pi' = readopen pi;
  w_wo : writeopen pi' = writeopen pi;
  w_end : write_end (readopen pi) (bool_decide (Z.of_nat (length (q ++ bs)) = size pi))
            (i + Z.of_nat (length bs)) o ev
}.

(** The loop ends without another byte. *)
Lemma wrote_stop pi R q i o ev :
  holds pi R q → write_end (readopen pi) (bool_decide (Z.of_nat (length q) = size pi)) i o ev →
  wrote pi (with_lock pi false) R q [] i o ev.
Proof.
  intros Hh He. split; try done; rewrite ?app_nil_r; try done.
  cbn [length]. by rewrite Z.add_0_r.
Qed.

Lemma pipewrite_loop_spec fuel i pi R q :
  holds pi R q → p_lock pi = true → 0 ≤ i → (Z.to_nat (n - i) < fuel)%nat → room pi R →
  ∃ o pi' ev bs, pipewrite_loop cap src killed nonblock n fuel i pi = Ok (o, pi', ev) ∧ wrote pi pi' R q bs i o ev.
Proof.
  revert i pi q; induction fuel as [|fuel IH]; intros i pi q Hh Hlk Hi Hf Hroom; [lia|].
  cbn [pipewrite_loop]. rewrite (release_ok pi Hlk). cbn [bind]. destruct (Z.ltb_spec i n) as [Hin|Hin].
  2:{ eexists _, _, _, []. split; [done|]. apply wrote_stop; [done|]. by constructor. }
  destruct (orb _ _) eqn:Ero.
  { eexists _, _, _, []. split; [done|]. apply wrote_stop; [done|]. constructor; [done|].
    apply orb_true_iff in Ero as [E%Z.eqb_eq|E]; tauto. }
  rewrite (ring_full _ _ _ _ R q (proj1 Hh)). destruct (bool_decide (Z.of_nat (length q) = size pi)) eqn:Efull.
  { destruct nonblock eqn:Enb.
    - pose proof (we_again (readopen pi) true i Hin eq_refl Enb) as He.
      exists (Ret (if i =? 0 then - EAGAIN else i)), (with_lock pi false), [], []. split; [by destruct (i =? 0)|].
      apply wrote_stop; [done|]. by rewrite Efull.
    - eexists _, _, _, []. split; [done|]. apply wrote_stop; [done|]. rewrite Efull. by constructor. }
  destruct (src i) as [ch|] eqn:Esrc.
  2:{ eexists _, _, _, []. split; [done|]. apply wrote_stop; [done|]. rewrite Efull. by constructor. }
  rewrite (put_ok pi R q) by done. cbn [bind].
  apply bool_decide_eq_false in Efull. pose proof (rg_len _ _ _ _ _ _ (proj1 Hh)).
  set (pi1 := mk_pipe _ _ _ _ _ _ _).
  assert (Hh1 : holds pi1 R (q ++ [ch])).
  { split; [|apply Hh]. unfold pi1. cbn [data size nread nwrite]. apply ring_push; [apply Hh|lia|]. destruct Hroom; [by left|right; lia]. }
  destruct (IH (i + 1) pi1 (q ++ [ch])) as (o & pi' & ev & bs & Hop & [W1 W2 W3 W4 W5 W6 W7 W8]);
    [done|done|lia|lia|done|].
  exists o, pi', ev, (ch :: bs). split; [done|]. rewrite <-(assoc_L (++)) in W1, W8. split; try done.
  - intros [|k] c Hk; [injection Hk as <-; by rewrite Z.add_0_r|].
    rewrite <-(W2 k c Hk). f_equal. lia.
  - cbn [length]. by replace (i + Z.of_nat (S (length bs))) with (i + 1 + Z.of_nat (length bs)) by lia.
Qed.

Lemma pipewrite_from_spec i pi R q :
  holds pi R q → p_lock pi = false → 0 ≤ i → room pi R →
  ∃ o pi' ev bs, pipewrite_from cap src killed nonblock n i pi = Ok (o, pi', ev) ∧ wrote pi pi' R q bs i o ev.
Proof.
  intros Hh Hlk Hi Hroom. unfold pipewrite_from. rewrite acquire_ok by done. cbn [bind].
  destruct (pipewrite_loop_spec (Z.to_nat (n - i) + 1) i (with_lock pi true) R q)
    as (o & pi' & ev & bs & Hop & [W1 W2 W3 W4 W5 W6 W7 W8]); try done; [lia|].
  exists o, pi', ev, bs. by split.
Qed.
End write.

(** ** Reading *)

Section read.
Context (dst : Z → bool) (n : Z).

(** The copy loop delivers a prefix [out] of the queue; when [copyout] fails
    at a byte, that byte [lost] is consumed and not counted. *)
Record copied (pi pi' : pipe) (R : Z) (q out lost : list Z) (i : Z) : Prop := {
  cp_split : ∃ rest, q = out ++ lost ++ rest ∧ holds pi' (R + Z.of_nat (length (out ++ lost))) rest ∧
    (lost = [] → Z.of_nat (length out) < n - i → rest = []);
  cp_lost : (lost = [] ∨ (length lost = 1%nat ∧ dst (i + Z.of_nat (length out)) = false));
  cp_ok : ∀ k, i ≤ k < i + Z.of_nat (length out) → dst k = true;
  cp_lock : p_lock pi' = p_lock pi;
  cp_size : size pi' = size pi;
  cp_data : data pi' = data pi ∧ nwrite pi' = nwrite pi;
  cp_ro : readopen pi' = readopen pi;
  cp_wo : writeopen pi' = writeopen pi
}.

Lemma copied_stop pi R q i :
  holds pi R q → n ≤ i ∨ q = [] → copied pi pi R q [] [] i.
Proof.
  intros Hh Hs. split; try done; [|by left|intros; cbn in *; lia].
  exists q. cbn. rewrite Z.add_0_r. split_and!; try done. intros _ Hlt. destruct Hs; [lia|done].
Qed.

Lemma piperead_copy_spec fuel i pi R q :
  holds pi R q → (Z.to_nat (n - i) < fuel)%nat →
  ∃ pi' out lost, piperead_copy dst n fuel i pi = Ok (i + Z.of_nat (length out), pi', out) ∧
    copied pi pi' R q out lost i.
Proof.
  revert i pi R q; induction fuel as [|fuel IH]; intros i pi R q Hh Hf; [lia|]. cbn [piperead_copy].
  destruct (Z.ltb_spec i n) as [Hin|Hin].
  2:{ exists pi, [], []. cbn. rewrite Z.add_0_r. split; [done|]. apply copied_stop; auto. }
  rewrite (ring_empty _ _ _ _ R q (proj1 Hh)). case_bool_decide as Eq.
  { exists pi, [], []. cbn. rewrite Z.add_0_r. split; [done|]. apply copied_stop; auto. }
  destruct q as [|ch q]; [done|]. destruct Hh as [Hring Hsz].
  destruct (ring_pop _ _ _ _ R q ch Hring) as [Hpeek Hring'].
  unfold peek. rewrite Hpeek. cbn [default bind]. set (pi1 := mk_pipe _ _ _ _ _ _ _).
  assert (Hh1 : holds pi1 (R + 1) q) by by split.
  destruct (dst i) eqn:Ed.
  - destruct (IH (i + 1) pi1 (R + 1) q Hh1) as (pi' & out & lost & -> & [C1 C2 C3 C4 C5 C6 C7 C8]); [lia|].
    exists pi', (ch :: out), lost. cbn [bind length]. split.
    { by replace (i + Z.of_nat (S (length out))) with (i + 1 + Z.of_nat (length out)) by lia. }
    destruct C1 as (rest & -> & Hrest & Hend). split; try done.
    + exists rest. split_and!; [done| |intros; apply Hend; [done|cbn [length] in *; lia]].
      replace (R + Z.of_nat (length ((ch :: out) ++ lost))) with (R + 1 + Z.of_nat (length (out ++ lost)))
        by (rewrite !length_app; cbn [length]; lia). done.
    + destruct C2 as [?|[? ?]]; [by left|right; split; [done|]].
      by replace (i + Z.of_nat (length (ch :: out))) with (i + 1 + Z.of_nat (length out)) by (cbn [length]; lia).
    + intros k Hk. cbn [length] in Hk. destruct (decide (k = i)) as [->|]; [done|]. apply C3. lia.
  - exists pi1, [], [ch]. cbn. rewrite Z.add_0_r. split; [done|]. split; try done.
    + exists q. split_and!; done.
    + right. cbn. by rewrite Z.add_0_r.
    + intros k Hk. cbn in Hk. lia.
Qed.
End read.

(** What a read segment does, from the call or after a wake-up. *)
Definition read_done (dst : Z → bool) (killed nonblock : bool) (n : Z) (pi pi' : pipe) (R : Z) (q : list Z)
    (o : outcome) (out : list Z) (ev : list event) : Prop :=
  p_lock pi' = false ∧
  (q ≠ [] → o = Ret (Z.of_nat (length out)) ∧ ev = [WakeWrite] ∧
     ∃ lost, copied dst n (with_lock pi false) pi' R q out lost 0) ∧
  (q = [] → pi' = with_lock pi false ∧ out = [] ∧ ev = [] ∧
     o = if writeopen pi =? 0 then Ret 0 else if killed then Ret (-1)
         else if nonblock then Ret (- EAGAIN) else Sleep 0).

Lemma piperead_rest_spec dst killed nonblock n pi R q :
  holds pi R q → p_lock pi = true →
  ∃ o pi' out ev, piperead_rest dst killed nonblock n pi = Ok (o, pi', out, ev) ∧
    read_done dst killed nonblock n pi pi' R q o out ev.
Proof.
  intros Hh Hlk. unfold piperead_rest. rewrite (ring_empty _ _ _ _ R q (proj1 Hh)), release_ok by done.
  unfold truthy, read_done. case_bool_decide as Eq; cbn [andb bind].
  - destruct (writeopen pi =? 0); cbn [negb]; [|destruct killed; [|destruct nonblock]];
      (eexists _, _, _, _; split; [done|]; split_and!; done).
  - destruct (piperead_copy_spec dst n (Z.to_nat n + 1) 0 pi R q Hh) as (pi' & out & lost & -> & Hc); [lia|].
    cbn [bind]. destruct Hc as [C1 C2 C3 C4 C5 C6 C7 C8]. rewrite release_ok by congruence. cbn [bind].
    eexists _, _, _, _. split; [done|]. split; [done|]. split; [|done]. intros _. split_and!; try done.
    exists lost. by split.
Qed.

Lemma piperead_spec dst killed nonblock n pi R q :
  holds pi R q → p_lock pi = false →
  ∃ o pi' out ev, piperead dst killed nonblock n pi = Ok (o, pi', out, ev) ∧
    piperead_resume dst killed nonblock n pi = Ok (o, pi', out, ev) ∧
    read_done dst killed nonblock n pi pi' R q o out ev.
Proof.
  intros Hh Hlk. unfold piperead, piperead_resume. rewrite acquire_ok by done. cbn [bind].
  destruct (piperead_rest_spec dst killed nonblock n (with_lock pi true) R q)
    as (o & pi' & out & ev & Hop & Hd); [done|done|].
  exists o, pi', out, ev. split_and!; [|done|exact Hd].
  destruct (andb _ _) eqn:E; [|done]. rewrite <-Hop. unfold piperead_rest. rewrite E.
  apply andb_true_iff in E as [-> ->%negb_true_iff]. done.
Qed.

(** ** The byte stream *)

(** A pipe with the bytes sent to it and delivered from it so far. *)
Definition traffic : Type := pipe * list Z * list Z.

(** The bytes a write segment that started at [i] took from user memory. *)
Definition sent (src : Z → option Z) (i : Z) (pi pi' : pipe) : list Z :=
  omap src (seqZ i (u32 (nwrite pi' - nwrite pi))).

(** Any thread can run a write or a read segment, new or resumed, or close
    an end; user memory is readable and writable, or a write meets a fault. *)
Inductive use : traffic → traffic → Prop :=
| use_write src killed nonblock n i pi w r o pi' ev :
    0 ≤ i → pipewrite_from cap src killed nonblock n i pi = Ok (o, pi', ev) →
    use (pi, w, r) (pi', w ++ sent src i pi pi', r)
| use_read killed nonblock n pi w r o pi' out ev :
    piperead (λ _, true) killed nonblock n pi = Ok (o, pi', out, ev) →
    use (pi, w, r) (pi', w, r ++ out)
| use_close pi w r ro wo :
    use (pi, w, r) (mk_pipe (p_lock pi) (data pi) (size pi) (nread pi) (nwrite pi) ro wo, w, r).

Lemma omap_bytes_at src i bs :
  bytes_at src i bs → omap src (seqZ i (Z.of_nat (length bs))) = bs.
Proof.
  revert i; induction bs as [|c bs IH]; intros i Hb; [done|].
  cbn [length]. rewrite seqZ_cons by lia. cbn. pose proof (Hb O c eq_refl) as E.
  replace (i + Z.of_nat 0) with i in E by lia. rewrite E.
  replace (Z.pred (Z.of_nat (S (length bs)))) with (Z.of_nat (length bs)) by lia. rewrite IH; [done|].
  intros k x Hk. rewrite <-(Hb (S k) x Hk). f_equal. lia.
Qed.

Lemma wrote_sent src killed nonblock n pi pi' R q bs i o ev :
  holds pi R q → wrote src killed nonblock n pi pi' R q bs i o ev → sent src i pi pi' = bs.
Proof.
  intros [H _] [[H' _] Hb _ Hs _ _ _ _]. unfold sent. rewrite (rg_write _ _ _ _ _ _ H), (rg_write _ _ _ _ _ _ H').
  pose proof (rg_len _ _ _ _ _ _ H'). pose proof (rg_size _ _ _ _ _ _ H'). rewrite length_app in *.
  rewrite <-(omap_bytes_at src i bs) at 2 by done. f_equal. f_equal. unfold u32. rewrite <-Zminus_mod.
  rewrite Z.mod_small; lia.
Qed.

(** The stream invariant. *)
Definition stream (t : traffic) : Prop :=
  let '(pi, w, r) := t in
  p_lock pi = false ∧ ∃ q, holds pi (Z.of_nat (length r)) q ∧ w = r ++ q.

Definition reads (t : traffic) : Z := Z.of_nat (length t.2).
Definition chan_of (t : traffic) : pipe := t.1.1.

Lemma stream_use t t' :
  use t t' → room (chan_of t) (reads t) → stream t →
  stream t' ∧ size (chan_of t') = size (chan_of t) ∧ reads t ≤ reads t'.
Proof.
  intros Huse. destruct Huse as [src killed nonblock n i pi w r o pi' ev Hi Hop
                                |killed nonblock n pi w r o pi' out ev Hop|]; cbn; intros Hroom.
  - intros (Hlk & q & Hh & ->).
    destruct (pipewrite_from_spec src killed nonblock n i pi _ q Hh) as (o' & pi'' & ev' & bs & Hop' & Hw);
      [done|done|done|]. rewrite Hop in Hop'. injection Hop' as <- <- <-.
    pose proof (wrote_sent _ _ _ _ _ _ _ _ _ _ _ _ Hh Hw) as ->.
    destruct Hw as [W1 W2 W3 W4 W5 W6 W7 W8]. split_and!; [done| |done|done].
    exists (q ++ bs). split; [done|]. by rewrite (assoc_L (++)).
  - intros (Hlk & q & Hh & ->).
    destruct (piperead_spec (λ _, true) killed nonblock n pi _ q Hh Hlk) as (o' & pi'' & out' & ev' & Hop' & _ & Hd).
    rewrite Hop in Hop'. injection Hop' as <- <- <- <-. destruct Hd as (Hlk' & Hne & He).
    unfold reads. cbn [snd]. rewrite length_app. destruct (decide (q = [])) as [->|Hq].
    + destruct (He eq_refl) as (-> & -> & _). split_and!; [done| |done|cbn; lia]. exists [].
      rewrite !app_nil_r, Nat.add_0_r. split; [exact Hh|done].
    + destruct (Hne Hq) as (_ & _ & lost & [(rest & -> & Hrest & _) Hlost _ _ Hsz _ _ _]).
      destruct Hlost as [->|[_ ?]]; [|done]. split_and!; [done| |done|lia].
      rewrite app_nil_r in Hrest. exists rest. rewrite Nat2Z.inj_add. split; [exact Hrest|].
      by rewrite (assoc_L (++)).
  - intros (Hlk & q & Hh & Hw). split_and!; try done. by exists q.
Qed.

(** The invariant along a run, while the total read leaves room. *)
Lemma stream_reach t t' :
  rtc use t t' → stream t → room (chan_of t) (reads t') →
  stream t' ∧ size (chan_of t') = size (chan_of t) ∧ reads t ≤ reads t'.
Proof.
  intros Hrun. induction Hrun as [t|t1 t2 t3 Huse Hrun IH]; intros Hs Hroom; [by split_and!|].
  assert (Hmono : reads t1 ≤ reads t3).
  { clear -Huse Hrun. assert (Hstep : ∀ a b, use a b → reads a ≤ reads b).
    { intros a b []; unfold reads; cbn; rewrite ?length_app; lia. }
    apply Hstep in Huse. clear -Huse Hrun Hstep. revert Huse. induction Hrun; [done|].
    intros. apply IHHrun. apply Hstep in H. lia. }
  destruct (stream_use t1 t2 Huse) as (Hs2 & Hsz & Hle); [|done|].
  { unfold room in *. destruct Hroom; [by left|right; lia]. }
  destruct IH as (Hs3 & Hsz' & Hle'); [done|unfold room in *; by rewrite Hsz|]. split_and!; [done|congruence|lia].
Qed.

End capacity.

Lemma new_pipe_holds : holds BUFPAGE new_pipe 0 [].
Proof. split; [|done]. apply ring_new. done. Qed.

End Pipe.
