(* ===== verification/PipeSpec.v ===== *)
(** * What pipes guarantee

    The theorems on kernel/fs/pipe.c: the byte stream over every interleaving,
    the result of each write and read segment, resizing, and two defects. *)

From S2P Require Import Prelude Ring Pmem PipeDefs Pipe.
Import Ring Pmem PipeDefs Pipe.

Module PipeSpec.

(** C24. Integrity of the byte stream: from a new pipe, after any interleaving
    of read and write segments of any number of threads (blocking or not, with
    any sizes, also with write faults and closes), what readers have received
    followed by what the pipe still holds is exactly what writers have sent, in
    order; the pipe holds at most its size, and the lock is free.  The counters
    may wrap around. *)
Theorem pipe_stream_integrity pi w r :
  rtc (use BUFPAGE) (new_pipe, [], []) (pi, w, r) →
  p_lock pi = false ∧
  ∃ R q, holds BUFPAGE pi R q ∧ w = r ++ q ∧ Z.of_nat (length q) ≤ size pi.
Proof.
  intros Hrun. destruct (stream_reach BUFPAGE _ _ Hrun) as ((Hlk & q & Hh & Hw) & _).
  { split; [done|]. exists []. split; [apply new_pipe_holds|done]. }
  { by left. }
  split; [done|]. eexists _, q. split_and!; try done. apply (rg_len _ _ _ _ _ _ (proj1 Hh)).
Qed.

(** The memory with byte [k mod 256] at offset [k]. *)
Definition ramp (k : Z) : option Z := Some (k mod 256).

Lemma pipe_stream_witness :
  ∃ pi1 pi2, rtc (use BUFPAGE) (new_pipe, [], []) (pi2, [0; 1; 2], [0; 1]) ∧
    pipewrite ramp (λ _, false) false 3 new_pipe = Ok (Ret 3, pi1, [WakeRead]) ∧
    ∃ R q, holds BUFPAGE pi2 R q ∧ [0; 1; 2] = [0; 1] ++ q.
Proof.
  set (pi1 := mk_pipe false (<[2 := 2]> (<[1 := 1]> (<[0 := 0]> zero_page))) 512 0 3 1 1).
  set (pi2 := mk_pipe false (data pi1) 512 2 3 1 1).
  assert (Hrun : rtc (use BUFPAGE) (new_pipe, [], []) (pi2, [0; 1; 2], [0; 1])).
  { eapply rtc_l; [|apply rtc_once].
    - apply (use_write BUFPAGE ramp (λ _, false) false 3 0 new_pipe [] [] (Ret 3) pi1 [WakeRead]); [lia|vm_compute; reflexivity].
    - apply (use_read BUFPAGE false false 2 pi1 [0; 1; 2] [] (Ret 2) pi2 [0; 1] [WakeWrite]). vm_compute. reflexivity. }
  exists pi1, pi2. split; [exact Hrun|]. split; [vm_compute; reflexivity|].
  destruct (pipe_stream_integrity pi2 [0; 1; 2] [0; 1] Hrun) as (_ & R & q & Hh & Hw & _). eauto.
Defined.

(** A write segment (a call, or a call resumed at byte [i] after a sleep)
    always terminates with the lock released, appends to the queue exactly the
    bytes [src i .. src (j-1)] of user memory for some [j], never beyond the
    size, and ends in one of five ways: all [n] bytes written, a fault at [j],
    -EPIPE (with SIGPIPE) when no reader is left or the process is killed,
    -EAGAIN or a short count for a non-blocking write into a full pipe, or
    asleep on a full pipe, having woken the readers. *)
Theorem pipewrite_correct src killed nonblock n i pi R q :
  holds BUFPAGE pi R q → p_lock pi = false → 0 ≤ i → (2 ^ 32) mod size pi = 0 →
  ∃ o pi' ev bs, pipewrite_from BUFPAGE src killed nonblock n i pi = Ok (o, pi', ev) ∧
    holds BUFPAGE pi' R (q ++ bs) ∧ bytes_at src i bs ∧ p_lock pi' = false ∧
    Z.of_nat (length (q ++ bs)) ≤ size pi ∧
    write_end src killed nonblock n (readopen pi)
      (bool_decide (Z.of_nat (length (q ++ bs)) = size pi)) (i + Z.of_nat (length bs)) o ev.
Proof.
  intros Hh Hlk Hi Hal.
  destruct (pipewrite_from_spec BUFPAGE src killed nonblock n i pi R q) as (o & pi' & ev & bs & Hop & [W1 W2 W3 W4 W5 W6 W7 W8]);
    [done|done|done|by left|].
  exists o, pi', ev, bs. split_and!; try done. rewrite <-W4. apply (rg_len _ _ _ _ _ _ (proj1 W1)).
Qed.

Lemma pipewrite_correct_witness :
  ∃ o pi' ev bs, pipewrite_from BUFPAGE ramp (λ _, false) false 600 0 new_pipe = Ok (o, pi', ev) ∧
    holds BUFPAGE pi' 0 ([] ++ bs).
Proof.
  destruct (pipewrite_correct ramp (λ _, false) false 600 0 new_pipe 0 [])
    as (o & pi' & ev & bs & Hop & Hh & _).
  - apply new_pipe_holds.
  - reflexivity.
  - lia.
  - reflexivity.
  - exists o, pi', ev, bs. auto.
Defined.

(** A read segment always terminates with the lock released.  On an empty
    pipe it changes nothing and returns 0 (end of file) when no writer is left,
    -1 when killed, -EAGAIN for a non-blocking descriptor, and sleeps
    otherwise; it never sleeps while data is there.  On a non-empty pipe it
    returns the number of bytes delivered, which are a prefix of the queue
    (all of it unless [n] or a fault is reached), wakes the writers, and a
    failing [copyout] loses exactly the byte it failed on.  A call resumed
    after a sleep behaves like a fresh one. *)
Theorem piperead_correct dst killed nonblock n pi R q :
  holds BUFPAGE pi R q → p_lock pi = false →
  ∃ o pi' out ev, piperead dst killed nonblock n pi = Ok (o, pi', out, ev) ∧
    piperead_resume dst killed nonblock n pi = piperead dst killed nonblock n pi ∧
    p_lock pi' = false ∧
    (q = [] → pi' = pi ∧ out = [] ∧ ev = [] ∧
       o = if writeopen pi =? 0 then Ret 0 else if killed then Ret (-1)
           else if nonblock then Ret (- EAGAIN) else Sleep 0) ∧
    (q ≠ [] → o = Ret (Z.of_nat (length out)) ∧ ev = [WakeWrite] ∧
       ∃ lost rest, q = out ++ lost ++ rest ∧
         holds BUFPAGE pi' (R + Z.of_nat (length (out ++ lost))) rest ∧
         (lost = [] ∨ (length lost = 1%nat ∧ dst (Z.of_nat (length out)) = false)) ∧
         (lost = [] → Z.of_nat (length out) < n → rest = [])).
Proof.
  intros Hh Hlk. destruct (piperead_spec BUFPAGE dst killed nonblock n pi R q Hh Hlk) as (o & pi' & out & ev & H1 & H2 & Hd).
  exists o, pi', out, ev. destruct Hd as (Hl & Hne & He). split_and!; [done|congruence|done| |].
  - intros Hq. destruct (He Hq) as (-> & -> & -> & ->). split_and!; try done. destruct pi; cbn in *. by rewrite Hlk.
  - intros Hq. destruct (Hne Hq) as (-> & -> & lost & [(rest & E & Hrest & Hend) Hlost _ _ _ _ _ _]).
    split_and!; try done. exists lost, rest. split_and!; try done.
    intros Hl0 Hlt. apply Hend; [done|lia].
Qed.

Lemma piperead_correct_witness :
  ∃ o pi' out ev, piperead (λ _, true) false false 10 new_pipe = Ok (o, pi', out, ev) ∧ o = Sleep 0.
Proof.
  destruct (piperead_correct (λ _, true) false false 10 new_pipe 0 [] new_pipe_holds eq_refl)
    as (o & pi' & out & ev & Hop & _ & _ & He & _).
  exists o, pi', out, ev. split; [exact Hop|]. destruct (He eq_refl) as (_ & _ & _ & ->). reflexivity.
Defined.

(** A lost wake-up: a non-blocking write of more than the size into an
    empty pipe fills the pipe and returns the size, without waking a reader
    that sleeps on the empty pipe. *)
Theorem pipewrite_nonblock_lost_wakeup src n pi R :
  holds BUFPAGE pi R [] → p_lock pi = false → (2 ^ 32) mod size pi = 0 →
  readopen pi ≠ 0 → size pi < n → (∀ k, is_Some (src k)) →
  ∃ pi' bs, pipewrite_from BUFPAGE src (λ _, false) true n 0 pi = Ok (Ret (size pi), pi', []) ∧
    holds BUFPAGE pi' R bs ∧ Z.of_nat (length bs) = size pi ∧ bs ≠ [].
Proof.
  intros Hh Hlk Hal Hro Hn Hsrc. pose proof (rg_size _ _ _ _ _ _ (proj1 Hh)) as Hsz.
  destruct (pipewrite_from_spec BUFPAGE src (λ _, false) true n 0 pi R []) as (o & pi' & ev & bs & Hop & [W1 W2 W3 W4 W5 W6 W7 W8]);
    [done|done|done|by left|]. cbn [app] in *.
  pose proof (rg_len _ _ _ _ _ _ (proj1 W1)) as Hlen. rewrite W4 in Hlen. rewrite Z.add_0_l in W8.
  destruct W8 as [|Hj Hf Hs|Hj Hk|Hj Hf _|]; try done; try lia.
  - exfalso. destruct (Hsrc (Z.of_nat (length bs))). congruence.
  - apply bool_decide_eq_true in Hf. rewrite (proj2 (Z.eqb_neq _ _)) in Hop by lia. rewrite Hf in Hop.
    exists pi', bs. split_and!; try done. intros ->. cbn in Hf. lia.
Qed.

Lemma pipewrite_nonblock_witness :
  ∃ pi' bs, pipewrite_from BUFPAGE ramp (λ _, false) true 600 0 new_pipe = Ok (Ret 512, pi', []) ∧ holds BUFPAGE pi' 0 bs ∧ bs ≠ [].
Proof.
  destruct (pipewrite_nonblock_lost_wakeup ramp 600 new_pipe 0 new_pipe_holds) as (pi' & bs & Hop & Hh & _ & Hne).
  - reflexivity.
  - reflexivity.
  - discriminate.
  - reflexivity.
  - intros k. unfold ramp. eauto.
  - exists pi', bs. auto.
Defined.

(** ** Resizing *)

Lemma memset_page_ok sz : 0 ≤ sz ≤ BUFPAGE → ∃ d, memset_page sz zero_page = Ok d.
Proof.
  intros Hs. destruct (for_range_inv (λ _ _, True) 0 sz (λ i, put BUFPAGE i 0) zero_page) as (d & Hd & _);
    [lia|done| |by exists d].
  intros i d Hi _. unfold put. rewrite (proj2 (Z.leb_le _ _)), (proj2 (Z.ltb_lt _ _)) by lia. by eexists.
Qed.

(** The copy of the [m] newest bytes. *)
Lemma resize_copy pi R q m d :
  holds BUFPAGE pi R q → 0 ≤ m ≤ Z.of_nat (length q) → m ≤ BUFPAGE →
  let rd := u32 (R + (Z.of_nat (length q) - m)) in
  ∃ d', for_range 0 m (λ i d, let* c := peek (u32 (rd + i) mod size pi) (data pi) in put BUFPAGE i c d) d = Ok d' ∧
    ∀ i c, drop (length q - Z.to_nat m) q !! i = Some c → d' !! (Z.of_nat i) = Some c.
Proof.
  intros [Hr Hsz] Hm Hmb rd.
  destruct (for_range_inv (λ i (d : gmap Z Z), ∀ k c, Z.of_nat k < i →
      drop (length q - Z.to_nat m) q !! k = Some c → d !! (Z.of_nat k) = Some c)
    0 m (λ i d, let* c := peek (u32 (rd + i) mod size pi) (data pi) in put BUFPAGE i c d) d) as (d' & Hop & Hd);
    [lia|intros; lia| |].
  - intros i d0 Hi Hd0. unfold rd. rewrite u32_add.
    replace (R + (Z.of_nat (length q) - m) + i) with (R + (Z.of_nat (length q) - m + i)) by lia.
    pose proof (rg_size _ _ _ _ _ _ Hr). pose proof (rg_R _ _ _ _ _ _ Hr).
    rewrite u32_index; [|lia|lia|].
    2:{ destruct (rg_alias _ _ _ _ _ _ Hr); [by left|right; lia]. }
    set (j := Z.to_nat (Z.of_nat (length q) - m + i)).
    destruct (lookup_lt_is_Some_2 q j) as [c Hc]; [lia|].
    pose proof (rg_data _ _ _ _ _ _ Hr j c Hc) as Hdat.
    replace (R + Z.of_nat j) with (R + (Z.of_nat (length q) - m + i)) in Hdat by lia.
    unfold peek. rewrite Hdat. cbn [default bind]. unfold put.
    rewrite (proj2 (Z.leb_le _ _)), (proj2 (Z.ltb_lt _ _)) by lia. eexists; split; [done|].
    intros k x Hk Hx. destruct (decide (Z.of_nat k = i)) as [Ek|Ek].
    + rewrite lookup_drop in Hx. replace (length q - Z.to_nat m + k)%nat with j in Hx by lia.
      rewrite Hc in Hx. injection Hx as <-. cbn [andb]. rewrite Ek. apply lookup_insert_eq.
    + cbn [andb]. rewrite lookup_insert_ne by lia. apply Hd0; [lia|done].
  - exists d'. split; [done|]. intros i c Hi. apply Hd; [|done].
    apply lookup_lt_Some in Hi. rewrite length_drop in Hi. lia.
Qed.

(** [pipeset_size] to a new size of up to a page, while the counters are
    in order, keeps the newest [sz] bytes of the queue (all of them when they
    fit) in a pipe of the new size; a size of more than a page, which the
    [F_SETPIPE_SZ] command passes on unchecked, writes beyond the buffer. *)
Theorem pipeset_size_correct sz pi R q :
  holds BUFPAGE pi R q → p_lock pi = false → nread pi ≤ nwrite pi → 0 < sz < 2 ^ 32 → sz ≠ size pi →
  (sz ≤ BUFPAGE → ∃ pi', pipeset_size sz pi = Ok (0, pi') ∧ p_lock pi' = false ∧ size pi' = sz ∧
     holds BUFPAGE pi' 0 (drop (length q - Z.to_nat sz) q)) ∧
  (BUFPAGE < sz → pipeset_size sz pi = Undef).
Proof.
  intros Hh Hlk Hord Hsz Hne. unfold pipeset_size.
  rewrite (proj2 (Z.eqb_neq _ _)), acquire_ok by (done || lia). cbn [bind]. cbn [size with_lock nread nwrite data].
  rewrite (proj2 (Z.eqb_neq _ _)) by lia. split; intros Hb.
  - destruct (memset_page_ok sz ltac:(lia)) as [d Hd]. rewrite Hd. cbn [bind].
    pose proof (proj1 Hh) as Hr. pose proof (rg_len _ _ _ _ _ _ Hr) as Hlen. pose proof (rg_size _ _ _ _ _ _ Hr) as Hs.
    assert (Hds : u32 (nwrite pi - nread pi) = Z.of_nat (length q)).
    { rewrite (rg_write _ _ _ _ _ _ Hr), (rg_read _ _ _ _ _ _ Hr). unfold u32. rewrite <-Zminus_mod, Z.mod_small; lia. }
    destruct (Z.ltb_spec (nread pi) (nwrite pi)) as [Hlt|Hge].
    + set (m := Z.min sz (Z.of_nat (length q))).
      destruct (resize_copy pi R q m d Hh) as (d' & Hop & Hd'); [lia|lia|].
      assert (Hpair : (if sz <? u32 (nwrite pi - nread pi) then (sz, u32 (nwrite pi - sz))
                       else (u32 (nwrite pi - nread pi), nread pi))
                      = (m, u32 (R + (Z.of_nat (length q) - m)))).
      { rewrite Hds, (rg_write _ _ _ _ _ _ Hr), (rg_read _ _ _ _ _ _ Hr).
        destruct (Z.ltb_spec sz (Z.of_nat (length q))).
        - unfold m. rewrite Z.min_l by lia. f_equal. unfold u32. rewrite Zminus_mod_idemp_l. f_equal. lia.
        - unfold m. rewrite Z.min_r by lia. do 2 f_equal. lia. }
      rewrite Hpair. rewrite Hop. cbn [bind release p_lock with_lock]. eexists; split; [reflexivity|].
      split_and!; try done. split; [|done]. cbn.
      assert (Hl : Z.of_nat (length (drop (length q - Z.to_nat sz) q)) = m) by (rewrite length_drop; lia).
      split; try done; try lia.
      * rewrite u32_small; lia.
      * intros i c Hi. rewrite Z.mod_small by (apply lookup_lt_Some in Hi; lia). apply Hd'.
        replace (length q - Z.to_nat m)%nat with (length q - Z.to_nat sz)%nat by lia. done.
    + assert (q = []) as ->.
      { apply nil_length_inv. replace (nwrite pi - nread pi) with 0 in Hds by lia. change (u32 0) with 0 in Hds. lia. }
      cbn [bind]. unfold release. cbn. eexists; split; [reflexivity|]. split_and!; try done. split; [|done]. by apply ring_new.
  - unfold memset_page. rewrite (for_range_split 0 BUFPAGE sz) by (unfold BUFPAGE in *; lia).
    destruct (memset_page_ok BUFPAGE) as [d Hd]; [unfold BUFPAGE; lia|]. unfold memset_page in Hd. rewrite Hd.
    cbn [bind]. unfold for_range. replace (Z.to_nat (sz - BUFPAGE)) with (S (Z.to_nat (sz - BUFPAGE - 1))) by lia.
    reflexivity.
Qed.

Lemma pipeset_size_witness :
  ∃ pi', pipeset_size 4096 new_pipe = Ok (0, pi') ∧ size pi' = 4096.
Proof.
  destruct (pipeset_size_correct 4096 new_pipe 0 [] new_pipe_holds eq_refl) as [H _].
  - vm_compute. discriminate.
  - split; reflexivity.
  - discriminate.
  - destruct H as (pi' & Hop & _ & Hs & _); [vm_compute; discriminate|]. exists pi'. auto.
Defined.

End PipeSpec.
