(* ===== verification/FifoDefs.v ===== *)
(** * Named pipes (kernel/fs/fifo.c), definitions

    The table of [MAX_FIFOS] slots with its lock.  The buffer part of a slot
    ([lock], [data], [nread], [nwrite], [readopen], [writeopen]) has the layout
    and the loops of a pipe of size [FIFO_SIZE] and is a [PipeDefs.pipe]; the
    array itself has [FIFO_SIZE] bytes.  A C string is the list of its bytes
    before the NUL.  Segments, events and user memory are as for pipes. *)

From S2P Require Import Prelude PipeDefs.
Import PipeDefs.

Module FifoDefs.

Definition FIFO_SIZE : Z := 17 * 4096.
Definition MAX_FIFOS : nat := 16.
Definition PATH_SIZE : nat := 256.
Definition EBADF : Z := 9.
Definition O_RDONLY : Z := 0.
Definition O_WRONLY : Z := 1.
Definition O_RDWR : Z := 2.
Definition O_ACCMODE : Z := 3.
Definition O_NONBLOCK : Z := 2048.

Record fifo := mk_fifo { ch : pipe; path : list Z; in_use : bool }.
Record table := mk_table { t_lock : bool; slots : list fifo }.

Definition t_acquire (t : table) : res table :=
  if t_lock t then Panic "double acquire" else Ok (mk_table true (slots t)).
Definition t_release (t : table) : res table :=
  if t_lock t then Ok (mk_table false (slots t)) else Panic "release".

Definition with_ch (fi : fifo) (c : pipe) : fifo := mk_fifo c (path fi) (in_use fi).
Definition set_open (c : pipe) (ro wo : Z) : pipe :=
  mk_pipe (p_lock c) (data c) (size c) (nread c) (nwrite c) ro wo.

(** One slot of [init_fifo_table]. *)
Definition init_slot (fi : fifo) : fifo :=
  let c := ch fi in
  mk_fifo (mk_pipe (p_lock c) (data c) FIFO_SIZE 0 0 0 0) [] false.
Definition init_fifo_table (t : table) : table := mk_table false (init_slot <$> slots t).

(** The first slot that satisfies a test. *)
Fixpoint find_slot (test : fifo → bool) (i : nat) (l : list fifo) : option nat :=
  match l with
  | [] => None
  | fi :: l => if test fi then Some i else find_slot test (S i) l
  end.

(** [in_use && strcmp(path, p) == 0]. *)
Definition has_path (p : list Z) (fi : fifo) : bool := in_use fi && bool_decide (path fi = p).

(** The slot is filled in for a new path: [strncpy] of 255 bytes, counters and
    counts zero, the lock free. *)
Definition fresh_slot (p : list Z) (fi : fifo) : fifo :=
  let c := ch fi in
  mk_fifo (mk_pipe false (data c) FIFO_SIZE 0 0 0 0) (take (PATH_SIZE - 1) p) true.

Definition find_or_create_fifo (p : list Z) (t : table) : res (option nat * table) :=
  let* t := t_acquire t in
  match find_slot (has_path p) 0 (slots t) with
  | Some i => let* t := t_release t in Ok (Some i, t)
  | None =>
      match find_slot (λ fi, negb (in_use fi)) 0 (slots t) with
      | Some i =>
          let t := mk_table (t_lock t) (alter (fresh_slot p) i (slots t)) in
          let* t := t_release t in
          Ok (Some i, t)
      | None => let* t := t_release t in Ok (None, t)
      end
  end.

Definition opens_read (flags : Z) : bool :=
  (Z.land flags O_ACCMODE =? O_RDONLY) || (Z.land flags O_ACCMODE =? O_RDWR).
Definition opens_write (flags : Z) : bool :=
  (Z.land flags O_ACCMODE =? O_WRONLY) || (Z.land flags O_ACCMODE =? O_RDWR).

Definition fifo_open (p : list Z) (flags : Z) (t : table) : res (option nat * table) :=
  let* (o, t) := find_or_create_fifo p t in
  match o with
  | None => Ok (None, t)
  | Some i =>
      let* fi := of_opt (slots t !! i) in
      let* c := acquire (ch fi) in
      if truthy (Z.land flags O_NONBLOCK) && (Z.land flags O_ACCMODE =? O_WRONLY) && (readopen c =? 0)
      then
        let* c := release c in
        Ok (None, mk_table (t_lock t) (<[i := with_ch fi c]> (slots t)))
      else
        let ro := if opens_read flags then i32 (readopen c + 1) else readopen c in
        let wo := if opens_write flags then i32 (writeopen c + 1) else writeopen c in
        let* c := release (set_open c ro wo) in
        Ok (Some i, mk_table (t_lock t) (<[i := with_ch fi c]> (slots t)))
  end.

Definition fifo_close (i : nat) (flags : Z) (t : table) : res (table * list event) :=
  let* fi := of_opt (slots t !! i) in
  let* c := acquire (ch fi) in
  let '(ro, ev1) :=
    if opens_read flags && (0 <? readopen c) then (readopen c - 1, [WakeWrite]) else (readopen c, []) in
  let '(wo, ev2) :=
    if opens_write flags && (0 <? writeopen c) then (writeopen c - 1, [WakeRead]) else (writeopen c, []) in
  let c := set_open c ro wo in
  let* (p, used, t) :=
    (if (ro =? 0) && (wo =? 0) then
       let* t := t_acquire t in
       let* t := t_release t in
       Ok ([], false, t)
     else Ok (path fi, in_use fi, t)) in
  let* c := release c in
  Ok (mk_table (t_lock t) (<[i := mk_fifo c p used]> (slots t)), ev1 ++ ev2).

Definition is_fifo_readopen_by_path (p : list Z) (t : table) : res (bool * table) :=
  let* t := t_acquire t in
  match find_slot (has_path p) 0 (slots t) with
  | Some i =>
      let* fi := of_opt (slots t !! i) in
      let* t := t_release t in
      Ok (0 <? readopen (ch fi), t)
  | None => let* t := t_release t in Ok (false, t)
  end.

(** ** Reading and writing: the channel of the slot *)

Section transfer.
Context (nonblock : bool) (n : Z).

Definition fiforead_wait (dst : Z → bool) (killed : bool) (c : pipe)
    : res (outcome * pipe * list Z * list event) :=
  if (nread c =? nwrite c) && (0 <? writeopen c) then
    if killed then let* c := release c in Ok (Ret (-1), c, [], [])
    else if nonblock then let* c := release c in Ok (Ret (- EAGAIN), c, [], [])
    else let* c := release c in Ok (Sleep 0, c, [], [])
  else
    let* (i, c, out) := piperead_copy dst n (Z.to_nat n + 1) 0 c in
    let* c := release c in
    Ok (Ret i, c, out, [WakeWrite]).

(** [valid]: the file is a FIFO file with a slot. *)
Definition fiforead (dst : Z → bool) (killed valid : bool) (c : pipe)
    : res (outcome * pipe * list Z * list event) :=
  if negb valid then Ok (Ret (- EBADF), c, [], [])
  else
    let* c := acquire c in
    if nonblock && (nread c =? nwrite c) && (0 <? writeopen c) then
      let* c := release c in Ok (Ret (- EAGAIN), c, [], [])
    else fiforead_wait dst killed c.

Definition fifowrite (src : Z → option Z) (killed : Z → bool) (valid : bool) (c : pipe)
    : res (outcome * pipe * list event) :=
  if negb valid then Ok (Ret (- EBADF), c, [])
  else
    let* c := acquire c in
    if readopen c =? 0 then
      let* c := release c in Ok (Ret (- EPIPE), c, [SigPipe])
    else if nonblock && (nwrite c =? u32 (nread c + FIFO_SIZE)) then
      let* c := release c in Ok (Ret (- EAGAIN), c, [])
    else pipewrite_loop FIFO_SIZE src killed nonblock n (Z.to_nat n + 1) 0 c.

(** A sleeping writer goes on in the loop. *)
Definition fifowrite_resume (src : Z → option Z) (killed : Z → bool) (i : Z) (c : pipe)
    : res (outcome * pipe * list event) :=
  pipewrite_from FIFO_SIZE src killed nonblock n i c.
End transfer.

(** The table at boot: static storage, then [init_fifo_table]. *)
Definition boot_slot : fifo := mk_fifo (mk_pipe false ∅ FIFO_SIZE 0 0 0 0) [] false.
Definition boot_table : table := init_fifo_table (mk_table false (replicate MAX_FIFOS boot_slot)).

End FifoDefs.
