(* ===== verification/Fifo.v ===== *)
(** * Named pipes: the table and the byte stream

    The table keeps one slot per path, opening and closing count readers and
    writers, and the stream through a slot is intact for the first 4 GiB. *)

From S2P Require Import Prelude Ring PipeDefs Pipe FifoDefs.
Import Ring PipeDefs Pipe FifoDefs.

Module Fifo.

(** ** Slots *)

Lemma find_slot_Some test i l k :
  find_slot test i l = Some k →
  ∃ j fi, k = (i + j)%nat ∧ l !! j = Some fi ∧ test fi = true.
Proof.
  revert i; induction l as [|fi l IH]; intros i H; [done|]. cbn in H. destruct (test fi) eqn:E.
  - injection H as <-. exists O, fi. split_and!; [lia|done|done].
  - destruct (IH (S i) H) as (j & f & -> & Hl & Ht). exists (S j), f. split_and!; [lia|done|done].
Qed.

Lemma find_slot_None test i l : find_slot test i l = None → ∀ j fi, l !! j = Some fi → test fi = false.
Proof.
  revert i; induction l as [|fi l IH]; intros i H j f Hj; [done|]. cbn in H. destruct (test fi) eqn:E; [done|].
  destruct j as [|j]; [by injection Hj as <-|]. by apply (IH (S i) H j).
Qed.

(** A slot in use has a path of its own and counts that are not negative; all
    locks are free between calls. *)
Record slot_ok (fi : fifo) : Prop := {
  s_lock : p_lock (ch fi) = false;
  s_size : size (ch fi) = FIFO_SIZE;
  s_counts : 0 ≤ readopen (ch fi) < 2 ^ 31 ∧ 0 ≤ writeopen (ch fi) < 2 ^ 31
}.

Record table_ok (t : table) : Prop := {
  k_lock : t_lock t = false;
  k_len : length (slots t) = MAX_FIFOS;
  k_slots : ∀ i fi, slots t !! i = Some fi → slot_ok fi;
  k_paths : ∀ i j fi fj, slots t !! i = Some fi → slots t !! j = Some fj →
    in_use fi = true → in_use fj = true → path fi = path fj → i = j
}.

(** Replacing a slot by one that is unused, or has the path of the old one, or
    a path no used slot has. *)
Lemma table_ok_insert t i fi fi' :
  table_ok t → slots t !! i = Some fi → slot_ok fi' →
  (in_use fi' = false ∨ (in_use fi = true ∧ path fi' = path fi) ∨
   (∀ j fj, slots t !! j = Some fj → in_use fj = true → path fj ≠ path fi')) →
  table_ok (mk_table (t_lock t) (<[i := fi']> (slots t))).
Proof.
  intros [Hl Hn Hs Hp] Hi Hok Hcase. split; cbn; [done|by rewrite length_insert| |].
  - intros j fj Hj. apply list_lookup_insert_Some in Hj as [(-> & <- & _)|[_ Hj]]; [done|by apply (Hs j)].
  - intros a b fa fb Ha Hb Hua Hub Heq.
    apply list_lookup_insert_Some in Ha as [(-> & <- & _)|[Hna Ha]];
      apply list_lookup_insert_Some in Hb as [(-> & <- & _)|[Hnb Hb]]; try done.
    + destruct Hcase as [?|[[Hu Hpa]|Hno]]; [congruence| |by destruct (Hno b fb)].
      by apply (Hp _ b fi fb); try congruence.
    + destruct Hcase as [?|[[Hu Hpa]|Hno]]; [congruence| |by destruct (Hno a fa)].
      by apply (Hp a _ fa fi); try congruence.
    + by apply (Hp a b fa fb).
Qed.

Lemma boot_table_ok : table_ok boot_table.
Proof.
  split; [done|done| |].
  - intros i fi Hi. apply list_lookup_fmap_Some_1 in Hi as (f & -> & Hf).
    apply lookup_replicate_1 in Hf as [-> _]. by split.
  - intros i j fi fj Hi _ Hu. apply list_lookup_fmap_Some_1 in Hi as (f & -> & Hf). done.
Qed.

(** ** Lookup and creation *)

(** What [find_or_create_fifo] returns. *)
Lemma find_or_create_spec p t :
  table_ok t → (length p < PATH_SIZE)%nat →
  ∃ o t', find_or_create_fifo p t = Ok (o, t') ∧ table_ok t' ∧
    match o with
    | Some i => ∃ fi, slots t' !! i = Some fi ∧ in_use fi = true ∧ path fi = p ∧
        ((t' = t) ∨
         (slots t' = <[i := fi]> (slots t) ∧ readopen (ch fi) = 0 ∧ writeopen (ch fi) = 0 ∧
          (∀ j fj, slots t !! j = Some fj → has_path p fj = false)))
    | None => t' = t ∧ (∀ j fj, slots t !! j = Some fj → has_path p fj = false ∧ in_use fj = true)
    end.
Proof.
  intros Hok Hlen. unfold find_or_create_fifo, t_acquire. rewrite (k_lock _ Hok). cbn [bind slots].
  assert (Ht : mk_table false (slots t) = t) by (destruct t; cbn; f_equal; symmetry; apply (k_lock _ Hok)).
  destruct (find_slot (has_path p) 0 (slots t)) as [i|] eqn:E1; cbn [t_release t_lock bind slots].
  { apply find_slot_Some in E1 as (j & fi & -> & Hj & [Hu Hp%bool_decide_eq_true]%andb_true_iff).
    rewrite Ht. exists (Some j), t. split_and!; try done. exists fi. split_and!; try done. by left. }
  pose proof (find_slot_None _ _ _ E1) as Hno.
  destruct (find_slot (λ fi, negb (in_use fi)) 0 (slots t)) as [i|] eqn:E2; cbn [t_release t_lock bind slots].
  2:{ rewrite Ht. exists None, t. split_and!; try done. intros j fj Hj. split; [by apply (Hno j)|].
      pose proof (find_slot_None _ _ _ E2 j fj Hj) as Hn. cbn in Hn. by apply negb_false_iff. }
  apply find_slot_Some in E2 as (j & fi & -> & Hj & Hu%negb_true_iff). cbn [Nat.add].
  assert (Htake : take (PATH_SIZE - 1) p = p) by (apply take_ge; unfold PATH_SIZE in *; lia).
  assert (Halt : alter (fresh_slot p) j (slots t) = <[j := fresh_slot p fi]> (slots t)).
  { apply list_eq. intros k. destruct (decide (k = j)) as [->|Hne].
    - rewrite list_lookup_alter_eq, Hj, list_lookup_insert_eq; [done|]. by apply lookup_lt_Some in Hj.
    - by rewrite list_lookup_alter_ne, list_lookup_insert_ne by done. }
  rewrite Halt. set (t' := mk_table false _).
  exists (Some j), t'. split; [done|]. split.
  - unfold t'. rewrite <-(k_lock _ Hok). apply (table_ok_insert t j fi); [done|done|by split|].
    right; right. intros k fk Hk Huk Heq. change (path fk = take (PATH_SIZE - 1) p) in Heq. rewrite Htake in Heq.
    pose proof (Hno k fk Hk) as Hn. unfold has_path in Hn. rewrite Huk, Heq, bool_decide_true in Hn; done.
  - exists (fresh_slot p fi). split; [apply list_lookup_insert_eq; by apply lookup_lt_Some in Hj|].
    split_and!; try done. right. split_and!; done.
Qed.

(** ** Streams *)

(** A slot's channel with the bytes sent to and received from it. *)
Inductive fuse : traffic → traffic → Prop :=
| fuse_write src killed nonblock n c w r o c' ev :
    fifowrite nonblock n src killed true c = Ok (o, c', ev) →
    fuse (c, w, r) (c', w ++ sent src 0 c c', r)
| fuse_resume src killed nonblock n i c w r o c' ev :
    0 ≤ i → fifowrite_resume nonblock n src killed i c = Ok (o, c', ev) →
    fuse (c, w, r) (c', w ++ sent src i c c', r)
| fuse_read killed nonblock n c w r o c' out ev :
    fiforead nonblock n (λ _, true) killed true c = Ok (o, c', out, ev) →
    fuse (c, w, r) (c', w, r ++ out)
| fuse_open c w r ro wo : 0 ≤ ro → 0 ≤ wo → fuse (c, w, r) (set_open c ro wo, w, r).

Lemma set_open_same c : set_open c (readopen c) (writeopen c) = c.
Proof. by destruct c. Qed.

(** A segment of a FIFO is a segment of a pipe, or changes nothing. *)
Lemma fifowrite_segment nonblock n src killed c o c' ev :
  p_lock c = false → fifowrite nonblock n src killed true c = Ok (o, c', ev) →
  c' = c ∨ pipewrite_from FIFO_SIZE src killed nonblock n 0 c = Ok (o, c', ev).
Proof.
  intros Hlk H. unfold fifowrite in H. cbn [negb] in H. rewrite acquire_ok in H by done. cbn [bind] in H.
  assert (Hback : with_lock (with_lock c true) false = c) by (clear H; destruct c; cbn in Hlk; by subst).
  destruct (readopen _ =? 0).
  { rewrite release_ok in H by done. cbn [bind] in H. injection H as <- <- <-. by left. }
  destruct (nonblock && _).
  { rewrite release_ok in H by done. cbn [bind] in H. injection H as <- <- <-. by left. }
  right. unfold pipewrite_from. rewrite acquire_ok by done. cbn [bind]. by rewrite Z.sub_0_r.
Qed.

Lemma fiforead_segment nonblock n killed c o c' out ev R q :
  holds FIFO_SIZE c R q → p_lock c = false → 0 ≤ writeopen c →
  fiforead nonblock n (λ _, true) killed true c = Ok (o, c', out, ev) →
  ∃ o' ev', piperead (λ _, true) killed nonblock n c = Ok (o', c', out, ev').
Proof.
  intros Hh Hlk Hwo H.
  destruct (piperead_spec FIFO_SIZE (λ _, true) killed nonblock n c R q Hh Hlk) as (o1 & c1 & out1 & ev1 & Hop & _ & Hd).
  unfold fiforead in H. cbn [negb] in H. rewrite acquire_ok in H by done. cbn [bind nread nwrite writeopen with_lock] in H.
  rewrite (ring_empty _ _ _ _ R q (proj1 Hh)) in H. case_bool_decide as Eq.
  - (* empty: nothing changes *)
    destruct Hd as (_ & _ & He). destruct (He Eq) as (-> & -> & -> & _). exists o1, [].
    enough (c' = with_lock c false ∧ out = []) as [-> ->] by done.
    unfold fiforead_wait in H. cbn [nread nwrite writeopen with_lock] in H.
    rewrite (ring_empty _ _ _ _ R q (proj1 Hh)), bool_decide_true in H by done.
    destruct (Z.to_nat n + 1)%nat as [|f] eqn:Ef; [lia|].
    destruct nonblock, killed, (0 <? writeopen c); cbn -[release piperead_copy] in H;
      rewrite ?release_ok in H by done; cbn -[release piperead_copy] in H;
      try (by injection H as <- <- <- <-).
    all: cbn [piperead_copy nread nwrite with_lock] in H;
      rewrite (ring_empty _ _ _ _ R q (proj1 Hh)), bool_decide_true in H by done;
      destruct (0 <? n); cbn [bind] in H; rewrite release_ok in H by done; by injection H as <- <- <- <-.
  - rewrite andb_false_r in H. cbn [andb] in H. unfold fiforead_wait in H. cbn [nread nwrite writeopen with_lock] in H.
    rewrite (ring_empty _ _ _ _ R q (proj1 Hh)), bool_decide_false in H by done. cbn [andb] in H.
    unfold piperead in Hop |- *. rewrite acquire_ok by done. cbn [bind nread nwrite writeopen with_lock].
    rewrite (ring_empty _ _ _ _ R q (proj1 Hh)), bool_decide_false by done. cbn [andb].
    unfold piperead_rest. cbn [nread nwrite writeopen with_lock].
    rewrite (ring_empty _ _ _ _ R q (proj1 Hh)), bool_decide_false by done. cbn [andb]. rewrite H. by eexists _, _.
Qed.

Lemma sent_none src i c : sent src i c c = [].
Proof. unfold sent. by rewrite Z.sub_diag. Qed.

(** Every use of a FIFO is a use of a pipe of size [FIFO_SIZE]. *)
Lemma fuse_use t t' :
  fuse t t' → stream FIFO_SIZE t → room (chan_of t) (reads t) → size (chan_of t) = FIFO_SIZE →
  0 ≤ writeopen (chan_of t) → use FIFO_SIZE t t'.
Proof.
  intros Hu Hst Hroom Hsz Hwo. destruct Hu as [src killed nonblock n c w r o c' ev Hop
    |src killed nonblock n i c w r o c' ev Hi Hop|killed nonblock n c w r o c' out ev Hop|].
  - destruct Hst as (Hlk & q & Hh & _). destruct (fifowrite_segment _ _ _ _ _ _ _ _ Hlk Hop) as [->|Hop'].
    + rewrite sent_none, app_nil_r. rewrite <-(set_open_same c) at 2. apply use_close.
    + by apply (use_write FIFO_SIZE src killed nonblock n 0 c w r o c' ev).
  - by apply (use_write FIFO_SIZE src killed nonblock n i c w r o c' ev).
  - destruct Hst as (Hlk & q & Hh & _).
    destruct (fiforead_segment nonblock n killed c o c' out ev _ q Hh Hlk Hwo Hop) as (o' & ev' & Hop').
    by apply (use_read FIFO_SIZE killed nonblock n c w r o' c' out ev').
  - apply use_close.
Qed.

(** The number of writers never becomes negative by a transfer. *)
Lemma use_writeopen t t' : fuse t t' → stream FIFO_SIZE t → room (chan_of t) (reads t) →
  size (chan_of t) = FIFO_SIZE → 0 ≤ writeopen (chan_of t) → 0 ≤ writeopen (chan_of t').
Proof.
  intros Hu Hst Hroom Hsz Hwo.
  destruct Hu as [src killed nonblock n c w r o c' ev Hop|src killed nonblock n i c w r o c' ev Hi Hop
                 |killed nonblock n c w r o c' out ev Hop|]; try done; destruct Hst as (Hlk & q & Hh & _); cbn in *.
  - destruct (fifowrite_segment _ _ _ _ _ _ _ _ Hlk Hop) as [->|Hop']; [done|].
    destruct (pipewrite_from_spec FIFO_SIZE src killed nonblock n 0 c _ q Hh Hlk) as (o1 & c1 & ev1 & bs & Hop1 & Hw);
      [lia|done|]. rewrite Hop' in Hop1. injection Hop1 as <- <- <-. by rewrite (w_wo _ _ _ _ _ _ _ _ _ _ _ _ _ Hw).
  - destruct (pipewrite_from_spec FIFO_SIZE src killed nonblock n i c _ q Hh Hlk Hi) as (o1 & c1 & ev1 & bs & Hop1 & Hw);
      [done|]. unfold fifowrite_resume in Hop. rewrite Hop in Hop1. injection Hop1 as <- <- <-.
    by rewrite (w_wo _ _ _ _ _ _ _ _ _ _ _ _ _ Hw).
  - destruct (fiforead_segment nonblock n killed c o c' out ev _ q Hh Hlk Hwo Hop) as (o' & ev' & Hop').
    destruct (piperead_spec FIFO_SIZE (λ _, true) killed nonblock n c _ q Hh Hlk) as (o1 & c1 & out1 & ev1 & Hop1 & _ & Hd).
    rewrite Hop' in Hop1. injection Hop1 as <- <- <- <-. destruct Hd as (_ & Hne & He).
    destruct (decide (q = [])) as [Hq|Hq]; [destruct (He Hq) as (-> & _); done|].
    destruct (Hne Hq) as (_ & _ & lost & Hc). by rewrite (cp_wo _ _ _ _ _ _ _ _ _ _ Hc).
Qed.

Lemma fuse_reads t t' : fuse t t' → reads t ≤ reads t'.
Proof. intros []; unfold reads; cbn; rewrite ?length_app; lia. Qed.

Lemma fuse_reach t t' :
  rtc fuse t t' → stream FIFO_SIZE t → size (chan_of t) = FIFO_SIZE → 0 ≤ writeopen (chan_of t) →
  reads t' + FIFO_SIZE ≤ 2 ^ 32 → stream FIFO_SIZE t'.
Proof.
  intros Hrun. induction Hrun as [t|t1 t2 t3 Hu Hrun IH]; intros Hst Hsz Hwo Hb; [done|].
  assert (Hle : reads t1 ≤ reads t3).
  { apply Z.le_trans with (reads t2); [by apply fuse_reads|]. clear -Hrun.
    induction Hrun; [done|]. apply fuse_reads in H. lia. }
  assert (Hroom : room (chan_of t1) (reads t1)) by (right; rewrite Hsz; lia).
  pose proof (fuse_use _ _ Hu Hst Hroom Hsz Hwo) as Hu'.
  destruct (stream_use FIFO_SIZE t1 t2 Hu' Hroom Hst) as (Hst2 & Hsz2 & _).
  apply IH; [done|congruence|by apply (use_writeopen t1)|done].
Qed.

End Fifo.
