(* ===== verification/FifoSpec.v ===== *)
(** * What named pipes guarantee

    The theorems on kernel/fs/fifo.c. *)

From S2P Require Import Prelude Ring PipeDefs Pipe FifoDefs Fifo.
Import Ring PipeDefs Pipe FifoDefs Fifo.

Module FifoSpec.

Lemma readopen_by_path_spec p t i fi :
  table_ok t → slots t !! i = Some fi → in_use fi = true → path fi = p →
  is_fifo_readopen_by_path p t = Ok (0 <? readopen (ch fi), t).
Proof.
  intros Hok Hi Hu Hp. unfold is_fifo_readopen_by_path, t_acquire. rewrite (k_lock _ Hok). cbn [bind slots].
  assert (Ht : mk_table false (slots t) = t) by (destruct t; cbn; f_equal; symmetry; apply (k_lock _ Hok)).
  destruct (find_slot (has_path p) 0 (slots t)) as [k|] eqn:E.
  - apply find_slot_Some in E as (j & fj & -> & Hj & [Huj Hpj%bool_decide_eq_true]%andb_true_iff).
    assert (j = i) as -> by (apply (k_paths _ Hok j i fj fi); congruence). cbn [Nat.add].
    rewrite Hi. cbn [of_opt bind t_release t_lock slots]. by rewrite Ht.
  - pose proof (find_slot_None _ _ _ E i fi Hi) as Hn. unfold has_path in Hn.
    rewrite Hu, bool_decide_true in Hn; done.
Qed.

(** Why an open can fail. *)
Definition open_fails (p : list Z) (flags : Z) (t : table) : Prop :=
  (∀ j fj, slots t !! j = Some fj → has_path p fj = false ∧ in_use fj = true) ∨
  (truthy (Z.land flags O_NONBLOCK) = true ∧ Z.land flags O_ACCMODE = O_WRONLY ∧
   ∀ j fj, slots t !! j = Some fj → has_path p fj = true → readopen (ch fj) = 0).

(** Opening a FIFO keeps the table well formed (16 slots, one per path, no
    lock left held).  A successful open returns the slot of the path, counts a
    reader and/or a writer there, and the slot is what a lookup by path then
    reports; an open fails only when the table is full, or for a non-blocking
    writer while nobody reads. *)
Theorem fifo_open_correct p flags t :
  table_ok t → (length p < PATH_SIZE)%nat →
  (∀ i fi, slots t !! i = Some fi → readopen (ch fi) < 2 ^ 31 - 1 ∧ writeopen (ch fi) < 2 ^ 31 - 1) →
  ∃ o t', fifo_open p flags t = Ok (o, t') ∧ table_ok t' ∧
    match o with
    | Some i => ∃ fi, slots t' !! i = Some fi ∧ in_use fi = true ∧ path fi = p ∧
        (opens_read flags = true → 0 < readopen (ch fi)) ∧
        (opens_write flags = true → 0 < writeopen (ch fi)) ∧
        is_fifo_readopen_by_path p t' = Ok (0 <? readopen (ch fi), t')
    | None => open_fails p flags t
    end.
Proof.
  intros Hok Hlen Hcnt. destruct (find_or_create_spec p t Hok Hlen) as (o & t1 & Hop & Hok1 & Ho).
  unfold fifo_open. rewrite Hop. cbn [bind]. destruct o as [i|].
  2:{ destruct Ho as [-> Ho]. exists None, t. split_and!; try done. by left. }
  destruct Ho as (fi & Hi & Hu & Hp & Hold). rewrite Hi. cbn [of_opt bind].
  pose proof (k_slots _ Hok1 i fi Hi) as [Hlk Hsz [Hro Hwo]]. rewrite acquire_ok by done. cbn [bind].
  assert (Hmax : readopen (ch fi) < 2 ^ 31 - 1 ∧ writeopen (ch fi) < 2 ^ 31 - 1).
  { destruct Hold as [->|(_ & -> & -> & _)]; [by apply (Hcnt i)|lia]. }
  destruct (andb _ _) eqn:E.
  - rewrite release_ok by done. cbn [bind].
    assert (Hfi : with_ch fi (with_lock (with_lock (ch fi) true) false) = fi).
    { destruct fi as [[] ? ?]; cbn in *. by subst. }
    rewrite Hfi. exists None, t1. rewrite list_insert_id by done. split_and!; [by destruct t1|done|].
    right. apply andb_true_iff in E as [[Hnb Hwr%Z.eqb_eq]%andb_true_iff Hr0%Z.eqb_eq]. split_and!; try done.
    intros j fj Hj Hpj. destruct Hold as [->|(_ & _ & _ & Hno)]; [|by rewrite (Hno j fj Hj) in Hpj].
    apply andb_true_iff in Hpj as [Huj Hpj%bool_decide_eq_true].
    assert (j = i) as -> by (apply (k_paths _ Hok j i fj fi); congruence). rewrite Hi in Hj. by injection Hj as <-.
  - set (ro := if opens_read flags then _ else _). set (wo := if opens_write flags then _ else _).
    rewrite release_ok by done. cbn [bind]. set (fi' := with_ch fi _).
    assert (Hro' : 0 ≤ ro < 2 ^ 31 ∧ (opens_read flags = true → 0 < ro)).
    { unfold ro. cbn [readopen with_lock]. destruct (opens_read flags); [rewrite i32_small by lia|]; lia. }
    assert (Hwo' : 0 ≤ wo < 2 ^ 31 ∧ (opens_write flags = true → 0 < wo)).
    { unfold wo. cbn [writeopen with_lock]. destruct (opens_write flags); [rewrite i32_small by lia|]; lia. }
    assert (Hok' : table_ok (mk_table (t_lock t1) (<[i := fi']> (slots t1)))).
    { apply (table_ok_insert t1 i fi fi'); [done|done| |right; left; by split].
      split; cbn; [done|done|tauto]. }
    assert (Hi' : <[i := fi']> (slots t1) !! i = Some fi').
    { apply list_lookup_insert_eq. by apply lookup_lt_Some in Hi. }
    eexists (Some i), _. split; [reflexivity|]. split; [done|]. exists fi'.
    split_and!; try done; try (cbn; tauto). by apply (readopen_by_path_spec _ _ i).
Qed.

Definition name1 : list Z := [47; 116; 109; 112; 47; 102].

Lemma fifo_open_witness :
  ∃ t', fifo_open name1 O_RDONLY boot_table = Ok (Some 0%nat, t') ∧ table_ok t'.
Proof.
  destruct (fifo_open_correct name1 O_RDONLY boot_table boot_table_ok) as (o & t' & Hop & Hok & _).
  - vm_compute. lia.
  - intros i fi Hi. apply list_lookup_fmap_Some_1 in Hi as (f & -> & Hf).
    apply lookup_replicate_1 in Hf as [-> _]. vm_compute. split; reflexivity.
  - exists t'. split; [|exact Hok]. rewrite Hop. vm_compute in Hop. injection Hop as <- _. reflexivity.
Defined.

(** One-character paths, and a non-blocking open for writing of one of them. *)
Definition numbered (k : nat) : list Z := [48 + Z.of_nat k].
Definition open_wronly (t : res table) (k : nat) : res table :=
  let* t := t in
  let* (o, t) := fifo_open (numbered k) (Z.lor O_WRONLY O_NONBLOCK) t in
  match o with None => Ok t | Some _ => Undef end.

(** A failed open leaks the slot: opening a path nobody has open, for
    writing and non-blocking, returns NULL but leaves a slot in use without
    readers and writers; 16 such opens of different paths fill the table, and
    no further FIFO can be opened. *)
Theorem fifo_failed_open_leaks_slot :
  ∃ t, foldl open_wronly (Ok boot_table) (seq 0 16) = Ok t ∧
    (∀ fi, fi ∈ slots t → in_use fi = true ∧ readopen (ch fi) = 0 ∧ writeopen (ch fi) = 0) ∧
    fifo_open name1 O_RDONLY t = Ok (None, t).
Proof.
  eexists. split; [vm_compute; reflexivity|]. split; [|vm_compute; reflexivity].
  apply (proj1 (Forall_forall _ _)). repeat constructor.
Qed.



(** ** Beyond 4 GiB *)

(** A user buffer whose first byte is 88 and the others 0. *)
Definition marked_buffer (k : Z) : option Z := Some (if k =? 0 then 88 else 0).
(** An empty FIFO through which 2^32 - 1 bytes have passed. *)
Definition old_fifo : pipe := mk_pipe false ∅ FIFO_SIZE (2 ^ 32 - 1) (2 ^ 32 - 1) 1 1.
Definition delivered (r : res (outcome * pipe * list Z * list event)) : option Z :=
  match r with Ok (Ret _, _, [b], _) => Some b | _ => None end.
Definition read_back (r : res (outcome * pipe * list event)) : option Z :=
  match r with
  | Ok (Ret n, c, _) => if n =? 65537 then delivered (fiforead false 1 (λ _, true) false true c) else None
  | _ => None
  end.
Definition first_byte_read : option Z :=
  read_back (fifowrite false 65537 marked_buffer (λ _, false) true old_fifo).

(** The bound of the stream theorem is needed: the FIFO's size does not
    divide 2^32, so when the counters wrap the indices jump, and a FIFO that
    has passed 2^32 - 1 bytes and is then written 65537 bytes (it has room for
    69632) delivers a later byte in place of the first one. *)
Theorem fifo_wraparound_corrupts :
  (2 ^ 32) mod FIFO_SIZE ≠ 0 ∧ marked_buffer 0 = Some 88 ∧ first_byte_read = Some 0.
Proof.
  split; [vm_compute; discriminate|]. split; [reflexivity|].
  vm_cast_no_check (eq_refl (Some 0 : option Z)).
Qed.

End FifoSpec.
