(* ===== verification/FutexDefs.v ===== *)
(** * Futexes (kernel/futex.c), definitions

    The queue is the array [futex_queue] of [FUTEX_COUNT] entries; a [thread_t
    *] is a thread number (0 is NULL) into the map of threads, of which the
    fields the futex code uses are kept, with the lock and the runnable mark of
    the process the thread belongs to.  A waiting call has two halves, before
    and after [sched()]: the first returns the queue position [i] that the
    second continues with.  Loops over the array are recursions over the list
    from the front. *)

From S2P Require Import Prelude.

Module FutexDefs.

Definition FUTEX_COUNT : nat := 2048.

Inductive tstate := t_UNUSED | t_USED | t_SLEEPING | t_RUNNABLE | t_RUNNING | t_ZOMBIE | t_TIMING.
#[export] Instance tstate_eq_dec : EqDecision tstate.
Proof. solve_decision. Defined.

Record thread := mk_thread {
  state : tstate;
  awakeTime : Z;
  timeout_occurred : Z;
  p_lock : bool;
  p_runnable : bool
}.

Record entry := mk_entry { valid : bool; addr : Z; th : Z; bitset : Z }.

Record futex := mk_futex {
  queue : list entry;
  fq_lock : bool;
  waiting_count : Z;
  threads : gmap Z thread
}.

Definition acquire (f : futex) : res futex :=
  if fq_lock f then Panic "double acquire" else Ok (mk_futex (queue f) true (waiting_count f) (threads f)).
Definition release (f : futex) : res futex :=
  if fq_lock f then Ok (mk_futex (queue f) false (waiting_count f) (threads f)) else Panic "release".

Definition clear_entry (e : entry) : entry := mk_entry false (addr e) (th e) (bitset e).
Definition move_entry (a : Z) (e : entry) : entry := mk_entry (valid e) a (th e) (bitset e).

(** [for (i...) if (!futex_queue[i].valid)]: the first free position. *)
Fixpoint first_free (i : nat) (l : list entry) : option nat :=
  match l with
  | [] => None
  | e :: l => if valid e then first_free (S i) l else Some i
  end.

Record timespec := mk_ts { tv_sec : Z; tv_nsec : Z }.
Definition ns (t : timespec) : Z := tv_sec t * 1000000000 + tv_nsec t.

(** The first half of a wait: [wake] is the wake-up time, if any. *)
Definition enqueue (a t bits : Z) (wake : option Z) (f : futex) : res (nat * futex) :=
  let* f := acquire f in
  match first_free 0 (queue f) with
  | None => let* _ := release f in Panic "No futex Resource!"
  | Some i =>
      let* x := of_opt (threads f !! t) in
      let* _ := (if p_lock x then Panic "double acquire" else Ok tt) in
      let x := match wake with
               | Some w => mk_thread t_TIMING w (timeout_occurred x) true true
               | None => mk_thread t_SLEEPING 0 (timeout_occurred x) true true
               end in
      let f := mk_futex (<[i := mk_entry true a t bits]> (queue f)) (fq_lock f)
                 (waiting_count f + 1) (<[t := x]> (threads f)) in
      let* f := release f in
      Ok (i, f)
  end.

(** [futex_wait_bitset] up to [sched()]: an absolute wake-up time. *)
Definition futex_wait_bitset (a t : Z) (ts : option timespec) (bits : Z) (f : futex) : res (nat * futex) :=
  enqueue a t bits ((λ x, u64 (ns x)) <$> ts) f.

(** [futex_wait] up to [sched()]: [now] is [timer_get_ntime()]. *)
Definition futex_wait (a t : Z) (ts : option timespec) (now : timespec) (f : futex) : res (nat * futex) :=
  enqueue a t 0xffffffff ((λ x, u64 (ns x + ns now)) <$> ts) f.

(** Either wait after [sched()] returns, with [p->lock] held. *)
Definition futex_wait_resume (t : Z) (i : nat) (f : futex) : res futex :=
  let* x := of_opt (threads f !! t) in
  let* _ := (if p_lock x then Ok tt else Panic "release") in
  let x := mk_thread (state x) (awakeTime x) (timeout_occurred x) false (p_runnable x) in
  let* f := acquire (mk_futex (queue f) (fq_lock f) (waiting_count f) (<[t := x]> (threads f))) in
  let* e := of_opt (queue f !! i) in
  let f := if valid e
           then mk_futex (<[i := clear_entry e]> (queue f)) (fq_lock f) (waiting_count f - 1) (threads f)
           else f in
  release f.

(** [th->state = t_RUNNABLE; th->timeout_occurred = 0]. *)
Definition wake_thread (t : Z) (ths : gmap Z thread) : res (gmap Z thread) :=
  let* x := of_opt (ths !! t) in
  Ok (<[t := mk_thread t_RUNNABLE (awakeTime x) 0 (p_lock x) (p_runnable x)]> ths).

(** [for (i = 0; i < FUTEX_COUNT && n > 0; i++) if (match) ...]: the queue, the
    threads and the number woken. *)
Fixpoint wake_loop (test : entry → bool) (n : Z) (l : list entry) (ths : gmap Z thread)
    : res (list entry * gmap Z thread * Z) :=
  match l with
  | [] => Ok ([], ths, 0)
  | e :: l =>
      if 0 <? n then
        if valid e && test e then
          let* ths := wake_thread (th e) ths in
          let* (l', ths', woken) := wake_loop test (n - 1) l ths in
          Ok (clear_entry e :: l', ths', woken + 1)
        else
          let* (l', ths', woken) := wake_loop test n l ths in
          Ok (e :: l', ths', woken)
      else Ok (e :: l, ths, 0)
  end.

Definition futex_wake_bitset (a n bits : Z) (f : futex) : res (Z * futex) :=
  let* f := acquire f in
  let* (l, ths, woken) :=
    wake_loop (λ e, (addr e =? a) && truthy (Z.land (bitset e) bits)) n (queue f) (threads f) in
  let* f := release (mk_futex l (fq_lock f) (waiting_count f - woken) ths) in
  Ok (woken, f).

Definition futex_wake (a n : Z) (f : futex) : res (Z * futex) :=
  let* f := acquire f in
  let* (l, ths, woken) := wake_loop (λ e, addr e =? a) n (queue f) (threads f) in
  let* f := release (mk_futex l (fq_lock f) (waiting_count f - woken) ths) in
  Ok (woken, f).

(** [for (i = 0; i < FUTEX_COUNT && nr > 0; i++)] of the requeueing. *)
Fixpoint requeue_loop (a a' n : Z) (l : list entry) : list entry * Z :=
  match l with
  | [] => ([], 0)
  | e :: l =>
      if 0 <? n then
        if valid e && (addr e =? a) then
          let '(l', k) := requeue_loop a a' (n - 1) l in (move_entry a' e :: l', k + 1)
        else let '(l', k) := requeue_loop a a' n l in (e :: l', k)
      else (e :: l, 0)
  end.

(** [expected_val] is not used by the C function. *)
Definition futex_cmp_requeue (a expected_val a' nr_wake nr_requeue : Z) (f : futex) : res (Z * futex) :=
  let* f := acquire f in
  let* (l, ths, woken) := wake_loop (λ e, addr e =? a) nr_wake (queue f) (threads f) in
  let '(l, requeued) := requeue_loop a a' nr_requeue l in
  let* f := release (mk_futex l (fq_lock f) (waiting_count f - woken) ths) in
  Ok (woken + requeued, f).

(** The first loop of [futex_requeue]: [n] counts down to zero, also from
    below; the time-out mark is left as it is. *)
Fixpoint requeue_wake_loop (a n : Z) (l : list entry) (ths : gmap Z thread)
    : res (list entry * gmap Z thread) :=
  match l with
  | [] => Ok ([], ths)
  | e :: l =>
      if truthy n then
        if valid e && (addr e =? a) then
          let* x := of_opt (ths !! th e) in
          let ths := <[th e := mk_thread t_RUNNABLE (awakeTime x) (timeout_occurred x) (p_lock x) (p_runnable x)]> ths in
          let* (l', ths') := requeue_wake_loop a (n - 1) l ths in
          Ok (clear_entry e :: l', ths')
        else
          let* (l', ths') := requeue_wake_loop a n l ths in
          Ok (e :: l', ths')
      else Ok (e :: l, ths)
  end.

Definition futex_requeue (a n a' : Z) (f : futex) : res futex :=
  let* (l, ths) := requeue_wake_loop a n (queue f) (threads f) in
  let l := (λ e, if valid e && (addr e =? a) then move_entry a' e else e) <$> l in
  Ok (mk_futex l (fq_lock f) (waiting_count f) ths).

(** The entries of the thread that are cleared are counted. *)
Fixpoint clear_loop (t : Z) (l : list entry) : list entry * Z :=
  match l with
  | [] => ([], 0)
  | e :: l =>
      let '(l', k) := clear_loop t l in
      if valid e && (th e =? t) then (clear_entry e :: l', k + 1) else (e :: l', k)
  end.

Definition futex_clear (t : Z) (f : futex) : res futex :=
  let* f := acquire f in
  let '(l, k) := clear_loop t (queue f) in
  release (mk_futex l (fq_lock f) (waiting_count f - k) (threads f)).

Definition futex_init (f : futex) : futex :=
  mk_futex ((λ _, mk_entry false 0 0 0xffffffff) <$> queue f) false 0 (threads f).

End FutexDefs.
