(* ===== verification/Futex.v ===== *)
(** * Futexes: the queue as a multiset of waiters

    The operations on the queue, stated on [waiters]: the valid entries from
    front to back.  The counter of waiting threads is the number of waiters,
    and no operation panics or meets an unknown thread. *)

From S2P Require Import Prelude FutexDefs.
Import FutexDefs.

Module Futex.

Definition waiters (l : list entry) : list entry := filter (λ e, valid e = true) l.
Definition count (l : list entry) : Z := Z.of_nat (length (waiters l)).

(** A free lock, a full-length array, an exact counter, and a thread for every
    waiter. *)
Record ok (f : futex) : Prop := {
  o_lock : fq_lock f = false;
  o_len : length (queue f) = FUTEX_COUNT;
  o_count : waiting_count f = count (queue f);
  o_threads : ∀ e, e ∈ waiters (queue f) → is_Some (threads f !! th e)
}.

Lemma waiters_cons e l : waiters (e :: l) = (if valid e then [e] else []) ++ waiters l.
Proof. unfold waiters. rewrite filter_cons. destruct (valid e) eqn:E; case_decide; done || congruence. Qed.

Lemma waiters_app l k : waiters (l ++ k) = waiters l ++ waiters k.
Proof. apply filter_app. Qed.

Lemma first_free_spec l i :
  match first_free i l with
  | Some k => ∃ pre e post, l = pre ++ e :: post ∧ k = (i + length pre)%nat ∧ valid e = false ∧
      (∀ x, x ∈ pre → valid x = true)
  | None => ∀ x, x ∈ l → valid x = true
  end.
Proof.
  revert i; induction l as [|e l IH]; intros i; cbn [first_free]; [by intros x ?%elem_of_nil|].
  destruct (valid e) eqn:E.
  - specialize (IH (S i)). destruct (first_free (S i) l) as [k|].
    + destruct IH as (pre & x & post & -> & -> & Hx & Hpre). exists (e :: pre), x, post.
      split_and!; [done|cbn; lia|done|]. intros y [->|Hy]%elem_of_cons; auto.
    + intros x [->|Hx]%elem_of_cons; auto.
  - exists [], e, l. split_and!; [done|cbn; lia|done|]. by intros x ?%elem_of_nil.
Qed.

Lemma insert_middle {A} (pre : list A) x y post : <[length pre := y]> (pre ++ x :: post) = pre ++ y :: post.
Proof. by rewrite insert_app_r_alt, Nat.sub_diag. Qed.

Lemma list_alter_insert_middle {A} (g : A → A) pre x post :
  alter g (length pre) (pre ++ x :: post) = pre ++ g x :: post.
Proof. induction pre as [|y pre IH]; [done|]. cbn. by rewrite IH. Qed.

Lemma list_elem_of_split_length {A} (l : list A) i x :
  l !! i = Some x → ∃ pre post, l = pre ++ x :: post ∧ i = length pre.
Proof.
  intros H. exists (take i l), (drop (S i) l). rewrite take_drop_middle by done. split; [done|].
  rewrite length_take. apply lookup_lt_Some in H. lia.
Qed.

(** ** Waking *)

(** The first [n] elements of [l] that satisfy [test] are dropped from the
    list of waiters and returned. *)
Fixpoint take_first (test : entry → bool) (n : Z) (l : list entry) : list entry * list entry :=
  match l with
  | [] => ([], [])
  | e :: l =>
      if 0 <? n then
        if test e then let '(w, r) := take_first test (n - 1) l in (e :: w, r)
        else let '(w, r) := take_first test n l in (w, e :: r)
      else ([], e :: l)
  end.

(** The state of a thread after the threads of [ws] have been woken. *)
Definition woken_threads (ws : list entry) (ths ths' : gmap Z thread) : Prop :=
  ∀ t, ths' !! t = (if decide (t ∈ th <$> ws)
                    then (λ x, mk_thread t_RUNNABLE (awakeTime x) 0 (p_lock x) (p_runnable x)) <$> ths !! t
                    else ths !! t).

Lemma woken_step e ws ths x ths' :
  ths !! th e = Some x →
  woken_threads ws (<[th e := mk_thread t_RUNNABLE (awakeTime x) 0 (p_lock x) (p_runnable x)]> ths) ths' →
  woken_threads (e :: ws) ths ths'.
Proof.
  intros Hx H t. rewrite (H t), lookup_insert. cbn [fmap list_fmap].
  repeat case_decide; subst; rewrite ?Hx in *; try done; set_solver.
Qed.

Lemma wake_loop_spec test n l ths :
  (∀ e, e ∈ waiters l → is_Some (ths !! th e)) →
  let '(ws, rest) := take_first test n (waiters l) in
  ∃ l' ths', wake_loop test n l ths = Ok (l', ths', Z.of_nat (length ws)) ∧
    waiters l' = rest ∧ length l' = length l ∧ woken_threads ws ths ths'.
Proof.
  revert n ths; induction l as [|e l IH]; intros n ths Hth.
  { cbn. exists [], ths. split_and!; try done. }
  cbn [wake_loop]. rewrite waiters_cons in *. destruct (Z.ltb_spec 0 n) as [Hn|Hn].
  2:{ assert (Htf : ∀ k, take_first test n k = ([], k)).
      { intros [|x k]; [done|]. cbn. by rewrite (proj2 (Z.ltb_ge _ _)). }
      rewrite Htf. exists (e :: l), ths. split_and!; try done. by rewrite waiters_cons. }
  destruct (valid e) eqn:Ev; cbn [andb app].
  2:{ specialize (IH n ths Hth). destruct (take_first test n (waiters l)) as [ws rest].
      destruct IH as (l' & ths' & -> & Hw & Hlen & Hths). cbn [bind]. exists (e :: l'), ths'.
      split_and!; try done; [by rewrite waiters_cons, Ev|cbn; lia]. }
  cbn [take_first]. rewrite (proj2 (Z.ltb_lt _ _)) by done. destruct (test e) eqn:Et.
  - destruct (Hth e) as [x Hx]; [left|]. unfold wake_thread. rewrite Hx. cbn [of_opt bind].
    set (ths1 := <[th e := _]> ths).
    specialize (IH (n - 1) ths1). destruct (take_first test (n - 1) (waiters l)) as [ws rest].
    destruct IH as (l' & ths' & -> & Hw & Hlen & Hths).
    { intros y Hy. unfold ths1. apply lookup_insert_is_Some'. right. apply Hth. by right. }
    cbn [bind]. exists (clear_entry e :: l'), ths'. split_and!.
    + by replace (Z.of_nat (length (e :: ws))) with (Z.of_nat (length ws) + 1) by (cbn [length]; lia).
    + by rewrite waiters_cons.
    + cbn. lia.
    + by apply (woken_step e ws ths x).
  - specialize (IH n ths). destruct (take_first test n (waiters l)) as [ws rest].
    destruct IH as (l' & ths' & -> & Hw & Hlen & Hths); [intros; apply Hth; by right|].
    cbn [bind]. exists (e :: l'), ths'. split_and!; try done; [by rewrite waiters_cons, Ev, Hw|cbn; lia].
Qed.

(** [take_first] takes a bounded number of matching elements, all of them
    when they are few. *)
Lemma take_first_spec test n l ws rest :
  0 ≤ n → take_first test n l = (ws, rest) →
  ws = take (Z.to_nat n) (filter (λ e, test e = true) l) ∧
  length l = (length ws + length rest)%nat ∧
  (∀ e, e ∈ l ↔ e ∈ ws ∨ e ∈ rest) ∧
  filter (λ e, test e ≠ true) rest = filter (λ e, test e ≠ true) l.
Proof.
  revert n ws rest; induction l as [|e l IH]; intros n ws rest Hn H; cbn [take_first] in H.
  { injection H as <- <-. split_and!; [cbn; by rewrite take_nil|done|set_solver|done]. }
  destruct (Z.ltb_spec 0 n).
  2:{ injection H as <- <-. replace n with 0 by lia. split_and!; [done|done|set_solver|done]. }
  rewrite !filter_cons. destruct (test e) eqn:Et.
  - destruct (take_first test (n - 1) l) as [w r] eqn:E. injection H as <- <-.
    destruct (IH (n - 1) w r ltac:(lia) E) as (-> & Hlen & Hin & Hf).
    rewrite decide_True, decide_False by auto. split_and!.
    + by replace (Z.to_nat n) with (S (Z.to_nat (n - 1))) by lia.
    + cbn. lia.
    + intros x. rewrite !elem_of_cons, Hin. tauto.
    + done.
  - destruct (take_first test n l) as [w r] eqn:E. injection H as <- <-.
    destruct (IH n w r Hn E) as (-> & Hlen & Hin & Hf).
    rewrite decide_False, decide_True by congruence. split_and!; [done|cbn; lia| |].
    + intros x. rewrite !elem_of_cons, Hin. tauto.
    + rewrite filter_cons_True by congruence. by rewrite Hf.
Qed.

Lemma woken_is_Some ws ths ths' t : woken_threads ws ths ths' → is_Some (ths !! t) → is_Some (ths' !! t).
Proof. intros H [x Hx]. rewrite (H t), Hx. case_decide; by eexists. Qed.

(** Either wake operation on a sound queue. *)
Lemma wake_spec test n f :
  ok f → 0 ≤ n →
  ∃ f' ws, (let* f := acquire f in
      let* (l, ths, woken) := wake_loop test n (queue f) (threads f) in
      let* f := release (mk_futex l (fq_lock f) (waiting_count f - woken) ths) in
      Ok (woken, f)) = Ok (Z.of_nat (length ws), f') ∧
    ok f' ∧ take_first test n (waiters (queue f)) = (ws, waiters (queue f')) ∧
    woken_threads ws (threads f) (threads f').
Proof.
  intros [Hl Hlen Hc Hth] Hn. unfold acquire. rewrite Hl. cbn [bind queue threads fq_lock waiting_count].
  pose proof (wake_loop_spec test n (queue f) (threads f) Hth) as Hw.
  destruct (take_first test n (waiters (queue f))) as [ws rest] eqn:E.
  destruct Hw as (l' & ths' & -> & Hw & Hlen' & Hths). cbn [bind release fq_lock queue waiting_count threads].
  destruct (take_first_spec test n _ ws rest Hn E) as (_ & Hsum & Hin & _).
  eexists _, ws. split; [reflexivity|]. split_and!; cbn; [split; cbn| |done].
  - done.
  - congruence.
  - unfold count in *. rewrite Hc, Hw. lia.
  - intros e He. apply (woken_is_Some ws (threads f)); [done|]. apply Hth, Hin. right. by rewrite <-Hw.
  - f_equal; exact (eq_sym Hw).
Qed.

(** ** Waiting *)

Lemma count_app l k : count (l ++ k) = count l + count k.
Proof. unfold count. rewrite waiters_app, length_app. lia. Qed.
Lemma count_cons e l : count (e :: l) = (if valid e then 1 else 0) + count l.
Proof. unfold count. rewrite waiters_cons, length_app. destruct (valid e); cbn; lia. Qed.

Lemma elem_waiters_insert pre e e' post x :
  x ∈ waiters (pre ++ e' :: post) → (x = e' ∧ valid e' = true) ∨ x ∈ waiters (pre ++ e :: post).
Proof.
  unfold waiters. rewrite !list_elem_of_filter, !elem_of_app, !elem_of_cons.
  intros [Hv [?|[->|?]]]; tauto.
Qed.

Lemma enqueue_spec a t bits wake f x :
  ok f → threads f !! t = Some x → p_lock x = false →
  if decide (Forall (λ e, valid e = true) (queue f))
  then enqueue a t bits wake f = Panic "No futex Resource!"
  else ∃ i f' pre e post, enqueue a t bits wake f = Ok (i, f') ∧ ok f' ∧
    queue f = pre ++ e :: post ∧ i = length pre ∧ valid e = false ∧ (∀ y, y ∈ pre → valid y = true) ∧
    queue f' = pre ++ mk_entry true a t bits :: post ∧
    threads f' = <[t := match wake with
                        | Some w => mk_thread t_TIMING w (timeout_occurred x) true true
                        | None => mk_thread t_SLEEPING 0 (timeout_occurred x) true true
                        end]> (threads f).
Proof.
  intros [Hl Hlen Hc Hth] Hx Hpl. unfold enqueue, acquire. rewrite Hl. cbn [bind queue threads].
  pose proof (first_free_spec (queue f) 0) as Hff. destruct (first_free 0 (queue f)) as [i|].
  - destruct Hff as (pre & e & post & Hq & -> & Hv & Hpre). rewrite decide_False.
    2:{ intros Hall. rewrite Forall_forall in Hall. rewrite (Hall e) in Hv; [done|]. rewrite Hq. set_solver. }
    rewrite Hx. cbn [of_opt bind]. rewrite Hpl. cbn [bind release fq_lock].
    eexists _, _, pre, e, post. split; [reflexivity|]. cbn [queue threads Nat.add]. rewrite Hq, insert_middle.
    split_and!; try done. split; cbn; [done| | |].
    + rewrite <-Hlen, Hq, !length_app. done.
    + rewrite Hc, Hq, !count_app, !count_cons, Hv. cbn. lia.
    + intros y Hy. apply lookup_insert_is_Some'. apply elem_waiters_insert with (e := e) in Hy as [[-> _]|Hy]; [by left|].
      right. apply Hth. by rewrite Hq.
  - rewrite decide_True; [done|]. by apply Forall_forall.
Qed.

Lemma resume_spec t i f x :
  ok f → threads f !! t = Some x → p_lock x = true → (i < FUTEX_COUNT)%nat →
  ∃ f', futex_wait_resume t i f = Ok f' ∧ ok f' ∧ queue f' = alter clear_entry i (queue f).
Proof.
  intros [Hl Hlen Hc Hth] Hx Hpl Hi. unfold futex_wait_resume. rewrite Hx. cbn [of_opt bind]. rewrite Hpl.
  cbn [bind]. unfold acquire. cbn [fq_lock]. rewrite Hl. cbn [bind queue threads waiting_count].
  destruct (lookup_lt_is_Some_2 (queue f) i) as [e He]; [lia|]. rewrite He. cbn [of_opt bind].
  apply list_elem_of_split_length in He as (pre & post & Hq & ->).
  assert (Hal : alter clear_entry (length pre) (queue f) = pre ++ clear_entry e :: post).
  { rewrite Hq. rewrite list_alter_insert_middle. done. }
  assert (Hths : ∀ y, is_Some (threads f !! y) →
    is_Some (<[t := mk_thread (state x) (awakeTime x) (timeout_occurred x) false (p_runnable x)]> (threads f) !! y)).
  { intros y Hy. apply lookup_insert_is_Some'. by right. }
  destruct (valid e) eqn:Ev; cbn [release fq_lock queue waiting_count threads].
  - eexists. split; [reflexivity|]. cbn [queue]. rewrite Hal.
    assert (Hins : <[length pre := clear_entry e]> (queue f) = pre ++ clear_entry e :: post) by by rewrite Hq, insert_middle.
    rewrite Hins. split; [|done]. split; cbn; [done| | |].
    + rewrite <-Hlen, Hq, !length_app. done.
    + rewrite Hc, Hq, !count_app, !count_cons, Ev. cbn. lia.
    + intros y Hy. apply Hths.
      apply elem_waiters_insert with (e := e) in Hy as [[-> ?]|Hy]; [done|]. apply Hth. by rewrite Hq.
  - eexists. split; [reflexivity|]. cbn [queue]. rewrite Hal.
    assert (clear_entry e = e) as -> by (destruct e; cbn in *; by subst).
    split; [|done]. split; cbn; [done|done|done|]. intros y Hy. by apply Hths, Hth.
Qed.

(** ** Requeueing and clearing *)

Definition on_addr (a : Z) (l : list entry) : list entry := filter (λ e, addr e = a) (waiters l).

Lemma on_addr_cons a e l :
  on_addr a (e :: l) = (if valid e && (addr e =? a) then [e] else []) ++ on_addr a l.
Proof.
  unfold on_addr. rewrite waiters_cons. destruct (valid e); cbn [app andb]; [|done].
  rewrite filter_cons. case_decide as E; destruct (Z.eqb_spec (addr e) a); done || congruence.
Qed.

Lemma requeue_loop_spec a a' n l :
  0 ≤ n →
  let '(l', k) := requeue_loop a a' n l in
  length l' = length l ∧ th <$> waiters l' = th <$> waiters l ∧
  k = Z.min n (Z.of_nat (length (on_addr a l))) ∧
  (a ≠ a' → Z.of_nat (length (on_addr a l')) = Z.of_nat (length (on_addr a l)) - k ∧
            Z.of_nat (length (on_addr a' l')) = Z.of_nat (length (on_addr a' l)) + k).
Proof.
  revert n; induction l as [|e l IH]; intros n Hn; cbn [requeue_loop].
  { cbn. split_and!; try done; lia. }
  destruct (Z.ltb_spec 0 n).
  2:{ split_and!; try done; try lia. }
  rewrite !on_addr_cons. destruct (valid e && (addr e =? a)) eqn:E.
  - specialize (IH (n - 1) ltac:(lia)). destruct (requeue_loop a a' (n - 1) l) as [l' k].
    destruct IH as (Hl & Hw & Hk & Hm). apply andb_true_iff in E as [Ev Ea%Z.eqb_eq].
    rewrite !on_addr_cons, !waiters_cons. cbn [move_entry valid addr]. rewrite Ev, Z.eqb_refl. cbn [andb app length].
    split_and!; [lia|by rewrite !fmap_cons, Hw|lia|]. intros Hne. destruct (Hm Hne).
    destruct (Z.eqb_spec a' a); [congruence|]. destruct (Z.eqb_spec (addr e) a'); [congruence|]. cbn [app length]. lia.
  - specialize (IH n Hn). destruct (requeue_loop a a' n l) as [l' k].
    destruct IH as (Hl & Hw & Hk & Hm). rewrite !on_addr_cons, !waiters_cons, E.
    rewrite !fmap_app, Hw, !length_app. split_and!; [cbn; lia|done|cbn; lia|]. intros Hne. destruct (Hm Hne). cbn [length]. lia.
Qed.

Lemma clear_loop_spec t l :
  let '(l', k) := clear_loop t l in
  length l' = length l ∧ waiters l' = filter (λ e, th e ≠ t) (waiters l) ∧ count l' = count l - k.
Proof.
  induction l as [|e l IH]; cbn [clear_loop]; [done|].
  destruct (clear_loop t l) as [l' k]. destruct IH as (Hl & Hw & Hc).
  rewrite waiters_cons. destruct (valid e) eqn:Ev; cbn [andb app].
  - rewrite filter_cons. destruct (Z.eqb_spec (th e) t).
    + rewrite waiters_cons, decide_False by tauto. cbn [clear_entry valid app]. rewrite !count_cons, Ev.
      split_and!; [cbn; lia|done|cbn; lia].
    + rewrite waiters_cons, Ev, decide_True by done. rewrite !count_cons, Ev. split_and!; [cbn; lia|cbn; by rewrite Hw|lia].
  - rewrite waiters_cons, !count_cons, Ev. split_and!; [cbn; lia|done|lia].
Qed.

(** Replacing the queue by one with the same threads waiting. *)
Lemma ok_threads_of f l (ths : gmap Z thread) :
  (∀ e, e ∈ waiters (queue f) → is_Some (threads f !! th e)) →
  (∀ t, t ∈ th <$> waiters l → t ∈ th <$> waiters (queue f)) →
  (∀ t, is_Some (threads f !! t) → is_Some (ths !! t)) →
  ∀ e, e ∈ waiters l → is_Some (ths !! th e).
Proof.
  intros Hth Hsub Hk e He. apply Hk. assert (th e ∈ th <$> waiters (queue f)) as Hin.
  { apply Hsub. apply list_elem_of_fmap_2. done. }
  apply list_elem_of_fmap in Hin as (e' & -> & He'). by apply Hth.
Qed.

Lemma addr_partition a (l : list entry) :
  length l = (length (filter (λ e, addr e = a) l) + length (filter (λ e, (addr e =? a)%Z ≠ true) l))%nat.
Proof.
  induction l as [|e l IH]; [done|]. rewrite !filter_cons.
  destruct (Z.eqb_spec (addr e) a); repeat case_decide; cbn; try lia; tauto.
Qed.

Lemma cmp_requeue_spec a v a' nw nr f :
  ok f → 0 ≤ nw → 0 ≤ nr →
  ∃ f' ws k, futex_cmp_requeue a v a' nw nr f = Ok (Z.of_nat (length ws) + k, f') ∧ ok f' ∧
    ws = take (Z.to_nat nw) (filter (λ e, (addr e =? a) = true) (waiters (queue f))) ∧
    woken_threads ws (threads f) (threads f') ∧
    k = Z.min nr (Z.of_nat (length (on_addr a (queue f)) - length ws)).
Proof.
  intros [Hl Hlen Hc Hth] Hnw Hnr. unfold futex_cmp_requeue, acquire. rewrite Hl. cbn [bind queue threads].
  pose proof (wake_loop_spec (λ e, addr e =? a) nw (queue f) (threads f) Hth) as Hw.
  destruct (take_first (λ e, addr e =? a) nw (waiters (queue f))) as [ws rest] eqn:E.
  destruct Hw as (l1 & ths' & -> & Hw & Hlen1 & Hths). cbn [bind fq_lock waiting_count].
  destruct (take_first_spec _ nw _ ws rest Hnw E) as (Hws & Hsum & Hin & Hf).
  pose proof (requeue_loop_spec a a' nr l1 Hnr) as Hrq. destruct (requeue_loop a a' nr l1) as [l2 k].
  destruct Hrq as (Hlen2 & Hth2 & Hk & _). cbn [bind release fq_lock].
  assert (Hcnt : length (on_addr a (queue f)) = (length ws + length (on_addr a l1))%nat).
  { unfold on_addr. rewrite Hw.
    pose proof (addr_partition a (waiters (queue f))). pose proof (addr_partition a rest). rewrite Hf in *. lia. }
  eexists _, ws, k. split; [reflexivity|]. split_and!; try done; [split; cbn|].
  - done.
  - congruence.
  - assert (Hc2 : count l2 = count l1).
    { unfold count. pose proof (f_equal length Hth2) as Hx. rewrite !length_fmap in Hx. lia. }
    rewrite Hc2. unfold count in *. rewrite Hc, Hw. lia.
  - apply (ok_threads_of f l2 ths'); [done| |intros t; by apply (woken_is_Some ws)].
    intros t. rewrite Hth2, Hw, !list_elem_of_fmap. intros (e & -> & He). exists e. split; [done|]. apply Hin. by right.
  - rewrite Hk, Hcnt. f_equal. f_equal. lia.
Qed.

Lemma clear_spec t f :
  ok f → ∃ f', futex_clear t f = Ok f' ∧ ok f' ∧ threads f' = threads f ∧
    waiters (queue f') = filter (λ e, th e ≠ t) (waiters (queue f)).
Proof.
  intros [Hl Hlen Hc Hth]. unfold futex_clear, acquire. rewrite Hl. cbn [bind queue].
  pose proof (clear_loop_spec t (queue f)) as Hcl. destruct (clear_loop t (queue f)) as [l k].
  destruct Hcl as (Hlen' & Hw & Hcnt). cbn [release fq_lock waiting_count threads].
  eexists. split; [reflexivity|]. split_and!; try done. split; cbn [fq_lock queue waiting_count threads]; [done|congruence|lia|].
  intros e He. apply Hth. rewrite Hw in He. by apply list_elem_of_filter in He as [_ He].
Qed.

End Futex.
