(* ===== verification/FutexSpec.v ===== *)
(** * What futexes guarantee

    The theorems on kernel/futex.c, and three defects. *)

From S2P Require Import Prelude FutexDefs Futex.
Import FutexDefs Futex.

Module FutexSpec.

(** The system at boot with three threads. *)
Definition idle : thread := mk_thread t_RUNNING 0 0 false false.
Definition boot : futex :=
  futex_init (mk_futex (replicate FUTEX_COUNT (mk_entry false 0 0 0)) false 0
                (<[1 := idle]> (<[2 := idle]> (<[3 := idle]> ∅)))).

Lemma boot_ok : ok boot.
Proof.
  split; [done|done|reflexivity|].
  intros e He. exfalso. unfold waiters in He. apply list_elem_of_filter in He as [Hv He].
  unfold boot, futex_init in He. cbn [queue] in He. apply list_elem_of_fmap in He as (x & -> & _). done.
Qed.



(** ** Sequences of operations *)

(** The operations that take the queue lock.  A thread waits only when it
    does not hold its process's lock and resumes holding it. *)
Inductive op : futex → futex → Prop :=
| op_wait a t ts now f i f' x :
    threads f !! t = Some x → p_lock x = false → futex_wait a t ts now f = Ok (i, f') → op f f'
| op_wait_bitset a t ts bits f i f' x :
    threads f !! t = Some x → p_lock x = false → futex_wait_bitset a t ts bits f = Ok (i, f') → op f f'
| op_resume t i f f' x :
    threads f !! t = Some x → p_lock x = true → (i < FUTEX_COUNT)%nat →
    futex_wait_resume t i f = Ok f' → op f f'
| op_wake a n f k f' : 0 ≤ n → futex_wake a n f = Ok (k, f') → op f f'
| op_wake_bitset a n bits f k f' : 0 ≤ n → futex_wake_bitset a n bits f = Ok (k, f') → op f f'
| op_cmp_requeue a v a' nw nr f k f' :
    0 ≤ nw → 0 ≤ nr → futex_cmp_requeue a v a' nw nr f = Ok (k, f') → op f f'
| op_clear t f f' : futex_clear t f = Ok f' → op f f'.

Lemma enqueue_ok a t bits wake f x i f' :
  ok f → threads f !! t = Some x → p_lock x = false → enqueue a t bits wake f = Ok (i, f') → ok f'.
Proof.
  intros Hok Hx Hp Hop. pose proof (enqueue_spec a t bits wake f x Hok Hx Hp) as H. case_decide.
  - congruence.
  - destruct H as (i' & f'' & pre & e & post & Hop' & Hok' & _). rewrite Hop in Hop'. by injection Hop' as <- <-.
Qed.

Lemma op_ok f f' : op f f' → ok f → ok f'.
Proof.
  intros Hop Hok. destruct Hop as [a t ts now f i f' x Hx Hp H|a t ts bits f i f' x Hx Hp H|t i f f' x Hx Hp Hi H
    |a n f k f' Hn H|a n bits f k f' Hn H|a v a' nw nr f k f' Hw Hr H|t f f' H].
  - by apply (enqueue_ok _ _ _ _ f x i f' Hok Hx Hp H).
  - by apply (enqueue_ok _ _ _ _ f x i f' Hok Hx Hp H).
  - destruct (resume_spec t i f x Hok Hx Hp Hi) as (f'' & H' & ? & _). congruence.
  - destruct (wake_spec (λ e, addr e =? a) n f Hok Hn) as (f'' & ws & H' & ? & _).
    unfold futex_wake in H. rewrite H in H'. by injection H' as _ <-.
  - destruct (wake_spec (λ e, (addr e =? a) && truthy (Z.land (bitset e) bits)) n f Hok Hn) as (f'' & ws & H' & ? & _).
    unfold futex_wake_bitset in H. rewrite H in H'. by injection H' as _ <-.
  - destruct (cmp_requeue_spec a v a' nw nr f Hok Hw Hr) as (f'' & ws & k' & H' & ? & _).
    rewrite H in H'. by injection H' as _ <-.
  - destruct (clear_spec t f Hok) as (f'' & H' & ? & _). congruence.
Qed.



(** A wait takes the first free entry of the queue for the calling thread
    and puts it to sleep (or to a timed sleep), holding its process's lock for
    the scheduler; it panics exactly when all 2048 entries are taken. *)
Theorem futex_wait_correct a t ts now f x :
  ok f → threads f !! t = Some x → p_lock x = false →
  (Forall (λ e, valid e = true) (queue f) → futex_wait a t ts now f = Panic "No futex Resource!") ∧
  (¬ Forall (λ e, valid e = true) (queue f) →
   ∃ pre e post f', futex_wait a t ts now f = Ok (length pre, f') ∧ ok f' ∧
     queue f = pre ++ e :: post ∧ valid e = false ∧ (∀ y, y ∈ pre → valid y = true) ∧
     queue f' = pre ++ mk_entry true a t 0xffffffff :: post ∧
     state <$> (threads f' !! t) = Some (match ts with Some _ => t_TIMING | None => t_SLEEPING end)).
Proof.
  intros Hok Hx Hp.
  pose proof (enqueue_spec a t 0xffffffff ((λ z, u64 (ns z + ns now)) <$> ts) f x Hok Hx Hp) as H.
  unfold futex_wait. case_decide as Hd; split; intros Hf; try done.
  destruct H as (i & f' & pre & e & post & Hop & Hok' & Hq & -> & Hv & Hpre & Hq' & Hths).
  exists pre, e, post, f'. split_and!; try done. rewrite Hths, lookup_insert_eq. by destruct ts.
Qed.

Lemma boot_free : ¬ Forall (λ e, valid e = true) (queue boot).
Proof.
  intros H. apply (Forall_lookup_1 _ _ 0 (mk_entry false 0 0 0xffffffff)) in H; [done|]. reflexivity.
Qed.

Lemma futex_wait_witness : ∃ f', futex_wait 4096 1 None (mk_ts 0 0) boot = Ok (0%nat, f') ∧ ok f'.
Proof.
  destruct (futex_wait_correct 4096 1 None (mk_ts 0 0) boot idle boot_ok) as [_ H].
  - reflexivity.
  - reflexivity.
  - destruct (H boot_free) as (pre & e & post & f' & Hop & Hok & Hq & _ & Hpre & _).
    exists f'. split; [|exact Hok]. destruct pre as [|y pre]; [exact Hop|].
    exfalso. injection Hq as Hy _. specialize (Hpre y ltac:(left)). subst y. discriminate.
Defined.

(** [futex_cmp_requeue] wakes the first [nr_wake] waiters of the address,
    moves up to [nr_requeue] of the remaining ones to the new address and
    returns the total; the queue stays sound.  The value expected at the
    address plays no part: the call never returns -EAGAIN. *)
Theorem futex_cmp_requeue_correct a v v' a' nw nr f :
  ok f → 0 ≤ nw → 0 ≤ nr →
  futex_cmp_requeue a v a' nw nr f = futex_cmp_requeue a v' a' nw nr f ∧
  ∃ f' ws k, futex_cmp_requeue a v a' nw nr f = Ok (Z.of_nat (length ws) + k, f') ∧ ok f' ∧
    ws = take (Z.to_nat nw) (filter (λ e, (addr e =? a) = true) (waiters (queue f))) ∧
    woken_threads ws (threads f) (threads f') ∧
    k = Z.min nr (Z.of_nat (length (on_addr a (queue f)) - length ws)).
Proof. intros Hok Hw Hr. split; [done|]. by apply cmp_requeue_spec. Qed.

Lemma futex_cmp_requeue_witness : ∃ f', futex_cmp_requeue 4096 7 8192 1 1 boot = Ok (0, f') ∧ ok f'.
Proof.
  destruct (futex_cmp_requeue_correct 4096 7 0 8192 1 1 boot boot_ok ltac:(lia) ltac:(lia)) as [_ H].
  destruct H as (f' & ws & k & Hop & Hok & Hws & _ & Hk). exists f'. split; [|exact Hok].
  rewrite Hop. subst k ws. reflexivity.
Defined.

(** ** Defects *)

(** Thread 1 waits, thread 2 wakes it, thread 3 waits on the same address (it
    gets the freed entry), and only then thread 1 runs again. *)
Definition after_race : res futex :=
  let* (i, f) := futex_wait 4096 1 None (mk_ts 0 0) boot in
  let* (k, f) := futex_wake 4096 1 f in
  let* (j, f) := futex_wait 4096 3 None (mk_ts 0 0) f in
  futex_wait_resume 1 i f.

(** A lost waiter: when a woken thread resumes after its queue entry has
    been taken by another waiter, it clears that waiter's entry; the other
    thread keeps sleeping, and a wake of the address finds nobody. *)
Theorem futex_resume_drops_other_waiter :
  ∃ f f', after_race = Ok f ∧ state <$> (threads f !! 3) = Some t_SLEEPING ∧
    waiters (queue f) = [] ∧ futex_wake 4096 1 f = Ok (0, f').
Proof. eexists _, _. split_and!; vm_compute; reflexivity. Qed.

(** [futex_requeue] wakes waiters without taking them off the counter:
    after one such wake the counter is one too high. *)
Theorem futex_requeue_miscounts :
  ∃ i f f', futex_wait 4096 1 None (mk_ts 0 0) boot = Ok (i, f) ∧ futex_requeue 4096 1 8192 f = Ok f' ∧
    waiting_count f' = 1 ∧ count (queue f') = 0.
Proof. eexists _, _, _. split_and!; vm_compute; reflexivity. Qed.

End FutexSpec.
