(* ===== verification/CStringDefs.v ===== *)
(** * The string and memory library (kernel/string.c), definitions

    Memory is a map from addresses to bytes (0..255); a read or write of an
    address that is not in the map is [Undef].  A pointer is an address, [None]
    is NULL where the code has it.  [char] is unsigned, as on RISC-V.  Loops
    over a string have fuel; the theorems give the fuel that is enough. *)

From S2P Require Import Prelude.

Module CStringDefs.

Abbreviation memory := (gmap Z Z).

Definition load (p : Z) (m : memory) : res Z := of_opt (m !! p).
Definition store (p v : Z) (m : memory) : res memory :=
  let* _ := load p m in Ok (<[p := v]> m).

(** [for (i = 0; i < n; i++) cdst[i] = c]. *)
Definition memset (dst c n : Z) (m : memory) : res memory :=
  for_range 0 n (λ i, store (dst + i) (u8 c)) m.

(** [while (n-- > 0)]. *)
Fixpoint memcmp_loop (n : nat) (s1 s2 : Z) (m : memory) : res Z :=
  match n with
  | O => Ok 0
  | S n =>
      let* a := load s1 m in
      let* b := load s2 m in
      if negb (a =? b) then Ok (a - b) else memcmp_loop n (s1 + 1) (s2 + 1) m
  end.
Definition memcmp (v1 v2 n : Z) (m : memory) : res Z := memcmp_loop (Z.to_nat n) v1 v2 m.

(** [while (n-- > 0) *--d = *--s], both pointers already at the end. *)
Fixpoint copy_back (n : nat) (s d : Z) (m : memory) : res memory :=
  match n with
  | O => Ok m
  | S n =>
      let* b := load (s + Z.of_nat n) m in
      let* m := store (d + Z.of_nat n) b m in
      copy_back n s d m
  end.

(** [while (n-- > 0) *d++ = *s++]. *)
Fixpoint copy_fwd (n : nat) (s d : Z) (m : memory) : res memory :=
  match n with
  | O => Ok m
  | S n =>
      let* b := load s m in
      let* m := store d b m in
      copy_fwd n (s + 1) (d + 1) m
  end.

Definition memmove (dst src n : Z) (m : memory) : res memory :=
  if (src <? dst) && (dst <? src + n)
  then copy_back (Z.to_nat n) src dst m
  else copy_fwd (Z.to_nat n) src dst m.

Definition memcpy (dst src n : Z) (m : memory) : res memory := memmove dst src n m.

(** [while (n > 0 && *p && *p == *q) n--, p++, q++]. *)
Fixpoint strncmp_loop (n : nat) (p q : Z) (m : memory) : res Z :=
  match n with
  | O => Ok 0
  | S n =>
      let* a := load p m in
      if truthy a then
        let* b := load q m in
        if a =? b then strncmp_loop n (p + 1) (q + 1) m else Ok (a - b)
      else let* b := load q m in Ok (a - b)
  end.
Definition strncmp (p q n : Z) (m : memory) : res Z := strncmp_loop (Z.to_nat n) p q m.

(** [while (n-- > 0) *s++ = 0]. *)
Fixpoint pad_zero (n : nat) (s : Z) (m : memory) : res memory :=
  match n with
  | O => Ok m
  | S n => let* m := store s 0 m in pad_zero n (s + 1) m
  end.

(** [while (n-- > 0 && ( *s++ = *t++) != 0);] and the padding. *)
Fixpoint strncpy_loop (n : nat) (s t : Z) (m : memory) : res memory :=
  match n with
  | O => Ok m
  | S n =>
      let* b := load t m in
      let* m := store s b m in
      if truthy b then strncpy_loop n (s + 1) (t + 1) m else pad_zero n (s + 1) m
  end.
Definition strncpy (s t n : Z) (m : memory) : res memory := strncpy_loop (Z.to_nat n) s t m.

(** [while (--n > 0 && ( *s++ = *t++) != 0); *s = 0;]: [n] is the count after
    the first decrement. *)
Fixpoint safestrcpy_loop (n : nat) (s t : Z) (m : memory) : res memory :=
  match n with
  | O => store s 0 m
  | S n =>
      let* b := load t m in
      let* m := store s b m in
      if truthy b then safestrcpy_loop n (s + 1) (t + 1) m else store (s + 1) 0 m
  end.
Definition safestrcpy (s t n : Z) (m : memory) : res memory :=
  if n <=? 0 then Ok m else safestrcpy_loop (Z.to_nat (n - 1)) s t m.

Fixpoint strlen_loop (fuel : nat) (s n : Z) (m : memory) : res Z :=
  match fuel with
  | O => NoFuel
  | S fuel =>
      let* b := load (s + n) m in
      if truthy b then strlen_loop fuel s (n + 1) m else Ok n
  end.
Definition strlen (fuel : nat) (s : Z) (m : memory) : res Z := strlen_loop fuel s 0 m.

Fixpoint strcpy (fuel : nat) (s t : Z) (m : memory) : res memory :=
  match fuel with
  | O => NoFuel
  | S fuel =>
      let* b := load t m in
      let* m := store s b m in
      if truthy b then strcpy fuel (s + 1) (t + 1) m else Ok m
  end.

Fixpoint strcmp (fuel : nat) (p q : Z) (m : memory) : res Z :=
  match fuel with
  | O => NoFuel
  | S fuel =>
      let* a := load p m in
      let* b := load q m in
      if truthy a && (a =? b) then strcmp fuel (p + 1) (q + 1) m else Ok (a - b)
  end.

(** [while ( *p) ++p]: the address of the terminator. *)
Fixpoint str_end (fuel : nat) (p : Z) (m : memory) : res Z :=
  match fuel with
  | O => NoFuel
  | S fuel =>
      let* b := load p m in
      if truthy b then str_end fuel (p + 1) m else Ok p
  end.

(** [while ( *src) *p++ = *src++; *p = 0]. *)
Fixpoint append_loop (fuel : nat) (p src : Z) (m : memory) : res memory :=
  match fuel with
  | O => NoFuel
  | S fuel =>
      let* b := load src m in
      if truthy b then
        let* m := store p b m in
        append_loop fuel (p + 1) (src + 1) m
      else store p 0 m
  end.
Definition strcat (fuel : nat) (dest src : Z) (m : memory) : res memory :=
  let* p := str_end fuel dest m in
  append_loop fuel p src m.

(** [while (n-- > 0 && *src != 0) *p++ = *src++; *p = 0]. *)
Fixpoint nappend_loop (n : nat) (p src : Z) (m : memory) : res memory :=
  match n with
  | O => store p 0 m
  | S n =>
      let* b := load src m in
      if truthy b then
        let* m := store p b m in
        nappend_loop n (p + 1) (src + 1) m
      else store p 0 m
  end.
Definition strncat (fuel : nat) (dest src n : Z) (m : memory) : res memory :=
  let* p := str_end fuel dest m in
  nappend_loop (Z.to_nat n) p src m.

(** [while ( *s) { if ( *s == (char)c) last = s; s++; }]. *)
Fixpoint strrchr_loop (fuel : nat) (s c : Z) (last : option Z) (m : memory) : res (option Z) :=
  match fuel with
  | O => NoFuel
  | S fuel =>
      let* b := load s m in
      if truthy b then strrchr_loop fuel (s + 1) c (if b =? u8 c then Some s else last) m
      else Ok (if c =? 0 then Some s else last)
  end.
Definition strrchr (fuel : nat) (s c : Z) (m : memory) : res (option Z) := strrchr_loop fuel s c None m.

Fixpoint strchr (fuel : nat) (s c : Z) (m : memory) : res (option Z) :=
  match fuel with
  | O => NoFuel
  | S fuel =>
      let* b := load s m in
      if truthy b then
        if b =? u8 c then Ok (Some s) else strchr fuel (s + 1) c m
      else Ok (if c =? 0 then Some s else None)
  end.

(** The inner loop of [strstr]: does [p2] match at [s1]? *)
Fixpoint match_at (fuel : nat) (s1 s2 : Z) (m : memory) : res bool :=
  match fuel with
  | O => NoFuel
  | S fuel =>
      let* a := load s1 m in
      if truthy a then
        let* b := load s2 m in
        if truthy b && (a =? b) then match_at fuel (s1 + 1) (s2 + 1) m else Ok (negb (truthy b))
      else let* b := load s2 m in Ok (negb (truthy b))
  end.
Fixpoint strstr_loop (fuel : nat) (current p2 : Z) (m : memory) : res (option Z) :=
  match fuel with
  | O => NoFuel
  | S fuel' =>
      let* a := load current m in
      if truthy a then
        let* b := match_at fuel current p2 m in
        if b then Ok (Some current) else strstr_loop fuel' (current + 1) p2 m
      else Ok None
  end.
Definition strstr (fuel : nat) (p1 p2 : Z) (m : memory) : res (option Z) :=
  let* b := load p2 m in
  if truthy b then strstr_loop fuel p1 p2 m else Ok (Some p1).

Definition is_space (c : Z) : bool :=
  (c =? 32) || (c =? 9) || (c =? 10) || (c =? 13) || (c =? 12) || (c =? 11).
Definition is_digit (c : Z) : bool := (48 <=? c) && (c <=? 57).

Fixpoint skip_space (fuel : nat) (s : Z) (m : memory) : res Z :=
  match fuel with
  | O => NoFuel
  | S fuel =>
      let* b := load s m in
      if is_space b then skip_space fuel (s + 1) m else Ok s
  end.

(** A result outside [int] is undefined behaviour in C. *)
Definition int_ok (z : Z) : bool := (- 2 ^ 31 <=? z) && (z <? 2 ^ 31).
Fixpoint atoi_digits (fuel : nat) (s result : Z) (m : memory) : res Z :=
  match fuel with
  | O => NoFuel
  | S fuel =>
      let* b := load s m in
      if is_digit b then
        let r := result * 10 + (b - 48) in
        if int_ok r then atoi_digits fuel (s + 1) r m else Undef
      else Ok result
  end.
Definition atoi (fuel : nat) (str : Z) (m : memory) : res Z :=
  let* s := skip_space fuel str m in
  let* b := load s m in
  let '(sign, s) := if b =? 45 then (-1, s + 1) else if b =? 43 then (1, s + 1) else (1, s) in
  let* r := atoi_digits fuel s 0 m in
  Ok (sign * r).

(** Is [c] one of the delimiters? *)
Fixpoint is_delim (fuel : nat) (c d : Z) (m : memory) : res bool :=
  match fuel with
  | O => NoFuel
  | S fuel =>
      let* b := load d m in
      if truthy b then if c =? b then Ok true else is_delim fuel c (d + 1) m else Ok false
  end.

(** [while ( *last_str) ...]: moves over characters that are (or are not)
    delimiters. *)
Fixpoint skip_delims (fuel : nat) (skip : bool) (s delim : Z) (m : memory) : res Z :=
  match fuel with
  | O => NoFuel
  | S fuel' =>
      let* b := load s m in
      if truthy b then
        let* d := is_delim fuel b delim m in
        if Bool.eqb d skip then skip_delims fuel' skip (s + 1) delim m else Ok s
      else Ok s
  end.

(** The state is the static variable [last_str]. *)
Definition strtok (fuel : nat) (str : option Z) (delim : Z) (last_str : option Z) (m : memory)
    : res (option Z * option Z * memory) :=
  match (match str with Some s => Some s | None => last_str end) with
  | None => Ok (None, None, m)
  | Some s =>
      let* s := skip_delims fuel true s delim m in
      let* b := load s m in
      if negb (truthy b) then Ok (None, None, m)
      else
        let token_start := s in
        let* s := skip_delims fuel false s delim m in
        let* b := load s m in
        if truthy b then
          let* m := store s 0 m in
          Ok (Some token_start, Some (s + 1), m)
        else Ok (Some token_start, None, m)
  end.

End CStringDefs.
