(* ===== verification/CString.v ===== *)
(** * Correctness of the string and memory library

    [bytes_of m p bs]: memory holds the bytes [bs] at [p]; [cstr m p s]: a
    NUL-terminated string with the characters [s] is at [p]. *)

From S2P Require Import Prelude CStringDefs.
Import CStringDefs.

Module CString.

Definition bytes_of (m : memory) (p : Z) (bs : list Z) : Prop :=
  ∀ i c, bs !! i = Some c → m !! (p + Z.of_nat i) = Some c.

Definition cstr (m : memory) (p : Z) (s : list Z) : Prop :=
  bytes_of m p (s ++ [0]) ∧ Forall (λ c, 0 < c < 256) s.

(** The addresses [p .. p+n-1] can be accessed. *)
Definition live (m : memory) (p n : Z) : Prop := ∀ a, p ≤ a < p + n → is_Some (m !! a).

Lemma bytes_of_cons m p c bs : bytes_of m p (c :: bs) ↔ m !! p = Some c ∧ bytes_of m (p + 1) bs.
Proof.
  split.
  - intros H. split; [rewrite <-(H O c eq_refl); f_equal; lia|].
    intros i x Hi. rewrite <-(H (S i) x Hi). f_equal. lia.
  - intros [Hp H] [|i] x Hi; [injection Hi as <-; rewrite <-Hp; f_equal; lia|].
    rewrite <-(H i x Hi). f_equal. lia.
Qed.

Lemma bytes_of_app m p bs cs :
  bytes_of m p (bs ++ cs) ↔ bytes_of m p bs ∧ bytes_of m (p + Z.of_nat (length bs)) cs.
Proof.
  revert p; induction bs as [|b bs IH]; intros p; cbn [app length].
  - rewrite Z.add_0_r. split; [by split|tauto].
  - rewrite !bytes_of_cons, IH. replace (p + 1 + Z.of_nat (length bs)) with (p + Z.of_nat (S (length bs))) by lia. tauto.
Qed.

Lemma bytes_of_ext m m' p bs :
  (∀ a, p ≤ a < p + Z.of_nat (length bs) → m' !! a = m !! a) → bytes_of m p bs → bytes_of m' p bs.
Proof.
  intros He H i c Hi. pose proof (lookup_lt_Some _ _ _ Hi). rewrite He by lia. by apply H.
Qed.

Lemma load_ok m p c : m !! p = Some c → load p m = Ok c.
Proof. intros H. unfold load. by rewrite H. Qed.

Lemma store_ok m p v : is_Some (m !! p) → store p v m = Ok (<[p := v]> m).
Proof. intros [x H]. unfold store, load. by rewrite H. Qed.

Lemma cstr_cons m p c s : cstr m p (c :: s) ↔ m !! p = Some c ∧ 0 < c < 256 ∧ cstr m (p + 1) s.
Proof. unfold cstr. cbn [app]. rewrite bytes_of_cons, Forall_cons. tauto. Qed.

Lemma cstr_nil m p : cstr m p [] ↔ m !! p = Some 0.
Proof.
  unfold cstr. cbn [app]. rewrite bytes_of_cons. split; [tauto|]. intros H. split_and!; [done| |constructor].
  by intros i c Hi.
Qed.

Lemma cstr_ext m m' p s :
  (∀ a, p ≤ a ≤ p + Z.of_nat (length s) → m' !! a = m !! a) → cstr m p s → cstr m' p s.
Proof.
  intros He [Hb Hc]. split; [|done]. apply (bytes_of_ext m); [|done].
  intros a Ha. rewrite length_app in Ha. cbn in Ha. apply He. lia.
Qed.

Lemma truthy_pos c : 0 < c → truthy c = true.
Proof. intros. unfold truthy. by rewrite (proj2 (Z.eqb_neq _ _)) by lia. Qed.

(** ** memmove *)

(** The memory after [bs] has been written at [dst]. *)
Definition written (m m' : memory) (dst : Z) (bs : list Z) : Prop :=
  ∀ a, m' !! a = if decide (dst ≤ a < dst + Z.of_nat (length bs))
                 then bs !! Z.to_nat (a - dst) else m !! a.

Lemma copy_fwd_spec n m src dst bs :
  length bs = n → bytes_of m src bs → live m dst (Z.of_nat n) →
  ¬ (src < dst < src + Z.of_nat n) →
  ∃ m', copy_fwd n src dst m = Ok m' ∧ written m m' dst bs.
Proof.
  revert m src dst bs; induction n as [|n IH]; intros m src dst bs Hlen Hb Hl Hno.
  - destruct bs; [|done]. exists m. split; [done|]. intros a. by rewrite decide_False by (cbn; lia).
  - destruct bs as [|b bs]; [done|]. injection Hlen as Hlen. apply bytes_of_cons in Hb as [Hp Hb]. cbn [copy_fwd].
    rewrite (load_ok _ _ _ Hp). cbn [bind]. rewrite store_ok by (apply Hl; lia). cbn [bind].
    destruct (IH (<[dst := b]> m) (src + 1) (dst + 1) bs) as (m' & -> & Hw); [done| | |lia|].
    + apply (bytes_of_ext m); [|done]. intros a Ha. rewrite lookup_insert_ne by lia. done.
    + intros a Ha. apply lookup_insert_is_Some'. right. apply Hl. lia.
    + exists m'. split; [done|]. intros a. rewrite (Hw a). cbn [length].
      repeat case_decide; try lia.
      * by replace (Z.to_nat (a - dst)) with (S (Z.to_nat (a - (dst + 1)))) by lia.
      * assert (a = dst) as -> by lia. by rewrite Z.sub_diag, lookup_insert_eq.
      * by rewrite lookup_insert_ne by lia.
Qed.

Lemma copy_back_spec n m src dst bs :
  length bs = n → bytes_of m src bs → live m dst (Z.of_nat n) → src < dst →
  ∃ m', copy_back n src dst m = Ok m' ∧ written m m' dst bs.
Proof.
  revert m bs; induction n as [|n IH]; intros m bs Hlen Hb Hl Hlt.
  - destruct bs; [|done]. exists m. split; [done|]. intros a. by rewrite decide_False by (cbn; lia).
  - destruct bs as [|b bs _] using rev_ind; [done|]. rewrite length_app in Hlen. cbn in Hlen.
    assert (Hn : length bs = n) by lia. clear Hlen. apply bytes_of_app in Hb as [Hb Hlast].
    apply bytes_of_cons in Hlast as [Hlast _]. rewrite Hn in Hlast. cbn [copy_back].
    rewrite (load_ok _ _ _ Hlast). cbn [bind]. rewrite store_ok by (apply Hl; lia). cbn [bind].
    destruct (IH (<[dst + Z.of_nat n := b]> m) bs) as (m' & -> & Hw); [done| | |done|].
    + apply (bytes_of_ext m); [|done]. intros a Ha. rewrite lookup_insert_ne by lia. done.
    + intros a Ha. apply lookup_insert_is_Some'. right. apply Hl. lia.
    + exists m'. split; [done|]. intros a. rewrite (Hw a), length_app. cbn [length].
      repeat case_decide; try lia.
      * rewrite lookup_app_l by lia. done.
      * assert (a = dst + Z.of_nat n) as -> by lia. rewrite lookup_insert_eq, lookup_app_r by lia.
        by replace (Z.to_nat (dst + Z.of_nat n - dst) - length bs)%nat with O by lia.
      * by rewrite lookup_insert_ne by lia.
Qed.

Lemma memmove_written m src dst n bs :
  0 ≤ n → Z.of_nat (length bs) = n → bytes_of m src bs → live m dst n →
  ∃ m', memmove dst src n m = Ok m' ∧ written m m' dst bs.
Proof.
  intros Hn Hlen Hb Hl. unfold memmove.
  assert (Hln : Z.of_nat (Z.to_nat n) = n) by lia.
  destruct (Z.ltb_spec src dst), (Z.ltb_spec dst (src + n)); cbn [andb].
  1: apply copy_back_spec; [lia|done|by rewrite Hln|lia].
  all: apply copy_fwd_spec; [lia|done|by rewrite Hln|lia].
Qed.

(** ** Comparison *)

(** The difference of the first bytes in which two strings differ. *)
Fixpoint diff (s t : list Z) : Z :=
  match s, t with
  | [], [] => 0
  | [], b :: _ => - b
  | a :: _, [] => a
  | a :: s, b :: t => if a =? b then diff s t else a - b
  end.

(** Lexicographic order. *)
Fixpoint lex_lt (s t : list Z) : Prop :=
  match s, t with
  | _, [] => False
  | [], _ :: _ => True
  | a :: s, b :: t => a < b ∨ (a = b ∧ lex_lt s t)
  end.

Lemma diff_spec s t :
  Forall (λ c, 0 < c < 256) s → Forall (λ c, 0 < c < 256) t →
  (diff s t = 0 ↔ s = t) ∧ (diff s t < 0 ↔ lex_lt s t).
Proof.
  revert t; induction s as [|a s IH]; intros [|b t] Hs Ht; cbn; try done.
  - apply Forall_cons in Ht as [? _]. split; [split; [lia|done]|split; [done|lia]].
  - apply Forall_cons in Hs as [? _]. split; [split; [lia|done]|split; [lia|done]].
  - apply Forall_cons in Hs as [? Hs], Ht as [? Ht]. destruct (Z.eqb_spec a b) as [->|Hne].
    + destruct (IH t Hs Ht) as [-> ->]. split; [split; [by intros ->|by intros [= ->]]|]. split; [by right|].
      intros [?|[_ ?]]; [lia|done].
    + split; [split; [lia|intros [=]; lia]|]. split; [left; lia|intros [?|[? _]]; lia].
Qed.

Lemma strcmp_spec fuel m p q s t :
  cstr m p s → cstr m q t → (length s < fuel)%nat → strcmp fuel p q m = Ok (diff s t).
Proof.
  revert p q s t; induction fuel as [|fuel IH]; intros p q s t Hs Ht Hf; [lia|]. cbn [strcmp].
  destruct s as [|a s].
  - apply cstr_nil in Hs. rewrite (load_ok _ _ _ Hs). cbn [bind truthy Z.eqb negb andb].
    destruct t as [|b t]; [apply cstr_nil in Ht; by rewrite (load_ok _ _ _ Ht)|].
    apply cstr_cons in Ht as (Hb & _). by rewrite (load_ok _ _ _ Hb).
  - apply cstr_cons in Hs as (Ha & Hpos & Hs). rewrite (load_ok _ _ _ Ha). cbn [bind].
    rewrite truthy_pos by lia. destruct t as [|b t].
    + apply cstr_nil in Ht. rewrite (load_ok _ _ _ Ht). cbn [bind andb diff].
      rewrite (proj2 (Z.eqb_neq _ _)) by lia. by rewrite Z.sub_0_r.
    + apply cstr_cons in Ht as (Hb & _ & Ht). rewrite (load_ok _ _ _ Hb). cbn [bind andb diff].
      destruct (a =? b); [|done]. apply IH; [done|done|cbn in Hf; lia].
Qed.

Lemma strncmp_spec n m p q s t :
  cstr m p s → cstr m q t → strncmp_loop n p q m = Ok (diff (take n s) (take n t)).
Proof.
  revert p q s t; induction n as [|n IH]; intros p q s t Hs Ht; [done|]. cbn [strncmp_loop].
  destruct s as [|a s].
  - apply cstr_nil in Hs. rewrite (load_ok _ _ _ Hs). cbn [bind truthy Z.eqb negb].
    destruct t as [|b t]; [apply cstr_nil in Ht; by rewrite (load_ok _ _ _ Ht)|].
    apply cstr_cons in Ht as (Hb & _). by rewrite (load_ok _ _ _ Hb).
  - apply cstr_cons in Hs as (Ha & Hpos & Hs). rewrite (load_ok _ _ _ Ha). cbn [bind].
    rewrite truthy_pos by lia. destruct t as [|b t].
    + apply cstr_nil in Ht. rewrite (load_ok _ _ _ Ht). cbn [bind take diff].
      rewrite (proj2 (Z.eqb_neq _ _)) by lia. by rewrite Z.sub_0_r.
    + apply cstr_cons in Ht as (Hb & _ & Ht). rewrite (load_ok _ _ _ Hb). cbn [bind take diff].
      destruct (a =? b); [|done]. by apply IH.
Qed.

Lemma strlen_spec fuel m p s n :
  cstr m (p + n) s → (length s < fuel)%nat → strlen_loop fuel p n m = Ok (n + Z.of_nat (length s)).
Proof.
  revert s n; induction fuel as [|fuel IH]; intros s n Hs Hf; [lia|]. cbn [strlen_loop]. destruct s as [|a s].
  - apply cstr_nil in Hs. rewrite (load_ok _ _ _ Hs). cbn. by rewrite Z.add_0_r.
  - apply cstr_cons in Hs as (Ha & Hpos & Hs). rewrite (load_ok _ _ _ Ha). cbn [bind]. rewrite truthy_pos by lia.
    rewrite (IH s); [f_equal; cbn; lia|by replace (p + (n + 1)) with (p + n + 1) by lia|cbn in Hf; lia].
Qed.

(** ** Copying *)

Definition same_outside (m m' : memory) (lo hi : Z) : Prop := ∀ a, ¬ (lo ≤ a < hi) → m' !! a = m !! a.

(** The source string lies outside the buffer [lo .. hi-1]. *)
Definition apart (t : Z) (str : list Z) (lo hi : Z) : Prop :=
  t + Z.of_nat (length str) < lo ∨ hi ≤ t.

Lemma cstr_store m t str a v : cstr m t str → apart t str a (a + 1) → cstr (<[a := v]> m) t str.
Proof.
  intros Hc Hap. apply (cstr_ext m); [|done]. intros x Hx. rewrite lookup_insert_ne; [done|].
  unfold apart in Hap. lia.
Qed.

Lemma live_store m p n a v : live m p n → live (<[a := v]> m) p n.
Proof. intros H x Hx. apply lookup_insert_is_Some'. right. by apply H. Qed.

Lemma live_sub m p n q k : live m p n → p ≤ q → q + k ≤ p + n → live m q k.
Proof. intros H H1 H2 a Ha. apply H. lia. Qed.

Lemma safestrcpy_loop_spec n m s t str :
  cstr m t str → live m s (Z.of_nat n + 1) → apart t str s (s + Z.of_nat n + 1) →
  ∃ m', safestrcpy_loop n s t m = Ok m' ∧ cstr m' s (take n str) ∧ same_outside m m' s (s + Z.of_nat n + 1).
Proof.
  revert m s t str; induction n as [|n IH]; intros m s t str Hc Hl Hap; cbn [safestrcpy_loop].
  { rewrite store_ok by (apply Hl; lia). eexists; split; [done|]. split.
    - apply cstr_nil. apply lookup_insert_eq.
    - intros a Ha. apply lookup_insert_ne. lia. }
  destruct str as [|a str].
  - apply cstr_nil in Hc as Hc0. rewrite (load_ok _ _ _ Hc0). cbn [bind]. rewrite store_ok by (apply Hl; lia).
    cbn [bind truthy Z.eqb negb]. rewrite store_ok by (apply live_store with (n := Z.of_nat (S n) + 1) (p := s); [done|lia]).
    eexists; split; [done|]. split.
    + apply cstr_nil. rewrite lookup_insert_ne by lia. apply lookup_insert_eq.
    + intros x Hx. rewrite !lookup_insert_ne by lia. done.
  - apply cstr_cons in Hc as (Ha & Hpos & Hc). rewrite (load_ok _ _ _ Ha). cbn [bind].
    rewrite store_ok by (apply Hl; lia). cbn [bind]. rewrite truthy_pos by lia.
    unfold apart in *. cbn [length] in Hap.
    destruct (IH (<[s := a]> m) (s + 1) (t + 1) str) as (m' & -> & Hc' & Hout).
    + apply cstr_store; [done|]. unfold apart. lia.
    + apply live_store. apply (live_sub m s (Z.of_nat (S n) + 1)); [done|lia|lia].
    + unfold apart. lia.
    + exists m'. split; [done|]. cbn [take]. split.
      * apply cstr_cons. split_and!; [|lia|lia|done]. rewrite (Hout s) by lia. apply lookup_insert_eq.
      * intros x Hx. rewrite (Hout x) by lia. rewrite lookup_insert_ne; [done|lia].
Qed.

Lemma pad_zero_spec n m s :
  live m s (Z.of_nat n) →
  ∃ m', pad_zero n s m = Ok m' ∧ bytes_of m' s (replicate n 0) ∧ same_outside m m' s (s + Z.of_nat n).
Proof.
  revert m s; induction n as [|n IH]; intros m s Hl; cbn [pad_zero].
  { exists m. split; [done|]. split; [by intros i c Hi|by intros a]. }
  rewrite store_ok by (apply Hl; lia). cbn [bind].
  destruct (IH (<[s := 0]> m) (s + 1)) as (m' & -> & Hb & Hout).
  { apply live_store. apply (live_sub m s (Z.of_nat (S n))); [done|lia|lia]. }
  exists m'. split; [done|]. split.
  - cbn [replicate]. apply bytes_of_cons. split; [|done]. rewrite (Hout s) by lia. apply lookup_insert_eq.
  - intros x Hx. rewrite (Hout x) by lia. rewrite lookup_insert_ne; [done|lia].
Qed.

Lemma strncpy_loop_spec n m s t str :
  cstr m t str → live m s (Z.of_nat n) → apart t str s (s + Z.of_nat n) →
  ∃ m', strncpy_loop n s t m = Ok m' ∧
    bytes_of m' s (take n str ++ replicate (n - length str) 0) ∧ same_outside m m' s (s + Z.of_nat n).
Proof.
  revert m s t str; induction n as [|n IH]; intros m s t str Hc Hl Hap; cbn [strncpy_loop].
  { exists m. split; [done|]. split; [by intros i c Hi|by intros a]. }
  destruct str as [|a str].
  - apply cstr_nil in Hc as Hc0. rewrite (load_ok _ _ _ Hc0). cbn [bind]. rewrite store_ok by (apply Hl; lia).
    cbn [bind truthy Z.eqb negb].
    destruct (pad_zero_spec n (<[s := 0]> m) (s + 1)) as (m' & -> & Hb & Hout).
    { apply live_store. apply (live_sub m s (Z.of_nat (S n))); [done|lia|lia]. }
    exists m'. split; [done|]. rewrite take_nil. cbn [app length Nat.sub replicate]. split.
    + apply bytes_of_cons. split; [|done]. rewrite (Hout s) by lia. apply lookup_insert_eq.
    + intros x Hx. rewrite (Hout x) by lia. rewrite lookup_insert_ne; [done|lia].
  - apply cstr_cons in Hc as (Ha & Hpos & Hc). rewrite (load_ok _ _ _ Ha). cbn [bind].
    rewrite store_ok by (apply Hl; lia). cbn [bind]. rewrite truthy_pos by lia.
    unfold apart in *. cbn [length] in Hap.
    destruct (IH (<[s := a]> m) (s + 1) (t + 1) str) as (m' & -> & Hb & Hout).
    + apply cstr_store; [done|]. unfold apart. lia.
    + apply live_store. apply (live_sub m s (Z.of_nat (S n))); [done|lia|lia].
    + unfold apart. lia.
    + exists m'. split; [done|]. cbn [take app length Nat.sub]. split.
      * apply bytes_of_cons. split; [|done]. rewrite (Hout s) by lia. apply lookup_insert_eq.
      * intros x Hx. rewrite (Hout x) by lia. rewrite lookup_insert_ne; [done|lia].
Qed.

(** ** Searching *)

Lemma match_at_spec fuel m p q s t :
  cstr m p s → cstr m q t → (length s < fuel)%nat →
  match_at fuel p q m = Ok (bool_decide (t `prefix_of` s)).
Proof.
  revert p q s t; induction fuel as [|fuel IH]; intros p q s t Hs Ht Hf; [lia|]. cbn [match_at].
  destruct s as [|a s].
  - apply cstr_nil in Hs. rewrite (load_ok _ _ _ Hs). cbn [bind truthy Z.eqb negb].
    destruct t as [|b t].
    + apply cstr_nil in Ht. rewrite (load_ok _ _ _ Ht). cbn. by rewrite bool_decide_true by apply prefix_nil.
    + apply cstr_cons in Ht as (Hb & ? & _). rewrite (load_ok _ _ _ Hb). cbn [bind].
      rewrite truthy_pos by lia. by rewrite bool_decide_false by by intros [? ?].
  - apply cstr_cons in Hs as (Ha & Hpos & Hs). rewrite (load_ok _ _ _ Ha). cbn [bind].
    rewrite truthy_pos by lia. destruct t as [|b t].
    + apply cstr_nil in Ht. rewrite (load_ok _ _ _ Ht). cbn. by rewrite bool_decide_true by apply prefix_nil.
    + apply cstr_cons in Ht as (Hb & ? & Ht). rewrite (load_ok _ _ _ Hb). cbn [bind].
      rewrite truthy_pos by lia. cbn [andb]. destruct (Z.eqb_spec a b) as [->|Hne].
      * rewrite (IH _ _ s t) by (done || cbn in Hf; lia). f_equal. apply bool_decide_ext.
        split; [apply prefix_cons|apply prefix_cons_inv_2].
      * cbn. rewrite bool_decide_false; [done|]. intros Hp. by apply prefix_cons_inv_1 in Hp.
Qed.

(** The offset of the first occurrence of [t] in [s]. *)
Fixpoint find_sub (s t : list Z) : option nat :=
  match s with
  | [] => None
  | _ :: s' => if bool_decide (t `prefix_of` s) then Some O else S <$> find_sub s' t
  end.

Lemma find_sub_spec s t :
  t ≠ [] →
  match find_sub s t with
  | Some i => t `prefix_of` drop i s ∧ ∀ j, (j < i)%nat → ¬ t `prefix_of` drop j s
  | None => ∀ j, ¬ t `prefix_of` drop j s
  end.
Proof.
  intros Ht. induction s as [|a s IH]; cbn [find_sub].
  - intros j Hp. rewrite drop_nil in Hp. by apply prefix_nil_inv in Hp.
  - case_bool_decide as Hp; [split; [done|lia]|]. destruct (find_sub s t) as [i|]; cbn.
    + destruct IH as [Hi Hj]. split; [done|]. intros [|j] Hlt; [done|]. apply Hj. lia.
    + intros [|j]; [done|]. apply IH.
Qed.

Lemma strstr_loop_spec fuel m p q s t :
  cstr m p s → cstr m q t → (length s < fuel)%nat →
  strstr_loop fuel p q m = Ok ((λ i, p + Z.of_nat i) <$> find_sub s t).
Proof.
  revert p s; induction fuel as [|fuel IH]; intros p s Hs Ht Hf; [lia|]. cbn [strstr_loop].
  destruct s as [|a s].
  - apply cstr_nil in Hs. by rewrite (load_ok _ _ _ Hs).
  - pose proof Hs as Hs0. apply cstr_cons in Hs as (Ha & Hpos & Hs). rewrite (load_ok _ _ _ Ha). cbn [bind].
    rewrite truthy_pos by lia. rewrite (match_at_spec (S fuel) m p q (a :: s) t Hs0 Ht Hf). cbn [bind find_sub].
    case_bool_decide; [cbn; by rewrite Z.add_0_r|].
    rewrite (IH (p + 1) s Hs Ht) by (cbn in Hf; lia). f_equal. destruct (find_sub s t); cbn; [|done]. f_equal. lia.
Qed.

(** ** Numbers *)

Definition digits_value (ds : list Z) : Z := foldl (λ r d, r * 10 + d) 0 ds.

Lemma digits_ge ds r : 0 ≤ r → Forall (λ d, 0 ≤ d ≤ 9) ds → r ≤ foldl (λ r d, r * 10 + d) r ds.
Proof.
  revert r; induction ds as [|d ds IH]; intros r Hr Hd; cbn; [lia|]. apply Forall_cons in Hd as [Hd Hds].
  specialize (IH (r * 10 + d) ltac:(lia) Hds). lia.
Qed.

Lemma atoi_digits_spec fuel m p ds rest r :
  cstr m p (((λ d, d + 48) <$> ds) ++ rest) → Forall (λ d, 0 ≤ d ≤ 9) ds →
  (∀ c, head rest = Some c → is_digit c = false) → (length ds < fuel)%nat →
  0 ≤ r → foldl (λ r d, r * 10 + d) r ds < 2 ^ 31 →
  atoi_digits fuel p r m = Ok (foldl (λ r d, r * 10 + d) r ds).
Proof.
  revert p ds r; induction fuel as [|fuel IH]; intros p ds r Hc Hd Hrest Hf Hr Hv; [lia|]. cbn [atoi_digits].
  destruct ds as [|d ds]; cbn [fmap list_fmap app] in Hc.
  - destruct rest as [|c rest].
    + apply cstr_nil in Hc. by rewrite (load_ok _ _ _ Hc).
    + apply cstr_cons in Hc as (Hc & _). rewrite (load_ok _ _ _ Hc). cbn [bind]. by rewrite (Hrest c).
  - apply Forall_cons in Hd as [Hd Hds]. apply cstr_cons in Hc as (Hl & _ & Hc). rewrite (load_ok _ _ _ Hl). cbn [bind].
    unfold is_digit. rewrite (proj2 (Z.leb_le _ _)), (proj2 (Z.leb_le _ _)) by lia. cbn [andb foldl] in *.
    replace (d + 48 - 48) with d by lia. pose proof (digits_ge ds (r * 10 + d) ltac:(lia) Hds).
    unfold int_ok. rewrite (proj2 (Z.leb_le _ _)), (proj2 (Z.ltb_lt _ _)) by lia. cbn [andb].
    apply IH; try done; [cbn in Hf; lia|lia].
Qed.

Lemma skip_space_spec fuel m p sp s :
  cstr m p (sp ++ s) → Forall (λ c, is_space c = true) sp →
  (∀ c, head s = Some c → is_space c = false) → (length sp < fuel)%nat →
  skip_space fuel p m = Ok (p + Z.of_nat (length sp)) ∧ cstr m (p + Z.of_nat (length sp)) s.
Proof.
  revert p sp; induction fuel as [|fuel IH]; intros p sp Hc Hsp Hs Hf; [lia|]. cbn [skip_space].
  destruct sp as [|c sp]; cbn [app length] in *.
  - rewrite Z.add_0_r. split; [|done]. destruct s as [|c s].
    + apply cstr_nil in Hc. by rewrite (load_ok _ _ _ Hc).
    + apply cstr_cons in Hc as (Hl & _). rewrite (load_ok _ _ _ Hl). cbn [bind]. by rewrite (Hs c).
  - apply Forall_cons in Hsp as [Hc0 Hsp]. apply cstr_cons in Hc as (Hl & _ & Hc).
    rewrite (load_ok _ _ _ Hl). cbn [bind]. rewrite Hc0.
    replace (p + Z.of_nat (S (length sp))) with (p + 1 + Z.of_nat (length sp)) by lia. apply IH; try done. lia.
Qed.

Lemma atoi_spec m p sp sign ds rest fuel :
  sign ∈ [[]; [43]; [45]] → ds ≠ [] →
  Forall (λ c, is_space c = true) sp → Forall (λ d, 0 ≤ d ≤ 9) ds →
  (∀ c, head rest = Some c → is_digit c = false) →
  cstr m p (sp ++ sign ++ ((λ d, d + 48) <$> ds) ++ rest) →
  (length sp + length ds < fuel)%nat → digits_value ds < 2 ^ 31 →
  atoi fuel p m = Ok ((if decide (sign = [45]) then -1 else 1) * digits_value ds).
Proof.
  intros Hsign Hne Hsp Hds Hrest Hc Hf Hv. unfold atoi.
  assert (Hsg : ∀ d, d ∈ ds → is_space (d + 48) = false ∧ (d + 48 =? 45) = false ∧ (d + 48 =? 43) = false).
  { intros d Hd. rewrite Forall_forall in Hds. specialize (Hds d Hd).
    assert (d = 0 ∨ d = 1 ∨ d = 2 ∨ d = 3 ∨ d = 4 ∨ d = 5 ∨ d = 6 ∨ d = 7 ∨ d = 8 ∨ d = 9) as Hc10 by lia.
    by repeat (destruct Hc10 as [->|Hc10]); subst. }
  destruct ds as [|d ds]; [done|]. destruct (Hsg d) as (Hd1 & Hd2 & Hd3); [left|].
  destruct (skip_space_spec fuel m p sp (sign ++ ((λ d, d + 48) <$> (d :: ds)) ++ rest) Hc Hsp) as [-> Hc1].
  { intros c. assert (sign = [] ∨ sign = [43] ∨ sign = [45]) as [-> | [-> | ->]] by set_solver; cbn; by intros [= <-]. }
  { lia. }
  cbn [bind]. assert (sign = [] ∨ sign = [43] ∨ sign = [45]) as Hs by set_solver.
  set (p1 := p + Z.of_nat (length sp)) in *.
  destruct Hs as [-> | [-> | ->]]; cbn [app] in Hc1.
  - pose proof Hc1 as (Hl & _)%cstr_cons. rewrite (load_ok _ _ _ Hl). cbn [bind]. rewrite Hd2, Hd3.
    rewrite (atoi_digits_spec fuel m p1 (d :: ds) rest 0); try done; [cbn in *; lia].
  - apply cstr_cons in Hc1 as (Hl & _ & Hc2). rewrite (load_ok _ _ _ Hl). cbn [bind Z.eqb Pos.eqb].
    rewrite (atoi_digits_spec fuel m (p1 + 1) (d :: ds) rest 0); try done; [cbn in *; lia].
  - apply cstr_cons in Hc1 as (Hl & _ & Hc2). rewrite (load_ok _ _ _ Hl). cbn [bind Z.eqb Pos.eqb].
    rewrite (atoi_digits_spec fuel m (p1 + 1) (d :: ds) rest 0); try done; [cbn in *; lia].
Qed.

End CString.
