(* ===== verification/CStringSpec.v ===== *)
(** * What the string library guarantees

    The theorems on kernel/string.c. *)

From S2P Require Import Prelude CStringDefs CString.
Import CStringDefs CString.

Module CStringSpec.

(** Memory for the examples: strings at 100, 200, 300 and a blank buffer. *)
Definition put_bytes (p : Z) (bs : list Z) (m : memory) : memory :=
  foldr (λ '(i, b) m, <[p + i := b]> m) m (zip (seqZ 0 (Z.of_nat (length bs))) bs).
Definition abc : list Z := [97; 98; 99].
Definition demo : memory :=
  put_bytes 100 (abc ++ [0]) (put_bytes 200 [98; 99; 0] (put_bytes 300 [32; 45; 52; 50; 0]
    (put_bytes 400 (replicate 16 7) ∅))).

Ltac by_cases_lookup :=
  intros i c Hi; let Hl := fresh in pose proof (lookup_lt_Some _ _ _ Hi) as Hl; cbn in Hl;
  do 5 (destruct i as [|i]; [vm_compute in Hi |- *; congruence|]); lia.

Lemma demo_abc : cstr demo 100 abc.
Proof. split; [by_cases_lookup|repeat constructor]. Qed.
Lemma demo_bc : cstr demo 200 [98; 99].
Proof. split; [by_cases_lookup|repeat constructor]. Qed.
Lemma demo_num : cstr demo 300 [32; 45; 52; 50].
Proof. split; [by_cases_lookup|repeat constructor]. Qed.
Lemma demo_buffer n : 0 ≤ n ≤ 16 → live demo 400 n.
Proof.
  intros Hn a Ha. replace a with (400 + Z.of_nat (Z.to_nat (a - 400))) by lia.
  assert (Hk : (Z.to_nat (a - 400) < 16)%nat) by lia. revert Hk. generalize (Z.to_nat (a - 400)). clear.
  intros k Hk. do 16 (destruct k as [|k]; [vm_compute; eauto|]). lia.
Qed.

(** [memmove] (and [memcpy], which calls it) copies the [n] source bytes
    to the destination as they were before the call, for every overlap of the
    two regions, and changes no byte outside the destination. *)
Theorem memmove_correct m src dst n bs :
  0 ≤ n → Z.of_nat (length bs) = n → bytes_of m src bs → live m dst n →
  ∃ m', memmove dst src n m = Ok m' ∧ memcpy dst src n m = Ok m' ∧ written m m' dst bs.
Proof.
  intros Hn Hlen Hb Hl. destruct (memmove_written m src dst n bs Hn Hlen Hb Hl) as (m' & Hop & Hw).
  exists m'. unfold memcpy. tauto.
Qed.

Lemma memmove_witness : ∃ m', memmove 101 100 2 demo = Ok m' ∧ m' !! 101 = Some 97 ∧ m' !! 102 = Some 98.
Proof.
  destruct (memmove_correct demo 100 101 2 [97; 98]) as (m' & Hop & _ & Hw).
  - lia.
  - reflexivity.
  - by_cases_lookup.
  - intros a Ha. assert (a = 101 ∨ a = 102) as [-> | ->] by lia; vm_compute; eauto.
  - exists m'. split; [exact Hop|]. split; [rewrite (Hw 101)|rewrite (Hw 102)]; reflexivity.
Defined.

(** [strcmp] and [strncmp] implement the lexicographic order on the
    strings (on their first [n] characters): the result is 0 exactly for equal
    strings and negative exactly when the first is smaller. *)
Theorem strcmp_correct m p q s t n fuel :
  cstr m p s → cstr m q t → (length s < fuel)%nat →
  (∃ r, strcmp fuel p q m = Ok r ∧ (r = 0 ↔ s = t) ∧ (r < 0 ↔ lex_lt s t)) ∧
  (∃ r, strncmp p q n m = Ok r ∧ (r = 0 ↔ take (Z.to_nat n) s = take (Z.to_nat n) t) ∧
        (r < 0 ↔ lex_lt (take (Z.to_nat n) s) (take (Z.to_nat n) t))).
Proof.
  intros Hs Ht Hf. split.
  - exists (diff s t). split; [by apply strcmp_spec|]. apply diff_spec; [apply Hs|apply Ht].
  - exists (diff (take (Z.to_nat n) s) (take (Z.to_nat n) t)). split; [by apply strncmp_spec|].
    apply diff_spec; apply Forall_take; [apply Hs|apply Ht].
Qed.

Lemma strcmp_witness : ∃ r, strcmp 10 100 200 demo = Ok r ∧ r < 0.
Proof.
  destruct (strcmp_correct demo 100 200 abc [98; 99] 2 10 demo_abc demo_bc) as [(r & Hop & _ & Hlt) _].
  - vm_compute. lia.
  - exists r. split; [exact Hop|]. apply Hlt. left. reflexivity.
Defined.

(** C28. The bounded copies stay inside their buffer: [safestrcpy] into a
    buffer of [n > 0] bytes always leaves a terminated string, the source cut
    to [n-1] characters; [strncpy] writes exactly [n] bytes, the source cut to
    [n] characters and padded with NULs; neither changes a byte elsewhere. *)
Theorem bounded_copy_correct m s t n str :
  cstr m t str → live m s n → apart t str s (s + n) → 0 < n →
  (∃ m', safestrcpy s t n m = Ok m' ∧ cstr m' s (take (Z.to_nat (n - 1)) str) ∧ same_outside m m' s (s + n)) ∧
  (∃ m', strncpy s t n m = Ok m' ∧
     bytes_of m' s (take (Z.to_nat n) str ++ replicate (Z.to_nat n - length str) 0) ∧
     same_outside m m' s (s + n)).
Proof.
  intros Hc Hl Hap Hn. split.
  - unfold safestrcpy. rewrite (proj2 (Z.leb_gt _ _)) by lia.
    assert (E : Z.of_nat (Z.to_nat (n - 1)) + 1 = n) by lia.
    destruct (safestrcpy_loop_spec (Z.to_nat (n - 1)) m s t str Hc) as (m' & Hop & Hc' & Ho).
    + by rewrite E.
    + rewrite <-Z.add_assoc, E. done.
    + exists m'. rewrite <-Z.add_assoc, E in Ho. done.
  - unfold strncpy. assert (E : Z.of_nat (Z.to_nat n) = n) by lia.
    destruct (strncpy_loop_spec (Z.to_nat n) m s t str Hc) as (m' & Hop & Hb & Ho); rewrite ?E; try done.
    exists m'. rewrite E in Ho. done.
Qed.

Lemma bounded_copy_witness : ∃ m', safestrcpy 400 100 3 demo = Ok m' ∧ cstr m' 400 [97; 98].
Proof.
  destruct (bounded_copy_correct demo 400 100 3 abc demo_abc) as [(m' & Hop & Hc & _) _].
  - apply demo_buffer. lia.
  - left. vm_compute. reflexivity.
  - lia.
  - exists m'. split; [exact Hop|exact Hc].
Defined.

(** [strstr] returns the first occurrence: the least offset at which the
    second string is a prefix of what follows, or NULL when there is none; the
    empty string is found at the start. *)
Theorem strstr_correct m p q s t fuel :
  cstr m p s → cstr m q t → (length s < fuel)%nat →
  ∃ r, strstr fuel p q m = Ok r ∧
    match r with
    | Some a => ∃ i, a = p + Z.of_nat i ∧ t `prefix_of` drop i s ∧ ∀ j, (j < i)%nat → ¬ t `prefix_of` drop j s
    | None => ∀ j, ¬ t `prefix_of` drop j s
    end.
Proof.
  intros Hs Ht Hf. unfold strstr. destruct t as [|b t].
  - pose proof (proj1 (cstr_nil m q) Ht) as Hb. rewrite (load_ok _ _ _ Hb). cbn. eexists; split; [done|].
    exists O. split_and!; [lia|apply prefix_nil|lia].
  - pose proof Ht as (Hb & Hpos & _)%cstr_cons. rewrite (load_ok _ _ _ Hb). cbn [bind]. rewrite truthy_pos by lia.
    rewrite (strstr_loop_spec fuel m p q s (b :: t) Hs Ht Hf). eexists; split; [done|].
    pose proof (find_sub_spec s (b :: t) ltac:(done)) as Hfs. destruct (find_sub s (b :: t)) as [i|]; cbn; [|done].
    exists i. tauto.
Qed.

Lemma strstr_witness : strstr 10 100 200 demo = Ok (Some 101) ∧ ∃ r, strstr 10 100 200 demo = Ok r.
Proof.
  split; [vm_compute; reflexivity|].
  destruct (strstr_correct demo 100 200 abc [98; 99] 10 demo_abc demo_bc) as (r & Hop & _).
  - vm_compute. lia.
  - exists r. exact Hop.
Defined.

(** [atoi] on white space, an optional sign and decimal digits (followed
    by anything that is not a digit) returns the signed value, when it is
    below 2^31. *)
Theorem atoi_correct m p sp sign ds rest fuel :
  sign ∈ [[]; [43]; [45]] → ds ≠ [] →
  Forall (λ c, is_space c = true) sp → Forall (λ d, 0 ≤ d ≤ 9) ds →
  (∀ c, head rest = Some c → is_digit c = false) →
  cstr m p (sp ++ sign ++ ((λ d, d + 48) <$> ds) ++ rest) →
  (length sp + length ds < fuel)%nat → digits_value ds < 2 ^ 31 →
  atoi fuel p m = Ok ((if decide (sign = [45]) then -1 else 1) * digits_value ds).
Proof. apply atoi_spec. Qed.

Lemma atoi_witness : atoi 10 300 demo = Ok (-42).
Proof.
  apply (atoi_correct demo 300 [32] [45] [4; 2] [] 10).
  - set_solver.
  - discriminate.
  - repeat constructor.
  - repeat constructor; lia.
  - discriminate.
  - exact demo_num.
  - vm_compute. lia.
  - vm_compute. reflexivity.
Defined.

End CStringSpec.
