(* ===== verification/VMemDefs.v ===== *)
(** * Virtual memory (kernel/vmem.c), definitions

    The configuration is RISC-V (three levels, [dmwin_win0 = 0]).  The state is
    the page allocator, the 64-bit words of the page-table pages ([pt], by
    address), the bytes of kernel buffers and user pages ([dm]) and the lock
    [vmem_lock].  A table page obtained from the allocator is zeroed.  A
    [pte_t *] is the address of a word, [None] is NULL.  The allocator is used
    through the interface [PageAllocator]. *)

From S2P Require Import Prelude Pmem CStringDefs.
Import Pmem.

Module VMemDefs.

Definition PGSIZE : Z := 4096.
Definition MAXVA : Z := 2 ^ 38.
Definition PT_LEVEL : nat := 3.
Definition PTE_V : Z := 1.
Definition PTE_R : Z := 2.
Definition PTE_W : Z := 4.
Definition PTE_X : Z := 8.
Definition PTE_U : Z := 16.
Definition PTE_D : Z := 128.
Definition PTE_WALK : Z := PTE_V.
Definition EINVAL : Z := 22.
Definition VERIFY_READ : Z := 0.
Definition VERIFY_WRITE : Z := 1.

Definition PA2PTE (pa : Z) : Z := Z.shiftl (Z.shiftr pa 12) 10.
Definition PTE2PA (pte : Z) : Z := Z.shiftl (Z.shiftr pte 10) 12.
Definition PTE_FLAGS (pte : Z) : Z := Z.land pte 1023.
Definition PX (level : nat) (va : Z) : Z := Z.land (Z.shiftr va (12 + 9 * Z.of_nat level)) 511.
Definition PGROUNDDOWN (a : Z) : Z := Z.land a (Z.lnot (PGSIZE - 1)).
Definition PGROUNDUP (a : Z) : Z := Z.land (u64 (a + PGSIZE - 1)) (Z.lnot (PGSIZE - 1)).

Definition has (w flag : Z) : bool := truthy (Z.land w flag).

Section vmem.
Context {St : Type} `{PageAllocator St}.

Record vm := mk_vm {
  al : St;
  pt : gmap Z Z;
  dm : gmap Z Z;
  vmem_lock : bool
}.

Definition with_pt (s : vm) (t : gmap Z Z) : vm := mk_vm (al s) t (dm s) (vmem_lock s).
Definition with_al (s : vm) (a : St) : vm := mk_vm a (pt s) (dm s) (vmem_lock s).
Definition with_dm (s : vm) (d : gmap Z Z) : vm := mk_vm (al s) (pt s) d (vmem_lock s).

Definition acquire (s : vm) : res vm :=
  if vmem_lock s then Panic "double acquire" else Ok (mk_vm (al s) (pt s) (dm s) true).
Definition release (s : vm) : res vm :=
  if vmem_lock s then Ok (mk_vm (al s) (pt s) (dm s) false) else Panic "release".

(** Reading and writing a page-table word. *)
Definition rd (p : Z) (s : vm) : res Z := of_opt (pt s !! p).
Definition wr (p w : Z) (s : vm) : res vm :=
  let* _ := rd p s in Ok (with_pt s (<[p := w]> (pt s))).

(** The 512 zero words of a fresh table page. *)
Definition slot (a i : Z) : Z := a + 8 * i.
Definition zero_table (a : Z) (t : gmap Z Z) : gmap Z Z :=
  foldr (λ i t, <[slot a i := 0]> t) t (seqZ 0 512).

(** [pt[PX(level, va)]], then down: the loop of [walk_internal] from [level]. *)
Fixpoint walk_levels (level : nat) (tbl va : Z) (alloc : bool) (s : vm) : res (option Z * vm) :=
  match level with
  | O => Ok (Some (slot tbl (PX 0 va)), s)
  | S l =>
      let pte := slot tbl (PX level va) in
      let* w := rd pte s in
      if has w PTE_V then
        let next_pt_pa := PTE2PA w in
        if next_pt_pa =? 0 then Ok (None, s) else walk_levels l next_pt_pa va alloc s
      else if alloc then
        let* (a, st) := pa_alloc (al s) in
        if a =? 0 then Ok (None, with_al s st)
        else
          let s := with_pt (with_al s st) (zero_table a (pt s)) in
          let* s := wr pte (Z.lor (PA2PTE a) PTE_WALK) s in
          walk_levels l a va alloc s
      else Ok (None, s)
  end.

Definition walk_internal (tbl va : Z) (alloc : bool) (s : vm) : res (option Z * vm) :=
  let* _ := assert_ (va <? MAXVA) "va out of range" in
  if tbl =? 0 then Ok (None, s) else walk_levels (PT_LEVEL - 1) tbl va alloc s.

Definition walk (tbl va : Z) (alloc : bool) (s : vm) : res (option Z * vm) :=
  let* s := acquire s in
  let* (r, s) := walk_internal tbl va alloc s in
  let* s := release s in
  Ok (r, s).

Definition walkaddr (tbl va : Z) (s : vm) : res (Z * vm) :=
  if MAXVA <? va then Panic "va out of range"
  else
    let* (r, s) := walk tbl va false s in
    match r with
    | None => Ok (0, s)
    | Some pte =>
        let* w := rd pte s in
        if negb (has w PTE_V) then Ok (0, s)
        else if negb (has w PTE_U) then Ok (0, s)
        else Ok (PTE2PA w, s)
    end.

(** [for (;;)] of [mappages_internal]. *)
Fixpoint map_loop (fuel : nat) (tbl current end_ pa perm : Z) (s : vm) : res (Z * vm) :=
  match fuel with
  | O => NoFuel
  | S fuel =>
      let* (r, s) := walk_internal tbl current true s in
      match r with
      | None => Panic "pte allock error"
      | Some pte =>
          let* w := rd pte s in
          if has w PTE_V then Ok (- EINVAL, s)
          else
            let* s := wr pte (Z.lor (Z.lor (PA2PTE pa) perm) PTE_V) s in
            if current =? end_ then Ok (1, s)
            else map_loop fuel tbl (u64 (current + PGSIZE)) end_ (u64 (pa + PGSIZE)) perm s
      end
  end.

(** The number of pages from [begin] to [end_]; when [end_] is below [begin]
    the loop runs until the walk refuses [MAXVA]. *)
Definition map_fuel (begin end_ : Z) : nat :=
  Z.to_nat (if end_ <? begin then MAXVA / PGSIZE + 1 else (end_ - begin) / PGSIZE + 1).
Definition mappages_internal (tbl va pa len perm : Z) (s : vm) : res (Z * vm) :=
  let* _ := assert_ (va <? MAXVA) "va out of range" in
  let* _ := assert_ (pa mod PGSIZE =? 0) "pa need be aligned" in
  let begin := PGROUNDDOWN va in
  let end_ := PGROUNDDOWN (u64 (va + len - 1)) in
  map_loop (map_fuel begin end_) tbl begin end_ pa perm s.

Definition mappages (tbl va pa len perm : Z) (s : vm) : res (Z * vm) :=
  let* s := acquire s in
  let* (r, s) := mappages_internal tbl va pa len perm s in
  let* s := release s in
  Ok (r, s).

(** One iteration of [vmunmap] for the page at [a]. *)
Definition unmap_page (tbl : Z) (do_free : bool) (a : Z) (s : vm) : res vm :=
  let* (r, s) := walk_internal tbl a false s in
  match r with
  | None => Ok s
  | Some pte =>
      let* w := rd pte s in
      if negb (has w PTE_V) then Ok s
      else if PTE_FLAGS w =? PTE_V then Panic "vmunmap: not a leaf"
      else
        let* s :=
          (if do_free then
             let pa := PTE2PA w in
             if negb (pa =? 0) && pa_range (al s) pa
             then let* st := pa_free pa (al s) in Ok (with_al s st)
             else Ok s
           else Ok s) in
        wr pte 0 s
  end.

(** The loop runs over [va + i * PGSIZE] for [i < npages]. *)
Definition vmunmap (tbl va npages : Z) (do_free : bool) (s : vm) : res vm :=
  let* _ := assert_ (va mod PGSIZE =? 0) "va is not aligned" in
  let* s := acquire s in
  let* s := for_range 0 npages (λ i, unmap_page tbl do_free (va + i * PGSIZE)) s in
  release s.

(** [freewalk]: the depth of the recursion is the number of levels. *)
Fixpoint freewalk (depth : nat) (tbl : Z) (s : vm) : res vm :=
  match depth with
  | O => NoFuel
  | S depth =>
      let* s := for_range 0 512 (λ i s,
        let* w := rd (slot tbl i) s in
        if has w PTE_V && (PTE_FLAGS w =? PTE_V) then
          let* s := freewalk depth (PTE2PA w) s in
          wr (slot tbl i) 0 s
        else Ok s) s in
      let* st := pa_free tbl (al s) in
      Ok (with_al s st)
  end.

Definition uvmfree (tbl start sz : Z) (s : vm) : res vm :=
  let* s := (if 0 <? sz then vmunmap tbl start (PGROUNDUP sz / PGSIZE) true s else Ok s) in
  freewalk PT_LEVEL tbl s.

Definition uvmcreate (s : vm) : res (Z * vm) :=
  let* (a, st) := pa_alloc (al s) in
  Ok (a, with_pt (with_al s st) (if a =? 0 then pt s else zero_table a (pt s))).

(** ** Copies between kernel and user space *)

(** [while (len > 0)] of [copyin] and [copyout]: [dir] is the direction, true
    from user space. *)
Fixpoint copy_loop (fuel : nat) (dir : bool) (tbl ker va len : Z) (s : vm) : res (Z * vm) :=
  match fuel with
  | O => NoFuel
  | S fuel =>
      if 0 <? len then
        let va0 := PGROUNDDOWN va in
        let* (pa0, s) := walkaddr tbl va0 s in
        if pa0 =? 0 then Ok (-1, s)
        else
          let n := Z.min (PGSIZE - (va - va0)) len in
          let u := pa0 + (va - va0) in
          let* d := (if dir then CStringDefs.memmove ker u n (dm s) else CStringDefs.memmove u ker n (dm s)) in
          copy_loop fuel dir tbl (ker + n) (va0 + PGSIZE) (len - n) (with_dm s d)
      else Ok (0, s)
  end.

Definition copy_fuel (len : Z) : nat := Z.to_nat (len / PGSIZE + 3).

Definition copyin (tbl dst srcva len : Z) (s : vm) : res (Z * vm) :=
  if MAXVA <? srcva then Panic "copyin:va > MAXVA"
  else copy_loop (copy_fuel len) true tbl dst srcva len s.

Definition copyout (tbl dstva src len : Z) (s : vm) : res (Z * vm) :=
  if MAXVA <? dstva then Panic "copyout: dstva > MAXVA"
  else copy_loop (copy_fuel len) false tbl src dstva len s.

(** [while (n > 0)] of [copyinstr]: copies up to [n] characters of a page; the
    flag says that the terminator was met. *)
Fixpoint copystr_page (n : nat) (dst p : Z) (d : gmap Z Z) : res (bool * Z * gmap Z Z) :=
  match n with
  | O => Ok (false, 0, d)
  | S n =>
      let* c := CStringDefs.load p d in
      if c =? 0 then let* d := CStringDefs.store dst 0 d in Ok (true, 0, d)
      else
        let* d := CStringDefs.store dst c d in
        let* (g, k, d) := copystr_page n (dst + 1) (p + 1) d in
        Ok (g, k + 1, d)
  end.

Fixpoint copyinstr_loop (fuel : nat) (tbl dst srcva max len : Z) (s : vm) : res (Z * vm) :=
  match fuel with
  | O => NoFuel
  | S fuel =>
      if 0 <? max then
        let va0 := PGROUNDDOWN srcva in
        let* (pa0, s) := walkaddr tbl va0 s in
        if pa0 =? 0 then Ok (-1, s)
        else
          let n := Z.min (PGSIZE - (srcva - va0)) max in
          let* (got_null, k, d) := copystr_page (Z.to_nat n) dst (pa0 + (srcva - va0)) (dm s) in
          let s := with_dm s d in
          if (got_null : bool) then Ok (len + k, s)
          else copyinstr_loop fuel tbl (dst + k) (va0 + PGSIZE) (max - k) (len + k) s
      else Ok (len, s)
  end.
Definition copyinstr (tbl dst srcva max : Z) (s : vm) : res (Z * vm) :=
  copyinstr_loop (copy_fuel max) tbl dst srcva max 0 s.

(** ** access_ok *)

(** [while (current_addr < end_addr)]: every page is valid, for users, and has
    the permission bit. *)
Fixpoint access_loop (fuel : nat) (tbl bit cur end_addr : Z) (s : vm) : res (Z * vm) :=
  match fuel with
  | O => NoFuel
  | S fuel =>
      if cur <? end_addr then
        let* (r, s) := walk tbl cur false s in
        match r with
        | None => Ok (0, s)
        | Some pte =>
            let* w := rd pte s in
            if negb (has w PTE_V) then Ok (0, s)
            else if negb (has w PTE_U) then Ok (0, s)
            else if negb (has w bit) then Ok (0, s)
            else access_loop fuel tbl bit (cur + PGSIZE) end_addr s
        end
      else Ok (1, s)
  end.

(** [tbl] is the page table of the current process, 0 when it has none. *)
Definition access_ok (type addr size tbl : Z) (s : vm) : res (Z * vm) :=
  if (MAXVA <? addr) || (MAXVA <? u64 (addr + size)) || (u64 (addr + size) <? addr) then Ok (0, s)
  else
    let end_addr := u64 (addr + size) in
    let current_addr := PGROUNDDOWN addr in
    if type =? VERIFY_WRITE then
      if tbl =? 0 then Ok (0, s) else access_loop (copy_fuel size) tbl PTE_W current_addr end_addr s
    else if type =? VERIFY_READ then
      if tbl =? 0 then Ok (0, s) else access_loop (copy_fuel size) tbl PTE_R current_addr end_addr s
    else Ok (1, s).

(** ** uvmcopy *)

(** The copy of the page at [va] from [old] to [new]: nothing when it is not
    mapped; the results are that of the C loop body, 0 to go on, -1 for the
    error exit. *)
Definition copy_page (old new va : Z) (s : vm) : res (Z * vm) :=
  let* (r, s) := walk_internal old va false s in
  match r with
  | None => Ok (0, s)
  | Some pte =>
      let* w := rd pte s in
      if negb (has w PTE_V) then Ok (0, s)
      else
        let pa := PTE2PA w in
        let flags := u32 (PTE_FLAGS w) in
        let* (mem, st) := pa_alloc (al s) in
        let s := with_al s st in
        if mem =? 0 then Ok (-1, s)
        else
          let* d := CStringDefs.memmove mem pa PGSIZE
                      (foldr (λ i d, <[mem + i := 0]> d) (dm s) (seqZ 0 PGSIZE)) in
          let s := with_dm s d in
          let* (r, s) := mappages_internal new va mem PGSIZE flags s in
          if r =? -1 then
            let* st := pa_free mem (al s) in Ok (-1, with_al s st)
          else Ok (0, s)
  end.

(** [while (i < sz)]: pages from [i] on. *)
Fixpoint copy_pages (n : nat) (old new i : Z) (s : vm) : res (Z * Z * vm) :=
  match n with
  | O => Ok (0, i, s)
  | S n =>
      let* (r, s) := copy_page old new i s in
      if r =? 0 then copy_pages n old new (i + PGSIZE) s else Ok (-1, i, s)
  end.

(** [virt_addr] is that of the current process.  The error exit calls
    [vmunmap], which takes the lock again. *)
Definition uvmcopy (old new sz virt_addr : Z) (s : vm) : res (Z * vm) :=
  let* s := acquire s in
  let i := PGROUNDDOWN virt_addr in
  let err i s := let* s := vmunmap new 0 (i / PGSIZE) true s in
                 let* s := release s in Ok (-1, s) in
  let* (r, s) := (if 256 <=? i then copy_page old new 0 s else Ok (0, s)) in
  if negb (r =? 0) then err i s
  else
    let* (r, s) := copy_page old new 0x10000036e s in
    if negb (r =? 0) then err i s
    else
      let* (r, i, s) := copy_pages (Z.to_nat ((sz - i + PGSIZE - 1) / PGSIZE)) old new i s in
      if negb (r =? 0) then err i s
      else let* s := release s in Ok (0, s).

(** [uvmdealloc1]. *)
Definition uvmdealloc1 (tbl start end_ : Z) (s : vm) : res vm :=
  let* _ := assert_ (start <? end_) "uvmdealloc1:start < end" in
  if PGROUNDUP start <=? PGROUNDUP end_
  then vmunmap tbl (PGROUNDUP start) (i32 ((PGROUNDUP end_ - PGROUNDUP start) / PGSIZE)) true s
  else Ok s.

End vmem.
Arguments vm St : clear implicits.

End VMemDefs.
