(* ===== verification/VMem.v ===== *)
(** * Page tables: the tree of tables and the mapping it represents

    [table_at t root p] is the table reached from [root] by the indices [p]
    (outermost first).  In a well-formed address space distinct paths lead to
    distinct table pages, all obtained from the allocator; [pte_at t root va]
    is the leaf entry of a virtual address (0 where a table is missing).  [walk]
    finds the word of [pte_at]; with [alloc] it adds the missing tables and
    changes no entry. *)

From S2P Require Import Prelude Pmem VMemDefs.
Import Pmem VMemDefs.

Module VMem.

(** ** Words *)

Lemma has_V w : has w PTE_V = Z.odd w.
Proof.
  unfold has, PTE_V, truthy. change 1 with (Z.ones 1). rewrite Z.land_ones by lia. change (2 ^ 1) with 2.
  rewrite Zmod_odd. by destruct (Z.odd w).
Qed.

(** A physical address a PTE can hold. *)
Definition phys (a : Z) : Prop := 0 < a < 2 ^ 56 ∧ a mod 4096 = 0.

Lemma pa2pte_div a : PA2PTE a = a / 4096 * 1024.
Proof. unfold PA2PTE. by rewrite Z.shiftl_mul_pow2, Z.shiftr_div_pow2. Qed.
Lemma pte2pa_div w : PTE2PA w = w / 1024 * 4096.
Proof. unfold PTE2PA. by rewrite Z.shiftl_mul_pow2, Z.shiftr_div_pow2. Qed.

(** Adding flag bits to a PTE address. *)
Lemma lor_flags k f : 0 ≤ k → 0 ≤ f < 1024 → Z.lor (k * 1024) f = k * 1024 + f.
Proof.
  intros Hk Hf. symmetry. rewrite <-Z.lxor_lor, <-Z.add_nocarry_lxor; [done| |].
  all: apply Z.bits_inj'; intros n Hn; rewrite Z.land_spec, Z.bits_0;
    destruct (Z.lt_ge_cases n 10) as [Hlt|Hge];
    [replace (k * 1024) with (Z.shiftl k 10) by (by rewrite Z.shiftl_mul_pow2);
     rewrite Z.shiftl_spec_low by lia; done
    |replace f with (f mod 2 ^ 10) by (apply Z.mod_small; lia);
     rewrite Z.mod_pow2_bits_high by lia; by rewrite andb_false_r].
Qed.

Lemma lor_range a b n : 0 ≤ n → 0 ≤ a < 2 ^ n → 0 ≤ b < 2 ^ n → 0 ≤ Z.lor a b < 2 ^ n.
Proof.
  intros Hn Ha Hb. split; [apply Z.lor_nonneg; lia|].
  assert (Z.lor a b = Z.lor a b mod 2 ^ n) as ->; [|apply Z.mod_pos_bound, Z.pow_pos_nonneg; lia].
  apply Z.bits_inj'. intros i Hi. destruct (Z.lt_ge_cases i n).
  - by rewrite Z.mod_pow2_bits_low.
  - rewrite Z.mod_pow2_bits_high by lia. rewrite Z.lor_spec.
    replace a with (a mod 2 ^ n) by (apply Z.mod_small; lia).
    replace b with (b mod 2 ^ n) by (apply Z.mod_small; lia).
    by rewrite !Z.mod_pow2_bits_high by lia.
Qed.

(** The PTE that points to a table, or maps a page with permissions. *)
Lemma table_pte a :
  phys a → let w := Z.lor (PA2PTE a) PTE_WALK in has w PTE_V = true ∧ PTE2PA w = a.
Proof.
  intros [Ha Hm]. cbv zeta. rewrite pa2pte_div, lor_flags; [|apply Z.div_pos; lia|unfold PTE_WALK, PTE_V; lia].
  unfold PTE_WALK, PTE_V. split.
  - rewrite has_V. replace (a / 4096 * 1024 + 1) with (1 + 2 * (a / 4096 * 512)) by lia. by rewrite Z.odd_add_mul_2.
  - rewrite pte2pa_div, Z.div_add_l by lia. change (1 / 1024) with 0.
    apply Z.mod_divide in Hm as [k ->]; [|lia]. rewrite Z.div_mul by lia. lia.
Qed.

Lemma leaf_pte a perm :
  phys a → 0 ≤ perm < 1024 →
  let w := Z.lor (Z.lor (PA2PTE a) perm) PTE_V in
  has w PTE_V = true ∧ PTE2PA w = a ∧ PTE_FLAGS w = Z.lor perm PTE_V.
Proof.
  intros [Ha Hm] Hp. cbv zeta. rewrite <-Z.lor_assoc.
  assert (Hf : 0 ≤ Z.lor perm PTE_V < 2 ^ 10) by (apply lor_range; unfold PTE_V; lia).
  rewrite pa2pte_div, lor_flags; [|apply Z.div_pos; lia|lia]. split_and!.
  - rewrite has_V. rewrite Z.odd_add. replace (a / 4096 * 1024) with (2 * (a / 4096 * 512)) by lia.
    rewrite Z.odd_even. cbn. unfold PTE_V. rewrite <-Z.bit0_odd, Z.lor_spec. by rewrite orb_true_r.
  - rewrite pte2pa_div, Z.div_add_l by lia. rewrite (Z.div_small (Z.lor perm PTE_V)) by lia.
    apply Z.mod_divide in Hm as [k ->]; [|lia]. rewrite Z.div_mul by lia. lia.
  - unfold PTE_FLAGS. change 1023 with (Z.ones 10). rewrite Z.land_ones by lia.
    rewrite Z.add_comm. change 1024 with (2 ^ 10). rewrite Z.mod_add by lia. apply Z.mod_small. lia.
Qed.

(** ** Tables *)

Definition index (i : Z) : Prop := 0 ≤ i < 512.

Lemma PX_index l va : index (PX l va).
Proof. unfold PX, index. change 511 with (Z.ones 9). rewrite Z.land_ones by lia. apply Z.mod_pos_bound. lia. Qed.

(** The words of table [a] are in memory. *)
Definition is_table (t : gmap Z Z) (a : Z) : Prop :=
  phys a ∧ ∀ i, index i → is_Some (t !! slot a i).

(** Slots of page-aligned tables coincide only when table and index do. *)
Lemma slot_inj a b i j :
  a mod 4096 = 0 → b mod 4096 = 0 → index i → index j → slot a i = slot b j → a = b ∧ i = j.
Proof.
  intros Ha Hb Hi Hj. unfold slot, index in *. intros Heq.
  apply Z.mod_divide in Ha as [x ->]; [|lia]. apply Z.mod_divide in Hb as [y ->]; [|lia].
  assert (x = y) by lia. lia.
Qed.

(** The table an index of table [a] points to. *)
Definition child (t : gmap Z Z) (a i : Z) : option Z :=
  w ← t !! slot a i; if has w PTE_V then Some (PTE2PA w) else None.

Fixpoint table_at (t : gmap Z Z) (a : Z) (p : list Z) : option Z :=
  match p with
  | [] => Some a
  | i :: p => b ← child t a i; table_at t b p
  end.

Lemma table_at_snoc t a p i :
  table_at t a (p ++ [i]) = b ← table_at t a p; child t b i.
Proof.
  revert a; induction p as [|j p IH]; intros a; cbn.
  - by destruct (child t a i).
  - destruct (child t a j); cbn; [apply IH|done].
Qed.

(** Paths from the root to a table: at most two indices. *)
Definition path (p : list Z) : Prop := (length p ≤ 2)%nat ∧ Forall index p.

Lemma path_snoc p i : path (p ++ [i]) ↔ (length p ≤ 1)%nat ∧ Forall index p ∧ index i.
Proof.
  unfold path. rewrite length_app, Forall_app, Forall_singleton. cbn. split; intros; split_and!; try lia; tauto.
Qed.

(** ** Well-formed address spaces *)

Section space.
Context {St : Type} `{PageAllocator St} `{!PageAllocatorLaws St}.
Implicit Types (s : vm St).

Record space (s : vm St) (root : Z) : Prop := {
  sp_inv : pa_inv (al s);
  sp_table : ∀ p a, path p → table_at (pt s) root p = Some a → is_table (pt s) a ∧ pa_owned (al s) a;
  sp_inj : ∀ p q a, path p → path q →
    table_at (pt s) root p = Some a → table_at (pt s) root q = Some a → p = q
}.

(** The words of the tables of a space are those of [t] except at one slot. *)
Lemma lookup_other_slot s root p q a b i j w :
  space s root → path p → path q → index i → index j →
  table_at (pt s) root p = Some a → table_at (pt s) root q = Some b →
  (p, i) ≠ (q, j) → <[slot a i := w]> (pt s) !! slot b j = pt s !! slot b j.
Proof.
  intros Hs Hp Hq Hi Hj Ha Hb Hne. apply lookup_insert_ne. intros Heq.
  destruct (sp_table _ _ Hs p a Hp Ha) as [[[_ Hma] _] _], (sp_table _ _ Hs q b Hq Hb) as [[[_ Hmb] _] _].
  destruct (slot_inj a b i j Hma Hmb Hi Hj Heq) as [-> ->]. apply Hne. f_equal.
  by apply (sp_inj _ _ Hs p q b).
Qed.

(** Writing a leaf word: the tree of tables is the same. *)
Lemma table_at_leaf s root p a i w q :
  space s root → length p = 2%nat → path p → index i → table_at (pt s) root p = Some a → path q →
  table_at (<[slot a i := w]> (pt s)) root q = table_at (pt s) root q.
Proof.
  intros Hs Hlen Hp Hi Ha. induction q as [|j q IH] using rev_ind; intros Hq; [done|].
  rewrite !table_at_snoc. apply path_snoc in Hq as (Hq1 & Hq2 & Hj).
  rewrite IH by (split; [lia|done]). destruct (table_at (pt s) root q) as [b|] eqn:Hb; cbn; [|done].
  unfold child. rewrite (lookup_other_slot s root p q a b i j w); try done; [split; [lia|done]|].
  intros [= -> _]. lia.
Qed.

Lemma is_table_insert (t : gmap Z Z) x w a : is_table t a → is_table (<[x := w]> t) a.
Proof. intros [Hp Hi]. split; [done|]. intros i Hx. apply lookup_insert_is_Some'. right. by apply Hi. Qed.

Lemma space_leaf s root p a i w :
  space s root → length p = 2%nat → path p → index i → table_at (pt s) root p = Some a →
  space (with_pt s (<[slot a i := w]> (pt s))) root.
Proof.
  intros Hs Hlen Hp Hi Ha. split; cbn.
  - apply (sp_inv _ _ Hs).
  - intros q b Hq Hb. rewrite (table_at_leaf s root p a i w q) in Hb by done.
    destruct (sp_table _ _ Hs q b Hq Hb) as [Ht Ho]. split; [|done]. by apply is_table_insert.
  - intros q r b Hq Hr. rewrite !(table_at_leaf s root p a i w) by done. by apply (sp_inj _ _ Hs).
Qed.

(** ** Entries *)

(** The leaf word of index path [q] and index [k]. *)
Definition leaf (t : gmap Z Z) (root : Z) (q : list Z) (k : Z) : Z :=
  default 0 (a ← table_at t root q; t !! slot a k).

(** ** Adding a table *)

Lemma zero_fold_lookup f l (t : gmap Z Z) x :
  foldr (λ i t, <[slot f i := 0]> t) t l !! x = if decide (x ∈ slot f <$> l) then Some 0 else t !! x.
Proof.
  induction l as [|i l IH]; cbn [foldr fmap list_fmap].
  - by rewrite decide_False by apply not_elem_of_nil.
  - rewrite lookup_insert, IH. destruct (decide (slot f i = x)) as [<-|E].
    + rewrite decide_True; [done|]. left.
    + repeat case_decide; try done; set_solver.
Qed.

Lemma zero_table_in f (t : gmap Z Z) i : index i → zero_table f t !! slot f i = Some 0.
Proof.
  intros Hi. unfold zero_table. rewrite zero_fold_lookup, decide_True; [done|].
  apply list_elem_of_fmap_2, elem_of_seqZ. unfold index in Hi. lia.
Qed.

Lemma zero_table_out f (t : gmap Z Z) x : (∀ i, index i → x ≠ slot f i) → zero_table f t !! x = t !! x.
Proof.
  intros Hx. unfold zero_table. rewrite zero_fold_lookup, decide_False; [done|].
  intros (i & -> & Hi)%list_elem_of_fmap. apply elem_of_seqZ in Hi. apply (Hx i); [unfold index; lia|done].
Qed.

Lemma zero_table_is_Some f (t : gmap Z Z) x : is_Some (t !! x) → is_Some (zero_table f t !! x).
Proof. intros Hx. unfold zero_table. rewrite zero_fold_lookup. case_decide; eauto. Qed.

(** Tables may be added, in pages that were not handed out before, and nothing
    else is taken from the allocator; words outside of the tables stay. *)
Record tables_grow (s s' : vm St) (root : Z) : Prop := {
  tg_own : ∀ b, pa_owned (al s) b → pa_owned (al s') b;
  tg_old : ∀ q a, path q → table_at (pt s) root q = Some a → table_at (pt s') root q = Some a;
  tg_new : ∀ q a, path q → table_at (pt s') root q = Some a → table_at (pt s) root q = Some a ∨ ¬ pa_owned (al s) a;
  tg_got : ∀ b, pa_owned (al s') b → pa_owned (al s) b ∨ ∃ q, path q ∧ table_at (pt s') root q = Some b;
  tg_words : ∀ x, (∀ q a i, path q → table_at (pt s') root q = Some a → index i → x ≠ slot a i) → pt s' !! x = pt s !! x
}.

Lemma tables_grow_refl s root : tables_grow s s root.
Proof. split; auto. Qed.

Lemma tables_grow_trans s1 s2 s3 root : tables_grow s1 s2 root → tables_grow s2 s3 root → tables_grow s1 s3 root.
Proof.
  intros [A1 A2 A3 A4 A5] [B1 B2 B3 B4 B5]. split; auto.
  - intros q a Hq Ha. destruct (B3 q a Hq Ha) as [Ha'|Hn]; [by apply A3|right; auto].
  - intros b Hb. destruct (B4 b Hb) as [Hb'|]; [|by right]. destruct (A4 b Hb') as [|(q & Hq & Ht)]; [by left|right; eauto].
  - intros x Hx. rewrite B5 by done. apply A5. intros q a i Hq Ha. apply (Hx q a i); auto.
Qed.

(** Writing a leaf word adds no table. *)
Lemma tables_grow_leaf s root p a i w :
  space s root → length p = 2%nat → path p → index i → table_at (pt s) root p = Some a →
  tables_grow s (with_pt s (<[slot a i := w]> (pt s))) root.
Proof.
  intros Hs Hlen Hp Hi Ha. split; cbn; auto.
  - intros q b Hq Hb. by rewrite (table_at_leaf s root p a i w q).
  - intros q b Hq. rewrite (table_at_leaf s root p a i w q) by done. by left.
  - intros x Hx. apply lookup_insert_ne. intros <-. apply (Hx p a i); try done. by rewrite (table_at_leaf s root p a i w p).
Qed.

Section add.
Context (s : vm St) (root : Z) (p : list Z) (a i f : Z) (st : St).
Context (Hs : space s root) (Hlen : (length p ≤ 1)%nat) (Hp : Forall index p) (Hi : index i).
Context (Ha : table_at (pt s) root p = Some a) (Hno : child (pt s) a i = None).
Context (Hf : phys f) (Hfresh : ¬ pa_owned (al s) f).
Context (Hinv : pa_inv st) (Hown : ∀ b, pa_owned st b ↔ b = f ∨ pa_owned (al s) b).

Let t' : gmap Z Z := <[slot a i := Z.lor (PA2PTE f) PTE_WALK]> (zero_table f (pt s)).

Lemma add_path : path p.
Proof. split; [lia|done]. Qed.

Lemma add_not_fresh q b : path q → table_at (pt s) root q = Some b → b ≠ f.
Proof. intros Hq Hb ->. by destruct (sp_table _ _ Hs q f Hq Hb). Qed.

(** Words of existing tables, other than the one that is written. *)
Lemma add_lookup q b j :
  path q → index j → table_at (pt s) root q = Some b → (q, j) ≠ (p, i) → t' !! slot b j = pt s !! slot b j.
Proof.
  intros Hq Hj Hb Hne. destruct (sp_table _ _ Hs q b Hq Hb) as [[[_ Hmb] _] _].
  destruct (sp_table _ _ Hs p a add_path Ha) as [[[_ Hma] _] _]. unfold t'.
  rewrite lookup_insert_ne.
  - apply zero_table_out. intros k Hk Heq.
    destruct (slot_inj b f j k Hmb (proj2 Hf) Hj Hk Heq) as [-> _]. by apply (add_not_fresh q f).
  - intros Heq. destruct (slot_inj a b i j Hma Hmb Hi Hj Heq) as [-> ->]. apply Hne. f_equal.
    by apply (sp_inj _ _ Hs q p b); [|apply add_path| |].
Qed.

Lemma add_fresh_slot j : index j → t' !! slot f j = Some 0.
Proof.
  intros Hj. destruct (sp_table _ _ Hs p a add_path Ha) as [[[_ Hma] _] _]. unfold t'.
  rewrite lookup_insert_ne.
  - by apply zero_table_in.
  - intros Heq. destruct (slot_inj a f i j Hma (proj2 Hf) Hi Hj Heq) as [-> _].
    by apply (add_not_fresh p f add_path).
Qed.

Lemma add_table_at q :
  path q → table_at t' root q = if decide (q = p ++ [i]) then Some f else table_at (pt s) root q.
Proof.
  induction q as [|j q IH] using rev_ind; intros Hq.
  { rewrite decide_False; [done|]. by destruct p. }
  rewrite !table_at_snoc. apply path_snoc in Hq as (Hq1 & Hq2 & Hj).
  assert (Hqp : path q) by (split; [lia|done]). rewrite IH by done. clear IH.
  case_decide as Eq.
  - subst q. rewrite decide_False by (intros E; apply (f_equal length) in E; rewrite !length_app in E; cbn in E; lia).
    rewrite table_at_snoc, Ha. cbn. rewrite Hno. cbn. unfold child. by rewrite add_fresh_slot.
  - destruct (table_at (pt s) root q) as [b|] eqn:Hb; cbn.
    2:{ rewrite decide_False; [done|]. intros E. apply app_inj_2 in E as [-> _]; [congruence|done]. }
    case_decide as E.
    + apply app_inj_2 in E as [-> [= ->]]; [|done]. rewrite Ha in Hb. injection Hb as <-.
      unfold child, t'. rewrite lookup_insert_eq. cbn. destruct (table_pte f Hf) as [-> ->]. done.
    + unfold child. rewrite (add_lookup q b j); try done. by intros [= -> ->].
Qed.

Lemma add_is_table b : is_table (pt s) b → is_table t' b.
Proof.
  intros [Hb Hbi]. split; [done|]. intros j Hj. unfold t'. apply lookup_insert_is_Some'. right.
  by apply zero_table_is_Some, Hbi.
Qed.

Lemma add_space : space (with_pt (with_al s st) t') root.
Proof.
  split; cbn.
  - done.
  - intros q b Hq. rewrite add_table_at by done. case_decide; intros Hb.
    + injection Hb as <-. split; [|by apply Hown; left]. split; [done|]. intros j Hj. rewrite add_fresh_slot; eauto.
    + destruct (sp_table _ _ Hs q b Hq Hb). split; [by apply add_is_table|]. apply Hown. by right.
  - intros q r b Hq Hr. rewrite !add_table_at by done. repeat case_decide; intros Hb Hc; try congruence.
    + injection Hb as <-. by destruct (add_not_fresh r f Hr Hc).
    + injection Hc as <-. by destruct (add_not_fresh q f Hq Hb).
    + by apply (sp_inj _ _ Hs q r b).
Qed.

Lemma add_grow : tables_grow s (with_pt (with_al s st) t') root.
Proof.
  split; cbn.
  - intros b Hb. apply Hown. by right.
  - intros q b Hq Hb. rewrite add_table_at by done. case_decide as E; [|done].
    subst q. rewrite table_at_snoc, Ha in Hb. cbn in Hb. congruence.
  - intros q b Hq. rewrite add_table_at by done. case_decide; [|by left]. intros [= <-]. by right.
  - intros b [->|Hb]%Hown; [right|by left]. exists (p ++ [i]). split; [by apply path_snoc|].
    rewrite add_table_at by by apply path_snoc. by rewrite decide_True.
  - intros x Hx. unfold t'. rewrite lookup_insert_ne.
    + apply zero_table_out. intros j Hj. apply (Hx (p ++ [i]) f j); [by apply path_snoc| |done].
      rewrite add_table_at by by apply path_snoc. by rewrite decide_True.
    + intros <-. apply (Hx p a i); [apply add_path| |done|done]. rewrite add_table_at by apply add_path.
      rewrite decide_False; [done|]. intros E. apply (f_equal length) in E. rewrite length_app in E. cbn in E. lia.
Qed.

Lemma add_leaf q k : path q → length q = 2%nat → index k → leaf t' root q k = leaf (pt s) root q k.
Proof.
  intros Hq Hl Hk. unfold leaf. rewrite add_table_at by done. case_decide as E.
  - subst q. rewrite table_at_snoc, Ha. cbn. rewrite Hno, add_fresh_slot by done. done.
  - destruct (table_at (pt s) root q) as [b|] eqn:Hb; cbn; [|done].
    rewrite (add_lookup q b k); try done. intros [= -> ->]. lia.
Qed.
End add.

(** ** Walking *)

(** The indices of a virtual address from level [l] down to 1. *)
Fixpoint vrest (l : nat) (va : Z) : list Z :=
  match l with O => [] | S l' => PX l va :: vrest l' va end.
Definition vpath (va : Z) : list Z := vrest 2 va.

(** The leaf entry of a virtual address. *)
Definition pte_at (t : gmap Z Z) (root va : Z) : Z := leaf t root (vpath va) (PX 0 va).

Lemma table_at_app t a p q : table_at t a (p ++ q) = b ← table_at t a p; table_at t b q.
Proof.
  revert a; induction p as [|i p IH]; intros a; cbn; [done|]. destruct (child t a i); cbn; [apply IH|done].
Qed.

Lemma vrest_length l va : length (vrest l va) = l.
Proof. induction l; cbn; congruence. Qed.
Lemma vrest_index l va : Forall index (vrest l va).
Proof. induction l as [|l IH]; cbn; [constructor|]. constructor; [apply PX_index|done]. Qed.
Lemma vpath_path va : path (vpath va) ∧ length (vpath va) = 2%nat.
Proof. unfold path, vpath. rewrite vrest_length. split_and!; [lia|apply vrest_index|done]. Qed.

(** Reading the word of a table. *)
Lemma rd_table s root p a i :
  space s root → path p → index i → table_at (pt s) root p = Some a →
  ∃ w, pt s !! slot a i = Some w ∧ rd (slot a i) s = Ok w.
Proof.
  intros Hs Hp Hi Ha. destruct (sp_table _ _ Hs p a Hp Ha) as [[_ Ht] _]. destruct (Ht i Hi) as [w Hw].
  exists w. unfold rd. by rewrite Hw.
Qed.

Lemma walk_noalloc l s root p tbl va :
  space s root → (length p + l = 2)%nat → Forall index p → table_at (pt s) root p = Some tbl →
  walk_levels l tbl va false s =
    Ok ((λ a, slot a (PX 0 va)) <$> table_at (pt s) root (p ++ vrest l va), s).
Proof.
  revert p tbl; induction l as [|l IH]; intros p tbl Hs Hlen Hp Ht; cbn [walk_levels vrest].
  { by rewrite app_nil_r, Ht. }
  destruct (rd_table s root p tbl (PX (S l) va)) as (w & Hw & ->);
    [done|split; [lia|done]|apply PX_index|done|]. cbn [bind].
  rewrite cons_middle, (assoc_L (++)), table_at_app, table_at_snoc, Ht.
  assert (Hc : child (pt s) tbl (PX (S l) va) = if has w PTE_V then Some (PTE2PA w) else None).
  { unfold child. by rewrite Hw. }
  cbn [mbind option_bind]. rewrite Hc. destruct (has w PTE_V); [|done]. cbn [mbind option_bind].
  assert (Ht2 : table_at (pt s) root (p ++ [PX (S l) va]) = Some (PTE2PA w)).
  { rewrite table_at_snoc, Ht. exact Hc. }
  assert (Hp2 : path (p ++ [PX (S l) va])).
  { apply path_snoc. split_and!; [lia|done|apply PX_index]. }
  destruct (sp_table _ _ Hs _ _ Hp2 Ht2) as [[[Hpos _] _] _]. rewrite (proj2 (Z.eqb_neq _ _)) by lia.
  rewrite (IH (p ++ [PX (S l) va])); [|done|rewrite length_app; cbn; lia|apply Hp2|done].
  by rewrite table_at_app, Ht2.
Qed.

(** What a walk may change: tables are added, entries stay. *)
Record grown (s s' : vm St) (root : Z) : Prop := {
  gr_space : space s' root;
  gr_dm : dm s' = dm s;
  gr_lock : vmem_lock s' = vmem_lock s;
  gr_tables : tables_grow s s' root;
  gr_leaf : ∀ q k, path q → length q = 2%nat → index k → leaf (pt s') root q k = leaf (pt s) root q k
}.

Lemma grown_trans s1 s2 s3 root : grown s1 s2 root → grown s2 s3 root → grown s1 s3 root.
Proof.
  intros [A1 A2 A3 A4 A5] [B1 B2 B3 B4 B5]. split; try congruence; [by apply (tables_grow_trans s1 s2)|].
  intros. rewrite B5, A5; done.
Qed.

Lemma walk_alloc l s root p tbl va n :
  space s root → (length p + l = 2)%nat → Forall index p → table_at (pt s) root p = Some tbl →
  pa_avail (al s) (l + n) →
  ∃ a s', walk_levels l tbl va true s = Ok (Some (slot a (PX 0 va)), s') ∧ grown s s' root ∧
    table_at (pt s') root (p ++ vrest l va) = Some a ∧ pa_avail (al s') n.
Proof.
  revert s p tbl; induction l as [|l IH]; intros s p tbl Hs Hlen Hp Ht Hav; cbn [walk_levels vrest].
  { exists tbl, s. rewrite app_nil_r. split_and!; try done. split; try done. apply tables_grow_refl. }
  destruct (rd_table s root p tbl (PX (S l) va)) as (w & Hw & ->);
    [done|split; [lia|done]|apply PX_index|done|]. cbn [bind].
  rewrite cons_middle, (assoc_L (++)).
  assert (Hp2 : path (p ++ [PX (S l) va])).
  { apply path_snoc. split_and!; [lia|done|apply PX_index]. }
  assert (Hc : child (pt s) tbl (PX (S l) va) = if has w PTE_V then Some (PTE2PA w) else None).
  { unfold child. by rewrite Hw. }
  assert (Hlen2 : (length (p ++ [PX (S l) va]) + l = 2)%nat) by (rewrite length_app; cbn; lia).
  destruct (has w PTE_V).
  - assert (Ht2 : table_at (pt s) root (p ++ [PX (S l) va]) = Some (PTE2PA w)).
    { rewrite table_at_snoc, Ht. exact Hc. }
    destruct (sp_table _ _ Hs _ _ Hp2 Ht2) as [[[Hpos _] _] _]. rewrite (proj2 (Z.eqb_neq _ _)) by lia.
    apply IH; try done; [apply Hp2|]. apply (pa_avail_le _ (S l + n)); [done|lia].
  - destruct (pa_alloc_ok (al s) (l + n) (sp_inv _ _ Hs) Hav) as (f & st & -> & Hinv & Hav' & Hf & Hmod & Hfr & Hown).
    cbn [bind]. rewrite (proj2 (Z.eqb_neq _ _)) by lia. unfold wr, rd. cbn [pt with_pt].
    destruct (zero_table_is_Some f (pt s) (slot tbl (PX (S l) va)) ltac:(eauto)) as [z ->]. cbn [of_opt bind].
    set (s1 := with_pt _ _).
    assert (Hphys : phys f) by by split.
    assert (Hg1 : grown s s1 root).
    { split; try done.
      - apply (add_space s root p tbl (PX (S l) va) f st); try done; (lia || apply PX_index).
      - apply (add_grow s root p tbl (PX (S l) va) f st); try done; (lia || apply PX_index).
      - intros q k Hq Hl Hk. apply (add_leaf s root p tbl (PX (S l) va) f); try done; (lia || apply PX_index). }
    assert (Ht1 : table_at (pt s1) root (p ++ [PX (S l) va]) = Some f).
    { unfold s1. cbn [pt with_pt with_al].
      rewrite (add_table_at s root p tbl (PX (S l) va) f); try done; [by rewrite decide_True|lia|apply PX_index]. }
    destruct (IH s1 (p ++ [PX (S l) va]) f) as (a & s' & Hop & Hg & Hta & Hav2); try done;
      [apply Hg1|apply Hp2|].
    exists a, s'. split_and!; try done. by apply (grown_trans s s1).
Qed.

(** The whole walk, from the root. *)
Lemma walk_internal_noalloc s root va :
  space s root → va < MAXVA →
  walk_internal root va false s =
    Ok ((λ a, slot a (PX 0 va)) <$> table_at (pt s) root (vpath va), s).
Proof.
  intros Hs Hva. unfold walk_internal, assert_. rewrite (proj2 (Z.ltb_lt _ _)) by done. cbn [bind].
  destruct (sp_table _ _ Hs [] root) as [[[Hpos _] _] _]; [split; [cbn; lia|constructor]|done|].
  rewrite (proj2 (Z.eqb_neq _ _)) by lia.
  change (PT_LEVEL - 1)%nat with 2%nat. by rewrite (walk_noalloc 2 s root [] root va Hs).
Qed.

Lemma walk_internal_alloc s root va n :
  space s root → va < MAXVA → pa_avail (al s) (2 + n) →
  ∃ a s', walk_internal root va true s = Ok (Some (slot a (PX 0 va)), s') ∧ grown s s' root ∧
    table_at (pt s') root (vpath va) = Some a ∧ pa_avail (al s') n.
Proof.
  intros Hs Hva Hav. unfold walk_internal, assert_. rewrite (proj2 (Z.ltb_lt _ _)) by done. cbn [bind].
  destruct (sp_table _ _ Hs [] root) as [[[Hpos _] _] _]; [split; [cbn; lia|constructor]|done|].
  rewrite (proj2 (Z.eqb_neq _ _)) by lia.
  change (PT_LEVEL - 1)%nat with 2%nat. by apply (walk_alloc 2 s root [] root va n Hs).
Qed.
End space.

(** ** Virtual page numbers *)

Lemma PX_div l va : 0 ≤ va → PX l va = (va / 2 ^ (12 + 9 * Z.of_nat l)) mod 512.
Proof.
  intros Hva. unfold PX. change 511 with (Z.ones 9). rewrite Z.land_ones, Z.shiftr_div_pow2 by lia. done.
Qed.

(** The three indices determine the page. *)
Lemma page_of_indices va va' :
  0 ≤ va < 2 ^ 39 → 0 ≤ va' < 2 ^ 39 → vpath va = vpath va' → PX 0 va = PX 0 va' → va / 4096 = va' / 4096.
Proof.
  intros H1 H2 Hp H0. injection Hp as E2 E1. rewrite !PX_div in * by lia.
  change (2 ^ (12 + 9 * Z.of_nat 2)) with (4096 * (512 * 512)) in E2.
  change (2 ^ (12 + 9 * Z.of_nat 1)) with (4096 * 512) in E1.
  change (2 ^ (12 + 9 * Z.of_nat 0)) with 4096 in H0.
  assert (Hd1 : ∀ v, v / (4096 * 512) = v / 4096 / 512) by (intros; by rewrite Z.div_div by lia).
  assert (Hd2 : ∀ v, v / (4096 * (512 * 512)) = v / 4096 / 512 / 512) by (intros; by rewrite !Z.div_div by lia).
  rewrite !Hd1 in E1. rewrite !Hd2 in E2. clear Hd1 Hd2.
  assert (Hv : ∀ v, 0 ≤ v < 2 ^ 39 → 0 ≤ v / 4096 < 2 ^ 27).
  { intros v Hv. split; [apply Z.div_pos; lia|apply Z.div_lt_upper_bound; lia]. }
  pose proof (Hv va H1) as B1. pose proof (Hv va' H2) as B2. clear Hv.
  revert E2 E1 H0. generalize (va / 4096), (va' / 4096), B1, B2. clear. intros x y Hx Hy E2 E1 E0.
  assert (Ht : ∀ v, 0 ≤ v < 2 ^ 27 → (v / 512 / 512) mod 512 = v / 512 / 512).
  { intros v Hv. apply Z.mod_small. split; [repeat apply Z.div_pos; lia|].
    apply Z.div_lt_upper_bound; [lia|]. apply Z.div_lt_upper_bound; lia. }
  rewrite !Ht in E2 by done.
  pose proof (Z.div_mod x 512 ltac:(lia)). pose proof (Z.div_mod y 512 ltac:(lia)).
  pose proof (Z.div_mod (x / 512) 512 ltac:(lia)). pose proof (Z.div_mod (y / 512) 512 ltac:(lia)). lia.
Qed.

Lemma indices_of_page va va' : 0 ≤ va → 0 ≤ va' → va / 4096 = va' / 4096 → vpath va = vpath va' ∧ PX 0 va = PX 0 va'.
Proof.
  intros H1 H2 E. assert (HPX : ∀ l, PX l va = PX l va').
  { intros l. rewrite !PX_div by done. rewrite Z.pow_add_r by lia. change (2 ^ 12) with 4096.
    assert (0 < 2 ^ (9 * Z.of_nat l)) by (apply Z.pow_pos_nonneg; lia).
    by rewrite <-!Z.div_div, E by lia. }
  unfold vpath. cbn [vrest]. by rewrite !HPX.
Qed.

Lemma PGROUNDDOWN_div a : 0 ≤ a → PGROUNDDOWN a = a / 4096 * 4096.
Proof.
  intros Ha. unfold PGROUNDDOWN. change (PGSIZE - 1) with (Z.ones 12).
  rewrite <-Z.ldiff_land, Z.ldiff_ones_r, Z.shiftl_mul_pow2, Z.shiftr_div_pow2 by lia. done.
Qed.

(** The word that maps physical page [pa]. *)
Definition leaf_word (pa perm : Z) : Z := Z.lor (Z.lor (PA2PTE pa) perm) PTE_V.

Section maps.
Context {St : Type} `{PageAllocator St} `{!PageAllocatorLaws St}.
Implicit Types (s : vm St).

(** Writing the entry of [va] changes that page's entry only. *)
Lemma pte_write s root va a w :
  space s root → 0 ≤ va < MAXVA → table_at (pt s) root (vpath va) = Some a →
  let s' := with_pt s (<[slot a (PX 0 va) := w]> (pt s)) in
  wr (slot a (PX 0 va)) w s = Ok s' ∧ space s' root ∧
  ∀ va', 0 ≤ va' < MAXVA →
    pte_at (pt s') root va' = if decide (va' / 4096 = va / 4096) then w else pte_at (pt s) root va'.
Proof.
  intros Hs Hva Ha s'. destruct (vpath_path va) as [Hp Hl].
  destruct (rd_table s root (vpath va) a (PX 0 va) Hs Hp (PX_index _ _) Ha) as (w0 & Hw0 & Hrd).
  split_and!; [unfold wr; by rewrite Hrd| |].
  - by apply (space_leaf s root (vpath va) a); [| | |apply PX_index|].
  - intros va' Hva'. unfold pte_at, leaf, s'. cbn [pt with_pt]. destruct (vpath_path va') as [Hp' Hl'].
    rewrite (table_at_leaf s root (vpath va) a); try done; [|apply PX_index].
    case_decide as E.
    + destruct (indices_of_page va' va ltac:(lia) ltac:(lia) E) as [-> ->]. rewrite Ha. cbn.
      by rewrite lookup_insert_eq.
    + destruct (table_at (pt s) root (vpath va')) as [b|] eqn:Hb; cbn; [|done].
      rewrite (lookup_other_slot s root (vpath va) (vpath va')); try done; try apply PX_index.
      intros [= E2 E1 E0]. apply E. symmetry. unfold MAXVA in *.
      apply page_of_indices; [lia|lia|unfold vpath; cbn [vrest]; congruence|done].
Qed.

Lemma grown_pte s s' root va : grown s s' root → pte_at (pt s') root va = pte_at (pt s) root va.
Proof. intros Hg. apply (gr_leaf _ _ _ Hg); [apply vpath_path|apply vpath_path|apply PX_index]. Qed.

Lemma rd_pte s root va a :
  space s root → table_at (pt s) root (vpath va) = Some a → rd (slot a (PX 0 va)) s = Ok (pte_at (pt s) root va).
Proof.
  intros Hs Ha. destruct (rd_table s root (vpath va) a (PX 0 va) Hs) as (w & Hw & ->);
    [apply vpath_path|apply PX_index|done|]. unfold pte_at, leaf. rewrite Ha. cbn. by rewrite Hw.
Qed.

(** The address space after [k] pages from [c] have been mapped to [pa]. *)
Record mapped (s s' : vm St) (root c k pa perm : Z) : Prop := {
  mp_space : space s' root;
  mp_dm : dm s' = dm s;
  mp_lock : vmem_lock s' = vmem_lock s;
  mp_tables : tables_grow s s' root;
  mp_pte : ∀ va, 0 ≤ va < MAXVA →
    pte_at (pt s') root va =
      if decide (c ≤ va / 4096 < c + k) then leaf_word (pa + (va / 4096 - c) * 4096) perm
      else pte_at (pt s) root va
}.

(** One iteration of the mapping loop on an unmapped page. *)
Lemma map_one s root c pa perm n :
  space s root → 0 ≤ c < 2 ^ 26 → has (pte_at (pt s) root (c * 4096)) PTE_V = false →
  pa_avail (al s) (2 + n) →
  ∃ a s1 s2, walk_internal root (c * 4096) true s = Ok (Some (slot a (PX 0 (c * 4096))), s1) ∧
    rd (slot a (PX 0 (c * 4096))) s1 = Ok (pte_at (pt s) root (c * 4096)) ∧
    wr (slot a (PX 0 (c * 4096))) (leaf_word pa perm) s1 = Ok s2 ∧
    mapped s s2 root c 1 pa perm ∧ pa_avail (al s2) n.
Proof.
  intros Hs Hc Hno Hav. assert (Hva : 0 ≤ c * 4096 < MAXVA) by (unfold MAXVA; lia).
  destruct (walk_internal_alloc s root (c * 4096) n Hs) as (a & s1 & Hop & Hg & Ht & Hav1); [lia|done|].
  pose proof (gr_space _ _ _ Hg) as Hs1.
  destruct (pte_write s1 root (c * 4096) a (leaf_word pa perm) Hs1 Hva Ht) as (Hw & Hs2 & Hpte).
  exists a, s1. eexists. split_and!; [done|by rewrite (rd_pte s1 root), (grown_pte s)|done| |done].
  split; [done|apply (gr_dm _ _ _ Hg)|apply (gr_lock _ _ _ Hg)| |].
  { apply (tables_grow_trans s s1); [apply Hg|]. apply (tables_grow_leaf s1 root (vpath (c * 4096))); try done; [apply vpath_path..|apply PX_index]. }
  intros va Hv. rewrite Hpte by done. rewrite Z.div_mul by lia.
  repeat case_decide; try lia; [f_equal; lia|by apply grown_pte].
Qed.

Lemma mapped_step s1 s2 s3 root c k pa perm :
  0 ≤ k → mapped s1 s2 root c 1 pa perm → mapped s2 s3 root (c + 1) k (pa + 4096) perm →
  mapped s1 s3 root c (k + 1) pa perm.
Proof.
  intros Hk [A1 A2 A3 A4 A5] [B1 B2 B3 B4 B5]. split; [done|congruence|congruence|by apply (tables_grow_trans s1 s2)|].
  intros va Hva. rewrite B5, A5 by done. repeat case_decide; try lia; try done; f_equal; lia.
Qed.

Lemma map_loop_spec fuel s root c k pa perm n :
  space s root → 0 ≤ c → 1 ≤ k → c + k ≤ 2 ^ 26 → 0 ≤ pa → pa + k * 4096 < 2 ^ 64 → (Z.to_nat k ≤ fuel)%nat →
  (∀ i, c ≤ i < c + k → has (pte_at (pt s) root (i * 4096)) PTE_V = false) →
  pa_avail (al s) (2 * Z.to_nat k + n) →
  ∃ s', map_loop fuel root (c * 4096) ((c + k - 1) * 4096) pa perm s = Ok (1, s') ∧
    mapped s s' root c k pa perm ∧ pa_avail (al s') n.
Proof.
  revert s c k pa; induction fuel as [|fuel IH]; intros s c k pa Hs Hc Hk Hck Hpa Hpk Hf Hno Hav; [lia|].
  cbn [map_loop].
  destruct (map_one s root c pa perm (2 * Z.to_nat (k - 1) + n) Hs) as (a & s1 & s2 & -> & Hrd & Hwr & Hm & Hav2);
    [lia|apply Hno; lia|by replace (2 + (2 * Z.to_nat (k - 1) + n))%nat with (2 * Z.to_nat k + n)%nat by lia|].
  cbn [bind]. rewrite Hrd. cbn [bind]. rewrite Hno by lia. fold (leaf_word pa perm). rewrite Hwr. cbn [bind].
  destruct (Z.eqb_spec (c * 4096) ((c + k - 1) * 4096)) as [E|E].
  - exists s2. assert (k = 1) as -> by lia. by split_and!.
  - unfold PGSIZE. rewrite !u64_small by lia.
    replace (c * 4096 + 4096) with ((c + 1) * 4096) by lia.
    replace ((c + k - 1) * 4096) with ((c + 1 + (k - 1) - 1) * 4096) by lia.
    destruct (IH s2 (c + 1) (k - 1) (pa + 4096)) as (s' & -> & Hm' & Hav'); try lia; try done.
    + apply (mp_space _ _ _ _ _ _ _ Hm).
    + intros i Hi. rewrite (mp_pte _ _ _ _ _ _ _ Hm) by (unfold MAXVA; lia).
      rewrite Z.div_mul, decide_False by lia. apply Hno. lia.
    + exists s'. split_and!; try done. replace k with (k - 1 + 1) by lia. apply (mapped_step s s2 s'); [lia|done|done].
Qed.

(** Pages [c..c+j-1] are free and page [c + j] is mapped already: the loop
    maps the former and stops with the error. *)
Lemma map_loop_remap fuel s root c j end_ pa perm n :
  space s root → 0 ≤ c → 0 ≤ j → c + j < 2 ^ 26 → (c + j) * 4096 ≤ end_ → 0 ≤ pa → pa + j * 4096 < 2 ^ 64 →
  (Z.to_nat j < fuel)%nat →
  (∀ i, c ≤ i < c + j → has (pte_at (pt s) root (i * 4096)) PTE_V = false) →
  has (pte_at (pt s) root ((c + j) * 4096)) PTE_V = true →
  pa_avail (al s) (2 * Z.to_nat (j + 1) + n) →
  ∃ s', map_loop fuel root (c * 4096) end_ pa perm s = Ok (- EINVAL, s') ∧ mapped s s' root c j pa perm.
Proof.
  revert s c j pa; induction fuel as [|fuel IH]; intros s c j pa Hs Hc Hj Hcj He Hpa Hpj Hf Hno Hyes Hav; [lia|].
  cbn [map_loop]. destruct (decide (j = 0)) as [->|Hne].
  - rewrite Z.add_0_r in Hyes, He.
    destruct (walk_internal_alloc s root (c * 4096) n Hs) as (a & s1 & -> & Hg & Ht & Hav1); [unfold MAXVA; lia|done|].
    cbn [bind]. rewrite (rd_pte s1 root) by (done || apply (gr_space _ _ _ Hg)). cbn [bind].
    rewrite (grown_pte s s1), Hyes by done. exists s1. split; [done|].
    split; try apply Hg. intros va Hva. rewrite decide_False by lia. by apply grown_pte.
  - destruct (map_one s root c pa perm (2 * Z.to_nat j + n) Hs) as (a & s1 & s2 & -> & Hrd & Hwr & Hm & Hav2);
      [lia|apply Hno; lia|by replace (2 + (2 * Z.to_nat j + n))%nat with (2 * Z.to_nat (j + 1) + n)%nat by lia|].
    cbn [bind]. rewrite Hrd. cbn [bind]. rewrite Hno by lia. fold (leaf_word pa perm). rewrite Hwr. cbn [bind].
    rewrite (proj2 (Z.eqb_neq _ _)) by lia. unfold PGSIZE. rewrite !u64_small by lia.
    replace (c * 4096 + 4096) with ((c + 1) * 4096) by lia.
    assert (Hk : ∀ i, c < i ≤ c + j → pte_at (pt s2) root (i * 4096) = pte_at (pt s) root (i * 4096)).
    { intros i Hi. rewrite (mp_pte _ _ _ _ _ _ _ Hm) by (unfold MAXVA; lia). by rewrite Z.div_mul, decide_False by lia. }
    destruct (IH s2 (c + 1) (j - 1) (pa + 4096)) as (s' & -> & Hm'); try lia; try done.
    + apply (mp_space _ _ _ _ _ _ _ Hm).
    + intros i Hi. rewrite Hk by lia. apply Hno. lia.
    + rewrite Hk by lia. by replace (c + 1 + (j - 1)) with (c + j) by lia.
    + by replace (j - 1 + 1) with j by lia.
    + exists s'. split; [done|]. replace j with (j - 1 + 1) by lia. apply (mapped_step s s2 s'); [lia|done|done].
Qed.

(** ** Unmapping *)

Definition present s (root c : Z) : bool := has (pte_at (pt s) root (c * 4096)) PTE_V.
Definition frame s (root c : Z) : Z := PTE2PA (pte_at (pt s) root (c * 4096)).

(** The mapped pages of [c..c+k-1] are leaves; to be freed, their frames are
    owned, are no page tables and are mapped once. *)
Record unmappable s (root c k : Z) (do_free : bool) : Prop := {
  ua_leaf : ∀ i, c ≤ i < c + k → present s root i = true → PTE_FLAGS (pte_at (pt s) root (i * 4096)) ≠ PTE_V;
  ua_frame : ∀ i, c ≤ i < c + k → present s root i = true → do_free = true →
    frame s root i ≠ 0 ∧ pa_owned (al s) (frame s root i) ∧
    ∀ p, path p → table_at (pt s) root p ≠ Some (frame s root i);
  ua_once : ∀ i j, c ≤ i < c + k → c ≤ j < c + k → present s root i = true → present s root j = true →
    do_free = true → frame s root i = frame s root j → i = j
}.

(** A word of one of the tables; only such words change, to 0. *)
Definition table_word (t : gmap Z Z) (root x : Z) : Prop :=
  ∃ q a i, path q ∧ index i ∧ table_at t root q = Some a ∧ x = slot a i.
Definition zeroed (t t' : gmap Z Z) (root : Z) : Prop :=
  ∀ x, t' !! x = t !! x ∨ t' !! x = Some 0 ∧ table_word t root x.

Lemma zeroed_refl t root : zeroed t t root.
Proof. by left. Qed.
Lemma zeroed_insert t root q a i :
  path q → index i → table_at t root q = Some a → zeroed t (<[slot a i := 0]> t) root.
Proof.
  intros Hq Hi Ha y. destruct (decide (slot a i = y)) as [<-|]; [right|left; by apply lookup_insert_ne].
  split; [apply lookup_insert_eq|]. by exists q, a, i.
Qed.
Lemma zeroed_trans t1 t2 t3 root :
  (∀ q, path q → table_at t2 root q = table_at t1 root q) → zeroed t1 t2 root → zeroed t2 t3 root → zeroed t1 t3 root.
Proof.
  intros Ht A B x. destruct (B x) as [-> |[E (q & a & i & Hq & Hi & Ha & ->)]]; [apply A|right]. split; [done|].
  rewrite Ht in Ha by done. by exists q, a, i.
Qed.

Record unmapped (s s' : vm St) (root c k : Z) (do_free : bool) : Prop := {
  um_space : space s' root;
  um_dm : dm s' = dm s;
  um_lock : vmem_lock s' = vmem_lock s;
  um_own : ∀ b, pa_owned (al s') b ↔ pa_owned (al s) b ∧
    ¬ (do_free = true ∧ ∃ i, c ≤ i < c + k ∧ present s root i = true ∧ b = frame s root i);
  um_gone : ∀ va, 0 ≤ va < MAXVA → c ≤ va / 4096 < c + k → has (pte_at (pt s') root va) PTE_V = false;
  um_keep : ∀ va, 0 ≤ va < MAXVA → ¬ (c ≤ va / 4096 < c + k) → pte_at (pt s') root va = pte_at (pt s) root va;
  um_tables : ∀ p, path p → table_at (pt s') root p = table_at (pt s) root p;
  um_words : zeroed (pt s) (pt s') root;
  um_avail : ∀ n, pa_avail (al s) n → pa_avail (al s') n
}.

(** Freeing a frame that is no table keeps the address space. *)
Lemma space_free s root a st :
  space s root → pa_inv st → (∀ b, pa_owned (al s) b → b = a ∨ pa_owned st b) →
  (∀ p, path p → table_at (pt s) root p ≠ Some a) → space (with_al s st) root.
Proof.
  intros Hs Hi Hown Hno. split; [done| |apply (sp_inj _ _ Hs)].
  intros p b Hp Hb. cbn in Hb. destruct (sp_table _ _ Hs p b Hp Hb) as [Ht Ho]. split; [done|].
  destruct (Hown b Ho) as [->|]; [|done]. by destruct (Hno p Hp).
Qed.

(** The part of the iteration that gives the frame back. *)
Lemma unmap_free s root c do_free :
  space s root → present s root c = true → unmappable s root c 1 do_free →
  ∃ st, (if do_free then
           if negb (frame s root c =? 0) && pa_range (al s) (frame s root c)
           then let* st := pa_free (frame s root c) (al s) in Ok (with_al s st) else Ok s
         else Ok s) = Ok (with_al s st) ∧ space (with_al s st) root ∧
    (∀ b, pa_owned st b ↔ pa_owned (al s) b ∧ ¬ (do_free = true ∧ b = frame s root c)) ∧
    ∀ n, pa_avail (al s) n → pa_avail st n.
Proof.
  intros Hs Hp [_ U2 _]. destruct do_free.
  - destruct (U2 c ltac:(lia) Hp eq_refl) as (Hne & Ho & Hno).
    rewrite (proj2 (Z.eqb_neq _ _)), (pa_range_ok _ _ (sp_inv _ _ Hs) Ho) by done. cbn [negb andb].
    destruct (pa_free_ok (al s) (frame s root c) (sp_inv _ _ Hs) Ho) as (st & Hf & Hi & H1 & H2 & H3). rewrite Hf.
    exists st. split; [done|]. split; [by apply (space_free s root (frame s root c))|]. split.
    2:{ intros n Hn. apply (pa_avail_le _ (S n)); [|lia]. exact (pa_free_avail _ _ _ n (sp_inv _ _ Hs) Ho Hf Hn). }
    intros b. split.
    + intros Hb. split; [by apply H1|]. intros [_ ->]. done.
    + intros [Hb Hn]. destruct (H2 b Hb); [|done]. by destruct Hn.
  - exists (al s). destruct s; cbn in *. split_and!; try done. intros b. split; [|by intros []].
    intros Hb. split; [done|]. by intros [? _].
Qed.

(** One page. *)
Lemma unmap_one s root c do_free :
  space s root → 0 ≤ c < 2 ^ 26 → unmappable s root c 1 do_free →
  ∃ s', unmap_page root do_free (c * 4096) s = Ok s' ∧ unmapped s s' root c 1 do_free.
Proof.
  intros Hs Hc Hua. assert (Hva : 0 ≤ c * 4096 < MAXVA) by (unfold MAXVA; lia). unfold unmap_page.
  rewrite (walk_internal_noalloc s root (c * 4096) Hs) by lia. cbn [bind].
  assert (Hskip : present s root c = false → unmapped s s root c 1 do_free).
  { intros Hno. split; try done; [| |apply zeroed_refl].
    - intros b. split; [|by intros []]. intros Hb. split; [done|].
      intros (_ & i & Hi & Hp & _). assert (i = c) as -> by lia. congruence.
    - intros va Hv Hin. rewrite <-Hno. unfold present. f_equal. unfold pte_at.
      destruct (indices_of_page va (c * 4096)) as [-> ->]; [lia|lia|rewrite Z.div_mul; lia|done]. }
  destruct (table_at (pt s) root (vpath (c * 4096))) as [a|] eqn:Ha; cbn [fmap option_fmap option_map].
  2:{ exists s. split; [done|]. apply Hskip. unfold present, pte_at, leaf. by rewrite Ha. }
  rewrite (rd_pte s root) by done. cbn [bind]. fold (present s root c).
  destruct (present s root c) eqn:Ev; cbn [negb].
  2:{ exists s. split; [done|]. by apply Hskip. }
  rewrite (proj2 (Z.eqb_neq _ _)) by (apply (ua_leaf _ _ _ _ _ Hua); [lia|done]). fold (frame s root c).
  destruct (unmap_free s root c do_free Hs Ev Hua) as (st & -> & Hs1 & Hown & Hav). cbn [bind].
  destruct (pte_write (with_al s st) root (c * 4096) a 0 Hs1 Hva Ha) as (-> & Hs' & Hpte).
  eexists. split; [reflexivity|]. rewrite Z.div_mul in Hpte by lia. split; try done.
  - intros b. cbn. rewrite Hown. split; intros [Hb Hn]; (split; [done|]).
    + intros (Hd & i & Hi & _ & ->). apply Hn. split; [done|]. by assert (i = c) as -> by lia.
    + intros [Hd ->]. apply Hn. split; [done|]. exists c. split_and!; [lia|lia|done|done].
  - intros va Hv Hin. rewrite Hpte, decide_True by (done || lia). done.
  - intros va Hv Hin. rewrite Hpte, decide_False by (done || lia). done.
  - intros p Hp. cbn. apply (table_at_leaf s root (vpath (c * 4096))); try done; [apply vpath_path..|apply PX_index].
  - apply (zeroed_insert _ _ (vpath (c * 4096))); [apply vpath_path|apply PX_index|done].
Qed.

(** What one page leaves of the condition for the others. *)
Lemma unmappable_step s s' root c j k do_free :
  0 ≤ c → 0 ≤ j < k → c + k ≤ 2 ^ 26 → unmappable s root c k do_free → unmapped s s' root c j do_free →
  unmappable s' root (c + j) 1 do_free.
Proof.
  intros Hc Hj Hck [U1 U2 U3] [_ _ _ M4 _ M6 M7 _ _].
  assert (E : pte_at (pt s') root ((c + j) * 4096) = pte_at (pt s) root ((c + j) * 4096)).
  { apply M6; [unfold MAXVA; lia|]. rewrite Z.div_mul by lia. lia. }
  split; [intros i Hi; assert (i = c + j) as -> by lia; unfold present, frame; rewrite ?E;
          fold (present s root (c + j)) (frame s root (c + j))..|intros; lia].
  - apply U1. lia.
  - intros Hp Hd. destruct (U2 (c + j) ltac:(lia) Hp Hd) as (H1 & H2 & H3). split_and!; [done| |].
    + apply M4. split; [done|]. intros (_ & x & Hx & Hpx & Ex). apply U3 in Ex; try done; lia.
    + intros p Hp'. rewrite M7 by done. by apply H3.
Qed.

(** Unmapping [j] pages, then one more. *)
Lemma unmapped_step s s1 s2 root c j do_free :
  0 ≤ c → 0 ≤ j → c + j < 2 ^ 26 → unmapped s s1 root c j do_free → unmapped s1 s2 root (c + j) 1 do_free →
  unmapped s s2 root c (j + 1) do_free.
Proof.
  intros Hc Hj Hcj [M1 M2 M3 M4 M5 M6 M7 M8 M9] [N1 N2 N3 N4 N5 N6 N7 N8 N9].
  assert (E : pte_at (pt s1) root ((c + j) * 4096) = pte_at (pt s) root ((c + j) * 4096)).
  { apply M6; [unfold MAXVA; lia|]. rewrite Z.div_mul by lia. lia. }
  assert (Ep : present s1 root (c + j) = present s root (c + j)) by (unfold present; by rewrite E).
  assert (Ef : frame s1 root (c + j) = frame s root (c + j)) by (unfold frame; by rewrite E).
  split; try congruence.
  - intros b. rewrite N4, M4. split.
    + intros [[Hb Hn] Hn']. split; [done|]. intros (Hd & i & Hi & Hp & ->).
      destruct (decide (i = c + j)) as [->|Hne].
      * apply Hn'. split; [done|]. exists (c + j). rewrite Ep, Ef. split_and!; [lia|lia|done|done].
      * apply Hn. split; [done|]. exists i. split_and!; [lia|lia|done|done].
    + intros [Hb Hn]. split; [split; [done|]|].
      * intros (Hd & i & Hi & Hp & ->). apply Hn. split; [done|]. exists i. split_and!; [lia|lia|done|done].
      * intros (Hd & i & Hi & Hp & ->). assert (i = c + j) as -> by lia. rewrite Ep in Hp. rewrite Ef in Hn.
        apply Hn. split; [done|]. exists (c + j). split_and!; [lia|lia|done|done].
  - intros va Hva Hin. destruct (decide (va / 4096 = c + j)) as [Ej|Ej]; [apply N5; [done|lia]|].
    rewrite N6 by (done || lia). apply M5; [done|lia].
  - intros va Hva Hout. rewrite N6 by (done || lia). apply M6; [done|lia].
  - intros p Hp. by rewrite N7, M7.
  - by apply (zeroed_trans _ (pt s1)).
  - auto.
Qed.

Lemma unmapped_none s root c do_free : space s root → unmapped s s root c 0 do_free.
Proof.
  intros Hs. split; try done; [|intros; lia|apply zeroed_refl]. intros b. split; [|by intros []]. intros Hb. split; [done|].
  intros (_ & i & Hi & _). lia.
Qed.

Lemma unmap_loop_spec s root c k do_free :
  space s root → 0 ≤ c → 0 ≤ k → c + k ≤ 2 ^ 26 → unmappable s root c k do_free →
  ∃ s', for_range 0 k (λ i, unmap_page root do_free (c * 4096 + i * PGSIZE)) s = Ok s' ∧
    unmapped s s' root c k do_free.
Proof.
  intros Hs Hc Hk Hck Hua.
  destruct (for_range_inv (λ j s', unmapped s s' root c j do_free) 0 k
    (λ i, unmap_page root do_free (c * 4096 + i * PGSIZE)) s) as (s' & Hop & Hu); [done|by apply unmapped_none| |eauto].
  intros j s1 Hj Hu. unfold PGSIZE. replace (c * 4096 + j * 4096) with ((c + j) * 4096) by lia.
  destruct (unmap_one s1 root (c + j) do_free) as (s2 & Hop & Hu'); [apply Hu|lia|by apply (unmappable_step s s1 root c j k)|].
  exists s2. split; [done|]. apply (unmapped_step s s1 s2); [lia..|done|done].
Qed.

(** ** Translation *)

(** The physical address of the page of [va] for user access, 0 for none. *)
Definition upage (t : gmap Z Z) (root va : Z) : Z :=
  let w := pte_at t root va in
  if has w PTE_V && has w PTE_U then PTE2PA w else 0.

Lemma walk_spec s root va :
  space s root → vmem_lock s = false → va < MAXVA →
  walk root va false s = Ok ((λ a, slot a (PX 0 va)) <$> table_at (pt s) root (vpath va), s).
Proof.
  intros Hs Hlk Hva. unfold walk, acquire. rewrite Hlk. cbn [bind].
  set (sl := mk_vm _ _ _ true). assert (Hsl : space sl root) by (destruct Hs; by split).
  rewrite (walk_internal_noalloc sl root va Hsl) by lia. cbn [bind pt]. unfold release, sl. cbn [vmem_lock al pt dm bind].
  destruct s; cbn in *; by subst.
Qed.

Lemma walkaddr_spec s root va :
  space s root → vmem_lock s = false → 0 ≤ va < MAXVA → walkaddr root va s = Ok (upage (pt s) root va, s).
Proof.
  intros Hs Hlk Hva. unfold walkaddr. rewrite (proj2 (Z.ltb_ge _ _)), (walk_spec s root va Hs Hlk) by lia. cbn [bind].
  unfold upage. destruct (table_at (pt s) root (vpath va)) as [a|] eqn:Ha; cbn [fmap option_fmap option_map].
  - rewrite (rd_pte s root) by done. cbn [bind].
    destruct (has (pte_at (pt s) root va) PTE_V), (has (pte_at (pt s) root va) PTE_U); done.
  - unfold pte_at, leaf. by rewrite Ha.
Qed.
End maps.

End VMem.
