(* ===== verification/VMemCopy.v ===== *)
(** * Copies between kernel and user space

    The page-by-page loop of [copyin] and [copyout] moves the bytes at the
    translated addresses. *)

From S2P Require Import Prelude Pmem CStringDefs CString VMemDefs VMem.
Import Pmem VMemDefs VMem.

Module VMemCopy.

(** The physical address of a user byte. *)
Definition uaddr (t : gmap Z Z) (root va : Z) : Z := upage t root va + va mod 4096.

(** Every page of the range is mapped for users. *)
Definition user_range (t : gmap Z Z) (root va len : Z) : Prop :=
  ∀ i, 0 ≤ i < len → upage t root (va + i) ≠ 0.

Lemma upage_same t root va va' : 0 ≤ va → 0 ≤ va' → va / 4096 = va' / 4096 → upage t root va = upage t root va'.
Proof. intros H1 H2 E. unfold upage, pte_at. by destruct (indices_of_page va va' H1 H2 E) as [-> ->]. Qed.

(** The chunk of a page: [n] bytes from [va] on are contiguous. *)
Lemma chunk_addr t root va n i :
  0 ≤ va → 0 ≤ i < n → n ≤ 4096 - va mod 4096 → uaddr t root (va + i) = uaddr t root va + i.
Proof.
  intros Hva Hi Hn. pose proof (Z.mod_pos_bound va 4096 ltac:(lia)) as Hm.
  pose proof (Z.div_mod va 4096 ltac:(lia)) as Hd.
  assert (Hq : (va + i) / 4096 = va / 4096).
  { symmetry. apply Z.div_unique with (r := va mod 4096 + i); lia. }
  assert (Hr : (va + i) mod 4096 = va mod 4096 + i).
  { symmetry. apply Z.mod_unique with (q := va / 4096); lia. }
  unfold uaddr. rewrite Hr, (upage_same t root (va + i) va) by (done || lia). lia.
Qed.

Section copies.
Context {St : Type} `{PageAllocator St} `{!PageAllocatorLaws St}.
Implicit Types (s : vm St).

(** The user memory holds [bs] at [va]. *)
Definition user_bytes s (root va : Z) (bs : list Z) : Prop :=
  ∀ i c, bs !! i = Some c → dm s !! uaddr (pt s) root (va + Z.of_nat i) = Some c.

(** One iteration of the loop reads the translation of the page. *)
Lemma copy_step fuel dir s root ker va len :
  space s root → vmem_lock s = false → 0 ≤ va → va < MAXVA → 0 < len →
  copy_loop (S fuel) dir root ker va len s =
    if upage (pt s) root va =? 0 then Ok (-1, s)
    else
      let n := Z.min (4096 - va mod 4096) len in
      let u := uaddr (pt s) root va in
      let* d := (if dir then CStringDefs.memmove ker u n (dm s) else CStringDefs.memmove u ker n (dm s)) in
      copy_loop fuel dir root (ker + n) (va - va mod 4096 + 4096) (len - n) (with_dm s d).
Proof.
  intros Hs Hlk Hva Hmax Hlen. cbn [copy_loop]. rewrite (proj2 (Z.ltb_lt _ _)) by done.
  pose proof (Z.div_mod va 4096 ltac:(lia)) as Hd. pose proof (Z.mod_pos_bound va 4096 ltac:(lia)) as Hm.
  rewrite PGROUNDDOWN_div by done. set (va0 := va / 4096 * 4096) in *.
  rewrite (walkaddr_spec s root va0 Hs Hlk) by lia. cbn [bind].
  rewrite (upage_same _ _ va0 va); [|lia|lia|unfold va0; by rewrite Z.div_mul by lia].
  unfold uaddr, PGSIZE. replace (va - va0) with (va mod 4096) by lia. by replace (va - va mod 4096) with va0 by lia.
Qed.

Lemma with_dm_id s : with_dm s (dm s) = s.
Proof. by destruct s. Qed.

(** [copyin] of a mapped range. *)
Lemma copyin_loop_spec fuel s root dst va len bs :
  space s root → vmem_lock s = false → 0 ≤ va → va + len ≤ MAXVA → Z.of_nat (length bs) = len →
  va mod 4096 + len ≤ 4096 * (Z.of_nat fuel - 1) →
  user_range (pt s) root va len → user_bytes s root va bs →
  CString.live (dm s) dst len → (∀ i j, 0 ≤ i < len → 0 ≤ j < len → dst + j ≠ uaddr (pt s) root (va + i)) →
  ∃ d, copy_loop fuel true root dst va len s = Ok (0, with_dm s d) ∧ CString.written (dm s) d dst bs.
Proof.
  revert s dst va len bs; induction fuel as [|fuel IH]; intros s dst va len bs Hs Hlk Hva Hmax Hlen Hf Hur Hub Hlv Hsep.
  { pose proof (Z.mod_pos_bound va 4096 ltac:(lia)). lia. }
  destruct (decide (len = 0)) as [->|Hne].
  { exists (dm s). rewrite with_dm_id. split; [done|]. intros a. by rewrite decide_False by lia. }
  rewrite (copy_step fuel true s root dst va len Hs Hlk) by lia.
  specialize (Hur 0 ltac:(lia)) as Hu0. rewrite Z.add_0_r in Hu0. rewrite (proj2 (Z.eqb_neq _ _)) by done.
  cbv zeta. pose proof (Z.mod_pos_bound va 4096 ltac:(lia)) as Hm. pose proof (Z.div_mod va 4096 ltac:(lia)) as Hd.
  set (n := Z.min (4096 - va mod 4096) len) in *. assert (Hn : 0 < n ≤ len) by lia.
  set (u := uaddr (pt s) root va).
  destruct (CString.memmove_written (dm s) u dst n (take (Z.to_nat n) bs)) as (d & -> & Hw).
  { lia. }
  { rewrite length_take. lia. }
  { intros i c Hi. apply lookup_take_Some in Hi as [Hi Hlt]. rewrite <-(Hub i c Hi). f_equal.
    symmetry. apply (chunk_addr (pt s) root va n); lia. }
  { apply (CString.live_sub _ dst len); [done|lia|lia]. }
  cbn [bind]. assert (Hlt : Z.of_nat (length (take (Z.to_nat n) bs)) = n) by (rewrite length_take; lia).
  destruct (decide (len = n)) as [En|En].
  { exists d. rewrite En, Z.sub_diag. split; [|by rewrite take_ge in Hw by lia].
    destruct fuel; [lia|done]. }
  replace (va - va mod 4096 + 4096) with (va + n) by lia.
  destruct (IH (with_dm s d) (dst + n) (va + n) (len - n) (drop (Z.to_nat n) bs)) as (d' & Hop & Hw').
  - destruct Hs. by split.
  - done.
  - lia.
  - lia.
  - rewrite length_drop. lia.
  - assert ((va + n) mod 4096 = 0) as ->; [|lia].
    apply Z.mod_divide; [lia|]. exists (va / 4096 + 1). lia.
  - intros i Hi. cbn [pt with_dm]. replace (va + n + i) with (va + (n + i)) by lia. apply Hur. lia.
  - intros i c Hi. cbn [pt dm with_dm]. rewrite lookup_drop in Hi. pose proof (lookup_lt_Some _ _ _ Hi).
    rewrite (Hw _), decide_False.
    + rewrite <-(Hub _ c Hi). f_equal. f_equal. lia.
    + rewrite Hlt. intros Hin. apply (Hsep (n + Z.of_nat i) (uaddr (pt s) root (va + n + Z.of_nat i) - dst)); [lia|lia|].
      replace (va + (n + Z.of_nat i)) with (va + n + Z.of_nat i) by lia. lia.
  - intros a Ha. cbn [dm with_dm]. rewrite (Hw a), decide_False by lia. apply Hlv. lia.
  - intros i j Hi Hj. cbn [pt with_dm]. replace (va + n + i) with (va + (n + i)) by lia.
    replace (dst + n + j) with (dst + (n + j)) by lia. apply Hsep; lia.
  - exists d'. split; [exact Hop|]. cbn [dm with_dm] in Hw'. intros a. rewrite (Hw' a), (Hw a), length_drop, Hlt.
    repeat case_decide; try lia; try done.
    + rewrite lookup_drop. f_equal. lia.
    + rewrite lookup_take_lt by lia. done.
Qed.

(** [copyout] of a mapped range whose bytes have distinct addresses. *)
Lemma copyout_loop_spec fuel s root src va len bs :
  space s root → vmem_lock s = false → 0 ≤ va → va + len ≤ MAXVA → Z.of_nat (length bs) = len →
  va mod 4096 + len ≤ 4096 * (Z.of_nat fuel - 1) →
  user_range (pt s) root va len → CString.bytes_of (dm s) src bs →
  (∀ i, 0 ≤ i < len → is_Some (dm s !! uaddr (pt s) root (va + i))) →
  (∀ i j, 0 ≤ i < len → 0 ≤ j < len → src + j ≠ uaddr (pt s) root (va + i)) →
  (∀ i j, 0 ≤ i < len → 0 ≤ j < len → uaddr (pt s) root (va + i) = uaddr (pt s) root (va + j) → i = j) →
  ∃ d, copy_loop fuel false root src va len s = Ok (0, with_dm s d) ∧
    (∀ i c, bs !! i = Some c → d !! uaddr (pt s) root (va + Z.of_nat i) = Some c) ∧
    (∀ a, (∀ i, 0 ≤ i < len → a ≠ uaddr (pt s) root (va + i)) → d !! a = dm s !! a).
Proof.
  revert s src va len bs; induction fuel as [|fuel IH]; intros s src va len bs Hs Hlk Hva Hmax Hlen Hf Hur Hb Hlv Hsep Hinj.
  { pose proof (Z.mod_pos_bound va 4096 ltac:(lia)). lia. }
  destruct (decide (len = 0)) as [->|Hne].
  { exists (dm s). rewrite with_dm_id. destruct bs; [|done]. split_and!; done. }
  rewrite (copy_step fuel false s root src va len Hs Hlk) by lia.
  specialize (Hur 0 ltac:(lia)) as Hu0. rewrite Z.add_0_r in Hu0. rewrite (proj2 (Z.eqb_neq _ _)) by done.
  cbv zeta. pose proof (Z.mod_pos_bound va 4096 ltac:(lia)) as Hm. pose proof (Z.div_mod va 4096 ltac:(lia)) as Hd.
  set (n := Z.min (4096 - va mod 4096) len) in *. assert (Hn : 0 < n ≤ len) by lia.
  assert (Hchunk : ∀ i, 0 ≤ i < n → uaddr (pt s) root (va + i) = uaddr (pt s) root va + i).
  { intros i Hi. apply (chunk_addr (pt s) root va n); lia. }
  set (u := uaddr (pt s) root va) in *.
  assert (Hbt : CString.bytes_of (dm s) src (take (Z.to_nat n) bs)).
  { intros i c Hi. apply lookup_take_Some in Hi as [Hi _]. by apply Hb. }
  destruct (CString.memmove_written (dm s) src u n (take (Z.to_nat n) bs)) as (d & -> & Hw).
  { lia. }
  { rewrite length_take. lia. }
  { done. }
  { intros a Ha. replace a with (u + (a - u)) by lia. rewrite <-Hchunk by lia. apply Hlv. lia. }
  cbn [bind]. assert (Hlt : Z.of_nat (length (take (Z.to_nat n) bs)) = n) by (rewrite length_take; lia).
  assert (Hget : ∀ i c, bs !! i = Some c → Z.of_nat i < n → d !! uaddr (pt s) root (va + Z.of_nat i) = Some c).
  { intros i c Hi Hin. rewrite Hchunk by lia. rewrite (Hw _), Hlt, decide_True by lia.
    replace (Z.to_nat (u + Z.of_nat i - u)) with i by lia. rewrite lookup_take_lt by lia. done. }
  assert (Hout : ∀ a, (∀ i, 0 ≤ i < n → a ≠ uaddr (pt s) root (va + i)) → d !! a = dm s !! a).
  { intros a Ha. rewrite (Hw a), Hlt, decide_False; [done|]. intros Hin. apply (Ha (a - u)); [lia|].
    rewrite Hchunk by lia. lia. }
  destruct (decide (len = n)) as [En|En].
  { exists d. split; [rewrite En, Z.sub_diag; destruct fuel; [lia|done]|]. rewrite En. split; [|done].
    intros i c Hi. apply Hget; [done|]. apply lookup_lt_Some in Hi. lia. }
  replace (va - va mod 4096 + 4096) with (va + n) by lia.
  assert (Hkeep : ∀ i, 0 ≤ i < len - n → d !! uaddr (pt s) root (va + n + i) = dm s !! uaddr (pt s) root (va + n + i)).
  { intros i Hi. apply Hout. intros j Hj Heq. replace (va + n + i) with (va + (n + i)) in Heq by lia.
    apply Hinj in Heq; lia. }
  destruct (IH (with_dm s d) (src + n) (va + n) (len - n) (drop (Z.to_nat n) bs)) as (d' & Hop & Hg' & Ho').
  - destruct Hs. by split.
  - done.
  - lia.
  - lia.
  - rewrite length_drop. lia.
  - assert ((va + n) mod 4096 = 0) as ->; [|lia].
    apply Z.mod_divide; [lia|]. exists (va / 4096 + 1). lia.
  - intros i Hi. cbn [pt with_dm]. replace (va + n + i) with (va + (n + i)) by lia. apply Hur. lia.
  - intros i c Hi. cbn [dm with_dm]. rewrite lookup_drop in Hi. pose proof (lookup_lt_Some _ _ _ Hi).
    rewrite Hout; [rewrite <-(Hb _ c Hi); f_equal; lia|]. intros j Hj. replace (src + n + Z.of_nat i) with (src + (n + Z.of_nat i)) by lia.
    apply Hsep; lia.
  - intros i Hi. cbn [pt dm with_dm]. rewrite Hkeep by done. replace (va + n + i) with (va + (n + i)) by lia. apply Hlv. lia.
  - intros i j Hi Hj. cbn [pt with_dm]. replace (va + n + i) with (va + (n + i)) by lia.
    replace (src + n + j) with (src + (n + j)) by lia. apply Hsep; lia.
  - intros i j Hi Hj. cbn [pt with_dm]. replace (va + n + i) with (va + (n + i)) by lia.
    replace (va + n + j) with (va + (n + j)) by lia. intros Heq%Hinj; lia.
  - cbn [pt dm with_dm] in Hg', Ho'. exists d'. split; [exact Hop|]. split.
    + intros i c Hi. destruct (decide (Z.of_nat i < n)) as [Hin|Hin].
      * rewrite Ho'; [by apply Hget|]. intros j Hj Heq. replace (va + n + j) with (va + (n + j)) in Heq by lia.
        pose proof (lookup_lt_Some _ _ _ Hi). apply Hinj in Heq; lia.
      * replace (va + Z.of_nat i) with (va + n + Z.of_nat (i - Z.to_nat n)) by lia. apply Hg'.
        rewrite lookup_drop. by replace (Z.to_nat n + (i - Z.to_nat n))%nat with i by lia.
    + intros a Ha. rewrite Ho'; [apply Hout|].
      * intros i Hi. apply Ha. lia.
      * intros i Hi. replace (va + n + i) with (va + (n + i)) by lia. apply Ha. lia.
Qed.

Lemma live_bytes (m : gmap Z Z) p n :
  (∀ i, 0 ≤ i < Z.of_nat n → is_Some (m !! (p + i))) → ∃ bs, length bs = n ∧ CString.bytes_of m p bs.
Proof.
  revert p; induction n as [|n IH]; intros p Hl; [by exists []|].
  destruct (Hl 0 ltac:(lia)) as [c Hc]. rewrite Z.add_0_r in Hc.
  destruct (IH (p + 1)) as (bs & Hlen & Hb).
  { intros i Hi. replace (p + 1 + i) with (p + (1 + i)) by lia. apply Hl. lia. }
  exists (c :: bs). split; [cbn; lia|]. by apply CString.bytes_of_cons.
Qed.

Lemma written_live m m' dst bs a n : CString.written m m' dst bs → CString.live m a n → CString.live m' a n.
Proof.
  intros Hw Hl x Hx. rewrite (Hw x). case_decide; [|by apply Hl]. apply lookup_lt_is_Some. lia.
Qed.

(** [copyin] of a range with a page that is not mapped for users. *)
Lemma copyin_loop_fault fuel s root dst va len :
  space s root → vmem_lock s = false → 0 ≤ va → va + len ≤ MAXVA →
  va mod 4096 + len ≤ 4096 * (Z.of_nat fuel - 1) →
  (∃ i, 0 ≤ i < len ∧ upage (pt s) root (va + i) = 0) →
  (∀ i, 0 ≤ i < len → upage (pt s) root (va + i) ≠ 0 → is_Some (dm s !! uaddr (pt s) root (va + i))) →
  CString.live (dm s) dst len →
  ∃ d, copy_loop fuel true root dst va len s = Ok (-1, with_dm s d) ∧
    ∀ a, ¬ (dst ≤ a < dst + len) → d !! a = dm s !! a.
Proof.
  revert s dst va len; induction fuel as [|fuel IH]; intros s dst va len Hs Hlk Hva Hmax Hf (j & Hj & Hu) Hex Hlv.
  { pose proof (Z.mod_pos_bound va 4096 ltac:(lia)). lia. }
  rewrite (copy_step fuel true s root dst va len Hs Hlk) by lia.
  destruct (Z.eqb_spec (upage (pt s) root va) 0) as [E|E].
  { exists (dm s). by rewrite with_dm_id. }
  cbv zeta. pose proof (Z.mod_pos_bound va 4096 ltac:(lia)) as Hm. pose proof (Z.div_mod va 4096 ltac:(lia)) as Hd.
  set (n := Z.min (4096 - va mod 4096) len) in *. assert (Hn : 0 < n ≤ len) by lia.
  assert (Hsame : ∀ i, 0 ≤ i < n → upage (pt s) root (va + i) = upage (pt s) root va).
  { intros i Hi. apply upage_same; [lia|lia|]. symmetry. apply Z.div_unique with (r := va mod 4096 + i); lia. }
  assert (Hjn : n ≤ j). { destruct (decide (j < n)); [|lia]. rewrite Hsame in Hu by lia. congruence. }
  destruct (live_bytes (dm s) (uaddr (pt s) root va) (Z.to_nat n)) as (bs & Hlen & Hb).
  { intros i Hi. rewrite <-(chunk_addr (pt s) root va n) by lia. apply Hex; [lia|]. by rewrite Hsame by lia. }
  destruct (CString.memmove_written (dm s) (uaddr (pt s) root va) dst n bs) as (d & -> & Hw);
    [lia|lia|done|by apply (CString.live_sub _ dst len); [|lia|lia]|].
  cbn [bind]. replace (va - va mod 4096 + 4096) with (va + n) by lia.
  destruct (IH (with_dm s d) (dst + n) (va + n) (len - n)) as (d' & Hop & Ho); cbn [pt dm with_dm].
  - destruct Hs. by split.
  - done.
  - lia.
  - lia.
  - assert ((va + n) mod 4096 = 0) as ->; [|lia]. apply Z.mod_divide; [lia|]. exists (va / 4096 + 1). lia.
  - exists (j - n). split; [lia|]. by replace (va + n + (j - n)) with (va + j) by lia.
  - intros i Hi Hui. destruct (Hex (n + i)) as [c Hc]; [lia|by replace (va + (n + i)) with (va + n + i) by lia|].
    replace (va + (n + i)) with (va + n + i) in Hc by lia.
    apply (written_live (dm s) d dst bs (uaddr (pt s) root (va + n + i)) 1 Hw); [|lia].
    intros a Ha. assert (a = uaddr (pt s) root (va + n + i)) as -> by lia. by eexists.
  - apply (written_live (dm s) d dst bs _ _ Hw). by apply (CString.live_sub _ dst len); [|lia|lia].
  - exists d'. split; [exact Hop|]. intros a Ha. rewrite Ho by lia. cbn [dm with_dm].
    rewrite (Hw a), decide_False by lia. done.
Qed.

(** ** Totality of copyout *)

(** A copy keeps the set of accessible addresses. *)
Lemma store_dom p b (m m' : gmap Z Z) : CStringDefs.store p b m = Ok m' → dom m' = dom m.
Proof.
  unfold CStringDefs.store, CStringDefs.load. intros Hst. inv_res.
  rewrite dom_insert_L. assert (p ∈ dom m) by (by eapply elem_of_dom_2). set_solver.
Qed.

Lemma memmove_dom dst src n (m m' : gmap Z Z) : CStringDefs.memmove dst src n m = Ok m' → dom m' = dom m.
Proof.
  assert (Hf : ∀ k (a d : Z) (m m' : gmap Z Z), CStringDefs.copy_fwd k a d m = Ok m' → dom m' = dom m).
  { induction k as [|k IH]; cbn; intros a d x y Hop; inv_res; [done|].
    rewrite (IH _ _ _ _ Hop). by eapply store_dom. }
  assert (Hb : ∀ k (a d : Z) (m m' : gmap Z Z), CStringDefs.copy_back k a d m = Ok m' → dom m' = dom m).
  { induction k as [|k IH]; cbn; intros a d x y Hop; inv_res; [done|].
    rewrite (IH _ _ _ _ Hop). by eapply store_dom. }
  unfold CStringDefs.memmove. case_match; eauto.
Qed.

(** What a [copyout] that returns has changed. *)
Lemma copyout_loop_inv fuel s root ker va len r s' :
  space s root → vmem_lock s = false → 0 ≤ va →
  copy_loop fuel false root ker va len s = Ok (r, s') → ∃ d, s' = with_dm s d ∧ dom d = dom (dm s).
Proof.
  revert s ker va len; induction fuel as [|fuel IH]; intros s ker va len Hs Hlk Hva Hop; [done|].
  destruct (decide (0 < len)) as [Hlen|Hlen].
  2: { cbn [copy_loop] in Hop. rewrite (proj2 (Z.ltb_ge _ _)) in Hop by lia. injection Hop as <- <-. exists (dm s). by rewrite with_dm_id. }
  destruct (decide (va < MAXVA)) as [Hm|Hm].
  2: { cbn [copy_loop] in Hop. rewrite (proj2 (Z.ltb_lt _ _)) in Hop by done. inv_res.
       destruct r0 as [pa s0]. exfalso. revert Hr. rewrite PGROUNDDOWN_div by done. unfold walkaddr, walk, walk_internal.
       pose proof (Z.div_le_mono MAXVA va 4096 ltac:(lia) ltac:(lia)) as Hd. change (MAXVA / 4096) with (2 ^ 26) in Hd.
       destruct (Z.ltb_spec MAXVA (va / 4096 * 4096)); [done|]. unfold acquire. rewrite Hlk. cbn [bind].
       unfold assert_. rewrite (proj2 (Z.ltb_ge _ _)) by (unfold MAXVA; lia). done. }
  rewrite (copy_step fuel false s root ker va len Hs Hlk) in Hop by done.
  destruct (Z.eqb_spec (upage (pt s) root va) 0) as [E|E].
  { injection Hop as <- <-. exists (dm s). by rewrite with_dm_id. }
  cbv zeta in Hop. inv_res. pose proof (Z.mod_pos_bound va 4096 ltac:(lia)).
  apply IH in Hop as (d & -> & Hd); [|destruct Hs; by split|done|lia].
  exists d. split; [done|]. rewrite Hd. cbn. by eapply memmove_dom.
Qed.

(** [copyout] returns: 0 when the range is mapped for users, else -1. *)
Lemma copyout_loop_total fuel s root ker va len :
  space s root → vmem_lock s = false → 0 ≤ va → 0 ≤ len → va + len ≤ MAXVA →
  va mod 4096 + len ≤ 4096 * (Z.of_nat fuel - 1) → CString.live (dm s) ker len →
  (∀ i, 0 ≤ i < len → upage (pt s) root (va + i) ≠ 0 → is_Some (dm s !! uaddr (pt s) root (va + i))) →
  ∃ r s', copy_loop fuel false root ker va len s = Ok (r, s') ∧
    (r = 0 ∧ user_range (pt s) root va len ∨ r = -1 ∧ ∃ i, 0 ≤ i < len ∧ upage (pt s) root (va + i) = 0).
Proof.
  revert s ker va len; induction fuel as [|fuel IH]; intros s ker va len Hs Hlk Hva Hlen Hmax Hf Hlv Hex.
  { pose proof (Z.mod_pos_bound va 4096 ltac:(lia)). lia. }
  destruct (decide (len = 0)) as [->|Hne].
  { exists 0, s. split; [done|]. left. split; [done|]. intros i Hi. lia. }
  rewrite (copy_step fuel false s root ker va len Hs Hlk) by lia.
  destruct (Z.eqb_spec (upage (pt s) root va) 0) as [E|E].
  { exists (-1), s. split; [done|]. right. split; [done|]. exists 0. rewrite Z.add_0_r. split; [lia|done]. }
  cbv zeta. pose proof (Z.mod_pos_bound va 4096 ltac:(lia)) as Hm. pose proof (Z.div_mod va 4096 ltac:(lia)) as Hd.
  set (n := Z.min (4096 - va mod 4096) len) in *. assert (Hn : 0 < n ≤ len) by lia.
  assert (Hsame : ∀ i, 0 ≤ i < n → upage (pt s) root (va + i) = upage (pt s) root va).
  { intros i Hi. apply upage_same; [lia|lia|]. symmetry. apply Z.div_unique with (r := va mod 4096 + i); lia. }
  destruct (live_bytes (dm s) ker (Z.to_nat n)) as (bs & Hl & Hb).
  { intros i Hi. apply Hlv. lia. }
  destruct (CString.memmove_written (dm s) ker (uaddr (pt s) root va) n bs) as (d & -> & Hw); [lia|lia|done| |].
  { intros a Ha. replace a with (uaddr (pt s) root va + (a - uaddr (pt s) root va)) by lia.
    rewrite <-(chunk_addr (pt s) root va n) by lia. apply Hex; [lia|]. by rewrite Hsame by lia. }
  cbn [bind]. destruct (decide (len = n)) as [En|En].
  { exists 0, (with_dm s d). rewrite En, Z.sub_diag. split; [destruct fuel; [lia|done]|]. left. split; [done|].
    intros i Hi. by rewrite Hsame. }
  replace (va - va mod 4096 + 4096) with (va + n) by lia.
  destruct (IH (with_dm s d) (ker + n) (va + n) (len - n)) as (r & s' & Hop & Hr); cbn [pt dm with_dm].
  1-5: by (destruct Hs; split) || lia || done.
  - assert ((va + n) mod 4096 = 0) as ->; [|lia]. apply Z.mod_divide; [lia|]. exists (va / 4096 + 1). lia.
  - apply (written_live (dm s) d _ bs _ _ Hw). by apply (CString.live_sub _ ker len); [|lia|lia].
  - intros i Hi Hui. apply (written_live (dm s) d _ bs (uaddr (pt s) root (va + n + i)) 1 Hw); [|lia].
    intros a Ha. assert (a = uaddr (pt s) root (va + (n + i))) as ->.
    { replace (va + (n + i)) with (va + n + i) by lia. lia. }
    apply Hex; [lia|]. by replace (va + (n + i)) with (va + n + i) by lia.
  - exists r, s'. split; [done|]. cbn [pt with_dm] in Hr. destruct Hr as [[-> Hr]|[-> (i & Hi & Hu)]]; [left|right].
    + split; [done|]. intros i Hi. destruct (decide (i < n)); [by rewrite Hsame by lia|].
      replace (va + i) with (va + n + (i - n)) by lia. apply Hr. lia.
    + split; [done|]. exists (n + i). split; [lia|]. by replace (va + (n + i)) with (va + n + i) by lia.
Qed.

(** ** access_ok *)

(** The page of [va] is valid, for users, and has the permission [bit]. *)
Definition grants s (root bit va : Z) : Prop :=
  let w := pte_at (pt s) root va in has w PTE_V = true ∧ has w PTE_U = true ∧ has w bit = true.

Lemma access_loop_spec fuel s root bit c e :
  space s root → vmem_lock s = false → 0 ≤ c → e ≤ MAXVA → (0 < fuel)%nat →
  e - c * 4096 ≤ 4096 * (Z.of_nat fuel - 1) →
  ∃ r, access_loop fuel root bit (c * 4096) e s = Ok (r, s) ∧ (r = 0 ∨ r = 1) ∧
    (r = 1 ↔ ∀ i, c ≤ i → i * 4096 < e → grants s root bit (i * 4096)).
Proof.
  intros Hs Hlk. revert c; induction fuel as [|fuel IH]; intros c Hc He Hf0 Hf; [lia|]; cbn [access_loop].
  destruct (Z.ltb_spec (c * 4096) e) as [Hlt|Hge].
  2:{ exists 1. split; [done|]. split; [by right|]. split; [intros _ i Hi Hie; lia|done]. }
  rewrite (walk_spec s root (c * 4096) Hs Hlk) by lia. cbn [bind].
  assert (Hno : ¬ grants s root bit (c * 4096) → ∃ r, Ok (0, s) = Ok (r, s) ∧ (r = 0 ∨ r = 1) ∧
    (r = 1 ↔ ∀ i, c ≤ i → i * 4096 < e → grants s root bit (i * 4096))).
  { intros Hn. exists 0. split; [done|]. split; [by left|]. split; [done|]. intros Hall.
    destruct Hn. apply Hall; lia. }
  destruct (table_at (pt s) root (vpath (c * 4096))) as [a|] eqn:Ha; cbn [fmap option_fmap option_map].
  2:{ apply Hno. unfold grants, pte_at, leaf. rewrite Ha. cbn. by intros [? _]. }
  rewrite (rd_pte s root) by done. cbn [bind]. unfold grants in Hno.
  destruct (has (pte_at (pt s) root (c * 4096)) PTE_V) eqn:E1; cbn [negb]; [|apply Hno; naive_solver].
  destruct (has (pte_at (pt s) root (c * 4096)) PTE_U) eqn:E2; cbn [negb]; [|apply Hno; naive_solver].
  destruct (has (pte_at (pt s) root (c * 4096)) bit) eqn:E3; cbn [negb]; [|apply Hno; naive_solver].
  unfold PGSIZE. replace (c * 4096 + 4096) with ((c + 1) * 4096) by lia.
  destruct (IH (c + 1)) as (r & -> & Hr & Hall); [lia..|]. exists r. split; [done|]. split; [done|].
  rewrite Hall. split; intros Hg i Hi Hie.
  - destruct (decide (i = c)) as [->|]; [done|]. apply Hg; lia.
  - apply Hg; lia.
Qed.
End copies.

End VMemCopy.
