(* ===== verification/VMemSpec.v ===== *)
(** * Properties of virtual memory (kernel/vmem.c)

    Mapping, unmapping, translation, permission checks and the copies between
    kernel and user memory, for any page allocator that satisfies its
    interface; the examples run on the buddy allocator. *)

From S2P Require Import Prelude BuddyDefs Pmem PmemSpec CStringDefs CString VMemDefs VMem VMemCopy.
Import Pmem PmemSpec VMemDefs VMem VMemCopy.

Module VMemSpec.

Section spec.
Context {St : Type} `{PageAllocator St} `{!PageAllocatorLaws St}.
Implicit Types (s : vm St).

Definition locked s (b : bool) : vm St := mk_vm (al s) (pt s) (dm s) b.

Lemma locked_same s : vmem_lock s = false → locked s false = s.
Proof. destruct s; cbn. by intros ->. Qed.

Lemma space_locked s root b : space s root → space (locked s b) root.
Proof. intros []. by split. Qed.

Lemma space_dm s root d : space s root → space (with_dm s d) root.
Proof. intros []. by split. Qed.

Lemma mapped_locked s s' root c k pa perm b b' :
  mapped (locked s b) s' root c k pa perm → vmem_lock s = b' → mapped s (locked s' b') root c k pa perm.
Proof. intros [M1 M2 M3 M4 M5] <-. split; try done; [by apply space_locked|]. destruct M4. by split. Qed.

Lemma unmapped_locked s s' root c k fr b b' :
  unmapped (locked s b) s' root c k fr → vmem_lock s = b' → unmapped s (locked s' b') root c k fr.
Proof. intros [M1 M2 M3 M4 M5 M6 M7 M8] <-. split; try done. by apply space_locked. Qed.

(** The pages of [va .. va+len-1]: the first and their number. *)
Definition first_page (va : Z) : Z := va / 4096.
Definition page_count (va len : Z) : Z := (va + len - 1) / 4096 - va / 4096 + 1.

Lemma page_count_bounds va len :
  0 ≤ va → 1 ≤ len → va + len ≤ MAXVA →
  1 ≤ page_count va len ∧ first_page va + page_count va len ≤ 2 ^ 26 ∧ page_count va len * 4096 < len + 2 * 4096.
Proof.
  intros Hv Hl Hm. unfold page_count, first_page, MAXVA in *.
  pose proof (Z.div_le_mono va (va + len - 1) 4096 ltac:(lia) ltac:(lia)).
  pose proof (Z.div_mod va 4096 ltac:(lia)). pose proof (Z.mod_pos_bound va 4096 ltac:(lia)).
  pose proof (Z.div_mod (va + len - 1) 4096 ltac:(lia)). pose proof (Z.mod_pos_bound (va + len - 1) 4096 ltac:(lia)).
  lia.
Qed.

(** The iteration bound of the copy loops covers the pages of the range. *)
Lemma copy_fuel_enough va len :
  0 ≤ len → (0 < copy_fuel len)%nat ∧ va mod 4096 + len ≤ 4096 * (Z.of_nat (copy_fuel len) - 1).
Proof.
  intros Hl. unfold copy_fuel, PGSIZE. pose proof (Z.mod_pos_bound va 4096 ltac:(lia)).
  pose proof (Z.div_pos len 4096 ltac:(lia) ltac:(lia)).
  pose proof (Z.div_mod len 4096 ltac:(lia)). pose proof (Z.mod_pos_bound len 4096 ltac:(lia)). lia.
Qed.

(** [mappages] runs its loop from the first to the last page. *)
Lemma mappages_loop s root va pa len perm :
  vmem_lock s = false → 0 ≤ va → 1 ≤ len → va + len ≤ MAXVA → pa mod 4096 = 0 →
  let c := first_page va in let k := page_count va len in
  mappages root va pa len perm s =
    let* (r, s) := map_loop (Z.to_nat k) root (c * 4096) ((c + k - 1) * 4096) pa perm (locked s true) in
    let* s := release s in Ok (r, s).
Proof.
  intros Hlk Hv Hl Hm Hpa c k. destruct (page_count_bounds va len Hv Hl Hm) as (H1 & H2 & _). fold c k in H1, H2.
  unfold mappages, acquire. rewrite Hlk. cbn [bind]. unfold mappages_internal.
  rewrite (proj2 (Z.ltb_lt va MAXVA)), (proj2 (Z.eqb_eq _ _)) by (done || lia). cbn [assert_ bind].
  unfold MAXVA in Hm. rewrite u64_small, !PGROUNDDOWN_div by lia.
  change (va / 4096) with c. replace ((va + len - 1) / 4096) with (c + k - 1) by (unfold c, k, first_page, page_count; lia).
  assert (map_fuel (c * 4096) ((c + k - 1) * 4096) = Z.to_nat k) as ->; [|done].
  unfold map_fuel, PGSIZE. rewrite (proj2 (Z.ltb_ge _ _)) by lia. f_equal.
  replace ((c + k - 1) * 4096 - c * 4096) with ((k - 1) * 4096) by lia. rewrite Z.div_mul; lia.
Qed.

Lemma release_locked s s1 root c k pa perm :
  vmem_lock s = false → mapped (locked s true) s1 root c k pa perm → release s1 = Ok (locked s1 false).
Proof. intros Hlk Hm. unfold release. by rewrite (mp_lock _ _ _ _ _ _ _ Hm). Qed.

Lemma mappages_ok s root va pa len perm n :
  space s root → vmem_lock s = false → 0 ≤ va → 1 ≤ len → va + len ≤ MAXVA →
  pa mod 4096 = 0 → 0 ≤ pa → pa + len < 2 ^ 63 →
  let c := first_page va in let k := page_count va len in
  (∀ i, c ≤ i < c + k → present s root i = false) → pa_avail (al s) (2 * Z.to_nat k + n) →
  ∃ s', mappages root va pa len perm s = Ok (1, s') ∧ mapped s s' root c k pa perm ∧ pa_avail (al s') n.
Proof.
  intros Hs Hlk Hv Hl Hm Hal Hpa Hpl c k Hno Hav.
  destruct (page_count_bounds va len Hv Hl Hm) as (H1 & H2 & H3). fold c k in H1, H2, H3.
  rewrite mappages_loop by done. fold c k. cbv zeta.
  destruct (map_loop_spec (Z.to_nat k) (locked s true) root c k pa perm n) as (s1 & -> & Hmp & Hav1); try done.
  - by apply space_locked.
  - by apply Z.div_pos.
  - unfold MAXVA in Hm. lia.
  - cbn [bind]. rewrite (release_locked s s1 root c k pa perm Hlk Hmp). cbn [bind].
    exists (locked s1 false). split_and!; [done|by apply (mapped_locked s s1 root c k pa perm true)|done].
Qed.

Lemma mappages_remap s root va pa len perm j n :
  space s root → vmem_lock s = false → 0 ≤ va → 1 ≤ len → va + len ≤ MAXVA →
  pa mod 4096 = 0 → 0 ≤ pa → pa + len < 2 ^ 63 →
  let c := first_page va in let k := page_count va len in
  0 ≤ j < k → (∀ i, c ≤ i < c + j → present s root i = false) → present s root (c + j) = true →
  pa_avail (al s) (2 * Z.to_nat (j + 1) + n) →
  ∃ s', mappages root va pa len perm s = Ok (- EINVAL, s') ∧ mapped s s' root c j pa perm.
Proof.
  intros Hs Hlk Hv Hl Hm Hal Hpa Hpl c k Hj Hno Hyes Hav.
  destruct (page_count_bounds va len Hv Hl Hm) as (H1 & H2 & H3). fold c k in H1, H2, H3.
  rewrite mappages_loop by done. fold c k. cbv zeta.
  destruct (map_loop_remap (Z.to_nat k) (locked s true) root c j ((c + k - 1) * 4096) pa perm n)
    as (s1 & -> & Hmp); try done; try (unfold MAXVA in Hm; lia).
  - by apply space_locked.
  - by apply Z.div_pos.
  - cbn [bind]. rewrite (release_locked s s1 root c j pa perm Hlk Hmp). cbn [bind].
    exists (locked s1 false). split; [done|]. by apply (mapped_locked s s1 root c j pa perm true).
Qed.

(** A fresh page table maps nothing. *)
Lemma uvmcreate_space s n :
  pa_inv (al s) → pa_avail (al s) (S n) →
  ∃ root s', uvmcreate s = Ok (root, s') ∧ root ≠ 0 ∧ space s' root ∧ pa_avail (al s') n ∧ dm s' = dm s ∧
    vmem_lock s' = vmem_lock s ∧ (∀ va, pte_at (pt s') root va = 0) ∧
    (∀ p, path p → p ≠ [] → table_at (pt s') root p = None) ∧
    pt s' = zero_table root (pt s) ∧ ¬ pa_owned (al s) root ∧ ∀ b, pa_owned (al s') b ↔ b = root ∨ pa_owned (al s) b.
Proof.
  intros Hi Hav. unfold uvmcreate.
  destruct (pa_alloc_ok (al s) n Hi Hav) as (a & st & -> & Hi' & Hav' & Hb & Hal & Hno & Hown). cbn [bind].
  rewrite (proj2 (Z.eqb_neq _ _)) by lia. eexists a, _. split; [reflexivity|].
  assert (Hnone : ∀ p, path p → p ≠ [] → table_at (zero_table a (pt s)) a p = None).
  { intros [|i p] [_ Hp]; [done|]. intros _. apply Forall_cons in Hp as [Hix _]. cbn. unfold child.
    by rewrite zero_table_in. }
  split_and!; try done; cbn [al pt dm vmem_lock with_pt with_al]; [lia| |].
  - split; cbn [al pt dm vmem_lock with_pt with_al]; [done| |].
    + intros p b Hp Hb'. destruct (decide (p = [])) as [->|Hne]; [|by rewrite Hnone in Hb'].
      injection Hb' as <-. split; [|apply Hown; by left]. split; [done|]. intros i Hix. by rewrite zero_table_in.
    + intros p q b Hp Hq E1 E2. destruct (decide (p = [])) as [->|]; [|by rewrite Hnone in E1].
      destruct (decide (q = [])) as [->|]; [done|by rewrite Hnone in E2].
  - intros va. unfold pte_at, leaf. rewrite Hnone; [done|apply vpath_path|done].
Qed.

Lemma vmunmap_ok s root c k do_free :
  space s root → vmem_lock s = false → 0 ≤ c → 0 ≤ k → c + k ≤ 2 ^ 26 → unmappable s root c k do_free →
  ∃ s', vmunmap root (c * 4096) k do_free s = Ok s' ∧ unmapped s s' root c k do_free.
Proof.
  intros Hs Hlk Hc Hk Hck Hua. unfold vmunmap, PGSIZE. rewrite Z.mod_mul by lia. cbn [Z.eqb assert_ bind].
  unfold acquire. rewrite Hlk. cbn [bind].
  destruct (unmap_loop_spec (locked s true) root c k do_free) as (s1 & Hop & Hu); try done.
  { by apply space_locked. }
  { destruct Hua. by split. }
  unfold locked in Hop at 1. unfold PGSIZE in Hop. rewrite Hop. cbn [bind]. unfold release.
  rewrite (um_lock _ _ _ _ _ _ Hu). cbn [vmem_lock locked].
  exists (locked s1 false). split; [done|]. by apply (unmapped_locked s s1 root c k do_free true).
Qed.
End spec.

(** ** An address space on the small allocator

    The page 0x1000 is mapped to the frame 0x80300000 (outside the allocator)
    with permissions R, W and U; the first 16 bytes of the frame and a kernel
    buffer at 0x1000000 exist. *)
Definition user_perm : Z := Z.lor (Z.lor PTE_R PTE_W) PTE_U.
Definition bytes_at (p : Z) (bs : list Z) (m : gmap Z Z) : gmap Z Z :=
  foldr (λ '(i, c) m, <[p + i := c]> m) m (zip (seqZ 0 (Z.of_nat (length bs))) bs).
Definition greeting : list Z := [104; 101; 108; 108; 111].
Definition user_dm : gmap Z Z := bytes_at 0x80300000 greeting (bytes_at 0x1000000 [1; 2; 3; 4; 5] ∅).
Definition bare : vm Buddy.buddy := mk_vm small_state ∅ user_dm false.
Definition tables : Z * vm Buddy.buddy := get (0, bare) (uvmcreate bare).
Definition root0 : Z := fst tables.
Definition user_space : Z * vm Buddy.buddy := get (0, bare) (mappages root0 0x1000 0x80300000 4096 user_perm (snd tables)).
Definition user0 : vm Buddy.buddy := snd user_space.

Lemma tables_ok :
  uvmcreate bare = Ok tables ∧ space (snd tables) root0 ∧ vmem_lock (snd tables) = false ∧ dm (snd tables) = user_dm ∧
  pa_avail (al (snd tables)) 7 ∧ (∀ i, present (snd tables) root0 i = false).
Proof.
  destruct (uvmcreate_space bare 7) as (root & s & Hop & _ & Hs & Hav & Hd & Hlk & Hno & _);
    [exact small_wf|exact small_avail|].
  assert (E : tables = (root, s)) by (unfold tables; exact (get_Ok (0, bare) _ _ Hop)).
  unfold root0. rewrite E. cbn [fst snd]. split_and!; try assumption.
  intros i. unfold present. rewrite Hno. reflexivity.
Qed.

Lemma user0_ok :
  mappages root0 0x1000 0x80300000 4096 user_perm (snd tables) = Ok (1, user0) ∧
  mapped (snd tables) user0 root0 1 1 0x80300000 user_perm ∧ pa_avail (al user0) 5.
Proof.
  destruct tables_ok as (_ & Hs & Hlk & _ & Hav & Hno).
  destruct (mappages_ok (snd tables) root0 0x1000 0x80300000 4096 user_perm 5 Hs Hlk) as (s' & Hop & Hm & Hav');
    [lia|lia|unfold MAXVA; lia|reflexivity|lia|lia|intros; apply Hno|exact Hav|].
  assert (E : user0 = s') by (unfold user0, user_space; exact (f_equal snd (get_Ok (0, bare) _ _ Hop))).
  rewrite E. split; [exact Hop|]. split; [exact Hm|exact Hav'].
Qed.

Lemma user0_space : space user0 root0 ∧ vmem_lock user0 = false ∧ dm user0 = user_dm.
Proof.
  destruct tables_ok as (_ & _ & Hlk & Hd & _). destruct user0_ok as (_ & [M1 M2 M3 _ _] & _).
  rewrite M2, M3. split; [exact M1|]. split; [exact Hlk|exact Hd].
Qed.

(** The entry of an address of the mapped page. *)
Lemma user0_pte va : 0x1000 ≤ va < 0x2000 → pte_at (pt user0) root0 va = leaf_word 0x80300000 user_perm.
Proof.
  intros Hva. destruct user0_ok as (_ & Hm & _). rewrite (mp_pte _ _ _ _ _ _ _ Hm) by (unfold MAXVA; lia).
  assert (va / 4096 = 1) as -> by (symmetry; apply Z.div_unique with (r := va - 4096); lia). reflexivity.
Qed.

Lemma user0_upage va : 0x1000 ≤ va < 0x2000 → upage (pt user0) root0 va = 0x80300000.
Proof. intros Hva. unfold upage. rewrite user0_pte by exact Hva. reflexivity. Qed.

Lemma user0_uaddr i : 0 ≤ i < 4096 → uaddr (pt user0) root0 (0x1000 + i) = 0x80300000 + i.
Proof.
  intros Hi. unfold uaddr. rewrite user0_upage by lia. f_equal.
  symmetry. apply Z.mod_unique with (q := 1); lia.
Qed.

(** ** Mapping and unmapping *)

Section claims.
Context {St : Type} `{PageAllocator St} `{!PageAllocatorLaws St}.
Implicit Types (s : vm St).

(** C29. [mappages] on an address space with enough free pages for the tables:
    when no page of the range is mapped it returns 1, the pages of the range
    translate to the consecutive frames from [pa] on with the flags
    [perm | PTE_V], every other entry is unchanged and the tables still form
    an address space; when page [j] of the range is the first that is mapped
    it returns [-EINVAL] (the comment says -1) and the [j] pages before it stay
    mapped. *)
Theorem mappages_correct s root va pa len perm n :
  space s root → vmem_lock s = false → 0 ≤ va → 1 ≤ len → va + len ≤ MAXVA →
  pa mod 4096 = 0 → 0 < pa → pa + len + 2 * 4096 ≤ 2 ^ 56 → 0 ≤ perm < 1024 →
  let c := first_page va in
  let k := page_count va len in
  pa_avail (al s) (2 * Z.to_nat k + n) →
  ((∀ i, c ≤ i < c + k → present s root i = false) →
   ∃ s', mappages root va pa len perm s = Ok (1, s') ∧ space s' root ∧ vmem_lock s' = false ∧
     dm s' = dm s ∧ pa_avail (al s') n ∧
     ∀ va', 0 ≤ va' < MAXVA →
       let w := pte_at (pt s') root va' in
       if decide (c ≤ va' / 4096 < c + k)
       then has w PTE_V = true ∧ PTE2PA w = pa + (va' / 4096 - c) * 4096 ∧ PTE_FLAGS w = Z.lor perm PTE_V
       else w = pte_at (pt s) root va') ∧
  (∀ j, 0 ≤ j < k → (∀ i, c ≤ i < c + j → present s root i = false) → present s root (c + j) = true →
   ∃ s', mappages root va pa len perm s = Ok (- EINVAL, s') ∧ mapped s s' root c j pa perm).
Proof.
  intros Hs Hlk Hv Hl Hm Hal Hpa Hpl Hperm c k Hav.
  destruct (page_count_bounds va len Hv Hl Hm) as (H1 & H2 & H3). fold c k in H1, H2, H3. split.
  - intros Hno. destruct (mappages_ok s root va pa len perm n) as (s' & Hop & Hmp & Hav'); try done; try lia.
    exists s'. destruct Hmp as [M1 M2 M3 _ M5]. split_and!; try done; [congruence|].
    intros va' Hva'. cbv zeta. rewrite M5 by done. fold c k. case_decide as E; [|done].
    apply leaf_pte; [|done]. split; [lia|].
    by rewrite Z.mod_add by lia.
  - intros j Hj Hno Hyes. apply (mappages_remap s root va pa len perm j (2 * Z.to_nat (k - j - 1) + n)); try done; try lia.
    by replace (2 * Z.to_nat (j + 1) + (2 * Z.to_nat (k - j - 1) + n))%nat with (2 * Z.to_nat k + n)%nat by lia.
Qed.

(** [vmunmap] of [k] pages from page [c] on, whose mapped pages are leaves
    (and, to be freed, are owned frames mapped once that hold no page table):
    no page of the range is mapped afterwards, the others keep their entry,
    and exactly the frames of the range's mapped pages go back to the allocator
    when [do_free] is set, none otherwise. *)
Theorem vmunmap_correct s root c k do_free :
  space s root → vmem_lock s = false → 0 ≤ c → 0 ≤ k → c + k ≤ MAXVA / 4096 → unmappable s root c k do_free →
  ∃ s', vmunmap root (c * 4096) k do_free s = Ok s' ∧ space s' root ∧ vmem_lock s' = false ∧ dm s' = dm s ∧
    (∀ va, 0 ≤ va < MAXVA → c ≤ va / 4096 < c + k → has (pte_at (pt s') root va) PTE_V = false) ∧
    (∀ va, 0 ≤ va < MAXVA → ¬ (c ≤ va / 4096 < c + k) → pte_at (pt s') root va = pte_at (pt s) root va) ∧
    (∀ b, pa_owned (al s') b ↔ pa_owned (al s) b ∧
       ¬ (do_free = true ∧ ∃ i, c ≤ i < c + k ∧ present s root i = true ∧ b = frame s root i)).
Proof.
  intros Hs Hlk Hc Hk Hck Hua. change (MAXVA / 4096) with (2 ^ 26) in Hck.
  destruct (vmunmap_ok s root c k do_free Hs Hlk Hc Hk Hck Hua) as (s' & Hop & [U1 U2 U3 U4 U5 U6 _ _ _]).
  exists s'. split_and!; try done. congruence.
Qed.

(** ** Copies *)

(** [copyin] of [len] bytes at a user address: when every page of the
    range is mapped for users it returns 0 and the bytes are at [dst], with
    every other byte unchanged; when a page of the range is not, it returns
    -1 and has changed no byte outside the destination. *)
Theorem copyin_correct s root dst va len :
  space s root → vmem_lock s = false → 0 ≤ va → 0 ≤ len → va + len ≤ MAXVA → CString.live (dm s) dst len →
  (∀ i, 0 ≤ i < len → upage (pt s) root (va + i) ≠ 0 → is_Some (dm s !! uaddr (pt s) root (va + i))) →
  (∀ bs, user_range (pt s) root va len → Z.of_nat (length bs) = len → user_bytes s root va bs →
     (∀ i j, 0 ≤ i < len → 0 ≤ j < len → dst + j ≠ uaddr (pt s) root (va + i)) →
     ∃ d, copyin root dst va len s = Ok (0, with_dm s d) ∧ CString.written (dm s) d dst bs) ∧
  ((∃ i, 0 ≤ i < len ∧ upage (pt s) root (va + i) = 0) →
     ∃ d, copyin root dst va len s = Ok (-1, with_dm s d) ∧ CString.same_outside (dm s) d dst (dst + len)).
Proof.
  intros Hs Hlk Hva Hlen Hmax Hlv Hex. unfold copyin. rewrite (proj2 (Z.ltb_ge _ _)) by lia.
  destruct (copy_fuel_enough va len) as [_ Hf]; [lia|].
  split.
  - intros bs Hur Hl Hb Hsep. by apply copyin_loop_spec.
  - intros Hno. by apply copyin_loop_fault.
Qed.

(** C30. What [copyout] wrote, [copyin] reads back: for a user range mapped
    for users (writable or not: [copyout] does not look at [PTE_W]) whose
    bytes are distinct and apart from the two kernel buffers, [copyout] from
    [src] followed by [copyin] to [dst] both return 0 and leave the bytes of
    [src] at [dst]. *)
Theorem copyout_copyin_roundtrip s root src dst va len bs :
  space s root → vmem_lock s = false → 0 ≤ va → va + len ≤ MAXVA → Z.of_nat (length bs) = len →
  CString.bytes_of (dm s) src bs → CString.live (dm s) dst len →
  user_range (pt s) root va len →
  (∀ i, 0 ≤ i < len → is_Some (dm s !! uaddr (pt s) root (va + i))) →
  (∀ i j, 0 ≤ i < len → 0 ≤ j < len → src + j ≠ uaddr (pt s) root (va + i) ∧ dst + j ≠ uaddr (pt s) root (va + i)) →
  (∀ i j, 0 ≤ i < len → 0 ≤ j < len → uaddr (pt s) root (va + i) = uaddr (pt s) root (va + j) → i = j) →
  ∃ s1 s2, copyout root va src len s = Ok (0, s1) ∧ copyin root dst va len s1 = Ok (0, s2) ∧
    CString.bytes_of (dm s2) dst bs ∧ pt s2 = pt s ∧ al s2 = al s.
Proof.
  intros Hs Hlk Hva Hmax Hlen Hb Hlv Hur Hex Hsep Hinj. unfold copyout, copyin.
  rewrite (proj2 (Z.ltb_ge _ _)) by lia.
  destruct (copy_fuel_enough va len) as [_ Hf]; [lia|].
  destruct (copyout_loop_spec (copy_fuel len) s root src va len bs) as (d & -> & Hg & Ho); try done.
  { intros i j Hi Hj. by apply Hsep. }
  destruct (copyin_loop_spec (copy_fuel len) (with_dm s d) root dst va len bs) as (d' & Hop & Hw); try done.
  { by apply space_dm. }
  { intros a Ha. cbn. rewrite Ho; [by apply Hlv|]. intros i Hi. replace a with (dst + (a - dst)) by lia. apply Hsep; lia. }
  { intros i j Hi Hj. by apply Hsep. }
  eexists _, _. split_and!; [done|exact Hop| |done|done].
  intros i c Hi. cbn. pose proof (lookup_lt_Some _ _ _ Hi). rewrite (Hw _), decide_True by lia.
  by replace (Z.to_nat (dst + Z.of_nat i - dst)) with i by lia.
Qed.

(** C31. [access_ok] for reading or writing in the address space of a process
    returns 1 exactly when the range lies below [MAXVA] without wrap-around
    and every page it touches is valid, for users, and readable (for
    [VERIFY_READ]) or writable (for [VERIFY_WRITE]); it changes nothing. *)
Theorem access_ok_correct s root type addr size :
  space s root → vmem_lock s = false → root ≠ 0 → 0 ≤ addr < 2 ^ 64 → 0 ≤ size < 2 ^ 64 →
  (type = VERIFY_READ ∨ type = VERIFY_WRITE) →
  let bit := if type =? VERIFY_WRITE then PTE_W else PTE_R in
  ∃ r, access_ok type addr size root s = Ok (r, s) ∧ (r = 0 ∨ r = 1) ∧
    (r = 1 ↔ addr + size ≤ MAXVA ∧
             ∀ i, addr / 4096 ≤ i → i * 4096 < addr + size → grants s root bit (i * 4096)).
Proof.
  intros Hs Hlk Hr Ha Hsz Hty bit. unfold access_ok.
  assert (Hg : (MAXVA <? addr) || (MAXVA <? u64 (addr + size)) || (u64 (addr + size) <? addr) = negb (addr + size <=? MAXVA)).
  { unfold u64, MAXVA. destruct (decide (addr + size < 2 ^ 64)).
    - rewrite Z.mod_small by lia. lia.
    - assert ((addr + size) mod 2 ^ 64 = addr + size - 2 ^ 64) as ->; [|lia].
      symmetry. apply Z.mod_unique with (q := 1); lia. }
  rewrite Hg. destruct (Z.leb_spec (addr + size) MAXVA) as [Hle|Hgt]; cbn [negb].
  2:{ exists 0. split; [done|]. split; [by left|]. split; [done|]. intros [? _]. lia. }
  cbv zeta. rewrite u64_small, PGROUNDDOWN_div by (unfold MAXVA in *; lia).
  rewrite (proj2 (Z.eqb_neq root 0)) by done.
  assert (Hloop : ∃ r, access_loop (copy_fuel size) root bit (addr / 4096 * 4096) (addr + size) s = Ok (r, s) ∧
    (r = 0 ∨ r = 1) ∧ (r = 1 ↔ ∀ i, addr / 4096 ≤ i → i * 4096 < addr + size → grants s root bit (i * 4096))).
  { destruct (copy_fuel_enough addr size) as [Hf0 Hf]; [lia|].
    apply access_loop_spec; try done; [by apply Z.div_pos; lia|].
    pose proof (Z.div_mod addr 4096 ltac:(lia)). lia. }
  destruct Hloop as (r & Hop & Hr01 & Hall). exists r. split; [|split; [done|tauto]].
  unfold bit in Hop. by destruct Hty as [-> | ->].
Qed.
End claims.

(** ** Examples on the small allocator *)

Lemma mappages_witness :
  (∃ s', mappages root0 0x1000 0x80300000 8192 user_perm (snd tables) = Ok (1, s') ∧ vmem_lock s' = false) ∧
  ∃ s', mappages root0 0x0 0x80300000 8192 user_perm user0 = Ok (-22, s').
Proof.
  destruct tables_ok as (_ & Hs & Hlk & _ & Hav & Hno). split.
  - destruct (mappages_correct (snd tables) root0 0x1000 0x80300000 8192 user_perm 3 Hs Hlk) as [Hok _];
      [lia|lia|unfold MAXVA; lia|reflexivity|lia|lia|vm_compute; split; congruence|exact Hav|].
    destruct Hok as (s' & Hop & _ & Hl & _); [intros; apply Hno|]. exists s'. split; [exact Hop|exact Hl].
  - destruct user0_space as (Hs' & Hlk' & _). destruct user0_ok as (_ & Hm & Hav').
    destruct (mappages_correct user0 root0 0 0x80300000 8192 user_perm 1 Hs' Hlk') as [_ Hno'];
      [lia|lia|unfold MAXVA; lia|reflexivity|lia|lia|vm_compute; split; congruence|exact Hav'|].
    destruct (Hno' 1) as (s' & Hop & _); [vm_compute; split; congruence| | |exists s'; exact Hop].
    + intros i Hi. assert (i = 0) as -> by (change (first_page 0) with 0 in Hi; lia).
      unfold present. rewrite (mp_pte _ _ _ _ _ _ _ Hm) by (unfold MAXVA; lia). apply (Hno 0).
    + unfold present. rewrite user0_pte; [reflexivity|]. change (first_page 0) with 0. lia.
Defined.

Lemma vmunmap_witness :
  ∃ s', vmunmap root0 0x1000 1 false user0 = Ok s' ∧ has (pte_at (pt s') root0 0x1004) PTE_V = false.
Proof.
  destruct user0_space as (Hs & Hlk & _).
  destruct (vmunmap_correct user0 root0 1 1 false Hs Hlk) as (s' & Hop & _ & _ & _ & Hg & _).
  - lia.
  - lia.
  - vm_compute. congruence.
  - split; [|intros; discriminate|intros; lia].
    intros i Hi _. assert (i = 1) as -> by lia. rewrite user0_pte by lia. vm_compute. congruence.
  - exists s'. split; [exact Hop|]. apply Hg; [unfold MAXVA; lia|]. vm_compute. split; congruence.
Defined.

Lemma user0_live : CString.live (dm user0) 0x1000000 5.
Proof.
  destruct user0_space as (_ & _ & ->). intros a Ha.
  assert (a = 0x1000000 ∨ a = 0x1000001 ∨ a = 0x1000002 ∨ a = 0x1000003 ∨ a = 0x1000004) as Hc by lia.
  destruct Hc as [-> | [-> | [-> | [-> | ->]]]]; eexists; reflexivity.
Qed.

Lemma user0_bytes : CString.bytes_of (dm user0) 0x80300000 greeting.
Proof.
  destruct user0_space as (_ & _ & ->). intros i c Hi.
  do 5 (destruct i as [|i]; [injection Hi as <-; reflexivity|]). discriminate.
Qed.

Lemma user0_user_live i : 0 ≤ i < 5 → is_Some (dm user0 !! uaddr (pt user0) root0 (0x1000 + i)).
Proof.
  intros Hi. rewrite user0_uaddr by lia.
  destruct (lookup_lt_is_Some_2 greeting (Z.to_nat i)) as [c Hc]; [cbn; lia|].
  pose proof (user0_bytes _ _ Hc) as Hb. rewrite Z2Nat.id in Hb by lia. by exists c.
Qed.

Lemma copyin_witness :
  ∃ d, copyin root0 0x1000000 0x1000 5 user0 = Ok (0, with_dm user0 d) ∧ CString.written (dm user0) d 0x1000000 greeting.
Proof.
  destruct user0_space as (Hs & Hlk & _).
  destruct (copyin_correct user0 root0 0x1000000 0x1000 5 Hs Hlk) as [Hok _].
  - lia.
  - lia.
  - unfold MAXVA. lia.
  - exact user0_live.
  - intros i Hi _. apply user0_user_live, Hi.
  - apply Hok; [|reflexivity| |].
    + intros i Hi. rewrite user0_upage by lia. discriminate.
    + intros i c Hi. pose proof (lookup_lt_Some _ _ _ Hi) as Hlt. cbn in Hlt. rewrite user0_uaddr by lia.
      apply user0_bytes, Hi.
    + intros i j Hi Hj. rewrite user0_uaddr by lia. lia.
Defined.

Lemma copy_roundtrip_witness :
  ∃ s1 s2, copyout root0 0x1000 0x1000000 5 user0 = Ok (0, s1) ∧ copyin root0 0x1000000 0x1000 5 s1 = Ok (0, s2).
Proof.
  destruct user0_space as (Hs & Hlk & Hd).
  destruct (copyout_copyin_roundtrip user0 root0 0x1000000 0x1000000 0x1000 5 [1; 2; 3; 4; 5] Hs Hlk)
    as (s1 & s2 & H1 & H2 & _).
  - lia.
  - unfold MAXVA. lia.
  - reflexivity.
  - rewrite Hd. intros i c Hi. do 5 (destruct i as [|i]; [injection Hi as <-; reflexivity|]). discriminate.
  - exact user0_live.
  - intros i Hi. rewrite user0_upage by lia. discriminate.
  - exact user0_user_live.
  - intros i j Hi Hj. rewrite user0_uaddr by lia. lia.
  - intros i j Hi Hj. rewrite !user0_uaddr by lia. lia.
  - exists s1, s2. split; [exact H1|exact H2].
Defined.

Lemma access_ok_witness : access_ok VERIFY_WRITE 0x1ff0 16 root0 user0 = Ok (1, user0).
Proof.
  destruct user0_space as (Hs & Hlk & _).
  destruct (access_ok_correct user0 root0 VERIFY_WRITE 0x1ff0 16 Hs Hlk) as (r & Hop & _ & Hr).
  - destruct (sp_table _ _ Hs [] root0) as [[[Hp _] _] _]; [split; [cbn; lia|constructor]|reflexivity|]. lia.
  - lia.
  - lia.
  - right. reflexivity.
  - rewrite Hop. assert (r = 1) as ->; [|reflexivity]. apply Hr. split; [vm_compute; congruence|].
    intros i H1 H2. change (0x1ff0 / 4096) with 1 in H1. assert (i = 1) as -> by lia.
    unfold grants. rewrite user0_pte by lia. vm_compute. split; [reflexivity|]. split; reflexivity.
Defined.

End VMemSpec.
