(* ===== verification/VMemFree.v ===== *)
(** * Page tables: giving them back

    [freewalk] gives back every table of an address space, each of them once,
    and leaves all other pages and all words outside of the tables alone. *)

From S2P Require Import Prelude Pmem VMemDefs VMem.
Import Pmem VMemDefs VMem.

Module VMemFree.

Section free.
Context {St : Type} `{PageAllocator St} `{!PageAllocatorLaws St}.
Implicit Types (s : vm St) (F : list Z → Prop).

(** A valid word has no flag but [PTE_V] where it points to a table, and only
    there. *)
Definition well_marked s (root : Z) : Prop := ∀ q a i w,
  path q → index i → table_at (pt s) root q = Some a → pt s !! slot a i = Some w → has w PTE_V = true →
  PTE_FLAGS w = PTE_V ↔ (length q < 2)%nat.

(** Unmapping pages keeps that. *)
Lemma marked_zeroed s s' root :
  zeroed (pt s) (pt s') root → (∀ q, path q → table_at (pt s') root q = table_at (pt s) root q) → well_marked s root → well_marked s' root.
Proof.
  intros Hz Ht Hm q a i w Hq Hi Ha Hw Hv. rewrite Ht in Ha by done. destruct (Hz (slot a i)) as [E|[E _]].
  - rewrite E in Hw. by apply (Hm q a i w).
  - rewrite E in Hw. by injection Hw as <-.
Qed.

(** [s'] is [s] without the tables at the paths of [F]. *)
Record tables_gone s s' root F : Prop := {
  fd_inv : pa_inv (al s');
  fd_own : ∀ b, pa_owned (al s') b ↔ pa_owned (al s) b ∧ ¬ ∃ q, path q ∧ F q ∧ table_at (pt s) root q = Some b;
  fd_words : ∀ q a i, path q → index i → ¬ F q → ¬ F (q ++ [i]) → table_at (pt s) root q = Some a →
    pt s' !! slot a i = pt s !! slot a i;
  fd_out : ∀ x, ¬ table_word (pt s) root x → pt s' !! x = pt s !! x;
  fd_live : ∀ x, is_Some (pt s !! x) → is_Some (pt s' !! x);
  fd_rest : dm s' = dm s ∧ vmem_lock s' = vmem_lock s;
  fd_avail : ∀ n, pa_avail (al s) n → pa_avail (al s') n
}.

Lemma freed_none s root : pa_inv (al s) → tables_gone s s root (λ _, False).
Proof. intros Hi. split; try done. intros b. split; [|by intros []]. intros Hb. split; [done|]. by intros (q & _ & [] & _). Qed.

(** More paths, if there is no table at those that are new. *)
Lemma freed_more s s' root F G :
  tables_gone s s' root F → (∀ q, F q → G q) → (∀ q, path q → G q → F q ∨ table_at (pt s) root q = None) → tables_gone s s' root G.
Proof.
  intros [A1 A2 A3 A4 A5 A6 A7] Hfg Hgf. split; try done; [|intros q a i Hq Hi N1 N2 Ha; apply (A3 q); auto].
  intros b. rewrite A2. split; intros [Hb Hn]; (split; [done|]); intros (q & Hq & Hg & Ht); apply Hn.
  - destruct (Hgf q Hq Hg); [eauto|congruence].
  - eauto.
Qed.

(** The entry of a table that is gone is set to 0. *)
Lemma freed_clear s s' root F q a i :
  space s root → path q → index i → table_at (pt s) root q = Some a → F (q ++ [i]) → tables_gone s s' root F →
  ∃ s2, wr (slot a i) 0 s' = Ok s2 ∧ tables_gone s s2 root F.
Proof.
  intros Hs Hq Hi Ha Hf [A1 A2 A3 A4 A5 A6 A7]. destruct (sp_table _ _ Hs q a Hq Ha) as [[[_ Hma] Hw] _].
  unfold wr, rd. destruct (A5 _ (Hw i Hi)) as [w ->]. cbn [of_opt bind]. eexists. split; [reflexivity|]. split; cbn; try done.
  - intros r b j Hr Hj N1 N2 Hb. rewrite lookup_insert_ne; [by apply (A3 r)|]. intros E.
    destruct (sp_table _ _ Hs r b Hr Hb) as [[[_ Hmb] _] _]. destruct (slot_inj a b i j Hma Hmb Hi Hj E) as [-> ->].
    apply N2. by rewrite (sp_inj _ _ Hs r q b).
  - intros x Hx. rewrite lookup_insert_ne; [by apply A4|]. intros <-. apply Hx. by exists q, a, i.
  - intros x Hx. apply lookup_insert_is_Some'. right. by apply A5.
Qed.

(** A table whose entries are done with. *)
Lemma freed_table s s' root F G q a :
  space s root → path q → table_at (pt s) root q = Some a → ¬ F q → (∀ r, path r → G r ↔ r = q ∨ F r) → (∀ r, F r → G r) →
  tables_gone s s' root F → ∃ st, pa_free a (al s') = Ok st ∧ tables_gone s (with_al s' st) root G.
Proof.
  intros Hs Hq Ha Hf Hg Hfg [A1 A2 A3 A4 A5 A6 A7].
  assert (Ho : pa_owned (al s') a).
  { apply A2. split; [by apply (sp_table _ _ Hs q)|]. intros (r & Hr & Fr & Hb). by rewrite (sp_inj _ _ Hs r q a) in Fr. }
  destruct (pa_free_ok (al s') a A1 Ho) as (st & Hop & Hi & F1 & F2 & F3). exists st. split; [done|]. split; cbn; try done.
  - intros b. split.
    + intros Hb. destruct (proj1 (A2 b) (F1 b Hb)) as [Hb0 Hn]. split; [done|]. intros (r & Hr & Gr & Ht). apply (Hg r Hr) in Gr as [->|Fr]; [|apply Hn; eauto].
      rewrite Ha in Ht. by injection Ht as <-.
    + intros [Hb Hn]. destruct (F2 b) as [->|]; [|destruct Hn; exists q; split_and!; [done|apply Hg; auto|done]|done].
      apply A2. split; [done|]. intros (r & Hr & Fr & Ht). apply Hn. exists r. auto.
  - intros r b i Hr Hj N1 N2 Hb. apply (A3 r); auto.
  - intros n Hn. apply (pa_avail_le _ (S n)); [|lia]. by apply (pa_free_avail (al s') a st n A1 Ho Hop), A7.
Qed.

(** The paths below the first [n] entries of the table at [q]. *)
Definition below (q : list Z) (n : Z) (r : list Z) : Prop := ∃ i, 0 ≤ i < n ∧ (q ++ [i]) `prefix_of` r.

Lemma below_step q n r : 0 ≤ n → below q (n + 1) r ↔ below q n r ∨ (q ++ [n]) `prefix_of` r.
Proof.
  intros Hn. split.
  - intros (i & Hi & Hp). destruct (decide (i = n)) as [->|]; [by right|left]. exists i. split; [lia|done].
  - intros [(i & Hi & Hp)|Hp]; [exists i|exists n]; (split; [lia|done]).
Qed.
Lemma below_prefix q n r : below q n r → q `prefix_of` r.
Proof. intros (i & _ & Hp). etrans; [|exact Hp]. by apply prefix_app_r. Qed.
Lemma below_not q n r : 0 ≤ n → (q ++ [n]) `prefix_of` r → ¬ below q n r.
Proof.
  intros Hn [k ->] (i & Hi & [k' E]). rewrite <-!app_assoc in E. apply app_inv_head in E. cbn in E. injection E as E _. lia.
Qed.
Lemma below_self q n : ¬ below q n q.
Proof. intros (i & _ & [k E]). apply (f_equal length) in E. rewrite !length_app in E. cbn in E. lia. Qed.
Lemma prefix_split q r : path r → q `prefix_of` r ↔ r = q ∨ below q 512 r.
Proof.
  intros [_ Hr]. split; [|intros [->|?]; [done|by apply (below_prefix q 512)]]. intros [[|i k] ->]; [left; by rewrite app_nil_r|right].
  exists i. rewrite Forall_app, Forall_cons in Hr. split; [apply Hr|]. exists k. by rewrite <-app_assoc.
Qed.

(** No table is below an entry that is not valid, or below a last table. *)
Lemma below_none s root q a i w :
  table_at (pt s) root q = Some a → pt s !! slot a i = Some w → has w PTE_V = false ∨ length q = 2%nat →
  ∀ r, path r → (q ++ [i]) `prefix_of` r → table_at (pt s) root r = None.
Proof.
  intros Ha Hw Hc r [Hr _] [k ->]. destruct Hc as [Hv|Hl]; [|rewrite !length_app in Hr; cbn in Hr; lia].
  assert (E : table_at (pt s) root (q ++ [i]) = None) by (rewrite table_at_snoc, Ha; cbn; unfold child; rewrite Hw; cbn; by rewrite Hv).
  clear Hr. induction k as [|j k IH] using rev_ind; [by rewrite app_nil_r|]. rewrite app_assoc, table_at_snoc, IH. done.
Qed.

Lemma freewalk_sub s root depth : ∀ q a s1 F,
  space s root → well_marked s root → (length q + depth = 3)%nat → (0 < depth)%nat → path q → table_at (pt s) root q = Some a →
  (∀ r, q `prefix_of` r → ¬ F r) → tables_gone s s1 root F →
  ∃ s2, freewalk depth a s1 = Ok s2 ∧ tables_gone s s2 root (λ r, F r ∨ q `prefix_of` r).
Proof.
  induction depth as [|depth IH]; intros q a s1 F Hs Hm Hlen Hd Hq Ha Hno Hf; [lia|]. cbn [freewalk].
  set (body := λ (i : Z) s, _). assert (Hloop : ∃ s2, for_range 0 512 body s1 = Ok s2 ∧ tables_gone s s2 root (λ r, F r ∨ below q 512 r)).
  { apply (for_range_inv (λ n s', tables_gone s s' root (λ r, F r ∨ below q n r))); [lia| |].
    { apply (freed_more s s1 root F); try done; [by left|]. intros r _ [|(i & Hi & _)]; [by left|lia]. }
    intros i s2 Hi Hf2. unfold body, rd. destruct (sp_table _ _ Hs q a Hq Ha) as [[_ Hws] _]. destruct (Hws i Hi) as [w Hw].
    rewrite (fd_words _ _ _ _ Hf2 q a i), Hw; try done.
    2:{ intros [Hx|Hx]; [by apply (Hno q)|by apply (below_self q i)]. }
    2:{ intros [Hx|Hx]; [by apply (Hno (q ++ [i])), Hx; apply prefix_app_r|by apply (below_not q i (q ++ [i])); [lia|done|]]. }
    cbn [of_opt bind]. destruct (has w PTE_V) eqn:Hv; cbn [andb].
    2:{ exists s2. split; [done|]. apply (freed_more s s2 root (λ r, F r ∨ below q i r)); [done|intros r; rewrite below_step by lia; tauto|].
        intros r Hr. rewrite below_step by lia. intros [?|[?|Hp]]; [tauto|tauto|right]. apply (below_none s root q a i w); auto. }
    destruct (Z.eqb_spec (PTE_FLAGS w) PTE_V) as [E|E].
    - apply (Hm q a i w) in E; try done.
      assert (Hc : table_at (pt s) root (q ++ [i]) = Some (PTE2PA w)) by (rewrite table_at_snoc, Ha; cbn; unfold child; rewrite Hw; cbn; by rewrite Hv).
      destruct (IH (q ++ [i]) (PTE2PA w) s2 (λ r, F r ∨ below q i r)) as (s3 & -> & Hf3); try done.
      { rewrite length_app. cbn. lia. } { lia. }
      { apply path_snoc. destruct Hq. split_and!; [lia|done|done]. }
      { intros r Hp [Hx|Hx]; [|by apply (below_not q i r); [lia|done|]]. apply (Hno r); [|done]. etrans; [|exact Hp]. by apply prefix_app_r. }
      cbn [bind]. apply (freed_clear s s3 root _ q a i); try done; [rewrite below_step by lia; by right; right|].
      apply (freed_more s s3 root (λ r, (F r ∨ below q i r) ∨ (q ++ [i]) `prefix_of` r)); [done|intros r; rewrite below_step by lia; tauto|].
      intros r Hr. rewrite below_step by lia. tauto.
    - exists s2. split; [done|]. apply (freed_more s s2 root (λ r, F r ∨ below q i r)); [done|intros r; rewrite below_step by lia; tauto|].
      intros r Hr. rewrite below_step by lia. intros [?|[?|Hp]]; [tauto|tauto|right].
      apply (below_none s root q a i w); try done. right. rewrite (Hm q a i w) in E by done. destruct Hq. lia. }
  destruct Hloop as (s2 & -> & Hf2). cbn [bind].
  destruct (freed_table s s2 root (λ r, F r ∨ below q 512 r) (λ r, F r ∨ q `prefix_of` r) q a) as (st & -> & Hf3); try done.
  - intros [Hx|Hx]; [by apply (Hno q)|by apply (below_self q 512)].
  - intros r Hr. rewrite prefix_split by done. tauto.
  - intros r [?|?]; [by left|right]. by apply (below_prefix q 512).
  - cbn [bind]. eauto.
Qed.

Lemma freewalk_ok s root :
  space s root → well_marked s root → ∃ s', freewalk PT_LEVEL root s = Ok s' ∧ tables_gone s s' root (λ _, True).
Proof.
  intros Hs Hm. destruct (freewalk_sub s root 3 [] root s (λ _, False) Hs Hm) as (s' & Hop & Hf); try done; try lia.
  { by split; [cbn; lia|]. } { apply freed_none, (sp_inv _ _ Hs). }
  exists s'. split; [exact Hop|]. apply (freed_more s s' root _ (λ _, True) Hf); [done|]. intros q _ _. left. right. apply prefix_nil.
Qed.

End free.
End VMemFree.
