(* ===== verification/SlabDefs.v ===== *)
(** * The slab allocator (kernel/slab_common.c), definitions

    A [struct slab *] is the address of a page; the headers of the slab pages
    are kept in [slabs] and the [next] word of an object in [nx], by address.
    Memory outside of slab pages is that of the page allocator.  A
    [struct kmem_cache *] is an index of [fixed_cache_list]. *)

From S2P Require Import Prelude BuddyDefs.
Import Buddy.

Module SlabDefs.

Definition FIXED_CACHE_LEVEL_NUM : nat := 8.
Definition SLAB_MAGIC : Z := 0x534C414242414C53.
Definition PAGE_SIZE : Z := 4096.
(** [sizeof(struct slab)], [sizeof(struct kmem_cache)] and
    [sizeof(struct slab_allocator)] on a 64-bit machine. *)
Definition sizeof_slab : Z := 32.
Definition sizeof_kmem_cache : Z := 24.
Definition sizeof_slab_allocator : Z := 152.

Definition slab_size_table : list Z := [8; 16; 32; 64; 128; 256; 512; 1024].

Record slab := mk_slab { magic : Z; next : Z; object : Z; size : Z; free : Z }.
Record kmem_cache := mk_cache { free_slab : Z; full_slab : Z; c_size : Z }.

Inductive slab_state := DOWN | PARTIAL | UP | FULL.

Record allocator := mk_allocator {
  al : buddy;
  slabs : gmap Z slab;
  nx : gmap Z Z;
  fixed_cache_list : list kmem_cache;
  state : slab_state;
  slab_boot_page : Z;
  simple_alloc_count : Z
}.

Definition with_al (s : allocator) (a : buddy) : allocator :=
  mk_allocator a (slabs s) (nx s) (fixed_cache_list s) (state s) (slab_boot_page s) (simple_alloc_count s).
Definition with_slabs (s : allocator) (m : gmap Z slab) : allocator :=
  mk_allocator (al s) m (nx s) (fixed_cache_list s) (state s) (slab_boot_page s) (simple_alloc_count s).
Definition with_nx (s : allocator) (n : gmap Z Z) : allocator :=
  mk_allocator (al s) (slabs s) n (fixed_cache_list s) (state s) (slab_boot_page s) (simple_alloc_count s).
Definition with_caches (s : allocator) (l : list kmem_cache) : allocator :=
  mk_allocator (al s) (slabs s) (nx s) l (state s) (slab_boot_page s) (simple_alloc_count s).
Definition with_state (s : allocator) (x : slab_state) : allocator :=
  mk_allocator (al s) (slabs s) (nx s) (fixed_cache_list s) x (slab_boot_page s) (simple_alloc_count s).
Definition with_boot (s : allocator) (p c : Z) : allocator :=
  mk_allocator (al s) (slabs s) (nx s) (fixed_cache_list s) (state s) p c.

(** Member accesses through pointers. *)
Definition get_slab (p : Z) (s : allocator) : res slab := of_opt (slabs s !! p).
Definition set_slab (p : Z) (f : slab → slab) (s : allocator) : res allocator :=
  let* sl := get_slab p s in Ok (with_slabs s (<[p := f sl]> (slabs s))).
Definition get_next (o : Z) (s : allocator) : res Z := of_opt (nx s !! o).
Definition set_next (o v : Z) (s : allocator) : res allocator :=
  let* _ := get_next o s in Ok (with_nx s (<[o := v]> (nx s))).
Definition get_cache (i : nat) (s : allocator) : res kmem_cache := of_opt (fixed_cache_list s !! i).
Definition set_cache (i : nat) (f : kmem_cache → kmem_cache) (s : allocator) : res allocator :=
  let* c := get_cache i s in Ok (with_caches s (<[i := f c]> (fixed_cache_list s))).

Definition s_next (v : Z) (sl : slab) : slab := mk_slab (magic sl) v (object sl) (size sl) (free sl).
Definition s_object (v : Z) (sl : slab) : slab := mk_slab (magic sl) (next sl) v (size sl) (free sl).
Definition s_free (v : Z) (sl : slab) : slab := mk_slab (magic sl) (next sl) (object sl) (size sl) v.
Definition c_free (v : Z) (c : kmem_cache) : kmem_cache := mk_cache v (full_slab c) (c_size c).
Definition c_full (v : Z) (c : kmem_cache) : kmem_cache := mk_cache (free_slab c) v (c_size c).

Definition simple_alloc (sz : Z) (s : allocator) : res (Z * allocator) :=
  let* s :=
    (if PAGE_SIZE <? u64 (simple_alloc_count s + sz) then
       let* (p, a) := pmem_alloc_pages 1 (al s) in
       Ok (with_boot (with_al s a) p 0)
     else Ok s) in
  let alloc_ptr := slab_boot_page s + simple_alloc_count s in
  if slab_boot_page s =? 0 then Undef
  else
    let s := with_al s (with_mem (al s) (zero_mem alloc_ptr sz (mem (al s)))) in
    Ok (alloc_ptr, with_boot s (slab_boot_page s) (i32 (simple_alloc_count s + sz))).

(** Object [j] of the slab page [a] with objects of size [sz]. *)
Definition obj (a sz j : Z) : Z := a + sizeof_slab + j * sz.
Definition object_count (sz : Z) : Z := (PAGE_SIZE - sizeof_slab) / sz.

(** The page is zeroed by the page allocator. *)
Definition zero_objects (a sz : Z) (n : gmap Z Z) : gmap Z Z :=
  foldr (λ j n, <[obj a sz j := 0]> n) n (seqZ 0 (object_count sz)).

Definition create_slab_with_size (sz : Z) (s : allocator) : res (Z * allocator) :=
  let* (a, b) := pmem_alloc_pages 1 (al s) in
  if a =? 0 then Undef
  else
    let s := with_nx (with_al s b) (zero_objects a sz (nx s)) in
    let object_num := object_count sz in
    let* s := for_range 0 (object_num - 1) (λ j, set_next (obj a sz j) (obj a sz (j + 1))) s in
    Ok (a, with_slabs s (<[a := mk_slab SLAB_MAGIC 0 (obj a sz 0) sz object_num]> (slabs s))).

(** One iteration of [slab_init]: the cache for size [sz]. *)
Definition init_cache (sz : Z) (s : allocator) : res allocator :=
  let* (_, s) := simple_alloc sizeof_kmem_cache s in
  let* (a, s) := create_slab_with_size sz s in
  Ok (with_caches s (fixed_cache_list s ++ [mk_cache a 0 sz])).

Fixpoint init_caches (l : list Z) (s : allocator) : res allocator :=
  match l with
  | [] => Ok s
  | sz :: l => let* s := init_cache sz s in init_caches l s
  end.

Definition slab_init (s : allocator) : res allocator :=
  let* (_, s) := simple_alloc sizeof_slab_allocator s in
  let s := with_caches (with_state s DOWN) [] in
  let* s := init_caches slab_size_table s in
  Ok (with_state s FULL).

Definition kmem_cache_create (object_size : Z) : Z := 0.

(** [__slab_size] and [__fine_kmem_cache]. *)
Fixpoint slab_size_from (l : list Z) (sz : Z) : Z :=
  match l with
  | [] => 0
  | x :: l => if sz <=? x then x else slab_size_from l sz
  end.
Definition slab_size (sz : Z) : Z := slab_size_from slab_size_table sz.

Fixpoint find_cache (n i : nat) (sz : Z) (s : allocator) : res (option nat) :=
  match n with
  | O => Ok None
  | S n =>
      let* c := get_cache i s in
      if sz =? c_size c then Ok (Some i) else find_cache n (S i) sz s
  end.
Definition fine_kmem_cache (sz : Z) (s : allocator) : res (option nat) :=
  find_cache FIXED_CACHE_LEVEL_NUM 0 sz s.

(** [while (slab_iterator->next)]: the last slab of a list. *)
Fixpoint last_slab (fuel : nat) (p : Z) (s : allocator) : res Z :=
  match fuel with
  | O => NoFuel
  | S fuel =>
      let* sl := get_slab p s in
      if next sl =? 0 then Ok p else last_slab fuel (next sl) s
  end.

(** A list of slabs without a cycle has at most as many elements as there are
    slabs. *)
Definition list_fuel (s : allocator) : nat := S (map_size (slabs s)).

Definition alloc_from_kmem_cache (i : nat) (s : allocator) : res (Z * allocator) :=
  let* c := get_cache i s in
  let p := free_slab c in
  if negb (p =? 0) then
    let* sl := get_slab p s in
    if 1 <? free sl then
      let o := object sl in
      let* n := get_next o s in
      let* s := set_slab p (s_object n) s in
      let* s := set_slab p (s_free (free sl - 1)) s in
      Ok (o, s)
    else if free sl =? 1 then
      let o := object sl in
      let* s := set_slab p (s_object 0) s in
      let* s := set_slab p (s_free 0) s in
      let* s := set_cache i (c_free (next sl)) s in
      let* s :=
        (if full_slab c =? 0 then set_cache i (c_full p) s
         else
           let* t := last_slab (list_fuel s) (full_slab c) s in
           let* s := set_slab t (s_next p) s in
           set_slab p (s_next 0) s) in
      Ok (o, s)
    else Panic "slab->free"
  else
    let* (p, s) := create_slab_with_size (c_size c) s in
    let* s := set_cache i (c_free p) s in
    let* sl := get_slab p s in
    let o := object sl in
    let* n := get_next o s in
    let* s := set_slab p (s_object n) s in
    let* s := set_slab p (s_free (free sl - 1)) s in
    Ok (o, s).

Definition slab_alloc (sz : Z) (s : allocator) : res (Z * allocator) :=
  let aligned_size := u32 (slab_size sz) in
  if (aligned_size =? 0) || (1024 <? aligned_size) then
    let pages := i32 (u64 (sz + PAGE_SIZE - 1) / PAGE_SIZE) in
    let* (ptr, b) := pmem_alloc_pages pages (al s) in
    if negb (ptr =? 0)
    then Ok (ptr, with_al s (with_mem b (zero_mem ptr (pages * PAGE_SIZE) (mem b))))
    else Ok (ptr, with_al s b)
  else
    let* r := fine_kmem_cache aligned_size s in
    match r with
    | Some i => alloc_from_kmem_cache i s
    | None => Panic "[slab_alloc]"
    end.

(** The first 8 bytes of a page. *)
Definition page_magic (p : Z) (s : allocator) : Z :=
  match slabs s !! p with
  | Some sl => magic sl
  | None => foldr (λ i w, mem (al s) (p + i) + 256 * w) 0 (seqZ 0 8)
  end.

(** [while (object)] of [slab_free]: the object after which to insert [o]. *)
Fixpoint find_place (fuel : nat) (o it : Z) (s : allocator) : res Z :=
  match fuel with
  | O => NoFuel
  | S fuel =>
      let* n := get_next it s in
      if (it <? o) && (o <? n) && negb (n =? 0) then Ok it
      else if negb (n =? 0) then find_place fuel o n s
      else Ok it
  end.

(** A page holds at most 508 objects. *)
Definition place_fuel : nat := 512.

(** [o] is never NULL here, since page 0 is no slab page. *)
Definition insert_object (p o : Z) (s : allocator) : res allocator :=
  let* sl := get_slab p s in
  let it := object sl in
  let* s :=
    (if o <? object sl
     then let* s := set_next o (object sl) s in set_slab p (s_object o) s
     else Ok s) in
  let* it := (if o =? 0 then Ok it else find_place place_fuel o it s) in
  let* n := get_next it s in
  let* s := set_next o n s in
  let* s := set_next it o s in
  set_slab p (λ sl, s_free (u32 (free sl + 1)) sl) s.

Definition slab_free (addr : Z) (s : allocator) : res allocator :=
  let page_start := Z.land addr (Z.lnot (PAGE_SIZE - 1)) in
  if page_magic page_start s =? SLAB_MAGIC then
    let* sl := get_slab page_start s in
    if negb (u64 (addr - sizeof_slab) mod size sl =? 0) then Panic "[slab_free]"
    else if free sl =? 0 then
      let* s := set_slab page_start (s_object addr) s in
      let* s := set_next addr 0 s in
      let* s := set_slab page_start (λ sl, s_free (u32 (free sl + 1)) sl) s in
      let* r := fine_kmem_cache (size sl) s in
      match r with
      | Some i =>
          let* s := set_cache i (c_full (next sl)) s in
          let* c := get_cache i s in
          let* s := set_slab page_start (s_next (free_slab c)) s in
          set_cache i (c_free page_start) s
      | None => Ok s
      end
    else insert_object page_start addr s
  else if Z.land addr (PAGE_SIZE - 1) =? 0 then
    let* b := pmem_free_pages addr 1 (al s) in Ok (with_al s b)
  else Panic "[slab_free]".

End SlabDefs.
