(* ===== verification/Slab.v ===== *)
(** * Slab allocator: invariant and operations

    For the cache of index [i], [F i] are the pages of its list of slabs with
    free objects and [G i] those of its list of full slabs; [fl a] are the free
    objects of the slab page [a] in list order. *)

From Stdlib Require Import Sorted.
From stdpp Require Import functions.
From S2P Require Import Prelude BuddyDefs Pmem SlabDefs.
Import Pmem SlabDefs.

Module Slab.

(** Objects linked from [p] on, and slabs linked from [p] on. *)
Fixpoint ochain (n : gmap Z Z) (p : Z) (L : list Z) : Prop :=
  match L with
  | [] => p = 0
  | o :: L => p = o ∧ 0 < o ∧ ∃ q, n !! o = Some q ∧ ochain n q L
  end.

Fixpoint schain (m : gmap Z slab) (p : Z) (L : list Z) : Prop :=
  match L with
  | [] => p = 0
  | a :: L => p = a ∧ 0 < a ∧ ∃ sl, m !! a = Some sl ∧ schain m (next sl) L
  end.

Definition is_obj (a z o : Z) : Prop := ∃ j, 0 ≤ j < object_count z ∧ o = obj a z j.

Record slab_at (s : allocator) (a z : Z) (L : list Z) : Prop := {
  sa_page : 0 < a < 2 ^ 56 ∧ a mod 4096 = 0;
  sa_hdr : ∃ p o, slabs s !! a = Some (mk_slab SLAB_MAGIC p o z (Z.of_nat (length L))) ∧ ochain (nx s) o L;
  sa_objs : Forall (is_obj a z) L;
  sa_sorted : StronglySorted Z.lt L;
  sa_mem : ∀ o, is_obj a z o → is_Some (nx s !! o)
}.

Definition level (i : nat) (z : Z) : Prop := slab_size_table !! i = Some z.

(** The shape of the caches; [inv] adds that the slabs are in the right list. *)
Record base (s : allocator) (F G : nat → list Z) (fl : Z → list Z) : Prop := {
  b_pa : pa_inv (al s);
  b_null : nx s !! 0 = None;
  b_len : length (fixed_cache_list s) = FIXED_CACHE_LEVEL_NUM;
  b_cache : ∀ i z, level i z → ∃ c, fixed_cache_list s !! i = Some c ∧ c_size c = z ∧
    schain (slabs s) (free_slab c) (F i) ∧ schain (slabs s) (full_slab c) (G i);
  b_nodup : ∀ i z, level i z → NoDup (F i ++ G i);
  b_slab : ∀ i z a, level i z → a ∈ F i ++ G i → slab_at s a z (fl a) ∧ pa_owned (al s) a
}.

Record inv (s : allocator) (F G : nat → list Z) (fl : Z → list Z) : Prop := {
  i_base : base s F G fl;
  i_free : ∀ i z a, level i z → a ∈ F i → fl a ≠ [];
  i_full : ∀ i z a, level i z → a ∈ G i → fl a = []
}.

(** The objects that callers hold. *)
Definition held (F G : nat → list Z) (fl : Z → list Z) (o : Z) : Prop :=
  ∃ i z a, level i z ∧ a ∈ F i ++ G i ∧ is_obj a z o ∧ o ∉ fl a.

(** ** Sizes and addresses *)

Lemma level_cases i z : level i z →
  (i = 0%nat ∧ z = 8) ∨ (i = 1%nat ∧ z = 16) ∨ (i = 2%nat ∧ z = 32) ∨ (i = 3%nat ∧ z = 64) ∨
  (i = 4%nat ∧ z = 128) ∨ (i = 5%nat ∧ z = 256) ∨ (i = 6%nat ∧ z = 512) ∨ (i = 7%nat ∧ z = 1024).
Proof.
  unfold level, slab_size_table. intros H.
  do 8 (destruct i as [|i]; [injection H as <-; auto 12|]). discriminate.
Qed.

Lemma level_bounds i z : level i z → 8 ≤ z ≤ 1024 ∧ 3 ≤ object_count z ≤ 508 ∧ object_count z * z ≤ 4064 ∧ (i < 8)%nat.
Proof.
  intros H. apply level_cases in H.
  destruct H as [[-> ->]|[[-> ->]|[[-> ->]|[[-> ->]|[[-> ->]|[[-> ->]|[[-> ->]|[-> ->]]]]]]]]; vm_compute;
    repeat split; try congruence; lia.
Qed.

Lemma level_inj i j z : level i z → level j z → i = j.
Proof. intros H1 H2. apply level_cases in H1, H2. lia. Qed.

Lemma level_size z sz : slab_size sz = z → z ≠ 0 → sz ≤ z ∧ ∃ i, level i z.
Proof.
  unfold slab_size, slab_size_table. cbn [slab_size_from]. intros <- Hne.
  repeat match goal with |- context [if ?b then _ else _] => destruct b eqn:?E end; try done.
  all: split; [lia|]; first [by exists 0%nat|by exists 1%nat|by exists 2%nat|by exists 3%nat|
    by exists 4%nat|by exists 5%nat|by exists 6%nat|by exists 7%nat].
Qed.

Lemma slab_size_level sz : sz ≤ 1024 → ∃ i z, level i z ∧ slab_size sz = z ∧ sz ≤ z.
Proof.
  intros Hs. assert (Hne : slab_size sz ≠ 0).
  { unfold slab_size, slab_size_table. cbn [slab_size_from].
    repeat match goal with |- context [if ?b then _ else _] => destruct b eqn:?E end; lia. }
  destruct (level_size (slab_size sz) sz eq_refl Hne) as (Hle & i & Hi). eauto.
Qed.

Lemma is_obj_range i a z o : level i z → is_obj a z o → a + 32 ≤ o ∧ o + z ≤ a + 4096.
Proof.
  intros Hl (j & Hj & ->). destruct (level_bounds i z Hl) as (? & ? & ? & _). unfold obj, sizeof_slab.
  assert ((j + 1) * z ≤ object_count z * z) by (apply Z.mul_le_mono_nonneg_r; lia). lia.
Qed.

Lemma not_obj_null i a z : level i z → 0 < a < 2 ^ 56 ∧ a mod 4096 = 0 → ¬ is_obj a z 0.
Proof. intros Hi Ha Ho. pose proof (is_obj_range i a z 0 Hi Ho). lia. Qed.

Lemma is_obj_page i j a b z z' o :
  level i z → level j z' → a mod 4096 = 0 → b mod 4096 = 0 → is_obj a z o → is_obj b z' o → a = b.
Proof.
  intros Hi Hj Ha Hb H1 H2. pose proof (is_obj_range i a z o Hi H1). pose proof (is_obj_range j b z' o Hj H2).
  pose proof (level_bounds i z Hi). pose proof (level_bounds j z' Hj).
  apply Z.mod_divide in Ha as [x ->], Hb as [y ->]; lia.
Qed.

(** ** Frames *)

Lemma ochain_frame n n' p L : (∀ o, o ∈ L → n' !! o = n !! o) → ochain n p L → ochain n' p L.
Proof.
  revert p; induction L as [|o L IH]; intros p He; cbn; [done|]. intros (-> & Ho & q & Hq & Hc).
  split; [done|]. split; [done|]. exists q. split; [by rewrite He by left|]. apply IH; [|done].
  intros x Hx. apply He. by right.
Qed.

Lemma schain_frame (m m' : gmap Z slab) p L :
  (∀ a sl, a ∈ L → m !! a = Some sl → ∃ sl', m' !! a = Some sl' ∧ next sl' = next sl) →
  schain m p L → schain m' p L.
Proof.
  revert p; induction L as [|a L IH]; intros p He; cbn; [done|]. intros (-> & Ha & sl & Hsl & Hc).
  split; [done|]. split; [done|]. destruct (He a sl) as (sl' & Hsl' & Hn); [by left|done|].
  exists sl'. split; [done|]. rewrite Hn. apply IH; [|done]. intros b sb Hb. apply He. by right.
Qed.

(** A slab whose header (but for [next]) and objects are unchanged. *)
Lemma slab_at_frame s s' a z L :
  slab_at s a z L →
  (∀ sl, slabs s !! a = Some sl → ∃ p, slabs s' !! a = Some (s_next p sl)) →
  (∀ o, is_obj a z o → nx s' !! o = nx s !! o) → slab_at s' a z L.
Proof.
  intros [H1 (p & o & Hh & Hc) H3 H4 H5] He Hn. split; try done.
  - destruct (He _ Hh) as (p' & Hp). exists p', o. split; [exact Hp|]. apply (ochain_frame (nx s)); [|done].
    intros x Hx. apply Hn. rewrite Forall_forall in H3. by apply H3.
  - intros x Hx. rewrite Hn by done. by apply H5.
Qed.

(** ** Changing the free objects of one slab *)

Lemma base_slab_unique s F G fl i j z z' a :
  base s F G fl → level i z → level j z' → a ∈ F i ++ G i → a ∈ F j ++ G j → i = j ∧ z = z'.
Proof.
  intros Hb Hi Hj H1 H2. destruct (b_slab _ _ _ _ Hb i z a Hi H1) as [[_ (?&?&E1&_) _ _ _] _].
  destruct (b_slab _ _ _ _ Hb j z' a Hj H2) as [[_ (?&?&E2&_) _ _ _] _]. rewrite E1 in E2. injection E2 as _ _ ->.
  split; [|done]. by apply (level_inj i j z').
Qed.

(** The header of [a] keeps its [next], only objects of [a] are written. *)
Lemma base_set_list s s' F G fl i z a L :
  base s F G fl → level i z → a ∈ F i ++ G i → slab_at s' a z L →
  al s' = al s → fixed_cache_list s' = fixed_cache_list s →
  (∀ b, b ≠ a → slabs s' !! b = slabs s !! b) →
  (∀ sl sl', slabs s !! a = Some sl → slabs s' !! a = Some sl' → next sl' = next sl) →
  (∀ o, ¬ is_obj a z o → nx s' !! o = nx s !! o) →
  base s' F G (<[a := L]> fl).
Proof.
  intros Hb Hi Ha Hs' Hal Hca Hsl Hnext Hnx.
  assert (Hch : ∀ p X, schain (slabs s) p X → schain (slabs s') p X).
  { intros p X. apply schain_frame. intros b sb _ Hb'. destruct (decide (b = a)) as [->|Hne].
    - destruct Hs' as [_ (p' & o & E & _) _ _ _]. eexists; split; [exact E|]. by apply Hnext.
    - exists sb. by rewrite Hsl. }
  split.
  - rewrite Hal. apply Hb.
  - rewrite Hnx; [apply Hb|]. by apply (not_obj_null i), Hs'.
  - rewrite Hca. apply Hb.
  - intros j y Hj. rewrite Hca. destruct (b_cache _ _ _ _ Hb j y Hj) as (c & Hc & Hz & H1 & H2). exists c. auto.
  - apply Hb.
  - intros j y b Hj Hin. rewrite Hal. destruct (b_slab _ _ _ _ Hb j y b Hj Hin) as [Hsb Ho]. split; [|done].
    destruct (decide (b = a)) as [->|Hne].
    + rewrite fn_lookup_insert. by destruct (base_slab_unique s F G fl i j z y a Hb Hi Hj Ha Hin) as [_ <-].
    + rewrite fn_lookup_insert_ne by done. apply (slab_at_frame s); [done| |].
      * intros sl E. exists (next sl). rewrite Hsl, E by done. by destruct sl.
      * intros o Ho'. apply Hnx. intros Ho''. apply Hne.
        apply (is_obj_page j i b a y z o); try done; [apply Hsb|]. apply Hs'.
Qed.

(** ** Changing the lists of one cache *)

(** The headers change in their [next] only, the lists of other caches are
    left alone. *)
Lemma base_relink s s' F G fl i z F' G' c' :
  base s F G fl → level i z →
  al s' = al s → nx s' = nx s → fixed_cache_list s' = <[i := c']> (fixed_cache_list s) → c_size c' = z →
  (∀ b sl, slabs s !! b = Some sl → ∃ p, slabs s' !! b = Some (s_next p sl) ∧ (b ∉ F i ++ G i → p = next sl)) →
  F' ++ G' ≡ₚ F i ++ G i →
  schain (slabs s') (free_slab c') F' → schain (slabs s') (full_slab c') G' →
  base s' (<[i := F']> F) (<[i := G']> G) fl.
Proof.
  intros Hb Hi Hal Hnx Hca Hsz Hsl Hperm HF HG.
  assert (Hin : ∀ j a, a ∈ (<[i:=F']> F) j ++ (<[i:=G']> G) j ↔ a ∈ F j ++ G j).
  { intros j a. destruct (decide (j = i)) as [->|Hne].
    - rewrite !fn_lookup_insert. by rewrite Hperm.
    - by rewrite !fn_lookup_insert_ne. }
  assert (Hil : (i < length (fixed_cache_list s))%nat).
  { rewrite (b_len _ _ _ _ Hb). unfold FIXED_CACHE_LEVEL_NUM. apply (level_bounds i z Hi). }
  split.
  - rewrite Hal. apply Hb.
  - rewrite Hnx. apply Hb.
  - rewrite Hca, length_insert. apply Hb.
  - intros j y Hj. rewrite Hca. destruct (decide (j = i)) as [->|Hne].
    + exists c'. rewrite list_lookup_insert_eq, !fn_lookup_insert by done. split_and!; try done.
      unfold level in *. congruence.
    + rewrite list_lookup_insert_ne, !fn_lookup_insert_ne by done.
      destruct (b_cache _ _ _ _ Hb j y Hj) as (c & Hc & Hz & H1 & H2). exists c. split_and!; try done.
      all: (eapply schain_frame; [|eassumption]); intros a sl Ha Ea; destruct (Hsl a sl Ea) as (p & Ep & Hp);
        eexists; (split; [exact Ep|]); apply Hp; intros Hai; apply Hne;
        apply (base_slab_unique s F G fl j i y z a Hb Hj Hi); [|done]; apply elem_of_app; auto.
  - intros j y Hj. destruct (decide (j = i)) as [->|Hne].
    + rewrite !fn_lookup_insert, Hperm. by apply (b_nodup _ _ _ _ Hb i y).
    + rewrite !fn_lookup_insert_ne by done. by apply (b_nodup _ _ _ _ Hb j y).
  - intros j y a Hj Ha. apply Hin in Ha. rewrite Hal. destruct (b_slab _ _ _ _ Hb j y a Hj Ha) as [H1 H2].
    split; [|done]. apply (slab_at_frame s); [done| |by rewrite Hnx].
    intros sl E. destruct (Hsl a sl E) as (p & Ep & _). eauto.
Qed.

(** ** The cache of a size *)

Lemma find_cache_ok n k s F G fl i z :
  base s F G fl → level i z → (k + n = 8)%nat → (k ≤ i)%nat → find_cache n k z s = Ok (Some i).
Proof.
  intros Hb Hi. revert k; induction n as [|n IH]; intros k Hk Hki.
  { pose proof (level_bounds i z Hi). lia. }
  cbn [find_cache]. assert (∃ y, level k y) as [y Hy].
  { unfold level. apply lookup_lt_is_Some_2. cbn. lia. }
  destruct (b_cache _ _ _ _ Hb k y Hy) as (c & Hc & Hz & _). unfold get_cache. rewrite Hc. cbn [of_opt bind]. rewrite Hz.
  destruct (Z.eqb_spec z y) as [<-|Hne]; [by rewrite (level_inj k i z Hy Hi)|].
  apply IH; [lia|]. destruct (decide (k = i)) as [->|]; [|lia]. unfold level in *. congruence.
Qed.

Lemma fine_kmem_cache_ok s F G fl i z : base s F G fl → level i z → fine_kmem_cache z s = Ok (Some i).
Proof. intros. unfold fine_kmem_cache, FIXED_CACHE_LEVEL_NUM. apply (find_cache_ok 8 0 s F G fl); [done|done|lia|lia]. Qed.

(** ** The end of a list of slabs *)

Lemma last_slab_ok fuel s p X t :
  schain (slabs s) p (X ++ [t]) → (length X < fuel)%nat → last_slab fuel p s = Ok t.
Proof.
  revert p X; induction fuel as [|fuel IH]; intros p X Hc Hf; [lia|]. cbn [last_slab]. unfold get_slab.
  destruct X as [|x X]; cbn in Hc; destruct Hc as (-> & Hpos & sl & -> & Hc); cbn [of_opt bind].
  - cbn in Hc. by rewrite Hc.
  - destruct (Z.eqb_spec (next sl) 0) as [E|E].
    + destruct X as [|y X]; cbn in Hc; destruct Hc as (E' & ? & _); lia.
    + apply (IH _ X); [done|cbn in Hf; lia].
Qed.

(** Appending the slab [a] after the last slab [t]. *)
Lemma schain_snoc (m : gmap Z slab) p X t a slt sla :
  schain m p (X ++ [t]) → NoDup (a :: X ++ [t]) → 0 < a → m !! t = Some slt → m !! a = Some sla →
  schain (<[a := s_next 0 sla]> (<[t := s_next a slt]> m)) p ((X ++ [t]) ++ [a]).
Proof.
  intros Hc Hnd Ha Ht Hsa. rewrite <-app_assoc. cbn [app]. apply NoDup_cons in Hnd as [Hna Hnd].
  assert (Hat : a ≠ t) by (intros ->; apply Hna, elem_of_app; right; by left).
  revert p Hc; induction X as [|x X IH]; intros p; cbn [app schain].
  - intros (-> & Hpos & _). split; [done|]. split; [done|]. exists (s_next a slt).
    rewrite lookup_insert_ne, lookup_insert_eq by done. split; [done|]. split; [done|]. split; [done|].
    exists (s_next 0 sla). by rewrite lookup_insert_eq.
  - intros (-> & Hpos & sl & Hsl & Hc). split; [done|]. split; [done|]. exists sl.
    cbn in Hnd, Hna. apply NoDup_cons in Hnd as [Hx Hnd]. apply not_elem_of_cons in Hna as [Hax Hna].
    rewrite !lookup_insert_ne; [|intros ->; apply Hx, elem_of_app; right; by left|done].
    split; [done|]. by apply IH.
Qed.

(** A duplicate-free list of slabs is no longer than the number of slabs. *)
Lemma schain_dom m p X a : schain m p X → a ∈ X → is_Some (m !! a).
Proof.
  revert p; induction X as [|x X IH]; intros p; cbn; [by intros _ ?%not_elem_of_nil|].
  intros (-> & _ & sl & Hsl & Hc) [-> |Hin]%elem_of_cons; [by eexists|by apply (IH (next sl))].
Qed.

Lemma schain_length s p X : NoDup X → schain (slabs s) p X → (length X < list_fuel s)%nat.
Proof.
  intros Hnd Hc. unfold list_fuel. apply Nat.lt_succ_r.
  rewrite <-(size_list_to_set (C := gset Z) X Hnd). change (map_size (slabs s)) with (base.size (slabs s)).
  rewrite <-size_dom. apply subseteq_size. intros a Ha. apply elem_of_list_to_set in Ha.
  apply elem_of_dom. by apply (schain_dom _ p X).
Qed.

(** ** Member updates *)

Lemma set_slab_ok p f s sl :
  slabs s !! p = Some sl → set_slab p f s = Ok (with_slabs s (<[p := f sl]> (slabs s))).
Proof. intros H. unfold set_slab, get_slab. by rewrite H. Qed.

Lemma set_next_ok o v s : is_Some (nx s !! o) → set_next o v s = Ok (with_nx s (<[o := v]> (nx s))).
Proof. intros [q H]. unfold set_next, get_next. by rewrite H. Qed.

Lemma set_cache_ok i f s c :
  fixed_cache_list s !! i = Some c → set_cache i f s = Ok (with_caches s (<[i := f c]> (fixed_cache_list s))).
Proof. intros H. unfold set_cache, get_cache. by rewrite H. Qed.

(** ** Creating a slab *)

Definition objs (a z : Z) : list Z := obj a z <$> seqZ 0 (object_count z).

Lemma obj_inj a z j k : z ≠ 0 → obj a z j = obj a z k → j = k.
Proof. unfold obj. intros Hz H. nia. Qed.

Lemma is_obj_objs a z o : is_obj a z o ↔ o ∈ objs a z.
Proof.
  unfold is_obj, objs. rewrite list_elem_of_fmap. split.
  - intros (j & Hj & ->). exists j. split; [done|]. apply elem_of_seqZ. lia.
  - intros (j & -> & Hj%elem_of_seqZ). exists j. split; [lia|done].
Qed.

Lemma zero_objects_lookup a z n x :
  zero_objects a z n !! x = if decide (x ∈ objs a z) then Some 0 else n !! x.
Proof.
  unfold zero_objects, objs. generalize (seqZ 0 (object_count z)) as l.
  induction l as [|j l IH]; cbn [foldr fmap list_fmap].
  - by rewrite decide_False by apply not_elem_of_nil.
  - rewrite lookup_insert, IH. destruct (decide (obj a z j = x)) as [<-|E].
    + by rewrite decide_True by by left.
    + destruct (decide (x ∈ obj a z <$> l)) as [E1|E1].
      * by rewrite decide_True by by right.
      * rewrite decide_False; [done|]. by intros [?|?]%elem_of_cons.
Qed.

Lemma ochain_objs n a z k m :
  0 < a → 0 < z → 0 ≤ k →
  (∀ l, k ≤ l < k + Z.of_nat m → n !! obj a z l = Some (obj a z (l + 1))) → n !! obj a z (k + Z.of_nat m) = Some 0 →
  ochain n (obj a z k) (obj a z <$> seqZ k (Z.of_nat (S m))).
Proof.
  intros Ha Hz. revert k; induction m as [|m IH]; intros k Hk Hl Hlast.
  - rewrite Z.add_0_r in Hlast. rewrite seqZ_cons by lia. cbn. unfold seqZ. cbn.
    split; [done|]. split; [unfold obj, sizeof_slab; lia|]. by exists 0.
  - rewrite seqZ_cons by lia. cbn [fmap list_fmap ochain]. split; [done|]. split; [unfold obj, sizeof_slab; lia|].
    exists (obj a z (k + 1)). split; [apply Hl; lia|].
    replace (Z.pred (Z.of_nat (S (S m)))) with (Z.of_nat (S m)) by lia. change (Z.succ k) with (k + 1).
    apply IH; [lia| |].
    + intros l Hl'. apply Hl. lia.
    + by replace (k + 1 + Z.of_nat m) with (k + Z.of_nat (S m)) by lia.
Qed.

Lemma objs_sorted a z : 0 < z → StronglySorted Z.lt (objs a z).
Proof.
  intros Hz. unfold objs. destruct (decide (0 ≤ object_count z)) as [Hp|Hn]; [|rewrite seqZ_nil by lia; constructor].
  rewrite <-(Z2Nat.id (object_count z)) by done. generalize (Z.to_nat (object_count z)) as m, 0 as k.
  induction m as [|m IH]; intros k; [constructor|]. rewrite seqZ_cons by lia. cbn [fmap list_fmap].
  replace (Z.pred (Z.of_nat (S m))) with (Z.of_nat m) by lia. constructor; [apply IH|].
  apply Forall_forall. intros x (j & -> & Hj%elem_of_seqZ)%list_elem_of_fmap. unfold obj. nia.
Qed.

(** The links of a new slab. *)
Lemma link_objects s a z m :
  z ≠ 0 → 1 ≤ m → (∀ j, 0 ≤ j < m → nx s !! obj a z j = Some 0) →
  ∃ s', for_range 0 (m - 1) (λ j, set_next (obj a z j) (obj a z (j + 1))) s = Ok s' ∧
    s' = with_nx s (nx s') ∧
    (∀ j, 0 ≤ j < m - 1 → nx s' !! obj a z j = Some (obj a z (j + 1))) ∧ nx s' !! obj a z (m - 1) = Some 0 ∧
    (∀ x, (∀ j, 0 ≤ j < m → x ≠ obj a z j) → nx s' !! x = nx s !! x).
Proof.
  intros Hz Hm H0.
  destruct (for_range_inv (λ k s', s' = with_nx s (nx s') ∧
    (∀ j, 0 ≤ j < k → nx s' !! obj a z j = Some (obj a z (j + 1))) ∧ (∀ j, k ≤ j < m → nx s' !! obj a z j = Some 0) ∧
    (∀ x, (∀ j, 0 ≤ j < m → x ≠ obj a z j) → nx s' !! x = nx s !! x)) 0 (m - 1)
    (λ j, set_next (obj a z j) (obj a z (j + 1))) s) as (s' & Hop & H1 & H2 & H3 & H4).
  - lia.
  - split_and!; [by destruct s|intros; lia|done|done].
  - intros k s1 Hk (H1 & H2 & H3 & H4). rewrite set_next_ok by (rewrite H3 by lia; by eexists).
    eexists; split; [reflexivity|]. split_and!; cbn [nx with_nx].
    + by rewrite H1.
    + intros j Hj. destruct (decide (j = k)) as [->|Hne]; [apply lookup_insert_eq|].
      rewrite lookup_insert_ne by (intros ?%obj_inj; lia). apply H2. lia.
    + intros j Hj. rewrite lookup_insert_ne by (intros ?%obj_inj; lia). apply H3. lia.
    + intros x Hx. rewrite lookup_insert_ne by (intros E; apply (Hx k); [lia|done]). by apply H4.
  - exists s'. split_and!; try done. apply H3. lia.
Qed.

Lemma create_slab_ok s i z n :
  pa_inv (al s) → pa_avail (al s) (S n) → level i z →
  ∃ a s', create_slab_with_size z s = Ok (a, s') ∧ slab_at s' a z (objs a z) ∧
    fixed_cache_list s' = fixed_cache_list s ∧ state s' = state s ∧
    slab_boot_page s' = slab_boot_page s ∧ simple_alloc_count s' = simple_alloc_count s ∧
    slabs s' = <[a := mk_slab SLAB_MAGIC 0 (obj a z 0) z (object_count z)]> (slabs s) ∧
    (∀ o, ¬ is_obj a z o → nx s' !! o = nx s !! o) ∧
    pa_inv (al s') ∧ pa_avail (al s') n ∧ ¬ pa_owned (al s) a ∧ (∀ b, pa_owned (al s') b ↔ b = a ∨ pa_owned (al s) b).
Proof.
  intros Hi Hav Hl. destruct (level_bounds i z Hl) as (Hz & Hm & _ & _). unfold create_slab_with_size.
  destruct (pa_alloc_ok (al s) n Hi Hav) as (a & b & Hop & Hi' & Hav' & Hb & Hal & Hno & Hown).
  change (Buddy.pmem_alloc_pages 1 (al s) = Ok (a, b)) in Hop. rewrite Hop. cbn [bind].
  rewrite (proj2 (Z.eqb_neq a 0)) by lia.
  destruct (link_objects (with_nx (with_al s b) (zero_objects a z (nx s))) a z (object_count z))
    as (s1 & -> & E1 & H1 & H2 & H3); [lia|lia| |].
  { intros j Hj. cbn. rewrite zero_objects_lookup, decide_True; [done|]. apply is_obj_objs. by exists j. }
  cbn [bind]. eexists a, _. split; [reflexivity|]. rewrite E1. cbn [slabs nx al fixed_cache_list state slab_boot_page
    simple_alloc_count with_slabs with_nx with_al]. split_and!; try done.
  - split.
    + split; [done|exact Hal].
    + exists 0, (obj a z 0). cbn [slabs nx with_slabs with_nx]. rewrite lookup_insert_eq. split.
      * unfold objs. rewrite length_fmap, length_seqZ, Z2Nat.id by lia. done.
      * unfold objs. replace (object_count z) with (Z.of_nat (S (Z.to_nat (object_count z - 1)))) by lia.
        apply ochain_objs; [lia|lia|lia| |].
        -- intros l Hl'. apply H1. lia.
        -- by replace (0 + Z.of_nat (Z.to_nat (object_count z - 1))) with (object_count z - 1) by lia.
    + apply Forall_forall. intros x. by rewrite is_obj_objs.
    + apply objs_sorted. lia.
    + cbn [nx with_slabs with_nx]. intros o (j & Hj & ->). destruct (decide (j = object_count z - 1)) as [->|].
      * rewrite H2. by eexists.
      * rewrite H1 by lia. by eexists.
  - intros o Ho. rewrite H3; cbn [nx with_nx].
    + by rewrite zero_objects_lookup, decide_False by (by rewrite <-is_obj_objs).
    + intros j Hj ->. apply Ho. by exists j.
Qed.

End Slab.
