(* ===== verification/SlabOps.v ===== *)
(** * Slab allocator: effect of allocation and release

    Each branch of [__alloc_from_kmem_cache] and [slab_free] on the lists of
    slabs and of free objects. *)

From Stdlib Require Import Sorted.
From stdpp Require Import functions.
From S2P Require Import Prelude BuddyDefs Pmem SlabDefs Slab.
Import Pmem SlabDefs Slab.

Module SlabOps.

(** ** Allocation *)

(** A slab after the first object of its list was taken. *)
Lemma slab_at_pop s s' a z p o q L :
  slab_at s a z (o :: L) → nx s !! o = Some q → ochain (nx s) q L → nx s' = nx s →
  slabs s' !! a = Some (mk_slab SLAB_MAGIC p q z (Z.of_nat (length L))) → slab_at s' a z L.
Proof.
  intros [H1 _ H3 H4 H5] Ho Hc Hn Hs. split; try done.
  - exists p, q. by rewrite Hn.
  - by apply Forall_cons in H3 as [_ ?].
  - by apply StronglySorted_inv in H4 as [? _].
  - by rewrite Hn.
Qed.

(** The header and the first object of a slab with free objects. *)
Lemma slab_at_head s a z o L :
  slab_at s a z (o :: L) →
  ∃ p q, slabs s !! a = Some (mk_slab SLAB_MAGIC p o z (Z.of_nat (S (length L)))) ∧
    nx s !! o = Some q ∧ ochain (nx s) q L.
Proof. intros [_ (p & o' & Hh & Hc) _ _ _]. cbn in Hc. destruct Hc as (-> & _ & q & Hq & Hc). by exists p, q. Qed.

(** The effect of taking the object [o] from the slab [a]. *)
Definition taken (s : allocator) (a q : Z) (sl : slab) (k : Z) : allocator :=
  with_slabs s (<[a := s_free k (s_object q sl)]> (slabs s)).

Lemma base_take s F G fl i z a o q L p :
  base s F G fl → level i z → a ∈ F i ++ G i → fl a = o :: L →
  slabs s !! a = Some (mk_slab SLAB_MAGIC p o z (Z.of_nat (S (length L)))) →
  nx s !! o = Some q → ochain (nx s) q L →
  base (taken s a q (mk_slab SLAB_MAGIC p o z (Z.of_nat (S (length L)))) (Z.of_nat (length L))) F G (<[a := L]> fl).
Proof.
  intros Hb Hi Ha Hfl Hsl Hq Hc. destruct (b_slab _ _ _ _ Hb i z a Hi Ha) as [Hsa _]. rewrite Hfl in Hsa.
  apply (base_set_list s _ F G fl i z a); try done; unfold taken; cbn [slabs with_slabs].
  - apply (slab_at_pop s _ a z p o q L); try done. cbn [slabs with_slabs]. apply lookup_insert_eq.
  - intros b Hne. by rewrite lookup_insert_ne.
  - intros sl sl' E. rewrite lookup_insert_eq. intros [= <-]. rewrite Hsl in E. by injection E as <-.
Qed.

Lemma set_slab_twice a f g s sl :
  slabs s !! a = Some sl →
  (let* s := set_slab a f s in set_slab a g s) = Ok (with_slabs s (<[a := g (f sl)]> (slabs s))).
Proof.
  intros H. rewrite (set_slab_ok a f s sl H). cbn [bind]. rewrite (set_slab_ok a g _ (f sl)) by apply lookup_insert_eq.
  cbn [slabs with_slabs]. by rewrite insert_insert_eq.
Qed.

Lemma bind_twice {A B C} (m : res A) (k : A → res B) (h : B → res C) :
  (let* x := m in let* y := k x in h y) = (let* y := (let* x := m in k x) in h y).
Proof. by destruct m. Qed.

(** At least two free objects in the first slab. *)
Lemma alloc_many s F G fl i z a X o x L :
  inv s F G fl → level i z → F i = a :: X → fl a = o :: x :: L →
  ∃ s', alloc_from_kmem_cache i s = Ok (o, s') ∧ inv s' F G (<[a := x :: L]> fl) ∧ al s' = al s.
Proof.
  intros [Hb Hf Hg] Hi HF Hfl. unfold alloc_from_kmem_cache, get_cache, get_slab, get_next.
  destruct (b_cache _ _ _ _ Hb i z Hi) as (c & -> & Hz & Hcf & _). cbn [of_opt bind]. rewrite HF in Hcf.
  destruct Hcf as (-> & Hpos & _). rewrite (proj2 (Z.eqb_neq a 0)) by lia. cbn [negb].
  assert (Ha : a ∈ F i ++ G i) by (rewrite HF; by left).
  destruct (b_slab _ _ _ _ Hb i z a Hi Ha) as [Hsa _]. rewrite Hfl in Hsa.
  destruct (slab_at_head s a z o (x :: L) Hsa) as (p & q & Hsl & Hq & Hc). rewrite Hsl. cbn [of_opt bind free object].
  rewrite (proj2 (Z.ltb_lt _ _)) by (cbn; lia). rewrite Hq. cbn [of_opt bind].
  rewrite bind_twice, (set_slab_twice a _ _ s _ Hsl). cbn [bind]. eexists; split; [reflexivity|].
  pose proof (base_take s F G fl i z a o q (x :: L) p Hb Hi Ha Hfl Hsl Hq Hc) as Hb'. unfold taken in Hb'.
  replace (Z.of_nat (S (length (x :: L))) - 1) with (Z.of_nat (length (x :: L))) by lia.
  split; [|done]. split; [done| |]; intros j y b Hj Hin; destruct (decide (b = a)) as [->|Hne].
  - by rewrite fn_lookup_insert.
  - rewrite fn_lookup_insert_ne by done. by apply (Hf j y).
  - pose proof (Hg j y a Hj Hin). congruence.
  - rewrite fn_lookup_insert_ne by done. by apply (Hg j y).
Qed.

Lemma snoc_or_nil {A} (l : list A) : (∃ Y t, l = Y ++ [t]) ∨ l = [].
Proof. induction l as [|t Y _] using rev_ind; [by right|]. left. by exists Y, t. Qed.

(** The last free object of the first slab: the slab goes to the end of the
    list of full slabs.  When that list is empty the [next] of the slab is
    left as it is, so that it must be the only slab of the other list. *)
Lemma relink_full s F G fl i z a X c sla :
  base s F G fl → level i z → F i = a :: X → (X = [] ∨ G i ≠ []) →
  fixed_cache_list s !! i = Some c → c_size c = z → slabs s !! a = Some sla →
  schain (slabs s) (free_slab c) (F i) → schain (slabs s) (full_slab c) (G i) →
  ∃ s', (let* s := set_cache i (c_free (next sla)) s in
         if full_slab c =? 0 then set_cache i (c_full a) s
         else let* t := last_slab (list_fuel s) (full_slab c) s in
              let* s := set_slab t (s_next a) s in set_slab a (s_next 0) s) = Ok s' ∧
    base s' (<[i := X]> F) (<[i := G i ++ [a]]> G) fl ∧ al s' = al s.
Proof.
  intros Hb Hi HF Hcase Hc Hz Hsa Hcf Hcg. pose proof (b_nodup _ _ _ _ Hb i z Hi) as Hnd. rewrite HF in Hnd, Hcf.
  destruct Hcf as (Hfa & Hpos & sl & Hsl & Hcx). rewrite Hsa in Hsl. injection Hsl as <-.
  assert (Hil : (i < length (fixed_cache_list s))%nat) by (by apply lookup_lt_Some in Hc).
  rewrite (set_cache_ok i _ s c Hc). cbn [bind].
  assert (Hperm : X ++ G i ++ [a] ≡ₚ F i ++ G i).
  { rewrite HF, app_assoc. cbn [app]. symmetry. apply Permutation_cons_append. }
  destruct (snoc_or_nil (G i)) as [(Y & t & EG)|EG].
  - assert (full_slab c ≠ 0) as Hne.
    { rewrite EG in Hcg. destruct Y; cbn in Hcg; destruct Hcg as (? & ? & _); lia. }
    rewrite (proj2 (Z.eqb_neq _ _)) by done.
    assert (HndG : NoDup (G i)) by by apply NoDup_app in Hnd as (_ & _ & ?).
    pose proof (schain_length s _ _ HndG Hcg) as Hfuel. rewrite EG in Hcg, Hfuel. rewrite length_app in Hfuel.
    rewrite (last_slab_ok _ (with_caches s _) (full_slab c) Y t) by (done || (unfold list_fuel in *; cbn in *; lia)).
    destruct (schain_dom (slabs s) (full_slab c) (Y ++ [t]) t Hcg) as [slt Hslt]; [apply elem_of_app; right; by left|].
    assert (Hnd2 : NoDup (a :: Y ++ [t])).
    { rewrite EG in Hnd. apply NoDup_cons in Hnd as [H1 H2]. apply NoDup_app in H2 as (_ & _ & H2).
      apply NoDup_cons. split; [|done]. intros H. apply H1, elem_of_app. by right. }
    assert (Hat : a ≠ t) by (apply NoDup_cons in Hnd2 as [H1 _]; intros ->; apply H1, elem_of_app; right; by left).
    cbn [bind]. rewrite (set_slab_ok t _ _ slt) by done. cbn [bind].
    rewrite (set_slab_ok a _ _ sla) by (cbn [slabs with_slabs with_caches]; by rewrite lookup_insert_ne).
    cbn [slabs with_slabs with_caches]. eexists; split; [reflexivity|]. split; [|done].
    apply (base_relink s _ F G fl i z _ _ (c_free (next sla) c)); try done; cbn [slabs with_slabs with_caches].
    + intros b slb Eb. destruct (decide (b = a)) as [->|Hba]; [|destruct (decide (b = t)) as [->|Hbt]].
      * exists 0. rewrite lookup_insert_eq. split; [congruence|]. intros H. destruct H. rewrite HF. by left.
      * exists a. rewrite lookup_insert_ne, lookup_insert_eq by done. split; [congruence|].
        intros H. destruct H. rewrite EG. apply elem_of_app; right. apply elem_of_app; right. by left.
      * exists (next slb). rewrite !lookup_insert_ne by done. rewrite Eb. split; [by destruct slb|done].
    + apply (schain_frame (slabs s)); [|exact Hcx]. intros b slb Hbx Eb.
      apply NoDup_cons in Hnd as [H1 H2]. rewrite EG in H1, H2. apply NoDup_app in H2 as (_ & H2 & _).
      rewrite !lookup_insert_ne; [by exists slb| |].
      * intros <-. apply (H2 t Hbx), elem_of_app. right. by left.
      * intros <-. apply H1, elem_of_app. by left.
    + rewrite EG. by apply schain_snoc.
  - destruct Hcase as [-> |?]; [|done]. rewrite EG in Hcg, Hperm |- *. cbn in Hcg. rewrite Hcg. cbn [Z.eqb].
    rewrite (set_cache_ok i _ _ (c_free (next sla) c)) by (cbn; by rewrite list_lookup_insert_eq).
    cbn [fixed_cache_list with_caches]. rewrite list_insert_insert_eq. eexists; split; [reflexivity|]. split; [|done].
    apply (base_relink s _ F G fl i z _ _ (c_full a (c_free (next sla) c))); try done; cbn [slabs with_caches].
    + intros b slb Eb. exists (next slb). rewrite Eb. split; [by destruct slb|done].
    + rewrite EG. exact Hperm.
    + cbn. split; [done|]. split; [done|]. exists sla. split; [done|]. exact Hcx.
Qed.

(** Which list the slabs are in, after the slab [a] of the cache [i] ran out. *)
Lemma inv_ran_out s F G fl i z a X :
  base s (<[i := X]> F) (<[i := G i ++ [a]]> G) (<[a := []]> fl) → level i z → a ∉ X →
  (∀ j y b, level j y → b ∈ F j → fl b ≠ []) → (∀ j y b, level j y → b ∈ G j → fl b = []) → F i = a :: X →
  (∀ j y, level j y → j ≠ i → a ∉ F j) →
  inv s (<[i := X]> F) (<[i := G i ++ [a]]> G) (<[a := []]> fl).
Proof.
  intros Hb Hi Hax Hf Hg HF Hoth. split; [done| |]; intros j y b Hj.
  - destruct (decide (j = i)) as [->|Hne].
    + rewrite fn_lookup_insert. intros Hin. rewrite fn_lookup_insert_ne by (intros ->; done).
      apply (Hf i y); [done|]. rewrite HF. by right.
    + rewrite fn_lookup_insert_ne by done. intros Hin. rewrite fn_lookup_insert_ne; [by apply (Hf j y)|].
      intros ->. by apply (Hoth j y).
  - destruct (decide (b = a)) as [->|Hba]; [by rewrite fn_lookup_insert|]. rewrite (fn_lookup_insert_ne fl) by done.
    destruct (decide (j = i)) as [->|Hne].
    + rewrite fn_lookup_insert. intros [Hin|Hin]%elem_of_app; [by apply (Hg i y)|].
      by apply list_elem_of_singleton in Hin as ->.
    + rewrite fn_lookup_insert_ne by done. by apply (Hg j y).
Qed.

Lemma alloc_last s F G fl i z a X o :
  inv s F G fl → level i z → F i = a :: X → fl a = [o] → (X = [] ∨ G i ≠ []) →
  ∃ s', alloc_from_kmem_cache i s = Ok (o, s') ∧
    inv s' (<[i := X]> F) (<[i := G i ++ [a]]> G) (<[a := []]> fl) ∧ al s' = al s.
Proof.
  intros [Hb Hf Hg] Hi HF Hfl Hcase. unfold alloc_from_kmem_cache, get_cache, get_slab.
  destruct (b_cache _ _ _ _ Hb i z Hi) as (c & Hc & Hz & Hcf & Hcg). rewrite Hc. cbn [of_opt bind].
  assert (Hfs : free_slab c = a ∧ 0 < a) by (rewrite HF in Hcf; destruct Hcf as (-> & ? & _); done).
  destruct Hfs as [Hfs Hpos]. rewrite Hfs. rewrite (proj2 (Z.eqb_neq a 0)) by lia. cbn [negb].
  assert (Ha : a ∈ F i ++ G i) by (rewrite HF; by left).
  destruct (b_slab _ _ _ _ Hb i z a Hi Ha) as [Hsa _]. rewrite Hfl in Hsa.
  destruct (slab_at_head s a z o [] Hsa) as (p & q & Hsl & Hq & Hch). rewrite Hsl.
  pose proof Hch as Hq0. cbn in Hq0. subst q.
  cbn [of_opt bind free object length next]. change (1 <? Z.of_nat 1) with false. change (Z.of_nat 1 =? 1) with true. cbv iota.
  rewrite bind_twice, (set_slab_twice a _ _ s _ Hsl). cbn [bind].
  pose proof (base_take s F G fl i z a o 0 [] p Hb Hi Ha Hfl Hsl Hq Hch) as Hb'.
  set (sla := s_free 0 (s_object 0 _)).
  set (s1 := with_slabs s (<[a := sla]> (slabs s))). change (base s1 F G (<[a := []]> fl)) in Hb'.
  destruct (relink_full s1 F G (<[a := []]> fl) i z a X c sla Hb' Hi HF Hcase Hc Hz) as (s' & Hop & Hb2 & Hal).
  { apply lookup_insert_eq. }
  { destruct (b_cache _ _ _ _ Hb' i z Hi) as (c' & Hc' & _ & H1 & _). change (fixed_cache_list s1) with (fixed_cache_list s) in Hc'.
    assert (c' = c) as -> by congruence. exact H1. }
  { destruct (b_cache _ _ _ _ Hb' i z Hi) as (c' & Hc' & _ & _ & H1). change (fixed_cache_list s1) with (fixed_cache_list s) in Hc'.
    assert (c' = c) as -> by congruence. exact H1. }
  change (next sla) with p in Hop. rewrite bind_twice. rewrite Hop. cbn [bind]. exists s'. split; [done|]. split; [|done].
  apply (inv_ran_out s' F G fl i z a X); try done.
  - pose proof (b_nodup _ _ _ _ Hb i z Hi) as Hnd. rewrite HF in Hnd. apply NoDup_cons in Hnd as [H1 _].
    intros H. apply H1, elem_of_app. by left.
  - intros j y Hj Hne Hin. apply Hne.
    apply (base_slab_unique s F G fl j i y z a Hb Hj Hi); [apply elem_of_app; by left|done].
Qed.

(** A new slab for a cache without free objects. *)
Lemma base_add s s' F G fl i z a c c' L sla :
  base s F G fl → level i z → F i = [] → fixed_cache_list s !! i = Some c →
  pa_inv (al s') → ¬ pa_owned (al s) a → (∀ b, pa_owned (al s') b ↔ b = a ∨ pa_owned (al s) b) →
  slab_at s' a z L → slabs s' = <[a := sla]> (slabs s) → next sla = 0 →
  (∀ o, ¬ is_obj a z o → nx s' !! o = nx s !! o) →
  fixed_cache_list s' = <[i := c']> (fixed_cache_list s) → c_size c' = z → free_slab c' = a → full_slab c' = full_slab c →
  base s' (<[i := [a]]> F) G (<[a := L]> fl).
Proof.
  intros Hb Hi HF Hc Hpa Hno Hown Hsa Hsl Hnext Hnx Hca Hz Hfree Hfull.
  assert (Hnew : ∀ j y, level j y → a ∉ F j ++ G j).
  { intros j y Hj Hin. apply Hno. by apply (b_slab _ _ _ _ Hb j y a). }
  assert (Hch : ∀ p X, a ∉ X → schain (slabs s) p X → schain (slabs s') p X).
  { intros p X HX. apply schain_frame. intros b sb Hbx Eb. exists sb. rewrite Hsl, lookup_insert_ne; [done|congruence]. }
  assert (Hil : (i < length (fixed_cache_list s))%nat) by by apply lookup_lt_Some in Hc.
  assert (Hdef : ∀ j y, level j y → (a ∉ F j) ∧ a ∉ G j).
  { intros j y Hj. pose proof (Hnew j y Hj) as H. split; intros Hx; apply H, elem_of_app; auto. }
  split; [done|rewrite Hnx; [apply Hb|by apply (not_obj_null i), Hsa]|by rewrite Hca, length_insert; apply Hb| | |].
  - intros j y Hj. rewrite Hca. destruct (b_cache _ _ _ _ Hb j y Hj) as (cj & Hcj & Hzj & H1 & H2).
    destruct (Hdef j y Hj) as [N1 N2]. destruct (decide (j = i)) as [->|Hne].
    + exists c'. rewrite list_lookup_insert_eq, fn_lookup_insert by done. split_and!; [done|unfold level in *; congruence| |].
      * rewrite Hfree. cbn. split; [done|]. split; [apply Hsa|]. exists sla. by rewrite Hsl, lookup_insert_eq.
      * rewrite Hfull. apply Hch; [done|]. congruence.
    + exists cj. rewrite list_lookup_insert_ne, fn_lookup_insert_ne by done. split_and!; auto.
  - intros j y Hj. pose proof (b_nodup _ _ _ _ Hb j y Hj) as Hnd. destruct (decide (j = i)) as [->|Hne].
    + rewrite fn_lookup_insert. rewrite HF in Hnd. apply NoDup_cons. split; [apply (Hdef i y Hj)|done].
    + by rewrite fn_lookup_insert_ne.
  - intros j y b Hj Hin. destruct (decide (b = a)) as [->|Hba].
    + rewrite fn_lookup_insert. assert (j = i) as ->.
      { destruct (decide (j = i)) as [|Hne]; [done|]. rewrite fn_lookup_insert_ne in Hin by done. by destruct (Hnew j y Hj). }
      assert (y = z) as -> by (unfold level in *; congruence). split; [done|]. apply Hown. by left.
    + rewrite fn_lookup_insert_ne by done. assert (Hin' : b ∈ F j ++ G j).
      { destruct (decide (j = i)) as [->|Hne]; [|by rewrite fn_lookup_insert_ne in Hin].
        rewrite fn_lookup_insert in Hin. rewrite HF. cbn in Hin. by apply elem_of_cons in Hin as [?|?]. }
      destruct (b_slab _ _ _ _ Hb j y b Hj Hin') as [H1 H2]. split; [|apply Hown; by right].
      apply (slab_at_frame s); [done| |].
      * intros sl E. exists (next sl). rewrite Hsl, lookup_insert_ne, E by done. by destruct sl.
      * intros o Ho. apply Hnx. intros Ho'. apply Hba. apply (is_obj_page j i b a y z o); try done; [apply H1|apply Hsa].
Qed.

Lemma objs_cons i z a : level i z → ∃ L, objs a z = obj a z 0 :: L ∧ L ≠ [].
Proof.
  intros Hi. destruct (level_bounds i z Hi) as (_ & ? & _). unfold objs. rewrite seqZ_cons, seqZ_cons by lia.
  cbn. eexists; split; [reflexivity|done].
Qed.

Lemma alloc_new s F G fl i z n :
  inv s F G fl → level i z → F i = [] → pa_avail (al s) (S n) →
  ∃ a L s', alloc_from_kmem_cache i s = Ok (obj a z 0, s') ∧ objs a z = obj a z 0 :: L ∧
    inv s' (<[i := [a]]> F) G (<[a := L]> fl) ∧ ¬ pa_owned (al s) a ∧ pa_avail (al s') n.
Proof.
  intros [Hb Hf Hg] Hi HF Hav. unfold alloc_from_kmem_cache, get_cache.
  destruct (b_cache _ _ _ _ Hb i z Hi) as (c & Hc & Hz & Hcf & Hcg). rewrite Hc. cbn [of_opt bind].
  rewrite HF in Hcf. cbn in Hcf. rewrite Hcf. cbn [Z.eqb negb]. rewrite Hz.
  destruct (create_slab_ok s i z n (b_pa _ _ _ _ Hb) Hav Hi)
    as (a & s1 & -> & Hsa & Eca & _ & _ & _ & Esl & Enx & Hpa & Hav' & Hno & Hown). cbn [bind].
  destruct (objs_cons i z a Hi) as (L & EL & HL). rewrite EL in Hsa.
  rewrite (set_cache_ok i _ s1 c) by by rewrite Eca. cbn [bind]. unfold get_slab, get_next.
  destruct (slab_at_head s1 a z _ L Hsa) as (p & q & Hsl & Hq & Hch). cbn [slabs nx with_caches].
  rewrite Hsl. cbn [of_opt bind object free]. rewrite Hq. cbn [of_opt bind].
  rewrite bind_twice, (set_slab_twice a _ _ _ (mk_slab SLAB_MAGIC p (obj a z 0) z (Z.of_nat (S (length L))))) by done.
  cbn [bind slabs with_caches]. exists a, L. eexists. split; [reflexivity|]. split; [done|].
  replace (Z.of_nat (S (length L)) - 1) with (Z.of_nat (length L)) by lia.
  assert (Hp : p = 0). { rewrite Esl, lookup_insert_eq in Hsl. by injection Hsl as ->. }
  match goal with |- inv ?x _ _ _ ∧ _ => set (s' := x) end.
  assert (Hb' : base s' (<[i := [a]]> F) G (<[a := L]> fl)).
  { apply (base_add s s' F G fl i z a c (c_free a c) L (mk_slab SLAB_MAGIC p q z (Z.of_nat (length L)))); try done.
    - apply (slab_at_pop s1 s' a z p (obj a z 0) q L); try done. unfold s'. cbn. apply lookup_insert_eq.
    - unfold s'. cbn [slabs with_slabs with_caches]. rewrite Esl. by rewrite insert_insert_eq.
    - unfold s'. cbn. by rewrite Eca. }
  split; [|done]. split; [done| |]; intros j y b Hj Hin.
  - destruct (decide (b = a)) as [->|Hba]; [by rewrite fn_lookup_insert|]. rewrite (fn_lookup_insert_ne fl) by done.
    destruct (decide (j = i)) as [->|Hne].
    + rewrite fn_lookup_insert in Hin. by apply list_elem_of_singleton in Hin.
    + rewrite fn_lookup_insert_ne in Hin by done. by apply (Hf j y).
  - rewrite fn_lookup_insert_ne; [by apply (Hg j y)|]. intros ->. apply Hno.
    apply (b_slab _ _ _ _ Hb j y); [done|]. apply elem_of_app. by right.
Qed.

(** ** Release *)

Lemma page_of_object i a z o :
  level i z → 0 < a < 2 ^ 56 ∧ a mod 4096 = 0 → is_obj a z o →
  Z.land o (Z.lnot (PAGE_SIZE - 1)) = a ∧ u64 (o - sizeof_slab) mod z = 0.
Proof.
  intros Hi [Ha Hm] Ho. pose proof (is_obj_range i a z o Hi Ho) as Hr. pose proof (level_bounds i z Hi) as Hz. split.
  - change (PAGE_SIZE - 1) with (Z.ones 12).
    rewrite <-Z.ldiff_land, Z.ldiff_ones_r, Z.shiftl_mul_pow2, Z.shiftr_div_pow2 by lia.
    change (2 ^ 12) with 4096. apply Z.mod_divide in Hm as [k ->]; [|lia].
    assert (o / 4096 = k) as ->; [|done]. symmetry. apply Z.div_unique with (r := o - k * 4096); lia.
  - destruct Ho as (j & Hj & ->). unfold obj in *. rewrite u64_small by (unfold sizeof_slab in *; lia).
    apply Z.mod_divide; [lia|]. apply Z.mod_divide in Hm as [k ->]; [|lia].
    assert (∃ y, 4096 = y * z) as [y Hy].
    { apply level_cases in Hi. destruct Hi as [[_ ->]|[[_ ->]|[[_ ->]|[[_ ->]|[[_ ->]|[[_ ->]|[[_ ->]|[_ ->]]]]]]]].
      - by exists 512.
      - by exists 256.
      - by exists 128.
      - by exists 64.
      - by exists 32.
      - by exists 16.
      - by exists 8.
      - by exists 4. }
    exists (k * y + j). rewrite Hy. lia.
Qed.

(** The start of [slab_free] for an object of a slab. *)
Lemma slab_free_start s F G fl i z a o :
  base s F G fl → level i z → a ∈ F i ++ G i → is_obj a z o →
  ∃ p ob, slabs s !! a = Some (mk_slab SLAB_MAGIC p ob z (Z.of_nat (length (fl a)))) ∧ ochain (nx s) ob (fl a) ∧
  slab_free o s =
    if Z.of_nat (length (fl a)) =? 0 then
      let* s := set_slab a (s_object o) s in
      let* s := set_next o 0 s in
      let* s := set_slab a (λ sl, s_free (u32 (free sl + 1)) sl) s in
      let* r := fine_kmem_cache z s in
      match r with
      | Some i =>
          let* s := set_cache i (c_full p) s in
          let* c := get_cache i s in
          let* s := set_slab a (s_next (free_slab c)) s in
          set_cache i (c_free a) s
      | None => Ok s
      end
    else insert_object a o s.
Proof.
  intros Hb Hi Ha Ho. destruct (b_slab _ _ _ _ Hb i z a Hi Ha) as [Hsa _].
  destruct (page_of_object i a z o Hi (sa_page _ _ _ _ Hsa) Ho) as [Hpg Hmod].
  destruct (sa_hdr _ _ _ _ Hsa) as (p & ob & Hsl & Hc). exists p, ob. split; [done|]. split; [done|].
  unfold slab_free. rewrite Hpg. unfold page_magic. rewrite Hsl. cbn [magic]. rewrite Z.eqb_refl.
  unfold get_slab at 1. rewrite Hsl. cbn [of_opt bind size free next]. rewrite Hmod. done.
Qed.

(** A full slab gets its first free object. *)
Lemma free_full s F G fl i z a Y o :
  inv s F G fl → level i z → G i = a :: Y → is_obj a z o →
  ∃ s', slab_free o s = Ok s' ∧ inv s' (<[i := a :: F i]> F) (<[i := Y]> G) (<[a := [o]]> fl) ∧ al s' = al s.
Proof.
  intros [Hb Hf Hg] Hi HG Ho. assert (Ha : a ∈ F i ++ G i) by (rewrite HG; apply elem_of_app; right; by left).
  assert (Hfl : fl a = []) by (apply (Hg i z); [done|rewrite HG; by left]).
  destruct (slab_free_start s F G fl i z a o Hb Hi Ha Ho) as (p & ob & Hsl & Hch & ->). rewrite Hfl in *. cbn [length] in *.
  change (Z.of_nat 0 =? 0) with true. cbv iota. destruct (b_slab _ _ _ _ Hb i z a Hi Ha) as [Hsa _].
  rewrite (set_slab_ok a _ s _ Hsl). cbn [bind]. rewrite set_next_ok by (cbn; by apply (sa_mem _ _ _ _ Hsa)). cbn [bind].
  rewrite (set_slab_ok a _ _ (s_object o (mk_slab SLAB_MAGIC p ob z (Z.of_nat 0)))) by apply lookup_insert_eq.
  cbn [bind slabs nx with_slabs with_nx]. rewrite insert_insert_eq.
  set (sla := s_free _ _). set (s1 := with_slabs _ _).
  assert (Hb1 : base s1 F G (<[a := [o]]> fl)).
  { apply (base_set_list s s1 F G fl i z a); try done; cbn [slabs nx s1 with_slabs with_nx].
    - pose proof (is_obj_range i a z o Hi Ho). pose proof (sa_page _ _ _ _ Hsa).
      split; [done| |by apply Forall_singleton|by repeat constructor|].
      + exists p, o. cbn [slabs nx s1 with_slabs with_nx]. rewrite lookup_insert_eq. split; [done|]. cbn.
        split; [done|]. split; [lia|]. exists 0. by rewrite lookup_insert_eq.
      + intros x Hx. cbn [nx s1 with_slabs with_nx]. apply lookup_insert_is_Some'. right. by apply (sa_mem _ _ _ _ Hsa).
    - intros b Hne. by rewrite lookup_insert_ne.
    - intros x y E. rewrite lookup_insert_eq. intros [= <-]. rewrite Hsl in E. by injection E as <-.
    - intros x Hx. rewrite lookup_insert_ne; [done|]. by intros ->. }
  rewrite (fine_kmem_cache_ok s1 F G _ i z Hb1 Hi). cbn [bind].
  destruct (b_cache _ _ _ _ Hb1 i z Hi) as (c & Hc & Hz & Hcf & Hcg).
  assert (Hil : (i < length (fixed_cache_list s1))%nat) by by apply lookup_lt_Some in Hc.
  rewrite (set_cache_ok i _ s1 c Hc). cbn [bind]. unfold get_cache. cbn [fixed_cache_list with_caches].
  rewrite list_lookup_insert_eq by done. cbn [of_opt bind free_slab c_full].
  rewrite (set_slab_ok a _ _ sla) by apply lookup_insert_eq. cbn [bind].
  rewrite (set_cache_ok i _ _ (c_full p c)) by (cbn; by apply list_lookup_insert_eq).
  cbn [fixed_cache_list slabs with_slabs with_caches]. rewrite list_insert_insert_eq.
  eexists; split; [reflexivity|]. split; [|done].
  pose proof (b_nodup _ _ _ _ Hb i z Hi) as Hnd. rewrite HG in Hnd. apply NoDup_app in Hnd as (_ & HndF & HndG).
  assert (HaF : a ∉ F i) by (intros H; apply (HndF a H); by left). apply NoDup_cons in HndG as [HaY _].
  match goal with |- inv ?x _ _ _ => assert (Hb2 : base x (<[i := a :: F i]> F) (<[i := Y]> G) (<[a := [o]]> fl)) end.
  { assert (Hkeep : ∀ q X, a ∉ X → schain (slabs s1) q X → schain (<[a := s_next (free_slab c) sla]> (slabs s1)) q X).
    { intros q X HX. apply schain_frame. intros b sb Hbx Eb. exists sb. rewrite lookup_insert_ne; [done|congruence]. }
    apply (base_relink s1 _ F G _ i z _ _ (c_free a (c_full p c))); try done; cbn [slabs with_slabs with_caches].
    - intros b sb Eb. destruct (decide (b = a)) as [->|Hne].
      + exists (free_slab c). rewrite lookup_insert_eq. unfold s1 in Eb. cbn in Eb. rewrite lookup_insert_eq in Eb.
        injection Eb as <-. split; [done|]. by intros [].
      + exists (next sb). rewrite lookup_insert_ne, Eb by done. split; [by destruct sb|done].
    - rewrite HG. cbn [app]. apply Permutation_middle.
    - cbn [free_slab c_free schain]. split; [done|]. split; [apply (sa_page _ _ _ _ Hsa)|].
      exists (s_next (free_slab c) sla). rewrite lookup_insert_eq. split; [done|]. cbn [next s_next]. by apply Hkeep.
    - cbn [full_slab c_free c_full]. apply Hkeep; [done|]. rewrite HG in Hcg. destruct Hcg as (_ & _ & sb & Eb & Hcy).
      unfold s1 in Eb. cbn in Eb. rewrite lookup_insert_eq in Eb. injection Eb as <-. exact Hcy. }
  split; [exact Hb2| |]; intros j y b Hj Hin.
  - destruct (decide (b = a)) as [->|Hne]; [by rewrite fn_lookup_insert|]. rewrite (fn_lookup_insert_ne fl) by done.
    apply (Hf j y); [done|]. destruct (decide (j = i)) as [->|Hji]; [|by rewrite fn_lookup_insert_ne in Hin].
    rewrite fn_lookup_insert in Hin. by apply elem_of_cons in Hin as [?|?].
  - rewrite fn_lookup_insert_ne.
    + apply (Hg j y); [done|]. destruct (decide (j = i)) as [->|Hji]; [|by rewrite fn_lookup_insert_ne in Hin].
      rewrite fn_lookup_insert in Hin. rewrite HG. by right.
    + intros ->. destruct (decide (j = i)) as [->|Hji]; [by rewrite fn_lookup_insert in Hin|].
      rewrite fn_lookup_insert_ne in Hin by done. apply Hji.
      apply (base_slab_unique s F G fl j i y z b Hb Hj Hi); [apply elem_of_app; by right|done].
Qed.

(** ** Insertion into the list of free objects *)

(** The place found for an object above the first one of a sorted chain. *)
Lemma find_place_ok fuel s o y L :
  ochain (nx s) y (y :: L) → StronglySorted Z.lt (y :: L) → y < o → o ∉ L → (length L < fuel)%nat →
  ∃ L1 t L2, y :: L = L1 ++ t :: L2 ∧ find_place fuel o y s = Ok t ∧ t < o ∧ (∀ x, x ∈ L2 → o < x).
Proof.
  revert y L; induction fuel as [|fuel IH]; intros y L Hc Hs Hlt Hno Hf; [lia|]. cbn [find_place]. unfold get_next.
  destruct Hc as (_ & Hpos & q & -> & Hc). cbn [of_opt bind]. rewrite (proj2 (Z.ltb_lt y o)) by done.
  apply StronglySorted_inv in Hs as [Hs Hall]. destruct L as [|x L].
  - cbn in Hc. subst q. rewrite andb_false_r. cbn [Z.eqb negb]. exists [], y, []. split_and!; try done.
    by intros x ?%not_elem_of_nil.
  - pose proof Hc as (-> & Hx & _). rewrite (proj2 (Z.eqb_neq x 0)) by lia. cbn [negb andb].
    apply not_elem_of_cons in Hno as [Hne Hno]. destruct (Z.ltb_spec o x) as [Hox|Hox]; cbn [andb].
    + exists [], y, (x :: L). split_and!; try done. intros w [-> |Hw]%elem_of_cons; [done|].
      apply StronglySorted_inv in Hs as [_ Hs]. rewrite Forall_forall in Hs. specialize (Hs w Hw). lia.
    + destruct (IH x L) as (L1 & t & L2 & E & Hop & H1 & H2); [exact Hc|done|lia|done|cbn in Hf; lia|].
      exists (y :: L1), t, L2. rewrite E. split_and!; try done.
Qed.

(** Linking [o] after [t]. *)
Lemma ochain_insert n p L1 t L2 o q :
  ochain n p (L1 ++ t :: L2) → NoDup (o :: L1 ++ t :: L2) → 0 < o → n !! t = Some q →
  ochain (<[t := o]> (<[o := q]> n)) p (L1 ++ t :: o :: L2).
Proof.
  intros Hc Hnd Ho Hq. apply NoDup_cons in Hnd as [Hno Hnd].
  revert p Hc; induction L1 as [|x L1 IH]; intros p; cbn [app ochain].
  - intros (-> & Hpos & q' & Hq' & Hc). rewrite Hq in Hq'. injection Hq' as <-. cbn [app] in Hno, Hnd.
    apply not_elem_of_cons in Hno as [Hne Hno]. apply NoDup_cons in Hnd as [Hnt _].
    split; [done|]. split; [done|]. exists o. rewrite lookup_insert_eq. split; [done|]. split; [done|]. split; [done|].
    exists q. rewrite lookup_insert_ne, lookup_insert_eq by done. split; [done|].
    apply (ochain_frame n); [|done]. intros w Hw. rewrite !lookup_insert_ne; [done|congruence|congruence].
  - intros (-> & Hpos & q' & Hq' & Hc). cbn [app] in Hno, Hnd. apply not_elem_of_cons in Hno as [Hne Hno].
    apply NoDup_cons in Hnd as [Hx Hnd]. split; [done|]. split; [done|]. exists q'.
    rewrite !lookup_insert_ne; [|done|intros ->; apply Hx, elem_of_app; right; by left]. split; [done|]. by apply IH.
Qed.

Lemma ochain_dom n p L o : ochain n p L → o ∈ L → is_Some (n !! o).
Proof.
  revert p; induction L as [|x L IH]; intros p; cbn; [by intros _ ?%not_elem_of_nil|].
  intros (-> & _ & q & Hq & Hc) [-> |Hin]%elem_of_cons; [by eexists|by apply (IH q)].
Qed.

Lemma sorted_NoDup L : StronglySorted Z.lt L → NoDup L.
Proof.
  induction 1 as [|x L _ IH Hall]; constructor; [|done]. rewrite Forall_forall in Hall.
  intros Hin. specialize (Hall x Hin). lia.
Qed.

Lemma sorted_insert L1 t L2 o :
  StronglySorted Z.lt (L1 ++ t :: L2) → t < o → (∀ x, x ∈ L2 → o < x) → StronglySorted Z.lt (L1 ++ t :: o :: L2).
Proof.
  intros Hs Ht H2. induction L1 as [|y L1 IH]; cbn [app] in *; apply StronglySorted_inv in Hs as [Hs Hall].
  - constructor; [constructor; [done|by apply Forall_forall]|]. constructor; [done|done].
  - constructor; [by apply IH|]. rewrite Forall_forall in Hall |- *. intros x Hx.
    assert (x = o ∨ x ∈ L1 ++ t :: L2) as [-> |Hx'].
    { apply elem_of_app in Hx as [Hx|Hx]; [right; apply elem_of_app; by left|].
      apply elem_of_cons in Hx as [-> |Hx]; [right; apply elem_of_app; right; by left|].
      apply elem_of_cons in Hx as [-> |Hx]; [by left|right; apply elem_of_app; right; by right]. }
    + specialize (Hall t). assert (y < t); [|lia]. apply Hall, elem_of_app. right. by left.
    + by apply Hall.
Qed.

(** A page holds fewer than 512 objects. *)
Lemma slab_at_length s i a z L : level i z → slab_at s a z L → (length L ≤ 508)%nat.
Proof.
  intros Hi [_ _ H3 H4 _]. pose proof (level_bounds i z Hi) as (_ & Hc & _).
  assert (Hl : (length L ≤ length (objs a z))%nat).
  { apply submseteq_length, NoDup_submseteq; [by apply sorted_NoDup|]. intros x Hx.
    rewrite Forall_forall in H3. by apply is_obj_objs, H3. }
  unfold objs in Hl. rewrite length_fmap, length_seqZ in Hl. lia.
Qed.

(** An object above the first free one of its slab. *)
Lemma free_above s F G fl i z a h L o :
  inv s F G fl → level i z → a ∈ F i → fl a = h :: L → is_obj a z o → o ∉ fl a → h < o →
  ∃ s' L', slab_free o s = Ok s' ∧ inv s' F G (<[a := L']> fl) ∧ L' ≡ₚ o :: fl a ∧ al s' = al s.
Proof.
  intros [Hb Hf Hg] Hi HaF Hfl Ho Hno Hlt. assert (Ha : a ∈ F i ++ G i) by (apply elem_of_app; by left).
  destruct (slab_free_start s F G fl i z a o Hb Hi Ha Ho) as (p & ob & Hsl & Hch & ->).
  destruct (b_slab _ _ _ _ Hb i z a Hi Ha) as [Hsa _]. pose proof (slab_at_length s i a z (fl a) Hi Hsa) as Hlen.
  pose proof (sa_sorted _ _ _ _ Hsa) as Hsort. pose proof (is_obj_range i a z o Hi Ho) as Hr.
  pose proof (sa_page _ _ _ _ Hsa) as Hpage. rewrite Hfl in *. rewrite (proj2 (Z.eqb_neq _ _)) by (cbn; lia).
  apply not_elem_of_cons in Hno as [Hne Hno]. unfold insert_object, get_slab. rewrite Hsl. cbn [of_opt bind object].
  pose proof Hch as (-> & _). rewrite (proj2 (Z.ltb_ge o h)), (proj2 (Z.eqb_neq o 0)) by lia. cbn [bind].
  destruct (find_place_ok place_fuel s o h L) as (L1 & t & L2 & E & -> & Ht & H2); try done;
    [cbn in Hlen; unfold place_fuel; lia|].
  cbn [bind]. unfold get_next. rewrite E in *.
  assert (Hnd : NoDup (o :: L1 ++ t :: L2)).
  { apply NoDup_cons. split; [|by apply sorted_NoDup]. rewrite <-E. by intros [?|?]%elem_of_cons. }
  destruct (ochain_dom (nx s) h (L1 ++ t :: L2) t Hch) as [q Hq]; [apply elem_of_app; right; by left|].
  rewrite Hq. cbn [of_opt bind]. rewrite set_next_ok by by apply (sa_mem _ _ _ _ Hsa). cbn [bind].
  rewrite set_next_ok by (cbn; apply lookup_insert_is_Some'; right; by eexists). cbn [bind].
  rewrite (set_slab_ok a _ _ (mk_slab SLAB_MAGIC p h z (Z.of_nat (length (L1 ++ t :: L2))))) by exact Hsl.
  cbn [nx with_nx free slabs].
  assert (Hl : length (L1 ++ t :: o :: L2) = S (length (L1 ++ t :: L2))) by (rewrite !length_app; cbn; lia).
  assert (Hmid : L1 ++ t :: o :: L2 ≡ₚ o :: L1 ++ t :: L2).
  { rewrite Permutation_middle. f_equiv. constructor. }
  eexists _, (L1 ++ t :: o :: L2). split; [reflexivity|]. split_and!; [|done|done].
  match goal with |- inv ?x _ _ _ => set (s' := x) end.
  assert (Hb' : base s' F G (<[a := L1 ++ t :: o :: L2]> fl)).
  { assert (Hto : is_obj a z t).
    { pose proof (sa_objs _ _ _ _ Hsa) as Hall. rewrite Forall_forall in Hall. apply Hall, elem_of_app. right. by left. }
    apply (base_set_list s s' F G fl i z a); try done; cbn [slabs nx s' with_slabs with_nx].
    - split; [done| | |by apply sorted_insert|].
      + exists p, h. cbn [slabs nx s' with_slabs with_nx]. rewrite lookup_insert_eq. split.
        * unfold s_free. cbn [magic next object size]. rewrite u32_small, Hl by lia. repeat f_equal. lia.
        * apply ochain_insert; [done|done|lia|done].
      + rewrite Hmid. constructor; [done|]. apply (sa_objs _ _ _ _ Hsa).
      + intros x Hx. cbn [nx s' with_slabs with_nx].
        do 2 (apply lookup_insert_is_Some'; right). by apply (sa_mem _ _ _ _ Hsa).
    - intros b Hbne. by rewrite lookup_insert_ne.
    - intros x y Ex. rewrite lookup_insert_eq. intros [= <-]. rewrite Hsl in Ex. by injection Ex as <-.
    - intros x Hx. rewrite !lookup_insert_ne; [done|congruence|congruence]. }
  split; [done| |]; intros j y b Hj Hin; destruct (decide (b = a)) as [->|Hbne].
  - rewrite fn_lookup_insert. by destruct L1.
  - rewrite fn_lookup_insert_ne by done. by apply (Hf j y).
  - pose proof (Hg j y a Hj Hin) as Hx. rewrite Hfl in Hx. by destruct L1.
  - rewrite fn_lookup_insert_ne by done. by apply (Hg j y).
Qed.

(** ** An object below the first free one *)

(** The search then runs to the last free object. *)
Lemma find_place_last fuel s o y L :
  ochain (nx s) y (y :: L) → StronglySorted Z.lt (y :: L) → o < y → (length L < fuel)%nat →
  ∃ t, find_place fuel o y s = Ok t ∧ last (y :: L) = Some t ∧ nx s !! t = Some 0.
Proof.
  revert y L; induction fuel as [|fuel IH]; intros y L Hc Hs Hlt Hf; [lia|]. cbn [find_place]. unfold get_next.
  destruct Hc as (_ & Hpos & q & Hq & Hc). rewrite Hq. cbn [of_opt bind]. rewrite (proj2 (Z.ltb_ge y o)) by lia.
  cbn [andb]. apply StronglySorted_inv in Hs as [Hs Hall]. destruct L as [|x L].
  - cbn in Hc. subst q. exists y. done.
  - pose proof Hc as (-> & Hx & _). rewrite (proj2 (Z.eqb_neq x 0)) by lia. cbn [negb].
    apply Forall_cons in Hall as [Hyx _]. apply (IH x L); [exact Hc|done|lia|cbn in Hf; lia].
Qed.

(** The slab [a] lost its free objects but for [o], which it counts with them. *)
Record corrupt (s : allocator) (i : nat) (a z o : Z) (n : nat) : Prop := {
  co_cache : ∃ c, fixed_cache_list s !! i = Some c ∧ free_slab c = a ∧ 0 < a;
  co_slab : ∃ p, slabs s !! a = Some (mk_slab SLAB_MAGIC p o z (Z.of_nat n));
  co_next : nx s !! o = Some 0 ∧ nx s !! 0 = None;
  co_find : fine_kmem_cache z s = Ok (Some i)
}.

Lemma free_below s F G fl i z a X h L o :
  inv s F G fl → level i z → F i = a :: X → fl a = h :: L → is_obj a z o → o < h →
  ∃ s', slab_free o s = Ok s' ∧ corrupt s' i a z o (S (length (fl a))).
Proof.
  intros [Hb _ _] Hi HF Hfl Ho Hlt. assert (Ha : a ∈ F i ++ G i) by (rewrite HF; by left).
  destruct (slab_free_start s F G fl i z a o Hb Hi Ha Ho) as (p & ob & Hsl & Hch & ->).
  destruct (b_slab _ _ _ _ Hb i z a Hi Ha) as [Hsa _]. pose proof (slab_at_length s i a z (fl a) Hi Hsa) as Hlen.
  pose proof (sa_sorted _ _ _ _ Hsa) as Hsort. pose proof (is_obj_range i a z o Hi Ho) as Hr.
  pose proof (sa_page _ _ _ _ Hsa) as Hpage. rewrite Hfl in *. rewrite (proj2 (Z.eqb_neq _ _)) by (cbn; lia).
  unfold insert_object, get_slab. rewrite Hsl. cbn [of_opt bind object].
  pose proof Hch as (-> & _). rewrite (proj2 (Z.ltb_lt o h)), (proj2 (Z.eqb_neq o 0)) by lia.
  rewrite set_next_ok by by apply (sa_mem _ _ _ _ Hsa). cbn [bind].
  rewrite (set_slab_ok a _ _ (mk_slab SLAB_MAGIC p h z (Z.of_nat (length (h :: L))))) by exact Hsl. cbn [bind].
  set (s1 := with_slabs _ _).
  assert (Hall : ∀ x, x ∈ h :: L → o ≠ x).
  { intros x [-> |Hx]%elem_of_cons; [lia|]. apply StronglySorted_inv in Hsort as [_ Hs]. rewrite Forall_forall in Hs.
    specialize (Hs x Hx). lia. }
  assert (Hch1 : ochain (nx s1) h (h :: L)).
  { apply (ochain_frame (nx s)); [|done]. intros x Hx. cbn. rewrite lookup_insert_ne; [done|]. by apply Hall. }
  destruct (find_place_last place_fuel s1 o h L) as (t & -> & Ht & Hnt); try done; [cbn in Hlen; unfold place_fuel; lia|].
  cbn [bind]. unfold get_next. rewrite Hnt. cbn [of_opt bind].
  rewrite set_next_ok by (cbn; rewrite lookup_insert_eq; by eexists). cbn [bind].
  rewrite set_next_ok by (cbn; apply lookup_insert_is_Some'; right; by eexists). cbn [bind].
  rewrite (set_slab_ok a _ _ (s_object o (mk_slab SLAB_MAGIC p h z (Z.of_nat (length (h :: L)))))) by apply lookup_insert_eq.
  eexists; split; [reflexivity|]. assert (Hto : o ≠ t).
  { apply Hall. apply last_Some in Ht as [l' ->]. apply elem_of_app. right. by left. }
  destruct (b_cache _ _ _ _ Hb i z Hi) as (c & Hc & Hz & Hcf & _). rewrite HF in Hcf. destruct Hcf as (Hfa & Hpos & _).
  split; cbn [slabs nx fixed_cache_list s1 with_slabs with_nx].
  - exists c. done.
  - exists p. rewrite lookup_insert_eq. unfold s_free. cbn [magic next object size free s_object].
    rewrite u32_small by lia. repeat f_equal. cbn [length]. lia.
  - rewrite lookup_insert_ne, lookup_insert_eq by done. split; [done|].
    assert (t ≠ 0).
    { apply last_Some in Ht as [l' E]. assert (Hin : t ∈ h :: L) by (rewrite E; apply elem_of_app; right; by left).
      pose proof (sa_objs _ _ _ _ Hsa) as Hx. rewrite Forall_forall in Hx. specialize (Hx t Hin).
      pose proof (is_obj_range i a z t Hi Hx). lia. }
    rewrite !lookup_insert_ne by lia. apply Hb.
  - by apply (fine_kmem_cache_ok s F G fl).
Qed.

(** Two allocations on such a slab. *)
Lemma corrupt_alloc s i a z o n :
  corrupt s i a z o (S (S (S n))) →
  ∃ s', alloc_from_kmem_cache i s = Ok (o, s') ∧ alloc_from_kmem_cache i s' = Undef ∧ fine_kmem_cache z s' = Ok (Some i).
Proof.
  intros [(c & Hc & Hf & Hpos) (p & Hsl) [Ho H0] Hfi]. unfold alloc_from_kmem_cache at 1. unfold get_cache, get_slab, get_next.
  rewrite Hc. cbn [of_opt bind]. rewrite Hf, (proj2 (Z.eqb_neq a 0)) by lia. cbn [negb]. rewrite Hsl. cbn [of_opt bind free object].
  rewrite (proj2 (Z.ltb_lt _ _)) by lia. rewrite Ho. cbn [of_opt bind].
  rewrite bind_twice, (set_slab_twice a _ _ s _ Hsl). cbn [bind]. eexists; split; [reflexivity|].
  split; [|exact Hfi]. unfold alloc_from_kmem_cache, get_cache, get_slab, get_next. cbn [fixed_cache_list slabs nx with_slabs].
  rewrite Hc. cbn [of_opt bind]. rewrite Hf, (proj2 (Z.eqb_neq a 0)) by lia. cbn [negb].
  rewrite lookup_insert_eq. cbn [of_opt bind free object s_free s_object].
  rewrite (proj2 (Z.ltb_lt _ _)) by lia. by rewrite H0.
Qed.

End SlabOps.
