(* ===== verification/SlabSpec.v ===== *)
(** * Properties of the slab allocator (kernel/slab_common.c)

    Allocation hands out an object nobody holds, release takes it back when it
    lies above the first free object of its slab; a release below it corrupts
    the slab. *)

From Stdlib Require Import Sorted.
From stdpp Require Import functions.
From S2P Require Import Prelude BuddyDefs BuddyInv BuddyOps BuddyInit Pmem PmemSpec SlabDefs Slab SlabOps.
Import Pmem PmemSpec SlabDefs Slab SlabOps.

Module SlabSpec.

(** ** Held objects *)

Lemma held_change s F G fl F' G' i z a L x :
  base s F G fl → level i z → a ∈ F i ++ G i → (∀ j, F' j ++ G' j ≡ₚ F j ++ G j) →
  held F' G' (<[a := L]> fl) x ↔ (is_obj a z x ∧ x ∉ L) ∨ (¬ is_obj a z x ∧ held F G fl x).
Proof.
  intros Hb Hi Ha Hp. split.
  - intros (j & y & b & Hj & Hin & Hx & Hno). rewrite Hp in Hin. destruct (decide (b = a)) as [->|Hne].
    + destruct (base_slab_unique s F G fl i j z y a Hb Hi Hj Ha Hin) as [_ <-].
      rewrite fn_lookup_insert in Hno. by left.
    + rewrite fn_lookup_insert_ne in Hno by done. right. split; [|by exists j, y, b]. intros Hx'. apply Hne.
      apply (is_obj_page j i b a y z x); try done; [apply (b_slab _ _ _ _ Hb j y b Hj Hin)|apply (b_slab _ _ _ _ Hb i z a Hi Ha)].
  - intros [[Hx Hno]|[Hnx (j & y & b & Hj & Hin & Hx & Hno)]].
    + exists i, z, a. rewrite Hp, fn_lookup_insert. done.
    + exists j, y, b. rewrite Hp. split_and!; try done. destruct (decide (b = a)) as [->|Hne].
      * destruct (base_slab_unique s F G fl i j z y a Hb Hi Hj Ha Hin) as [_ <-]. done.
      * by rewrite fn_lookup_insert_ne.
Qed.

Lemma held_here s F G fl i z a x :
  base s F G fl → level i z → a ∈ F i ++ G i → is_obj a z x → held F G fl x ↔ x ∉ fl a.
Proof.
  intros Hb Hi Ha Hx. split.
  - intros (j & y & b & Hj & Hin & Hx' & Hno). assert (b = a) as ->; [|done].
    apply (is_obj_page j i b a y z x); try done; [apply (b_slab _ _ _ _ Hb j y b Hj Hin)|apply (b_slab _ _ _ _ Hb i z a Hi Ha)].
  - intros Hno. by exists i, z, a.
Qed.

(** The first free object of a slab was not held; without it in the list it is. *)
Lemma held_take s F G fl F' G' i z a o L :
  base s F G fl → level i z → a ∈ F i ++ G i → (∀ j, F' j ++ G' j ≡ₚ F j ++ G j) → fl a = o :: L →
  is_obj a z o ∧ ¬ held F G fl o ∧ ∀ x, held F' G' (<[a := L]> fl) x ↔ x = o ∨ held F G fl x.
Proof.
  intros Hb Hi Ha Hp Hfl. destruct (b_slab _ _ _ _ Hb i z a Hi Ha) as [Hsa _].
  assert (Ho : is_obj a z o) by (pose proof (sa_objs _ _ _ _ Hsa) as H; rewrite Hfl in H; by apply Forall_cons in H as [? _]).
  assert (HoL : o ∉ L).
  { pose proof (sorted_NoDup _ (sa_sorted _ _ _ _ Hsa)) as H. rewrite Hfl in H. by apply NoDup_cons in H as [? _]. }
  assert (Hdec : ∀ x, is_obj a z x ∨ ¬ is_obj a z x).
  { intros x. destruct (decide (x ∈ objs a z)) as [H|H]; [left|right]; by rewrite is_obj_objs. }
  split; [done|]. split; [rewrite (held_here s F G fl i z a o), Hfl by done; intros H; by apply H; left|].
  intros x. rewrite (held_change s F G fl F' G' i z a L x Hb Hi Ha Hp). destruct (Hdec x) as [Hx|Hx].
  - rewrite (held_here s F G fl i z a x Hb Hi Ha Hx), Hfl, not_elem_of_cons.
    destruct (decide (x = o)) as [->|]; naive_solver.
  - naive_solver.
Qed.

Lemma held_new s F G fl i z a o L x :
  base s F G fl → level i z → F i = [] → a mod 4096 = 0 → (∀ j y, level j y → a ∉ F j ++ G j) → objs a z = o :: L → 0 < z →
  ¬ held F G fl o ∧ (held (<[i := [a]]> F) G (<[a := L]> fl) x ↔ x = o ∨ held F G fl x).
Proof.
  intros Hb Hi HF Ha Hnew Hobjs Hz.
  assert (Hoa : is_obj a z o) by (apply is_obj_objs; rewrite Hobjs; by left).
  assert (Hex : ∀ w, is_obj a z w → ¬ held F G fl w).
  { intros w Hw (j & y & b & Hj & Hin & Hx & Hno). apply (Hnew j y Hj).
    assert (a = b) as ->; [|done]. apply (is_obj_page i j a b z y w); try done. apply (b_slab _ _ _ _ Hb j y b Hj Hin). }
  split; [by apply Hex|]. split.
  - intros (j & y & b & Hj & Hin & Hx & Hno). destruct (decide (b = a)) as [->|Hne].
    + left. rewrite fn_lookup_insert in Hno. assert (j = i) as ->.
      { destruct (decide (j = i)) as [|Hji]; [done|]. rewrite fn_lookup_insert_ne in Hin by done. by destruct (Hnew j y Hj). }
      assert (y = z) as -> by (unfold level in *; congruence). apply is_obj_objs in Hx. rewrite Hobjs in Hx.
      by apply elem_of_cons in Hx as [?|?].
    + right. rewrite fn_lookup_insert_ne in Hno by done. exists j, y, b. split_and!; try done.
      destruct (decide (j = i)) as [->|Hji]; [|by rewrite fn_lookup_insert_ne in Hin].
      rewrite fn_lookup_insert in Hin. rewrite HF. cbn in Hin. by apply elem_of_cons in Hin as [?|?].
  - intros [-> |(j & y & b & Hj & Hin & Hx & Hno)].
    + exists i, z, a. rewrite !fn_lookup_insert. split_and!; try done; [by left|].
      pose proof (sorted_NoDup _ (objs_sorted a z Hz)) as H. rewrite Hobjs in H. by apply NoDup_cons in H as [? _].
    + exists j, y, b. assert (b ≠ a) as Hba by (intros ->; by destruct (Hnew j y Hj)).
      rewrite (fn_lookup_insert_ne fl) by done. split_and!; try done.
      destruct (decide (j = i)) as [->|Hji]; [|by rewrite fn_lookup_insert_ne].
      rewrite fn_lookup_insert. rewrite HF in Hin. apply elem_of_app. by right.
Qed.

(** ** Allocation *)

(** [slab_alloc] of a small size works on the cache of the next larger size. *)
Lemma slab_alloc_small s F G fl i z sz :
  base s F G fl → level i z → slab_size sz = z → slab_alloc sz s = alloc_from_kmem_cache i s.
Proof.
  intros Hb Hi Hz. pose proof (level_bounds i z Hi). unfold slab_alloc. rewrite Hz, u32_small by lia.
  rewrite (proj2 (Z.eqb_neq z 0)), (proj2 (Z.ltb_ge 1024 z)) by lia. cbn [orb].
  by rewrite (fine_kmem_cache_ok s F G fl i z).
Qed.

(** Each list of full slabs is non-empty or the other list has one slab at
    most. *)
Definition lists_ok (F G : nat → list Z) : Prop :=
  ∀ i z, level i z → (length (F i) ≤ 1)%nat ∨ G i ≠ [].

Lemma lists_ok_step F G i X Y :
  lists_ok F G → ((length X ≤ 1)%nat ∨ Y ≠ []) → lists_ok (<[i := X]> F) (<[i := Y]> G).
Proof.
  intros H Hi j y Hj. destruct (decide (j = i)) as [->|]; [by rewrite !fn_lookup_insert|].
  rewrite !fn_lookup_insert_ne by done. by apply (H j y).
Qed.

(** An allocation from the cache [i]. *)
Lemma alloc_from_spec s F G fl i z n :
  inv s F G fl → lists_ok F G → level i z → pa_avail (al s) (S n) →
  ∃ o a s' F' G' fl', alloc_from_kmem_cache i s = Ok (o, s') ∧ inv s' F' G' fl' ∧ lists_ok F' G' ∧
    a ∈ F' i ++ G' i ∧ is_obj a z o ∧ ¬ held F G fl o ∧ ∀ x, held F' G' fl' x ↔ x = o ∨ held F G fl x.
Proof.
  intros Hinv Hlo Hi Hav. pose proof (i_base _ _ _ _ Hinv) as Hb.
  destruct (F i) as [|a X] eqn:HF.
  - destruct (alloc_new s F G fl i z n Hinv Hi HF Hav) as (a & L & s' & Hop & HL & Hinv' & Hno & _).
    assert (Hnew : ∀ j y, level j y → a ∉ F j ++ G j).
    { intros j y Hj Hin. apply Hno. by apply (b_slab _ _ _ _ Hb j y a). }
    assert (Hain : a ∈ (<[i := [a]]> F) i ++ G i) by (rewrite fn_lookup_insert; by left).
    pose proof (proj1 (b_slab _ _ _ _ (i_base _ _ _ _ Hinv') i z a Hi Hain)) as Hsa.
    pose proof (level_bounds i z Hi) as Hzb.
    assert (Hheld : ∀ x, ¬ held F G fl (obj a z 0) ∧
      (held (<[i := [a]]> F) G (<[a := L]> fl) x ↔ x = obj a z 0 ∨ held F G fl x)).
    { intros x. apply (held_new s F G fl i z a (obj a z 0) L x); try done; [apply Hsa|lia]. }
    exists (obj a z 0), a, s', (<[i := [a]]> F), G, (<[a := L]> fl). split_and!; try done.
    + intros j y Hj. destruct (decide (j = i)) as [->|]; [left; rewrite fn_lookup_insert; cbn; lia|].
      rewrite fn_lookup_insert_ne by done. by apply (Hlo j y).
    + apply is_obj_objs. rewrite HL. by left.
    + apply (Hheld 0).
    + apply Hheld.
  - assert (Ha : a ∈ F i ++ G i) by (rewrite HF; by left).
    destruct (fl a) as [|o L] eqn:Hfl.
    { exfalso. apply (i_free _ _ _ _ Hinv i z a); [done|rewrite HF; by left|done]. }
    destruct L as [|x L].
    + assert (Hcase : X = [] ∨ G i ≠ []).
      { destruct (Hlo i z Hi) as [H|H]; [left|by right]. rewrite HF in H. destruct X; [done|cbn in H; lia]. }
      destruct (alloc_last s F G fl i z a X o Hinv Hi HF Hfl Hcase) as (s' & Hop & Hinv' & _).
      destruct (held_take s F G fl (<[i := X]> F) (<[i := G i ++ [a]]> G) i z a o [] Hb Hi Ha) as (Ho & Hh & Hheld); [|done|].
      { intros j. destruct (decide (j = i)) as [->|]; [|by rewrite !fn_lookup_insert_ne].
        rewrite !fn_lookup_insert, HF, app_assoc. cbn [app]. symmetry. apply Permutation_cons_append. }
      exists o, a, s', (<[i := X]> F), (<[i := G i ++ [a]]> G), (<[a := []]> fl). split_and!; try done.
      * apply lists_ok_step; [done|]. right. by destruct (G i).
      * rewrite !fn_lookup_insert. apply elem_of_app; right. apply elem_of_app; right. by left.
    + destruct (alloc_many s F G fl i z a X o x L Hinv Hi HF Hfl) as (s' & Hop & Hinv' & _).
      destruct (held_take s F G fl F G i z a o (x :: L) Hb Hi Ha) as (Ho & Hh & Hheld); [done|done|].
      exists o, a, s', F, G, (<[a := x :: L]> fl). split_and!; try done.
Qed.

(** C32. [slab_alloc] of at most 1024 bytes, with a page available, returns an
    object of the smallest size class that fits, inside a slab page, which
    no caller held; afterwards exactly that object is held in addition, and the
    caches are in order again.  It is required that a cache whose list of full
    slabs is empty has at most one slab with free objects, which [slab_alloc]
    maintains. *)
Theorem slab_alloc_correct s F G fl sz n :
  inv s F G fl → lists_ok F G → sz ≤ 1024 → pa_avail (al s) (S n) →
  ∃ i z o a s' F' G' fl', level i z ∧ sz ≤ z ∧ (∀ j y, level j y → sz ≤ y → z ≤ y) ∧
    slab_alloc sz s = Ok (o, s') ∧ inv s' F' G' fl' ∧ lists_ok F' G' ∧
    a ∈ F' i ++ G' i ∧ is_obj a z o ∧ a + sizeof_slab ≤ o ∧ o + z ≤ a + PAGE_SIZE ∧
    ¬ held F G fl o ∧ ∀ x, held F' G' fl' x ↔ x = o ∨ held F G fl x.
Proof.
  intros Hinv Hlo Hsz Hav. pose proof (i_base _ _ _ _ Hinv) as Hb.
  destruct (slab_size_level sz Hsz) as (i & z & Hi & Hz & Hle).
  assert (Hmin : ∀ j y, level j y → sz ≤ y → z ≤ y).
  { intros j y Hj Hy. apply level_cases in Hj. rewrite <-Hz. unfold slab_size, slab_size_table. cbn [slab_size_from].
    repeat match goal with |- context [if ?b then _ else _] => destruct b eqn:?E end; lia. }
  destruct (alloc_from_spec s F G fl i z n Hinv Hlo Hi Hav)
    as (o & a & s' & F' & G' & fl' & Hop & Hinv' & Hlo' & Ha & Ho & Hh & Hheld).
  pose proof (is_obj_range i a z o Hi Ho) as Hr. exists i, z, o, a, s', F', G', fl'.
  rewrite (slab_alloc_small s F G fl i z sz Hb Hi Hz). unfold sizeof_slab, PAGE_SIZE. split_and!; try done; lia.
Qed.

(** ** Release *)

(** [slab_free] of a held object succeeds, takes exactly that object out
    of the held ones and leaves the caches in order, when the object lies above
    the first free object of its slab, or when its slab has no free object and
    is the first of the list of full slabs. *)
Theorem slab_free_correct s F G fl i z a o :
  inv s F G fl → level i z → a ∈ F i ++ G i → is_obj a z o → held F G fl o →
  (∀ h, head (fl a) = Some h → h < o) → (fl a = [] → head (G i) = Some a) →
  ∃ s' F' G' fl', slab_free o s = Ok s' ∧ inv s' F' G' fl' ∧ ∀ x, held F' G' fl' x ↔ held F G fl x ∧ x ≠ o.
Proof.
  intros Hinv Hi Ha Ho Hheld Habove Hfull. pose proof (i_base _ _ _ _ Hinv) as Hb.
  rewrite (held_here s F G fl i z a o Hb Hi Ha Ho) in Hheld.
  assert (Hout : ∀ F' G' L, (∀ j, F' j ++ G' j ≡ₚ F j ++ G j) → L ≡ₚ o :: fl a →
    ∀ x, held F' G' (<[a := L]> fl) x ↔ held F G fl x ∧ x ≠ o).
  { intros F' G' L Hp HL x. rewrite (held_change s F G fl F' G' i z a L x Hb Hi Ha Hp), HL, not_elem_of_cons.
    destruct (decide (x ∈ objs a z)) as [Hx|Hx]; rewrite <-is_obj_objs in Hx.
    - rewrite (held_here s F G fl i z a x Hb Hi Ha Hx). naive_solver.
    - naive_solver. }
  destruct (fl a) as [|h L] eqn:Hfl.
  - destruct (G i) as [|a' Y] eqn:HG; [by specialize (Hfull eq_refl)|]. injection (Hfull eq_refl) as ->.
    destruct (free_full s F G fl i z a Y o Hinv Hi HG Ho) as (s' & Hop & Hinv' & _).
    exists s', (<[i := a :: F i]> F), (<[i := Y]> G), (<[a := [o]]> fl). split_and!; [done|done|].
    apply Hout; [|done]. intros j. destruct (decide (j = i)) as [->|]; [|by rewrite !fn_lookup_insert_ne].
    rewrite !fn_lookup_insert, HG. cbn [app]. apply Permutation_middle.
  - assert (HaF : a ∈ F i).
    { apply elem_of_app in Ha as [?|HaG]; [done|]. pose proof (i_full _ _ _ _ Hinv i z a Hi HaG). congruence. }
    destruct (free_above s F G fl i z a h L o Hinv Hi HaF Hfl Ho) as (s' & L' & Hop & Hinv' & HL' & _);
      [by rewrite Hfl|by apply Habove|].
    exists s', F, G, (<[a := L']> fl). split_and!; [done|done|]. apply Hout; [done|]. by rewrite HL', Hfl.
Qed.

(** Releasing an object below the first free one corrupts the slab, since
    the object is linked in front of the list and then again after its last
    element: on a slab with three free objects or more, an allocation followed
    by the release of the same object and two more allocations of that size
    reads through a null pointer. *)
Theorem slab_alloc_free_corrupts s F G fl i z a X o h k L :
  inv s F G fl → level i z → F i = a :: X → fl a = o :: h :: k :: L →
  ∃ s1 s2 s3, slab_alloc z s = Ok (o, s1) ∧ slab_free o s1 = Ok s2 ∧
    slab_alloc z s2 = Ok (o, s3) ∧ slab_alloc z s3 = Undef.
Proof.
  intros Hinv Hi HF Hfl. pose proof (i_base _ _ _ _ Hinv) as Hb. pose proof (level_bounds i z Hi) as Hz.
  assert (Hsz : slab_size z = z).
  { pose proof (level_cases i z Hi) as H. unfold slab_size, slab_size_table. cbn [slab_size_from].
    repeat match goal with |- context [if ?b then _ else _] => destruct b eqn:?E end; lia. }
  assert (Hsmall : ∀ t, fine_kmem_cache z t = Ok (Some i) → slab_alloc z t = alloc_from_kmem_cache i t).
  { intros t Ht. unfold slab_alloc. rewrite Hsz, u32_small by lia.
    rewrite (proj2 (Z.eqb_neq z 0)), (proj2 (Z.ltb_ge 1024 z)) by lia. cbn [orb]. by rewrite Ht. }
  destruct (alloc_many s F G fl i z a X o h (k :: L) Hinv Hi HF Hfl) as (s1 & Hop1 & Hinv1 & _).
  assert (Ha : a ∈ F i ++ G i) by (rewrite HF; by left).
  destruct (b_slab _ _ _ _ Hb i z a Hi Ha) as [Hsa _].
  pose proof (sa_objs _ _ _ _ Hsa) as Ho. pose proof (sa_sorted _ _ _ _ Hsa) as Hs. rewrite Hfl in Ho, Hs.
  apply Forall_cons in Ho as [Ho _]. apply StronglySorted_inv in Hs as [_ Hs]. apply Forall_cons in Hs as [Hoh _].
  destruct (free_below s1 F G (<[a := h :: k :: L]> fl) i z a X h (k :: L) o Hinv1 Hi HF) as (s2 & Hop2 & Hco);
    [by rewrite fn_lookup_insert|done|done|].
  rewrite fn_lookup_insert in Hco. cbn [length] in Hco.
  destruct (corrupt_alloc s2 i a z o (length L) Hco) as (s3 & Hop3 & Hop4 & Hf3).
  exists s1, s2, s3. rewrite (slab_alloc_small s F G fl i z z Hb Hi Hsz).
  rewrite (Hsmall s2 (co_find _ _ _ _ _ _ Hco)), (Hsmall s3 Hf3). done.
Qed.

(** ** Initialisation *)

Lemma pa_inv_mem (b : Buddy.buddy) m : pa_inv b → pa_inv (Buddy.with_mem b m).
Proof.
  intros [Hw Hlk]. split; [|done]. apply (BuddyOps.wfx_agrees_lists b); [done| |done].
  apply BuddyOps.agrees_mem, Hw.
Qed.

(** The boot page serves the small structures. *)
Lemma simple_alloc_ok s sz n :
  pa_inv (al s) → pa_avail (al s) (S n) → 0 ≤ sz → 0 ≤ simple_alloc_count s ≤ 4096 → sz ≤ 4096 →
  (simple_alloc_count s + sz ≤ 4096 → 0 < slab_boot_page s) →
  ∃ p s', simple_alloc sz s = Ok (p, s') ∧ pa_inv (al s') ∧
    pa_avail (al s') (if decide (simple_alloc_count s + sz ≤ 4096) then S n else n) ∧
    (∀ b, pa_owned (al s) b → pa_owned (al s') b) ∧ slabs s' = slabs s ∧ nx s' = nx s ∧
    fixed_cache_list s' = fixed_cache_list s ∧ 0 < slab_boot_page s' ∧
    simple_alloc_count s' = (if decide (simple_alloc_count s + sz ≤ 4096) then simple_alloc_count s else 0) + sz.
Proof.
  intros Hi Hav Hsz Hc Hsz' Hb. unfold simple_alloc, PAGE_SIZE. rewrite u64_small by lia. case_decide as Hd.
  - rewrite (proj2 (Z.ltb_ge _ _)) by lia. cbn [bind]. specialize (Hb Hd). rewrite (proj2 (Z.eqb_neq _ 0)) by lia.
    eexists _, _. split; [reflexivity|].
    cbn [al slabs nx fixed_cache_list slab_boot_page simple_alloc_count with_al with_boot]. split_and!; try done; [by apply pa_inv_mem|].
    unfold i32. rewrite Z.mod_small; lia.
  - rewrite (proj2 (Z.ltb_lt _ _)) by lia.
    destruct (pa_alloc_ok (al s) n Hi Hav) as (a & b & Hop & Hi' & Hav' & Hab & _ & _ & Hown).
    change (Buddy.pmem_alloc_pages 1 (al s) = Ok (a, b)) in Hop. rewrite Hop. cbn [bind].
    cbn [slab_boot_page with_boot]. rewrite (proj2 (Z.eqb_neq a 0)) by lia.
    eexists _, _. split; [reflexivity|].
    cbn [al slabs nx fixed_cache_list slab_boot_page simple_alloc_count with_al with_boot]. split_and!; try done; try lia; [by apply pa_inv_mem| |].
    + intros c Hc'. apply Hown. by right.
    + unfold i32. rewrite Z.mod_small; lia.
Qed.

(** The caches below [k] are ready. *)
Record ready (s : allocator) (k : nat) : Prop := {
  r_pa : pa_inv (al s);
  r_null : nx s !! 0 = None;
  r_len : length (fixed_cache_list s) = k;
  r_boot : 0 < slab_boot_page s ∧ simple_alloc_count s = 152 + 24 * Z.of_nat k;
  r_cache : ∀ i z, level i z → (i < k)%nat → ∃ a p, fixed_cache_list s !! i = Some (mk_cache a 0 z) ∧
    slabs s !! a = Some (mk_slab SLAB_MAGIC 0 p z (object_count z)) ∧
    slab_at s a z (objs a z) ∧ pa_owned (al s) a
}.

Lemma init_cache_ok s k z n :
  ready s k → (k < 8)%nat → level k z → pa_avail (al s) (S (S n)) →
  ∃ s', init_cache z s = Ok s' ∧ ready s' (S k) ∧ pa_avail (al s') (S n).
Proof.
  intros [R1 R2 R3 [R4 R5] R6] Hk8 Hk Hav. unfold init_cache, sizeof_kmem_cache.
  destruct (simple_alloc_ok s 24 (S n)) as (p & s1 & -> & A1 & A2 & A3 & A4 & A5 & A6 & A7 & A8); [done|done|lia|lia|lia|done|].
  rewrite R5 in A2, A8. rewrite decide_True in A2 by lia. rewrite decide_True in A8 by lia. cbn [bind].
  destruct (create_slab_ok s1 k z (S n) A1 A2 Hk) as (a & s2 & -> & Hsa & Eca & _ & Ebp & Ebc & Esl & Enx & Hpa & Hav' & Hno & Hown).
  cbn [bind]. eexists; split; [reflexivity|]. split; [|done]. split; cbn [al nx slabs fixed_cache_list slab_boot_page
    simple_alloc_count with_caches]; [done| | | |].
  - rewrite Enx; [by rewrite A5|]. by apply (not_obj_null k), Hsa.
  - rewrite length_app, Eca, A6, R3. cbn. lia.
  - rewrite Ebp, Ebc, A8. lia.
  - intros i y Hi Hlt. destruct (decide (i = k)) as [->|Hne].
    + assert (y = z) as -> by (unfold level in *; congruence). exists a, (obj a z 0).
      rewrite Eca, A6, lookup_app_r, R3, Nat.sub_diag, Esl, lookup_insert_eq by lia. split_and!; try done; [|apply Hown; by left].
      apply (slab_at_frame s2); [done| |done]. intros sl E. exists (next sl). cbn [slabs with_caches]. rewrite E. by destruct sl.
    + destruct (R6 i y Hi) as (b & q & Hc & Hsl & Hsb & Ho); [lia|]. exists b, q.
      assert (b ≠ a) as Hba by (intros ->; apply Hno, A3, Ho).
      rewrite Eca, A6, lookup_app_l by (apply lookup_lt_Some in Hc; done).
      rewrite Esl, lookup_insert_ne, A4 by done. split_and!; try done; [|apply Hown; right; by apply A3].
      apply (slab_at_frame s); [done| |]; cbn [slabs nx with_caches].
      * intros sl E. exists (next sl). rewrite Esl, lookup_insert_ne, A4, E by done. by destruct sl.
      * intros o Ho'. rewrite Enx, A5; [done|]. intros Ho''. apply Hba.
        apply (is_obj_page i k b a y z o); try done; [apply Hsb|apply Hsa].
Qed.

Lemma init_caches_ok l s k n :
  drop k slab_size_table = l → ready s k → (k + length l = 8)%nat → pa_avail (al s) (S (length l + n)) →
  ∃ s', init_caches l s = Ok s' ∧ ready s' 8 ∧ pa_avail (al s') (S n).
Proof.
  revert s k; induction l as [|z l IH]; intros s k Hd Hr Hk Hav; cbn [init_caches length] in *.
  - exists s. replace k with 8%nat in Hr by lia. done.
  - assert (Hl : level k z) by (unfold level; rewrite <-(Nat.add_0_r k), <-lookup_drop, Hd; done).
    destruct (init_cache_ok s k z (length l + n) Hr) as (s1 & -> & Hr1 & Hav1); [lia|done|done|]. cbn [bind].
    apply (IH s1 (S k)); [|done|lia|done]. rewrite <-Nat.add_1_r, <-drop_drop, Hd. done.
Qed.

(** The free list of every slab is full after the initialisation. *)
Definition all_objs (s : allocator) (a : Z) : list Z :=
  match slabs s !! a with Some sl => objs a (size sl) | None => [] end.
Definition first_slab (s : allocator) (i : nat) : list Z :=
  match fixed_cache_list s !! i with Some c => [free_slab c] | None => [] end.

Lemma ready_inv s : ready s 8 → inv s (first_slab s) (λ _, []) (all_objs s).
Proof.
  intros [R1 R2 R3 R4 R6].
  assert (Hlev : ∀ i z, level i z → ∃ a p, fixed_cache_list s !! i = Some (mk_cache a 0 z) ∧ first_slab s i = [a] ∧
    all_objs s a = objs a z ∧ slabs s !! a = Some (mk_slab SLAB_MAGIC 0 p z (object_count z)) ∧
    slab_at s a z (objs a z) ∧ pa_owned (al s) a).
  { intros i z Hi. pose proof (level_bounds i z Hi). destruct (R6 i z Hi) as (a & p & Hc & Hsl & Hsa & Ho); [lia|].
    exists a, p. unfold first_slab, all_objs. rewrite Hc, Hsl. done. }
  split; [split| |]; try done.
  - intros i z Hi. destruct (Hlev i z Hi) as (a & p & Hc & HF & _ & Hsl & Hsa & _). eexists; split; [exact Hc|].
    rewrite HF. cbn. split_and!; try done; [apply Hsa|]. by eexists.
  - intros i z Hi. destruct (Hlev i z Hi) as (a & p & _ & -> & _). rewrite app_nil_r. apply NoDup_singleton.
  - intros i z a Hi. destruct (Hlev i z Hi) as (b & p & _ & -> & Hfl & _ & Hsa & Ho). rewrite app_nil_r.
    intros ->%list_elem_of_singleton. by rewrite Hfl.
  - intros i z a Hi. destruct (Hlev i z Hi) as (b & p & _ & -> & Hfl & _). intros ->%list_elem_of_singleton.
    rewrite Hfl. by destruct (objs_cons i z b Hi) as (L & -> & _).
  - intros i z a _ Hin. by apply not_elem_of_nil in Hin.
Qed.

Lemma slab_init_ok s n :
  pa_inv (al s) → pa_avail (al s) (10 + n) → nx s !! 0 = None → simple_alloc_count s = 4096 →
  ∃ s', slab_init s = Ok s' ∧ inv s' (first_slab s') (λ _, []) (all_objs s') ∧ pa_avail (al s') (S n).
Proof.
  intros Hi Hav H0 Hc. unfold slab_init, sizeof_slab_allocator.
  destruct (simple_alloc_ok s 152 (9 + n)) as (p & s1 & -> & A1 & A2 & A3 & A4 & A5 & A6 & A7 & A8); [done|done|lia|lia|lia|lia|].
  rewrite Hc in A2, A8. rewrite decide_False in A2 by lia. rewrite decide_False in A8 by lia. cbn [bind].
  destruct (init_caches_ok slab_size_table (with_caches (with_state s1 DOWN) []) 0 n) as (s2 & -> & Hr & Hav2); [done| |done|done|].
  { split; try done; [by rewrite <-H0, <-A5|]. intros. lia. }
  cbn [bind]. eexists; split; [reflexivity|]. split; [|done]. apply ready_inv. destruct Hr as [R1 R2 R3 R4 R5]. split; try done.
  intros i z Hl Hlt. destruct (R5 i z Hl Hlt) as (a & q & H1 & H2 & H3 & H4). exists a, q. split_and!; try done.
  apply (slab_at_frame s2); [done| |done]. intros sl E. exists (next sl). cbn [slabs with_state]. rewrite E. by destruct sl.
Qed.

(** ** Examples: slabs on an allocator of 32 pages *)

Definition medium_state : Buddy.buddy := Eval vm_compute in get empty_state (Buddy.buddy_init 0x80200000 0x80220000 empty_state).

Lemma medium_pa : pa_inv medium_state ∧ pa_avail medium_state 16.
Proof.
  split.
  - assert (Hr : BuddyInit.BuddyInit.range_ok 0x80200000 0x80220000 32) by (unfold BuddyInit.BuddyInit.range_ok; split_and!; vm_compute; congruence).
    destruct (BuddyInit.BuddyInit.buddy_init_spec _ _ _ empty_state Hr) as (s & Hop & Hw & Hlk & _).
    assert (E : Buddy.buddy_init 0x80200000 0x80220000 empty_state = Ok medium_state) by (vm_compute; reflexivity).
    rewrite Hop in E. injection E as ->. split; assumption.
  - exists (seqZ 16 16). split; [apply NoDup_seqZ|]. split; [rewrite length_seqZ; lia|].
    intros p Hp. apply free_page_b_spec. revert p Hp. apply Forall_forall. vm_compute. repeat constructor.
Qed.

Definition bare_slab : allocator := mk_allocator medium_state ∅ ∅ [] DOWN 0 4096.
Definition slab0 : allocator := get bare_slab (slab_init bare_slab).

Lemma slab0_inv :
  inv slab0 (first_slab slab0) (λ _, []) (all_objs slab0) ∧ pa_avail (al slab0) 7.
Proof.
  destruct medium_pa as [Hi Hav].
  destruct (slab_init_ok bare_slab 6 Hi Hav) as (s & Hop & Hinv & Hav'); [reflexivity|reflexivity|].
  assert (E : slab0 = s) by (unfold slab0; rewrite Hop; reflexivity). rewrite E. split; assumption.
Qed.

Lemma slab0_lists : lists_ok (first_slab slab0) (λ _, []).
Proof. intros i z _. left. unfold first_slab. destruct (fixed_cache_list slab0 !! i); cbn; lia. Qed.

(** The slab of the cache for 1024 bytes has three free objects. *)
Lemma slab0_big :
  ∃ a o1 o2 o3, first_slab slab0 7 = [a] ∧ all_objs slab0 a = [o1; o2; o3] ∧ is_obj a 1024 o2.
Proof.
  destruct slab0_inv as [[Hb _ _] _]. assert (Hl : level 7 1024) by reflexivity.
  destruct (b_cache _ _ _ _ Hb 7%nat 1024 Hl) as (c & Hc & _ & Hch & _).
  assert (E : first_slab slab0 7 = [free_slab c]) by (unfold first_slab; rewrite Hc; reflexivity).
  exists (free_slab c), (obj (free_slab c) 1024 0), (obj (free_slab c) 1024 1), (obj (free_slab c) 1024 2).
  split; [exact E|]. split; [|exists 1; split; [vm_compute; split; congruence|reflexivity]].
  destruct (b_slab _ _ _ _ Hb 7%nat 1024 (free_slab c) Hl) as [Hsa _]; [rewrite E; left|].
  destruct (sa_hdr _ _ _ _ Hsa) as (p & ob & Hsl & _). unfold all_objs. rewrite Hsl. reflexivity.
Qed.

Lemma slab_alloc_witness :
  ∃ o s', slab_alloc 100 slab0 = Ok (o, s') ∧ ¬ held (first_slab slab0) (λ _, []) (all_objs slab0) o.
Proof.
  destruct slab0_inv as [Hinv Hav].
  destruct (slab_alloc_correct slab0 _ _ _ 100 6 Hinv slab0_lists) as (i & z & o & a & s' & F' & G' & fl' & _ & _ & _ & Hop & _ & _ & _ & _ & _ & _ & Hno & _).
  - lia.
  - exact Hav.
  - exists o, s'. split; [exact Hop|exact Hno].
Defined.

(** Three allocations fill the slab of the cache for 1024 bytes. *)
Lemma slab_filled :
  ∃ s F G fl a o, inv s F G fl ∧ G 7%nat = [a] ∧ F 7%nat = [] ∧ fl a = [] ∧ is_obj a 1024 o.
Proof.
  destruct slab0_inv as [Hinv _]. destruct slab0_big as (a & o1 & o2 & o3 & HF & Hfl & Ho).
  assert (Hl : level 7 1024) by reflexivity.
  destruct (alloc_many slab0 _ _ _ 7 1024 a [] o1 o2 [o3] Hinv Hl HF Hfl) as (s1 & _ & Hinv1 & _).
  assert (Hfl1 : (<[a := [o2; o3]]> (all_objs slab0)) a = [o2; o3]) by apply fn_lookup_insert.
  destruct (alloc_many s1 _ _ _ 7 1024 a [] o2 o3 [] Hinv1 Hl HF Hfl1) as (s2 & _ & Hinv2 & _).
  destruct (alloc_last s2 _ _ _ 7 1024 a [] o3 Hinv2 Hl HF (fn_lookup_insert _ _ _)) as (s3 & _ & Hinv3 & _); [left; reflexivity|].
  eexists s3, _, _, _, a, o2. split; [exact Hinv3|]. rewrite !fn_lookup_insert. auto.
Qed.

Lemma slab_free_witness :
  ∃ s o s', slab_free o s = Ok s' ∧ ∃ F G fl, held F G fl o.
Proof.
  destruct slab_filled as (s & F & G & fl & a & o & Hinv & HG & HF & Hfl & Ho). exists s, o.
  assert (Hl : level 7 1024) by reflexivity.
  assert (Hin : a ∈ F 7%nat ++ G 7%nat) by (rewrite HF, HG; left).
  assert (Hh : held F G fl o).
  { exists 7%nat, 1024, a. split; [exact Hl|]. split; [exact Hin|]. split; [exact Ho|]. rewrite Hfl. apply not_elem_of_nil. }
  destruct (slab_free_correct s F G fl 7 1024 a o Hinv Hl Hin Ho Hh) as (s' & _ & _ & _ & Hop & _).
  - rewrite Hfl. discriminate.
  - rewrite HG. reflexivity.
  - exists s'. split; [exact Hop|]. exists F, G, fl. exact Hh.
Defined.

Lemma slab_corrupts_witness :
  ∃ o s1 s2 s3, slab_alloc 1024 slab0 = Ok (o, s1) ∧ slab_free o s1 = Ok s2 ∧
    slab_alloc 1024 s2 = Ok (o, s3) ∧ slab_alloc 1024 s3 = Undef.
Proof.
  destruct slab0_inv as [Hinv _]. destruct slab0_big as (a & o1 & o2 & o3 & HF & Hfl & _). exists o1.
  exact (slab_alloc_free_corrupts slab0 _ _ _ 7 1024 a [] o1 o2 o3 [] Hinv eq_refl HF Hfl).
Defined.

End SlabSpec.
