(* ===== verification/LockDefs.v ===== *)
(** * Locks (kernel/spinlock.c, kernel/sleeplock.c), definitions

    Harts interleave, so [acquire] and [release] are cut into the accesses to
    shared memory they are made of; [phase] says between which of them a hart
    is.  [sie] is the interrupt-enable bit of the hart ([intr_get], [intr_on],
    [intr_off]).  The body of a sleep-lock operation runs under its spin lock
    and is one step. *)

From stdpp Require Import functions.
From S2P Require Import Prelude.

Module LockDefs.

(** ** Spin locks *)

Record cpu := mk_cpu { noff : Z; intena : bool; sie : bool }.
(** [lk->cpu] is the hart that recorded itself, [None] for 0. *)
Record spinlock := mk_lock { locked : Z; lk_cpu : option Z }.

Inductive phase :=
| Idle
| Spinning (l : Z)   (* in the loop of acquire *)
| Taken (l : Z)      (* the swap succeeded, [lk->cpu] is not set yet *)
| Clearing (l : Z)   (* release: [lk->cpu] is 0, the lock word is still set *)
| Leaving (l : Z).   (* release: before pop_off *)

Record machine := mk_machine { cpus : Z → cpu; locks : Z → spinlock; at_ : Z → phase }.

Definition initlock : spinlock := mk_lock 0 None.
Definition cpuinit : cpu := mk_cpu 0 false false.

Definition push_off (c : cpu) : cpu :=
  let old := sie c in
  mk_cpu (noff c + 1) (if noff c =? 0 then old else intena c) false.

Definition pop_off (c : cpu) : res cpu :=
  if sie c then Panic "pop_off - interruptible"
  else if noff c <? 1 then Panic "pop_off"
  else
    let n := noff c - 1 in
    Ok (mk_cpu n (intena c) ((n =? 0) && intena c)).

Definition holding (h l : Z) (m : machine) : bool :=
  negb (locked (locks m l) =? 0) && bool_decide (lk_cpu (locks m l) = Some h).

(** [acquire]: up to the loop, one iteration of it, and the record of the
    owner. *)
Definition acquire_enter (h l : Z) (m : machine) : res machine :=
  let m := mk_machine (<[h := push_off (cpus m h)]> (cpus m)) (locks m) (at_ m) in
  if holding h l m then Panic "double acquire"
  else Ok (mk_machine (cpus m) (locks m) (<[h := Spinning l]> (at_ m))).

Definition acquire_try (h l : Z) (m : machine) : machine :=
  let old := locked (locks m l) in
  let ls := <[l := mk_lock 1 (lk_cpu (locks m l))]> (locks m) in
  mk_machine (cpus m) ls (if old =? 0 then <[h := Taken l]> (at_ m) else at_ m).

Definition acquire_record (h l : Z) (m : machine) : machine :=
  mk_machine (cpus m) (<[l := mk_lock (locked (locks m l)) (Some h)]> (locks m)) (<[h := Idle]> (at_ m)).

(** [release]: the test and [lk->cpu = 0], the store to the lock word, and
    [pop_off]. *)
Definition release_enter (h l : Z) (m : machine) : res machine :=
  if negb (holding h l m) then Panic "release"
  else Ok (mk_machine (cpus m) (<[l := mk_lock (locked (locks m l)) None]> (locks m)) (<[h := Clearing l]> (at_ m))).

Definition release_store (h l : Z) (m : machine) : machine :=
  mk_machine (cpus m) (<[l := mk_lock 0 (lk_cpu (locks m l))]> (locks m)) (<[h := Leaving l]> (at_ m)).

Definition release_exit (h l : Z) (m : machine) : res machine :=
  let* c := pop_off (cpus m h) in
  Ok (mk_machine (<[h := c]> (cpus m)) (locks m) (<[h := Idle]> (at_ m))).

(** Without interference: [acquire] spins for ever on a lock that is taken. *)
Definition acquire (h l : Z) (m : machine) : res machine :=
  let* m := acquire_enter h l m in
  if locked (locks m l) =? 0 then Ok (acquire_record h l (acquire_try h l m)) else NoFuel.
Definition release (h l : Z) (m : machine) : res machine :=
  let* m := release_enter h l m in release_exit h l (release_store h l m).

(** Interleaved execution; code outside of critical sections switches
    interrupts on and off. *)
Inductive step : machine → machine → Prop :=
| step_enter h l m m' : at_ m h = Idle → acquire_enter h l m = Ok m' → step m m'
| step_try h l m : at_ m h = Spinning l → step m (acquire_try h l m)
| step_record h l m : at_ m h = Taken l → step m (acquire_record h l m)
| step_release h l m m' : at_ m h = Idle → release_enter h l m = Ok m' → step m m'
| step_store h l m : at_ m h = Clearing l → step m (release_store h l m)
| step_exit h l m m' : at_ m h = Leaving l → release_exit h l m = Ok m' → step m m'
| step_intr h b m : at_ m h = Idle → noff (cpus m h) = 0 →
    step m (mk_machine (<[h := mk_cpu 0 (intena (cpus m h)) b]> (cpus m)) (locks m) (at_ m)).

(** ** Sleep locks *)

Inductive pstate := USED | SLEEPING | RUNNABLE | RUNNING | ZOMBIE.
Record proc := mk_proc { p_state : pstate; p_chan : Z }.
#[export] Instance pstate_eq_dec : EqDecision pstate.
Proof. solve_decision. Defined.

Record sleeplock := mk_sleep { sl_locked : Z; sl_pid : Z }.
(** Where a process is with respect to the lock. *)
Inductive place := Outside | Waiting | Holding.
Record system := mk_system { pool : Z → proc; slk : sleeplock; where_ : Z → place }.

Section sleep.
(** The address of the lock, its wait channel. *)
Variable lk : Z.

Definition initsleeplock : sleeplock := mk_sleep 0 0.

(** [wakeup(chan)] called by the process [self]. *)
Definition wakeup (chan self : Z) (pl : Z → proc) : Z → proc :=
  λ q, if negb (q =? self) && bool_decide (p_state (pl q) = SLEEPING) && (p_chan (pl q) =? chan)
       then mk_proc RUNNABLE (p_chan (pl q)) else pl q.

(** [sleep_on_chan], up to the switch to the scheduler. *)
Definition sleep_on_chan (chan self : Z) (pl : Z → proc) : Z → proc := <[self := mk_proc SLEEPING chan]> pl.

(** [acquiresleep] of the process [self]: one test of the loop condition.
    When it comes back from sleep it clears [p->chan] first. *)
Definition acquiresleep (self : Z) (s : system) : system :=
  let pl := match where_ s self with
            | Waiting => <[self := mk_proc (p_state (pool s self)) 0]> (pool s)
            | _ => pool s
            end in
  if negb (sl_locked (slk s) =? 0)
  then mk_system (sleep_on_chan lk self pl) (slk s) (<[self := Waiting]> (where_ s))
  else mk_system pl (mk_sleep 1 self) (<[self := Holding]> (where_ s)).

Definition releasesleep (self : Z) (s : system) : system :=
  mk_system (wakeup lk self (pool s)) (mk_sleep 0 0) (<[self := Outside]> (where_ s)).

Definition holdingsleep (self : Z) (s : system) : bool :=
  negb (sl_locked (slk s) =? 0) && (sl_pid (slk s) =? self).

Definition set_state (q : Z) (x : pstate) (s : system) : system :=
  mk_system (<[q := mk_proc x (p_chan (pool s q))]> (pool s)) (slk s) (where_ s).

(** Processes that take the lock and, holding it, release it; the scheduler
    runs and preempts them. *)
Inductive sstep : system → system → Prop :=
| ss_acquire p s : p ≠ 0 → p_state (pool s p) = RUNNING → where_ s p ≠ Holding → sstep s (acquiresleep p s)
| ss_release p s : p_state (pool s p) = RUNNING → where_ s p = Holding → sstep s (releasesleep p s)
| ss_run p s : p_state (pool s p) = RUNNABLE → sstep s (set_state p RUNNING s)
| ss_yield p s : p_state (pool s p) = RUNNING → sstep s (set_state p RUNNABLE s).
End sleep.

End LockDefs.
