(* ===== verification/LockSpec.v ===== *)
(** * Properties of spin locks and sleep locks

    Mutual exclusion, interrupt state and absence of lost locks under any
    interleaving of harts; mutual exclusion and absence of lost wake-ups for
    sleep locks. *)

From stdpp Require Import functions relations.
From S2P Require Import Prelude LockDefs.
Import LockDefs.

Module LockSpec.

(** ** Spin locks *)

(** The hart is between the swap and the record of the owner, or between the
    reset of the owner and the store to the lock word. *)
Definition transit (m : machine) (h l : Z) : Prop := at_ m h = Taken l ∨ at_ m h = Clearing l.

(** The hart has the lock. *)
Definition has_lock (m : machine) (h l : Z) : Prop := lk_cpu (locks m l) = Some h ∨ transit m h l.

Definition busy (p : phase) : Z := match p with Idle => 0 | _ => 1 end.

(** The locks the hart has recorded itself in, and their number. *)
Definition counted (m : machine) (h : Z) : Prop :=
  ∃ Ls, NoDup Ls ∧ (∀ l, l ∈ Ls ↔ lk_cpu (locks m l) = Some h) ∧
    noff (cpus m h) = Z.of_nat (length Ls) + busy (at_ m h).

Record linv (m : machine) : Prop := {
  li_word : ∀ l, locked (locks m l) = 0 ∨ locked (locks m l) = 1;
  li_owner : ∀ l h, lk_cpu (locks m l) = Some h → locked (locks m l) = 1;
  li_transit : ∀ h l, transit m h l → locked (locks m l) = 1 ∧ lk_cpu (locks m l) = None;
  li_one : ∀ h h' l, transit m h l → transit m h' l → h = h';
  li_taken : ∀ l, locked (locks m l) = 1 → ∃ h, has_lock m h l;
  li_noff : ∀ h, counted m h;
  li_intr : ∀ h, 0 < noff (cpus m h) → sie (cpus m h) = false
}.

(** Harts and locks that a step does not concern keep their count. *)
Lemma counted_other m m' h :
  counted m h → noff (cpus m' h) = noff (cpus m h) → at_ m' h = at_ m h →
  (∀ l, lk_cpu (locks m' l) = Some h ↔ lk_cpu (locks m l) = Some h) → counted m' h.
Proof. intros (Ls & H1 & H2 & H3) Hn Ha Hl. exists Ls. split_and!; [done| |congruence]. intros l. by rewrite H2, Hl. Qed.

Lemma linv_enter h l m m' : linv m → at_ m h = Idle → acquire_enter h l m = Ok m' → linv m'.
Proof.
  intros [L1 L2 L3 L4 L5 L6 L7] Hat. unfold acquire_enter. case_match; [done|]. intros [= <-].
  assert (Hp : ∀ h' l', transit (mk_machine (cpus m) (locks m) (<[h := Spinning l]> (at_ m))) h' l' ↔ transit m h' l').
  { intros h' l'. unfold transit. cbn. destruct (decide (h' = h)) as [->|];
      [rewrite fn_lookup_insert, Hat|rewrite fn_lookup_insert_ne by done]; naive_solver. }
  split; cbn [cpus locks at_]; try done.
  - intros h' l' Ht. apply (L3 h'), (Hp h' l'), Ht.
  - intros h1 h2 l' H1 H2. apply (L4 h1 h2 l'); by apply Hp.
  - intros l' Hl. destruct (L5 l' Hl) as (h' & [Ho|Ht]); exists h'; [by left|right]. by apply Hp.
  - intros h'. destruct (decide (h' = h)) as [->|Hne].
    + destruct (L6 h) as (Ls & H1 & H2 & H3). exists Ls. rewrite Hat in H3. cbn in *.
      rewrite !fn_lookup_insert. cbn. split_and!; [done|done|lia].
    + apply (counted_other m); cbn; try done; by rewrite fn_lookup_insert_ne.
  - intros h'. destruct (decide (h' = h)) as [->|Hne]; [by rewrite fn_lookup_insert|].
    rewrite fn_lookup_insert_ne by done. apply L7.
Qed.

Lemma linv_try h l m : linv m → at_ m h = Spinning l → linv (acquire_try h l m).
Proof.
  intros [L1 L2 L3 L4 L5 L6 L7] Hat. unfold acquire_try. destruct (Z.eqb_spec (locked (locks m l)) 0) as [E|E].
  - assert (Hnone : lk_cpu (locks m l) = None).
    { destruct (lk_cpu (locks m l)) as [h'|] eqn:Eh; [|done]. specialize (L2 l h' Eh). lia. }
    assert (Hno : ∀ h', ¬ transit m h' l) by (intros h' Ht; destruct (L3 h' l Ht); lia).
    assert (Hp : ∀ h' l', transit (mk_machine (cpus m) (locks m) (<[h := Taken l]> (at_ m))) h' l' ↔
      transit m h' l' ∨ (h' = h ∧ l' = l)).
    { intros h' l'. unfold transit. cbn. destruct (decide (h' = h)) as [->|];
        [rewrite fn_lookup_insert, Hat|rewrite fn_lookup_insert_ne by done]; naive_solver. }
    split; cbn [cpus locks at_].
    + intros l'. destruct (decide (l' = l)) as [->|]; [rewrite fn_lookup_insert; by right|by rewrite fn_lookup_insert_ne].
    + intros l' h'. destruct (decide (l' = l)) as [->|]; [by rewrite fn_lookup_insert|].
      rewrite fn_lookup_insert_ne by done. apply L2.
    + intros h' l' Ht. apply Hp in Ht. destruct (decide (l' = l)) as [->|]; [by rewrite fn_lookup_insert|].
      rewrite fn_lookup_insert_ne by done. destruct Ht as [Ht|[_ ?]]; [by apply (L3 h')|done].
    + intros h1 h2 l' [H1|[-> ->]]%Hp [H2|[-> Hl2]]%Hp; [by apply (L4 h1 h2 l')| | |done].
      * subst. by destruct (Hno h1).
      * by destruct (Hno h2).
    + intros l'. destruct (decide (l' = l)) as [->|Hne].
      * intros _. exists h. right. apply Hp. by right.
      * rewrite fn_lookup_insert_ne by done. intros Hl. destruct (L5 l' Hl) as (h' & [Ho|Ht]); exists h'.
        -- left. cbn. by rewrite fn_lookup_insert_ne.
        -- right. apply Hp. by left.
    + intros h'. destruct (decide (h' = h)) as [->|Hne].
      * destruct (L6 h) as (Ls & H1 & H2 & H3). exists Ls. rewrite Hat in H3. cbn. rewrite fn_lookup_insert.
        split_and!; [done| |done]. intros l'. rewrite H2. destruct (decide (l' = l)) as [->|];
          [by rewrite fn_lookup_insert|by rewrite fn_lookup_insert_ne].
      * apply (counted_other m); cbn; try done; [by rewrite fn_lookup_insert_ne|].
        intros l'. destruct (decide (l' = l)) as [->|]; [by rewrite fn_lookup_insert|by rewrite fn_lookup_insert_ne].
    + done.
  - assert (El : ∀ l', <[l := mk_lock 1 (lk_cpu (locks m l))]> (locks m) l' = locks m l').
    { intros l'. destruct (decide (l' = l)) as [->|]; [|by rewrite fn_lookup_insert_ne]. rewrite fn_lookup_insert.
      destruct (L1 l) as [?|E1]; [done|]. destruct (locks m l); cbn in *. by subst. }
    split; cbn [cpus locks at_]; try done.
    + intros l'. rewrite El. apply L1.
    + intros l' h'. rewrite El. apply L2.
    + intros h' l'. rewrite El. apply (L3 h').
    + intros l'. rewrite El. intros Hl. destruct (L5 l' Hl) as (h' & [Ho|Ht]); exists h'; [left; cbn; by rewrite El|by right].
    + intros h'. apply (counted_other m); cbn; try done. intros l'. by rewrite El.
Qed.

Lemma linv_record h l m : linv m → at_ m h = Taken l → linv (acquire_record h l m).
Proof.
  intros [L1 L2 L3 L4 L5 L6 L7] Hat. unfold acquire_record.
  destruct (L3 h l) as [Hlk Hnone]; [by left|].
  assert (Hp : ∀ h' l', transit (mk_machine (cpus m) (locks m) (<[h := Idle]> (at_ m))) h' l' ↔ transit m h' l' ∧ h' ≠ h).
  { intros h' l'. unfold transit. cbn. destruct (decide (h' = h)) as [->|];
      [rewrite fn_lookup_insert|rewrite fn_lookup_insert_ne by done]; naive_solver. }
  assert (Hl' : ∀ h' l', h' ≠ h → transit m h' l' → l' ≠ l).
  { intros h' l' Hne Ht ->. apply Hne, (L4 h' h l); [done|]. by left. }
  split; cbn [cpus locks at_]; try done.
  - intros l'. destruct (decide (l' = l)) as [->|]; [rewrite fn_lookup_insert; by right|by rewrite fn_lookup_insert_ne].
  - intros l' h'. destruct (decide (l' = l)) as [->|]; [by rewrite fn_lookup_insert|].
    rewrite fn_lookup_insert_ne by done. apply L2.
  - intros h' l' [Ht Hne]%Hp. rewrite fn_lookup_insert_ne by (by apply not_eq_sym, (Hl' h')). by apply (L3 h').
  - intros h1 h2 l' [H1 _]%Hp [H2 _]%Hp. by apply (L4 h1 h2 l').
  - intros l'. destruct (decide (l' = l)) as [->|Hne].
    + intros _. exists h. left. cbn. by rewrite fn_lookup_insert.
    + rewrite fn_lookup_insert_ne by done. intros Hl. destruct (L5 l' Hl) as (h' & [Ho|Ht]); exists h'.
      * left. cbn. by rewrite fn_lookup_insert_ne.
      * right. apply Hp. split; [done|]. intros ->. destruct Ht as [Ht|Ht]; rewrite Hat in Ht; congruence.
  - intros h'. destruct (decide (h' = h)) as [->|Hne].
    + destruct (L6 h) as (Ls & H1 & H2 & H3). exists (l :: Ls). rewrite Hat in H3. cbn in *. rewrite fn_lookup_insert.
      split_and!; [|intros l'|cbn; lia].
      * constructor; [|done]. rewrite H2. congruence.
      * rewrite elem_of_cons, H2. destruct (decide (l' = l)) as [->|].
        -- rewrite fn_lookup_insert. cbn. naive_solver.
        -- rewrite fn_lookup_insert_ne by done. naive_solver.
    + apply (counted_other m); cbn; try done; [by rewrite fn_lookup_insert_ne|]. intros l'.
      destruct (decide (l' = l)) as [->|]; [|by rewrite fn_lookup_insert_ne]. rewrite fn_lookup_insert. cbn.
      split; congruence.
Qed.

Lemma linv_release h l m m' : linv m → at_ m h = Idle → release_enter h l m = Ok m' → linv m'.
Proof.
  intros [L1 L2 L3 L4 L5 L6 L7] Hat. unfold release_enter. destruct (holding h l m) eqn:Eh; [|done]. intros [= <-].
  unfold holding in Eh. apply andb_true_iff in Eh as [_ Eh%bool_decide_eq_true]. pose proof (L2 l h Eh) as Hlk.
  assert (Hno : ∀ h', ¬ transit m h' l) by (intros h' Ht; destruct (L3 h' l Ht); congruence).
  assert (Hp : ∀ h' l', transit (mk_machine (cpus m) (locks m) (<[h := Clearing l]> (at_ m))) h' l' ↔
    transit m h' l' ∨ (h' = h ∧ l' = l)).
  { intros h' l'. unfold transit. cbn. destruct (decide (h' = h)) as [->|];
      [rewrite fn_lookup_insert, Hat|rewrite fn_lookup_insert_ne by done]; naive_solver. }
  split; cbn [cpus locks at_]; try done.
  - intros l'. destruct (decide (l' = l)) as [->|]; [rewrite fn_lookup_insert; by right|by rewrite fn_lookup_insert_ne].
  - intros l' h'. destruct (decide (l' = l)) as [->|]; [by rewrite fn_lookup_insert|].
    rewrite fn_lookup_insert_ne by done. apply L2.
  - intros h' l' Ht. apply Hp in Ht. destruct (decide (l' = l)) as [->|]; [by rewrite fn_lookup_insert|].
    rewrite fn_lookup_insert_ne by done. destruct Ht as [Ht|[_ ?]]; [by apply (L3 h')|done].
  - intros h1 h2 l' [H1|[-> ->]]%Hp [H2|[-> Hl2]]%Hp; [by apply (L4 h1 h2 l')| | |done].
    + subst. by destruct (Hno h1).
    + by destruct (Hno h2).
  - intros l'. destruct (decide (l' = l)) as [->|Hne].
    + intros _. exists h. right. apply Hp. by right.
    + rewrite fn_lookup_insert_ne by done. intros Hl. destruct (L5 l' Hl) as (h' & [Ho|Ht]); exists h'.
      * left. cbn. by rewrite fn_lookup_insert_ne.
      * right. apply Hp. by left.
  - intros h'. destruct (decide (h' = h)) as [->|Hne].
    + destruct (L6 h) as (Ls & H1 & H2 & H3). apply H2 in Eh as Hin. apply elem_of_Permutation in Hin as [Ls' HP].
      exists Ls'. rewrite Hat in H3. cbn in *. rewrite fn_lookup_insert. rewrite HP in H1. apply NoDup_cons in H1 as [Hn H1].
      assert (E : length Ls = S (length Ls')) by by rewrite HP.
      split_and!; [done|intros l'|cbn; lia]. destruct (decide (l' = l)) as [->|Hl].
      * rewrite fn_lookup_insert. cbn. split; [by intros ?|done].
      * rewrite fn_lookup_insert_ne by done. rewrite <-H2, HP, elem_of_cons. naive_solver.
    + apply (counted_other m); cbn; try done; [by rewrite fn_lookup_insert_ne|]. intros l'.
      destruct (decide (l' = l)) as [->|]; [|by rewrite fn_lookup_insert_ne]. rewrite fn_lookup_insert. cbn.
      rewrite Eh. split; congruence.
Qed.

Lemma linv_store h l m : linv m → at_ m h = Clearing l → linv (release_store h l m).
Proof.
  intros [L1 L2 L3 L4 L5 L6 L7] Hat. unfold release_store. destruct (L3 h l) as [Hlk Hnone]; [by right|].
  assert (Hp : ∀ h' l', transit (mk_machine (cpus m) (locks m) (<[h := Leaving l]> (at_ m))) h' l' ↔ transit m h' l' ∧ h' ≠ h).
  { intros h' l'. unfold transit. cbn. destruct (decide (h' = h)) as [->|];
      [rewrite fn_lookup_insert|rewrite fn_lookup_insert_ne by done]; naive_solver. }
  assert (Hl' : ∀ h' l', h' ≠ h → transit m h' l' → l' ≠ l).
  { intros h' l' Hne Ht ->. apply Hne, (L4 h' h l); [done|]. by right. }
  split; cbn [cpus locks at_]; try done.
  - intros l'. destruct (decide (l' = l)) as [->|]; [rewrite fn_lookup_insert; by left|by rewrite fn_lookup_insert_ne].
  - intros l' h'. destruct (decide (l' = l)) as [->|]; [rewrite fn_lookup_insert; cbn; congruence|].
    rewrite fn_lookup_insert_ne by done. apply L2.
  - intros h' l' [Ht Hne]%Hp. rewrite fn_lookup_insert_ne by (by apply not_eq_sym, (Hl' h')). by apply (L3 h').
  - intros h1 h2 l' [H1 _]%Hp [H2 _]%Hp. by apply (L4 h1 h2 l').
  - intros l'. destruct (decide (l' = l)) as [->|Hne]; [by rewrite fn_lookup_insert|].
    rewrite fn_lookup_insert_ne by done. intros Hl. destruct (L5 l' Hl) as (h' & [Ho|Ht]); exists h'.
    + left. cbn. by rewrite fn_lookup_insert_ne.
    + right. apply Hp. split; [done|]. intros ->. destruct Ht as [Ht|Ht]; rewrite Hat in Ht; congruence.
  - intros h'. assert (Hsame : ∀ l', lk_cpu (<[l := mk_lock 0 (lk_cpu (locks m l))]> (locks m) l') = lk_cpu (locks m l')).
    { intros l'. destruct (decide (l' = l)) as [->|]; [by rewrite fn_lookup_insert|by rewrite fn_lookup_insert_ne]. }
    destruct (decide (h' = h)) as [->|Hne].
    + destruct (L6 h) as (Ls & H1 & H2 & H3). exists Ls. rewrite Hat in H3. cbn in *. rewrite fn_lookup_insert.
      split_and!; [done| |done]. intros l'. by rewrite Hsame.
    + apply (counted_other m); cbn; try done; [by rewrite fn_lookup_insert_ne|]. intros l'. by rewrite Hsame.
Qed.

(** [pop_off] at the end of [release] does not panic. *)
Lemma exit_ok h l m : linv m → at_ m h = Leaving l → ∃ c, pop_off (cpus m h) = Ok c ∧
  noff c = noff (cpus m h) - 1 ∧ (0 < noff c → sie c = false).
Proof.
  intros Hm Hat. destruct (li_noff _ Hm h) as (Ls & _ & _ & Hn). rewrite Hat in Hn. cbn in Hn.
  unfold pop_off. rewrite (li_intr _ Hm h), (proj2 (Z.ltb_ge _ _)) by lia. eexists; split; [reflexivity|]. cbn.
  split; [done|]. intros Hp. by rewrite (proj2 (Z.eqb_neq _ 0)) by lia.
Qed.

Lemma linv_exit h l m m' : linv m → at_ m h = Leaving l → release_exit h l m = Ok m' → linv m'.
Proof.
  intros Hm Hat. destruct (exit_ok h l m Hm Hat) as (c & Hc & Hn & Hs). unfold release_exit. rewrite Hc. cbn [bind].
  intros [= <-]. destruct Hm as [L1 L2 L3 L4 L5 L6 L7].
  assert (Hp : ∀ h' l', transit (mk_machine (cpus m) (locks m) (<[h := Idle]> (at_ m))) h' l' ↔ transit m h' l').
  { intros h' l'. unfold transit. cbn. destruct (decide (h' = h)) as [->|];
      [rewrite fn_lookup_insert, Hat|rewrite fn_lookup_insert_ne by done]; naive_solver. }
  split; cbn [cpus locks at_]; try done.
  - intros h' l' Ht. apply (L3 h'), (Hp h' l'), Ht.
  - intros h1 h2 l' H1 H2. apply (L4 h1 h2 l'); by apply Hp.
  - intros l' Hl. destruct (L5 l' Hl) as (h' & [Ho|Ht]); exists h'; [by left|right]. by apply Hp.
  - intros h'. destruct (decide (h' = h)) as [->|Hne].
    + destruct (L6 h) as (Ls & H1 & H2 & H3). exists Ls. rewrite Hat in H3. cbn in *.
      rewrite !fn_lookup_insert. cbn. split_and!; [done|done|lia].
    + apply (counted_other m); cbn; try done; by rewrite fn_lookup_insert_ne.
  - intros h'. destruct (decide (h' = h)) as [->|Hne]; [by rewrite fn_lookup_insert|].
    rewrite fn_lookup_insert_ne by done. apply L7.
Qed.

Lemma linv_step m m' : step m m' → linv m → linv m'.
Proof.
  intros Hst Hm. destruct Hst.
  - by apply (linv_enter h l m).
  - by apply linv_try.
  - by apply linv_record.
  - by apply (linv_release h l m).
  - by apply linv_store.
  - by apply (linv_exit h l m).
  - destruct Hm as [L1 L2 L3 L4 L5 L6 L7]. split; cbn [cpus locks at_]; try done.
    + intros h'. destruct (decide (h' = h)) as [->|Hne].
      * destruct (L6 h) as (Ls & H1 & H2 & H3). exists Ls. cbn. rewrite fn_lookup_insert. cbn. split_and!; [done|done|lia].
      * apply (counted_other m); cbn; try done. by rewrite fn_lookup_insert_ne.
    + intros h'. destruct (decide (h' = h)) as [->|Hne]; [rewrite fn_lookup_insert; cbn; lia|].
      rewrite fn_lookup_insert_ne by done. apply L7.
Qed.

(** All harts outside of critical sections, all locks initialised. *)
Record booted (m : machine) : Prop := {
  bo_locks : ∀ l, locks m l = initlock;
  bo_cpus : ∀ h, noff (cpus m h) = 0;
  bo_at : ∀ h, at_ m h = Idle
}.

Lemma linv_boot m : booted m → linv m.
Proof.
  intros [B1 B2 B3].
  assert (Hno : ∀ h l, ¬ transit m h l) by (intros h l [H|H]; rewrite B3 in H; done).
  split.
  - intros l. rewrite B1. by left.
  - intros l h. by rewrite B1.
  - intros h l Ht. by destruct (Hno h l).
  - intros h h' l Ht. by destruct (Hno h l).
  - intros l. by rewrite B1.
  - intros h. exists []. rewrite B2, B3. split_and!; [constructor| |done]. intros l. rewrite B1.
    split; [by intros ?%not_elem_of_nil|done].
  - intros h. rewrite B2. lia.
Qed.

(** C33. Spin locks under any interleaving of harts: at most one hart has a
    lock at a time; a hart that has one, or that waits for one, has interrupts
    off; the lock word is set exactly while some hart has the lock; entering
    [acquire] panics exactly when the hart already owns the lock, a hart that
    recorded itself as the owner can release without panic, and the [pop_off]
    that ends a release does not panic. *)
Theorem spinlock_safe m0 m :
  booted m0 → rtc step m0 m →
  (∀ h h' l, has_lock m h l → has_lock m h' l → h = h') ∧
  (∀ h l, has_lock m h l ∨ at_ m h = Spinning l → sie (cpus m h) = false) ∧
  (∀ l, locked (locks m l) = 0 ↔ ¬ ∃ h, has_lock m h l) ∧
  (∀ h l, (∃ m', acquire_enter h l m = Ok m') ↔ lk_cpu (locks m l) ≠ Some h) ∧
  (∀ h l, lk_cpu (locks m l) = Some h → ∃ m', release_enter h l m = Ok m') ∧
  (∀ h l, at_ m h = Leaving l → ∃ m', release_exit h l m = Ok m').
Proof.
  intros Hb Hrun. assert (Hm : linv m).
  { apply linv_boot in Hb. induction Hrun as [|x y z Hxy _ IH]; [done|]. apply IH. by apply (linv_step x). }
  pose proof Hm as [L1 L2 L3 L4 L5 L6 L7].
  assert (Hhold : ∀ h l, holding h l m = true ↔ lk_cpu (locks m l) = Some h).
  { intros h l. unfold holding. rewrite andb_true_iff, bool_decide_eq_true. split; [by intros []|].
    intros Ho. split; [|done]. by rewrite (L2 l h Ho). }
  split_and!.
  - intros h h' l [H1|H1] [H2|H2]; [congruence| | |by apply (L4 h h' l)].
    + destruct (L3 h' l H2). congruence.
    + destruct (L3 h l H1). congruence.
  - intros h l Hor. apply L7. destruct (L6 h) as (Ls & _ & HLs & ->).
    assert (0 < busy (at_ m h) ∨ l ∈ Ls) as [Hpos|Hin].
    { destruct Hor as [[Ho|[Ht|Ht]]|Hsp]; [right; by apply HLs|left; by rewrite Ht..|left; by rewrite Hsp]. }
    + lia.
    + destruct Ls; [by apply not_elem_of_nil in Hin|]. cbn. destruct (at_ m h); cbn; lia.
  - intros l. split.
    + intros H0 (h & [Ho|Ht]); [specialize (L2 l h Ho)|destruct (L3 h l Ht)]; lia.
    + intros Hno. destruct (L1 l) as [?|H1]; [done|]. destruct Hno. by apply L5.
  - intros h l. unfold acquire_enter.
    change (holding h l (mk_machine _ (locks m) _)) with (holding h l m). destruct (holding h l m) eqn:E.
    + apply Hhold in E. split; [by intros []|by intros []].
    + split; [|by eexists]. intros _ Ho. apply Hhold in Ho. congruence.
  - intros h l Ho. unfold release_enter. apply Hhold in Ho. rewrite Ho. by eexists.
  - intros h l Hat. destruct (exit_ok h l m Hm Hat) as (c & Hc & _). unfold release_exit. rewrite Hc. by eexists.
Qed.

Definition machine0 : machine := mk_machine (λ _, mk_cpu 0 false true) (λ _, initlock) (λ _, Idle).
Definition machine1 : machine := acquire_try 0 7 (get machine0 (acquire_enter 0 7 machine0)).

Lemma spinlock_witness :
  rtc step machine0 machine1 ∧ has_lock machine1 0 7 ∧ sie (cpus machine1 0) = false ∧ ∀ h, has_lock machine1 h 7 → h = 0.
Proof.
  assert (Hrun : rtc step machine0 machine1).
  { apply (rtc_l _ _ (get machine0 (acquire_enter 0 7 machine0))).
    - apply (step_enter 0 7); reflexivity.
    - apply rtc_once. apply (step_try 0 7). reflexivity. }
  assert (Hh : has_lock machine1 0 7) by (right; left; reflexivity).
  destruct (spinlock_safe machine0 machine1) as (H1 & H2 & _).
  - split; reflexivity.
  - exact Hrun.
  - split; [exact Hrun|]. split; [exact Hh|]. split; [apply (H2 0 7); left; exact Hh|].
    intros h H. exact (H1 h 0 7 H Hh).
Defined.

(** ** Sleep locks *)

Section sleep.
Variable lk : Z.

Record sinv (s : system) : Prop := {
  si_word : (sl_locked (slk s) = 0 ∧ sl_pid (slk s) = 0) ∨
            (sl_locked (slk s) = 1 ∧ sl_pid (slk s) ≠ 0 ∧ where_ s (sl_pid (slk s)) = Holding);
  si_hold : ∀ p, where_ s p = Holding → sl_locked (slk s) = 1 ∧ sl_pid (slk s) = p;
  si_wait : ∀ p, where_ s p = Waiting →
    p_state (pool s p) = RUNNABLE ∨ p_state (pool s p) = RUNNING ∨
    (p_state (pool s p) = SLEEPING ∧ p_chan (pool s p) = lk ∧ sl_locked (slk s) = 1)
}.

(** The scheduler does not touch the lock. *)
Lemma sinv_sched p x s :
  sinv s → (x = RUNNABLE ∨ x = RUNNING) → sinv (set_state p x s).
Proof.
  intros [S1 S2 S3] Hx. split; cbn; [done|done|]. intros q Hq. destruct (decide (q = p)) as [->|].
  - rewrite fn_lookup_insert. cbn. tauto.
  - rewrite fn_lookup_insert_ne by done. by apply S3.
Qed.

Lemma sinv_acquire p s :
  sinv s → p ≠ 0 → p_state (pool s p) = RUNNING → where_ s p ≠ Holding → sinv (acquiresleep lk p s).
Proof.
  intros [S1 S2 S3] Hp Hr Hw. unfold acquiresleep. set (pl := match where_ s p with Waiting => _ | _ => _ end).
  assert (Hpl : ∀ q, q ≠ p → pl q = pool s q).
  { intros q Hq. unfold pl. destruct (where_ s p); [done| |done]. by rewrite fn_lookup_insert_ne. }
  destruct S1 as [[E1 E2]|(E1 & E2 & E3)]; rewrite E1; cbn [Z.eqb negb].
  - split; cbn.
    + right. by rewrite fn_lookup_insert.
    + intros q. destruct (decide (q = p)) as [->|]; [done|]. rewrite fn_lookup_insert_ne by done.
      intros Hq. destruct (S2 q Hq). lia.
    + intros q. destruct (decide (q = p)) as [->|]; [by rewrite fn_lookup_insert|].
      rewrite fn_lookup_insert_ne, Hpl by done. intros Hq. destruct (S3 q Hq) as [?|[?|(_ & _ & ?)]]; [auto..|lia].
  - assert (Hne : sl_pid (slk s) ≠ p) by congruence. split; cbn; unfold sleep_on_chan.
    + right. rewrite fn_lookup_insert_ne by done. done.
    + intros q. destruct (decide (q = p)) as [->|]; [by rewrite fn_lookup_insert|].
      rewrite fn_lookup_insert_ne by done. apply S2.
    + intros q. destruct (decide (q = p)) as [->|]; [rewrite !fn_lookup_insert; cbn; auto|].
      rewrite !fn_lookup_insert_ne, Hpl by done. apply S3.
Qed.

Lemma sinv_release p s :
  sinv s → p_state (pool s p) = RUNNING → where_ s p = Holding → sinv (releasesleep lk p s).
Proof.
  intros [S1 S2 S3] Hr Hw. destruct (S2 p Hw) as [E1 E2]. unfold releasesleep. split; cbn.
  - by left.
  - intros q. destruct (decide (q = p)) as [->|]; [by rewrite fn_lookup_insert|]. rewrite fn_lookup_insert_ne by done.
    intros Hq. destruct (S2 q Hq). congruence.
  - intros q. destruct (decide (q = p)) as [->|Hne]; [by rewrite fn_lookup_insert|]. rewrite fn_lookup_insert_ne by done.
    intros Hq. unfold wakeup. rewrite (proj2 (Z.eqb_neq q p)) by done. cbn [negb andb].
    destruct (S3 q Hq) as [H|[H|(H & -> & _)]]; rewrite H; cbn; [by left|by right; left|]. rewrite Z.eqb_refl. by left.
Qed.

(** Nobody has or waits for the lock. *)
Definition sboot (s : system) : Prop := slk s = initsleeplock ∧ ∀ p, where_ s p = Outside.

(** C34. Sleep locks under any scheduling of processes that release the lock
    only while they hold it: at most one process holds the lock,
    [holdingsleep] tells whether the caller does, and no wake-up is lost:
    whenever the lock is free every process that waits for it is runnable or
    running, and a process that sleeps does so while the lock is held. *)
Theorem sleeplock_safe s0 s :
  sboot s0 → rtc (sstep lk) s0 s →
  (∀ p q, where_ s p = Holding → where_ s q = Holding → p = q) ∧
  (∀ p, p ≠ 0 → holdingsleep p s = true ↔ where_ s p = Holding) ∧
  (sl_locked (slk s) = 0 → ∀ p, where_ s p = Waiting → p_state (pool s p) = RUNNABLE ∨ p_state (pool s p) = RUNNING) ∧
  (∀ p, where_ s p = Waiting → p_state (pool s p) = SLEEPING → ∃ q, q ≠ p ∧ where_ s q = Holding).
Proof.
  intros [B1 B2] Hrun. assert (Hs : sinv s).
  { assert (H0 : sinv s0).
    { split; [left; by rewrite B1|intros p; by rewrite B2|intros p; by rewrite B2]. }
    clear B1 B2. induction Hrun as [|x y z Hxy _ IH]; [done|]. apply IH. destruct Hxy.
    - by apply sinv_acquire.
    - by apply sinv_release.
    - apply sinv_sched; [done|by right].
    - apply sinv_sched; [done|by left]. }
  destruct Hs as [S1 S2 S3]. split_and!.
  - intros p q Hp Hq. destruct (S2 p Hp), (S2 q Hq). congruence.
  - intros p Hp. unfold holdingsleep. split.
    + intros [H1%negb_true_iff%Z.eqb_neq H2%Z.eqb_eq]%andb_true_iff.
      destruct S1 as [[? _]|(_ & _ & ?)]; [done|]. by rewrite <-H2.
    + intros Hw. destruct (S2 p Hw) as [-> ->]. by rewrite Z.eqb_refl.
  - intros H0 p Hp. destruct (S3 p Hp) as [?|[?|(_ & _ & ?)]]; [auto..|lia].
  - intros p Hp Hsl. destruct (S3 p Hp) as [H|[H|(_ & _ & H)]]; [congruence..|].
    destruct S1 as [[? _]|(_ & _ & Hq)]; [lia|]. exists (sl_pid (slk s)). split; [|done]. intros E. rewrite E in Hq. congruence.
Qed.
End sleep.

Definition procs0 : system := mk_system (λ _, mk_proc RUNNING 0) initsleeplock (λ _, Outside).

(** Process 1 takes the lock, process 2 goes to sleep. *)
Lemma sleeplock_witness :
  let s := acquiresleep 100 2 (acquiresleep 100 1 procs0) in
  p_state (pool s 2) = SLEEPING ∧ holdingsleep 1 s = true ∧ ∃ q, q ≠ 2 ∧ where_ s q = Holding.
Proof.
  destruct (sleeplock_safe 100 procs0 (acquiresleep 100 2 (acquiresleep 100 1 procs0))) as (_ & H2 & _ & H4).
  - split; reflexivity.
  - apply (rtc_l _ _ (acquiresleep 100 1 procs0)); [|apply rtc_once];
      (apply ss_acquire; [discriminate|reflexivity|discriminate]).
  - split; [reflexivity|]. split; [apply H2; [discriminate|reflexivity]|]. apply H4; reflexivity.
Defined.

End LockSpec.
