(* ===== verification/CListSort.v ===== *)
(** * Sorting of linked lists (kernel/fs/list.c)

    [list_sort] is a natural merge sort: each pass merges pairs of adjacent
    ascending runs in place by moving single elements.  The proof follows the
    runs of the list; a pass on [n] runs leaves at most [(n + 1) / 2]. *)

From Stdlib Require Import Sorted.
From stdpp Require Import sorting.
From S2P Require Import Prelude CList.
Import CList.

Module CListSort.

(** ** Operations *)

Section sort.
Variable less : ptr → ptr → bool.

(** [while ((a = list_next (a)) != b) if (less (a, list_prev (a))) return false;] *)
Fixpoint is_sorted_loop (fuel : nat) (a b : ptr) (h : heap) : res bool :=
  match fuel with
  | O => NoFuel
  | S fuel =>
      let* a := list_next a h in
      if bool_decide (a = b) then Ok true
      else
        let* p := list_prev a h in
        if less a p then Ok false else is_sorted_loop fuel a b h
  end.
Definition is_sorted (fuel : nat) (a b : ptr) (h : heap) : res bool :=
  if bool_decide (a = b) then Ok true else is_sorted_loop fuel a b h.

Fixpoint find_end_loop (fuel : nat) (a b : ptr) (h : heap) : res ptr :=
  match fuel with
  | O => NoFuel
  | S fuel =>
      let* a := list_next a h in
      if bool_decide (a = b) then Ok a
      else
        let* p := list_prev a h in
        if less a p then Ok a else find_end_loop fuel a b h
  end.
Definition find_end_of_run (fuel : nat) (a b : ptr) (h : heap) : res ptr :=
  let* _ := assert_ (bool_decide (a ≠ None)) "a != NULL" in
  let* _ := assert_ (bool_decide (b ≠ None)) "b != NULL" in
  let* _ := assert_ (bool_decide (a ≠ b)) "a != b" in
  find_end_loop fuel a b h.

Fixpoint merge_loop (fuel : nat) (a0 a1b0 b1 : ptr) (h : heap) : res heap :=
  match fuel with
  | O => NoFuel
  | S fuel =>
      if bool_decide (a0 ≠ a1b0) && bool_decide (a1b0 ≠ b1) then
        if negb (less a1b0 a0) then
          let* a0 := list_next a0 h in merge_loop fuel a0 a1b0 b1 h
        else
          let* a1b0 := list_next a1b0 h in
          let* p := list_prev a1b0 h in
          let* h := list_splice a0 p a1b0 h in
          merge_loop fuel a0 a1b0 b1 h
      else Ok h
  end.
Definition inplace_merge (fuel : nat) (a0 a1b0 b1 : ptr) (h : heap) : res heap :=
  let* _ := assert_ (bool_decide (a0 ≠ None)) "a0 != NULL" in
  let* _ := assert_ (bool_decide (a1b0 ≠ None)) "a1b0 != NULL" in
  let* _ := assert_ (bool_decide (b1 ≠ None)) "b1 != NULL" in
  let* s1 := is_sorted fuel a0 a1b0 h in
  let* _ := assert_ s1 "is_sorted (a0, a1b0, less, aux)" in
  let* s2 := is_sorted fuel a1b0 b1 h in
  let* _ := assert_ s2 "is_sorted (a1b0, b1, less, aux)" in
  merge_loop fuel a0 a1b0 b1 h.

(** One pass: the [for] loop of [list_sort] from [a0] on. *)
Fixpoint sort_pass (fuel : nat) (l : Z) (a0 : ptr) (output_run_cnt : Z) (h : heap) : res (Z * heap) :=
  match fuel with
  | O => NoFuel
  | S fuel' =>
      if bool_decide (a0 = list_end l) then Ok (output_run_cnt, h)
      else
        let cnt := u64 (output_run_cnt + 1) in
        let* a1b0 := find_end_of_run fuel a0 (list_end l) h in
        if bool_decide (a1b0 = list_end l) then Ok (cnt, h)
        else
          let* b1 := find_end_of_run fuel a1b0 (list_end l) h in
          let* h := inplace_merge fuel a0 a1b0 b1 h in
          sort_pass fuel' l b1 cnt h
  end.

(** [do ... while (output_run_cnt > 1)]; [fuel] bounds the iterations of
    every loop inside, [n] the number of passes. *)
Fixpoint sort_loop (n fuel : nat) (l : Z) (h : heap) : res heap :=
  match n with
  | O => NoFuel
  | S n =>
      let* a0 := list_begin l h in
      let* (cnt, h) := sort_pass fuel l a0 0 h in
      if 1 <? cnt then sort_loop n fuel l h else Ok h
  end.

Definition list_sort (fuel : nat) (l : Z) (h : heap) : res heap :=
  let* h := sort_loop fuel fuel l h in
  let* b := list_begin l h in
  let* s := is_sorted fuel b (list_end l) h in
  let* _ := assert_ s "is_sorted (list_begin (list), list_end (list), less, aux)" in
  Ok h.
End sort.

(** ** Positions *)

(** The location of the first element of a suffix. *)
Definition ploc (l : Z) (ys : list Z) : eloc := List.hd (LTail l) (LNode <$> ys).

Lemma dll_prev h l xs y ys :
  dll h l (xs ++ y :: ys) → list_prev (Some (ploc l ys)) h = Ok (Some (LNode y)).
Proof.
  intros Hd. destruct ys as [|z ys]; cbn.
  - destruct Hd as (Hp & _ & Ht & _). rewrite fmap_app, <-app_assoc in Hp. apply path_app in Hp as [_ Hp].
    cbn in Hp. destruct Hp as (_ & _ & _ & Hp & _). unfold list_prev, is_interior, is_tail.
    rewrite load_live by eauto with clist. by rewrite Hp, Ht.
  - assert (Hd' : dll h l ((xs ++ [y]) ++ z :: ys)) by by rewrite <-app_assoc.
    apply dll_links in Hd' as [Hp Hn]. rewrite fmap_app in Hp. cbn [fmap list_fmap] in Hp. rewrite List.last_last in Hp.
    unfold list_prev, is_interior, is_tail.
    rewrite load_live by eauto with clist. by rewrite Hp, Hn.
Qed.

Lemma dll_next h l xs y ys : dll h l (xs ++ y :: ys) → list_next (Some (LNode y)) h = Ok (Some (ploc l ys)).
Proof. apply list_next_spec. Qed.

(** Positions in a list are distinct. *)
Lemma ploc_ne h l xs y ys zs : dll h l (xs ++ y :: ys ++ zs) → LNode y ≠ ploc l zs.
Proof.
  intros (_ & _ & _ & Hnd) E. destruct zs as [|z zs]; cbn in E; [done|]. injection E as ->.
  apply NoDup_app in Hnd as (_ & _ & Hnd). apply NoDup_cons in Hnd as [Hno _].
  apply Hno, elem_of_app. right. by left.
Qed.

Lemma ploc_Some_ne h l xs y ys zs : dll h l (xs ++ y :: ys ++ zs) → Some (LNode y) ≠ Some (ploc l zs).
Proof. intros H E. injection E. by apply (ploc_ne h l xs y ys zs). Qed.

(** ** Moving one element *)

Lemma splice_single before b n h q h1 h2 :
  (is_interior before h = Ok true ∨ (is_interior before h = Ok false ∧ is_tail before h = Ok true)) →
  (∃ x, is_tail before h = Ok x) →
  list_prev n h = Ok (Some b) → Some b ≠ n → list_remove (Some b) h = Ok (q, h1) →
  list_insert before (Some b) h1 = Ok h2 → list_splice before (Some b) n h = Ok h2.
Proof.
  intros Hbe [x Hx] Hprev Hne Hrm Hin. unfold list_splice.
  assert (Hb : ∃ b1, is_interior before h = Ok b1 ∧ b1 || x = true).
  { destruct Hbe as [E|[E E']]; [exists true; by rewrite E|exists false]. rewrite E' in Hx. injection Hx as <-. done. }
  destruct Hb as (b1 & -> & Eb). rewrite Hx. cbn [bind]. rewrite Eb. cbn [assert_ bind].
  rewrite bool_decide_eq_false_2 by done. rewrite Hprev. cbn [bind].
  unfold list_remove in Hrm. apply bind_Ok in Hrm as (bi & Hbi & Hrm). rewrite Hbi. cbn [bind].
  destruct bi; [|done]. cbn [assert_ bind] in Hrm |- *.
  apply bind_Ok in Hrm as (e & He & Hrm). rewrite He. cbn [bind].
  apply bind_Ok in Hrm as (h' & Hh' & Hrm). rewrite Hh'. cbn [bind].
  apply bind_Ok in Hrm as (e' & He' & Hrm). rewrite He'. cbn [bind].
  apply bind_Ok in Hrm as (h'' & Hh'' & Hrm). rewrite Hh''. cbn [bind].
  apply bind_Ok in Hrm as (e'' & He'' & Hrm). injection Hrm as _ ->.
  unfold list_insert in Hin. apply bind_Ok in Hin as (b3 & _ & Hin). apply bind_Ok in Hin as (b4 & _ & Hin).
  apply bind_Ok in Hin as (u3 & _ & Hin). apply bind_Ok in Hin as (u4 & _ & Hin).
  apply bind_Ok in Hin as (bb & Hbb & Hin). rewrite Hbb. cbn [bind]. exact Hin.
Qed.

(** The move of [b] before [a]. *)
Lemma splice_move h l pre a A b C :
  dll h l (pre ++ a :: A ++ b :: C) →
  ∃ h', list_splice (Some (LNode a)) (Some (LNode b)) (Some (ploc l C)) h = Ok h' ∧ dll h' l (pre ++ b :: a :: A ++ C).
Proof.
  intros Hd. assert (Hd2 : dll h l ((pre ++ a :: A) ++ b :: C)) by by rewrite <-app_assoc.
  destruct (list_remove_spec h l (pre ++ a :: A) b C Hd2) as (h1 & Hrm & Hd1 & Hl1 & _).
  rewrite <-app_assoc in Hd1. cbn [app] in Hd1.
  assert (Hb : b ∉ pre ++ a :: A ++ C).
  { destruct Hd2 as (_ & _ & _ & Hnd2).
    rewrite <-Permutation_middle in Hnd2. apply NoDup_cons in Hnd2 as [Hno _].
    by rewrite <-app_assoc in Hno. }
  destruct (list_insert_dll h1 l pre (a :: A ++ C) b Hd1 Hb) as (h2 & Hin & Hdf & _).
  { apply Hl1. apply (dll_live h l (pre ++ a :: A ++ b :: C)); [done|]. right. right.
    apply list_elem_of_fmap. exists b. split; [done|]. apply elem_of_app. right. right. apply elem_of_app. right. by left. }
  cbn [fmap list_fmap List.hd] in Hin. exists h2. split; [|exact Hdf]. apply (splice_single _ _ _ h _ h1 h2) with (5 := Hrm) (6 := Hin).
  - left. apply dll_links in Hd as [Hpv Hnx]. unfold is_interior. rewrite load_live by eauto with clist. by rewrite Hpv, Hnx.
  - apply dll_links in Hd as [Hpv Hnx]. unfold is_tail. rewrite load_live by eauto with clist. by eexists.
  - by apply (dll_prev h l (pre ++ a :: A)).
  - by apply (ploc_Some_ne h l (pre ++ a :: A) b []).
Qed.

(** ** Runs *)

Section sorted_runs.
Variable less : ptr → ptr → bool.

(** [x] may stand before [y]. *)
Definition before (x y : Z) : Prop := less (Some (LNode y)) (Some (LNode x)) = false.

#[export] Instance before_dec x y : Decision (before x y).
Proof. unfold before. apply _. Defined.

(** The list splits into at most [n] ascending runs. *)
Inductive runs : nat → list Z → Prop :=
| runs_nil n : runs n []
| runs_cons n r ys : Sorted before r → runs n ys → runs (S n) (r ++ ys).

Lemma Sorted_app_r r1 r2 : Sorted before (r1 ++ r2) → Sorted before r2.
Proof. induction r1 as [|x r1 IH]; [done|]. cbn. intros H. inversion H; subst. by apply IH. Qed.

Lemma runs_suffix n xs ys : runs n (xs ++ ys) → runs n ys.
Proof.
  intros H. remember (xs ++ ys) as zs eqn:E. revert xs ys E.
  induction H as [n|n r zs Hr Hz IH]; intros xs ys E.
  - symmetry in E. apply app_nil in E as [_ ->]. constructor.
  - apply app_eq_inv in E as [(k & -> & ->)|(k & -> & ->)].
    + constructor; [by apply (Sorted_app_r xs)|done].
    + rewrite <-(app_nil_l ys). constructor; [constructor|]. by apply (IH k).
Qed.

Lemma runs_zero ys : runs 0 ys → ys = [].
Proof. by inversion 1. Qed.

Lemma runs_one ys : runs 1 ys → Sorted before ys.
Proof. inversion 1 as [|? r zs Hr Hz]; subst; [constructor|]. apply runs_zero in Hz as ->. by rewrite app_nil_r. Qed.

Lemma runs_length ys : runs (length ys) ys.
Proof.
  induction ys as [|y ys IH]; [constructor|]. cbn. apply (runs_cons _ [y]); [|done]. repeat constructor.
Qed.

(** [r] is an ascending run of [r ++ rest] that cannot be made longer. *)
Definition maximal (r rest : list Z) : Prop :=
  r ≠ [] ∧ Sorted before r ∧ ∀ x, head rest = Some x → ∃ z, last r = Some z ∧ ¬ before z x.

Lemma Sorted_adjacent r1 z x r2 : Sorted before ((r1 ++ [z]) ++ x :: r2) → before z x.
Proof.
  induction r1 as [|y r1 IH]; cbn; intros H; inversion H as [|? ? H1 H2]; subst.
  - by inversion H2.
  - by apply IH.
Qed.

(** Taking off a maximal run leaves one run less. *)
Lemma runs_maximal n r rest : runs (S n) (r ++ rest) → maximal r rest → runs n rest.
Proof.
  intros H (Hne & Hs & Hmax). remember (r ++ rest) as zs eqn:E. remember (S n) as m eqn:Em.
  destruct H as [m|m r1 ys Hr1 Hys].
  - symmetry in E. by apply app_nil in E as [-> _].
  - injection Em as ->. apply app_eq_inv in E as [(k & -> & ->)|(k & -> & ->)].
    + destruct k as [|x k]; [by rewrite app_nil_l|].
      destruct (Hmax x eq_refl) as (z & Hz & Hnb). apply last_Some in Hz as [r0 ->]. destruct Hnb.
      by apply (Sorted_adjacent r0 z x k).
    + by apply (runs_suffix n k).
Qed.

(** ** The loops *)

Lemma less_before x y : less (Some (LNode y)) (Some (LNode x)) = negb (bool_decide (before x y)).
Proof. case_bool_decide as H; [done|]. unfold before in H. cbn. by destruct (less _ _). Qed.

Lemma is_sorted_loop_spec fuel h l pre y A post :
  dll h l (pre ++ y :: A ++ post) → Sorted before (y :: A) → (length A < fuel)%nat →
  is_sorted_loop less fuel (Some (LNode y)) (Some (ploc l post)) h = Ok true.
Proof.
  revert fuel pre y; induction A as [|x A IH]; intros fuel pre y Hd Hs Hf; (destruct fuel as [|fuel]; [cbn in Hf; lia|]);
    cbn [is_sorted_loop]; rewrite (dll_next h l pre y _ Hd); cbn [bind app].
  - by rewrite bool_decide_eq_true_2.
  - assert (Hd' : dll h l ((pre ++ [y]) ++ x :: A ++ post)) by by rewrite <-app_assoc.
    rewrite bool_decide_eq_false_2 by exact (ploc_Some_ne h l (pre ++ [y]) x A post Hd').
    rewrite (dll_prev h l pre y (x :: A ++ post) Hd). cbn [bind]. inversion Hs as [|? ? Hs1 Hs2]; subst. inversion Hs2 as [|? ? Hb]; subst.
    change (ploc l (x :: A ++ post)) with (LNode x). rewrite less_before, bool_decide_eq_true_2 by done. cbn [negb].
    apply (IH fuel (pre ++ [y])); [done|done|cbn in Hf; lia].
Qed.

Lemma is_sorted_spec fuel h l pre A post :
  dll h l (pre ++ A ++ post) → Sorted before A → (length A < fuel)%nat →
  is_sorted less fuel (Some (ploc l (A ++ post))) (Some (ploc l post)) h = Ok true.
Proof.
  intros Hd Hs Hf. unfold is_sorted. destruct A as [|y A]; cbn [app].
  - by rewrite bool_decide_eq_true_2.
  - rewrite bool_decide_eq_false_2 by exact (ploc_Some_ne h l pre y A post Hd).
    apply (is_sorted_loop_spec fuel h l pre y A); [done|done|cbn in Hf; lia].
Qed.

Lemma find_end_loop_spec fuel h l pre y ys :
  dll h l (pre ++ y :: ys) → (length ys < fuel)%nat →
  ∃ r rest, y :: ys = r ++ rest ∧ maximal r rest ∧ head r = Some y ∧
    find_end_loop less fuel (Some (LNode y)) (list_end l) h = Ok (Some (ploc l rest)).
Proof.
  revert pre y ys; induction fuel as [|fuel IH]; intros pre y ys Hd Hf; [lia|]. cbn [find_end_loop].
  rewrite (dll_next h l pre y _ Hd). cbn [bind]. destruct ys as [|x ys].
  - exists [y], []. rewrite bool_decide_eq_true_2 by done. split_and!; try done.
    split_and!; [done|repeat constructor|done].
  - cbn [ploc fmap list_fmap List.hd]. rewrite bool_decide_eq_false_2 by done.
    change (Some (LNode x)) with (Some (ploc l (x :: ys))). rewrite (dll_prev h l pre y (x :: ys) Hd). cbn [bind].
    change (ploc l (x :: ys)) with (LNode x). rewrite less_before. case_bool_decide as Hb; cbn [negb].
    + destruct (IH (pre ++ [y]) x ys) as (r & rest & E & (M1 & M2 & M3) & Hhd & Hop);
        [by rewrite <-app_assoc|cbn in Hf; lia|].
      exists (y :: r), rest. rewrite E. split_and!; try done. split_and!; [done| |].
      * constructor; [done|]. destruct r as [|z r]; [done|]. injection Hhd as ->. by constructor.
      * intros w Hw. destruct (M3 w Hw) as (z & Hz & Hn). exists z. split; [|done]. by destruct r.
    + exists [y], (x :: ys). split_and!; try done. split_and!; [done|repeat constructor|]. intros w [= <-]. by exists y.
Qed.

Lemma find_end_spec fuel h l pre y ys :
  dll h l (pre ++ y :: ys) → (length ys < fuel)%nat →
  ∃ r rest, y :: ys = r ++ rest ∧ maximal r rest ∧
    find_end_of_run less fuel (Some (LNode y)) (list_end l) h = Ok (Some (ploc l rest)).
Proof.
  intros Hd Hf. destruct (find_end_loop_spec fuel h l pre y ys Hd Hf) as (r & rest & E & Hm & _ & Hop).
  exists r, rest. split_and!; [done|done|]. unfold find_end_of_run, list_end in *. cbn. done.
Qed.

(** The in-place merge computes the merge of the two runs. *)
Lemma merge_loop_spec fuel h l pre A B post :
  dll h l (pre ++ A ++ B ++ post) → (length A + length B < fuel)%nat →
  ∃ h', merge_loop less fuel (Some (ploc l (A ++ B ++ post))) (Some (ploc l (B ++ post))) (Some (ploc l post)) h = Ok h' ∧
    dll h' l (pre ++ list_merge before A B ++ post).
Proof.
  revert h pre A B; induction fuel as [|fuel IH]; intros h pre A B Hd Hf; [lia|]. cbn [merge_loop].
  destruct A as [|a A]; cbn [app].
  { rewrite list_merge_nil_l. exists h. by rewrite bool_decide_eq_false_2 by by intros []. }
  assert (Hab : Some (LNode a) ≠ Some (ploc l (B ++ post))).
  { exact (ploc_Some_ne h l pre a A (B ++ post) Hd). }
  destruct B as [|b B]; cbn [app].
  { rewrite list_merge_nil_r. exists h. rewrite (bool_decide_eq_false_2 (Some (ploc l post) ≠ _)) by by intros [].
    by rewrite andb_false_r. }
  change (ploc l (a :: A ++ b :: B ++ post)) with (LNode a). change (ploc l (b :: B ++ post)) with (LNode b) in *.
  assert (Hd2 : dll h l ((pre ++ a :: A) ++ b :: B ++ post)) by by rewrite <-app_assoc.
  rewrite bool_decide_eq_true_2 by done.
  rewrite (bool_decide_eq_true_2 (_ ≠ Some (ploc l post))) by exact (ploc_Some_ne h l _ b B post Hd2).
  cbn [andb]. rewrite list_merge_cons, less_before, negb_involutive. case_bool_decide as Hb.
  - rewrite decide_True by done. rewrite (dll_next h l pre a _ Hd). cbn [bind].
    destruct (IH h (pre ++ [a]) A (b :: B)) as (h' & Hop & Hd'); [by rewrite <-app_assoc|cbn in *; lia|].
    exists h'. split; [exact Hop|]. by rewrite <-app_assoc in Hd'.
  - rewrite decide_False by done. rewrite (dll_next h l _ b _ Hd2). cbn [bind].
    rewrite (dll_prev h l _ b _ Hd2). cbn [bind].
    destruct (splice_move h l pre a A b (B ++ post) Hd) as (h1 & -> & Hd1). cbn [bind].
    destruct (IH h1 (pre ++ [b]) (a :: A) B) as (h' & Hop & Hd'); [by rewrite <-app_assoc|cbn in *; lia|].
    exists h'. split; [exact Hop|]. by rewrite <-app_assoc in Hd'.
Qed.

Lemma inplace_merge_spec fuel h l pre A B post :
  dll h l (pre ++ A ++ B ++ post) → (length A + length B < fuel)%nat → Sorted before A → Sorted before B →
  ∃ h', inplace_merge less fuel (Some (ploc l (A ++ B ++ post))) (Some (ploc l (B ++ post))) (Some (ploc l post)) h = Ok h' ∧
    dll h' l (pre ++ list_merge before A B ++ post).
Proof.
  intros Hd Hf HA HB. unfold inplace_merge. cbn [assert_ bool_decide decide option_eq_None_dec bind].
  rewrite !bool_decide_eq_true_2 by done. cbn [assert_ bind].
  rewrite (is_sorted_spec fuel h l pre A (B ++ post)) by (done || lia). cbn [assert_ bind].
  rewrite (is_sorted_spec fuel h l (pre ++ A) B post) by (by rewrite <-?app_assoc || done || lia). cbn [assert_ bind].
  by apply merge_loop_spec.
Qed.
Context {Htot : Total before}.

(** One pass over a suffix of [n] runs merges them pairwise. *)
Lemma sort_pass_spec fuel h l pre ys n cnt :
  dll h l (pre ++ ys) → runs n ys → (length ys < fuel)%nat → 0 ≤ cnt → cnt + Z.of_nat (length ys) < 2 ^ 64 →
  ∃ h' zs c, sort_pass less fuel l (Some (ploc l ys)) cnt h = Ok (cnt + Z.of_nat c, h') ∧
    dll h' l (pre ++ zs) ∧ zs ≡ₚ ys ∧ runs c zs ∧ (2 * c ≤ n + 1)%nat.
Proof.
  revert h pre ys n cnt; induction fuel as [|fuel IH]; intros h pre ys n cnt Hd Hr Hf Hc Hlim; [lia|].
  cbn [sort_pass]. destruct ys as [|y ys].
  { exists h, [], 0%nat. rewrite bool_decide_eq_true_2, Z.add_0_r by done. split_and!; try done; [constructor|lia]. }
  change (ploc l (y :: ys)) with (LNode y). rewrite bool_decide_eq_false_2 by done. rewrite u64_small by (cbn in Hlim; lia).
  destruct (find_end_spec (S fuel) h l pre y ys Hd) as (r & rest & E & Hm & ->); [cbn in Hf; lia|]. cbn [bind].
  destruct n as [|n]; [by apply runs_zero in Hr|]. rewrite E in Hr, Hd, Hf, Hlim |- *. rewrite length_app in Hf, Hlim.
  apply (runs_maximal n r rest) in Hr; [|done]. pose proof Hm as (Hne & Hsr & _).
  assert (Hlr : (0 < length r)%nat) by (destruct r; [done|cbn; lia]).
  destruct rest as [|x rest].
  { exists h, (r ++ []), 1%nat. rewrite bool_decide_eq_true_2 by done. split_and!; try done; [|lia].
    constructor; [done|constructor]. }
  rewrite bool_decide_eq_false_2 by done. rewrite app_assoc in Hd.
  destruct (find_end_spec (S fuel) h l (pre ++ r) x rest Hd) as (r2 & rest2 & E2 & Hm2 & Hop2); [cbn in Hf; lia|].
  change (ploc l (x :: rest)) with (LNode x). rewrite Hop2. cbn [bind]. pose proof Hm2 as (Hne2 & Hsr2 & _).
  destruct n as [|n]; [by apply runs_zero in Hr|]. rewrite E2 in Hr, Hd, Hf, Hlim |- *. rewrite length_app in Hf, Hlim.
  apply (runs_maximal n r2 rest2) in Hr; [|done]. rewrite <-app_assoc in Hd.
  destruct (inplace_merge_spec (S fuel) h l pre r r2 rest2) as (h1 & Hop & Hd1); [done|lia|done|done|].
  replace (Some (LNode y)) with (Some (ploc l (r ++ r2 ++ rest2))) by (by rewrite <-E2, <-E).
  replace (Some (LNode x)) with (Some (ploc l (r2 ++ rest2))) by (by rewrite <-E2).
  rewrite Hop. cbn [bind]. rewrite app_assoc in Hd1.
  destruct (IH h1 (pre ++ list_merge before r r2) rest2 n (cnt + 1)) as (h2 & zs & c & -> & Hd2 & Hp & Hrz & Hc2);
    [done|done|lia|lia|lia|].
  exists h2, (list_merge before r r2 ++ zs), (S c). split; [do 2 f_equal; lia|]. split_and!.
  - by rewrite <-app_assoc in Hd2.
  - by rewrite merge_Permutation, Hp, app_assoc.
  - constructor; [by apply Sorted_list_merge|done].
  - lia.
Qed.

Lemma sort_loop_spec n fuel h l xs k :
  dll h l xs → runs k xs → (k ≤ n)%nat → (0 < n)%nat → (length xs < fuel)%nat → Z.of_nat (length xs) < 2 ^ 64 →
  ∃ h' ys, sort_loop less n fuel l h = Ok h' ∧ dll h' l ys ∧ ys ≡ₚ xs ∧ Sorted before ys.
Proof.
  revert h xs k; induction n as [|n IH]; intros h xs k Hd Hr Hk Hn Hf Hlim; [lia|]. cbn [sort_loop].
  rewrite (list_begin_spec h l xs Hd). cbn [bind].
  destruct (sort_pass_spec fuel h l [] xs k 0) as (h1 & zs & c & Hop & Hd1 & Hp & Hrz & Hc); [done|done|done|lia|lia|].
  unfold ploc in Hop. rewrite Hop. cbn [bind app] in *. rewrite Z.add_0_l. destruct (Z.ltb_spec 1 (Z.of_nat c)) as [Hlt|Hge].
  - destruct (IH h1 zs c) as (h2 & ys & -> & Hd2 & Hp2 & Hs); [done|done|lia|lia|by rewrite Hp|by rewrite Hp|].
    exists h2, ys. split_and!; try done. by rewrite Hp2.
  - exists h1, zs. split_and!; try done. apply runs_one. destruct c as [|[|c]]; [|done|lia].
    apply runs_zero in Hrz as ->. constructor.
Qed.
End sorted_runs.

(** [list_sort] terminates (its loops make no more iterations than the
    list has elements, plus one), does not fail any of its assertions, and
    leaves the list with the same elements in ascending order, for every
    comparison in which two elements are not below each other both ways. *)
Theorem list_sort_correct less h l xs fuel :
  dll h l xs → (∀ x y, less (Some (LNode x)) (Some (LNode y)) = true → less (Some (LNode y)) (Some (LNode x)) = false) →
  (length xs < fuel)%nat → Z.of_nat (length xs) < 2 ^ 64 →
  ∃ h' ys, list_sort less fuel l h = Ok h' ∧ dll h' l ys ∧ ys ≡ₚ xs ∧
    Sorted (λ x y, less (Some (LNode y)) (Some (LNode x)) = false) ys.
Proof.
  intros Hd Hasym Hf Hlim. assert (Htot : Total (before less)).
  { intros x y. unfold before. destruct (less (Some (LNode y)) (Some (LNode x))) eqn:E; [|by left]. right. by apply Hasym. }
  unfold list_sort.
  destruct (sort_loop_spec less fuel fuel h l xs (length xs)) as (h' & ys & -> & Hd' & Hp & Hs);
    [done|apply runs_length|lia|lia|done|done|].
  cbn [bind]. rewrite (list_begin_spec h' l ys Hd'). cbn [bind].
  assert (Hso : is_sorted less fuel (Some (List.hd (LTail l) (LNode <$> ys))) (list_end l) h' = Ok true).
  { pose proof (is_sorted_spec less fuel h' l [] ys []) as H. rewrite app_nil_r in H. apply H; [done|done|by rewrite Hp]. }
  rewrite Hso. cbn [assert_ bind]. exists h', ys. done.
Qed.

(** A list with the elements 3, 1, 2, ordered by their numbers. *)
Definition three : heap :=
  list_to_map [(LHead 0, mk_elem None (Some (LNode 3))); (LNode 3, mk_elem (Some (LHead 0)) (Some (LNode 1)));
    (LNode 1, mk_elem (Some (LNode 3)) (Some (LNode 2))); (LNode 2, mk_elem (Some (LNode 1)) (Some (LTail 0)));
    (LTail 0, mk_elem (Some (LNode 2)) None)].
Definition by_number (a b : ptr) : bool :=
  match a, b with Some (LNode x), Some (LNode y) => x <? y | _, _ => false end.

Lemma three_dll : dll three 0 [3; 1; 2].
Proof. split; [repeat split|]. split; [reflexivity|]. split; [reflexivity|]. repeat constructor; set_solver. Qed.

Lemma list_sort_witness :
  ∃ h' ys, list_sort by_number 4 0 three = Ok h' ∧ dll h' 0 ys ∧ ys ≡ₚ [3; 1; 2].
Proof.
  destruct (list_sort_correct by_number three 0 [3; 1; 2] 4 three_dll) as (h' & ys & Hop & Hd & Hp & _).
  - intros x y Hxy. unfold by_number in *. lia.
  - cbn. lia.
  - vm_compute. reflexivity.
  - exists h', ys. split; [exact Hop|]. split; [exact Hd|exact Hp].
Defined.

End CListSort.
