(* ===== verification/PrintDefs.v ===== *)
(** * Formatted output and input (hsai/print.c), definitions

    Format strings and string arguments are lists of characters (the NUL at
    the end is the end of the list; they do not overlap the output buffer); a
    read beyond the NUL is [Undef].  A variable argument is the 64-bit value
    of a register or a string; [va_arg] at a type takes the low bits.  The
    buffer of [vsnprintf] is in the byte memory of the string library, where a
    store outside the known addresses is [Undef]; local arrays ([temp[32]],
    [num_buf[32]], [buf[16]]) are lists whose length is checked at each store.
    The console is the list of characters put on it. *)

From Stdlib Require Import Ascii.
From S2P Require Import Prelude CStringDefs.
Import CStringDefs.

Module PrintDefs.

(** The code of a character, and a string constant. *)
Definition chr (a : ascii) : Z := Z.of_N (N_of_ascii a).
Definition str (s : string) : list Z := chr <$> list_ascii_of_string s.
Coercion chr : ascii >-> Z.

(** [digits[i]], for [i < 16]. *)
Definition digit (i : Z) : Z := if i <? 10 then 48 + i else 97 + (i - 10).

(** ** Arguments *)

Inductive arg := ANum (z : Z) | AStr (s : option (list Z)).

Definition i64 (z : Z) : Z := (z + 2 ^ 63) mod 2 ^ 64 - 2 ^ 63.

Definition next_num (ap : list arg) : res (Z * list arg) :=
  match ap with ANum z :: ap => Ok (z, ap) | _ => Undef end.
Definition next_str (ap : list arg) : res (option (list Z) * list arg) :=
  match ap with AStr s :: ap => Ok (s, ap) | _ => Undef end.

Definition null_str : list Z := str "(null)".

(** ** Numbers to strings *)

(** [do temp[i++] = digits[num % base]; num /= base; while (num > 0)] into an
    array of [cap] characters of which [i] are used: the digits, last first.
    64 iterations are enough for a 64-bit number. *)
Fixpoint rev_digits (fuel : nat) (cap i num base : Z) : res (list Z) :=
  match fuel with
  | O => NoFuel
  | S fuel =>
      if i <? cap then
        let d := digit (num mod base) in
        let num := num / base in
        if 0 <? num then let* ds := rev_digits fuel cap (i + 1) num base in Ok (d :: ds)
        else Ok [d]
      else Undef
  end.
Definition digit_fuel : nat := 64.

(** The string that [format_uint] leaves in a buffer of 32 characters. *)
Definition format_uint (num base : Z) : res (list Z) :=
  let* temp := rev_digits digit_fuel 32 0 num base in
  if Z.of_nat (length temp) <? 32 then Ok (rev temp) else Undef.

(** [-num] overflows for the least [long long]. *)
Definition negate (num : Z) : res Z := if num =? - 2 ^ 63 then Undef else Ok (- num).

Definition format_int (num base : Z) (sign : bool) : res (list Z) :=
  let* unum := (if sign && (num <? 0) then negate num else Ok (u64 num)) in
  let* temp := rev_digits digit_fuel 32 0 unum base in
  let* temp := (if sign && (num <? 0) then
                  if Z.of_nat (length temp) <? 32 then Ok (temp ++ [chr "-"]) else Undef
                else Ok temp) in
  if Z.of_nat (length temp) <? 32 then Ok (rev temp) else Undef.

(** ** vsnprintf *)

(** The conversions of the [switch]; the flag is [true] for a 64-bit
    argument ([%ld], [%lld] and so on). *)
Inductive conv :=
| ConvInt (long : bool)
| ConvUint (long : bool)
| ConvHex (long : bool)
| ConvPtr
| ConvStr
| ConvChar
| ConvPercent
| ConvNone.

(** The inner [switch] after [%l] and [%ll]: [c] is the character there. *)
Definition long_conv (c : Z) : conv :=
  if c =? "d"%char then ConvInt true
  else if c =? "u"%char then ConvUint true
  else if c =? "x"%char then ConvHex true
  else ConvNone.

(** What follows a [%]: the conversion and the format after it.  At the end
    of the format the final [fmt++] steps over the NUL. *)
Definition parse_conv (fmt : list Z) : res (conv * list Z) :=
  match fmt with
  | [] => Undef
  | c :: fmt =>
      if c =? "d"%char then Ok (ConvInt false, fmt)
      else if c =? "u"%char then Ok (ConvUint false, fmt)
      else if c =? "x"%char then Ok (ConvHex false, fmt)
      else if c =? "p"%char then Ok (ConvPtr, fmt)
      else if c =? "s"%char then Ok (ConvStr, fmt)
      else if c =? "c"%char then Ok (ConvChar, fmt)
      else if c =? "%"%char then Ok (ConvPercent, fmt)
      else if c =? "l"%char then
        match fmt with
        | [] => Undef
        | c :: fmt =>
            if c =? "l"%char then
              match fmt with
              | [] => Undef
              | c :: fmt => Ok (long_conv c, fmt)
              end
            else Ok (long_conv c, fmt)
        end
      else Ok (ConvNone, fmt)
  end.

(** The write position, [total_len] and the memory. *)
Record sink := mk_sink { pos : Z; total : Z; smem : memory }.

(** [total_len += n]. *)
Definition count (n : Z) (k : sink) : res sink :=
  if int_ok (total k + n) then Ok (mk_sink (pos k) (total k + n) (smem k)) else Undef.

(** [if (p < end - 1) *p++ = c]. *)
Definition put (end_ c : Z) (k : sink) : res sink :=
  if pos k <? end_ - 1 then
    let* m := store (pos k) (u8 c) (smem k) in
    Ok (mk_sink (pos k + 1) (total k) m)
  else Ok k.

Fixpoint puts (end_ : Z) (s : list Z) (k : sink) : res sink :=
  match s with
  | [] => Ok k
  | c :: s => let* k := put end_ c k in puts end_ s k
  end.

(** [total_len += len; while (len--) ...]. *)
Definition emit (end_ : Z) (s : list Z) (k : sink) : res sink :=
  let* k := count (Z.of_nat (length s)) k in
  puts end_ s k.

(** [do ptr_buf[len++] = digits[tmp >> 60]; tmp <<= 4; while (len < 16)]. *)
Fixpoint hex_digits (n : nat) (tmp : Z) : list Z :=
  match n with
  | O => []
  | S n => digit (Z.shiftr tmp 60) :: hex_digits n (u64 (Z.shiftl tmp 4))
  end.

(** [while ( *str ) { if (p < end - 1) *p++ = *str; total_len++; str++; }]. *)
Fixpoint put_str (end_ : Z) (s : list Z) (k : sink) : res sink :=
  match s with
  | [] => Ok k
  | c :: s => let* k := put end_ c k in let* k := count 1 k in put_str end_ s k
  end.

(** One case of the [switch]: takes the argument and emits it. *)
Definition convert (end_ : Z) (c : conv) (ap : list arg) (k : sink) : res (list arg * sink) :=
  match c with
  | ConvInt long =>
      let* (z, ap) := next_num ap in
      let* s := format_int (if long then i64 z else i32 z) 10 true in
      let* k := emit end_ s k in Ok (ap, k)
  | ConvUint long =>
      let* (z, ap) := next_num ap in
      let* s := format_uint (if long then u64 z else u32 z) 10 in
      let* k := emit end_ s k in Ok (ap, k)
  | ConvHex long =>
      let* (z, ap) := next_num ap in
      let* s := format_uint (if long then u64 z else u32 z) 16 in
      let* k := emit end_ s k in Ok (ap, k)
  | ConvPtr =>
      let* (z, ap) := next_num ap in
      let* k := put end_ "0"%char k in
      let* k := put end_ "x"%char k in
      let* k := count 2 k in
      let* k := emit end_ (hex_digits 16 (u64 z)) k in Ok (ap, k)
  | ConvStr =>
      let* (s, ap) := next_str ap in
      let* k := put_str end_ (default null_str s) k in Ok (ap, k)
  | ConvChar =>
      let* (z, ap) := next_num ap in
      let* k := put end_ (u8 z) k in
      let* k := count 1 k in Ok (ap, k)
  | ConvPercent =>
      let* k := put end_ "%"%char k in
      let* k := count 1 k in Ok (ap, k)
  | ConvNone => Ok (ap, k)
  end.

(** [while ( *fmt )]: each iteration takes at least one character. *)
Fixpoint vsnprintf_loop (fuel : nat) (end_ : Z) (fmt : list Z) (ap : list arg) (k : sink) : res sink :=
  match fuel with
  | O => NoFuel
  | S fuel =>
      match fmt with
      | [] => Ok k
      | c :: fmt =>
          if negb (c =? "%"%char) then
            let* k := put end_ c k in
            let* k := count 1 k in
            vsnprintf_loop fuel end_ fmt ap k
          else
            let* (cv, fmt) := parse_conv fmt in
            let* (ap, k) := convert end_ cv ap k in
            vsnprintf_loop fuel end_ fmt ap k
      end
  end.

Definition vsnprintf (buf size : Z) (fmt : list Z) (ap : list arg) (m : memory) : res (Z * memory) :=
  if size <? 0 then Ok (-1, m)
  else
    let* k := vsnprintf_loop (S (length fmt)) (buf + size) fmt ap (mk_sink buf 0 m) in
    let* m := (if 0 <? size then store (pos k) 0 (smem k) else Ok (smem k)) in
    Ok (total k, m).

Definition snprintf (buf size : Z) (fmt : list Z) (ap : list arg) (m : memory) : res (Z * memory) :=
  vsnprintf buf size fmt ap m.

(** ** int_to_str, uint64_to_hex_str and uint32_to_hex_str *)

(** [while (temp > 0) { temp /= base; i++; }]. *)
Fixpoint count_digits (fuel : nat) (base temp i : Z) : res Z :=
  match fuel with
  | O => NoFuel
  | S fuel => if 0 <? temp then count_digits fuel base (temp / base) (i + 1) else Ok i
  end.

(** [while (temp > 0) { s[i] = digit(temp % base); temp /= base; i--; }]. *)
Fixpoint write_digits (fuel : nat) (base s temp i : Z) (m : memory) : res memory :=
  match fuel with
  | O => NoFuel
  | S fuel =>
      if 0 <? temp then
        let* m := store (s + i) (digit (temp mod base)) m in
        write_digits fuel base s (temp / base) (i - 1) m
      else Ok m
  end.

Definition num_to_str (base num s : Z) (m : memory) : res memory :=
  if num =? 0 then
    let* m := store s "0"%char m in
    store (s + 1) 0 m
  else
    let* i := count_digits 65 base num 0 in
    let* m := store (s + i) 0 m in
    write_digits 65 base s num (i - 1) m.

Definition int_to_str (num s : Z) (m : memory) : res memory := num_to_str 10 num s m.
Definition uint64_to_hex_str (num s : Z) (m : memory) : res memory := num_to_str 16 num s m.
Definition uint32_to_hex_str (num s : Z) (m : memory) : res memory := num_to_str 16 num s m.

(** ** printf: output on the console *)

Record pr := mk_pr { pr_lock : bool; locking : bool }.

Definition printint (xx base : Z) (sign : bool) : res (list Z) :=
  let neg := sign && (xx <? 0) in
  let* x := (if neg then negate xx else Ok (u64 xx)) in
  let* buf := rev_digits digit_fuel 16 0 x base in
  let* buf := (if neg then
                 if Z.of_nat (length buf) <? 16 then Ok (buf ++ [chr "-"]) else Undef
               else Ok buf) in
  Ok (rev buf).

Definition printptr (x : Z) : list Z := chr "0" :: chr "x" :: hex_digits 16 x.

(** The cases of [printf]: signed, unsigned of a base, pointer, string, the
    percent sign, the end of the format and an unknown character. *)
Inductive pconv :=
| PInt (long : bool)
| PUint (base : Z) (long : bool)
| PPtr
| PStr
| PPercent
| PEnd
| PUnknown (c0 : Z).

Definition hd0 (s : list Z) : Z := default 0 (head s).

Definition printf_conv (fmt : list Z) : pconv * list Z :=
  match fmt with
  | [] => (PEnd, [])
  | c0 :: rest =>
      let c1 := hd0 rest in
      let c2 := hd0 (tail rest) in
      if c0 =? "d"%char then (PInt false, rest)
      else if (c0 =? "l"%char) && (c1 =? "d"%char) then (PInt true, tail rest)
      else if (c0 =? "l"%char) && (c1 =? "l"%char) && (c2 =? "d"%char) then (PInt true, tail (tail rest))
      else if c0 =? "u"%char then (PUint 10 false, rest)
      else if (c0 =? "l"%char) && (c1 =? "u"%char) then (PUint 10 true, tail rest)
      else if (c0 =? "l"%char) && (c1 =? "l"%char) && (c2 =? "u"%char) then (PUint 10 true, tail (tail rest))
      else if c0 =? "x"%char then (PUint 16 false, rest)
      else if c0 =? "o"%char then (PUint 8 false, rest)
      else if (c0 =? "l"%char) && (c1 =? "x"%char) then (PUint 16 true, tail rest)
      else if (c0 =? "l"%char) && (c1 =? "l"%char) && (c2 =? "x"%char) then (PUint 16 true, tail (tail rest))
      else if c0 =? "p"%char then (PPtr, rest)
      else if c0 =? "s"%char then (PStr, rest)
      else if c0 =? "%"%char then (PPercent, rest)
      else (PUnknown c0, rest)
  end.

(** The characters of one conversion. *)
Definition printf_arg (c : pconv) (ap : list arg) : res (list Z * list arg) :=
  match c with
  | PInt long =>
      let* (z, ap) := next_num ap in
      let* s := printint (if long then i64 (u64 z) else i32 z) 10 true in Ok (s, ap)
  | PUint base long =>
      let* (z, ap) := next_num ap in
      let* s := printint (if long then i64 (u64 z) else u32 z) base false in Ok (s, ap)
  | PPtr => let* (z, ap) := next_num ap in Ok (printptr (u64 z), ap)
  | PStr => let* (s, ap) := next_str ap in Ok (default null_str s, ap)
  | PPercent => Ok ([chr "%"], ap)
  | PEnd => Ok ([chr "%"], ap)
  | PUnknown c0 => Ok ([chr "%"; c0], ap)
  end.

Fixpoint printf_loop (fuel : nat) (fmt : list Z) (ap : list arg) : res (list Z) :=
  match fuel with
  | O => NoFuel
  | S fuel =>
      match fmt with
      | [] => Ok []
      | cx :: fmt =>
          if negb (cx =? "%"%char) then
            let* out := printf_loop fuel fmt ap in Ok (cx :: out)
          else
            let '(c, fmt) := printf_conv fmt in
            let* (s, ap) := printf_arg c ap in
            let* out := printf_loop fuel fmt ap in
            Ok (s ++ out)
      end
  end.

Definition printf (fmt : list Z) (ap : list arg) (p : pr) : res (list Z * pr) :=
  let use := locking p in
  let* p := (if use then if pr_lock p then Panic "acquire" else Ok (mk_pr true (locking p)) else Ok p) in
  let* out := printf_loop (S (length fmt)) fmt ap in
  let* p := (if use then if pr_lock p then Ok (mk_pr false (locking p)) else Panic "release" else Ok p) in
  Ok (out, p).

(** ** sscanf *)

Inductive scanned := SInt (z : Z) | SChar (c : Z) | SStr (s : list Z).

Definition blank (c : Z) : bool := (c =? " "%char) || (c =? 9) || (c =? 10).
Fixpoint skip_blank (s : list Z) : list Z :=
  match s with [] => [] | c :: r => if blank c then skip_blank r else s end.

(** The sign in front of a number. *)
Definition scan_sign (s : list Z) : Z * list Z :=
  match s with
  | c :: r => if c =? "-"%char then (-1, r) else if c =? "+"%char then (1, r) else (1, s)
  | [] => (1, s)
  end.

Definition dec_digit (c : Z) : option Z := if (48 <=? c) && (c <=? 57) then Some (c - 48) else None.
Definition hex_digit (c : Z) : option Z :=
  if (48 <=? c) && (c <=? 57) then Some (c - 48)
  else if (97 <=? c) && (c <=? 102) then Some (c - 97 + 10)
  else if (65 <=? c) && (c <=? 70) then Some (c - 65 + 10)
  else None.

(** [*int_ptr = *int_ptr * base + digit] while there are digits. *)
Fixpoint scan_digits (base : Z) (dig : Z → option Z) (acc : Z) (s : list Z) : res (Z * list Z) :=
  match s with
  | [] => Ok (acc, [])
  | c :: r =>
      match dig c with
      | Some d => if int_ok (acc * base + d) then scan_digits base dig (acc * base + d) r else Undef
      | None => Ok (acc, s)
      end
  end.

(** A number: [None] when there is no digit. *)
Definition scan_num (base : Z) (dig : Z → option Z) (s : list Z) : res (option (Z * list Z)) :=
  match s with
  | c :: _ =>
      match dig c with
      | Some _ => let* (v, s) := scan_digits base dig 0 s in Ok (Some (v, s))
      | None => Ok None
      end
  | [] => Ok None
  end.

(** The prefix [0x] or [0X]. *)
Definition skip_0x (s : list Z) : list Z :=
  match s with
  | c :: x :: r => if (c =? "0"%char) && ((x =? "x"%char) || (x =? "X"%char)) then r else s
  | _ => s
  end.

(** The characters up to the next blank. *)
Fixpoint scan_word (s : list Z) : list Z * list Z :=
  match s with
  | [] => ([], [])
  | c :: r => if blank c then ([], s) else let '(w, r) := scan_word r in (c :: w, r)
  end.

(** One conversion [c] on the input: [None] is [goto end]. *)
Definition scan_conv (c : Z) (s : list Z) : res (option (list scanned * list Z)) :=
  if c =? "d"%char then
    let '(sign, s) := scan_sign (skip_blank s) in
    let* r := scan_num 10 dec_digit s in
    match r with Some (v, s) => Ok (Some ([SInt (v * sign)], s)) | None => Ok None end
  else if (c =? "x"%char) || (c =? "X"%char) then
    let '(sign, s) := scan_sign (skip_blank s) in
    let* r := scan_num 16 hex_digit (skip_0x s) in
    match r with Some (v, s) => Ok (Some ([SInt (v * sign)], s)) | None => Ok None end
  else if c =? "c"%char then
    match s with x :: s => Ok (Some ([SChar x], s)) | [] => Undef end
  else if c =? "s"%char then
    match skip_blank s with
    | [] => Ok None
    | s => let '(w, s) := scan_word s in Ok (Some ([SStr w], s))
    end
  else if c =? "%"%char then
    match s with
    | x :: s => if x =? "%"%char then Ok (Some ([], s)) else Ok None
    | [] => Ok None
    end
  else Ok None.

(** [while ( *fmt && *str )]: the items assigned, in order; [count] is their
    number. *)
Fixpoint sscanf_loop (fuel : nat) (s fmt : list Z) : res (list scanned) :=
  match fuel with
  | O => NoFuel
  | S fuel =>
      match fmt, s with
      | [], _ => Ok []
      | _, [] => Ok []
      | f :: fmt', c :: s' =>
          if blank f then sscanf_loop fuel (skip_blank s) (skip_blank fmt)
          else if negb (f =? "%"%char) then
            if negb (f =? c) then Ok [] else sscanf_loop fuel s' fmt'
          else
            match fmt' with
            | [] => Ok []
            | d :: fmt'' =>
                let* r := scan_conv d s in
                match r with
                | Some (vs, s) => let* out := sscanf_loop fuel s fmt'' in Ok (vs ++ out)
                | None => Ok []
                end
            end
      end
  end.

Definition sscanf (s fmt : list Z) : res (Z * list scanned) :=
  let* out := sscanf_loop (S (length fmt)) s fmt in
  Ok (Z.of_nat (length out), out).

Example printf_example :
  printf (str "pid %d: %s %p%%") [ANum (2 ^ 32 - 7); AStr None; ANum 0x8020] (mk_pr false true)
  = Ok (str "pid -7: (null) 0x0000000000008020%", mk_pr false true).
Proof. vm_compute. reflexivity. Qed.
Example sscanf_example : sscanf (str " 12 -0x1f ab") (str "%d %x %s") = Ok (3, [SInt 12; SInt (-31); SStr (str "ab")]).
Proof. vm_compute. reflexivity. Qed.

End PrintDefs.
