(* ===== verification/Print.v ===== *)
(** * Lemmas on formatted output and input

    [numeral base n s]: [s] is the numeral of [n] without leading zeros.
    [renders fmt args out]: the reference meaning of a format string. *)

From Stdlib Require Import Ascii.
From S2P Require Import Prelude CStringDefs CString PrintDefs.
Import CStringDefs CString PrintDefs.

Module Print.

(** ** Numerals *)

Definition value (base : Z) (ds : list Z) : Z := foldl (λ r d, r * base + d) 0 ds.

Definition numeral (base n : Z) (s : list Z) : Prop :=
  ∃ ds, s = digit <$> ds ∧ ds ≠ [] ∧ Forall (λ d, 0 ≤ d < base) ds ∧ value base ds = n ∧
    (head ds = Some 0 → ds = [0]).

(** The signed decimal numeral of [n]. *)
Definition signed_numeral (n : Z) (s : list Z) : Prop :=
  if n <? 0 then ∃ t, s = chr "-" :: t ∧ numeral 10 (- n) t else numeral 10 n s.

Lemma value_snoc base ds d : value base (ds ++ [d]) = value base ds * base + d.
Proof. unfold value. by rewrite foldl_app. Qed.

Lemma foldl_acc base ds r :
  foldl (λ r d, r * base + d) r ds = r * base ^ Z.of_nat (length ds) + value base ds.
Proof.
  revert r; induction ds as [|d ds IH]; intros r; unfold value; cbn [foldl length]; [cbn; lia|].
  rewrite IH, (IH (0 * base + d)), Nat2Z.inj_succ, Z.pow_succ_r by lia. nia.
Qed.

Lemma value_cons base d ds : value base (d :: ds) = d * base ^ Z.of_nat (length ds) + value base ds.
Proof. unfold value at 1. cbn [foldl]. rewrite foldl_acc. nia. Qed.

Lemma value_bounds base ds :
  2 ≤ base → Forall (λ d, 0 ≤ d < base) ds → 0 ≤ value base ds < base ^ Z.of_nat (length ds).
Proof.
  intros Hb. induction ds as [|d ds IH]; intros Hd; [cbn; lia|].
  apply Forall_cons in Hd as [Hd Hds]. specialize (IH Hds). rewrite value_cons.
  cbn [length]. rewrite Nat2Z.inj_succ, Z.pow_succ_r by lia. nia.
Qed.

(** A numeral of a number below [base^k] has at most [k] digits. *)
Lemma numeral_length base n s k :
  2 ≤ base → numeral base n s → n < base ^ Z.of_nat k → (0 < k)%nat → (length s ≤ k)%nat.
Proof.
  intros Hb (ds & -> & Hne & Hd & <- & Hz) Hn Hk. rewrite length_fmap. destruct ds as [|d ds]; [done|].
  cbn [length]. apply Forall_cons in Hd as [Hd Hds].
  destruct (decide (d = 0)) as [->|Hd0]; [injection (Hz eq_refl) as ->; cbn; lia|].
  pose proof (value_bounds base ds Hb Hds) as Hv. rewrite value_cons in Hn.
  destruct (le_lt_dec (S (length ds)) k) as [|Hlt]; [done|]. exfalso.
  assert (base ^ Z.of_nat k ≤ base ^ Z.of_nat (length ds)) by (apply Z.pow_le_mono_r; lia). nia.
Qed.

Lemma value_inj base ds ds' :
  2 ≤ base → length ds = length ds' → Forall (λ d, 0 ≤ d < base) ds → Forall (λ d, 0 ≤ d < base) ds' →
  value base ds = value base ds' → ds = ds'.
Proof.
  intros Hb. revert ds'; induction ds as [|d ds IH]; intros [|d' ds'] Hl Hd Hd' Hv; try done.
  apply Forall_cons in Hd as [Hd Hds]. apply Forall_cons in Hd' as [Hd' Hds'].
  rewrite !value_cons in Hv. injection Hl as Hl. rewrite <-Hl in Hv.
  pose proof (value_bounds base ds Hb Hds). pose proof (value_bounds base ds' Hb Hds') as Hv'. rewrite <-Hl in Hv'.
  assert (d = d') as <- by nia. f_equal. apply IH; [done|done|done|lia].
Qed.

Lemma numeral_unique base n s s' : 2 ≤ base → numeral base n s → numeral base n s' → s = s'.
Proof.
  intros Hb Hs Hs'.
  assert (Hle : ∀ s s', numeral base n s → numeral base n s' → (length s' ≤ length s)%nat).
  { clear s s' Hs Hs'. intros s s' (ds & -> & Hne & Hd & <- & _) Hs'. rewrite length_fmap.
    apply (numeral_length base _ _ _ Hb Hs'); [by apply value_bounds|destruct ds; [done|cbn; lia]]. }
  pose proof (Hle s s' Hs Hs') as H1. pose proof (Hle s' s Hs' Hs) as H2.
  destruct Hs as (ds & -> & _ & Hd & Hv & _), Hs' as (ds' & -> & _ & Hd' & Hv' & _).
  rewrite !length_fmap in H1, H2. f_equal. apply (value_inj base); try done; [lia|congruence].
Qed.

Lemma signed_numeral_unique n s s' : signed_numeral n s → signed_numeral n s' → s = s'.
Proof.
  unfold signed_numeral. destruct (n <? 0); [|by apply numeral_unique].
  intros (t & -> & Ht) (t' & -> & Ht'). f_equal. by apply (numeral_unique 10 (- n)).
Qed.

(** The fixed-width digits of [%p]. *)
Lemma hex_digits_spec n x :
  (n ≤ 16)%nat → 0 ≤ x < 2 ^ 64 →
  ∃ ds, hex_digits n x = digit <$> ds ∧ length ds = n ∧ Forall (λ d, 0 ≤ d < 16) ds ∧
    value 16 ds = x / 2 ^ (64 - 4 * Z.of_nat n).
Proof.
  revert x; induction n as [|n IH]; intros x Hn Hx.
  { exists []. split_and!; try done. cbn. symmetry. apply Z.div_small. lia. }
  cbn [hex_digits]. rewrite Z.shiftr_div_pow2, Z.shiftl_mul_pow2 by lia.
  assert (Hu : u64 (x * 2 ^ 4) = x mod 2 ^ 60 * 2 ^ 4).
  { unfold u64. change (2 ^ 64) with (2 ^ 60 * 2 ^ 4). by rewrite Z.mul_mod_distr_r. }
  pose proof (Z.mod_pos_bound x (2 ^ 60) ltac:(lia)) as Hm. rewrite Hu.
  destruct (IH (x mod 2 ^ 60 * 2 ^ 4)) as (ds & -> & Hl & Hd & Hv); [lia|lia|].
  exists (x / 2 ^ 60 :: ds). split_and!; [done|cbn; lia| |].
  { constructor; [|done]. split; [apply Z.div_pos; lia|apply Z.div_lt_upper_bound; lia]. }
  rewrite value_cons, Hl, Hv. set (K := 2 ^ (64 - 4 * Z.of_nat (S n))).
  assert (HK : 0 < K) by (apply Z.pow_pos_nonneg; lia).
  replace (2 ^ (64 - 4 * Z.of_nat n)) with (K * 2 ^ 4).
  2:{ unfold K. rewrite <-Z.pow_add_r by lia. f_equal. lia. }
  rewrite Z.div_mul_cancel_r by lia.
  assert (H60 : 2 ^ 60 = 16 ^ Z.of_nat n * K).
  { unfold K. change 16 with (2 ^ 4). rewrite <-Z.pow_mul_r, <-Z.pow_add_r by lia. f_equal. lia. }
  rewrite (Z.div_mod x (2 ^ 60)) at 3 by lia.
  rewrite H60 at 3. rewrite <-Z.mul_assoc, (Z.mul_comm K), Z.mul_assoc, Z.div_add_l by lia. lia.
Qed.

Lemma numeral_digit base r : 0 ≤ r < base → numeral base r [digit r].
Proof.
  intros Hr. exists [r]. split_and!; [done|done|by apply Forall_singleton|cbn; lia|by cbn; intros [= ->]].
Qed.

Lemma numeral_snoc base q r s :
  0 < q → 0 ≤ r < base → numeral base q s → numeral base (base * q + r) (s ++ [digit r]).
Proof.
  intros Hq Hr (ds & -> & Hne & Hd & Hv & Hz). exists (ds ++ [r]). split_and!.
  - by rewrite fmap_app.
  - by destruct ds.
  - apply Forall_app; split; [done|by apply Forall_singleton].
  - rewrite value_snoc. lia.
  - destruct ds as [|d ds]; [done|]. cbn. intros [= ->]. rewrite (Hz eq_refl) in Hv. cbn in Hv. lia.
Qed.

Lemma quotient_bounds base num k :
  2 ≤ base → 0 ≤ num < base ^ Z.of_nat (S k) → 0 ≤ num / base < base ^ Z.of_nat k.
Proof.
  intros Hb Hn. rewrite Nat2Z.inj_succ, Z.pow_succ_r in Hn by lia.
  split; [apply Z.div_pos; lia|apply Z.div_lt_upper_bound; lia].
Qed.

(** The digit loop of [format_uint], [format_int] and [printint]. *)
Lemma rev_digits_spec fuel cap i num base :
  2 ≤ base → 0 ≤ num < base ^ Z.of_nat fuel → (0 < fuel)%nat →
  ∃ s, numeral base num s ∧
    rev_digits fuel cap i num base =
      if decide (i + Z.of_nat (length s) ≤ cap) then Ok (rev s) else Undef.
Proof.
  intros Hb. revert i num; induction fuel as [|fuel IH]; intros i num Hn Hf; [lia|]. cbn [rev_digits].
  pose proof (Z.mod_pos_bound num base ltac:(lia)) as Hm.
  pose proof (Z.div_mod num base ltac:(lia)) as Hdm.
  pose proof (quotient_bounds base num fuel Hb Hn) as Hn'.
  destruct (0 <? num / base) eqn:Hq; [apply Z.ltb_lt in Hq|apply Z.ltb_ge in Hq].
  - destruct (IH (i + 1) (num / base)) as (s & Hs & Hr); [done|destruct fuel; [cbn in Hn'; lia|lia]|].
    exists (s ++ [digit (num mod base)]). split; [rewrite Hdm at 1; by apply numeral_snoc|].
    rewrite Hr, length_app, rev_app_distr. cbn [length rev app].
    destruct (i <? cap) eqn:Hic; [apply Z.ltb_lt in Hic|apply Z.ltb_ge in Hic; rewrite decide_False; [done|lia]].
    destruct (decide _) as [H1|H1], (decide _) as [H2|H2]; cbn [bind]; try done; lia.
  - exists [digit (num mod base)]. split; [replace num with (num mod base) at 1 by nia; by apply numeral_digit|].
    cbn [length rev app]. destruct (i <? cap) eqn:Hic.
    + apply Z.ltb_lt in Hic. rewrite decide_True; [done|lia].
    + apply Z.ltb_ge in Hic. rewrite decide_False; [done|lia].
Qed.

Lemma digit_byte d : 0 ≤ d < 16 → 0 < digit d < 256.
Proof. intros H. unfold digit. destruct (d <? 10) eqn:E; [apply Z.ltb_lt in E|apply Z.ltb_ge in E]; lia. Qed.

(** Printable: the characters of rendered output are non-zero bytes. *)
Definition bytes (s : list Z) : Prop := Forall (λ c, 0 < c < 256) s.

Lemma numeral_bytes base n s : base ≤ 16 → numeral base n s → bytes s.
Proof.
  intros Hb (ds & -> & _ & Hd & _). apply Forall_fmap. eapply Forall_impl; [exact Hd|].
  intros d Hd'. cbn beta in Hd'. apply digit_byte. lia.
Qed.

Lemma pow_digit_fuel base : 2 ≤ base → 2 ^ 64 ≤ base ^ Z.of_nat digit_fuel.
Proof. intros. change (Z.of_nat digit_fuel) with 64. apply Z.pow_le_mono_l. lia. Qed.

Lemma format_uint_spec num base :
  base = 10 ∨ base = 16 → 0 ≤ num < 2 ^ 64 → ∃ s, format_uint num base = Ok s ∧ numeral base num s.
Proof.
  intros Hb Hn. unfold format_uint. pose proof (pow_digit_fuel base ltac:(lia)).
  destruct (rev_digits_spec digit_fuel 32 0 num base) as (s & Hs & ->); [lia|lia|unfold digit_fuel; lia|].
  assert (length s ≤ 20)%nat as Hl.
  { apply (numeral_length base num); [lia|done| |lia].
    destruct Hb as [-> | ->]; [|apply (Z.lt_le_trans _ (2 ^ 64))]; [| |vm_compute; discriminate]; [|lia].
    apply (Z.lt_le_trans _ (2 ^ 64)); [lia|vm_compute; discriminate]. }
  rewrite decide_True by lia. cbn [bind]. rewrite length_rev, (proj2 (Z.ltb_lt _ _)) by lia.
  rewrite rev_involutive. eauto.
Qed.

Lemma format_int_spec num :
  - 2 ^ 63 < num < 2 ^ 63 → ∃ s, format_int num 10 true = Ok s ∧ signed_numeral num s.
Proof.
  intros Hn. unfold format_int, signed_numeral. cbn [andb].
  pose proof (pow_digit_fuel 10 ltac:(lia)) as Hp. assert (0 < digit_fuel)%nat as Hf by (unfold digit_fuel; lia).
  assert (Hlen : ∀ n s, 0 ≤ n < 2 ^ 63 → numeral 10 n s → (length s ≤ 20)%nat).
  { intros n s Hb Hs. apply (numeral_length 10 n); [lia|done| |lia].
    apply (Z.lt_le_trans _ (2 ^ 63)); [lia|vm_compute; discriminate]. }
  destruct (num <? 0) eqn:Hneg; [apply Z.ltb_lt in Hneg|apply Z.ltb_ge in Hneg].
  - unfold negate. rewrite (proj2 (Z.eqb_neq _ _)) by lia. cbn [bind].
    destruct (rev_digits_spec digit_fuel 32 0 (- num) 10) as (s & Hs & ->); [lia|lia|done|].
    pose proof (Hlen (- num) s ltac:(lia) Hs). rewrite decide_True by lia. cbn [bind].
    rewrite length_rev, (proj2 (Z.ltb_lt _ _)) by lia. cbn [bind].
    rewrite length_app, length_rev, (proj2 (Z.ltb_lt _ _)) by (cbn; lia).
    rewrite rev_app_distr, rev_involutive. eauto.
  - cbn [bind]. rewrite u64_small by lia.
    destruct (rev_digits_spec digit_fuel 32 0 num 10) as (s & Hs & ->); [lia|lia|done|].
    pose proof (Hlen num s ltac:(lia) Hs). rewrite decide_True by lia. cbn [bind].
    rewrite length_rev, (proj2 (Z.ltb_lt _ _)), rev_involutive by lia. eauto.
Qed.

Lemma signed_numeral_bytes n s : signed_numeral n s → bytes s.
Proof.
  unfold signed_numeral. destruct (n <? 0); [intros (t & -> & H)|intros H].
  - constructor; [by vm_compute|]. by apply (numeral_bytes 10 (- n)).
  - by apply (numeral_bytes 10 n).
Qed.

(** ** The reference meaning of a format *)

Inductive renders : list Z → list arg → list Z → Prop :=
| R_end args : renders [] args []
| R_char c fmt args out :
    0 < c < 256 → c ≠ "%"%char → renders fmt args out → renders (c :: fmt) args (c :: out)
| R_int l fmt z args s out :
    l ∈ ["d"; "ld"; "lld"]%string →
    - 2 ^ 63 < (if decide (l = "d"%string) then i32 z else i64 z) →
    signed_numeral (if decide (l = "d"%string) then i32 z else i64 z) s →
    renders fmt args out → renders (str "%" ++ str l ++ fmt) (ANum z :: args) (s ++ out)
| R_uint l fmt z args s out :
    l ∈ ["u"; "lu"; "llu"]%string →
    numeral 10 (if decide (l = "u"%string) then u32 z else u64 z) s →
    renders fmt args out → renders (str "%" ++ str l ++ fmt) (ANum z :: args) (s ++ out)
| R_hex l fmt z args s out :
    l ∈ ["x"; "lx"; "llx"]%string →
    numeral 16 (if decide (l = "x"%string) then u32 z else u64 z) s →
    renders fmt args out → renders (str "%" ++ str l ++ fmt) (ANum z :: args) (s ++ out)
| R_ptr fmt z args ds out :
    length ds = 16%nat → Forall (λ d, 0 ≤ d < 16) ds → value 16 ds = u64 z →
    renders fmt args out →
    renders (str "%p" ++ fmt) (ANum z :: args) (str "0x" ++ (digit <$> ds) ++ out)
| R_str fmt s args out :
    bytes (default null_str s) → renders fmt args out →
    renders (str "%s" ++ fmt) (AStr s :: args) (default null_str s ++ out)
| R_chr fmt z args out :
    u8 z ≠ 0 → renders fmt args out → renders (str "%c" ++ fmt) (ANum z :: args) (u8 z :: out)
| R_percent fmt args out :
    renders fmt args out → renders (str "%%" ++ fmt) args (chr "%" :: out).

(** Rendered output has no NUL. *)
Lemma renders_bytes fmt args out : renders fmt args out → bytes out.
Proof.
  assert (H8 : ∀ z, u8 z ≠ 0 → 0 < u8 z < 256).
  { intros z Hz. unfold u8 in *. pose proof (Z.mod_pos_bound z (2 ^ 8) ltac:(lia)). lia. }
  induction 1; unfold bytes in *.
  - constructor.
  - by constructor.
  - apply Forall_app; split; [by eapply signed_numeral_bytes|done].
  - apply Forall_app; split; [by eapply (numeral_bytes 10)|done].
  - apply Forall_app; split; [by eapply (numeral_bytes 16)|done].
  - apply Forall_app; split; [repeat constructor|]. apply Forall_app; split; [|done].
    apply Forall_fmap. eapply Forall_impl; [eassumption|]. intros d Hd. by apply digit_byte.
  - by apply Forall_app.
  - constructor; auto.
  - constructor; [by vm_compute|done].
Qed.

(** ** The output buffer *)

Section sink.
Context (m0 : memory) (buf size : Z) (Hsize : 0 ≤ size).

(** After writing the characters [w], with [t] counted. *)
Definition sink_inv (w : list Z) (t : Z) (k : sink) : Prop :=
  pos k = buf + Z.min (Z.of_nat (length w)) (Z.max 0 (size - 1)) ∧ total k = t ∧
  bytes_of (smem k) buf (take (Z.to_nat (size - 1)) w) ∧
  same_outside m0 (smem k) buf (buf + size) ∧ live (smem k) buf size.

Lemma put_spec w t c k :
  sink_inv w t k → 0 ≤ c < 256 → ∃ k', put (buf + size) c k = Ok k' ∧ sink_inv (w ++ [c]) t k'.
Proof.
  intros (Hp & Ht & Hb & Ho & Hl) Hc. unfold put, sink_inv. rewrite length_app. cbn [length].
  destruct (pos k <? buf + size - 1) eqn:E; [apply Z.ltb_lt in E|apply Z.ltb_ge in E].
  - rewrite store_ok by (apply Hl; lia). cbn [bind].
    assert (u8 c = c) as -> by (apply Z.mod_small; lia).
    eexists; split; [done|]. cbn [pos total smem]. split_and!; [lia|done| | |].
    + rewrite take_ge in Hb by lia. rewrite take_ge by (rewrite length_app; cbn; lia).
      apply bytes_of_app. split.
      * apply (bytes_of_ext (smem k)); [|done]. intros a Ha. apply lookup_insert_ne. lia.
      * apply bytes_of_cons. split; [|intros i x Hi; done].
        replace (buf + Z.of_nat (length w)) with (pos k) by lia. apply lookup_insert_eq.
    + intros a Ha. rewrite lookup_insert_ne by lia. by apply Ho.
    + by apply live_store.
  - exists k. split; [done|]. split_and!; [lia|done| |done|done].
    by rewrite take_app_le by lia.
Qed.

Lemma count_spec w t n k :
  sink_inv w t k → 0 ≤ t → 0 ≤ n → t + n < 2 ^ 31 → ∃ k', count n k = Ok k' ∧ sink_inv w (t + n) k'.
Proof.
  intros (Hp & Ht & H) Ht0 Hn Hlt. unfold count, int_ok. rewrite Ht.
  rewrite (proj2 (Z.leb_le _ _)), (proj2 (Z.ltb_lt _ _)) by lia. by eexists.
Qed.

Lemma puts_spec s w t k :
  sink_inv w t k → bytes s → ∃ k', puts (buf + size) s k = Ok k' ∧ sink_inv (w ++ s) t k'.
Proof.
  revert w k; induction s as [|c s IH]; intros w k Hk Hs; cbn [puts]; [rewrite app_nil_r; eauto|].
  apply Forall_cons in Hs as [Hc Hs].
  destruct (put_spec w t c k Hk) as (k' & -> & Hk'); [lia|]. cbn [bind].
  destruct (IH _ k' Hk' Hs) as (k2 & -> & H2). exists k2. by rewrite cons_middle, app_assoc.
Qed.

Lemma emit_spec s w t k :
  sink_inv w t k → bytes s → 0 ≤ t → t + Z.of_nat (length s) < 2 ^ 31 →
  ∃ k', emit (buf + size) s k = Ok k' ∧ sink_inv (w ++ s) (t + Z.of_nat (length s)) k'.
Proof.
  intros Hk Hs Ht Hlt. unfold emit.
  destruct (count_spec w t (Z.of_nat (length s)) k Hk) as (k1 & -> & H1); [lia|lia|lia|].
  cbn [bind]. by apply puts_spec.
Qed.

Lemma put1_spec c w t k :
  sink_inv w t k → 0 ≤ c < 256 → 0 ≤ t → t + 1 < 2 ^ 31 →
  ∃ k', (let* k := put (buf + size) c k in count 1 k) = Ok k' ∧ sink_inv (w ++ [c]) (t + 1) k'.
Proof.
  intros Hk Hc Ht Hlt. destruct (put_spec w t c k Hk Hc) as (k1 & -> & H1). cbn [bind].
  by apply count_spec.
Qed.

Lemma put_str_spec s w t k :
  sink_inv w t k → bytes s → 0 ≤ t → t + Z.of_nat (length s) < 2 ^ 31 →
  ∃ k', put_str (buf + size) s k = Ok k' ∧ sink_inv (w ++ s) (t + Z.of_nat (length s)) k'.
Proof.
  revert w t k; induction s as [|c s IH]; intros w t k Hk Hs Ht Hlt; cbn [put_str length].
  { rewrite app_nil_r, Z.add_0_r. eauto. }
  apply Forall_cons in Hs as [Hc Hs]. cbn [length] in Hlt.
  destruct (put_spec w t c k Hk) as (k1 & -> & H1); [lia|]. cbn [bind].
  destruct (count_spec _ t 1 k1 H1) as (k2 & -> & H2); [lia|lia|lia|]. cbn [bind].
  destruct (IH _ _ k2 H2 Hs) as (k3 & -> & H3); [lia|lia|]. exists k3. split; [done|].
  rewrite cons_middle, app_assoc. by replace (t + Z.of_nat (S (length s))) with (t + 1 + Z.of_nat (length s)) by lia.
Qed.
End sink.

(** The format loop: with the characters [w] written and counted so far. *)
Lemma parse_int l fmt : l ∈ ["d"; "ld"; "lld"]%string →
  parse_conv (str l ++ fmt) = Ok (ConvInt (negb (bool_decide (l = "d"%string))), fmt).
Proof. rewrite !elem_of_cons, elem_of_nil. by intros [-> | [-> | [-> | []]]]. Qed.
Lemma parse_uint l fmt : l ∈ ["u"; "lu"; "llu"]%string →
  parse_conv (str l ++ fmt) = Ok (ConvUint (negb (bool_decide (l = "u"%string))), fmt).
Proof. rewrite !elem_of_cons, elem_of_nil. by intros [-> | [-> | [-> | []]]]. Qed.
Lemma parse_hex l fmt : l ∈ ["x"; "lx"; "llx"]%string →
  parse_conv (str l ++ fmt) = Ok (ConvHex (negb (bool_decide (l = "x"%string))), fmt).
Proof. rewrite !elem_of_cons, elem_of_nil. by intros [-> | [-> | [-> | []]]]. Qed.

Lemma if_negb_decide {A} (P : Prop) `{Decision P} (x y : A) :
  (if negb (bool_decide P) then x else y) = (if decide P then y else x).
Proof. by case_bool_decide; [rewrite decide_True|rewrite decide_False]. Qed.

Lemma i32_range z : - 2 ^ 31 ≤ i32 z < 2 ^ 31.
Proof. unfold i32. pose proof (Z.mod_pos_bound (z + 2 ^ 31) (2 ^ 32) ltac:(lia)). lia. Qed.
Lemma i64_range z : - 2 ^ 63 ≤ i64 z < 2 ^ 63.
Proof. unfold i64. pose proof (Z.mod_pos_bound (z + 2 ^ 63) (2 ^ 64) ltac:(lia)). lia. Qed.

Section loop.
Context (m0 : memory) (buf size : Z) (Hsize : 0 ≤ size).
Abbreviation inv := (sink_inv m0 buf size).
Abbreviation len s := (Z.of_nat (length s)).

(** A conversion that emits [s]. *)
Definition converts (cv : conv) (args : list arg) (s : list Z) (args' : list arg) : Prop :=
  ∀ w k, inv w (len w) k → len w + len s < 2 ^ 31 →
    ∃ k', convert (buf + size) cv args k = Ok (args', k') ∧ inv (w ++ s) (len (w ++ s)) k'.

Lemma converts_num cv z args s f :
  (∀ ap k, convert (buf + size) cv (ANum z :: ap) k =
     (let* s := f in let* k := emit (buf + size) s k in Ok (ap, k))) →
  f = Ok s → bytes s → converts cv (ANum z :: args) s args.
Proof.
  intros Hc -> Hs w k Hk Hlt. rewrite Hc. cbn [bind].
  destruct (emit_spec m0 buf size s w (len w) k Hk Hs) as (k' & -> & Hk'); [lia|lia|].
  exists k'. by rewrite length_app, Nat2Z.inj_add.
Qed.

Lemma converts_int (long : bool) z args s :
  - 2 ^ 63 < (if long then i64 z else i32 z) → signed_numeral (if long then i64 z else i32 z) s →
  converts (ConvInt long) (ANum z :: args) s args.
Proof.
  intros Hr Hs. pose proof (i32_range z). pose proof (i64_range z).
  destruct (format_int_spec (if long then i64 z else i32 z)) as (s' & Hf & Hs').
  { destruct long; lia. }
  rewrite (signed_numeral_unique _ s s' Hs Hs') in *.
  eapply converts_num; [|exact Hf|by eapply signed_numeral_bytes]. done.
Qed.

Lemma converts_uint cv base (long : bool) z args s :
  (cv, base) ∈ [(ConvUint long, 10); (ConvHex long, 16)] → numeral base (if long then u64 z else u32 z) s →
  converts cv (ANum z :: args) s args.
Proof.
  intros Hcv Hs. pose proof (u32_range z). pose proof (u64_range z).
  assert (Hb : (base = 10 ∧ cv = ConvUint long) ∨ (base = 16 ∧ cv = ConvHex long)) by set_solver.
  destruct (format_uint_spec (if long then u64 z else u32 z) base) as (s' & Hf & Hs').
  { lia. } { destruct long; lia. }
  rewrite (numeral_unique base _ s s' ltac:(lia) Hs Hs') in *.
  eapply converts_num; [|exact Hf|eapply (numeral_bytes base); [lia|done]].
  by destruct Hb as [[-> ->] | [-> ->]].
Qed.

Lemma converts_ptr z args ds :
  length ds = 16%nat → Forall (λ d, 0 ≤ d < 16) ds → value 16 ds = u64 z →
  converts ConvPtr (ANum z :: args) (str "0x" ++ (digit <$> ds)) args.
Proof.
  intros Hl Hd Hv w k Hk Hlt. rewrite length_app, length_fmap in Hlt. change (length (str "0x")) with 2%nat in Hlt.
  destruct (hex_digits_spec 16 (u64 z)) as (ds' & Hds' & Hl' & Hd' & Hv'); [lia|apply u64_range|].
  cbn in Hv'. rewrite Z.div_1_r in Hv'.
  rewrite (value_inj 16 ds ds') in * by (try done; congruence).
  cbn [convert next_num bind].
  destruct (put_spec m0 buf size w _ "0"%char k Hk) as (k1 & -> & H1); [by vm_compute|]. cbn [bind].
  destruct (put_spec m0 buf size _ _ "x"%char k1 H1) as (k2 & -> & H2); [by vm_compute|]. cbn [bind].
  destruct (count_spec m0 buf size _ _ 2 k2 H2) as (k3 & -> & H3); [lia|lia|lia|]. cbn [bind].
  rewrite Hds'. destruct (emit_spec m0 buf size (digit <$> ds') _ _ k3 H3) as (k4 & -> & H4).
  - apply Forall_fmap. eapply Forall_impl; [exact Hd'|]. intros d Hdd. by apply digit_byte.
  - lia.
  - rewrite length_fmap. lia.
  - exists k4. split; [done|]. rewrite <-!app_assoc in H4. cbn [app] in H4.
    change (str "0x" ++ ?l) with (chr "0" :: chr "x" :: l).
    rewrite length_app. cbn [length]. by replace (Z.of_nat (length w + S (S (length (digit <$> ds')))))
      with (len w + 2 + len (digit <$> ds')) by lia.
Qed.

Lemma converts_str s args :
  bytes (default null_str s) → converts ConvStr (AStr s :: args) (default null_str s) args.
Proof.
  intros Hs w k Hk Hlt. cbn [convert next_str bind].
  destruct (put_str_spec m0 buf size (default null_str s) w _ k Hk Hs) as (k' & -> & H'); [lia|lia|].
  exists k'. by rewrite length_app, Nat2Z.inj_add.
Qed.

Lemma converts_one cv c args args' :
  0 < c < 256 →
  (∀ k, convert (buf + size) cv args k =
     (let* k := (let* k := put (buf + size) c k in count 1 k) in Ok (args', k))) →
  converts cv args [c] args'.
Proof.
  intros Hc Hcv w k Hk Hlt. rewrite Hcv. cbn in Hlt.
  destruct (put1_spec m0 buf size c w _ k Hk) as (k' & -> & H'); [lia|lia|lia|].
  exists k'. by rewrite length_app, Nat2Z.inj_add.
Qed.

(** The loop from the format [fmt] on. *)
Definition loop_ok (fmt : list Z) (args : list arg) (out : list Z) : Prop :=
  ∀ fuel w k, (length fmt < fuel)%nat → inv w (len w) k → len w + len out < 2 ^ 31 →
    ∃ k', vsnprintf_loop fuel (buf + size) fmt args k = Ok k' ∧ inv (w ++ out) (len (w ++ out)) k'.

Lemma loop_conv fmt0 cv fmt args s args' out :
  parse_conv fmt0 = Ok (cv, fmt) → (length fmt ≤ length fmt0)%nat →
  converts cv args s args' → loop_ok fmt args' out → loop_ok (chr "%" :: fmt0) args (s ++ out).
Proof.
  intros Hp Hlen Hc IH fuel w k Hf Hk Hlt. destruct fuel as [|fuel]; [lia|]. cbn [vsnprintf_loop].
  rewrite Z.eqb_refl. cbn [negb]. rewrite Hp. cbn [bind]. rewrite length_app in Hlt.
  destruct (Hc w k Hk) as (k1 & -> & H1); [lia|]. cbn [bind].
  destruct (IH fuel (w ++ s) k1) as (k2 & -> & H2); [cbn in Hf; lia|exact H1|rewrite length_app; lia|].
  exists k2. by rewrite app_assoc.
Qed.

Lemma renders_loop fmt args out : renders fmt args out → loop_ok fmt args out.
Proof.
  induction 1 as [args|c fmt args out Hc Hne _ IH|l fmt z args s out Hl Hr Hs _ IH|l fmt z args s out Hl Hs _ IH
    |l fmt z args s out Hl Hs _ IH|fmt z args ds out Hl Hd Hv _ IH|fmt s args out Hs _ IH|fmt z args out Hz _ IH
    |fmt args out _ IH].
  - intros [|fuel] w k Hf Hk _; [lia|]. exists k. by rewrite app_nil_r.
  - intros [|fuel] w k Hf Hk Hlt; [lia|]. cbn [vsnprintf_loop length] in *.
    rewrite (proj2 (Z.eqb_neq _ _) Hne). cbn [negb].
    destruct (put1_spec m0 buf size c w _ k Hk) as (k1 & H1e & H1); [lia|lia|lia|].
    apply bind_Ok in H1e as (k0 & -> & H1e). cbn [bind]. rewrite H1e. cbn [bind].
    destruct (IH fuel (w ++ [c]) k1) as (k2 & -> & H2); [lia| | |].
    + by rewrite length_app, Nat2Z.inj_add.
    + rewrite length_app. cbn. lia.
    + exists k2. by rewrite cons_middle, app_assoc.
  - eapply loop_conv; [by apply parse_int|rewrite length_app; lia| |exact IH].
    apply converts_int; by rewrite if_negb_decide.
  - eapply loop_conv; [by apply parse_uint|rewrite length_app; lia| |exact IH].
    eapply (converts_uint _ 10); [left|]. by rewrite if_negb_decide.
  - eapply loop_conv; [by apply parse_hex|rewrite length_app; lia| |exact IH].
    eapply (converts_uint _ 16); [right; left|]. by rewrite if_negb_decide.
  - rewrite app_assoc. eapply (loop_conv (chr "p" :: fmt)); [done|cbn; lia| |exact IH]. by apply converts_ptr.
  - eapply (loop_conv (chr "s" :: fmt)); [done|cbn; lia| |exact IH]. by apply converts_str.
  - eapply (loop_conv (chr "c" :: fmt) _ _ _ [u8 z]); [done|cbn; lia| |exact IH].
    apply converts_one; [pose proof (Z.mod_pos_bound z (2 ^ 8) ltac:(lia)); unfold u8 in *; lia|].
    intros k. cbn [convert next_num bind]. by destruct (put _ _ k).
  - eapply (loop_conv (chr "%" :: fmt) _ _ _ [chr "%"]); [done|cbn; lia| |exact IH].
    apply converts_one; [by vm_compute|]. intros k. cbn [convert bind]. by destruct (put _ _ k).
Qed.
End loop.

(** ** Scanning what was printed *)

Lemma dec_digit_digit d : 0 ≤ d < 10 → dec_digit (digit d) = Some d.
Proof.
  intros H. unfold digit. rewrite (proj2 (Z.ltb_lt _ _)) by lia. unfold dec_digit.
  rewrite (proj2 (Z.leb_le _ _)), (proj2 (Z.leb_le _ _)) by lia. cbn [andb]. f_equal. lia.
Qed.

Lemma scan_digits_spec ds acc rest :
  Forall (λ d, 0 ≤ d < 10) ds → 0 ≤ acc → foldl (λ r d, r * 10 + d) acc ds < 2 ^ 31 →
  dec_digit (hd0 rest) = None →
  scan_digits 10 dec_digit acc ((digit <$> ds) ++ rest) = Ok (foldl (λ r d, r * 10 + d) acc ds, rest).
Proof.
  revert acc; induction ds as [|d ds IH]; intros acc Hd Ha Hlt Hr; cbn [fmap list_fmap app foldl scan_digits].
  - destruct rest as [|c rest]; cbn [scan_digits]; [done|]. cbn in Hr. by rewrite Hr.
  - apply Forall_cons in Hd as [Hd Hds]. rewrite dec_digit_digit by lia. cbn [foldl] in Hlt.
    assert (acc * 10 + d ≤ foldl (λ r d, r * 10 + d) (acc * 10 + d) ds).
    { apply digits_ge; [lia|]. eapply Forall_impl; [exact Hds|]. cbn. intros. lia. }
    unfold int_ok. rewrite (proj2 (Z.leb_le _ _)), (proj2 (Z.ltb_lt _ _)) by lia. cbn [andb].
    apply IH; [done|lia|done|done].
Qed.

Lemma scan_num_spec n s rest :
  numeral 10 n s → n < 2 ^ 31 → dec_digit (hd0 rest) = None →
  scan_num 10 dec_digit (s ++ rest) = Ok (Some (n, rest)).
Proof.
  intros (ds & -> & Hne & Hd & <- & _) Hn Hr. destruct ds as [|d ds]; [done|].
  unfold scan_num. cbn [fmap list_fmap app]. rewrite dec_digit_digit by (by apply Forall_cons in Hd as [? _]).
  change (digit d :: (digit <$> ds) ++ rest) with ((digit <$> (d :: ds)) ++ rest).
  by rewrite scan_digits_spec by (try done; lia).
Qed.

(** The first character of a signed numeral. *)
Lemma numeral_head base n s : base ≤ 16 → numeral base n s → ∃ d t, s = digit d :: t ∧ 0 ≤ d < base.
Proof.
  intros _ (ds & -> & Hne & Hd & _). destruct ds as [|d ds]; [done|]. apply Forall_cons in Hd as [Hd _].
  by exists d, (digit <$> ds).
Qed.

Lemma digit_plain d : 0 ≤ d < 10 → blank (digit d) = false ∧ (digit d =? "-"%char) = false ∧ (digit d =? "+"%char) = false.
Proof.
  intros H. assert (d = 0 ∨ d = 1 ∨ d = 2 ∨ d = 3 ∨ d = 4 ∨ d = 5 ∨ d = 6 ∨ d = 7 ∨ d = 8 ∨ d = 9) as Hc by lia.
  by repeat (destruct Hc as [->|Hc]); subst.
Qed.

Lemma signed_not_blank n s rest : signed_numeral n s → skip_blank (s ++ rest) = s ++ rest.
Proof.
  unfold signed_numeral. destruct (n <? 0); [intros (t & -> & _); done|].
  intros Hs. destruct (numeral_head 10 n s ltac:(lia) Hs) as (d & t & -> & Hd). cbn [app skip_blank].
  by rewrite (proj1 (digit_plain d Hd)).
Qed.

Lemma scan_int n s rest :
  signed_numeral n s → - 2 ^ 31 < n < 2 ^ 31 → dec_digit (hd0 rest) = None →
  scan_conv "d"%char (s ++ rest) = Ok (Some ([SInt n], rest)).
Proof.
  intros Hs Hn Hr. unfold scan_conv. rewrite Z.eqb_refl, (signed_not_blank n s rest Hs).
  unfold signed_numeral in Hs. destruct (n <? 0) eqn:E.
  - destruct Hs as (t & -> & Ht). cbn [app scan_sign]. rewrite Z.eqb_refl.
    rewrite (scan_num_spec (- n) t rest) by (try done; lia). cbn [bind]. do 5 f_equal. lia.
  - assert (scan_sign (s ++ rest) = (1, s ++ rest)) as ->.
    { destruct (numeral_head 10 n s ltac:(lia) Hs) as (d & t & -> & Hd). cbn [app scan_sign].
      destruct (digit_plain d Hd) as (_ & -> & ->). done. }
    rewrite (scan_num_spec n s rest) by (try done; lia). cbn [bind]. do 5 f_equal. lia.
Qed.

(** The format of a list of integers, separated by blanks. *)
Fixpoint int_fmt (ns : list Z) : list Z :=
  match ns with
  | [] => []
  | [_] => str "%d"
  | _ :: ns => str "%d" ++ chr " " :: int_fmt ns
  end.

(** What it renders to. *)
Inductive int_text : list Z → list Z → Prop :=
| IT_nil : int_text [] []
| IT_one n s : signed_numeral n s → int_text [n] s
| IT_cons n s ns t :
    signed_numeral n s → ns ≠ [] → int_text ns t → int_text (n :: ns) (s ++ chr " " :: t).

Definition small (n : Z) : Prop := - 2 ^ 31 < n < 2 ^ 31.

Lemma int_text_exists ns :
  Forall small ns → ∃ t, int_text ns t ∧ (length t ≤ 12 * length ns)%nat.
Proof.
  assert (Hone : ∀ n, small n → ∃ s, signed_numeral n s ∧ (length s ≤ 11)%nat).
  { intros n Hn. unfold small in Hn. destruct (format_int_spec n) as (s & _ & Hs); [lia|]. exists s. split; [done|].
    assert (Hlen : ∀ k t, 0 ≤ k < 2 ^ 31 → numeral 10 k t → (length t ≤ 10)%nat).
    { intros k t Hk Ht. apply (numeral_length 10 k); [lia|done| |lia].
      apply (Z.lt_le_trans _ (2 ^ 31)); [lia|vm_compute; discriminate]. }
    unfold signed_numeral in Hs. destruct (n <? 0) eqn:E.
    - destruct Hs as (t & -> & Ht). apply Z.ltb_lt in E. cbn. apply le_n_S. apply (Hlen (- n)); [lia|done].
    - apply Z.ltb_ge in E. specialize (Hlen n s ltac:(lia) Hs). lia. }
  induction ns as [|n ns IH]; intros Hns; [exists []; split; [constructor|cbn; lia]|].
  apply Forall_cons in Hns as [Hn Hns]. destruct (Hone n Hn) as (s & Hs & Hl).
  destruct ns as [|n' ns]; [exists s; split; [by constructor|cbn; lia]|].
  destruct (IH Hns) as (t & Ht & Hlt). exists (s ++ chr " " :: t). split; [by constructor|].
  rewrite length_app. cbn [length] in *. lia.
Qed.

Lemma int_text_renders ns t : Forall small ns → int_text ns t → renders (int_fmt ns) (ANum <$> ns) t.
Proof.
  assert (Hd : ∀ n s fmt args out, small n → signed_numeral n s → renders fmt args out →
                 renders (str "%d" ++ fmt) (ANum n :: args) (s ++ out)).
  { intros n s fmt args out Hn Hs Hr. unfold small in Hn.
    apply (R_int "d" fmt n args s out); [by left| | |done];
      rewrite decide_True by done; rewrite i32_small by lia; [lia|done]. }
  intros Hns Ht. revert Hns. induction Ht as [|n s Hs|n s ns t Hs Hne Ht IH]; intros Hns.
  - constructor.
  - apply Forall_cons in Hns as [Hn _]. rewrite <-(app_nil_r s). apply (Hd n s []); [done|done|constructor].
  - apply Forall_cons in Hns as [Hn Hns]. destruct ns as [|n' ns]; [done|].
    change (int_fmt (n :: n' :: ns)) with (str "%d" ++ chr " " :: int_fmt (n' :: ns)). apply Hd; [done|done|].
    constructor; [by vm_compute|by vm_compute|by apply IH].
Qed.

Lemma int_text_skip ns t : int_text ns t → skip_blank t = t.
Proof.
  destruct 1 as [|n s Hs|n s ns t Hs _ _]; [done| |by eapply signed_not_blank].
  rewrite <-(app_nil_r s). by eapply signed_not_blank.
Qed.

Lemma int_fmt_skip ns : skip_blank (int_fmt ns) = int_fmt ns.
Proof. by destruct ns as [|? [|? ?]]. Qed.

Lemma sscanf_ints fuel ns t :
  Forall small ns → int_text ns t → (2 * length ns < fuel)%nat →
  sscanf_loop fuel t (int_fmt ns) = Ok (SInt <$> ns).
Proof.
  intros Hns Ht. revert fuel Hns; induction Ht as [|n s Hs|n s ns t Hs Hne Ht IH]; intros fuel Hns Hf.
  - by destruct fuel; [lia|].
  - apply Forall_cons in Hns as [Hn _]. destruct fuel as [|[|fuel]]; [cbn in Hf; lia|cbn in Hf; lia|].
    pose proof (scan_int n s [] Hs Hn eq_refl) as Hsc. rewrite app_nil_r in Hsc.
    change (int_fmt [n]) with [chr "%"; chr "d"].
    destruct s as [|c s]; [by vm_compute in Hsc|]. cbn [sscanf_loop]. change (blank "%"%char) with false.
    rewrite Z.eqb_refl. cbn [negb]. by rewrite Hsc.
  - apply Forall_cons in Hns as [Hn Hns]. cbn [length] in Hf. destruct fuel as [|[|fuel]]; [lia|lia|].
    pose proof (scan_int n s (chr " " :: t) Hs Hn eq_refl) as Hsc. destruct ns as [|n' ns]; [done|].
    change (int_fmt (n :: n' :: ns)) with (chr "%" :: chr "d" :: chr " " :: int_fmt (n' :: ns)).
    destruct (s ++ chr " " :: t) as [|c s'] eqn:Hst; [by destruct s|].
    cbn [sscanf_loop]. change (blank "%"%char) with false. rewrite Z.eqb_refl. cbn [negb].
    rewrite Hsc. cbn [bind]. change (blank " "%char) with true. cbn [skip_blank].
    change (blank " "%char) with true. rewrite (int_text_skip _ _ Ht), (int_fmt_skip (n' :: ns)).
    rewrite IH by (try done; lia). done.
Qed.

(** ** printint, int_to_str *)

(** A numeral has at most [k] digits exactly when the number is below [base^k]. *)
Lemma numeral_fits base n s k :
  2 ≤ base → numeral base n s → (0 < k)%nat → (length s ≤ k)%nat ↔ n < base ^ Z.of_nat k.
Proof.
  intros Hb Hs Hk. split; [|intros Hn; by apply (numeral_length base n)].
  intros Hl. destruct Hs as (ds & -> & _ & Hd & <- & _). rewrite length_fmap in Hl.
  pose proof (value_bounds base ds Hb Hd). apply (Z.lt_le_trans _ (base ^ Z.of_nat (length ds))); [lia|].
  apply Z.pow_le_mono_r; lia.
Qed.

Lemma fits_Ok {A} (P : Prop) `{Decision P} (x : A) : is_Ok (if decide P then Ok x else Undef) ↔ P.
Proof. destruct (decide P); split; try done; [by eexists|by intros [y Hy]]. Qed.

Lemma printint_unsigned xx base :
  2 ≤ base → ∃ s, numeral base (u64 xx) s ∧
    printint xx base false = if decide (length s ≤ 16)%nat then Ok s else Undef.
Proof.
  intros Hb. pose proof (u64_range xx). pose proof (pow_digit_fuel base Hb). unfold printint. cbn [andb bind].
  destruct (rev_digits_spec digit_fuel 16 0 (u64 xx) base) as (s & Hs & ->); [done|lia|unfold digit_fuel; lia|].
  exists s. split; [done|]. destruct (decide _) as [H1|H1], (decide _) as [H2|H2]; cbn [bind]; try lia; [|done].
  by rewrite rev_involutive.
Qed.

Lemma printint_signed xx :
  - 2 ^ 63 < xx < 2 ^ 63 → ∃ s, signed_numeral xx s ∧
    printint xx 10 true = if decide (length s ≤ 16)%nat then Ok s else Undef.
Proof.
  intros Hx. unfold signed_numeral. destruct (xx <? 0) eqn:E; [apply Z.ltb_lt in E|apply Z.ltb_ge in E].
  - pose proof (pow_digit_fuel 10 ltac:(lia)). unfold printint. cbn [andb].
    rewrite (proj2 (Z.ltb_lt _ _) E). unfold negate. rewrite (proj2 (Z.eqb_neq _ _)) by lia. cbn [bind].
    destruct (rev_digits_spec digit_fuel 16 0 (- xx) 10) as (s & Hs & ->); [lia|lia|unfold digit_fuel; lia|].
    exists (chr "-" :: s). split; [eauto|]. cbn [length].
    destruct (decide (0 + _ ≤ _)) as [H1|H1]; cbn [bind]; [|by rewrite decide_False by lia].
    rewrite length_rev. destruct (Z.of_nat (length s) <? 16) eqn:El; cbn [bind].
    + apply Z.ltb_lt in El. rewrite decide_True by lia. by rewrite rev_app_distr, rev_involutive.
    + apply Z.ltb_ge in El. by rewrite decide_False by lia.
  - destruct (printint_unsigned xx 10) as (s & Hs & Hp); [lia|]. rewrite u64_small in Hs by lia.
    exists s. split; [done|]. rewrite <-Hp. unfold printint. cbn [andb].
    by rewrite (proj2 (Z.ltb_ge _ _) E).
Qed.

Lemma count_digits_spec fuel base num i :
  2 ≤ base → 0 ≤ num < base ^ Z.of_nat fuel →
  ∃ k, count_digits (S fuel) base num i = Ok (i + Z.of_nat k) ∧
    (0 < num → ∃ s, numeral base num s ∧ length s = k).
Proof.
  intros Hb. revert num i; induction fuel as [|fuel IH]; intros num i Hn; cbn [count_digits].
  { cbn in Hn. rewrite (proj2 (Z.ltb_ge _ _)) by lia. exists O. split; [f_equal; lia|lia]. }
  destruct (0 <? num) eqn:E; [apply Z.ltb_lt in E|apply Z.ltb_ge in E; exists O; split; [f_equal; lia|lia]].
  pose proof (Z.mod_pos_bound num base ltac:(lia)) as Hm. pose proof (Z.div_mod num base ltac:(lia)) as Hdm.
  pose proof (quotient_bounds base num fuel Hb Hn) as Hq.
  destruct (IH (num / base) (i + 1) Hq) as (k & Hk & Hs). exists (S k). split.
  { change (count_digits (S fuel) base (num / base) (i + 1) = Ok (i + Z.of_nat (S k))). rewrite Hk. f_equal. lia. }
  intros _. destruct (decide (0 < num / base)) as [Hpos|Hz].
  - destruct (Hs Hpos) as (s & Hns & <-). exists (s ++ [digit (num mod base)]).
    rewrite length_app, Nat.add_comm. split; [rewrite Hdm at 1; by apply numeral_snoc|done].
  - assert (num / base = 0) as Hq0 by lia. exists [digit (num mod base)]. split.
    + replace num with (num mod base) at 1 by nia. by apply numeral_digit.
    + rewrite Hq0 in Hk. cbn in Hk. injection Hk as Hk. cbn. lia.
Qed.

Lemma write_digits_spec fuel base a num s m :
  2 ≤ base → 0 < num < base ^ Z.of_nat fuel → numeral base num s → live m a (Z.of_nat (length s)) →
  ∃ m', write_digits (S fuel) base a num (Z.of_nat (length s) - 1) m = Ok m' ∧ written m m' a s.
Proof.
  intros Hb. revert num s m; induction fuel as [|fuel IH]; intros num s m Hn Hs Hl; [cbn in Hn; lia|].
  pose proof (Z.mod_pos_bound num base ltac:(lia)) as Hm. pose proof (Z.div_mod num base ltac:(lia)) as Hdm.
  pose proof (quotient_bounds base num fuel Hb ltac:(lia)) as Hq.
  cbn [write_digits]. rewrite (proj2 (Z.ltb_lt _ _)) by lia.
  assert (Hcase : ∃ t, s = t ++ [digit (num mod base)] ∧
            (num / base = 0 ∧ t = [] ∨ 0 < num / base ∧ numeral base (num / base) t)).
  { destruct (decide (num / base = 0)) as [H0|H0].
    - exists []. split; [|by left]. apply (numeral_unique base num); [done|done|].
      replace num with (num mod base) at 1 by nia. by apply numeral_digit.
    - destruct (rev_digits_spec (S fuel) 0 0 (num / base) base) as (t & Ht & _); [done| |lia|].
      { rewrite Nat2Z.inj_succ, Z.pow_succ_r by lia. nia. }
      exists t. split; [|right; split; [lia|done]]. apply (numeral_unique base num); [done|done|].
      rewrite Hdm at 1. apply numeral_snoc; [lia|done|done]. }
  destruct Hcase as (t & -> & Ht). rewrite length_app in *. cbn [length] in *.
  replace (a + (Z.of_nat (length t + 1) - 1)) with (a + Z.of_nat (length t)) by lia.
  rewrite store_ok by (apply Hl; lia). cbn [bind].
  assert (Hgoal : ∀ m', written (<[a + Z.of_nat (length t) := digit (num mod base)]> m) m' a t →
            written m m' a (t ++ [digit (num mod base)])).
  { intros m' Hw x. rewrite (Hw x), length_app. cbn [length].
    destruct (decide (x = a + Z.of_nat (length t))) as [->|Hx].
    - rewrite decide_False by lia. rewrite decide_True by lia. rewrite lookup_insert_eq.
      rewrite lookup_app_r by lia. by replace (Z.to_nat _ - _)%nat with O by lia.
    - rewrite lookup_insert_ne by lia.
      destruct (decide (a ≤ x < a + Z.of_nat (length t))) as [H1|H1].
      + rewrite decide_True by lia. by rewrite lookup_app_l by lia.
      + by rewrite decide_False by lia. }
  destruct Ht as [[H0 ->]|[Hpos Ht]].
  - rewrite H0. cbn [write_digits length]. destruct fuel; cbn; eexists; (split; [done|]); apply Hgoal;
      intros x; by rewrite decide_False by (cbn; lia).
  - destruct (IH (num / base) t (<[a + Z.of_nat (length t) := digit (num mod base)]> m)) as (m' & Hw & Hm');
      [lia|done|apply live_store; intros x Hx; apply Hl; lia|].
    exists m'. split; [|by apply Hgoal].
    replace (Z.of_nat (length t + 1) - 1 - 1) with (Z.of_nat (length t) - 1) by lia. exact Hw.
Qed.

(** [atoi] reads a signed numeral back. *)
Lemma atoi_numeral m p n s : signed_numeral n s → small n → cstr m p s → atoi (S (length s)) p m = Ok n.
Proof.
  intros Hs Hn Hc. unfold small in Hn.
  assert (Hval : ∀ ds, value 10 ds = digits_value ds) by done.
  assert (Hfm : ∀ ds, Forall (λ d, 0 ≤ d < 10) ds → digit <$> ds = (λ d, d + 48) <$> ds).
  { intros ds Hd. apply list_fmap_ext. intros i d Hi. rewrite Forall_lookup in Hd. specialize (Hd i d Hi). cbn in Hd.
    unfold digit. rewrite (proj2 (Z.ltb_lt _ _)) by lia. lia. }
  assert (H9 : ∀ ds, Forall (λ d, 0 ≤ d < 10) ds → Forall (λ d, 0 ≤ d ≤ 9) ds).
  { intros ds Hd. eapply Forall_impl; [exact Hd|]. cbn. intros. lia. }
  unfold signed_numeral in Hs. destruct (n <? 0) eqn:E.
  - destruct Hs as (t & -> & ds & -> & Hne & Hd & Hv & _).
    rewrite (atoi_spec m p [] [45] ds []); [rewrite decide_True by done; f_equal; rewrite <-Hval; lia|set_solver|done|done|by apply H9|done
      | |cbn; rewrite length_fmap; lia|rewrite <-Hval; lia].
    cbn [app]. rewrite app_nil_r. by rewrite <-Hfm.
  - destruct Hs as (ds & -> & Hne & Hd & Hv & _).
    rewrite (atoi_spec m p [] [] ds []); [rewrite decide_False by done; f_equal; rewrite <-Hval; lia|set_solver|done|done|by apply H9|done
      | |cbn; rewrite length_fmap; lia|rewrite <-Hval; lia].
    cbn [app]. rewrite app_nil_r. by rewrite <-Hfm.
Qed.

End Print.
