(* ===== verification/PrintSpec.v ===== *)
(** * Formatted output and input: the theorems *)

From Stdlib Require Import Ascii.
From S2P Require Import Prelude CStringDefs CString PrintDefs Print.
Import CStringDefs CString PrintDefs Print.

Module PrintSpec.

(** A buffer of 64 zero bytes at address 1000. *)
Definition blank_buffer : memory := list_to_map ((λ i, (1000 + Z.of_nat i, 0)) <$> seq 0 64).

Lemma blank_buffer_live n : 0 ≤ n ≤ 64 → live blank_buffer 1000 n.
Proof.
  intros Hn a Ha. unfold blank_buffer. apply elem_of_dom. rewrite dom_list_to_map.
  apply elem_of_list_to_set. rewrite <-list_fmap_compose. apply list_elem_of_fmap.
  exists (Z.to_nat (a - 1000)). split; [cbn; lia|]. apply elem_of_seq. lia.
Qed.

(** The bytes that [snprintf] leaves in its buffer. *)
Lemma snprintf_spec m buf size fmt args out :
  renders fmt args out → 0 ≤ size → live m buf size → Z.of_nat (length out) < 2 ^ 31 →
  ∃ m', snprintf buf size fmt args m = Ok (Z.of_nat (length out), m') ∧
    (0 < size → cstr m' buf (take (Z.to_nat (size - 1)) out)) ∧
    same_outside m m' buf (buf + size).
Proof.
  intros Hr Hsize Hl Hlen. unfold snprintf, vsnprintf. rewrite (proj2 (Z.ltb_ge _ _)) by lia.
  destruct (renders_loop m buf size Hsize fmt args out Hr (S (length fmt)) [] (mk_sink buf 0 m))
    as (k & -> & Hp & Ht & Hb & Ho & Hl'); [lia| |cbn; lia|].
  { split_and!; cbn [pos total smem length]; try done; [lia|by rewrite take_nil]. }
  cbn [bind]. cbn [app] in *. destruct (0 <? size) eqn:E; [apply Z.ltb_lt in E|apply Z.ltb_ge in E].
  - rewrite store_ok by (apply Hl'; lia). cbn [bind]. rewrite Ht. eexists. split; [done|].
    assert (Hpos : pos k = buf + Z.of_nat (length (take (Z.to_nat (size - 1)) out))).
    { rewrite length_take. lia. }
    split; [|intros a Ha; rewrite lookup_insert_ne by lia; by apply Ho].
    intros _. split; [|apply Forall_take; by eapply renders_bytes].
    apply bytes_of_app. split.
    + apply (bytes_of_ext (smem k)); [|done]. intros a Ha. apply lookup_insert_ne. lia.
    + apply bytes_of_cons. split; [rewrite Hpos; apply lookup_insert_eq|by intros i c Hi].
  - cbn [bind]. rewrite Ht. eexists. split; [done|]. split; [lia|done].
Qed.

(** C40. [snprintf] renders the format as its reference meaning says
    (decimal numerals without leading zeros and with a sign, hexadecimal ones,
    pointers with sixteen digits, strings, characters): it returns the length
    of the whole text, the buffer holds a terminated string, the text cut to
    [size - 1] characters, and no byte outside the [size] bytes of the buffer
    changes (with size 0 none at all). *)
Theorem snprintf_correct m buf size fmt args out :
  renders fmt args out → 0 ≤ size → live m buf size → Z.of_nat (length out) < 2 ^ 31 →
  ∃ m', snprintf buf size fmt args m = Ok (Z.of_nat (length out), m') ∧
    (0 < size → cstr m' buf (take (Z.to_nat (size - 1)) out)) ∧
    same_outside m m' buf (buf + size).
Proof. apply snprintf_spec. Qed.

Lemma snprintf_witness :
  ∃ m', snprintf 1000 4 (str "%d%%") [ANum 42] blank_buffer = Ok (3, m') ∧ cstr m' 1000 (str "42%").
Proof.
  destruct (snprintf_correct blank_buffer 1000 4 (str "%d%%") [ANum 42] (str "42%")) as (m' & Hm & Hc & _).
  - apply (R_int "d" (str "%%") 42 [] (str "42") (str "%")).
    + left.
    + vm_compute. reflexivity.
    + exists [4; 2]. split_and!; [reflexivity|discriminate|repeat constructor; lia|reflexivity|discriminate].
    + apply (R_percent [] [] []). constructor.
  - lia.
  - apply blank_buffer_live. lia.
  - vm_compute. reflexivity.
  - exists m'. split; [exact Hm|]. apply Hc. lia.
Defined.

(** Printing and scanning are inverse: integers (other than the least
    [int]) printed with "%d %d ... %d" into a buffer that has 12 characters
    for each and one for the NUL are read back by [sscanf] with the same
    format, all of them and in order, and a single one also by [atoi] from the
    buffer. *)
Theorem print_scan_roundtrip m buf size ns :
  Forall small ns → live m buf size → 12 * Z.of_nat (length ns) < size → 12 * Z.of_nat (length ns) < 2 ^ 31 →
  ∃ text m', snprintf buf size (int_fmt ns) (ANum <$> ns) m = Ok (Z.of_nat (length text), m') ∧
    cstr m' buf text ∧
    sscanf text (int_fmt ns) = Ok (Z.of_nat (length ns), SInt <$> ns) ∧
    (∀ n, ns = [n] → atoi (S (length text)) buf m' = Ok n).
Proof.
  intros Hns Hl Hsz Hlen. destruct (int_text_exists ns Hns) as (t & Ht & Htl).
  pose proof (int_text_renders ns t Hns Ht) as Hr.
  destruct (snprintf_spec m buf size (int_fmt ns) (ANum <$> ns) t Hr) as (m' & Hp & Hc & _); [lia|done|lia|].
  rewrite take_ge in Hc by lia. specialize (Hc ltac:(lia)).
  exists t, m'. split_and!; [done|done| |].
  - unfold sscanf. rewrite sscanf_ints; [cbn [bind]; by rewrite length_fmap|done|done|].
    clear. induction ns as [|n [|n' ns] IH]; [cbn; lia|cbn; lia|].
    change (int_fmt (n :: n' :: ns)) with (str "%d" ++ chr " " :: int_fmt (n' :: ns)).
    rewrite length_app. cbn [length] in *. change (length (str "%d")) with 2%nat. lia.
  - intros n ->. apply Forall_cons in Hns as [Hn _]. inversion Ht as [|? ? Hs|? ? ? ? ? Hne]; subst; [|done].
    apply atoi_numeral; [done|done|done].
Qed.

Lemma print_scan_witness :
  ∃ text m', snprintf 1000 64 (int_fmt [7; -42]) (ANum <$> [7; -42]) blank_buffer = Ok (Z.of_nat (length text), m') ∧
    sscanf text (int_fmt [7; -42]) = Ok (2, [SInt 7; SInt (-42)]).
Proof.
  destruct (print_scan_roundtrip blank_buffer 1000 64 [7; -42]) as (text & m' & Hp & _ & Hs & _).
  - repeat constructor; lia.
  - apply blank_buffer_live. lia.
  - vm_compute. reflexivity.
  - vm_compute. reflexivity.
  - exists text, m'. split; [exact Hp|exact Hs].
Defined.

(** The number printer of [printf] has an array of 16 characters: it
    prints the numeral of its argument when that has at most 16 characters
    (always for 32-bit arguments, and for 64-bit ones in hexadecimal), and
    otherwise, for long decimal numbers, writes beyond the array. *)
Theorem printint_correct xx :
  - 2 ^ 63 < xx < 2 ^ 63 →
  (∃ s, signed_numeral xx s ∧ printint xx 10 true = if decide (length s ≤ 16)%nat then Ok s else Undef) ∧
  (∀ base, 2 ≤ base → ∃ s, numeral base (u64 xx) s ∧
     printint xx base false = if decide (length s ≤ 16)%nat then Ok s else Undef) ∧
  (is_Ok (printint xx 10 true) ↔ - 10 ^ 15 < xx < 10 ^ 16) ∧
  (is_Ok (printint xx 10 false) ↔ u64 xx < 10 ^ 16) ∧
  is_Ok (printint xx 16 false).
Proof.
  intros Hx. pose proof (u64_range xx) as Hu. split_and!.
  - by apply printint_signed.
  - intros base Hb. by apply printint_unsigned.
  - destruct (printint_signed xx Hx) as (s & Hs & ->). unfold signed_numeral in Hs.
    destruct (xx <? 0) eqn:E; [apply Z.ltb_lt in E|apply Z.ltb_ge in E].
    + destruct Hs as (t & -> & Ht). pose proof (numeral_fits 10 (- xx) t 15 ltac:(lia) Ht ltac:(lia)) as Hf.
      cbn [length]. rewrite fits_Ok. change (10 ^ Z.of_nat 15) with (10 ^ 15) in Hf. split; [intros|intros]; [|]; lia.
    + pose proof (numeral_fits 10 xx s 16 ltac:(lia) Hs ltac:(lia)) as Hf.
      rewrite fits_Ok. change (10 ^ Z.of_nat 16) with (10 ^ 16) in Hf. lia.
  - destruct (printint_unsigned xx 10) as (s & Hs & ->); [lia|].
    pose proof (numeral_fits 10 (u64 xx) s 16 ltac:(lia) Hs ltac:(lia)) as Hf.
    rewrite fits_Ok. change (10 ^ Z.of_nat 16) with (10 ^ 16) in Hf. lia.
  - destruct (printint_unsigned xx 16) as (s & Hs & ->); [lia|].
    apply fits_Ok. apply (numeral_fits 16 (u64 xx) s 16 ltac:(lia) Hs ltac:(lia)).
    change (16 ^ Z.of_nat 16) with (2 ^ 64). lia.
Qed.

Lemma printint_witness : printint (-42) 10 true = Ok (str "-42") ∧ is_Ok (printint (-42) 10 true).
Proof.
  split; [vm_compute; reflexivity|].
  apply (printint_correct (-42)); [split; vm_compute; reflexivity|]. split; vm_compute; reflexivity.
Defined.

(** [int_to_str] and [uint64_to_hex_str] leave the terminated numeral in a
    buffer that has room for it, and change nothing else; a negative number
    gives the empty string. *)
Theorem num_to_str_correct base num a m :
  base ∈ [10; 16] → num < 2 ^ 64 → live m a 21 →
  ∃ m' s, num_to_str base num a m = Ok m' ∧
    (if num <? 0 then s = [] else numeral base num s) ∧ cstr m' a s ∧ same_outside m m' a (a + 21).
Proof.
  intros Hb Hn Hl. assert (base = 10 ∨ base = 16) as Hb' by set_solver. unfold num_to_str.
  destruct (num =? 0) eqn:E0; [apply Z.eqb_eq in E0 as ->|apply Z.eqb_neq in E0].
  { rewrite store_ok by (apply Hl; lia). cbn [bind]. rewrite store_ok by (apply (live_store m a 21); [done|lia]).
    eexists _, [digit 0]. split; [done|]. split; [apply numeral_digit; lia|]. split.
    - apply cstr_cons. rewrite lookup_insert_ne, lookup_insert_eq by lia.
      split; [done|]. split; [by vm_compute|]. apply cstr_nil. apply lookup_insert_eq.
    - intros x Hx. by rewrite !lookup_insert_ne by lia. }
  destruct (num <? 0) eqn:E; [apply Z.ltb_lt in E|apply Z.ltb_ge in E].
  { cbn [count_digits]. rewrite (proj2 (Z.ltb_ge _ _)) by lia. cbn [bind]. rewrite Z.add_0_r.
    rewrite store_ok by (apply Hl; lia). cbn [bind write_digits]. rewrite (proj2 (Z.ltb_ge _ _)) by lia.
    eexists _, []. split; [done|]. split; [done|]. split; [apply cstr_nil, lookup_insert_eq|].
    intros x Hx. by rewrite lookup_insert_ne by lia. }
  pose proof (pow_digit_fuel base ltac:(lia)) as Hp.
  destruct (count_digits_spec 64 base num 0) as (k & -> & Hk); [lia|change 64%nat with digit_fuel; lia|].
  destruct (Hk ltac:(lia)) as (s & Hs & <-). cbn [bind]. rewrite Z.add_0_l.
  assert (length s ≤ 20)%nat as Hlen.
  { apply (numeral_length base num); [lia|done| |lia]. apply (Z.lt_le_trans _ (10 ^ Z.of_nat 20)).
    - apply (Z.lt_le_trans _ (2 ^ 64)); [lia|vm_compute; discriminate].
    - apply Z.pow_le_mono_l. lia. }
  rewrite store_ok by (apply Hl; lia). cbn [bind].
  destruct (write_digits_spec 64 base a num s (<[a + Z.of_nat (length s) := 0]> m)) as (m' & Hw & Hm');
    [lia|change 64%nat with digit_fuel; lia|done|apply live_store; intros x Hx; apply Hl; lia|].
  exists m', s. split; [exact Hw|]. split; [done|]. split.
  - split; [|eapply (numeral_bytes base); [lia|done]]. apply bytes_of_app. split.
    + intros i c Hi. pose proof (lookup_lt_Some _ _ _ Hi). rewrite (Hm' _), decide_True by lia.
      by replace (Z.to_nat _) with i by lia.
    + apply bytes_of_cons. split; [|by intros i c Hi]. rewrite (Hm' _), decide_False by lia. apply lookup_insert_eq.
  - intros x Hx. rewrite (Hm' x), decide_False by lia. by rewrite lookup_insert_ne by lia.
Qed.

End PrintSpec.
