(* ===== verification/BioDefs.v ===== *)
(** * The buffer cache (kernel/fs/bio.c), definitions

    A buffer is named by its index in [bcache.buf]; [HEAD] is the address of
    [bcache.head].  The fields of [struct buf] are kept in two maps, the list
    links ([prev], [next]) and the rest; a link of an unknown buffer is
    [Undef].  The disk driver moves one block between [data] and the sectors
    of the block on the disk, which is part of the state.  An operation that
    may sleep is cut there: [bget] is the part under [bcache.lock], the wait
    for the buffer's sleep lock is a step of its own, and [brelse] is the
    release of the sleep lock and the part under [bcache.lock]. *)

From S2P Require Import Prelude LockDefs.
Import LockDefs.

Module BioDefs.

Definition NBUF : Z := 3000.
Definition BSIZE : Z := 4096.
Definition HEAD : Z := -1.

Abbreviation block := (list Z).

Record buf := mk_buf {
  valid : bool;
  dev : Z;
  blockno : Z;
  lock : sleeplock;
  refcnt : Z;
  data : block
}.
Record link := mk_link { prev : Z; next : Z }.

Record bcache := mk_bcache {
  c_lock : bool;
  bufs : gmap Z buf;
  links : gmap Z link;
  disk : Z → block
}.

Definition with_lock (l : bool) (s : bcache) : bcache := mk_bcache l (bufs s) (links s) (disk s).
Definition with_bufs (b : gmap Z buf) (s : bcache) : bcache := mk_bcache (c_lock s) b (links s) (disk s).
Definition with_links (l : gmap Z link) (s : bcache) : bcache := mk_bcache (c_lock s) (bufs s) l (disk s).
Definition with_disk (d : Z → block) (s : bcache) : bcache := mk_bcache (c_lock s) (bufs s) (links s) d.

(** [acquire(&bcache.lock)], [release(&bcache.lock)]. *)
Definition acquire (s : bcache) : res bcache :=
  if c_lock s then Panic "acquire" else Ok (with_lock true s).
Definition release (s : bcache) : res bcache :=
  if c_lock s then Ok (with_lock false s) else Panic "release".

Definition get_buf (b : Z) (s : bcache) : res buf := of_opt (bufs s !! b).
Definition set_buf (b : Z) (f : buf → buf) (s : bcache) : res bcache :=
  let* x := get_buf b s in Ok (with_bufs (<[b := f x]> (bufs s)) s).

Definition get_link (b : Z) (l : gmap Z link) : res link := of_opt (l !! b).
Definition set_next (b v : Z) (l : gmap Z link) : res (gmap Z link) :=
  let* x := get_link b l in Ok (<[b := mk_link (prev x) v]> l).
Definition set_prev (b v : Z) (l : gmap Z link) : res (gmap Z link) :=
  let* x := get_link b l in Ok (<[b := mk_link v (next x)]> l).

(** [b->refcnt = v] and so on. *)
Definition b_refcnt (v : Z) (x : buf) : buf := mk_buf (valid x) (dev x) (blockno x) (lock x) v (data x).
Definition b_lock (v : sleeplock) (x : buf) : buf := mk_buf (valid x) (dev x) (blockno x) v (refcnt x) (data x).
Definition b_data (v : block) (x : buf) : buf := mk_buf (valid x) (dev x) (blockno x) (lock x) (refcnt x) v.
Definition b_valid (x : buf) : buf := mk_buf true (dev x) (blockno x) (lock x) (refcnt x) (data x).
(** The buffer is taken for another block. *)
Definition b_recycle (d n : Z) (x : buf) : buf := mk_buf false d n (lock x) 1 (data x).

(** ** binit *)

(** Puts [b] in front of the list: [b->next = head.next; b->prev = &head;
    head.next->prev = b; head.next = b]. *)
Definition push_head (b : Z) (l : gmap Z link) : res (gmap Z link) :=
  let* h := get_link HEAD l in
  let* l := set_next b (next h) l in
  let* l := set_prev b HEAD l in
  let* h := get_link HEAD l in
  let* l := set_prev (next h) b l in
  set_next HEAD b l.

(** One iteration of the loop over the buffers. *)
Definition init_buf (b : Z) (s : bcache) : res bcache :=
  let* l := push_head b (links s) in
  set_buf b (b_lock initsleeplock) (with_links l s).

Definition binit (n : Z) (s : bcache) : res bcache :=
  let s := with_lock false s in
  let* l := set_prev HEAD HEAD (links s) in
  let* l := set_next HEAD HEAD l in
  for_range 0 n init_buf (with_links l s).

(** ** bget *)

(** [for (b = head.next; b != &head; b = b->next)] looks for a block. *)
Fixpoint find_cached (fuel : nat) (d n b : Z) (s : bcache) : res (option Z) :=
  match fuel with
  | O => NoFuel
  | S fuel =>
      if b =? HEAD then Ok None
      else
        let* x := get_buf b s in
        if (dev x =? d) && (blockno x =? n) then Ok (Some b)
        else let* l := get_link b (links s) in find_cached fuel d n (next l) s
  end.

(** [for (b = head.prev; b != &head; b = b->prev)] looks for a buffer that
    nobody uses. *)
Fixpoint find_unused (fuel : nat) (b : Z) (s : bcache) : res (option Z) :=
  match fuel with
  | O => NoFuel
  | S fuel =>
      if b =? HEAD then Ok None
      else
        let* x := get_buf b s in
        if refcnt x =? 0 then Ok (Some b)
        else let* l := get_link b (links s) in find_unused fuel (prev l) s
  end.

(** The list has as many elements as there are buffers. *)
Definition scan_fuel (s : bcache) : nat := S (size (bufs s)).

(** [bget] up to [acquiresleep]. *)
Definition bget (d n : Z) (s : bcache) : res (Z * bcache) :=
  let* s := acquire s in
  let* h := get_link HEAD (links s) in
  let* r := find_cached (scan_fuel s) d n (next h) s in
  match r with
  | Some b =>
      let* x := get_buf b s in
      let* s := set_buf b (b_refcnt (u32 (refcnt x + 1))) s in
      let* s := release s in
      Ok (b, s)
  | None =>
      let* r := find_unused (scan_fuel s) (prev h) s in
      match r with
      | Some b =>
          let* s := set_buf b (b_recycle d n) s in
          let* s := release s in
          Ok (b, s)
      | None => Panic "bget: no buffers"
      end
  end.

(** [acquiresleep(&b->lock)] by the process [p]: [None] while it is taken. *)
Definition lock_buf (p b : Z) (s : bcache) : res (option bcache) :=
  let* x := get_buf b s in
  if negb (sl_locked (lock x) =? 0) then Ok None
  else let* s := set_buf b (b_lock (mk_sleep 1 p)) s in Ok (Some s).

(** [holdingsleep(&b->lock)]. *)
Definition holds_buf (p b : Z) (s : bcache) : res bool :=
  let* x := get_buf b s in
  Ok (negb (sl_locked (lock x) =? 0) && (sl_pid (lock x) =? p)).

(** ** The disk *)

(** [b->blockno * (BSIZE / 512)], in 32 bits. *)
Definition sector (x : buf) : Z := u32 (blockno x * (BSIZE / 512)).

(** [virtio_rw(b, 0)] and [virtio_rw(b, 1)]. *)
Definition disk_read (b : Z) (s : bcache) : res bcache :=
  let* x := get_buf b s in
  set_buf b (b_data (disk s (sector x))) s.
Definition disk_write (b : Z) (s : bcache) : res bcache :=
  let* x := get_buf b s in
  Ok (with_disk (<[sector x := data x]> (disk s)) s).

(** ** bread, bwrite, brelse *)

(** [bread] once [bget] has returned with the lock. *)
Definition bread_fill (b : Z) (s : bcache) : res bcache :=
  let* x := get_buf b s in
  if negb (valid x) then
    let* s := (if dev x =? 0 then disk_read b s else Ok s) in
    set_buf b b_valid s
  else Ok s.

Definition bwrite (p b : Z) (s : bcache) : res bcache :=
  let* h := holds_buf p b s in
  if negb h then Panic "bwrite"
  else
    let* x := get_buf b s in
    if dev x =? 0 then disk_write b s else Ok s.

(** [brelse] up to and including [releasesleep]. *)
Definition brelse (p b : Z) (s : bcache) : res bcache :=
  let* h := holds_buf p b s in
  if negb h then Panic "brelse"
  else set_buf b (b_lock (mk_sleep 0 0)) s.

(** [b->next->prev = b->prev; b->prev->next = b->next]. *)
Definition unlink (b : Z) (l : gmap Z link) : res (gmap Z link) :=
  let* x := get_link b l in
  let* l := set_prev (next x) (prev x) l in
  let* x := get_link b l in
  set_next (prev x) (next x) l.

(** The rest of [brelse], under [bcache.lock]. *)
Definition brelse_put (b : Z) (s : bcache) : res bcache :=
  let* s := acquire s in
  let* x := get_buf b s in
  let cnt := u32 (refcnt x - 1) in
  let* s := set_buf b (b_refcnt cnt) s in
  let* s := (if cnt =? 0 then
               let* l := unlink b (links s) in
               let* l := push_head b l in
               Ok (with_links l s)
             else Ok s) in
  release s.

Definition bpin (b : Z) (s : bcache) : res bcache :=
  let* s := acquire s in
  let* x := get_buf b s in
  let* s := set_buf b (b_refcnt (u32 (refcnt x + 1))) s in
  release s.
Definition bunpin (b : Z) (s : bcache) : res bcache :=
  let* s := acquire s in
  let* x := get_buf b s in
  let* s := set_buf b (b_refcnt (u32 (refcnt x - 1))) s in
  release s.

(** ** Use of the cache by processes

    A process that uses a block waits for its lock, reads it in, has it
    (changed since the last [bwrite] or not), or has released its lock and is
    about to drop its reference. *)
Inductive phase := Wants | Fills | Has (dirty : bool) | Drops.
(** The users of buffer [b] as process [p], with the block asked for. *)
Abbreviation users := (gmap (Z * Z) (phase * Z)).

(** Device 0, blocks below 2^29; a process does not ask again for a block it
    has, and writes a block it changed before it releases it. *)
Inductive bstep : bcache * users → bcache * users → Prop :=
| bs_get p n b s s' u :
    0 ≤ n < 2 ^ 29 → Z.of_nat (size u) + 1 < 2 ^ 32 →
    bget 0 n s = Ok (b, s') → u !! (p, b) = None →
    bstep (s, u) (s', <[(p, b) := (Wants, n)]> u)
| bs_lock p n b s s' u :
    u !! (p, b) = Some (Wants, n) → lock_buf p b s = Ok (Some s') →
    bstep (s, u) (s', <[(p, b) := (Fills, n)]> u)
| bs_fill p n b s s' u :
    u !! (p, b) = Some (Fills, n) → bread_fill b s = Ok s' →
    bstep (s, u) (s', <[(p, b) := (Has false, n)]> u)
| bs_edit p n d b v s s' u :
    u !! (p, b) = Some (Has d, n) → set_buf b (b_data v) s = Ok s' →
    bstep (s, u) (s', <[(p, b) := (Has true, n)]> u)
| bs_write p n d b s s' u :
    u !! (p, b) = Some (Has d, n) → bwrite p b s = Ok s' →
    bstep (s, u) (s', <[(p, b) := (Has false, n)]> u)
| bs_release p n b s s' u :
    u !! (p, b) = Some (Has false, n) → brelse p b s = Ok s' →
    bstep (s, u) (s', <[(p, b) := (Drops, n)]> u)
| bs_put p n b s s' u :
    u !! (p, b) = Some (Drops, n) → brelse_put b s = Ok s' →
    bstep (s, u) (s', delete (p, b) u).

(** The static data at boot: everything is zero. *)
Definition boot_buf : buf := mk_buf false 0 0 (mk_sleep 0 0) 0 [].
Definition boot_cache (n : Z) (d : Z → block) : bcache :=
  mk_bcache false (list_to_map ((λ i, (Z.of_nat i, boot_buf)) <$> seq 0 (Z.to_nat n)))
    (<[HEAD := mk_link 0 0]> (list_to_map ((λ i, (Z.of_nat i, mk_link 0 0)) <$> seq 0 (Z.to_nat n)))) d.

Example bget_example :
  (let* s := binit 3 (boot_cache 3 (λ _, [7])) in
   let* (b, s) := bget 0 5 s in
   let* s := bread_fill b s in
   Ok (b, data <$> bufs s !! b)) = Ok (0, Some [7]).
Proof. vm_compute. reflexivity. Qed.

End BioDefs.
