(* ===== verification/Bio.v ===== *)
(** * Lemmas on the buffer cache: the list and the searches

    [ring l xs]: following [next] from the head visits the buffers [xs] and
    comes back, and [prev] goes the other way round. *)

From S2P Require Import Prelude LockDefs BioDefs.
Import LockDefs BioDefs.

Module Bio.

Lemma exists_last_or {A} (l : list A) : l = [] ∨ ∃ l' a, l = l' ++ [a].
Proof.
  destruct l as [|x l]; [by left|]. right. destruct (exists_last (l := x :: l)) as (l' & a & ->); [done|]. eauto.
Qed.

(** ** Chains of links *)

Definition nxt (l : gmap Z link) (x : Z) : option Z := next <$> l !! x.
Definition prv (l : gmap Z link) (x : Z) : option Z := prev <$> l !! x.

Fixpoint chain (l : gmap Z link) (L : list Z) : Prop :=
  match L with
  | x :: ((y :: _) as L') => (nxt l x = Some y ∧ prv l y = Some x) ∧ chain l L'
  | _ => True
  end.

Definition ring (l : gmap Z link) (xs : list Z) : Prop :=
  chain l (HEAD :: xs ++ [HEAD]) ∧ NoDup (HEAD :: xs).

Lemma chain_app l u a v : chain l (u ++ a :: v) ↔ chain l (u ++ [a]) ∧ chain l (a :: v).
Proof.
  induction u as [|x u IH]; [cbn; tauto|]. destruct u as [|y u]; cbn [app] in *.
  - destruct v; cbn; tauto.
  - change (chain l (x :: y :: u ++ a :: v)) with ((nxt l x = Some y ∧ prv l y = Some x) ∧ chain l (y :: u ++ a :: v)).
    change (chain l (x :: y :: u ++ [a])) with ((nxt l x = Some y ∧ prv l y = Some x) ∧ chain l (y :: u ++ [a])).
    rewrite IH. tauto.
Qed.

(** Firsts and seconds of the links of a list. *)
Lemma chain_ext l l' L :
  (∀ x, x ∈ removelast L → nxt l' x = nxt l x) → (∀ y, y ∈ tail L → prv l' y = prv l y) →
  chain l L → chain l' L.
Proof.
  induction L as [|x [|y L] IH]; intros Hn Hp Hc; [done|done|]. destruct Hc as [[H1 H2] Hc]. split.
  - split; [rewrite Hn; [done|left]|rewrite Hp; [done|left]].
  - apply IH; [|cbn; intros z Hz; apply Hp; by right|done].
    intros z Hz. apply Hn. change (removelast (x :: y :: L)) with (x :: removelast (y :: L)). by right.
Qed.

Lemma nxt_set_next l a v : is_Some (l !! a) →
  ∃ l', set_next a v l = Ok l' ∧ (∀ x, nxt l' x = if decide (x = a) then Some v else nxt l x) ∧
    (∀ x, prv l' x = prv l x) ∧ dom l' = dom l.
Proof.
  intros [y Hy]. unfold set_next, get_link. rewrite Hy. cbn [of_opt bind]. eexists; split; [done|].
  unfold nxt, prv. split_and!.
  - intros z. destruct (decide (z = a)) as [->|Hz]; [by rewrite lookup_insert_eq|by rewrite lookup_insert_ne].
  - intros z. destruct (decide (z = a)) as [->|Hz]; [by rewrite lookup_insert_eq, Hy|by rewrite lookup_insert_ne].
  - rewrite dom_insert_L. assert (a ∈ dom l) by (by apply elem_of_dom_2 with y). set_solver.
Qed.

Lemma prv_set_prev l a v : is_Some (l !! a) →
  ∃ l', set_prev a v l = Ok l' ∧ (∀ x, prv l' x = if decide (x = a) then Some v else prv l x) ∧
    (∀ x, nxt l' x = nxt l x) ∧ dom l' = dom l.
Proof.
  intros [y Hy]. unfold set_prev, get_link. rewrite Hy. cbn [of_opt bind]. eexists; split; [done|].
  unfold nxt, prv. split_and!.
  - intros z. destruct (decide (z = a)) as [->|Hz]; [by rewrite lookup_insert_eq|by rewrite lookup_insert_ne].
  - intros z. destruct (decide (z = a)) as [->|Hz]; [by rewrite lookup_insert_eq, Hy|by rewrite lookup_insert_ne].
  - rewrite dom_insert_L. assert (a ∈ dom l) by (by apply elem_of_dom_2 with y). set_solver.
Qed.

Lemma get_link_ok l x y z : nxt l x = Some y → prv l x = Some z → get_link x l = Ok (mk_link z y).
Proof.
  unfold nxt, prv, get_link. destruct (l !! x) as [[p n]|]; cbn; intros; by simplify_eq.
Qed.
Lemma nxt_live l x y : nxt l x = Some y → is_Some (l !! x).
Proof. unfold nxt. destruct (l !! x); [by eexists|done]. Qed.
Lemma prv_live l x y : prv l x = Some y → is_Some (l !! x).
Proof. unfold prv. destruct (l !! x); [by eexists|done]. Qed.

(** The head is live and has both links. *)
Lemma ring_head l xs :
  ring l xs → nxt l HEAD = Some (default HEAD (head xs)) ∧ prv l HEAD = Some (default HEAD (last xs)).
Proof.
  intros [Hc _]. split.
  - destruct xs as [|x xs]; cbn in Hc; tauto.
  - destruct (last xs) as [z|] eqn:Hz.
    + apply last_Some in Hz as [xs' ->]. rewrite <-app_assoc in Hc. cbn [app] in Hc.
      rewrite app_comm_cons in Hc. apply chain_app in Hc as [_ Hc]. cbn in Hc. tauto.
    + apply last_None in Hz as ->. cbn in Hc. tauto.
Qed.

(** Removing an element. *)
Lemma unlink_spec l xs ys b :
  ring l (xs ++ b :: ys) →
  ∃ l', unlink b l = Ok l' ∧ ring l' (xs ++ ys) ∧ dom l' = dom l ∧ is_Some (l' !! b).
Proof.
  intros [Hc Hnd].
  assert (∃ u a, HEAD :: xs = u ++ [a]) as (u & a & Hu).
  { destruct (exists_last (l := HEAD :: xs)) as (u & a & ->); [done|]. eauto. }
  assert (∃ c v, ys ++ [HEAD] = c :: v) as (c & v & Hv) by (destruct ys; cbn; eauto).
  assert (HL : HEAD :: (xs ++ b :: ys) ++ [HEAD] = u ++ a :: b :: c :: v).
  { rewrite <-app_assoc. cbn [app]. rewrite Hv, app_comm_cons, Hu. by rewrite <-app_assoc. }
  assert (HL' : HEAD :: (xs ++ ys) ++ [HEAD] = u ++ a :: c :: v).
  { rewrite <-app_assoc, Hv, app_comm_cons, Hu. by rewrite <-app_assoc. }
  assert (Hf : NoDup (u ++ a :: b :: removelast (c :: v))).
  { rewrite <-Hv, removelast_last. change (u ++ a :: b :: ys) with (u ++ [a] ++ b :: ys).
    rewrite app_assoc, <-Hu. exact Hnd. }
  assert (Hs : NoDup (tail (u ++ [a]) ++ b :: c :: v)).
  { rewrite <-Hu, <-Hv. cbn [tail]. rewrite app_comm_cons, app_assoc.
    clear -Hnd. apply NoDup_app. apply NoDup_cons in Hnd as [Hh Hnd].
    split; [done|]. split; [set_solver|apply NoDup_singleton]. }
  rewrite HL in Hc. apply chain_app in Hc as [Hc1 Hc]. cbn [chain] in Hc.
  destruct Hc as ((Hab & Hba) & (Hbc & Hcb) & Hc2).
  change (chain l (c :: v)) in Hc2.
  unfold unlink. rewrite (get_link_ok l b c a Hbc Hba). cbn [bind next prev].
  destruct (prv_set_prev l c a (prv_live _ _ _ Hcb)) as (l1 & -> & Hp1 & Hn1 & Hd1). cbn [bind].
  assert (b ≠ c) as Hbc'. { intros ->. apply NoDup_app in Hs as (_ & _ & Hs). apply NoDup_cons in Hs as [Hs _]. set_solver. }
  rewrite (get_link_ok l1 b c a) by (rewrite ?Hn1, ?Hp1, ?decide_False by done; done). cbn [bind next prev].
  destruct (nxt_set_next l1 a c) as (l2 & -> & Hn2 & Hp2 & Hd2).
  { apply (nxt_live _ _ b). by rewrite Hn1. }
  exists l2. split; [done|]. split_and!.
  - unfold ring. rewrite HL'. split.
    + apply chain_app. split.
      * apply (chain_ext l); [| |exact Hc1].
        -- rewrite removelast_last. intros x Hx. rewrite Hn2, decide_False, Hn1; [done|].
           intros ->. apply NoDup_app in Hf as (_ & Hf & _). apply (Hf a); [done|left].
        -- intros y Hy. rewrite Hp2, Hp1, decide_False; [done|].
           intros ->. apply NoDup_app in Hs as (_ & Hs & _). apply (Hs c); [done|right; left].
      * split; [by rewrite Hn2, Hp2, Hp1, !decide_True|].
        apply (chain_ext l); [| |exact Hc2].
        -- intros x Hx. rewrite Hn2, decide_False, Hn1; [done|]. intros ->.
           apply NoDup_app in Hf as (_ & _ & Hf). apply NoDup_cons in Hf as [Hf _]. apply Hf. by right.
        -- cbn [tail]. intros y Hy. rewrite Hp2, Hp1, decide_False; [done|]. intros ->.
           apply NoDup_app in Hs as (_ & _ & Hs). apply NoDup_cons in Hs as [_ Hs]. apply NoDup_cons in Hs as [Hs _]. done.
    + rewrite app_comm_cons in Hnd |- *. apply NoDup_app in Hnd as (H1 & H2 & H3). apply NoDup_app.
      split; [done|]. split; [intros x Hx Hy; apply (H2 x Hx); by right|by apply NoDup_cons in H3 as [_ ?]].
  - by rewrite Hd2.
  - apply elem_of_dom. rewrite Hd2, Hd1. apply elem_of_dom. by apply (nxt_live _ _ c).
Qed.

(** Putting an element in front. *)
Lemma push_head_spec l xs b :
  ring l xs → b ∉ HEAD :: xs → is_Some (l !! b) →
  ∃ l', push_head b l = Ok l' ∧ ring l' (b :: xs) ∧ dom l' = dom l.
Proof.
  intros Hr Hb Hlb. destruct (ring_head l xs Hr) as [Hhn Hhp]. destruct Hr as [Hc Hnd].
  assert (∃ c v, xs ++ [HEAD] = c :: v) as (c & v & Hv) by (destruct xs; cbn; eauto).
  assert (default HEAD (head xs) = c) as Hcd by (destruct xs; cbn in Hv; by injection Hv).
  rewrite Hcd in Hhn. rewrite Hv in Hc. destruct Hc as [[_ Hch] Hc].
  change (chain l (c :: v)) in Hc.
  assert (Hcin : c ∈ HEAD :: xs) by (destruct xs; cbn in Hv; injection Hv as <- _; set_solver).
  assert (b ≠ c) by (intros ->; done). assert (b ≠ HEAD) by (intros ->; set_solver).
  assert (Hns : NoDup (c :: v)).
  { rewrite <-Hv. apply NoDup_app. apply NoDup_cons in Hnd as [Hh Hnd]. split; [done|]. split; [set_solver|apply NoDup_singleton]. }
  assert (Hbv : b ∉ c :: v) by (rewrite <-Hv; set_solver).
  assert (Hrl : removelast (c :: v) = xs) by (rewrite <-Hv; apply removelast_last).
  unfold push_head. rewrite (get_link_ok _ _ _ _ Hhn Hhp). cbn [bind next].
  destruct (nxt_set_next l b c Hlb) as (l1 & -> & Hn1 & Hp1 & Hd1). cbn [bind].
  destruct (prv_set_prev l1 b HEAD) as (l2 & -> & Hp2 & Hn2 & Hd2).
  { apply elem_of_dom. rewrite Hd1. by apply elem_of_dom. } cbn [bind].
  rewrite (get_link_ok l2 HEAD c (default HEAD (last xs))).
  2:{ by rewrite Hn2, Hn1, decide_False. } 2:{ by rewrite Hp2, Hp1, decide_False. } cbn [bind next].
  destruct (prv_set_prev l2 c b) as (l3 & -> & Hp3 & Hn3 & Hd3).
  { apply elem_of_dom. rewrite Hd2, Hd1. apply elem_of_dom. by apply (prv_live _ _ HEAD). } cbn [bind].
  destruct (nxt_set_next l3 HEAD b) as (l4 & -> & Hn4 & Hp4 & Hd4).
  { apply elem_of_dom. rewrite Hd3, Hd2, Hd1. apply elem_of_dom. by apply (nxt_live _ _ c). }
  exists l4. split; [done|]. split; [|by rewrite Hd4, Hd3, Hd2].
  apply not_elem_of_cons in Hb as [Hb1 Hb2]. apply NoDup_cons in Hnd as [Hh Hnd].
  split; [|constructor; [apply not_elem_of_cons; split; [congruence|done]|by constructor]].
  cbn [app]. rewrite Hv. split; [|split].
  - rewrite Hn4, Hp4, Hp3, Hp2. by rewrite decide_True, decide_False, decide_True by done.
  - rewrite Hn4, Hn3, Hn2, Hn1, Hp4, Hp3. by rewrite decide_False, decide_True, decide_True by done.
  - change (chain l4 (c :: v)). apply (chain_ext l); [| |done].
    + rewrite Hrl. intros x Hx. rewrite Hn4, Hn3, Hn2, Hn1. by rewrite !decide_False by (intros ->; done).
    + cbn [tail]. intros y Hy. apply NoDup_cons in Hns as [Hcv _]. apply not_elem_of_cons in Hbv as [_ Hbv].
      rewrite Hp4, Hp3, Hp2, Hp1. by rewrite !decide_False by (intros ->; done).
Qed.

(** The neighbours of an element. *)
Lemma ring_mid l xs y ys :
  ring l (xs ++ y :: ys) → get_link y l = Ok (mk_link (default HEAD (last xs)) (default HEAD (head ys))) ∧ y ≠ HEAD.
Proof.
  intros [Hc Hnd]. split.
  - rewrite <-app_assoc in Hc. cbn [app] in Hc. rewrite app_comm_cons in Hc. apply chain_app in Hc as [Hc1 Hc2].
    apply get_link_ok.
    + destruct ys as [|z ys]; cbn in Hc2; tauto.
    + destruct (last xs) as [z|] eqn:Hz.
      * apply last_Some in Hz as [xs' ->]. rewrite app_comm_cons, <-app_assoc in Hc1. cbn [app] in Hc1.
        rewrite app_comm_cons in Hc1. apply chain_app in Hc1 as [_ Hc1]. cbn in Hc1. tauto.
      * apply last_None in Hz as ->. cbn in Hc1. tauto.
  - intros ->. apply NoDup_cons in Hnd as [Hnd _]. apply Hnd, elem_of_app. right. left.
Qed.

(** ** The searches *)

Definition is_block (s : bcache) (d n b : Z) : bool :=
  match bufs s !! b with Some x => (dev x =? d) && (blockno x =? n) | None => false end.
Definition unused (s : bcache) (b : Z) : bool :=
  match bufs s !! b with Some x => refcnt x =? 0 | None => false end.

Lemma find_cached_spec fuel s d n xs ys :
  ring (links s) (xs ++ ys) → (∀ b, b ∈ ys → is_Some (bufs s !! b)) → (length ys < fuel)%nat →
  find_cached fuel d n (default HEAD (head ys)) s = Ok (List.find (is_block s d n) ys).
Proof.
  revert xs ys; induction fuel as [|fuel IH]; intros xs ys Hr Hl Hf; [lia|]. cbn [find_cached].
  destruct ys as [|y ys]; [done|]. cbn [head from_option id List.find].
  destruct (ring_mid _ _ _ _ Hr) as [Hlk Hne]. rewrite (proj2 (Z.eqb_neq _ _) Hne).
  destruct (Hl y) as [x Hx]; [left|]. unfold get_buf, is_block. rewrite Hx. cbn [of_opt bind].
  destruct ((dev x =? d) && (blockno x =? n)); [done|]. rewrite Hlk. cbn [bind next].
  apply (IH (xs ++ [y])); [by rewrite <-app_assoc|intros b Hb; apply Hl; by right|cbn in Hf; lia].
Qed.

Lemma find_unused_spec fuel s xs ys :
  ring (links s) (xs ++ ys) → (∀ b, b ∈ xs → is_Some (bufs s !! b)) → (length xs < fuel)%nat →
  find_unused fuel (default HEAD (last xs)) s = Ok (List.find (unused s) (rev xs)).
Proof.
  revert xs ys; induction fuel as [|fuel IH]; intros xs ys Hr Hl Hf; [lia|]. cbn [find_unused].
  destruct (exists_last_or xs) as [-> | (xs' & y & ->)]; [done|].
  rewrite last_snoc, rev_app_distr. cbn [from_option id rev app List.find].
  rewrite <-app_assoc in Hr. cbn [app] in Hr.
  destruct (ring_mid _ _ _ _ Hr) as [Hlk Hne]. rewrite (proj2 (Z.eqb_neq _ _) Hne).
  destruct (Hl y) as [x Hx]; [apply elem_of_app; right; left|]. unfold get_buf, unused. rewrite Hx. cbn [of_opt bind].
  destruct (refcnt x =? 0); [done|]. rewrite Hlk. cbn [bind prev].
  apply (IH xs' (y :: ys)); [done|intros b Hb; apply Hl, elem_of_app; by left|rewrite length_app in Hf; cbn in Hf; lia].
Qed.

(** The first element that satisfies a test. *)
Lemma find_split (f : Z → bool) xs b :
  List.find f xs = Some b → ∃ l r, xs = l ++ b :: r ∧ f b = true ∧ ∀ x, x ∈ l → f x = false.
Proof.
  induction xs as [|x xs IH]; cbn [List.find]; [done|]. destruct (f x) eqn:E.
  - intros [= ->]. exists [], xs. split_and!; [done|done|]. intros y Hy. by apply elem_of_nil in Hy.
  - intros H. destruct (IH H) as (l & r & -> & Hb & Hl). exists (x :: l), r. split_and!; [done|done|].
    intros y [->|Hy]%elem_of_cons; [done|by apply Hl].
Qed.
Lemma find_none_all (f : Z → bool) xs : List.find f xs = None → ∀ x, x ∈ xs → f x = false.
Proof.
  intros H x Hx. apply list_elem_of_In in Hx. by apply (find_none _ _ H).
Qed.

End Bio.
