(* ===== verification/BioInv.v ===== *)
(** * The invariant of the buffer cache

    What holds of the cache and its users between any two steps, and that
    every step keeps it. *)

From stdpp Require Import sorting functions.
From S2P Require Import Prelude LockDefs BioDefs Bio.
Import LockDefs BioDefs Bio.

Module BioInv.

(** ** Counting users *)

Definition refs (u : users) (b : Z) : nat := size (filter (λ kv, kv.1.2 = b) u).

Lemma refs_insert_fresh p b v u c :
  u !! (p, b) = None → refs (<[(p, b) := v]> u) c = (refs u c + if decide (c = b) then 1 else 0)%nat.
Proof.
  intros Hn. unfold refs. destruct (decide (c = b)) as [->|Hc].
  - rewrite map_filter_insert_True by done. rewrite map_size_insert_None; [lia|].
    apply map_lookup_filter_None. by left.
  - rewrite map_filter_insert_not; [lia|]. cbn. intros. congruence.
Qed.

Lemma refs_insert_old p b v v' u c : u !! (p, b) = Some v → refs (<[(p, b) := v']> u) c = refs u c.
Proof.
  intros Hs. unfold refs. destruct (decide (c = b)) as [->|Hc].
  - rewrite map_filter_insert_True by done. rewrite map_size_insert_Some; [done|].
    exists v. by apply map_lookup_filter_Some.
  - rewrite map_filter_insert_not; [done|]. cbn. intros. congruence.
Qed.

Lemma refs_delete p b v u c :
  u !! (p, b) = Some v → refs (delete (p, b) u) c = (refs u c - if decide (c = b) then 1 else 0)%nat.
Proof.
  intros Hs. unfold refs. rewrite map_filter_delete. destruct (decide (c = b)) as [->|Hc].
  - rewrite map_size_delete_Some; [lia|]. exists v. by apply map_lookup_filter_Some.
  - rewrite map_size_delete_None; [lia|]. apply map_lookup_filter_None. right. cbn. intros ? _. congruence.
Qed.

Lemma refs_pos p b v u : u !! (p, b) = Some v → (0 < refs u b)%nat.
Proof.
  intros Hs. unfold refs. apply Nat.neq_0_lt_0. intros H0. apply map_size_empty_inv in H0.
  assert (filter (λ kv : Z * Z * (phase * Z), kv.1.2 = b) u !! (p, b) = Some v) as H
    by (by apply map_lookup_filter_Some). by rewrite H0, lookup_empty in H.
Qed.

Lemma refs_le u b : (refs u b ≤ size u)%nat.
Proof. unfold refs. apply map_size_filter. Qed.

(** ** The invariant *)

(** A buffer that holds nothing and that nobody uses. *)
Definition idle (x : buf) : Prop := valid x = false ∧ refcnt x = 0.

(** Of two buffers for the same block the one further back in the list is
    idle (at boot all buffers are for block 0). *)
Definition later_idle (s : bcache) (b c : Z) : Prop :=
  ∀ x y, bufs s !! b = Some x → bufs s !! c = Some y → blockno x = blockno y → idle y.

Definition holder (ph : phase) : Prop :=
  match ph with Fills | Has _ => True | _ => False end.

Record binv (xs : list Z) (s : bcache) (u : users) : Prop := {
  bi_lock : c_lock s = false;
  bi_ring : ring (links s) xs;
  bi_bufs : ∀ b, b ∈ xs ↔ is_Some (bufs s !! b);
  bi_dup : StronglySorted (later_idle s) xs;
  bi_refs : ∀ b x, bufs s !! b = Some x → refcnt x = Z.of_nat (refs u b);
  bi_size : Z.of_nat (size u) < 2 ^ 32;
  bi_block : ∀ b x, bufs s !! b = Some x → dev x = 0 ∧ 0 ≤ blockno x < 2 ^ 29;
  bi_user : ∀ p b ph n, u !! (p, b) = Some (ph, n) →
    ∃ x, bufs s !! b = Some x ∧ blockno x = n ∧
      (holder ph → lock x = mk_sleep 1 p) ∧ (∀ d, ph = Has d → valid x = true);
  bi_free : ∀ b x, bufs s !! b = Some x → sl_locked (lock x) ≠ 0 →
    ∃ p ph n, u !! (p, b) = Some (ph, n) ∧ holder ph;
  bi_data : ∀ b x, bufs s !! b = Some x → valid x = true →
    (∀ p n, u !! (p, b) ≠ Some (Has true, n)) → data x = disk s (sector x)
}.

(** ** Facts about a state that satisfies it *)

Section facts.
Context (xs : list Z) (s : bcache) (u : users) (Hi : binv xs s u).

Lemma nodup_xs : NoDup xs.
Proof. pose proof (bi_ring _ _ _ Hi) as [_ H]. by apply NoDup_cons in H as [_ ?]. Qed.

Lemma split_at b x : bufs s !! b = Some x → ∃ l r, xs = l ++ b :: r ∧ (b ∉ l) ∧ (b ∉ r).
Proof.
  intros Hb. assert (b ∈ xs) as Hin by (apply (bi_bufs _ _ _ Hi); eauto).
  apply list_elem_of_split in Hin as (l & r & Hxs). exists l, r. split; [done|].
  pose proof nodup_xs as Hnd. rewrite Hxs in Hnd. apply NoDup_app in Hnd as (_ & H2 & H3).
  apply NoDup_cons in H3 as [H3 _]. split; [intros Hl; apply (H2 b Hl); left|done].
Qed.

(** Two users of a block share its buffer; so do a user and valid data. *)
Lemma same_block b c x y :
  bufs s !! b = Some x → bufs s !! c = Some y → blockno x = blockno y → ¬ idle x → ¬ idle y → b = c.
Proof.
  intros Hb Hc Hk Hx Hy. destruct (decide (b = c)) as [|Hne]; [done|]. exfalso.
  destruct (split_at b x Hb) as (l & r & Hxs & _ & _).
  assert (c ∈ xs) as Hin by (apply (bi_bufs _ _ _ Hi); eauto).
  pose proof (bi_dup _ _ _ Hi) as Hd. rewrite Hxs in Hd, Hin.
  apply elem_of_app in Hin as [Hin|[->|Hin]%elem_of_cons]; [|done|].
  - apply Hx. apply (StronglySorted_app_1_elem_of _ _ _ c b Hd) with (x := y); [done|left|done|done|done].
  - apply StronglySorted_app in Hd as (_ & _ & Hd). apply StronglySorted_cons in Hd as [Hd _].
    rewrite Forall_forall in Hd. apply Hy. by apply (Hd c Hin x y).
Qed.

Lemma user_not_idle p b v x : u !! (p, b) = Some v → bufs s !! b = Some x → ¬ idle x.
Proof.
  intros Hu Hb [_ H0]. rewrite (bi_refs _ _ _ Hi b x Hb) in H0. pose proof (refs_pos p b v u Hu). lia.
Qed.

(** The lock has one holder. *)
Lemma one_holder p q b ph ph' n n' :
  u !! (p, b) = Some (ph, n) → u !! (q, b) = Some (ph', n') → holder ph → holder ph' → p = q.
Proof.
  intros Hp Hq H1 H2. destruct (bi_user _ _ _ Hi _ _ _ _ Hp) as (x & Hx & _ & Hl & _).
  destruct (bi_user _ _ _ Hi _ _ _ _ Hq) as (y & Hy & _ & Hl' & _). rewrite Hx in Hy. injection Hy as <-.
  specialize (Hl H1). rewrite (Hl' H2) in Hl. congruence.
Qed.

Lemma sector_inj b c x y :
  bufs s !! b = Some x → bufs s !! c = Some y → sector x = sector y → blockno x = blockno y.
Proof.
  intros Hb Hc. destruct (bi_block _ _ _ Hi b x Hb) as [_ H1]. destruct (bi_block _ _ _ Hi c y Hc) as [_ H2].
  unfold sector. change (BSIZE / 512) with 8. rewrite !u32_small by lia. lia.
Qed.
End facts.

(** The order of duplicates after a change of one buffer. *)
Lemma dup_update s s' l b r :
  NoDup (l ++ b :: r) → (∀ c, c ≠ b → bufs s' !! c = bufs s !! c) →
  StronglySorted (later_idle s) (l ++ b :: r) →
  (∀ x, x ∈ l → later_idle s' x b) → (∀ y, y ∈ r → later_idle s' b y) →
  StronglySorted (later_idle s') (l ++ b :: r).
Proof.
  intros Hnd Hs Hd Hl Hr. apply NoDup_app in Hnd as (Hn1 & Hn2 & Hn3). apply NoDup_cons in Hn3 as [Hn3 Hn4].
  assert (Hbl : ∀ x, x ∈ l → x ≠ b) by (intros x Hx ->; apply (Hn2 b Hx); left).
  assert (Hbr : ∀ x, x ∈ r → x ≠ b) by (intros x Hx ->; done).
  assert (Hsame : ∀ x y, x ≠ b → y ≠ b → later_idle s x y → later_idle s' x y).
  { intros x y Hx Hy H X Y HX HY. rewrite Hs in HX, HY by done. by apply (H X Y). }
  assert (Hsub : ∀ zs, (∀ z, z ∈ zs → z ≠ b) → StronglySorted (later_idle s) zs → StronglySorted (later_idle s') zs).
  { induction zs as [|z zs IH]; intros Hz HS; [constructor|]. apply StronglySorted_cons in HS as [HS1 HS2].
    constructor; [apply IH; [intros; apply Hz; by right|done]|].
    rewrite Forall_forall in HS1 |- *. intros y Hy. apply Hsame; [apply Hz; left|apply Hz; by right|by apply HS1]. }
  apply StronglySorted_app in Hd as (Hd1 & Hd2 & Hd3). apply StronglySorted_cons in Hd3 as [_ Hd3].
  apply StronglySorted_app. split_and!.
  - intros x y Hx [->|Hy]%elem_of_cons; [by apply Hl|]. apply Hsame; [by apply Hbl|by apply Hbr|].
    apply Hd1; [done|by right].
  - by apply Hsub.
  - constructor; [by apply Hsub|]. rewrite Forall_forall. intros y Hy. by apply Hr.
Qed.

(** ** Steps that change one buffer *)

(** A buffer in use is the first one for its block. *)
Lemma dup_user xs s u b x :
  binv xs s u → bufs s !! b = Some x → ¬ idle x →
  ∃ l r, xs = l ++ b :: r ∧ ∀ c y, bufs s !! c = Some y → blockno y = blockno x → (c ∉ l) ∧ (c ∈ r → idle y).
Proof.
  intros Hi Hb Hx. destruct (split_at xs s u Hi b x Hb) as (l & r & Hxs & _ & _). exists l, r. split; [done|].
  intros c y Hc Hk. pose proof (bi_dup _ _ _ Hi) as Hd. rewrite Hxs in Hd. split.
  - intros Hl. apply Hx. apply (StronglySorted_app_1_elem_of _ _ _ c b Hd) with (x := y); [done|left|done|done|done].
  - intros Hr. apply StronglySorted_app in Hd as (_ & _ & Hd). apply StronglySorted_cons in Hd as [Hd _].
    rewrite Forall_forall in Hd. by apply (Hd c Hr x y).
Qed.

Lemma binv_upd xs s u u' b x x' dk :
  binv xs s u → bufs s !! b = Some x →
  dev x' = 0 ∧ 0 ≤ blockno x' < 2 ^ 29 →
  (∃ l r, xs = l ++ b :: r ∧ ∀ c y, bufs s !! c = Some y → blockno y = blockno x' →
     (c ∉ l) ∧ (c ∈ r → idle y)) →
  refcnt x' = Z.of_nat (refs u' b) → (∀ c, c ≠ b → refs u' c = refs u c) → Z.of_nat (size u') < 2 ^ 32 →
  (∀ p c, c ≠ b → u' !! (p, c) = u !! (p, c)) →
  (∀ p ph n, u' !! (p, b) = Some (ph, n) →
     blockno x' = n ∧ (holder ph → lock x' = mk_sleep 1 p) ∧ (∀ d, ph = Has d → valid x' = true)) →
  (sl_locked (lock x') ≠ 0 → ∃ p ph n, u' !! (p, b) = Some (ph, n) ∧ holder ph) →
  (valid x' = true → (∀ p n, u' !! (p, b) ≠ Some (Has true, n)) → data x' = dk (sector x')) →
  (∀ c y, c ≠ b → bufs s !! c = Some y → valid y = true → dk (sector y) = disk s (sector y)) →
  binv xs (mk_bcache false (<[b := x']> (bufs s)) (links s) dk) u'.
Proof.
  intros Hi Hb Hk (l & r & Hxs & Hdup) Hrb Hrc Hsz Huc Hub Hfree Hdata Hdisk.
  assert (Hne : ∀ c, c ≠ b → <[b := x']> (bufs s) !! c = bufs s !! c) by (intros; by apply lookup_insert_ne).
  split; cbn [c_lock bufs links disk].
  - done.
  - apply Hi.
  - intros c. rewrite (bi_bufs _ _ _ Hi). destruct (decide (c = b)) as [->|Hc]; [|by rewrite Hne].
    rewrite lookup_insert_eq, Hb. split; eauto.
  - pose proof (nodup_xs xs s u Hi) as Hnd. pose proof (bi_dup _ _ _ Hi) as Hd. rewrite Hxs in Hnd, Hd |- *.
    apply (dup_update s); [done|done|done| |].
    + intros c Hc y X Hy HX Hkey. cbn [bufs] in *. rewrite lookup_insert_eq in HX. injection HX as <-.
      assert (c ≠ b) as Hcb. { intros ->. apply NoDup_app in Hnd as (_ & Hn & _). apply (Hn b Hc). left. }
      rewrite Hne in Hy by done. by destruct (Hdup c y Hy Hkey) as [? _].
    + intros c Hc X y HX Hy Hkey. cbn [bufs] in *. rewrite lookup_insert_eq in HX. injection HX as <-.
      assert (c ≠ b) as Hcb. { intros ->. apply NoDup_app in Hnd as (_ & _ & Hn). by apply NoDup_cons in Hn as [Hn _]. }
      rewrite Hne in Hy by done. by apply (Hdup c y Hy (eq_sym Hkey)).
  - intros c y Hy. destruct (decide (c = b)) as [->|Hc].
    + rewrite lookup_insert_eq in Hy. by injection Hy as <-.
    + rewrite Hne in Hy by done. rewrite Hrc by done. by apply (bi_refs _ _ _ Hi).
  - done.
  - intros c y Hy. destruct (decide (c = b)) as [->|Hc].
    + rewrite lookup_insert_eq in Hy. by injection Hy as <-.
    + rewrite Hne in Hy by done. by apply (bi_block _ _ _ Hi c).
  - intros p c ph n Hu. destruct (decide (c = b)) as [->|Hc].
    + rewrite lookup_insert_eq. exists x'. split; [done|]. by apply Hub.
    + rewrite Hne by done. rewrite Huc in Hu by done. by apply (bi_user _ _ _ Hi p).
  - intros c y Hy Hl. destruct (decide (c = b)) as [->|Hc].
    + rewrite lookup_insert_eq in Hy. injection Hy as <-. by apply Hfree.
    + rewrite Hne in Hy by done. destruct (bi_free _ _ _ Hi c y Hy Hl) as (p & ph & n & Hu & Hh).
      exists p, ph, n. by rewrite Huc.
  - intros c y Hy Hv Hcl. destruct (decide (c = b)) as [->|Hc].
    + rewrite lookup_insert_eq in Hy. injection Hy as <-. by apply Hdata.
    + rewrite Hne in Hy by done. rewrite (Hdisk c y) by done. apply (bi_data _ _ _ Hi c y Hy Hv).
      intros p n. rewrite <-Huc by done. apply Hcl.
Qed.

(** ** Every step keeps the invariant *)

(** The result of [bget]: the first buffer for the block, or else the last
    one that nobody uses. *)
Lemma bget_eq xs s u d n :
  binv xs s u →
  bget d n s =
    match List.find (is_block s d n) xs with
    | Some b => let* x := get_buf b s in
        Ok (b, mk_bcache false (<[b := b_refcnt (u32 (refcnt x + 1)) x]> (bufs s)) (links s) (disk s))
    | None =>
        match List.find (unused s) (rev xs) with
        | Some b => let* x := get_buf b s in
            Ok (b, mk_bcache false (<[b := b_recycle d n x]> (bufs s)) (links s) (disk s))
        | None => Panic "bget: no buffers"
        end
    end.
Proof.
  intros Hi. pose proof (bi_ring _ _ _ Hi) as Hr. unfold bget, acquire. rewrite (bi_lock _ _ _ Hi). cbn [bind].
  destruct (ring_head _ _ Hr) as [Hn Hp]. change (links (with_lock true s)) with (links s).
  rewrite (get_link_ok _ _ _ _ Hn Hp). cbn [bind next prev].
  assert (Hlive : ∀ b, b ∈ xs → is_Some (bufs s !! b)) by (intros b; apply (bi_bufs _ _ _ Hi)).
  assert (Hlen : (length xs < scan_fuel s)%nat).
  { unfold scan_fuel. rewrite <-size_dom. assert (dom (bufs s) = list_to_set xs) as ->.
    { apply set_eq. intros b. rewrite elem_of_list_to_set, (bi_bufs _ _ _ Hi). apply elem_of_dom. }
    rewrite size_list_to_set by (by apply (nodup_xs xs s u)). lia. }
  rewrite (find_cached_spec _ (with_lock true s) d n [] xs) by done. cbn [bind].
  change (is_block (with_lock true s)) with (is_block s).
  destruct (List.find (is_block s d n) xs) as [b|].
  - unfold set_buf, get_buf. cbn [with_lock bufs].
    by destruct (bufs s !! b).
  - rewrite (find_unused_spec _ (with_lock true s) xs []) by (by rewrite ?app_nil_r). cbn [bind].
    change (unused (with_lock true s)) with (unused s).
    destruct (List.find (unused s) (rev xs)) as [b|]; [|done].
    unfold set_buf, get_buf. cbn [with_lock bufs]. by destruct (bufs s !! b).
Qed.

Lemma other_user {A} (p q b c : Z) (v : A) (u : gmap (Z * Z) A) :
  c ≠ b → <[(p, b) := v]> u !! (q, c) = u !! (q, c).
Proof. intros Hc. apply lookup_insert_ne. congruence. Qed.

(** A user in the table after an insertion at [(p, b)]. *)
Lemma user_cases {A} (p q b : Z) (v w : A) (u : gmap (Z * Z) A) :
  <[(p, b) := v]> u !! (q, b) = Some w → q = p ∧ w = v ∨ q ≠ p ∧ u !! (q, b) = Some w.
Proof.
  destruct (decide (q = p)) as [->|Hq].
  - rewrite lookup_insert_eq. intros [= ->]. by left.
  - rewrite lookup_insert_ne by congruence. by right.
Qed.

Lemma binv_get xs s u p n b s' :
  binv xs s u → 0 ≤ n < 2 ^ 29 → Z.of_nat (size u) + 1 < 2 ^ 32 →
  bget 0 n s = Ok (b, s') → u !! (p, b) = None → binv xs s' (<[(p, b) := (Wants, n)]> u).
Proof.
  intros Hi Hn Hsz Hget Hfresh. rewrite (bget_eq xs s u 0 n Hi) in Hget.
  assert (Hsize : Z.of_nat (size (<[(p, b) := (Wants, n)]> u)) < 2 ^ 32)
    by (rewrite map_size_insert_None by done; lia).
  destruct (List.find (is_block s 0 n) xs) as [c|] eqn:Hf.
  - apply find_split in Hf as (l & r & Hxs & Hc & Hl). unfold is_block in Hc.
    destruct (bufs s !! c) as [x|] eqn:Hx; [|done]. unfold get_buf in Hget. rewrite Hx in Hget. cbn in Hget.
    injection Hget as -> <-. apply andb_true_iff in Hc as [_ Hc]. apply Z.eqb_eq in Hc.
    pose proof (refs_le u b) as Hle. pose proof (bi_refs _ _ _ Hi b x Hx) as Hr.
    apply (binv_upd xs s u _ b x); try done; cbn [b_refcnt dev blockno refcnt lock valid data].
    + by apply (bi_block _ _ _ Hi b).
    + exists l, r. split; [done|]. intros c y Hy Hk. split.
      * intros Hcl. specialize (Hl c Hcl). unfold is_block in Hl. rewrite Hy in Hl.
        destruct (bi_block _ _ _ Hi c y Hy) as [Hd _]. rewrite Hd in Hl. cbn in Hl.
        apply Z.eqb_neq in Hl. congruence.
      * intros Hcr. pose proof (bi_dup _ _ _ Hi) as Hd. rewrite Hxs in Hd.
        apply StronglySorted_app in Hd as (_ & _ & Hd). apply StronglySorted_cons in Hd as [Hd _].
        rewrite Forall_forall in Hd. by apply (Hd c Hcr x y).
    + rewrite u32_small by lia. rewrite refs_insert_fresh, decide_True by done. lia.
    + intros c Hcb. rewrite refs_insert_fresh, decide_False by done. lia.
    + intros q c Hcb. by apply other_user.
    + intros q ph m [(-> & [= -> ->])|[_ Hu]]%user_cases; [by split_and!|].
      destruct (bi_user _ _ _ Hi q b ph m Hu) as (x0 & Hx0 & Hrest). rewrite Hx in Hx0. by injection Hx0 as <-.
    + intros Hlk. destruct (bi_free _ _ _ Hi b x Hx Hlk) as (q & ph & m & Hu & Hh). exists q, ph, m.
      split; [|done]. rewrite lookup_insert_ne; [done|]. intros [= ->]. congruence.
    + intros Hv Hcl. apply (bi_data _ _ _ Hi b x Hx Hv). intros q m Hu. apply (Hcl q m).
      rewrite lookup_insert_ne; [done|]. intros [= ->]. congruence.
  - destruct (List.find (unused s) (rev xs)) as [c|] eqn:Hu; [|done].
    apply find_split in Hu as (l0 & r0 & _ & Hc & _). unfold unused in Hc.
    destruct (bufs s !! c) as [x|] eqn:Hx; [|done]. unfold get_buf in Hget. rewrite Hx in Hget. cbn in Hget.
    injection Hget as -> <-. apply Z.eqb_eq in Hc. pose proof (bi_refs _ _ _ Hi b x Hx) as Hr.
    assert (Hnone : ∀ q v, u !! (q, b) ≠ Some v) by (intros q v Hq; pose proof (refs_pos q b v u Hq); lia).
    apply (binv_upd xs s u _ b x); try done; cbn [b_recycle dev blockno refcnt lock valid data].
    + destruct (split_at xs s u Hi b x Hx) as (l & r & Hxs & _ & _). exists l, r. split; [done|].
      intros c y Hy Hk. exfalso. assert (c ∈ xs) as Hin by (apply (bi_bufs _ _ _ Hi); eauto).
      pose proof (find_none_all _ _ Hf c Hin) as Hb. unfold is_block in Hb. rewrite Hy in Hb.
      destruct (bi_block _ _ _ Hi c y Hy) as [Hd _]. rewrite Hd, Hk, !Z.eqb_refl in Hb. done.
    + rewrite refs_insert_fresh, decide_True by done. lia.
    + intros c Hcb. rewrite refs_insert_fresh, decide_False by done. lia.
    + intros q c Hcb. by apply other_user.
    + intros q ph m [(-> & [= -> ->])|[_ Hq]]%user_cases; [by split_and!|]. by destruct (Hnone q (ph, m)).
    + intros Hlk. destruct (bi_free _ _ _ Hi b x Hx Hlk) as (q & ph & m & Hq & _). by destruct (Hnone q (ph, m)).
Qed.

(** A step of the user [p] of buffer [b] that keeps its reference. *)
Lemma binv_phase xs s u p b ph ph' n x x' dk :
  binv xs s u → u !! (p, b) = Some (ph, n) → bufs s !! b = Some x →
  dev x' = dev x → blockno x' = blockno x → refcnt x' = refcnt x →
  (holder ph' → lock x' = mk_sleep 1 p) → (∀ d, ph' = Has d → valid x' = true) →
  (∀ q ph2 m, q ≠ p → u !! (q, b) = Some (ph2, m) →
     (holder ph2 → lock x' = mk_sleep 1 q) ∧ (∀ d, ph2 = Has d → valid x' = true)) →
  (sl_locked (lock x') ≠ 0 → holder ph') →
  (valid x' = true → ph' ≠ Has true → (∀ q m, q ≠ p → u !! (q, b) ≠ Some (Has true, m)) →
     data x' = dk (sector x')) →
  (∀ c y, c ≠ b → bufs s !! c = Some y → valid y = true → dk (sector y) = disk s (sector y)) →
  binv xs (mk_bcache false (<[b := x']> (bufs s)) (links s) dk) (<[(p, b) := (ph', n)]> u).
Proof.
  intros Hi Hu Hx Hdev Hblk Href Hh Hv Hoth Hlk Hdata Hdisk.
  destruct (bi_user _ _ _ Hi p b ph n Hu) as (x0 & Hx0 & Hn & _). rewrite Hx in Hx0. injection Hx0 as <-.
  apply (binv_upd xs s u _ b x); try done.
  - rewrite Hdev, Hblk. by apply (bi_block _ _ _ Hi b).
  - rewrite Hblk. apply (dup_user xs s u b x Hi Hx). by apply (user_not_idle xs s u Hi p b (ph, n)).
  - rewrite Href, (refs_insert_old p b (ph, n)) by done. by apply (bi_refs _ _ _ Hi).
  - intros c _. by rewrite (refs_insert_old p b (ph, n)).
  - rewrite map_size_insert_Some by eauto. apply Hi.
  - intros q c Hc. by apply other_user.
  - intros q ph2 m [(-> & [= -> ->])|[Hq Hu2]]%user_cases; [by rewrite Hblk|].
    destruct (Hoth q ph2 m Hq Hu2) as [H1 H2]. split; [|done]. rewrite Hblk.
    destruct (bi_user _ _ _ Hi q b ph2 m Hu2) as (x0 & Hx0 & Hm & _). rewrite Hx in Hx0. by injection Hx0 as <-.
  - intros Hl. exists p, ph', n. split; [apply lookup_insert_eq|by apply Hlk].
  - intros Hvx Hcl. apply Hdata; [done| |].
    + intros ->. by apply (Hcl p n), lookup_insert_eq.
    + intros q m Hq Hu2. apply (Hcl q m). rewrite lookup_insert_ne; [done|congruence].
Qed.

Section step.
Context (xs : list Z) (s : bcache) (u : users) (Hi : binv xs s u).

Lemma eta_cache m : mk_bcache false m (links s) (disk s) = with_bufs m s.
Proof. unfold with_bufs. by rewrite (bi_lock _ _ _ Hi). Qed.

Lemma user_buf p b ph n : u !! (p, b) = Some (ph, n) → ∃ x, bufs s !! b = Some x ∧ blockno x = n ∧
  (holder ph → lock x = mk_sleep 1 p) ∧ (∀ d, ph = Has d → valid x = true).
Proof. apply Hi. Qed.

(** While [p] holds the lock no other process does. *)
Lemma others_wait p b ph n x q ph2 m :
  u !! (p, b) = Some (ph, n) → holder ph → q ≠ p → u !! (q, b) = Some (ph2, m) →
  (holder ph2 → lock x = mk_sleep 1 q) ∧ (∀ d, ph2 = Has d → valid x = true).
Proof.
  intros Hu Hh Hq Hu2. split; [intros Hh2|intros d ->]; exfalso; apply Hq.
  - by apply (one_holder xs s u Hi q p b ph2 ph m n).
  - by apply (one_holder xs s u Hi q p b (Has d) ph m n).
Qed.

Lemma not_dirty p b ph n : u !! (p, b) = Some (ph, n) → ph ≠ Has true →
  (∀ q m, q ≠ p → u !! (q, b) ≠ Some (Has true, m)) → ∀ q m, u !! (q, b) ≠ Some (Has true, m).
Proof. intros Hu Hne Ho q m Hq. destruct (decide (q = p)) as [->|Hqp]; [congruence|by apply (Ho q m)]. Qed.

Lemma binv_lock p n b s' :
  u !! (p, b) = Some (Wants, n) → lock_buf p b s = Ok (Some s') → binv xs s' (<[(p, b) := (Fills, n)]> u).
Proof.
  intros Hu Hl. destruct (user_buf _ _ _ _ Hu) as (x & Hx & Hn & _). unfold lock_buf, set_buf, get_buf in Hl.
  rewrite Hx in Hl. cbn [of_opt bind] in Hl. destruct (sl_locked (lock x) =? 0) eqn:E; [|done]. cbn [negb bind] in Hl.
  injection Hl as <-. apply Z.eqb_eq in E. rewrite <-eta_cache.
  apply (binv_phase xs s u p b Wants Fills n x); try done.
  - intros q ph2 m Hq Hu2. destruct (user_buf _ _ _ _ Hu2) as (x0 & Hx0 & _ & Hl2 & Hv2). rewrite Hx in Hx0. injection Hx0 as <-.
    split; [|done]. intros Hh. rewrite (Hl2 Hh) in E. done.
  - intros Hv _ Hcl. apply (bi_data _ _ _ Hi b x Hx Hv). by apply (not_dirty p b Wants n).
Qed.

Lemma binv_fill p n b s' :
  u !! (p, b) = Some (Fills, n) → bread_fill b s = Ok s' → binv xs s' (<[(p, b) := (Has false, n)]> u).
Proof.
  intros Hu Hf. destruct (user_buf _ _ _ _ Hu) as (x & Hx & Hn & Hl & _). specialize (Hl I).
  destruct (bi_block _ _ _ Hi b x Hx) as [Hdev _].
  unfold bread_fill, get_buf in Hf. rewrite Hx in Hf. cbn [of_opt bind] in Hf.
  destruct (valid x) eqn:Hv; cbn [negb] in Hf.
  - injection Hf as <-. assert (s = mk_bcache false (<[b := x]> (bufs s)) (links s) (disk s)) as ->.
    { rewrite eta_cache, insert_id by done. by destruct s. }
    apply (binv_phase xs s u p b Fills (Has false) n x); try done.
    + intros q ph2 m Hq Hu2. by apply (others_wait p b Fills n _ q ph2 m).
    + intros _ _ Hcl. apply (bi_data _ _ _ Hi b x Hx Hv). by apply (not_dirty p b Fills n).
  - rewrite Hdev, Z.eqb_refl in Hf. unfold disk_read, set_buf, get_buf in Hf. rewrite Hx in Hf. cbn [of_opt bind] in Hf.
    cbn [with_bufs bufs] in Hf. rewrite lookup_insert_eq in Hf. cbn [of_opt bind] in Hf. injection Hf as <-.
    rewrite insert_insert_eq. assert (c_lock s = false) as Hc by apply Hi.
    unfold with_bufs. cbn [bufs c_lock links disk]. rewrite Hc.
    apply (binv_phase xs s u p b Fills (Has false) n x); try done.
    intros q ph2 m Hq Hu2. by apply (others_wait p b Fills n _ q ph2 m).
Qed.

Lemma binv_edit p n d b v s' :
  u !! (p, b) = Some (Has d, n) → set_buf b (b_data v) s = Ok s' → binv xs s' (<[(p, b) := (Has true, n)]> u).
Proof.
  intros Hu Hs. destruct (user_buf _ _ _ _ Hu) as (x & Hx & Hn & Hl & Hv). specialize (Hl I).
  unfold set_buf, get_buf in Hs. rewrite Hx in Hs. cbn [of_opt bind] in Hs. injection Hs as <-. rewrite <-eta_cache.
  apply (binv_phase xs s u p b (Has d) (Has true) n x); try done.
  - intros _ _. by apply (Hv d).
  - intros q ph2 m Hq Hu2. by apply (others_wait p b (Has d) n _ q ph2 m).
Qed.

Lemma holds_user p n d b : u !! (p, b) = Some (Has d, n) → holds_buf p b s = Ok true.
Proof.
  intros Hu. destruct (user_buf _ _ _ _ Hu) as (x & Hx & _ & Hl & _). unfold holds_buf, get_buf. rewrite Hx.
  cbn [of_opt bind]. rewrite (Hl I). cbn. by rewrite Z.eqb_refl.
Qed.

Lemma binv_write p n d b s' :
  u !! (p, b) = Some (Has d, n) → bwrite p b s = Ok s' → binv xs s' (<[(p, b) := (Has false, n)]> u).
Proof.
  intros Hu Hw. destruct (user_buf _ _ _ _ Hu) as (x & Hx & Hn & Hl & Hv). specialize (Hl I).
  unfold bwrite in Hw. rewrite (holds_user p n d b Hu) in Hw. cbn [bind negb] in Hw.
  destruct (bi_block _ _ _ Hi b x Hx) as [Hdev _].
  unfold disk_write, get_buf in Hw. rewrite Hx in Hw. cbn [of_opt bind] in Hw. rewrite Hdev, Z.eqb_refl in Hw.
  injection Hw as <-.
  assert (with_disk (<[sector x := data x]> (disk s)) s
    = mk_bcache false (<[b := x]> (bufs s)) (links s) (<[sector x := data x]> (disk s))) as ->.
  { rewrite insert_id by done. unfold with_disk. by rewrite (bi_lock _ _ _ Hi). }
  apply (binv_phase xs s u p b (Has d) (Has false) n x); try done.
  - intros _ _. by apply (Hv d).
  - intros q ph2 m Hq Hu2. by apply (others_wait p b (Has d) n _ q ph2 m).
  - intros _ _ _. by rewrite fn_lookup_insert.
  - intros c y Hc Hy Hvy. apply fn_lookup_insert_ne. intros Hs. apply Hc.
    apply (same_block xs s u Hi c b y x); try done.
    + apply (sector_inj xs s u Hi c b); [done|done|congruence].
    + intros [Hf _]. congruence.
    + by apply (user_not_idle xs s u Hi p b (Has d, n)).
Qed.

Lemma binv_release p n b s' :
  u !! (p, b) = Some (Has false, n) → brelse p b s = Ok s' → binv xs s' (<[(p, b) := (Drops, n)]> u).
Proof.
  intros Hu Hr. destruct (user_buf _ _ _ _ Hu) as (x & Hx & Hn & Hl & Hv). specialize (Hl I).
  unfold brelse in Hr. rewrite (holds_user p n false b Hu) in Hr. cbn [bind negb] in Hr.
  unfold set_buf, get_buf in Hr. rewrite Hx in Hr. cbn [of_opt bind] in Hr. injection Hr as <-. rewrite <-eta_cache.
  apply (binv_phase xs s u p b (Has false) Drops n x); try done.
  - intros q ph2 m Hq Hu2. by apply (others_wait p b (Has false) n _ q ph2 m).
  - intros Hvx _ Hcl. apply (bi_data _ _ _ Hi b x Hx Hvx). by apply (not_dirty p b (Has false) n).
Qed.
End step.

Lemma binv_drop xs s u p n b x :
  binv xs s u → u !! (p, b) = Some (Drops, n) → bufs s !! b = Some x →
  binv xs (mk_bcache false (<[b := b_refcnt (refcnt x - 1) x]> (bufs s)) (links s) (disk s)) (delete (p, b) u).
Proof.
  intros Hi Hu Hx. pose proof (bi_refs _ _ _ Hi b x Hx) as Hr. pose proof (refs_pos p b _ u Hu) as Hpos.
  assert (Hdel : ∀ q c v, delete (p, b) u !! (q, c) = Some v → u !! (q, c) = Some v).
  { intros q c v. rewrite lookup_delete_Some. tauto. }
  assert (Hkeep : ∀ q v, u !! (q, b) = Some v → v ≠ (Drops, n) → delete (p, b) u !! (q, b) = Some v).
  { intros q v Hq Hv. rewrite lookup_delete_ne; [done|]. intros [= ->]. congruence. }
  apply (binv_upd xs s u _ b x); try done; cbn [b_refcnt dev blockno refcnt lock valid data].
  - by apply (bi_block _ _ _ Hi b).
  - apply (dup_user xs s u b x Hi Hx). by apply (user_not_idle xs s u Hi p b (Drops, n)).
  - rewrite (refs_delete p b (Drops, n)), decide_True by done. lia.
  - intros c Hc. rewrite (refs_delete p b (Drops, n)), decide_False by done. lia.
  - rewrite map_size_delete_Some by eauto. pose proof (bi_size _ _ _ Hi). lia.
  - intros q c Hc. apply lookup_delete_ne. congruence.
  - intros q ph m Hq. destruct (bi_user _ _ _ Hi q b ph m (Hdel _ _ _ Hq)) as (x0 & Hx0 & H). rewrite Hx in Hx0. by injection Hx0 as <-.
  - intros Hl. destruct (bi_free _ _ _ Hi b x Hx Hl) as (q & ph & m & Hq & Hh). exists q, ph, m. split; [|done].
    apply Hkeep; [done|]. by intros [= -> ->].
  - intros Hv Hcl. apply (bi_data _ _ _ Hi b x Hx Hv). intros q m Hq. by apply (Hcl q m), Hkeep.
Qed.

(** Moving a buffer to the front, when no other one for its block is in use. *)
Lemma binv_front l b r s u lk x :
  binv (l ++ b :: r) s u → bufs s !! b = Some x → ring lk (b :: l ++ r) →
  (∀ c y, c ∈ l ++ r → bufs s !! c = Some y → blockno x = blockno y → idle y) →
  binv (b :: l ++ r) (with_links lk s) u.
Proof.
  intros Hi Hx Hr Hfront. split; try apply Hi.
  - done.
  - intros c. cbn [with_links bufs]. rewrite <-(bi_bufs _ _ _ Hi). by rewrite Permutation_middle.
  - pose proof (bi_dup _ _ _ Hi) as Hd. apply StronglySorted_app in Hd as (Hd1 & Hd2 & Hd3).
    apply StronglySorted_cons in Hd3 as [_ Hd3]. constructor.
    + apply StronglySorted_app. split_and!; [|done|done]. intros c e Hc He. apply Hd1; [done|by right].
    + rewrite Forall_forall. intros c Hc X y HX Hy Hk. cbn [with_links bufs] in *. rewrite Hx in HX. injection HX as <-.
      by apply (Hfront c).
Qed.

Lemma binv_put xs s u p n b s' :
  binv xs s u → u !! (p, b) = Some (Drops, n) → brelse_put b s = Ok s' →
  ∃ xs', binv xs' s' (delete (p, b) u) ∧ xs' ≡ₚ xs.
Proof.
  intros Hi Hu Hput. destruct (bi_user _ _ _ Hi p b Drops n Hu) as (x & Hx & Hn & _).
  pose proof (binv_drop xs s u p n b x Hi Hu Hx) as Hd.
  pose proof (bi_refs _ _ _ Hi b x Hx) as Hr. pose proof (refs_pos p b _ u Hu) as Hpos.
  pose proof (refs_le u b) as Hle. pose proof (bi_size _ _ _ Hi) as Hsz.
  unfold brelse_put, acquire in Hput. rewrite (bi_lock _ _ _ Hi) in Hput. cbn [bind] in Hput.
  unfold set_buf, get_buf in Hput. cbn [with_lock bufs] in Hput. rewrite Hx in Hput. cbn [of_opt bind] in Hput.
  rewrite u32_small in Hput by lia. cbn [with_bufs links] in Hput.
  destruct (refcnt x - 1 =? 0) eqn:E.
  - destruct (split_at xs s u Hi b x Hx) as (l & r & Hxs & Hbl & Hbr). rewrite Hxs in Hd.
    pose proof (bi_ring _ _ _ Hi) as Hring. rewrite Hxs in Hring.
    destruct (unlink_spec _ _ _ _ Hring) as (l1 & H1 & Hr1 & Hd1 & Hb1). cbn [with_lock links] in Hput. rewrite H1 in Hput. cbn [bind] in Hput.
    destruct (push_head_spec l1 (l ++ r) b Hr1) as (l2 & H2 & Hr2 & Hd2); [|done|].
    { destruct (ring_mid _ _ _ _ Hring) as [_ Hne]. apply not_elem_of_cons. split; [done|]. apply not_elem_of_app. done. }
    rewrite H2 in Hput. cbn in Hput. injection Hput as <-.
    exists (b :: l ++ r). split; [|rewrite Hxs; by rewrite Permutation_middle].
    apply (binv_front _ _ _ _ _ l2 (b_refcnt (refcnt x - 1) x) Hd); [apply lookup_insert_eq|done|].
    intros c y Hc Hy Hk. cbn [bufs] in Hy. assert (c ≠ b) as Hcb by (intros ->; by apply elem_of_app in Hc as [?|?]).
    rewrite lookup_insert_ne in Hy by done.
    destruct (dup_user xs s u b x Hi Hx) as (l' & r' & Hxs' & Hdup).
    { by apply (user_not_idle xs s u Hi p b (Drops, n)). }
    destruct (Hdup c y Hy (eq_sym Hk)) as [Hcl Hcr]. apply Hcr.
    assert (c ∈ xs) as Hin by (rewrite Hxs; apply elem_of_app in Hc as [?|?]; apply elem_of_app; [by left|right; by right]).
    rewrite Hxs' in Hin. apply elem_of_app in Hin as [?|[?|?]%elem_of_cons]; [done|done|done].
  - cbn in Hput. injection Hput as <-. exists xs. split; [exact Hd|done].
Qed.

Lemma bstep_inv xs s u s' u' :
  bstep (s, u) (s', u') → binv xs s u → ∃ xs', binv xs' s' u' ∧ xs' ≡ₚ xs.
Proof.
  intros Hst Hi.
  inversion Hst as [p n b s1 s2 v Hn Hsz Hg Hu|p n b s1 s2 v Hu Hop|p n b s1 s2 v Hu Hop|p n d b w s1 s2 v Hu Hop
    |p n d b s1 s2 v Hu Hop|p n b s1 s2 v Hu Hop|p n b s1 s2 v Hu Hop]; subst; [| | | | | |by eapply binv_put].
  all: exists xs; split; [|done].
  - by apply (binv_get xs s).
  - by apply (binv_lock xs s).
  - by apply (binv_fill xs s).
  - by apply (binv_edit xs s u Hi p n d b w).
  - by apply (binv_write xs s u Hi p n d).
  - by apply (binv_release xs s).
Qed.

End BioInv.
