(* ===== verification/BioSpec.v ===== *)
(** * The buffer cache: the theorems *)

From stdpp Require Import sorting functions list_numbers.
From S2P Require Import Prelude LockDefs BioDefs Bio BioInv.
Import LockDefs BioDefs Bio BioInv.

Module BioSpec.

(** ** Boot *)

Lemma boot_bufs n d b : bufs (boot_cache n d) !! b = if decide (0 ≤ b < n) then Some boot_buf else None.
Proof.
  cbn [boot_cache bufs]. destruct (decide (0 ≤ b < n)) as [Hb|Hb].
  - apply elem_of_list_to_map_1.
    + rewrite <-list_fmap_compose. apply NoDup_fmap_2_strong; [|apply NoDup_seq]. intros. cbn in *. lia.
    + apply list_elem_of_fmap. exists (Z.to_nat b). split; [f_equal; lia|]. apply elem_of_seq. lia.
  - apply not_elem_of_list_to_map_1. rewrite <-list_fmap_compose. intros Hin.
    apply list_elem_of_fmap in Hin as (i & -> & Hi). apply elem_of_seq in Hi. cbn in Hb. lia.
Qed.

Lemma boot_links n d b : 0 ≤ b < n ∨ b = HEAD → is_Some (links (boot_cache n d) !! b).
Proof.
  cbn [boot_cache links]. intros [Hb|Hb].
  - rewrite lookup_insert_ne by (unfold HEAD; lia). eexists. apply elem_of_list_to_map_1.
    + rewrite <-list_fmap_compose. apply NoDup_fmap_2_strong; [|apply NoDup_seq]. intros. cbn in *. lia.
    + apply list_elem_of_fmap. exists (Z.to_nat b). split; [f_equal; lia|]. apply elem_of_seq. lia.
  - subst b. rewrite lookup_insert_eq. eauto.
Qed.

Lemma rev_seqZ_snoc i : 0 ≤ i → rev (seqZ 0 (i + 1)) = i :: rev (seqZ 0 i).
Proof. intros Hi. rewrite seqZ_app by lia. rewrite rev_app_distr. cbn. by rewrite Z.add_0_l. Qed.

Lemma init_buf_ok s i xs :
  ring (links s) xs → bufs s !! i = Some boot_buf → i ∉ HEAD :: xs → is_Some (links s !! i) →
  ∃ l', init_buf i s = Ok (with_links l' s) ∧ ring l' (i :: xs) ∧ dom l' = dom (links s).
Proof.
  intros Hr Hb Hin Hl. unfold init_buf. destruct (push_head_spec _ _ _ Hr Hin Hl) as (l' & -> & Hr' & Hd).
  cbn [bind]. exists l'. split; [|done]. unfold set_buf, get_buf, with_links. cbn [bufs]. rewrite Hb. cbn [of_opt bind].
  unfold with_bufs. cbn [bufs links c_lock disk]. by rewrite insert_id.
Qed.

Lemma binit_ok n d :
  0 ≤ n → ∃ s, binit n (boot_cache n d) = Ok s ∧ binv (rev (seqZ 0 n)) s ∅ ∧ disk s = d.
Proof.
  intros Hn. unfold binit. set (b0 := boot_cache n d).
  change (links (with_lock false b0)) with (links b0).
  destruct (prv_set_prev (links b0) HEAD HEAD) as (l1 & -> & Hp1 & Hn1 & Hd1); [apply boot_links; by right|]. cbn [bind].
  destruct (nxt_set_next l1 HEAD HEAD) as (l2 & -> & Hn2 & Hp2 & Hd2).
  { apply elem_of_dom. rewrite Hd1. apply elem_of_dom, boot_links. by right. } cbn [bind].
  destruct (for_range_inv (λ i s, ∃ l, s = mk_bcache false (bufs b0) l d ∧ ring l (rev (seqZ 0 i)) ∧ dom l = dom (links b0))
    0 n init_buf (with_links l2 (with_lock false b0))) as (s & Hs & l & -> & Hr & Hdl); [done| | |].
  - exists l2. split; [done|]. split; [|by rewrite Hd2]. split; [|apply NoDup_singleton].
    change ((nxt l2 HEAD = Some HEAD ∧ prv l2 HEAD = Some HEAD) ∧ True). by rewrite Hn2, Hp2, Hp1, !decide_True.
  - intros i s Hi (l & -> & Hr & Hdl).
    destruct (init_buf_ok (mk_bcache false (bufs b0) l d) i (rev (seqZ 0 i))) as (l' & -> & Hr' & Hd').
    + done.
    + cbn [bufs]. unfold b0. by rewrite boot_bufs, decide_True.
    + apply not_elem_of_cons. split; [unfold HEAD; lia|]. rewrite list_elem_of_In, <-in_rev, <-list_elem_of_In, elem_of_seqZ. lia.
    + cbn [links]. apply elem_of_dom. rewrite Hdl. apply elem_of_dom, boot_links. by left.
    + eexists. split; [done|]. exists l'. split; [done|]. rewrite rev_seqZ_snoc by lia. split; [done|].
      cbn [links] in Hd'. congruence.
  - exists (mk_bcache false (bufs b0) l d). split; [exact Hs|]. split; [|done].
    assert (Hb : ∀ b x, bufs b0 !! b = Some x → 0 ≤ b < n ∧ x = boot_buf).
    { intros b x. unfold b0. rewrite boot_bufs. destruct (decide _); [by intros [= <-]|done]. }
    assert (Hru : ∀ b, refs ∅ b = 0%nat) by (intros; unfold refs; by rewrite map_filter_empty).
    split; cbn [c_lock bufs links disk]; try done.
    + intros b. rewrite list_elem_of_In, <-in_rev, <-list_elem_of_In, elem_of_seqZ. unfold b0. rewrite boot_bufs.
      destruct (decide (0 ≤ b < n)); split; [by eexists|lia|lia|by intros [? ?]].
    + assert (∀ xs, StronglySorted (later_idle (mk_bcache false (bufs b0) l d)) xs) as H; [|apply H].
      intros xs. induction xs as [|z xs IH]; constructor; [done|]. rewrite Forall_forall. intros c Hc x y _ Hy _.
      apply Hb in Hy as [_ ->]. done.
    + intros b x Hx. apply Hb in Hx as [_ ->]. by rewrite Hru.
    + intros b x Hx. apply Hb in Hx as [_ ->]. done.
    + intros b x Hx. apply Hb in Hx as [_ ->]. done.
    + intros b x Hx. apply Hb in Hx as [_ ->]. done.
Qed.

(** ** Runs *)

Lemma bsteps_inv xs s u s' u' :
  rtc bstep (s, u) (s', u') → binv xs s u → ∃ xs', binv xs' s' u' ∧ xs' ≡ₚ xs.
Proof.
  intros Hrun. remember (s, u) as a eqn:Ha. remember (s', u') as c eqn:Hc. revert xs s u Ha.
  induction Hrun as [a|a [s1 u1] c Hst _ IH]; intros xs s u Ha Hi; subst.
  - injection Ha as -> ->. by exists xs.
  - destruct (bstep_inv xs s u s1 u1 Hst Hi) as (xs1 & Hi1 & Hp1).
    destruct (IH eq_refl xs1 s1 u1 eq_refl Hi1) as (xs2 & Hi2 & Hp2). exists xs2. split; [done|]. by rewrite Hp2.
Qed.

Lemma bput_ok xs s u p n b :
  binv xs s u → u !! (p, b) = Some (Drops, n) → is_Ok (brelse_put b s).
Proof.
  intros Hi Hu. destruct (bi_user _ _ _ Hi p b Drops n Hu) as (x & Hx & _).
  unfold brelse_put, acquire. rewrite (bi_lock _ _ _ Hi). cbn [bind].
  unfold set_buf, get_buf. cbn [with_lock bufs]. rewrite Hx. cbn [of_opt bind with_bufs links with_lock].
  destruct (_ =? 0); [|by eexists].
  destruct (split_at xs s u Hi b x Hx) as (l & r & Hxs & Hbl & Hbr).
  pose proof (bi_ring _ _ _ Hi) as Hring. rewrite Hxs in Hring.
  destruct (unlink_spec _ _ _ _ Hring) as (l1 & -> & Hr1 & _ & Hb1). cbn [bind].
  destruct (push_head_spec l1 (l ++ r) b Hr1) as (l2 & -> & _); [|done|by eexists].
  destruct (ring_mid _ _ _ _ Hring) as [_ Hne]. apply not_elem_of_cons. split; [done|]. by apply not_elem_of_app.
Qed.

(** C35. The buffer cache, used by any number of processes on device 0 that
    write a block they changed before they release it: in every state reached
    from boot, users of the same block share one buffer and at most one of
    them has its lock; a process that has an unchanged block sees exactly the
    bytes on the disk, that is, those of the last [bwrite] of the block; the
    LRU list still links all buffers; and no operation fails: a process that
    has a block can write and release it, a reader can fill its buffer, a
    free lock can be taken, and a reference can be dropped. *)
Theorem bcache_coherent n d s0 s u :
  0 ≤ n → binit n (boot_cache n d) = Ok s0 → rtc bstep (s0, ∅) (s, u) →
  (∀ p q b c ph ph' m, u !! (p, b) = Some (ph, m) → u !! (q, c) = Some (ph', m) →
     b = c ∧ (holder ph → holder ph' → p = q)) ∧
  (∀ p b m, u !! (p, b) = Some (Has false, m) →
     ∃ x, bufs s !! b = Some x ∧ blockno x = m ∧ data x = disk s (m * 8)) ∧
  (∃ xs, ring (links s) xs ∧ xs ≡ₚ seqZ 0 n) ∧
  (∀ p b ph m, u !! (p, b) = Some (ph, m) →
     match ph with
     | Wants => (∀ q ph' m', u !! (q, b) = Some (ph', m') → ¬ holder ph') → ∃ s', lock_buf p b s = Ok (Some s')
     | Fills => is_Ok (bread_fill b s)
     | Has _ => is_Ok (bwrite p b s) ∧ is_Ok (brelse p b s)
     | Drops => is_Ok (brelse_put b s)
     end).
Proof.
  intros Hn Hinit Hrun. destruct (binit_ok n d Hn) as (s1 & Hs1 & Hi0 & _). rewrite Hinit in Hs1. injection Hs1 as <-.
  destruct (bsteps_inv _ _ _ _ _ Hrun Hi0) as (xs & Hi & Hp). clear Hrun Hi0. split_and!.
  - intros p q b c ph ph' m Hu Hu'.
    destruct (bi_user _ _ _ Hi p b ph m Hu) as (x & Hx & Hm & _).
    destruct (bi_user _ _ _ Hi q c ph' m Hu') as (y & Hy & Hm' & _).
    assert (b = c) as <-.
    { apply (same_block xs s u Hi b c x y Hx Hy); [congruence| |];
        [by apply (user_not_idle xs s u Hi p b _ x Hu)|by apply (user_not_idle xs s u Hi q c _ y Hu')]. }
    split; [done|]. by apply (one_holder xs s u Hi p q b ph ph' m m).
  - intros p b m Hu. destruct (bi_user _ _ _ Hi p b _ m Hu) as (x & Hx & Hm & _ & Hv). exists x. split_and!; [done|done|].
    rewrite (bi_data _ _ _ Hi b x Hx (Hv false eq_refl)).
    + destruct (bi_block _ _ _ Hi b x Hx) as [_ Hb]. unfold sector. change (BSIZE / 512) with 8.
      rewrite u32_small by lia. congruence.
    + intros q k Hq. assert (p = q) as <- by (by apply (one_holder xs s u Hi p q b (Has false) (Has true) m k)). congruence.
  - exists xs. split; [apply Hi|]. rewrite Hp. symmetry. apply Permutation_rev.
  - intros p b ph m Hu. destruct (bi_user _ _ _ Hi p b ph m Hu) as (x & Hx & Hm & Hl & Hv). destruct ph as [| |e|].
    + intros Hno. unfold lock_buf, set_buf, get_buf. rewrite Hx. cbn [of_opt bind].
      destruct (sl_locked (lock x) =? 0) eqn:E; [cbn; eauto|]. apply Z.eqb_neq in E.
      destruct (bi_free _ _ _ Hi b x Hx E) as (q & ph' & k & Hq & Hh). by destruct (Hno q ph' k).
    + unfold bread_fill, get_buf. rewrite Hx. cbn [of_opt bind]. destruct (valid x); cbn [negb]; [by eexists|].
      unfold disk_read, set_buf, get_buf. rewrite Hx. cbn [of_opt bind].
      destruct (dev x =? 0); cbn [bind with_bufs bufs]; rewrite ?lookup_insert_eq, ?Hx; by eexists.
    + unfold bwrite, brelse. rewrite (holds_user xs s u Hi p m e b Hu). cbn [bind negb].
      unfold disk_write, set_buf, get_buf. rewrite Hx. cbn [of_opt bind]. split; [destruct (dev x =? 0)|]; by eexists.
    + by apply (bput_ok xs s u p m).
Qed.

(** A cache of two buffers on a disk of sevens; process 1 reads block 5. *)
Definition two : bcache := boot_cache 2 (λ _, [7]).
Definition two_0 : bcache := get two (binit 2 two).
Definition two_1 : bcache := snd (get (0, two) (bget 0 5 two_0)).
Definition two_2 : bcache := default two (get None (lock_buf 1 0 two_1)).
Definition two_3 : bcache := get two (bread_fill 0 two_2).

Lemma two_run : rtc bstep (two_0, ∅) (two_3, <[(1, 0) := (Has false, 5)]> ∅).
Proof.
  eapply rtc_l; [apply (bs_get 1 5 0 two_0 two_1 ∅)|].
  - lia.
  - vm_compute. reflexivity.
  - vm_compute. reflexivity.
  - reflexivity.
  - eapply rtc_l; [apply (bs_lock 1 5 0 two_1 two_2)|].
    + vm_compute. reflexivity.
    + vm_compute. reflexivity.
    + rewrite insert_insert_eq. eapply rtc_l; [apply (bs_fill 1 5 0 two_2 two_3)|].
      * vm_compute. reflexivity.
      * vm_compute. reflexivity.
      * rewrite insert_insert_eq. apply rtc_refl.
Qed.

Lemma bcache_witness : ∃ x, bufs two_3 !! 0 = Some x ∧ blockno x = 5 ∧ data x = [7].
Proof.
  destruct (bcache_coherent 2 (λ _, [7]) two_0 two_3 (<[(1, 0) := (Has false, 5)]> ∅)) as (_ & Hc & _).
  - lia.
  - vm_compute. reflexivity.
  - exact two_run.
  - destruct (Hc 1 0 5) as (x & Hx & Hb & Hd).
    + vm_compute. reflexivity.
    + exists x. split; [exact Hx|]. split; [exact Hb|]. rewrite Hd. vm_compute. reflexivity.
Defined.

(** The replacement policy, in every reachable state, with the buffers in
    the order of the list (most recently released first): a block that some
    buffer holds or that is in use is served by its buffer, whose reference
    count goes up; for another block the hindmost buffer that nobody uses is
    taken and marked as not read, behind which all buffers are in use; and
    [bget] panics exactly when the block is not cached and all buffers are in
    use.  Nothing else changes. *)
Theorem bget_correct n d s0 s u m :
  0 ≤ n → binit n (boot_cache n d) = Ok s0 → rtc bstep (s0, ∅) (s, u) → 0 ≤ m < 2 ^ 29 →
  ∃ xs, ring (links s) xs ∧ xs ≡ₚ seqZ 0 n ∧
  ((∃ b x, bufs s !! b = Some x ∧ blockno x = m ∧ (∀ c y, bufs s !! c = Some y → blockno y = m → c = b ∨ idle y) ∧
      bget 0 m s = Ok (b, with_bufs (<[b := b_refcnt (u32 (refcnt x + 1)) x]> (bufs s)) s)) ∨
   (∀ c y, bufs s !! c = Some y → blockno y ≠ m) ∧
   ((∃ l b r x, xs = l ++ b :: r ∧ bufs s !! b = Some x ∧ refcnt x = 0 ∧
       (∀ c y, c ∈ r → bufs s !! c = Some y → refcnt y ≠ 0) ∧
       bget 0 m s = Ok (b, with_bufs (<[b := b_recycle 0 m x]> (bufs s)) s)) ∨
    (∀ c y, bufs s !! c = Some y → refcnt y ≠ 0) ∧ bget 0 m s = Panic "bget: no buffers")).
Proof.
  intros Hn Hinit Hrun Hm. destruct (binit_ok n d Hn) as (s1 & Hs1 & Hi0 & _). rewrite Hinit in Hs1. injection Hs1 as <-.
  destruct (bsteps_inv _ _ _ _ _ Hrun Hi0) as (xs & Hi & Hp). exists xs. split; [apply Hi|].
  split; [rewrite Hp; symmetry; apply Permutation_rev|]. rewrite (bget_eq xs s u 0 m Hi).
  assert (Hall : ∀ c y, bufs s !! c = Some y → c ∈ xs) by (intros c y Hy; apply (bi_bufs _ _ _ Hi); eauto).
  assert (Hblk : ∀ c y, bufs s !! c = Some y → is_block s 0 m c = (blockno y =? m)).
  { intros c y Hy. unfold is_block. rewrite Hy. by rewrite (proj1 (bi_block _ _ _ Hi c y Hy)). }
  assert (Hun : ∀ c y, bufs s !! c = Some y → unused s c = (refcnt y =? 0)).
  { intros c y Hy. unfold unused. by rewrite Hy. }
  destruct (List.find (is_block s 0 m) xs) as [b|] eqn:Hf.
  - left. apply find_split in Hf as (l & r & Hxs & Hb & Hl).
    destruct (proj1 (bi_bufs _ _ _ Hi b)) as [x Hx]; [rewrite Hxs; apply elem_of_app; right; left|].
    rewrite (Hblk b x Hx) in Hb. apply Z.eqb_eq in Hb. exists b, x. split_and!; [done|done| |].
    + intros c y Hy Hk. pose proof (Hall c y Hy) as Hin. rewrite Hxs in Hin.
      apply elem_of_app in Hin as [Hin|[->|Hin]%elem_of_cons]; [|by left|right].
      * specialize (Hl c Hin). rewrite (Hblk c y Hy), Hk, Z.eqb_refl in Hl. done.
      * pose proof (bi_dup _ _ _ Hi) as Hd. rewrite Hxs in Hd. apply StronglySorted_app in Hd as (_ & _ & Hd).
        apply StronglySorted_cons in Hd as [Hd _]. rewrite Forall_forall in Hd. apply (Hd c Hin x y); [done|done|congruence].
    + unfold get_buf. rewrite Hx. cbn [of_opt bind]. by rewrite (eta_cache xs s u Hi).
  - right. pose proof (find_none_all _ _ Hf) as Hnone. split.
    { intros c y Hy Hk. specialize (Hnone c (Hall c y Hy)). rewrite (Hblk c y Hy), Hk, Z.eqb_refl in Hnone. done. }
    destruct (List.find (unused s) (rev xs)) as [b|] eqn:Hu; [left|right].
    + apply find_split in Hu as (l & r & Hxs & Hb & Hl). apply (f_equal (@rev Z)) in Hxs.
      rewrite rev_involutive, rev_app_distr in Hxs. cbn [rev] in Hxs. rewrite <-app_assoc in Hxs. cbn [app] in Hxs.
      destruct (proj1 (bi_bufs _ _ _ Hi b)) as [x Hx]; [rewrite Hxs; apply elem_of_app; right; left|].
      rewrite (Hun b x Hx) in Hb. apply Z.eqb_eq in Hb. exists (rev r), b, (rev l), x. split_and!; [done|done|done| |].
      * intros c y Hc Hy. rewrite list_elem_of_In, <-in_rev, <-list_elem_of_In in Hc. specialize (Hl c Hc).
        rewrite (Hun c y Hy) in Hl. by apply Z.eqb_neq.
      * unfold get_buf. rewrite Hx. cbn [of_opt bind]. by rewrite (eta_cache xs s u Hi).
    + split; [|done]. intros c y Hy. pose proof (find_none_all _ _ Hu c) as Hc.
      rewrite list_elem_of_In, <-in_rev, <-list_elem_of_In in Hc. specialize (Hc (Hall c y Hy)).
      rewrite (Hun c y Hy) in Hc. by apply Z.eqb_neq.
Qed.

Lemma bget_witness : ∃ s', bget 0 9 two_3 = Ok (1, s') ∧ ∃ xs, ring (links two_3) xs.
Proof.
  destruct (bget_correct 2 (λ _, [7]) two_0 two_3 (<[(1, 0) := (Has false, 5)]> ∅) 9) as (xs & Hr & _ & _).
  - lia.
  - vm_compute. reflexivity.
  - exact two_run.
  - lia.
  - eexists. split; [vm_compute; reflexivity|]. exists xs. exact Hr.
Defined.

End BioSpec.
