(* ===== verification/PathDefs.v ===== *)
(** * Path names (kernel/fs/inode.c), definitions

    [cal_absolute_path] edits its result in place.  The buffer is the list of
    the characters before the NUL; positions are indices (the pointer [p] can
    be one before the start).  A read before the start or behind the NUL is
    [Undef]; the result buffer is taken to be large enough.  A copy inside the
    buffer ([strcpy(q, p)], [memmove]) keeps what is in front of the target
    and appends what follows the source. *)

From Stdlib Require Import Ascii.
From S2P Require Import Prelude PrintDefs.
Import PrintDefs.

Module PathDefs.

(** [s[i]]: the character at an index, NUL at the end. *)
Definition at_ (s : list Z) (i : Z) : res Z :=
  if (i <? 0) || (Z.of_nat (length s) <? i) then Undef
  else Ok (default 0 (s !! Z.to_nat i)).

(** Keeps the first [i] characters and continues with those from [j] on. *)
Definition splice (i j : Z) (s : list Z) : list Z := take (Z.to_nat i) s ++ drop (Z.to_nat j) s.

(** [while (q > absolute_path && *(q - 1) != '/') q--]. *)
Fixpoint seg_start (n : nat) (q : Z) (s : list Z) : res Z :=
  match n with
  | O => NoFuel
  | S n =>
      if 0 <? q then
        let* c := at_ s (q - 1) in
        if negb (c =? "/"%char) then seg_start n (q - 1) s else Ok q
      else Ok q
  end.

(** The branch of the main loop for [../] at [p]: the new string and [p]. *)
Definition dotdot (p : Z) (s : list Z) : res (list Z * Z) :=
  let q := p - 2 in
  if q <? 0 then
    let* c := at_ s 0 in
    if c =? "/"%char then Ok (splice 1 (p + 3) s, 0)
    else Ok (splice 0 (p + 3) s, -1)
  else
    let* _ := seg_start (S (Z.to_nat q)) q s in
    let parent := p - 1 in
    let* c := at_ s parent in
    if (parent =? 0) && (c =? "/"%char) then Ok (splice 1 (p + 3) s, 0)
    else if parent <? 0 then Ok (s, p + 2)
    else
      let* seg := seg_start (S (Z.to_nat parent)) parent s in
      Ok (splice seg (p + 3) s, seg - 1).

(** Are the characters from [p] on those of [w]?  Reads from left to right and
    stops at the first difference. *)
Fixpoint looking_at (p : Z) (w : list Z) (s : list Z) : res bool :=
  match w with
  | [] => Ok true
  | x :: w =>
      let* c := at_ s p in
      if c =? x then looking_at (p + 1) w s else Ok false
  end.

(** [while ( *p != NUL )]. *)
Fixpoint dots_loop (fuel : nat) (p : Z) (s : list Z) : res (list Z) :=
  match fuel with
  | O => NoFuel
  | S fuel =>
      let* c := at_ s p in
      if c =? 0 then Ok s
      else
        let* d := looking_at p (str "./") s in
        if d then dots_loop fuel p (splice p (p + 2) s)
        else
          let* dd := looking_at p (str "../") s in
          if dd then
            let* (s, p) := dotdot p s in
            dots_loop fuel p s
          else dots_loop fuel (p + 1) s
  end.

(** The [.] or [..] at the end. *)
Definition trailing (s : list Z) : res (list Z) :=
  let len := Z.of_nat (length s) in
  if 2 <=? len then
    let pt := len - 1 in
    let* c0 := at_ s pt in
    let* c1 := at_ s (pt - 1) in
    if (c0 =? "."%char) && (c1 =? "/"%char) then Ok (take (Z.to_nat (pt - 1)) s)
    else if (c0 =? "."%char) && (3 <=? len) && (c1 =? "."%char) then
      let* c2 := at_ s (pt - 2) in
      if c2 =? "/"%char then
        let slash := pt - 2 in
        if slash =? 0 then Ok (take 1 s)
        else
          let* q := seg_start (S (Z.to_nat slash)) (slash - 1) s in
          Ok (take (Z.to_nat q) s)
      else Ok s
    else Ok s
  else if len =? 1 then
    let* c := at_ s 0 in
    if c =? "."%char then Ok [] else Ok s
  else Ok s.

(** [while ( *first_char == '/' && *(first_char + 1) == '/')] removes one. *)
Fixpoint leading (s : list Z) : list Z :=
  match s with
  | c :: ((c' :: _) as r) => if (c =? "/"%char) && (c' =? "/"%char) then leading r else s
  | _ => s
  end.

(** A slash at the end, except of the root. *)
Definition strip_last (s : list Z) : list Z :=
  if bool_decide (1 < length s)%nat && bool_decide (last s = Some (chr "/")) then removelast s else s.

(** An empty path becomes the root; a slash is put in front if there is none. *)
Definition rooted (s : list Z) : list Z :=
  match s with
  | [] => [chr "/"]
  | c :: _ => if c =? "/"%char then s else chr "/" :: s
  end.

Definition path_fuel (s : list Z) : nat := (length s + 2) * (length s + 2).

(** The string the edits start from. *)
Definition start_path (path : option (list Z)) (cwd : list Z) : list Z :=
  match path with
  | None | Some [] => cwd
  | Some ((c :: _) as path) =>
      if c =? "/"%char then path
      else
        cwd ++ (if bool_decide (cwd ≠ []) && negb (bool_decide (last cwd = Some (chr "/"))) then [chr "/"] else [])
            ++ path
  end.

Definition cal_absolute_path (path : option (list Z)) (cwd : list Z) : res (list Z) :=
  let s := start_path path cwd in
  let* s := dots_loop (path_fuel s) 0 s in
  let* s := trailing s in
  let s := leading s in
  let s := strip_last s in
  Ok (rooted s).

(** [root] is the process's root directory. *)
Definition get_absolute_path (root : list Z) (path : option (list Z)) (cwd : list Z) : res (list Z) :=
  let* s := cal_absolute_path path cwd in
  if bool_decide (root = str "/") then Ok s
  else
    let root_len := length root in
    let abs_len := length s in
    if bool_decide (abs_len < root_len)%nat || negb (bool_decide (take root_len s = root)) then Ok root
    else if bool_decide (abs_len = root_len) then Ok s
    else
      let* c := at_ s (Z.of_nat root_len) in
      if negb (c =? "/"%char) then Ok root else Ok s.

Example path_example :
  cal_absolute_path (Some (str "../x/./y/../z/..")) (str "/usr/lib") = Ok (str "/usr/x").
Proof. vm_compute. reflexivity. Qed.
Example path_example3 : cal_absolute_path (Some (str "/foo./bar")) (str "/") = Ok (str "/foobar").
Proof. vm_compute. reflexivity. Qed.

End PathDefs.
