(* ===== verification/Path.v ===== *)
(** * Lemmas on path names

    [pre D] is the path of the components [D], each with its slash;
    [body R tr] is the rest of a path, the components [R] with slashes between
    them (and one at the end when [tr] is set).  [norm D R] walks from the
    directory [D] along [R]. *)

From Stdlib Require Import Ascii.
From S2P Require Import Prelude PrintDefs PathDefs.
Import PrintDefs PathDefs.

Module Path.

Abbreviation SL := (chr "/").
Abbreviation DOT := (chr ".").
Definition dot : list Z := [DOT].
Definition dotdot_name : list Z := [DOT; DOT].

Definition pre (D : list (list Z)) : list Z := concat ((λ c, SL :: c) <$> D).

Fixpoint body (R : list (list Z)) (tr : bool) : list Z :=
  match R with
  | [] => []
  | c :: R => c ++ match R with [] => if tr then [SL] else [] | _ => SL :: body R tr end
  end.

(** A component: not empty, without slash or NUL, and ending in a dot only if
    it is [.] or [..]. *)
Definition comp (c : list Z) : Prop :=
  c ≠ [] ∧ Forall (λ x, x ≠ SL ∧ 0 < x) c ∧ (c = dot ∨ c = dotdot_name ∨ last c ≠ Some DOT).
Definition plain (c : list Z) : Prop := comp c ∧ last c ≠ Some DOT.

Definition walk1 (D : list (list Z)) (c : list Z) : list (list Z) :=
  if bool_decide (c = dot) then D
  else if bool_decide (c = dotdot_name) then removelast D
  else D ++ [c].
Definition norm (D R : list (list Z)) : list (list Z) := foldl walk1 D R.

(** The canonical path of a directory. *)
Definition canon (D : list (list Z)) : list Z := match D with [] => [SL] | _ => pre D end.

(** ** Reading *)

Lemma at_mid a c b : at_ (a ++ c :: b) (Z.of_nat (length a)) = Ok c.
Proof.
  unfold at_. rewrite (proj2 (Z.ltb_ge _ _)), (proj2 (Z.ltb_ge _ _)) by (rewrite ?length_app; cbn; lia).
  cbn [orb]. rewrite Nat2Z.id, lookup_app_r, Nat.sub_diag by lia. done.
Qed.
Lemma at_end a : at_ a (Z.of_nat (length a)) = Ok 0.
Proof.
  unfold at_. rewrite (proj2 (Z.ltb_ge _ _)), Z.ltb_irrefl by lia. cbn [orb].
  rewrite Nat2Z.id, lookup_ge_None_2 by lia. done.
Qed.

(** The characters from the position [length a] on. *)
Lemma looking_at_spec a w b :
  Forall (λ x, x ≠ 0) w →
  looking_at (Z.of_nat (length a)) w (a ++ b) = Ok (bool_decide (take (length w) b = w)).
Proof.
  intros Hw. revert a b; induction w as [|x w IH]; intros a b; cbn [looking_at length].
  { by rewrite take_0, bool_decide_true. }
  apply Forall_cons in Hw as [Hx Hw]. destruct b as [|c b].
  - rewrite app_nil_r, at_end. cbn [bind]. rewrite (proj2 (Z.eqb_neq _ _)) by congruence.
    by rewrite bool_decide_false.
  - rewrite at_mid. cbn [bind take]. destruct (c =? x) eqn:E.
    + apply Z.eqb_eq in E as ->. replace (Z.of_nat (length a) + 1) with (Z.of_nat (length (a ++ [x])))
        by (rewrite length_app; cbn; lia).
      change (a ++ x :: b) with (a ++ [x] ++ b). rewrite app_assoc, IH by done. f_equal.
      apply bool_decide_ext. split; congruence.
    + apply Z.eqb_neq in E. rewrite bool_decide_false; [done|congruence].
Qed.

Lemma splice_app a m b : splice (Z.of_nat (length a)) (Z.of_nat (length a + length m)) (a ++ m ++ b) = a ++ b.
Proof.
  unfold splice. rewrite !Nat2Z.id, take_app_length, app_assoc. f_equal.
  rewrite <-length_app. apply drop_app_length.
Qed.

(** The start of the segment that ends at [a ++ SL :: w]. *)
Lemma seg_start_spec n a w b :
  Forall (λ x, x ≠ SL) w → (length w < n)%nat →
  seg_start n (Z.of_nat (length (a ++ SL :: w))) (a ++ SL :: w ++ b) = Ok (Z.of_nat (length a) + 1).
Proof.
  intros Hw. revert w b Hw; induction n as [|n IH]; intros w b Hw Hn; [lia|]. cbn [seg_start].
  rewrite length_app. cbn [length]. rewrite (proj2 (Z.ltb_lt _ _)) by lia.
  destruct w as [|x w' _] using rev_ind.
  - cbn [length app]. replace (Z.of_nat (length a + 1) - 1) with (Z.of_nat (length a)) by lia. rewrite at_mid. cbn [bind].
    rewrite Z.eqb_refl. cbn [negb length]. f_equal. lia.
  - apply Forall_app in Hw as [Hw Hx]. apply Forall_cons in Hx as [Hx _]. rewrite length_app in *. cbn [length] in *.
    replace (Z.of_nat (length a + S (length w' + 1)) - 1) with (Z.of_nat (length (a ++ SL :: w')))
      by (rewrite length_app; cbn; lia).
    replace (a ++ SL :: (w' ++ [x]) ++ b) with ((a ++ SL :: w') ++ x :: b)
      by (rewrite <-!app_assoc; done).
    rewrite at_mid. cbn [bind]. rewrite (proj2 (Z.eqb_neq _ _) Hx). cbn [negb].
    replace ((a ++ SL :: w') ++ x :: b) with (a ++ SL :: w' ++ x :: b) by (rewrite <-app_assoc; done).
    apply IH; [done|lia].
Qed.

(** ** The main loop *)

Definition is_last (R : list (list Z)) (tr : bool) : bool := match R with [] => negb tr | _ => false end.

Lemma body_cons c R tr : body (c :: R) tr = c ++ if is_last R tr then [] else SL :: body R tr.
Proof. by destruct R; destruct tr. Qed.

(** The path when the loop ends. *)
Fixpoint final (D R : list (list Z)) (tr : bool) : list Z :=
  match R with
  | [] => pre D ++ [SL]
  | c :: R => if is_last R tr then pre D ++ SL :: c else final (walk1 D c) R tr
  end.

Lemma pre_snoc D c : pre (D ++ [c]) = pre D ++ SL :: c.
Proof. unfold pre. rewrite fmap_app, concat_app. cbn. by rewrite app_nil_r. Qed.

(** A character where no [./] or [../] starts. *)
Lemma loop_step k a c b :
  c ≠ 0 → take 2 (c :: b) ≠ str "./" → take 3 (c :: b) ≠ str "../" →
  dots_loop (S k) (Z.of_nat (length a)) (a ++ c :: b) = dots_loop k (Z.of_nat (length a) + 1) (a ++ c :: b).
Proof.
  intros Hc H1 H2. cbn [dots_loop]. rewrite at_mid. cbn [bind]. rewrite (proj2 (Z.eqb_neq _ _) Hc).
  rewrite (looking_at_spec a (str "./") (c :: b)) by (repeat constructor; done). cbn [bind].
  change (length (str "./")) with 2%nat. rewrite bool_decide_false by done.
  rewrite (looking_at_spec a (str "../") (c :: b)) by (repeat constructor; done). cbn [bind].
  change (length (str "../")) with 3%nat. by rewrite bool_decide_false by done.
Qed.

Lemma loop_slash k a b :
  dots_loop (S k) (Z.of_nat (length a)) (a ++ SL :: b) = dots_loop k (Z.of_nat (length a) + 1) (a ++ SL :: b).
Proof. apply loop_step; [done|by destruct b|by destruct b as [|? [|? ?]]]. Qed.

(** Passing over a component. *)
Lemma loop_name w k a b :
  Forall (λ x, x ≠ SL ∧ 0 < x) w → (b = [] ∨ last w ≠ Some DOT ∧ ∃ b', b = SL :: b') →
  dots_loop (length w + k) (Z.of_nat (length a)) (a ++ w ++ b) =
    dots_loop k (Z.of_nat (length (a ++ w))) (a ++ w ++ b).
Proof.
  revert a; induction w as [|x w IH]; intros a Hw Hb; cbn [length Nat.add app].
  { by rewrite app_nil_r. }
  apply Forall_cons in Hw as [[Hx1 Hx2] Hw].
  assert (Hn1 : take 2 (x :: w ++ b) ≠ str "./").
  { intros Heq. destruct w as [|y w].
    - destruct Hb as [->|[Hl [b' ->]]]; [done|]. cbn in Heq. apply Hl. injection Heq as ->. done.
    - cbn in Heq. injection Heq as _ Hy. apply Forall_cons in Hw as [[Hy1 _] _]. done. }
  assert (Hn2 : take 3 (x :: w ++ b) ≠ str "../").
  { intros Heq. destruct w as [|y [|z w]].
    - destruct Hb as [->|[Hl [b' ->]]]; [done|]. cbn in Heq. by injection Heq.
    - destruct Hb as [->|[Hl [b' ->]]]; [done|]. cbn in Heq. apply Hl. injection Heq as _ ->. done.
    - cbn in Heq. injection Heq as _ _ Hz. apply Forall_cons in Hw as [_ Hw]. apply Forall_cons in Hw as [[Hz1 _] _]. done. }
  rewrite loop_step by (try done; lia).
  replace (Z.of_nat (length a) + 1) with (Z.of_nat (length (a ++ [x]))) by (rewrite length_app; cbn; lia).
  change (x :: w ++ b) with ([x] ++ w ++ b). rewrite app_assoc. rewrite IH; [|done|].
  - by rewrite <-app_assoc.
  - destruct Hb as [->|[Hl Hb]]; [by left|right]. split; [|done]. destruct w; [done|exact Hl].
Qed.

Lemma loop_end k a : dots_loop (S k) (Z.of_nat (length a)) a = Ok a.
Proof. cbn [dots_loop]. by rewrite at_end. Qed.

(** Going up from the directory [D]. *)
Lemma dotdot_up D b :
  Forall plain D →
  dotdot (Z.of_nat (length (pre D)) + 1) (pre D ++ SL :: str "../" ++ b) =
    Ok (pre (removelast D) ++ SL :: b, Z.of_nat (length (pre (removelast D)))).
Proof.
  intros HD. destruct D as [|d D' _] using rev_ind; [done|].
  apply Forall_app in HD as [_ Hd]. apply Forall_cons in Hd as [[(Hne & Hch & _) _] _].
  rewrite removelast_last, pre_snoc.
  assert (Hsl : Forall (λ x, x ≠ SL) d) by (eapply Forall_impl; [exact Hch|]; cbn; tauto).
  destruct d as [|x w _] using rev_ind; [done|]. clear Hne Hch.
  assert (Hw : Forall (λ x, x ≠ SL) w) by (by apply Forall_app in Hsl as [? _]).
  set (A := pre D'). unfold dotdot.
  assert (Hlen : Z.of_nat (length (A ++ SL :: w ++ [x])) + 1 - 2 = Z.of_nat (length (A ++ SL :: w))).
  { rewrite !length_app. cbn [length]. rewrite length_app. cbn. lia. }
  rewrite Hlen, (proj2 (Z.ltb_ge _ _)) by lia.
  assert (Hs : (A ++ SL :: w ++ [x]) ++ SL :: str "../" ++ b = A ++ SL :: w ++ x :: SL :: str "../" ++ b).
  { rewrite <-app_assoc. cbn [app]. by rewrite <-app_assoc. }
  rewrite Hs at 1. rewrite seg_start_spec; [|done|rewrite length_app; cbn; lia]. cbn [bind].
  replace (Z.of_nat (length (A ++ SL :: w ++ [x])) + 1 - 1) with (Z.of_nat (length (A ++ SL :: w ++ [x]))) by lia.
  rewrite at_mid. cbn [bind]. rewrite (proj2 (Z.eqb_neq _ _)) by (rewrite length_app; cbn; lia). cbn [andb].
  rewrite (proj2 (Z.ltb_ge _ _)) by lia.
  replace ((A ++ SL :: w ++ [x]) ++ SL :: str "../" ++ b) with (A ++ SL :: (w ++ [x]) ++ SL :: str "../" ++ b)
    by (by rewrite <-app_assoc).
  rewrite seg_start_spec; [|done|rewrite length_app, length_app; cbn; rewrite length_app; cbn; lia]. cbn [bind].
  replace (Z.of_nat (length A) + 1) with (Z.of_nat (length (A ++ [SL]))) by (rewrite length_app; cbn; lia).
  replace (A ++ SL :: (w ++ [x]) ++ SL :: str "../" ++ b) with ((A ++ [SL]) ++ ((w ++ [x]) ++ SL :: str "../") ++ b)
    by (by rewrite <-!app_assoc).
  replace (Z.of_nat (length (A ++ SL :: w ++ [x])) + 1 + 3) with (Z.of_nat (length (A ++ [SL]) + length ((w ++ [x]) ++ SL :: str "../"))).
  2:{ rewrite !length_app. cbn [length]. rewrite !length_app. cbn. lia. }
  rewrite splice_app. f_equal. f_equal; [by rewrite <-app_assoc|]. rewrite length_app. cbn. lia.
Qed.

Lemma dots_loop_spec R D tr fuel :
  Forall plain D → Forall comp R → (length (body R tr) < fuel)%nat →
  dots_loop fuel (Z.of_nat (length (pre D)) + 1) (pre D ++ SL :: body R tr) = Ok (final D R tr).
Proof.
  revert D fuel; induction R as [|c R IH]; intros D fuel HD HR Hf.
  { destruct fuel as [|fuel]; [lia|]. cbn [body final].
    replace (Z.of_nat (length (pre D)) + 1) with (Z.of_nat (length (pre D ++ [SL]))) by (rewrite length_app; cbn; lia).
    apply loop_end. }
  apply Forall_cons in HR as [Hc HR]. rewrite body_cons in Hf |- *. cbn [final].
  assert (Hpos : Z.of_nat (length (pre D)) + 1 = Z.of_nat (length (pre D ++ [SL]))) by (rewrite length_app; cbn; lia).
  destruct Hc as (Hne & Hch & Hkind). destruct (is_last R tr) eqn:Hlast.
  { rewrite app_nil_r in *. change (pre D ++ SL :: c) with (pre D ++ [SL] ++ c). rewrite app_assoc, Hpos.
    replace fuel with (length c + (fuel - length c))%nat by lia.
    rewrite <-(app_nil_r c) at 3. rewrite loop_name by (try done; by left). rewrite app_nil_r.
    destruct (fuel - length c)%nat as [|k] eqn:E; [lia|]. apply loop_end. }
  rewrite length_app in Hf. cbn [length] in Hf. unfold walk1.
  destruct (bool_decide (c = dot)) eqn:Hdot; [apply bool_decide_eq_true in Hdot as ->
    |apply bool_decide_eq_false in Hdot; destruct (bool_decide (c = dotdot_name)) eqn:Hdd;
     [apply bool_decide_eq_true in Hdd as ->|apply bool_decide_eq_false in Hdd]].
  - (* . *)
    destruct fuel as [|fuel]; [lia|]. cbn [dots_loop]. rewrite Hpos.
    replace (pre D ++ SL :: dot ++ SL :: body R tr) with ((pre D ++ [SL]) ++ str "./" ++ body R tr) by (by rewrite <-app_assoc).
    change (str "./" ++ body R tr) with (DOT :: SL :: body R tr) at 1. rewrite at_mid. cbn [bind].
    change (DOT =? 0) with false. cbn match.
    rewrite looking_at_spec by (repeat constructor; done). rewrite bool_decide_true by done. cbn [bind].
    change (Z.of_nat (length (pre D ++ [SL])) + 2) with (Z.of_nat (length (pre D ++ [SL])) + Z.of_nat (length (str "./"))).
    rewrite <-Nat2Z.inj_add, splice_app, <-Hpos, <-app_assoc. apply IH; [done|done|cbn in Hf; lia].
  - (* .. *)
    destruct fuel as [|[|fuel]]; [lia|cbn in Hf; lia|]. remember (S fuel) as fuel1 eqn:Hf1. cbn [dots_loop].
    replace (pre D ++ SL :: dotdot_name ++ SL :: body R tr) with ((pre D ++ [SL]) ++ str "../" ++ body R tr) by (by rewrite <-app_assoc).
    rewrite Hpos. change (str "../" ++ body R tr) with (DOT :: DOT :: SL :: body R tr) at 1. rewrite at_mid. cbn [bind].
    change (DOT =? 0) with false. cbn match.
    rewrite looking_at_spec by (repeat constructor; done). rewrite bool_decide_false by done. cbn [bind].
    rewrite looking_at_spec by (repeat constructor; done). rewrite bool_decide_true by done. cbn [bind].
    rewrite <-Hpos, <-app_assoc. cbn [app]. rewrite dotdot_up by done. cbn [bind]. subst fuel1. rewrite loop_slash.
    apply IH; [|done|cbn in Hf; lia]. destruct D as [|d D' _] using rev_ind; [done|].
    rewrite removelast_last. by apply Forall_app in HD as [? _].
  - (* a name *)
    assert (Hld : last c ≠ Some DOT) by (by destruct Hkind as [|[|]]).
    change (pre D ++ SL :: c ++ SL :: body R tr) with (pre D ++ [SL] ++ c ++ SL :: body R tr). rewrite app_assoc, Hpos.
    replace fuel with (length c + S (fuel - length c - 1))%nat by lia.
    rewrite loop_name by (try done; right; eauto). rewrite app_assoc, loop_slash.
    replace ((pre D ++ [SL]) ++ c) with (pre (D ++ [c])) by (rewrite pre_snoc; by rewrite <-app_assoc).
    apply IH; [|done|lia]. apply Forall_app; split; [done|]. apply Forall_singleton. by split; [split|].
Qed.

(** ** The end of the path *)

Definition finish (s : list Z) : list Z := rooted (strip_last (leading s)).

Lemma walk1_plain D c : Forall plain D → comp c → Forall plain (walk1 D c).
Proof.
  intros HD Hc. unfold walk1. destruct (bool_decide (c = dot)) eqn:H1; [done|].
  destruct (bool_decide (c = dotdot_name)) eqn:H2.
  - destruct D as [|d D' _] using rev_ind; [done|]. rewrite removelast_last. by apply Forall_app in HD as [? _].
  - apply bool_decide_eq_false in H1, H2. apply Forall_app; split; [done|]. apply Forall_singleton.
    split; [done|]. destruct Hc as (_ & _ & [|[|]]); done.
Qed.

Lemma norm_plain D R : Forall plain D → Forall comp R → Forall plain (norm D R).
Proof.
  revert D; induction R as [|c R IH]; intros D HD HR; [done|]. apply Forall_cons in HR as [Hc HR].
  apply IH; [|done]. by apply walk1_plain.
Qed.

Lemma final_cases D R tr :
  Forall plain D → Forall comp R →
  final D R tr = pre (norm D R) ++ [SL] ∨
  ∃ N c, Forall plain N ∧ comp c ∧ final D R tr = pre N ++ SL :: c ∧ norm D R = walk1 N c.
Proof.
  revert D; induction R as [|c R IH]; intros D HD HR; [by left|]. apply Forall_cons in HR as [Hc HR]. cbn [final].
  destruct (is_last R tr) eqn:Hl.
  - right. exists D, c. destruct R; [|done]. done.
  - apply IH; [by apply walk1_plain|done].
Qed.

(** The path of plain components starts with a single slash and does not end
    in one. *)
Lemma pre_shape N : Forall plain N → N = [] ∨ (∃ x r, pre N = SL :: x :: r ∧ x ≠ SL) ∧
  ∃ a y, pre N = a ++ [y] ∧ y ≠ SL ∧ y ≠ DOT.
Proof.
  intros HN. destruct N as [|d N]; [by left|]. right. split.
  - apply Forall_cons in HN as [[(Hne & Hch & _) _] _]. destruct d as [|x d]; [done|].
    apply Forall_cons in Hch as [[Hx _] _]. by exists x, (d ++ pre N).
  - destruct (exists_last (l := d :: N)) as (M & e & HM); [done|]. rewrite HM in HN |- *. apply Forall_app in HN as [_ He].
    apply Forall_cons in He as [[(Hne & Hch & _) Hl] _]. destruct e as [|y w _] using rev_ind; [done|].
    apply Forall_app in Hch as [_ Hy]. apply Forall_cons in Hy as [[Hy _] _]. rewrite last_snoc in Hl.
    exists (pre M ++ SL :: w), y. rewrite pre_snoc. split; [by rewrite <-app_assoc|]. split; [done|congruence].
Qed.

Lemma leading_id x y r : y ≠ SL → leading (x :: y :: r) = x :: y :: r.
Proof. intros Hy. cbn [leading]. rewrite (proj2 (Z.eqb_neq y SL) Hy), andb_false_r. done. Qed.

Lemma finish_pre N : Forall plain N → finish (pre N) = canon N.
Proof.
  intros HN. unfold finish. destruct (pre_shape N HN) as [-> | [(x & r & Hp & Hx) (a & y & Ha & Hy & _)]]; [done|].
  rewrite Hp, leading_id by done. rewrite <-Hp. unfold strip_last. rewrite Ha, last_snoc.
  rewrite (bool_decide_false (Some y = _)) by congruence. rewrite andb_false_r, <-Ha, Hp. cbn [rooted].
  rewrite Z.eqb_refl, <-Hp. by destruct N.
Qed.

Lemma finish_slash N : Forall plain N → finish (pre N ++ [SL]) = canon N.
Proof.
  intros HN. unfold finish. destruct (pre_shape N HN) as [-> | [(x & r & Hp & Hx) _]]; [done|].
  rewrite Hp. cbn [app]. rewrite leading_id by done. change (SL :: x :: r ++ [SL]) with ((SL :: x :: r) ++ [SL]).
  rewrite <-Hp. unfold strip_last. rewrite last_snoc, removelast_last.
  rewrite !bool_decide_true by (try done; rewrite Hp; cbn; lia). cbn [andb]. rewrite Hp. cbn [rooted].
  rewrite Z.eqb_refl, <-Hp. by destruct N.
Qed.

Lemma at_last a y : at_ (a ++ [y]) (Z.of_nat (length (a ++ [y])) - 1) = Ok y.
Proof. rewrite length_app. cbn [length]. replace (Z.of_nat (length a + 1) - 1) with (Z.of_nat (length a)) by lia. apply at_mid. Qed.

(** The last character decides. *)
Lemma trailing_id a y z : y ≠ DOT → trailing (a ++ [z; y]) = Ok (a ++ [z; y]).
Proof.
  intros Hy. unfold trailing. rewrite length_app. cbn [length]. rewrite (proj2 (Z.leb_le _ _)) by lia.
  replace (Z.of_nat (length a + 2) - 1) with (Z.of_nat (length (a ++ [z]))) by (rewrite length_app; cbn; lia).
  change (a ++ [z; y]) with (a ++ [z] ++ [y]). rewrite app_assoc, at_mid. cbn [bind].
  rewrite <-app_assoc. cbn [app]. replace (Z.of_nat (length (a ++ [z])) - 1) with (Z.of_nat (length a)) by (rewrite length_app; cbn; lia).
  rewrite at_mid. cbn [bind]. by rewrite (proj2 (Z.eqb_neq _ _) Hy).
Qed.

Lemma trailing_dot a : trailing (a ++ [SL; DOT]) = Ok a.
Proof.
  unfold trailing. rewrite length_app. cbn [length]. rewrite (proj2 (Z.leb_le _ _)) by lia.
  replace (Z.of_nat (length a + 2) - 1) with (Z.of_nat (length (a ++ [SL]))) by (rewrite length_app; cbn; lia).
  change (a ++ [SL; DOT]) with (a ++ [SL] ++ [DOT]). rewrite app_assoc, at_mid. cbn [bind].
  rewrite <-app_assoc. cbn [app]. replace (Z.of_nat (length (a ++ [SL])) - 1) with (Z.of_nat (length a)) by (rewrite length_app; cbn; lia).
  rewrite at_mid. cbn [bind]. rewrite !Z.eqb_refl. cbn [andb]. by rewrite Nat2Z.id, take_app_length.
Qed.

Lemma trailing_dotdot N : Forall plain N →
  trailing (pre N ++ [SL; DOT; DOT]) = Ok (pre (removelast N) ++ [SL]).
Proof.
  intros HN. set (a := pre N). unfold trailing. rewrite length_app. cbn [length].
  rewrite (proj2 (Z.leb_le _ _)) by lia.
  replace (Z.of_nat (length a + 3) - 1) with (Z.of_nat (length (a ++ [SL; DOT]))) by (rewrite length_app; cbn; lia).
  change (a ++ [SL; DOT; DOT]) with (a ++ [SL; DOT] ++ [DOT]). rewrite app_assoc, at_mid. cbn [bind].
  rewrite <-app_assoc. cbn [app].
  replace (Z.of_nat (length (a ++ [SL; DOT])) - 1) with (Z.of_nat (length (a ++ [SL]))) by (rewrite !length_app; cbn; lia).
  change (a ++ [SL; DOT; DOT]) with (a ++ [SL] ++ [DOT; DOT]). rewrite app_assoc, at_mid. cbn [bind].
  change (DOT =? SL) with false. rewrite !Z.eqb_refl. cbn [andb].
  rewrite (proj2 (Z.leb_le _ _)) by lia. cbn [andb]. rewrite <-app_assoc. cbn [app].
  replace (Z.of_nat (length (a ++ [SL; DOT])) - 2) with (Z.of_nat (length a)) by (rewrite !length_app; cbn; lia).
  rewrite at_mid. cbn [bind]. rewrite Z.eqb_refl. unfold a. clear a.
  destruct N as [|d N' _] using rev_ind; [done|]. rewrite removelast_last, pre_snoc.
  apply Forall_app in HN as [_ Hd]. apply Forall_cons in Hd as [[(Hne & Hch & _) _] _].
  destruct d as [|x w _] using rev_ind; [done|]. apply Forall_app in Hch as [Hch _].
  assert (Hw : Forall (λ x, x ≠ SL) w) by (eapply Forall_impl; [exact Hch|]; cbn; tauto).
  rewrite (proj2 (Z.eqb_neq _ _)) by (rewrite length_app; cbn; lia).
  set (A := pre N').
  replace (Z.of_nat (length (A ++ SL :: w ++ [x])) - 1) with (Z.of_nat (length (A ++ SL :: w)))
    by (rewrite !length_app; cbn [length]; rewrite length_app; cbn; lia).
  replace ((A ++ SL :: w ++ [x]) ++ [SL; DOT; DOT]) with (A ++ SL :: w ++ x :: [SL; DOT; DOT])
    by (rewrite <-app_assoc; cbn [app]; by rewrite <-app_assoc).
  rewrite seg_start_spec; [|done|rewrite length_app; cbn; rewrite length_app; cbn; lia]. cbn [bind]. f_equal.
  change (A ++ SL :: w ++ x :: [SL; DOT; DOT]) with (A ++ [SL] ++ w ++ x :: [SL; DOT; DOT]). rewrite app_assoc.
  replace (Z.to_nat (Z.of_nat (length A) + 1)) with (length (A ++ [SL])) by (rewrite length_app; cbn; lia).
  apply take_app_length.
Qed.

Lemma trailing_finish D R tr :
  Forall plain D → Forall comp R →
  ∃ s, trailing (final D R tr) = Ok s ∧ finish s = canon (norm D R).
Proof.
  intros HD HR. pose proof (norm_plain D R HD HR) as HN.
  destruct (final_cases D R tr HD HR) as [-> | (N & c & HNp & Hc & -> & Hnorm)].
  - exists (pre (norm D R) ++ [SL]). split; [|by apply finish_slash].
    destruct (pre_shape _ HN) as [-> | [_ (a & y & -> & _)]]; [done|]. rewrite <-app_assoc. by apply trailing_id.
  - rewrite Hnorm. unfold walk1.
    destruct (bool_decide (c = dot)) eqn:H1; [apply bool_decide_eq_true in H1 as ->|apply bool_decide_eq_false in H1;
      destruct (bool_decide (c = dotdot_name)) eqn:H2; [apply bool_decide_eq_true in H2 as ->|apply bool_decide_eq_false in H2]].
    + exists (pre N). split; [apply trailing_dot|by apply finish_pre].
    + exists (pre (removelast N) ++ [SL]). split; [by apply trailing_dotdot|]. apply finish_slash.
      destruct N as [|d N' _] using rev_ind; [done|]. rewrite removelast_last. by apply Forall_app in HNp as [? _].
    + assert (Hp : Forall plain (N ++ [c])).
      { apply Forall_app; split; [done|]. apply Forall_singleton. split; [done|]. destruct Hc as (_ & _ & [|[|]]); done. }
      exists (pre (N ++ [c])). rewrite <-pre_snoc. split; [|by apply finish_pre].
      destruct (pre_shape _ Hp) as [Hnil | [(x & r & Hp1 & _) (a & y & Ha & _ & Hy)]]; [by destruct N|].
      rewrite Ha. destruct a as [|z a _] using rev_ind; [rewrite Hp1 in Ha; by destruct r|].
      rewrite <-app_assoc. by apply trailing_id.
Qed.

(** A rooted path is mapped to the canonical path of its normal form. *)
Lemma resolve_spec R tr path cwd :
  Forall comp R → start_path path cwd = SL :: body R tr →
  cal_absolute_path path cwd = Ok (canon (norm [] R)).
Proof.
  intros HR Hs. unfold cal_absolute_path. rewrite Hs.
  assert (Hl : dots_loop (path_fuel (SL :: body R tr)) 0 (SL :: body R tr) = Ok (final [] R tr)).
  { unfold path_fuel. remember (length (SL :: body R tr) + 2)%nat as k eqn:Hk. cbn [length] in Hk.
    assert (∃ j, (k * k = S j ∧ length (body R tr) < j)%nat) as (j & -> & Hj).
    { exists (k * k - 1)%nat. nia. }
    pose proof (loop_slash j [] (body R tr)) as Hst. cbn [app length] in Hst. change (Z.of_nat 0) with 0 in Hst.
    rewrite Hst. by apply (dots_loop_spec R [] tr). }
  rewrite Hl. cbn [bind]. destruct (trailing_finish [] R tr) as (s & -> & Hf); [done|done|]. cbn [bind]. by rewrite <-Hf.
Qed.

End Path.
