(* ===== verification/PathSpec.v ===== *)
(** * Path names: the theorems *)

From Stdlib Require Import Ascii.
From S2P Require Import Prelude PrintDefs PathDefs Path.
Import PrintDefs PathDefs Path.

Module PathSpec.

(** The directory or file a path name denotes from the directory [C], as a
    list of components. *)
Inductive denotes (C : list (list Z)) : option (list Z) → list (list Z) → Prop :=
| den_null : denotes C None C
| den_empty : denotes C (Some []) C
| den_abs R tr : Forall comp R → denotes C (Some (SL :: body R tr)) (norm [] R)
| den_rel R tr : Forall comp R → R ≠ [] → denotes C (Some (body R tr)) (norm C R).

Lemma walk_names D C : Forall plain C → norm D C = D ++ C.
Proof.
  revert D; induction C as [|c C IH]; intros D HC; cbn [norm foldl]; [by rewrite app_nil_r|].
  apply Forall_cons in HC as [[_ Hc] HC]. unfold norm in IH. rewrite IH by done. unfold walk1.
  rewrite !bool_decide_false by (intros ->; by apply Hc). by rewrite <-app_assoc.
Qed.

Lemma norm_app D C R : norm D (C ++ R) = norm (norm D C) R.
Proof. apply foldl_app. Qed.

Lemma pre_body C R tr : R ≠ [] → pre C ++ SL :: body R tr = SL :: body (C ++ R) tr.
Proof.
  intros HR. induction C as [|c C IH]; [done|]. cbn [app]. rewrite body_cons.
  assert (is_last (C ++ R) tr = false) as -> by (destruct (C ++ R) eqn:E; [by destruct C; destruct R|done]).
  rewrite <-IH. unfold pre. cbn. by rewrite <-app_assoc.
Qed.

Lemma canon_body C : canon C = SL :: body C false.
Proof.
  destruct C as [|c C _] using rev_ind; [done|]. rewrite <-(pre_body C [c] false) by done.
  rewrite body_cons. cbn [is_last negb]. rewrite app_nil_r, <-pre_snoc. by destruct C.
Qed.

Lemma plain_comp C : Forall plain C → Forall comp C.
Proof. intros H. eapply Forall_impl; [exact H|]. by intros c [? _]. Qed.

(** The starting string of a path. *)
Lemma denotes_start C path N :
  Forall plain C → denotes C path N →
  ∃ R tr, Forall comp R ∧ start_path path (canon C) = SL :: body R tr ∧ N = norm [] R.
Proof.
  intros HC [| |R tr HR|R tr HR Hne].
  - exists C, false. split; [by apply plain_comp|]. by rewrite walk_names, <-canon_body.
  - exists C, false. split; [by apply plain_comp|]. by rewrite walk_names, <-canon_body.
  - by exists R, tr.
  - exists (C ++ R), tr. split; [apply Forall_app; split; [by apply plain_comp|done]|].
    rewrite norm_app, (walk_names [] C HC). split; [|done].
    destruct R as [|[|x c] R]; [done|apply Forall_cons in HR as [(? & _) _]; done|].
    apply Forall_cons in HR as [(_ & Hch & _) _]. apply Forall_cons in Hch as [[Hx _] _].
    rewrite <-(pre_body C) by done. rewrite body_cons. cbn [app start_path]. rewrite (proj2 (Z.eqb_neq _ _) Hx).
    destruct (pre_shape C HC) as [-> | [_ (a & y & Ha & Hy & _)]]; [done|].
    assert (canon C = pre C) as -> by (destruct C; [by destruct a|done]). rewrite Ha, last_snoc.
    rewrite bool_decide_true by (by destruct a). rewrite bool_decide_false by congruence. done.
Qed.

Lemma denotes_plain C path N : Forall plain C → denotes C path N → Forall plain N.
Proof. intros HC [| | |]; [done|done|by apply norm_plain|by apply norm_plain]. Qed.

Lemma resolve_denotes C path N :
  Forall plain C → denotes C path N → cal_absolute_path path (canon C) = Ok (canon N).
Proof.
  intros HC HN. destruct (denotes_start C path N HC HN) as (R & tr & HR & Hs & ->). by apply (resolve_spec R tr).
Qed.

(** C36. [cal_absolute_path] resolves path names, absolute or relative to the
    current directory, with [.], [..] and trailing slashes anywhere: it
    terminates and returns the canonical path of the directory that walking
    along the components reaches ([..] at the root stays there).  Required is
    that components are separated by single slashes and, other than [.] and
    [..], do not end in a dot.  A canonical path is mapped to itself. *)
Theorem cal_absolute_path_correct C path N cwd :
  Forall plain C → denotes C path N →
  cal_absolute_path path (canon C) = Ok (canon N) ∧ Forall plain N ∧
  cal_absolute_path (Some (canon N)) cwd = Ok (canon N).
Proof.
  intros HC HN. pose proof (denotes_plain C path N HC HN) as HP. split_and!; [by apply resolve_denotes|done|].
  rewrite (resolve_spec N false (Some (canon N)) cwd); [by rewrite walk_names|by apply plain_comp|].
  rewrite canon_body. done.
Qed.

Definition usr : list (list Z) := [str "usr"; str "lib"].
Definition up_x : list (list Z) := [str ".."; str "x"].

Lemma chars_ok c : forallb (λ x, negb (x =? SL) && (0 <? x)) c = true → Forall (λ x, x ≠ SL ∧ 0 < x) c.
Proof.
  rewrite forallb_forall. intros H. apply Forall_forall. intros x Hx. rewrite list_elem_of_In in Hx.
  specialize (H x Hx). apply andb_true_iff in H as [H1 H2]. apply negb_true_iff in H1.
  by apply Z.eqb_neq in H1; apply Z.ltb_lt in H2.
Qed.

Lemma name_plain c : c ≠ [] → forallb (λ x, negb (x =? SL) && (0 <? x)) c = true → last c ≠ Some DOT → plain c.
Proof. intros H1 H2 H3. split; [|done]. split; [done|]. split; [by apply chars_ok|by right; right]. Qed.

Lemma usr_plain : Forall plain usr.
Proof. repeat apply Forall_cons_2; [by apply name_plain|by apply name_plain|apply Forall_nil_2]. Qed.
Lemma up_x_comp : Forall comp up_x.
Proof.
  repeat apply Forall_cons_2; [|by apply name_plain|apply Forall_nil_2].
  split; [done|]. split; [by apply chars_ok|by right; left].
Qed.

Lemma cal_absolute_path_witness :
  cal_absolute_path (Some (str "../x")) (str "/usr/lib") = Ok (str "/usr/x").
Proof.
  apply (cal_absolute_path_correct usr (Some (str "../x")) [str "usr"; str "x"] []).
  - exact usr_plain.
  - apply (den_rel usr up_x false); [exact up_x_comp|discriminate].
Defined.

(** ** The root directory of a process *)

(** The first segment of a string of segments is determined. *)
Lemma segment_inj n r X Y :
  Forall (λ x, x ≠ SL) n → Forall (λ x, x ≠ SL) r →
  (X = [] ∨ ∃ x, X = SL :: x) → (Y = [] ∨ ∃ y, Y = SL :: y) → n ++ X = r ++ Y → n = r ∧ X = Y.
Proof.
  revert r; induction n as [|a n IH]; intros [|b r] Hn Hr HX HY Heq; cbn in Heq.
  - done.
  - apply Forall_cons in Hr as [Hb _]. destruct HX as [->|[x ->]]; [done|]. by injection Heq as <-.
  - apply Forall_cons in Hn as [Ha _]. destruct HY as [->|[y ->]]; [done|]. by injection Heq as ->.
  - apply Forall_cons in Hn as [_ Hn]. apply Forall_cons in Hr as [_ Hr]. injection Heq as <- Heq.
    destruct (IH r Hn Hr HX HY Heq) as [<- <-]. done.
Qed.

Lemma plain_noslash c : plain c → Forall (λ x, x ≠ SL) c.
Proof. intros [(_ & H & _) _]. eapply Forall_impl; [exact H|]. cbn. tauto. Qed.

Lemma pre_head N : pre N = [] ∨ ∃ x, pre N = SL :: x.
Proof. destruct N as [|c N]; [by left|]. right. by exists (c ++ pre N). Qed.

Lemma prefix_names T N t :
  Forall plain T → Forall plain N → (t = [] ∨ ∃ x, t = SL :: x) → pre N = pre T ++ t → ∃ M, N = T ++ M.
Proof.
  revert N; induction T as [|r T IH]; intros N HT HN Ht Heq; [by exists N|].
  apply Forall_cons in HT as [Hr HT]. destruct N as [|n N]; [done|]. apply Forall_cons in HN as [Hn HN].
  unfold pre in Heq. cbn in Heq. injection Heq as Heq. rewrite <-app_assoc in Heq.
  apply segment_inj in Heq as [-> Heq]; [|by apply plain_noslash|by apply plain_noslash|apply pre_head|].
  - destruct (IH N HT HN Ht Heq) as [M ->]. by exists M.
  - destruct (pre_head T) as [HT0|[x Hx]]; [unfold pre in HT0; rewrite HT0; done|]. right. unfold pre in Hx. rewrite Hx. by exists (x ++ t).
Qed.

(** C37. The root directory confines path names: with a root directory other
    than [/], [get_absolute_path] returns the path itself when the components
    of the root are the first ones of it, and the root directory for every
    other path, also when only the text of the root is a prefix (as [/jail] is
    of [/jailbreak]); with the root [/] it returns every path. *)
Theorem get_absolute_path_confined T C path N :
  Forall plain T → Forall plain C → denotes C path N →
  get_absolute_path (canon T) path (canon C) = Ok (if decide (T `prefix_of` N) then canon N else canon T).
Proof.
  intros HT HC HN. pose proof (denotes_plain C path N HC HN) as HP.
  unfold get_absolute_path. rewrite (resolve_denotes C path N HC HN). cbn [bind].
  destruct (decide (T = [])) as [->|HTne].
  { rewrite bool_decide_true by done. by rewrite decide_True by apply prefix_nil. }
  assert (canon T = pre T) as HcT by (by destruct T). rewrite HcT.
  assert (Hne : pre T ≠ str "/").
  { destruct (pre_shape T HT) as [->|[(x & r & -> & _) _]]; [done|]. discriminate. }
  rewrite bool_decide_false by done. destruct (decide (T `prefix_of` N)) as [[M ->]|Hno].
  - assert (canon (T ++ M) = pre T ++ pre M) as ->.
    { assert (canon (T ++ M) = pre (T ++ M)) as -> by (by destruct T). unfold pre. by rewrite fmap_app, concat_app. }
    rewrite length_app, take_app_length.
    rewrite (bool_decide_false (_ < _)%nat), (bool_decide_true (pre T = pre T)) by (done || lia). cbn [orb negb].
    destruct (pre_head M) as [->|[x Hx]].
    + rewrite bool_decide_true by (cbn; lia). done.
    + rewrite Hx. cbn [length]. rewrite bool_decide_false by lia. rewrite at_mid. cbn [bind]. by rewrite Z.eqb_refl.
  - destruct (bool_decide (length (canon N) < length (pre T))%nat) eqn:E1; [done|]. apply bool_decide_eq_false in E1.
    destruct (bool_decide (take (length (pre T)) (canon N) = pre T)) eqn:E2; [|done]. apply bool_decide_eq_true in E2.
    cbn [orb negb]. set (t := drop (length (pre T)) (canon N)).
    assert (Hsp : canon N = pre T ++ t) by (rewrite <-E2 at 1; symmetry; apply take_drop).
    assert (Hsl : ¬ (t = [] ∨ ∃ x, t = SL :: x)).
    { intros Ht. apply Hno. destruct N as [|n N].
      - exfalso. destruct (pre_shape T HT) as [->|[(x & r & Hx & _) _]]; [done|]. by rewrite Hx in Hsp.
      - by apply (prefix_names T (n :: N) t). }
    destruct t as [|c t]; [by destruct Hsl; left|]. rewrite Hsp, length_app. cbn [length].
    rewrite bool_decide_false by lia. rewrite at_mid. cbn [bind].
    destruct (c =? "/"%char) eqn:E3; [apply Z.eqb_eq in E3 as ->; destruct Hsl; right; eauto|]. done.
Qed.

Lemma get_absolute_path_witness :
  get_absolute_path (str "/usr/lib") (Some (str "../x")) (str "/usr/lib") = Ok (str "/usr/lib").
Proof.
  pose proof (get_absolute_path_confined usr usr (Some (str "../x")) [str "usr"; str "x"] usr_plain usr_plain) as H.
  rewrite decide_False in H.
  - apply H. apply (den_rel usr up_x false); [exact up_x_comp|discriminate].
  - intros [M HM]. discriminate HM.
Defined.

End PathSpec.
