(* ===== verification/SignalDefs.v ===== *)
(** * Signals (kernel/signal.c, the cancellation flags of kernel/thread.c,
    [kill]/[tgkill] of kernel/process.c, the signal calls of kernel/syscall.c),
    definitions

    A thread is the record of its signal fields; the threads of a process are a
    map from thread numbers ([thread_t *], 0 is NULL) with [thread_queue] the
    order of the list.  The state of a thread ([t_SLEEPING] ...) is that of the
    futex component.  A signal set is its only word.  A frame of
    [signal_frames] carries the two pages it occupies and its contents; the
    list operations are those of CList on the front of the list.  User memory
    and the page allocator are the machine of VMemDefs; the two local
    structures that are copied out live on the kernel stack from the address
    [stk] on: the assigned fields are written there and the bytes that no
    assignment sets keep what the stack held.  [thread_exit] does not return: it is an outcome of its own.  The
    trap frame is that of RISC-V. *)

From S2P Require Import Prelude Pmem CStringDefs VMemDefs FutexDefs.
Import Pmem VMemDefs.

Module SignalDefs.

#[local] Existing Instance FutexDefs.tstate_eq_dec.

Definition SIGABRT : Z := 6.
Definition SIGKILL : Z := 9.
Definition SIGSEGV : Z := 11.
Definition SIGTERM : Z := 15.
Definition SIGCHLD : Z := 17.
Definition SIGCONT : Z := 18.
Definition SIGSTOP : Z := 19.
Definition SIGRTMIN : Z := 32.
Definition SIGCANCEL : Z := SIGRTMIN.
Definition SIGRTMAX : Z := 64.
Definition SIG_DFL : Z := 0.
Definition SIG_IGN : Z := 1.
Definition SA_NODEFER : Z := 0x08000000.
Definition SA_ONSTACK : Z := 0x08000000.
Definition SIG_BLOCK : Z := 0.
Definition SIG_UNBLOCK : Z := 1.
Definition SIG_SETMASK : Z := 2.
Definition PTHREAD_CANCEL_ENABLE : Z := 0.
Definition PTHREAD_CANCELED : Z := -1.
Definition INT_MAX : Z := 2147483647.
Definition EPERM : Z := 1.
Definition ESRCH : Z := 3.
Definition SIGTRAMPOLINE : Z := MAXVA - 0x10000000.
Definition sizeof_siginfo : Z := 72.
Definition sizeof_ucontext : Z := 176.
Definition sizeof_trapframe : Z := 288.
Definition full_sigset : Z := 0xFFFFFFFFFFFFFFFF.

(** ** Data *)

Record trapframe := mk_tf {
  r_kernel_satp : Z; r_kernel_sp : Z; r_kernel_trap : Z; r_epc : Z; r_kernel_hartid : Z; r_ra : Z;
  r_sp : Z; r_gp : Z; r_tp : Z; r_t0 : Z; r_t1 : Z; r_t2 : Z;
  r_s0 : Z; r_s1 : Z; r_a0 : Z; r_a1 : Z; r_a2 : Z; r_a3 : Z;
  r_a4 : Z; r_a5 : Z; r_a6 : Z; r_a7 : Z; r_s2 : Z; r_s3 : Z;
  r_s4 : Z; r_s5 : Z; r_s6 : Z; r_s7 : Z; r_s8 : Z; r_s9 : Z;
  r_s10 : Z; r_s11 : Z; r_t3 : Z; r_t4 : Z; r_t5 : Z; r_t6 : Z
}.
Definition set_a0 (v : Z) (f : trapframe) : trapframe :=
  mk_tf (r_kernel_satp f) (r_kernel_sp f) (r_kernel_trap f) (r_epc f) (r_kernel_hartid f) (r_ra f)
    (r_sp f) (r_gp f) (r_tp f) (r_t0 f) (r_t1 f) (r_t2 f) (r_s0 f) (r_s1 f) v (r_a1 f) (r_a2 f) (r_a3 f)
    (r_a4 f) (r_a5 f) (r_a6 f) (r_a7 f) (r_s2 f) (r_s3 f) (r_s4 f) (r_s5 f) (r_s6 f) (r_s7 f) (r_s8 f)
    (r_s9 f) (r_s10 f) (r_s11 f) (r_t3 f) (r_t4 f) (r_t5 f) (r_t6 f).
Definition set_a1 (v : Z) (f : trapframe) : trapframe :=
  mk_tf (r_kernel_satp f) (r_kernel_sp f) (r_kernel_trap f) (r_epc f) (r_kernel_hartid f) (r_ra f)
    (r_sp f) (r_gp f) (r_tp f) (r_t0 f) (r_t1 f) (r_t2 f) (r_s0 f) (r_s1 f) (r_a0 f) v (r_a2 f) (r_a3 f)
    (r_a4 f) (r_a5 f) (r_a6 f) (r_a7 f) (r_s2 f) (r_s3 f) (r_s4 f) (r_s5 f) (r_s6 f) (r_s7 f) (r_s8 f)
    (r_s9 f) (r_s10 f) (r_s11 f) (r_t3 f) (r_t4 f) (r_t5 f) (r_t6 f).
Definition set_a2 (v : Z) (f : trapframe) : trapframe :=
  mk_tf (r_kernel_satp f) (r_kernel_sp f) (r_kernel_trap f) (r_epc f) (r_kernel_hartid f) (r_ra f)
    (r_sp f) (r_gp f) (r_tp f) (r_t0 f) (r_t1 f) (r_t2 f) (r_s0 f) (r_s1 f) (r_a0 f) (r_a1 f) v (r_a3 f)
    (r_a4 f) (r_a5 f) (r_a6 f) (r_a7 f) (r_s2 f) (r_s3 f) (r_s4 f) (r_s5 f) (r_s6 f) (r_s7 f) (r_s8 f)
    (r_s9 f) (r_s10 f) (r_s11 f) (r_t3 f) (r_t4 f) (r_t5 f) (r_t6 f).
Definition set_sp (v : Z) (f : trapframe) : trapframe :=
  mk_tf (r_kernel_satp f) (r_kernel_sp f) (r_kernel_trap f) (r_epc f) (r_kernel_hartid f) (r_ra f) v
    (r_gp f) (r_tp f) (r_t0 f) (r_t1 f) (r_t2 f) (r_s0 f) (r_s1 f) (r_a0 f) (r_a1 f) (r_a2 f) (r_a3 f)
    (r_a4 f) (r_a5 f) (r_a6 f) (r_a7 f) (r_s2 f) (r_s3 f) (r_s4 f) (r_s5 f) (r_s6 f) (r_s7 f) (r_s8 f)
    (r_s9 f) (r_s10 f) (r_s11 f) (r_t3 f) (r_t4 f) (r_t5 f) (r_t6 f).
Definition set_epc (v : Z) (f : trapframe) : trapframe :=
  mk_tf (r_kernel_satp f) (r_kernel_sp f) (r_kernel_trap f) v (r_kernel_hartid f) (r_ra f) (r_sp f)
    (r_gp f) (r_tp f) (r_t0 f) (r_t1 f) (r_t2 f) (r_s0 f) (r_s1 f) (r_a0 f) (r_a1 f) (r_a2 f) (r_a3 f)
    (r_a4 f) (r_a5 f) (r_a6 f) (r_a7 f) (r_s2 f) (r_s3 f) (r_s4 f) (r_s5 f) (r_s6 f) (r_s7 f) (r_s8 f)
    (r_s9 f) (r_s10 f) (r_s11 f) (r_t3 f) (r_t4 f) (r_t5 f) (r_t6 f).
Definition set_ra (v : Z) (f : trapframe) : trapframe :=
  mk_tf (r_kernel_satp f) (r_kernel_sp f) (r_kernel_trap f) (r_epc f) (r_kernel_hartid f) v (r_sp f)
    (r_gp f) (r_tp f) (r_t0 f) (r_t1 f) (r_t2 f) (r_s0 f) (r_s1 f) (r_a0 f) (r_a1 f) (r_a2 f) (r_a3 f)
    (r_a4 f) (r_a5 f) (r_a6 f) (r_a7 f) (r_s2 f) (r_s3 f) (r_s4 f) (r_s5 f) (r_s6 f) (r_s7 f) (r_s8 f)
    (r_s9 f) (r_s10 f) (r_s11 f) (r_t3 f) (r_t4 f) (r_t5 f) (r_t6 f).

Definition copytrapframe (f1 f2 : trapframe) : trapframe :=
  mk_tf (r_kernel_satp f2) (r_kernel_sp f2) (r_kernel_trap f2) (r_epc f2) (r_kernel_hartid f2) (r_ra f2)
    (r_sp f2) (r_gp f2) (r_tp f2) (r_t0 f2) (r_t1 f2) (r_t2 f2) (r_s0 f2) (r_s1 f2) (r_a0 f2) (r_a1 f2)
    (r_a2 f2) (r_a3 f2) (r_a4 f2) (r_a5 f2) (r_a6 f2) (r_a7 f2) (r_s2 f2) (r_s3 f2) (r_s4 f2) (r_s5 f2)
    (r_s6 f2) (r_s7 f2) (r_s8 f2) (r_s9 f2) (r_s10 f2) (r_s11 f2) (r_t3 f2) (r_t4 f2) (r_t5 f2) (r_t6 f2).

Record sigaction := mk_action { sa_handler : Z; sa_mask : Z; sa_flags : Z }.

Record signal_frame := mk_frame {
  f_page : Z;
  signal_number : Z;
  return_address : Z;
  signal_mask : Z;
  tf_page : Z;
  tf_copy : trapframe
}.

Record thread := mk_thread {
  tid : Z; sig_set : Z; sig_pending : Z; sigactions : list sigaction;
  signal_frames : list signal_frame; current_signal : Z; signal_interrupted : Z; handling_signal : Z;
  ss_sp : Z; ss_size : Z; cancel_state : Z; cancel_type : Z;
  cancel_requested : Z; should_exit : Z; exit_value : Z; exit_status : Z;
  join_futex_addr : Z
}.
Definition set_sig_set (v : Z) (t : thread) : thread :=
  mk_thread (tid t) v (sig_pending t) (sigactions t) (signal_frames t) (current_signal t)
    (signal_interrupted t) (handling_signal t) (ss_sp t) (ss_size t) (cancel_state t) (cancel_type t)
    (cancel_requested t) (should_exit t) (exit_value t) (exit_status t) (join_futex_addr t).
Definition set_sig_pending (v : Z) (t : thread) : thread :=
  mk_thread (tid t) (sig_set t) v (sigactions t) (signal_frames t) (current_signal t)
    (signal_interrupted t) (handling_signal t) (ss_sp t) (ss_size t) (cancel_state t) (cancel_type t)
    (cancel_requested t) (should_exit t) (exit_value t) (exit_status t) (join_futex_addr t).
Definition set_sigactions (v : list sigaction) (t : thread) : thread :=
  mk_thread (tid t) (sig_set t) (sig_pending t) v (signal_frames t) (current_signal t)
    (signal_interrupted t) (handling_signal t) (ss_sp t) (ss_size t) (cancel_state t) (cancel_type t)
    (cancel_requested t) (should_exit t) (exit_value t) (exit_status t) (join_futex_addr t).
Definition set_signal_frames (v : list signal_frame) (t : thread) : thread :=
  mk_thread (tid t) (sig_set t) (sig_pending t) (sigactions t) v (current_signal t) (signal_interrupted t)
    (handling_signal t) (ss_sp t) (ss_size t) (cancel_state t) (cancel_type t) (cancel_requested t)
    (should_exit t) (exit_value t) (exit_status t) (join_futex_addr t).
Definition set_current_signal (v : Z) (t : thread) : thread :=
  mk_thread (tid t) (sig_set t) (sig_pending t) (sigactions t) (signal_frames t) v (signal_interrupted t)
    (handling_signal t) (ss_sp t) (ss_size t) (cancel_state t) (cancel_type t) (cancel_requested t)
    (should_exit t) (exit_value t) (exit_status t) (join_futex_addr t).
Definition set_signal_interrupted (v : Z) (t : thread) : thread :=
  mk_thread (tid t) (sig_set t) (sig_pending t) (sigactions t) (signal_frames t) (current_signal t) v
    (handling_signal t) (ss_sp t) (ss_size t) (cancel_state t) (cancel_type t) (cancel_requested t)
    (should_exit t) (exit_value t) (exit_status t) (join_futex_addr t).
Definition set_handling_signal (v : Z) (t : thread) : thread :=
  mk_thread (tid t) (sig_set t) (sig_pending t) (sigactions t) (signal_frames t) (current_signal t)
    (signal_interrupted t) v (ss_sp t) (ss_size t) (cancel_state t) (cancel_type t) (cancel_requested t)
    (should_exit t) (exit_value t) (exit_status t) (join_futex_addr t).
Definition set_cancel_state (v : Z) (t : thread) : thread :=
  mk_thread (tid t) (sig_set t) (sig_pending t) (sigactions t) (signal_frames t) (current_signal t)
    (signal_interrupted t) (handling_signal t) (ss_sp t) (ss_size t) v (cancel_type t)
    (cancel_requested t) (should_exit t) (exit_value t) (exit_status t) (join_futex_addr t).
Definition set_cancel_type (v : Z) (t : thread) : thread :=
  mk_thread (tid t) (sig_set t) (sig_pending t) (sigactions t) (signal_frames t) (current_signal t)
    (signal_interrupted t) (handling_signal t) (ss_sp t) (ss_size t) (cancel_state t) v
    (cancel_requested t) (should_exit t) (exit_value t) (exit_status t) (join_futex_addr t).
Definition set_cancel_requested (v : Z) (t : thread) : thread :=
  mk_thread (tid t) (sig_set t) (sig_pending t) (sigactions t) (signal_frames t) (current_signal t)
    (signal_interrupted t) (handling_signal t) (ss_sp t) (ss_size t) (cancel_state t) (cancel_type t) v
    (should_exit t) (exit_value t) (exit_status t) (join_futex_addr t).
Definition set_should_exit (v : Z) (t : thread) : thread :=
  mk_thread (tid t) (sig_set t) (sig_pending t) (sigactions t) (signal_frames t) (current_signal t)
    (signal_interrupted t) (handling_signal t) (ss_sp t) (ss_size t) (cancel_state t) (cancel_type t)
    (cancel_requested t) v (exit_value t) (exit_status t) (join_futex_addr t).
Definition set_exit_value (v : Z) (t : thread) : thread :=
  mk_thread (tid t) (sig_set t) (sig_pending t) (sigactions t) (signal_frames t) (current_signal t)
    (signal_interrupted t) (handling_signal t) (ss_sp t) (ss_size t) (cancel_state t) (cancel_type t)
    (cancel_requested t) (should_exit t) v (exit_status t) (join_futex_addr t).
Definition set_exit_status (v : Z) (t : thread) : thread :=
  mk_thread (tid t) (sig_set t) (sig_pending t) (sigactions t) (signal_frames t) (current_signal t)
    (signal_interrupted t) (handling_signal t) (ss_sp t) (ss_size t) (cancel_state t) (cancel_type t)
    (cancel_requested t) (should_exit t) (exit_value t) v (join_futex_addr t).

Inductive procstate := UNUSED | USED | SLEEPING | RUNNABLE | RUNNING | ZOMBIE.
#[export] Instance procstate_eq_dec : EqDecision procstate.
Proof. solve_decision. Defined.

Record vma_area := mk_area { v_addr : Z; v_end : Z; v_perm : Z }.

Record proc := mk_proc {
  lock : bool; pid : Z; pgid : Z; euid : Z;
  ruid : Z; state : procstate; killed : Z; continued : Z;
  stopped : Z; stop_signal : Z; threads : gmap Z thread; thread_queue : list Z;
  current_thread : Z; vma : option (list vma_area); pagetable : Z; sig_trapframe : trapframe
}.
Definition set_lock (v : bool) (p : proc) : proc :=
  mk_proc v (pid p) (pgid p) (euid p) (ruid p) (state p) (killed p) (continued p) (stopped p)
    (stop_signal p) (threads p) (thread_queue p) (current_thread p) (vma p) (pagetable p)
    (sig_trapframe p).
Definition set_state (v : procstate) (p : proc) : proc :=
  mk_proc (lock p) (pid p) (pgid p) (euid p) (ruid p) v (killed p) (continued p) (stopped p)
    (stop_signal p) (threads p) (thread_queue p) (current_thread p) (vma p) (pagetable p)
    (sig_trapframe p).
Definition set_killed (v : Z) (p : proc) : proc :=
  mk_proc (lock p) (pid p) (pgid p) (euid p) (ruid p) (state p) v (continued p) (stopped p)
    (stop_signal p) (threads p) (thread_queue p) (current_thread p) (vma p) (pagetable p)
    (sig_trapframe p).
Definition set_continued (v : Z) (p : proc) : proc :=
  mk_proc (lock p) (pid p) (pgid p) (euid p) (ruid p) (state p) (killed p) v (stopped p) (stop_signal p)
    (threads p) (thread_queue p) (current_thread p) (vma p) (pagetable p) (sig_trapframe p).
Definition set_stopped (v : Z) (p : proc) : proc :=
  mk_proc (lock p) (pid p) (pgid p) (euid p) (ruid p) (state p) (killed p) (continued p) v (stop_signal p)
    (threads p) (thread_queue p) (current_thread p) (vma p) (pagetable p) (sig_trapframe p).
Definition set_stop_signal (v : Z) (p : proc) : proc :=
  mk_proc (lock p) (pid p) (pgid p) (euid p) (ruid p) (state p) (killed p) (continued p) (stopped p) v
    (threads p) (thread_queue p) (current_thread p) (vma p) (pagetable p) (sig_trapframe p).
Definition set_threads (v : gmap Z thread) (p : proc) : proc :=
  mk_proc (lock p) (pid p) (pgid p) (euid p) (ruid p) (state p) (killed p) (continued p) (stopped p)
    (stop_signal p) v (thread_queue p) (current_thread p) (vma p) (pagetable p) (sig_trapframe p).
Definition set_sig_trapframe (v : trapframe) (p : proc) : proc :=
  mk_proc (lock p) (pid p) (pgid p) (euid p) (ruid p) (state p) (killed p) (continued p) (stopped p)
    (stop_signal p) (threads p) (thread_queue p) (current_thread p) (vma p) (pagetable p) v.

(** [p->current_thread->...]. *)
Definition cur (p : proc) : res thread := of_opt (threads p !! current_thread p).
Definition put (t : thread) (p : proc) : proc :=
  set_threads (<[current_thread p := t]> (threads p)) p.
Definition action (sig : Z) (t : thread) : res sigaction :=
  if sig <? 0 then Undef else of_opt (sigactions t !! Z.to_nat sig).

(** [1ul << (sig - 1)]. *)
Definition sig_bit (sig : Z) : Z := Z.shiftl 1 (sig - 1).
(** [t->sig_pending.__val[0] &= ~(1ul << (sig - 1))]. *)
Definition clear_pending (sig : Z) (t : thread) : thread :=
  set_sig_pending (Z.land (sig_pending t) (Z.lnot (sig_bit sig))) t.

(** ** Dispositions and masks *)

Fixpoint set_actions (signum : Z) (act : option sigaction) (q : list Z) (old : option sigaction)
    (ths : gmap Z thread) : res (option sigaction * gmap Z thread) :=
  match q with
  | [] => Ok (old, ths)
  | e :: q =>
      let* t := of_opt (ths !! e) in
      let* a := action signum t in
      let ths := match act with
                 | Some n => <[e := set_sigactions (<[Z.to_nat signum := n]> (sigactions t)) t]> ths
                 | None => ths
                 end in
      set_actions signum act q (Some a) ths
  end.

(** [oldact]: whether the caller passes a place for the old action; what is
    stored there is the third component. *)
Definition set_sigaction (signum : Z) (act : option sigaction) (oldact : bool) (p : proc)
    : res (Z * proc * option sigaction) :=
  if current_thread p =? 0 then Ok (-1, p, None)
  else if (signum <=? 0) || (SIGRTMAX <? signum) then Ok (-1, p, None)
  else if (signum =? SIGKILL) || (signum =? SIGSTOP) then Ok (-1, p, None)
  else
    let* (old, ths) := set_actions signum act (thread_queue p) None (threads p) in
    Ok (0, set_threads ths p, if oldact then old else None).

(** The special rules at the end: the comment says that SIGKILL and SIGSTOP
    cannot be blocked. *)
Definition special_rules (m : Z) : Z :=
  Z.land (Z.lor m (Z.lor (sig_bit SIGKILL) (sig_bit SIGSTOP))) (Z.lnot (Z.shiftl 1 SIGTERM)).

(** [set] is what the pointer points to; the old mask is stored when [oldset]. *)
Definition sigprocmask (how set : Z) (oldset : bool) (p : proc) : res (Z * proc * option Z) :=
  if current_thread p =? 0 then Ok (-1, p, None)
  else
    let* t := cur p in
    let old := if oldset then Some (sig_set t) else None in
    let m := if how =? SIG_BLOCK then Some (Z.lor (sig_set t) set)
             else if how =? SIG_UNBLOCK then Some (Z.land (sig_set t) (Z.lnot set))
             else if how =? SIG_SETMASK then Some set
             else None in
    match m with
    | Some m => Ok (0, put (set_sig_set (special_rules m) t) p, old)
    | None => Ok (-1, p, old)
    end.

(** ** Choosing and handling a signal *)

(** [for (sig = 1; sig <= 64 && sig <= SIGRTMAX; sig++)]: [pending] is the
    local variable of that name. *)
Fixpoint pending_loop (n : nat) (sig pending : Z) (t : thread) : res (Z * thread) :=
  match n with
  | O => Ok (0, t)
  | S n =>
      if truthy (Z.land pending (sig_bit sig)) then
        let* a := action sig t in
        if sa_handler a =? SIG_IGN then
          let t := clear_pending sig t in
          let pending := Z.land (sig_pending t) (Z.lnot (sig_set t)) in
          if pending =? 0 then Ok (0, t) else pending_loop n (sig + 1) pending t
        else Ok (sig, t)
      else pending_loop n (sig + 1) pending t
  end.

Definition check_pending_signals (p : proc) : res (Z * proc) :=
  if current_thread p =? 0 then Ok (0, p)
  else
    let* t := cur p in
    if decide (state p = ZOMBIE) then Ok (0, p)
    else
      let pending := Z.land (sig_pending t) (Z.lnot (sig_set t)) in
      if pending =? 0 then Ok (0, p)
      else
        let* (sig, t) := pending_loop 64 1 pending t in
        Ok (sig, put t p).

Definition send_test_signal (sig : Z) (p : proc) : res (Z * proc) :=
  if current_thread p =? 0 then Ok (-1, p)
  else
    let* t := cur p in
    Ok (0, put (set_sig_pending (Z.lor (sig_pending t) (u64 (sig_bit sig))) t) p).

Definition handle_signal (sig : Z) (p : proc) (fq : FutexDefs.futex) : res (Z * proc * FutexDefs.futex) :=
  if current_thread p =? 0 then Ok (-1, p, fq)
  else
    let* t := cur p in
    if decide (state p = ZOMBIE) then Ok (0, put (clear_pending sig t) p, fq)
    else if (sig <=? 0) || (SIGRTMAX <? sig) then Ok (-1, p, fq)
    else if (sig =? SIGCANCEL) || (sig =? SIGCANCEL + 1) then
      if cancel_state t =? PTHREAD_CANCEL_ENABLE then
        let t := set_cancel_requested 1 t in
        let* (_, fq) := (if join_futex_addr t =? 0 then Ok (0, fq)
                         else FutexDefs.futex_wake (join_futex_addr t) INT_MAX fq) in
        let t := set_exit_value PTHREAD_CANCELED (set_should_exit 1 t) in
        Ok (0, put (clear_pending sig t) p, fq)
      else Ok (0, put (clear_pending sig t) p, fq)
    else
      let* a := action sig t in
      if sa_handler a =? SIG_IGN then Ok (0, put (clear_pending sig t) p, fq)
      else if sa_handler a =? SIG_DFL then
        let p' := put (clear_pending sig t) p in
        if sig =? SIGSTOP then Ok (0, set_stop_signal sig (set_stopped 1 p'), fq)
        else if sig =? SIGCONT then
          if truthy (stopped p) then Ok (0, set_continued 1 (set_stop_signal 0 (set_stopped 0 p')), fq)
          else Ok (0, p', fq)
        else if sig =? SIGCHLD then Ok (0, p', fq)
        else Ok (0, set_killed sig p', fq)
      else Ok (0, put (clear_pending sig t) p, fq).

(** ** Thread cancellation *)

Definition thread_set_cancel_state (t : option thread) (st : Z) : Z * option thread :=
  match t with
  | None => (-1, None)
  | Some t => (cancel_state t, Some (set_cancel_state st t))
  end.

Definition thread_set_cancel_type (t : option thread) (ty : Z) : Z * option thread :=
  match t with
  | None => (-1, None)
  | Some t => (cancel_type t, Some (set_cancel_type ty t))
  end.

Definition thread_should_cancel (t : thread) : bool :=
  (cancel_state t =? PTHREAD_CANCEL_ENABLE) && truthy (cancel_requested t).

Definition thread_check_cancellation (t : thread) : bool * thread :=
  if thread_should_cancel t
  then (true, set_exit_status PTHREAD_CANCELED (set_exit_value PTHREAD_CANCELED (set_should_exit 1 t)))
  else (false, t).

(** ** The user stack *)

Fixpoint in_areas (addr : Z) (l : list vma_area) : bool :=
  match l with
  | [] => true
  | v :: l => if (v_addr v <=? addr) && (addr <? v_end v) then has (v_perm v) PTE_W else in_areas addr l
  end.

Definition is_valid_user_stack_addr (addr : Z) (p : proc) : res bool :=
  let* l := of_opt (vma p) in Ok (in_areas addr l).

(** The little-endian bytes of a field. *)
Fixpoint le_bytes (n : nat) (v : Z) : list Z :=
  match n with
  | O => []
  | S n => v mod 256 :: le_bytes n (v / 256)
  end.

Fixpoint store_bytes (p : Z) (bs : list Z) (m : gmap Z Z) : gmap Z Z :=
  match bs with
  | [] => m
  | b :: bs => store_bytes (p + 1) bs (<[p := b]> m)
  end.

(** The assignments of the fields of a structure at [p]: offset, size, value. *)
Definition store_fields (p : Z) (fs : list (Z * nat * Z)) (m : gmap Z Z) : gmap Z Z :=
  foldl (λ m '(off, n, v), store_bytes (p + off) (le_bytes n v) m) m fs.

Definition siginfo_fields (sig pid : Z) : list (Z * nat * Z) :=
  [(0, 4%nat, sig); (4, 4%nat, 0); (8, 4%nat, 0); (16, 4%nat, pid); (20, 4%nat, 0);
   (24, 4%nat, 0); (32, 8%nat, 0); (48, 4%nat, 0)].

Definition ucontext_fields (ss_sp mask : Z) : list (Z * nat * Z) :=
  [(0, 8%nat, 0); (8, 8%nat, 0); (16, 8%nat, ss_sp); (32, 8%nat, PGSIZE); (24, 4%nat, 0);
   (40, 8%nat, mask); (168, 8%nat, 0)].

Definition align16 (a : Z) : Z := Z.land a (Z.lnot 15).

(** ** Sending signals (kernel/process.c, kernel/syscall.c) *)

Definition p_acquire (p : proc) : res proc :=
  if lock p then Panic "double acquire" else Ok (set_lock true p).
Definition p_release (p : proc) : res proc :=
  if lock p then Ok (set_lock false p) else Panic "release".

(** [current->euid != 0 && current->euid != p->euid && current->euid != p->ruid]. *)
Definition may_not_signal (me : Z) (p : proc) : bool :=
  negb (me =? 0) && negb (me =? euid p) && negb (me =? ruid p).

(** [kill] on the process it has found: from the pending bit to the wake-up. *)
Definition send_signal (sig : Z) (p : proc) : res proc :=
  let* p := (if (0 <? sig) && (sig <=? 64) && negb (current_thread p =? 0)
             then let* t := cur p in Ok (put (set_sig_pending (Z.lor (sig_pending t) (sig_bit sig)) t) p)
             else Ok p) in
  let* p := (if (sig =? SIGCONT) && (killed p =? SIGSTOP) then Ok (set_continued 1 (set_killed 0 p))
             else
               let* t := cur p in
               let* a := action sig t in
               if (sa_handler a =? 0) && ((sig <? SIGRTMIN) || (SIGRTMAX <? sig))
                  && ((killed p =? 0) || (sig <? killed p))
               then Ok (set_killed sig p) else Ok p) in
  Ok (if decide (state p = SLEEPING) then set_state RUNNABLE p else p).

(** [for (p = pool; p < &pool[NPROC]; p++)] of [kill]; [me] is the effective
    user of the caller. *)
Fixpoint kill (me target sig : Z) (l : list proc) : res (Z * list proc) :=
  match l with
  | [] => Ok (- ESRCH, [])
  | p :: l =>
      let* p := p_acquire p in
      if pid p =? target then
        if may_not_signal me p then let* p := p_release p in Ok (- EPERM, p :: l)
        else
          let* p := send_signal sig p in
          let* p := p_release p in
          Ok (0, p :: l)
      else
        let* p := p_release p in
        let* (r, l) := kill me target sig l in
        Ok (r, p :: l)
  end.

(** The loop over [p->thread_queue] of [tgkill]: the thread with that id. *)
Fixpoint find_tid (tid_ : Z) (q : list Z) (ths : gmap Z thread) : res (option Z) :=
  match q with
  | [] => Ok None
  | e :: q =>
      let* t := of_opt (ths !! e) in
      if tid t =? tid_ then Ok (Some e) else find_tid tid_ q ths
  end.

Definition send_thread (e sig : Z) (p : proc) (fq : FutexDefs.futex) : res (proc * FutexDefs.futex) :=
  let* (p, fq) :=
    (if (0 <? sig) && (sig <=? 64) then
       let* t := of_opt (threads p !! e) in
       let p := set_threads (<[e := set_sig_pending (Z.lor (sig_pending t) (sig_bit sig)) t]> (threads p)) p in
       if sig =? SIGCANCEL then
         let* u := of_opt (FutexDefs.threads fq !! e) in
         if decide (FutexDefs.state u = FutexDefs.t_SLEEPING) then
           let u := FutexDefs.mk_thread FutexDefs.t_RUNNABLE (FutexDefs.awakeTime u)
                      (FutexDefs.timeout_occurred u) (FutexDefs.p_lock u) (FutexDefs.p_runnable u) in
           Ok (p, FutexDefs.mk_futex (FutexDefs.queue fq) (FutexDefs.fq_lock fq)
                    (FutexDefs.waiting_count fq) (<[e := u]> (FutexDefs.threads fq)))
         else Ok (p, fq)
       else Ok (p, fq)
     else Ok (p, fq)) in
  let* p := (if (sig =? SIGCONT) && (killed p =? SIGSTOP) then Ok (set_continued 1 (set_killed 0 p))
             else
               let* t := cur p in
               let* a := action sig t in
               if (sa_handler a =? 0) && ((killed p =? 0) || (sig <? killed p))
               then Ok (set_killed sig p) else Ok p) in
  Ok (if decide (state p = SLEEPING) then set_state RUNNABLE p else p, fq).

Fixpoint tgkill (me tgid tid_ sig : Z) (l : list proc) (fq : FutexDefs.futex)
    : res (Z * list proc * FutexDefs.futex) :=
  match l with
  | [] => Ok (- ESRCH, [], fq)
  | p :: l =>
      let* p := p_acquire p in
      let* e := (if pid p =? tgid then find_tid tid_ (thread_queue p) (threads p) else Ok None) in
      match e with
      | Some e =>
          if may_not_signal me p then let* p := p_release p in Ok (- EPERM, p :: l, fq)
          else
            let* (p, fq) := send_thread e sig p fq in
            let* p := p_release p in
            Ok (0, p :: l, fq)
      | None =>
          let* p := p_release p in
          let* (r, l, fq) := tgkill me tgid tid_ sig l fq in
          Ok (r, p :: l, fq)
      end
  end.

(** The two loops of [sys_kill] over a process group, from slot [i] on. *)
Fixpoint kill_group (n i : nat) (me group sig : Z) (l : list proc) : res (list proc) :=
  match n with
  | O => Ok l
  | S n =>
      let* p := of_opt (l !! i) in
      let* p := p_acquire p in
      let* p := p_release p in
      let* l := (if (pgid p =? group) && negb (bool_decide (state p = UNUSED))
                 then let* (_, l) := kill me (pid p) sig l in Ok l
                 else Ok l) in
      kill_group n (S i) me group sig l
  end.

(** [my_pgid] is [myproc()->pgid]. *)
Definition sys_kill (me my_pgid target sig : Z) (l : list proc) : res (Z * list proc) :=
  if (sig <? 0) || (SIGRTMAX <=? sig) then Ok (- EINVAL, l)
  else if 0 <? target then kill me target sig l
  else if target <? -1 then
    if target <=? - INT_MAX - 1 then Ok (- ESRCH, l)
    else let* l := kill_group (length l) 0 me (- target) sig l in Ok (0, l)
  else if target =? 0 then let* l := kill_group (length l) 0 me my_pgid sig l in Ok (0, l)
  else Panic "not implement".

Section machine.
Context {St : Type} `{PageAllocator St} (stk : Z).

Definition kalloc (m : vm St) : res (Z * vm St) :=
  let* (a, st) := pa_alloc (al m) in
  if a =? 0 then Panic "kmalloc failed" else Ok (a, with_al m st).
Definition kmalloc (size : Z) (m : vm St) : res (Z * vm St) := kalloc m.
Definition kfree (a : Z) (m : vm St) : res (vm St) :=
  let* st := pa_free a (al m) in Ok (with_al m st).

(** The machine as a signal call sees it. *)
Record sys := mk_sys { pr : proc; tf : trapframe; mem : vm St; fq : FutexDefs.futex }.

Definition with_pr (p : proc) (x : sys) : sys := mk_sys p (tf x) (mem x) (fq x).
Definition with_tf (f : trapframe) (x : sys) : sys := mk_sys (pr x) f (mem x) (fq x).
Definition with_mem (m : vm St) (x : sys) : sys := mk_sys (pr x) (tf x) m (fq x).

(** [safe_write_user_stack] of the structure of [size] bytes at the kernel
    address [data] whose fields [fs] have been assigned. *)
Definition safe_write_user_stack (addr data size : Z) (fs : list (Z * nat * Z)) (x : sys) : res (Z * sys) :=
  let m := with_dm (mem x) (store_fields data fs (dm (mem x))) in
  let* ok := is_valid_user_stack_addr addr (pr x) in
  if negb ok then Ok (-1, with_mem m x)
  else
    let* (r, m) := copyout (pagetable (pr x)) addr data size m in
    if r <? 0 then Ok (-1, with_mem m x) else Ok (0, with_mem m x).

(** What a signal call does: it returns, or ends in [thread_exit]. *)
Inductive outcome := Returns (r : Z) | Thread_exit (v : Z).

(** The saving of the interrupted context: the pointers [new_frame] and
    [new_frame->tf]. *)
Definition save_frame (sig : Z) (x : sys) : res (Z * Z * sys) :=
  let* t := cur (pr x) in
  let* (new_frame, m) := kalloc (mem x) in
  if new_frame =? 0 then Ok (0, 0, with_mem m (with_pr (set_sig_trapframe (copytrapframe (tf x) (tf x)) (pr x)) x))
  else
    let* (ftf, m) := kmalloc sizeof_trapframe m in
    if ftf =? 0 then
      let* m := kfree new_frame m in
      Ok (new_frame, 0, with_mem m (with_pr (set_sig_trapframe (copytrapframe (tf x) (tf x)) (pr x)) x))
    else
      let fr := mk_frame new_frame sig (r_ra (tf x)) (sig_set t) ftf (copytrapframe (tf x) (tf x)) in
      Ok (new_frame, ftf, with_mem m (with_pr (put (set_signal_frames (fr :: signal_frames t) t) (pr x)) x)).

(** The stack pointer for the handler: the interrupted one less [need], or the
    alternate stack when that is not writable. *)
Definition choose_sp (sp need : Z) (x : sys) : res (option Z) :=
  let* t := cur (pr x) in
  let* ok := is_valid_user_stack_addr sp (pr x) in
  if ok then Ok (Some sp)
  else if truthy (ss_sp t) && (need <=? ss_size t)
  then Ok (Some (align16 (u64 (ss_sp t + ss_size t - need))))
  else Ok None.

(** The branch [if (t->sigaction[sig].sa_flags)]: [None] is an early
    [return 0]. *)
Definition siginfo_args (sig : Z) (x : sys) : res (bool * sys) :=
  let need := sizeof_siginfo + sizeof_ucontext in
  let* t := cur (pr x) in
  let* sp := choose_sp (u64 (r_sp (tf x) - need)) need x in
  match sp with
  | None => Ok (false, with_pr (set_killed SIGSEGV (pr x)) x)
  | Some sp =>
      let* (r, x) := safe_write_user_stack sp stk sizeof_siginfo (siginfo_fields sig (pid (pr x))) x in
      if r <? 0 then Ok (false, x)
      else
        let* (r, x) := safe_write_user_stack (u64 (sp + sizeof_siginfo)) (stk + sizeof_siginfo) sizeof_ucontext
                         (ucontext_fields (r_sp (tf x)) (sig_set t)) x in
        if r <? 0 then Ok (false, x)
        else Ok (true, with_tf (set_sp sp (set_a2 (u64 (sp + sizeof_siginfo)) (set_a1 sp (tf x)))) x)
  end.

(** The branch of a handler without flags. *)
Definition plain_args (x : sys) : res (bool * sys) :=
  let* sp := choose_sp (align16 (u64 (r_sp (tf x) - 128))) 128 x in
  match sp with
  | None => Ok (false, with_pr (set_killed SIGSEGV (pr x)) x)
  | Some sp => Ok (true, with_tf (set_sp sp (set_a2 0 (set_a1 0 (tf x)))) x)
  end.

(** From the check of the handler's address to the end. *)
Definition enter_handler (sig : Z) (a : sigaction) (frame : Z * Z) (x : sys) : res (outcome * sys) :=
  if (sa_handler a =? 0) || (sa_handler a <? 0x1000) then Ok (Returns 0, x)
  else
    let* t := cur (pr x) in
    let f := set_ra SIGTRAMPOLINE (set_epc (sa_handler a) (tf x)) in
    let f := if has (sa_flags a) SA_ONSTACK && truthy (ss_sp t)
             then set_sp (u64 (ss_sp t + ss_size t)) f else f in
    let t := if has (sa_flags a) SA_NODEFER then t
             else set_sig_set (Z.lor (sig_set t) (sig_bit sig)) t in
    let t := set_handling_signal sig (set_signal_interrupted 1 (set_current_signal sig t)) in
    let x := with_tf f (with_pr (put t (pr x)) x) in
    if truthy (should_exit t) then
      let* m := (if fst frame =? 0 then Ok (mem x)
                 else let* m := kfree (snd frame) (mem x) in kfree (fst frame) m) in
      Ok (Thread_exit (exit_value t), with_mem m x)
    else Ok (Returns 1, x).

Definition check_and_handle_signals (x : sys) : res (outcome * sys) :=
  if current_thread (pr x) =? 0 then Ok (Returns 0, x)
  else
    let* t := cur (pr x) in
    if decide (state (pr x) = ZOMBIE) then Ok (Returns 0, x)
    else
      let (cancelled, t) := thread_check_cancellation t in
      let x := with_pr (put t (pr x)) x in
      if cancelled then Ok (Thread_exit PTHREAD_CANCELED, x)
      else if truthy (should_exit t) then Ok (Thread_exit (exit_value t), x)
      else
        let* (sig, p) := check_pending_signals (pr x) in
        let x := with_pr p x in
        if sig =? 0 then Ok (Returns 0, x)
        else
          let* (r, p, q) := handle_signal sig (pr x) (fq x) in
          let x := mk_sys p (tf x) (mem x) q in
          if negb (r =? 0) then Ok (Returns 0, x)
          else
            let* t := cur (pr x) in
            let* a := action sig t in
            if sa_handler a =? 0 then Ok (Returns 0, x)
            else if decide (state (pr x) = ZOMBIE)
            then Ok (Returns 0, with_pr (put (clear_pending sig t) (pr x)) x)
            else
              let* (fp, ftf, x) := save_frame sig x in
              let x := with_tf (set_a0 sig (tf x)) x in
              let* (go, x) := (if truthy (sa_flags a) then siginfo_args sig x else plain_args x) in
              if go then enter_handler sig a (fp, ftf) x else Ok (Returns 0, x).

(** [setup_signal_frame], which the kernel does not call. *)
Definition setup_signal_frame (sig : Z) (x : sys) : res (Z * sys) :=
  if current_thread (pr x) =? 0 then Ok (-1, x)
  else if decide (state (pr x) = ZOMBIE) then Ok (-1, x)
  else
    let* t := cur (pr x) in
    let* (new_frame, m) := kmalloc 40 (mem x) in
    if new_frame =? 0 then Ok (-1, with_mem m x)
    else
      let* (ftf, m) := kmalloc sizeof_trapframe m in
      if ftf =? 0 then let* m := kfree new_frame m in Ok (-1, with_mem m x)
      else
        let fr := mk_frame new_frame sig (r_ra (tf x)) (sig_set t) ftf (copytrapframe (tf x) (tf x)) in
        Ok (0, with_mem m (with_pr (put (set_signal_frames (fr :: signal_frames t) t) (pr x)) x)).

Definition restore_signal_context (x : sys) : res (outcome * sys) :=
  if current_thread (pr x) =? 0 then Ok (Returns (-1), x)
  else
    let* t := cur (pr x) in
    if decide (state (pr x) = ZOMBIE) then Ok (Returns (-1), x)
    else
      match signal_frames t with
      | [] => Ok (Returns (-1), x)
      | frame :: rest =>
          let t := set_signal_frames rest t in
          let x := with_pr (put t (pr x)) x in
          if tf_page frame =? 0 then
            let* m := kfree (f_page frame) (mem x) in Ok (Returns (-1), with_mem m x)
          else
            let x := with_tf (copytrapframe (tf x) (tf_copy frame)) x in
            let t := set_sig_set (signal_mask frame) t in
            let t' := set_handling_signal (-1) (set_signal_interrupted 0 (set_current_signal 0 t)) in
            let* m := kfree (tf_page frame) (mem x) in
            let* m := kfree (f_page frame) m in
            if truthy (should_exit t)
            then Ok (Thread_exit (exit_value t), with_mem m (with_pr (put t (pr x)) x))
            else Ok (Returns 0, with_mem m (with_pr (put t' (pr x)) x))
      end.

Definition sys_sigreturn (x : sys) : res (outcome * sys) :=
  if current_thread (pr x) =? 0 then Ok (Returns (-1), x)
  else
    let* t := cur (pr x) in
    match signal_frames t with
    | [] => Ok (Returns (-1), x)
    | _ =>
        let* (o, x) := restore_signal_context x in
        match o with
        | Returns r =>
            if r <? 0 then Ok (Returns (-1), x)
            else
              let* t := cur (pr x) in
              Ok (Returns 0, with_pr (put (set_current_signal 0 (set_handling_signal (-1) t)) (pr x)) x)
        | _ => Ok (o, x)
        end
    end.

(** [syscall] with [a7 = SYS_sigreturn]. *)
Definition syscall_sigreturn (x : sys) : res (outcome * sys) :=
  let* (o, x) := sys_sigreturn x in
  match o with
  | Returns r => Ok (o, with_tf (set_a0 (u64 r) (tf x)) x)
  | _ => Ok (o, x)
  end.

End machine.
Arguments sys St : clear implicits.

End SignalDefs.
