(* ===== verification/Signal.v ===== *)
(** * Signals: lemmas

    The search for a deliverable signal ([pending_loop_spec]), the effect of
    handling one ([handle_signal_inv]), the memory the signal code owns
    ([mem_ok], [frames_ok]) and what entering and leaving a handler do to it. *)

From S2P Require Import Prelude Pmem CStringDefs CString VMemDefs VMem VMemCopy VMemSpec FutexDefs SignalDefs.
Import Pmem VMemDefs VMem VMemCopy SignalDefs.

Module Signal.

Lemma copytrapframe_eq f g : copytrapframe f g = g.
Proof. by destruct g. Qed.

(** ** Bits of signal sets *)

Lemma sig_bit_testbit sig i : 1 ≤ sig → 0 ≤ i → Z.testbit (sig_bit sig) i = bool_decide (i = sig - 1).
Proof.
  intros Hs Hi. unfold sig_bit. rewrite Z.shiftl_spec by done. case_bool_decide as E.
  - subst i. by rewrite Z.sub_diag.
  - destruct (decide (i < sig - 1)); [by rewrite Z.testbit_neg_r by lia|].
    rewrite <-(Z.pow_0_r 2). apply Z.pow2_bits_false. lia.
Qed.

Lemma truthy_sig_bit w sig : 1 ≤ sig → truthy (Z.land w (sig_bit sig)) = Z.testbit w (sig - 1).
Proof.
  intros Hs. unfold truthy. destruct (Z.eqb_spec (Z.land w (sig_bit sig)) 0) as [E|E]; cbn.
  - apply (f_equal (λ z, Z.testbit z (sig - 1))) in E.
    rewrite Z.land_spec, Z.bits_0, sig_bit_testbit, bool_decide_true, andb_true_r in E by lia. done.
  - destruct (Z.testbit w (sig - 1)) eqn:Hb; [done|]. destruct E. apply Z.bits_inj'. intros i Hi.
    rewrite Z.land_spec, Z.bits_0, sig_bit_testbit by lia. case_bool_decide; subst; by rewrite ?Hb, ?andb_false_r.
Qed.

(** Signal [s] is pending and not blocked; it is ignored. *)
Definition unblocked (t : thread) (s : Z) : bool :=
  Z.testbit (sig_pending t) (s - 1) && negb (Z.testbit (sig_set t) (s - 1)).
Definition ignored (t : thread) (s : Z) : bool :=
  match sigactions t !! Z.to_nat s with Some a => sa_handler a =? SIG_IGN | None => false end.

(** [t'] is [t] without the pending bits of the ignored unblocked signals of
    [lo .. hi-1]. *)
Definition discarded (t t' : thread) (lo hi : Z) : Prop :=
  t' = set_sig_pending (sig_pending t') t ∧ 0 ≤ sig_pending t' ∧
  ∀ s, 1 ≤ s → Z.testbit (sig_pending t') (s - 1) =
    Z.testbit (sig_pending t) (s - 1) && negb (bool_decide (lo ≤ s < hi) && unblocked t s && ignored t s).

(** The pending signals, the mask and the actions are those of a C thread. *)
Record thread_ok (t : thread) : Prop := {
  to_actions : length (sigactions t) = 65%nat;
  to_pending : 0 ≤ sig_pending t < 2 ^ 64;
  to_mask : 0 ≤ sig_set t < 2 ^ 64;
  to_frames : Forall (λ f, 0 ≤ signal_mask f < 2 ^ 64) (signal_frames t)
}.

Lemma action_ok t s : length (sigactions t) = 65%nat → 0 ≤ s ≤ 64 → ∃ a, action s t = Ok a ∧ sigactions t !! Z.to_nat s = Some a.
Proof.
  intros Hl Hs. unfold action. rewrite (proj2 (Z.ltb_ge _ _)) by lia.
  destruct (lookup_lt_is_Some_2 (sigactions t) (Z.to_nat s)) as [a Ha]; [lia|]. exists a. by rewrite Ha.
Qed.

Lemma clear_pending_bit sig t i :
  1 ≤ sig → 0 ≤ i →
  Z.testbit (sig_pending (clear_pending sig t)) i = Z.testbit (sig_pending t) i && negb (bool_decide (i = sig - 1)).
Proof. intros Hs Hi. cbn. rewrite Z.land_spec, Z.lnot_spec, sig_bit_testbit by lia. done. Qed.

Lemma no_bits_zero w : 0 ≤ w < 2 ^ 64 → (∀ s, 1 ≤ s ≤ 64 → Z.testbit w (s - 1) = false) → w = 0.
Proof.
  intros Hw Hb. apply Z.bits_inj'. intros i Hi. rewrite Z.bits_0.
  destruct (decide (i < 64)); [rewrite <-(Hb (i + 1)) by lia; f_equal; lia|].
  destruct (decide (w = 0)) as [->|]; [apply Z.bits_0|].
  apply Z.bits_above_log2; [lia|]. apply Z.log2_lt_pow2; [lia|]. apply Z.lt_le_trans with (2 ^ 64); [lia|].
  apply Z.pow_le_mono_r; lia.
Qed.

Lemma land_lnot_bit w m i : 0 ≤ i → Z.testbit (Z.land w (Z.lnot m)) i = Z.testbit w i && negb (Z.testbit m i).
Proof. intros. by rewrite Z.land_spec, Z.lnot_spec. Qed.

Lemma land_range w m : 0 ≤ w < 2 ^ 64 → 0 ≤ Z.land w m < 2 ^ 64.
Proof.
  intros Hw. split; [apply Z.land_nonneg; lia|]. destruct (decide (Z.land w m = 0)) as [->|Hne]; [lia|].
  assert (0 < Z.land w m) by (pose proof (proj2 (Z.land_nonneg w m) (or_introl (proj1 Hw))); lia).
  apply Z.log2_lt_cancel. change (Z.log2 (2 ^ 64)) with 64.
  assert (Hpos : 0 < w) by (destruct (decide (w = 0)) as [->|]; [by rewrite Z.land_0_l in Hne|lia]).
  assert (Hlog : Z.log2 w < 64) by (apply Z.log2_lt_pow2; lia).
  destruct (decide (Z.log2 (Z.land w m) < 64)); [done|]. pose proof (Z.bit_log2 (Z.land w m) ltac:(lia)) as Hb.
  rewrite Z.land_spec, (Z.bits_above_log2 w) in Hb by lia. done.
Qed.

Lemma clear_pending_ok sig t : thread_ok t → thread_ok (clear_pending sig t).
Proof. intros [H1 H2 H3 H4]. split; cbn; [done|by apply land_range|done|done]. Qed.

Lemma unblocked_clear sig t s : 1 ≤ sig → 1 ≤ s → s ≠ sig → unblocked (clear_pending sig t) s = unblocked t s.
Proof. intros Hsig Hs Hne. unfold unblocked. rewrite clear_pending_bit, bool_decide_false by lia. cbn. by rewrite andb_true_r. Qed.

Lemma discarded_refl t lo hi :
  0 ≤ sig_pending t → (∀ s, lo ≤ s < hi → 1 ≤ s → unblocked t s && ignored t s = false) → discarded t t lo hi.
Proof.
  intros Hp Hno. split; [by destruct t|]. split; [done|]. intros s Hs. case_bool_decide as E; cbn; [|by rewrite andb_true_r].
  by rewrite (Hno s E Hs), andb_true_r.
Qed.

Lemma discarded_skip t t' sig hi :
  unblocked t sig && ignored t sig = false → discarded t t' (sig + 1) hi → discarded t t' sig hi.
Proof.
  intros Hno (He & Hp & Hb). split; [done|]. split; [done|]. intros s Hs. rewrite Hb by done. f_equal. f_equal.
  destruct (decide (s = sig)) as [->|]; [by rewrite <-!andb_assoc, Hno, !andb_false_r|].
  by rewrite (bool_decide_ext (sig ≤ s < hi) (sig + 1 ≤ s < hi)) by lia.
Qed.

Lemma discarded_step t t' sig hi :
  1 ≤ sig < hi → unblocked t sig = true → ignored t sig = true →
  discarded (clear_pending sig t) t' (sig + 1) hi → discarded t t' sig hi.
Proof.
  intros Hsig Hu Hi (He & Hp & Hb). split; [by rewrite He|]. split; [done|]. intros s Hs.
  rewrite Hb, clear_pending_bit by lia. destruct (decide (s = sig)) as [->|].
  - rewrite (bool_decide_true (sig - 1 = sig - 1)), (bool_decide_true (sig ≤ sig < hi)), Hu, Hi by lia.
    cbn. by rewrite !andb_false_r.
  - rewrite (bool_decide_false (s - 1 = sig - 1)), unblocked_clear by lia. rewrite andb_true_r.
    by rewrite (bool_decide_ext (sig ≤ s < hi) (sig + 1 ≤ s < hi)) by lia.
Qed.

(** The result of the search: the least unblocked pending signal that is not
    ignored; the ignored ones met before it are dropped. *)
Definition first_signal (t : thread) (lo r : Z) (t' : thread) : Prop :=
  (r = 0 ∧ (∀ s, lo ≤ s ≤ 64 → unblocked t s = true → ignored t s = true) ∧ discarded t t' lo 65) ∨
  (lo ≤ r ≤ 64 ∧ unblocked t r = true ∧ ignored t r = false ∧
   (∀ s, lo ≤ s < r → unblocked t s = true → ignored t s = true) ∧ discarded t t' lo r).

Lemma first_signal_skip t lo r t' :
  1 ≤ lo → unblocked t lo = false → first_signal t (lo + 1) r t' → first_signal t lo r t'.
Proof.
  intros Hlo Hu [(-> & Hall & Hd)|(Hr & Hur & Hi & Hall & Hd)]; [left|right]; split_and!; try done; try lia.
  - intros s Hs. destruct (decide (s = lo)) as [->|]; [congruence|apply Hall; lia].
  - by apply discarded_skip; [rewrite Hu|].
  - intros s Hs. destruct (decide (s = lo)) as [->|]; [congruence|apply Hall; lia].
  - by apply discarded_skip; [rewrite Hu|].
Qed.

Lemma first_signal_step t lo r t' :
  1 ≤ lo ≤ 64 → unblocked t lo = true → ignored t lo = true →
  first_signal (clear_pending lo t) (lo + 1) r t' → first_signal t lo r t'.
Proof.
  intros Hlo Hu Hi Hf. assert (Hall' : ∀ hi, (∀ s, lo + 1 ≤ s < hi → unblocked (clear_pending lo t) s = true → ignored t s = true) →
    ∀ s, lo ≤ s < hi → unblocked t s = true → ignored t s = true).
  { intros hi Hall s Hs Hus. destruct (decide (s = lo)) as [->|]; [done|]. apply Hall; [lia|]. by rewrite unblocked_clear by lia. }
  destruct Hf as [(-> & Hall & Hd)|(Hr & Hur & Hir & Hall & Hd)]; [left|right].
  - split_and!; [done| |apply discarded_step; try done; lia].
    intros s Hs. apply (Hall' 65); [|lia]. intros s' Hs'. apply Hall. lia.
  - rewrite unblocked_clear in Hur by lia. split_and!; try done; try lia; [by apply Hall'|].
    apply discarded_step; try done. lia.
Qed.

Lemma pending_loop_spec n sig t :
  thread_ok t → 1 ≤ sig → sig + Z.of_nat n = 65 →
  ∃ r t', pending_loop n sig (Z.land (sig_pending t) (Z.lnot (sig_set t))) t = Ok (r, t') ∧
    first_signal t sig r t' ∧ thread_ok t'.
Proof.
  revert sig t; induction n as [|n IH]; intros sig t Ht Hsig Hn; cbn [pending_loop].
  { exists 0, t. split_and!; try done. left. split_and!; [done|intros; lia|].
    apply discarded_refl; [apply Ht|intros; lia]. }
  rewrite truthy_sig_bit, land_lnot_bit by lia. change (_ && negb _) with (unblocked t sig).
  destruct (unblocked t sig) eqn:Hu.
  2: { destruct (IH (sig + 1) t Ht) as (r & t' & -> & Hf & Ht'); [lia|lia|]. exists r, t'. split_and!; try done.
       by apply first_signal_skip. }
  destruct (action_ok t sig (to_actions _ Ht)) as (a & -> & Ha); [lia|]. cbn [bind].
  assert (Hig : ignored t sig = (sa_handler a =? SIG_IGN)) by (unfold ignored; by rewrite Ha).
  destruct (sa_handler a =? SIG_IGN) eqn:Hi; rewrite Hi in Hig || idtac.
  2: { exists sig, t. split_and!; try done. right. split_and!; try done; try lia.
       apply discarded_refl; [apply Ht|intros; lia]. }
  set (t1 := clear_pending sig t). pose proof (clear_pending_ok sig t Ht) as Ht1. fold t1 in Ht1.
  change (sig_set t) with (sig_set t1).
  destruct (Z.eqb_spec (Z.land (sig_pending t1) (Z.lnot (sig_set t1))) 0) as [E|E].
  - exists 0, t1. split_and!; try done. apply first_signal_step; try done; [lia|]. fold t1.
    assert (Hno : ∀ s, 1 ≤ s → unblocked t1 s = false).
    { intros s Hs. unfold unblocked. by rewrite <-land_lnot_bit, E, Z.bits_0 by lia. }
    left. split_and!; [done|intros s Hs; rewrite Hno by lia; done|].
    apply discarded_refl; [apply Ht1|]. intros s _ Hs. by rewrite Hno.
  - destruct (IH (sig + 1) t1 Ht1) as (r & t' & -> & Hf & Ht'); [lia|lia|]. exists r, t'. split_and!; try done.
    by apply first_signal_step; [lia|..].
Qed.

(** [check_pending_signals] of a process that is not exiting. *)
Lemma check_pending_spec p t :
  current_thread p ≠ 0 → threads p !! current_thread p = Some t → state p ≠ ZOMBIE → thread_ok t →
  ∃ r t', check_pending_signals p = Ok (r, put t' p) ∧ first_signal t 1 r t' ∧ thread_ok t'.
Proof.
  intros Hc Hl Hz Ht. unfold check_pending_signals, cur. rewrite (proj2 (Z.eqb_neq _ _)) by done.
  rewrite Hl. cbn [of_opt bind]. rewrite decide_False by done.
  destruct (Z.eqb_spec (Z.land (sig_pending t) (Z.lnot (sig_set t))) 0) as [E|E].
  - exists 0, t. assert (put t p = p) as ->.
    { unfold put. rewrite insert_id by done. by destruct p. }
    assert (Hno : ∀ s, 1 ≤ s → unblocked t s = false).
    { intros s Hs. unfold unblocked. by rewrite <-land_lnot_bit, E, Z.bits_0 by lia. }
    split_and!; try done. left. split_and!; [done|intros s Hs; rewrite Hno by lia; done|].
    apply discarded_refl; [apply Ht|]. intros s _ Hs. by rewrite Hno.
  - destruct (pending_loop_spec 64 1 t Ht) as (r & t' & -> & Hf & Ht'); [lia|lia|]. cbn [bind]. by exists r, t'.
Qed.

(** ** Fields that a step keeps *)

(** The frames, the mask, the actions and the alternate stack are the same. *)
Record same_sig (t t' : thread) : Prop := {
  ss_frames : signal_frames t' = signal_frames t;
  ss_mask : sig_set t' = sig_set t;
  ss_actions : sigactions t' = sigactions t;
  ss_altsp : SignalDefs.ss_sp t' = SignalDefs.ss_sp t;
  ss_altsize : SignalDefs.ss_size t' = SignalDefs.ss_size t
}.

Record same_proc (p p' : proc) : Prop := {
  sp_state : state p' = state p;
  sp_cur : current_thread p' = current_thread p;
  sp_vma : vma p' = vma p;
  sp_pagetable : pagetable p' = pagetable p;
  sp_pid : pid p' = pid p
}.

#[export] Instance same_sig_preorder : PreOrder same_sig.
Proof. split; [by split|]. intros t u v [] []. split; congruence. Qed.
#[export] Instance same_proc_preorder : PreOrder same_proc.
Proof. split; [by split|]. intros p q r [] []. split; congruence. Qed.

Lemma put_lookup t p : threads (put t p) !! current_thread (put t p) = Some t.
Proof. apply lookup_insert_eq. Qed.

Lemma put_id t p : threads p !! current_thread p = Some t → put t p = p.
Proof. intros Hl. unfold put. rewrite insert_id by done. by destruct p. Qed.

Lemma put_put t u p : put t (put u p) = put t p.
Proof. unfold put. cbn. by rewrite insert_insert_eq. Qed.

Lemma first_signal_same t lo r t' : first_signal t lo r t' → same_sig t t'.
Proof. intros [(_ & _ & (-> & _))|(_ & _ & _ & _ & (-> & _))]; by split. Qed.

Lemma handle_signal_inv sig p q t z p' q' :
  threads p !! current_thread p = Some t → thread_ok t → handle_signal sig p q = Ok (z, p', q') →
  ∃ t', threads p' !! current_thread p' = Some t' ∧ same_sig t t' ∧ thread_ok t' ∧ same_proc p p'.
Proof.
  intros Hl Ht. unfold handle_signal, cur. rewrite Hl. cbn [of_opt bind].
  assert (Hsame : ∃ t', threads p !! current_thread p = Some t' ∧ same_sig t t' ∧ thread_ok t' ∧ same_proc p p)
    by (exists t; split_and!; done).
  assert (Hclear : ∀ u, same_sig t u → sig_pending u = sig_pending t → thread_ok (clear_pending sig u)).
  { intros u [Hf Hm Ha _ _] Hp. split; cbn; [rewrite Ha|rewrite Hp; apply land_range|rewrite Hm|rewrite Hf]; apply Ht. }
  intros Hop. repeat (case_match; inv_res; try done).
  all: try (eexists; split_and!; [apply lookup_insert_eq|by split|by apply Hclear|by split]).
Qed.

(** ** Memory the signal code uses *)

Lemma store_bytes_dom p bs m :
  (∀ a, p ≤ a < p + Z.of_nat (length bs) → is_Some (m !! a)) → dom (store_bytes p bs m) = dom m.
Proof.
  revert p m; induction bs as [|b bs IH]; intros p m Hl; cbn; [done|].
  assert (Hd : dom (<[p := b]> m) = dom m).
  { rewrite dom_insert_L. assert (p ∈ dom m) by (apply elem_of_dom, Hl; cbn; lia). set_solver. }
  rewrite IH; [done|]. intros a Ha. apply elem_of_dom. rewrite Hd. apply elem_of_dom, Hl. cbn. lia.
Qed.

Lemma length_le_bytes n v : length (le_bytes n v) = n.
Proof. revert v; induction n; intros v; cbn; [done|by f_equal]. Qed.

Lemma store_fields_dom p size fs m :
  (∀ a, p ≤ a < p + size → is_Some (m !! a)) →
  Forall (λ '(off, n, _), 0 ≤ off ∧ off + Z.of_nat n ≤ size) fs → dom (store_fields p fs m) = dom m.
Proof.
  unfold store_fields. revert m; induction fs as [|[[off n] v] fs IH]; intros m Hl Hf; cbn; [done|].
  apply Forall_cons in Hf as [Ho Hf].
  assert (Hd : dom (store_bytes (p + off) (le_bytes n v) m) = dom m).
  { apply store_bytes_dom. rewrite length_le_bytes. intros a Ha. apply Hl. lia. }
  rewrite IH; [done| |done]. intros a Ha. apply elem_of_dom. rewrite Hd. apply elem_of_dom, Hl, Ha.
Qed.

Section machine.
Context {St : Type} `{PageAllocator St} `{!PageAllocatorLaws St} (stk : Z).
Implicit Types (m : vm St) (x y : sys St).

Definition no_table m (root a : Z) : Prop := ∀ p, path p → table_at (pt m) root p ≠ Some a.

(** An address space with its user memory and the kernel stack present. *)
Record mem_ok m (root : Z) : Prop := {
  mo_space : space m root;
  mo_lock : vmem_lock m = false;
  mo_stack : CString.live (dm m) stk (sizeof_siginfo + sizeof_ucontext);
  mo_user : ∀ va, 0 ≤ va < MAXVA → upage (pt m) root va ≠ 0 → is_Some (dm m !! uaddr (pt m) root va)
}.

(** The pages of the saved frames are owned, distinct and no page tables. *)
Definition frame_pages (fs : list signal_frame) : list Z := flat_map (λ f, [f_page f; tf_page f]) fs.
Definition frames_ok m root (fs : list signal_frame) : Prop :=
  NoDup (frame_pages fs) ∧ ∀ a, a ∈ frame_pages fs → a ≠ 0 ∧ pa_owned (al m) a ∧ no_table m root a.

Lemma mem_ok_dm m root d : mem_ok m root → dom d = dom (dm m) → mem_ok (with_dm m d) root.
Proof.
  intros [Hs Hlk Hst Hu] Hd. assert (Hl : ∀ a, is_Some (dm m !! a) → is_Some (d !! a)).
  { intros a. rewrite <-!elem_of_dom, Hd. done. }
  split; cbn; [destruct Hs; by split|done| |].
  - intros a Ha. by apply Hl, Hst.
  - intros va Hva Hp. by apply Hl, Hu.
Qed.

Lemma kalloc_ok m root n :
  mem_ok m root → pa_avail (al m) (S n) →
  ∃ a st, kalloc m = Ok (a, with_al m st) ∧ mem_ok (with_al m st) root ∧ a ≠ 0 ∧ pa_avail st n ∧
    ¬ pa_owned (al m) a ∧ (∀ b, pa_owned st b ↔ b = a ∨ pa_owned (al m) b) ∧ no_table m root a.
Proof.
  intros [Hs Hlk Hst Hu] Hav. destruct (pa_alloc_ok (al m) n (sp_inv _ _ Hs) Hav) as (a & st & Hop & Hi & Hav' & Hr & _ & Hn & Ho).
  exists a, st. unfold kalloc. rewrite Hop. cbn [bind]. rewrite (proj2 (Z.eqb_neq _ _)) by lia.
  split_and!; try done; [|lia|].
  - split; try done. split; [done| |apply (sp_inj _ _ Hs)]. intros p b Hp Hb.
    destruct (sp_table _ _ Hs p b Hp Hb). split; [done|]. apply Ho. by right.
  - intros p Hp Hb. destruct (sp_table _ _ Hs p a Hp Hb). done.
Qed.

Lemma kfree_ok m root a :
  mem_ok m root → pa_owned (al m) a → no_table m root a →
  ∃ st, kfree a m = Ok (with_al m st) ∧ mem_ok (with_al m st) root ∧
    (∀ b, pa_owned st b ↔ pa_owned (al m) b ∧ b ≠ a).
Proof.
  intros [Hs Hlk Hst Hu] Ho Hn. destruct (pa_free_ok (al m) a (sp_inv _ _ Hs) Ho) as (st & Hop & Hi & H1 & H2 & H3).
  exists st. unfold kfree. rewrite Hop. split; [done|]. split; [split; try done; by apply (space_free m root a)|].
  intros b. split; [intros Hb; split; [by apply H1|by intros ->]|]. intros [Hb Hne]. by destruct (H2 b Hb).
Qed.

(** ** The user stack *)

Lemma safe_write_inv addr data size fs x r x' :
  mem_ok (mem x) (pagetable (pr x)) → 0 ≤ addr →
  stk ≤ data → data + size ≤ stk + (sizeof_siginfo + sizeof_ucontext) →
  Forall (λ '(off, n, _), 0 ≤ off ∧ off + Z.of_nat n ≤ size) fs →
  safe_write_user_stack addr data size fs x = Ok (r, x') →
  ∃ d, x' = with_mem (with_dm (mem x) d) x ∧ dom d = dom (dm (mem x)).
Proof.
  intros Hm Ha H1 H2 Hf Hop. unfold safe_write_user_stack in Hop.
  assert (Hd : dom (store_fields data fs (dm (mem x))) = dom (dm (mem x))).
  { apply (store_fields_dom data size); [|done]. intros a Hin. apply (mo_stack _ _ Hm). lia. }
  set (d := store_fields data fs (dm (mem x))) in *. inv_res. case_match.
  { injection Hop as <- <-. by exists d. }
  inv_res. destruct r1 as [r' m']. unfold copyout in Hr0. destruct (MAXVA <? addr); [done|].
  apply copyout_loop_inv in Hr0 as (d' & -> & Hd'); [|apply (mem_ok_dm _ _ d Hm Hd)|apply Hm|done].
  exists d'. rewrite Hd'. cbn. split; [|done]. case_match; by injection Hop as <- <-.
Qed.

(** Setting up the arguments of a handler changes user memory, the trap frame
    and, when it fails, [killed]. *)
Record args_inv x x' : Prop := {
  ai_mem : ∃ d, mem x' = with_dm (mem x) d ∧ dom d = dom (dm (mem x));
  ai_threads : threads (pr x') = threads (pr x);
  ai_proc : same_proc (pr x) (pr x')
}.

Lemma choose_sp_nonneg sp need x sp' : 0 ≤ sp → choose_sp sp need x = Ok (Some sp') → 0 ≤ sp'.
Proof.
  intros Hsp Hop. unfold choose_sp in Hop. inv_res. case_match; [by simplify_eq|].
  case_match; simplify_eq. apply Z.land_nonneg. left. apply u64_range.
Qed.

Lemma siginfo_args_inv sig x go x' :
  mem_ok (mem x) (pagetable (pr x)) → siginfo_args stk sig x = Ok (go, x') → args_inv x x'.
Proof.
  intros Hm Hop. unfold siginfo_args in Hop. inv_res. destruct r0 as [sp|].
  2: { injection Hop as <- <-. split; [|done|by split]. exists (dm (mem x)). split; [|done]. by destruct x as [? ? []]. }
  assert (Hsp : 0 ≤ sp) by (eapply choose_sp_nonneg; [|done]; apply u64_range).
  inv_res. destruct r0 as [z x1]. apply safe_write_inv in Hr1 as (d & -> & Hd); try done; [|unfold sizeof_siginfo, sizeof_ucontext; lia|].
  2: { unfold siginfo_fields, sizeof_siginfo. repeat constructor; lia. }
  destruct (z <? 0). { injection Hop as <- <-. by split; [exists d|..]. }
  inv_res. destruct r0 as [z' x2]. apply safe_write_inv in Hr1 as (d' & -> & Hd').
  2: by apply mem_ok_dm. 2: apply u64_range. 2,3: unfold sizeof_siginfo, sizeof_ucontext; lia.
  2: { unfold ucontext_fields, sizeof_ucontext. repeat constructor; lia. }
  assert (Hmem : ∃ d0, with_dm (with_dm (mem x) d) d' = with_dm (mem x) d0 ∧ dom d0 = dom (dm (mem x))).
  { exists d'. split; [done|]. by rewrite Hd'. }
  destruct (z' <? 0); injection Hop as <- <-; by split.
Qed.

Lemma plain_args_inv x go x' : plain_args x = Ok (go, x') → args_inv x x'.
Proof.
  intros Hop. unfold plain_args in Hop. inv_res.
  assert (Hmem : ∃ d0, mem x = with_dm (mem x) d0 ∧ dom d0 = dom (dm (mem x))).
  { exists (dm (mem x)). split; [|done]. by destruct x as [? ? []]. }
  case_match; injection Hop as <- <-; by split.
Qed.

(** ** Saving and restoring a frame *)

Lemma frames_ok_al m root fs st :
  frames_ok m root fs → (∀ b, pa_owned (al m) b → pa_owned st b) → frames_ok (with_al m st) root fs.
Proof. intros [Hn Ho] Hst. split; [done|]. intros a Ha. destruct (Ho a Ha) as (? & ? & ?). split_and!; auto. Qed.

Lemma save_frame_ok sig x t :
  threads (pr x) !! current_thread (pr x) = Some t → mem_ok (mem x) (pagetable (pr x)) →
  frames_ok (mem x) (pagetable (pr x)) (signal_frames t) → pa_avail (al (mem x)) 2 →
  ∃ fp ftf st, let fr := mk_frame fp sig (r_ra (tf x)) (sig_set t) ftf (tf x) in
    let m := with_al (mem x) st in
    save_frame sig x = Ok (fp, ftf, with_mem m (with_pr (put (set_signal_frames (fr :: signal_frames t) t) (pr x)) x)) ∧
    fp ≠ 0 ∧ mem_ok m (pagetable (pr x)) ∧ frames_ok m (pagetable (pr x)) (fr :: signal_frames t) ∧
    (∀ b, pa_owned st b ↔ b = fp ∨ b = ftf ∨ pa_owned (al (mem x)) b) ∧
    ¬ pa_owned (al (mem x)) fp ∧ ¬ pa_owned (al (mem x)) ftf.
Proof.
  intros Hl Hm Hf Hav. set (root := pagetable (pr x)) in *.
  destruct (kalloc_ok (mem x) root 1 Hm Hav) as (fp & s1 & Hop1 & Hm1 & Hn1 & Hav1 & Hno1 & Ho1 & Ht1).
  destruct (kalloc_ok (with_al (mem x) s1) root 0 Hm1 Hav1) as (ftf & s2 & Hop2 & Hm2 & Hn2 & _ & Hno2 & Ho2 & Ht2).
  exists fp, ftf, s2. cbv zeta. unfold save_frame, cur. rewrite Hl. cbn [of_opt bind]. rewrite Hop1. cbn [bind].
  rewrite (proj2 (Z.eqb_neq _ _)) by done. unfold kmalloc. rewrite Hop2. cbn [bind].
  rewrite (proj2 (Z.eqb_neq _ _)) by done. rewrite copytrapframe_eq. cbn in Ho2, Hno2.
  destruct Hf as [Hnd Hall]. split; [done|]. split; [done|]. split; [done|]. split.
  - split; cbn.
    + apply NoDup_cons; split; [|apply NoDup_cons; split; [|done]].
      * rewrite elem_of_cons. intros [->|Hin]; [by apply Hno2, Ho1; left|]. by destruct (Hall _ Hin) as (_ & ? & _).
      * intros Hin. destruct (Hall _ Hin) as (_ & ? & _). apply Hno2, Ho1. by right.
    + intros a [->|[->|Hin]%elem_of_cons]%elem_of_cons; split_and!; try done.
      * apply Ho2, or_intror, Ho1. by left.
      * apply Ho2. by left.
      * by apply Hall.
      * apply Ho2, or_intror, Ho1, or_intror. by apply Hall.
      * by apply Hall.
  - split; [intros b; rewrite Ho2, Ho1; tauto|]. split; [done|]. intros Hb. apply Hno2, Ho1. by right.
Qed.

(** ** Whole calls *)

(** The machine with [t] running in a process that is not exiting. *)
Record sys_ok x (t : thread) : Prop := {
  so_cur : current_thread (pr x) ≠ 0;
  so_thread : threads (pr x) !! current_thread (pr x) = Some t;
  so_state : state (pr x) ≠ ZOMBIE;
  so_ok : thread_ok t;
  so_vma : is_Some (vma (pr x));
  so_mem : mem_ok (mem x) (pagetable (pr x));
  so_frames : frames_ok (mem x) (pagetable (pr x)) (signal_frames t)
}.

(** A frame has been saved in [x] (thread [t]): the context of [x] is the
    newest frame of [y] and its two pages are the only new ones. *)
Record entered x (t : thread) y (t' : thread) (fr : signal_frame) : Prop := {
  en_ok : sys_ok y t';
  en_frames : signal_frames t' = fr :: signal_frames t;
  en_mask : signal_mask fr = sig_set t;
  en_tf : tf_copy fr = tf x;
  en_proc : same_proc (pr x) (pr y);
  en_owned : ∀ b, pa_owned (al (mem y)) b ↔ b = f_page fr ∨ b = tf_page fr ∨ pa_owned (al (mem x)) b;
  en_fresh : ¬ pa_owned (al (mem x)) (f_page fr) ∧ ¬ pa_owned (al (mem x)) (tf_page fr)
}.

(** The saved frames and the pages are the same. *)
Record quiet x (t : thread) y (t' : thread) : Prop := {
  qu_ok : sys_ok y t';
  qu_frames : signal_frames t' = signal_frames t;
  qu_proc : same_proc (pr x) (pr y);
  qu_owned : ∀ b, pa_owned (al (mem y)) b ↔ pa_owned (al (mem x)) b
}.

(** A step that changes neither the pages nor the frames. *)
Lemma quiet_intro x t y t' :
  sys_ok x t → threads (pr y) !! current_thread (pr y) = Some t' → thread_ok t' →
  signal_frames t' = signal_frames t → same_proc (pr x) (pr y) →
  (∃ d, mem y = with_dm (mem x) d ∧ dom d = dom (dm (mem x))) → quiet x t y t'.
Proof.
  intros [H1 H2 H3 H4 H5 H6 H7] Hl Ht Hf [Hs1 Hs2 Hs3 Hs4 Hs5] (d & Hm & Hd).
  split; [|done|by split|by rewrite Hm].
  split; rewrite ?Hs1, ?Hs2, ?Hs3, ?Hs4, ?Hm, ?Hf; try done.
  - by rewrite <-Hs2.
  - by apply mem_ok_dm.
Qed.

Lemma same_mem x : ∃ d, mem x = with_dm (mem x) d ∧ dom d = dom (dm (mem x)).
Proof. exists (dm (mem x)). split; [|done]. by destruct x as [? ? []]. Qed.

Lemma lor_u64 w v : 0 ≤ w < 2 ^ 64 → 0 ≤ v < 2 ^ 64 → 0 ≤ Z.lor w v < 2 ^ 64.
Proof. by apply VMem.lor_range. Qed.

Lemma sig_bit_range sig : 1 ≤ sig ≤ 64 → 0 ≤ sig_bit sig < 2 ^ 64.
Proof.
  intros Hs. unfold sig_bit. rewrite Z.shiftl_mul_pow2, Z.mul_1_l by lia. split; [apply Z.pow_nonneg; lia|].
  apply Z.pow_lt_mono_r; lia.
Qed.

(** The end of the delivery: from the saved frame to the handler. *)
Lemma enter_handler_inv sig a frame x t r y :
  sys_ok x t → 1 ≤ sig ≤ 64 → enter_handler sig a frame x = Ok (Returns r, y) →
  (r = 0 ∨ r = 1) ∧ ∃ t', quiet x t y t' ∧ (r = 1 → should_exit t' = 0).
Proof.
  intros Hx Hsig Hop. destruct (Hx) as [H1 H2 H3 H4 H5 H6 H7]. unfold enter_handler, cur in Hop.
  destruct (_ || _).
  { injection Hop as <- <-. split; [by left|]. exists t. split; [|done]. apply quiet_intro; try done. exact (same_mem x). }
  rewrite H2 in Hop. cbn [of_opt bind] in Hop. set (t1 := if has (sa_flags a) SA_NODEFER then t else _) in Hop.
  assert (Ht1 : thread_ok t1 ∧ signal_frames t1 = signal_frames t).
  { unfold t1. destruct (has _ _); [done|]. split; [|done]. destruct H4. split; cbn; try done. by apply lor_u64, sig_bit_range. }
  destruct Ht1 as [[Ha Hp Hm Hf] Hfr]. set (t2 := set_handling_signal _ _) in Hop.
  destruct (truthy (should_exit t2)) eqn:He; [by inv_res|]. injection Hop as <- <-. split; [by right|]. exists t2. split.
  - apply quiet_intro; try done; [apply lookup_insert_eq|exact (same_mem x)].
  - intros _. unfold truthy in He. by destruct (Z.eqb_spec (should_exit t2) 0).
Qed.

Lemma entered_quiet x t y t1 fr z t2 : entered x t y t1 fr → quiet y t1 z t2 → entered x t z t2 fr.
Proof.
  intros [E1 E2 E3 E4 E5 E6 E7] [Q1 Q2 Q3 Q4]. split; try done; [congruence|by etrans|].
  intros b. by rewrite Q4.
Qed.

Lemma quiet_entered x t y t1 z t2 fr :
  quiet x t y t1 → tf y = tf x → sig_set t1 = sig_set t → entered y t1 z t2 fr → entered x t z t2 fr.
Proof.
  intros [Q1 Q2 Q3 Q4] Htf Hm [E1 E2 E3 E4 E5 E6 E7]. split; try done; [congruence|congruence|congruence|by etrans| |].
  - intros b. by rewrite E6, Q4.
  - by rewrite <-!Q4.
Qed.

Lemma save_frame_entered sig x t :
  sys_ok x t → pa_avail (al (mem x)) 2 →
  ∃ fp ftf y t' fr, save_frame sig x = Ok (fp, ftf, y) ∧ entered x t y t' fr ∧ tf y = tf x ∧ fp = f_page fr ∧ ftf = tf_page fr.
Proof.
  intros [H1 H2 H3 H4 H5 H6 H7] Hav. destruct (save_frame_ok sig x t H2 H6 H7 Hav) as (fp & ftf & st & Hop & _ & Hm & Hf & Ho & Hfr).
  set (fr := mk_frame fp sig (r_ra (tf x)) (sig_set t) ftf (tf x)) in *.
  eexists fp, ftf, _, (set_signal_frames (fr :: signal_frames t) t), fr. split; [exact Hop|]. split; [|done]. split; try done.
  split; try done; [apply lookup_insert_eq|]. destruct H4. split; try done. cbn. by constructor.
Qed.

(** Everything that a call which returns does. *)
Lemma check_and_handle_inv x t r y :
  sys_ok x t → pa_avail (al (mem x)) 2 → check_and_handle_signals stk x = Ok (Returns r, y) →
  (r = 0 ∨ r = 1) ∧ ∃ t', (r = 0 ∧ quiet x t y t') ∨ ∃ fr, entered x t y t' fr ∧ (r = 1 → should_exit t' = 0).
Proof.
  intros Hx Hav Hop. destruct (Hx) as [H1 H2 H3 H4 H5 H6 H7]. unfold check_and_handle_signals, cur in Hop.
  rewrite (proj2 (Z.eqb_neq _ _)) in Hop by done. rewrite H2 in Hop. cbn [of_opt bind] in Hop.
  rewrite decide_False in Hop by done. unfold thread_check_cancellation in Hop.
  destruct (thread_should_cancel t); [done|]. rewrite put_id in Hop by done. cbn [with_pr pr fq tf mem] in Hop.
  destruct (truthy (should_exit t)); [done|].
  destruct (check_pending_spec (pr x) t H1 H2 H3 H4) as (sig & t1 & Hck & Hfs & Ht1). rewrite Hck in Hop. cbn [bind] in Hop.
  apply first_signal_same in Hfs as Hs1. destruct (Z.eqb_spec sig 0) as [->|Hsig].
  { injection Hop as <- <-. split; [by left|]. exists t1. left. split; [done|].
    apply quiet_intro; [done|apply put_lookup|done|apply Hs1|by split|exact (same_mem x)]. }
  assert (Hr : 1 ≤ sig ≤ 64) by (destruct Hfs as [[]|[]]; lia).
  inv_res. destruct r0 as [[z p] q]. rename Hr0 into Hh.
  apply (handle_signal_inv _ _ _ t1) in Hh as (t2 & Hl2 & Hs2 & Ht2 & Hp2); [|apply put_lookup|done].
  set (x1 := mk_sys p (tf x) (mem x) q) in *. assert (Hst : same_sig t t2) by (by etrans).
  assert (Hq : quiet x t x1 t2).
  { apply quiet_intro; [done|done|done|apply Hst| |exact (same_mem x)]. etrans; [|exact Hp2]. by split. }
  assert (Hdone : (0 = 0 ∨ 0 = 1) ∧ ∃ t', (0 = 0 ∧ quiet x t x1 t') ∨ ∃ fr, entered x t x1 t' fr ∧ (0 = 1 → should_exit t' = 0)).
  { split; [by left|]. exists t2. by left. }
  destruct (z =? 0); [|by injection Hop as <- <-]. cbn [negb pr x1] in Hop. rewrite Hl2 in Hop. cbn [of_opt bind] in Hop.
  inv_res. destruct (sa_handler r0 =? 0); [by injection Hop as <- <-|].
  rewrite decide_False in Hop by apply (so_state _ _ (qu_ok _ _ _ _ Hq)).
  destruct (save_frame_entered sig x1 t2 (qu_ok _ _ _ _ Hq) Hav) as (fp & ftf & x2 & t3 & fr & Hsv & Hen & Htf & -> & ->).
  rewrite Hsv in Hop. cbn [bind] in Hop. apply (quiet_entered x t) in Hen; [|done|done|apply Hst].
  clear Hdone Hsv Hq. inv_res. destruct r1 as [go x3]. set (x2' := with_tf _ _) in Hr1.
  assert (Hq2 : quiet x2 t3 x3 t3).
  { assert (args_inv x2' x3) as [Hm Hth Hp].
    { destruct (truthy (sa_flags r0)); [|by apply plain_args_inv in Hr1].
      apply siginfo_args_inv in Hr1; [done|]. apply (so_mem _ _ (en_ok _ _ _ _ _ Hen)). }
    pose proof (en_ok _ _ _ _ _ Hen) as Ho. apply quiet_intro; try done; [|apply Ho].
    rewrite Hth, (sp_cur _ _ Hp). apply Ho. }
  pose proof (entered_quiet _ _ _ _ _ _ _ Hen Hq2) as Hen3. destruct go.
  - apply (enter_handler_inv _ _ _ _ t3) in Hop as (Hr' & t4 & Hq4 & Hex); [|apply Hen3|done].
    split; [done|]. exists t4. right. exists fr. split; [|done]. by apply (entered_quiet _ _ x3 t3).
  - injection Hop as <- <-. split; [by left|]. exists t3. right. by exists fr.
Qed.

(** ** Returning from a handler *)

(** The newest frame of [x] has been taken back. *)
Record resumed x (fr : signal_frame) (rest : list signal_frame) y (t' : thread) : Prop := {
  re_ok : sys_ok y t';
  re_frames : signal_frames t' = rest;
  re_mask : sig_set t' = signal_mask fr;
  re_tf : tf y = tf_copy fr;
  re_proc : same_proc (pr x) (pr y);
  re_owned : ∀ b, pa_owned (al (mem y)) b ↔ pa_owned (al (mem x)) b ∧ b ≠ f_page fr ∧ b ≠ tf_page fr
}.

Lemma restore_ok x t fr rest :
  sys_ok x t → signal_frames t = fr :: rest →
  ∃ y t', restore_signal_context x =
      Ok (if truthy (should_exit t) then Thread_exit (exit_value t) else Returns 0, y) ∧
    resumed x fr rest y t' ∧ should_exit t' = should_exit t ∧ sig_pending t' = sig_pending t ∧ sigactions t' = sigactions t ∧
    (truthy (should_exit t) = false → handling_signal t' = -1 ∧ current_signal t' = 0).
Proof.
  intros [H1 H2 H3 H4 H5 H6 [Hnd Hall]] Hf. rewrite Hf in Hnd, Hall. cbn in Hnd, Hall.
  apply NoDup_cons in Hnd as [Hn1 Hnd]. apply NoDup_cons in Hnd as [Hn2 Hnd].
  destruct (Hall (f_page fr)) as (Hz1 & Ho1 & Ht1); [set_solver|]. destruct (Hall (tf_page fr)) as (Hz2 & Ho2 & Ht2); [set_solver|].
  destruct (kfree_ok (mem x) (pagetable (pr x)) (tf_page fr) H6 Ho2 Ht2) as (s1 & Hop1 & Hm1 & Hw1).
  destruct (kfree_ok (with_al (mem x) s1) (pagetable (pr x)) (f_page fr) Hm1) as (s2 & Hop2 & Hm2 & Hw2).
  { cbn. apply Hw1. split; [done|]. intros E. apply Hn1. rewrite E. set_solver. } { done. }
  assert (Hw : ∀ b, pa_owned s2 b ↔ pa_owned (al (mem x)) b ∧ b ≠ f_page fr ∧ b ≠ tf_page fr).
  { intros b. rewrite Hw2. cbn. rewrite Hw1. tauto. }
  pose proof (to_frames _ H4) as Hmask. rewrite Hf in Hmask. apply Forall_cons in Hmask as [Hmask Hrest].
  assert (Hfin : ∀ t1 : thread, signal_frames t1 = rest → sig_set t1 = signal_mask fr → sigactions t1 = sigactions t →
            sig_pending t1 = sig_pending t →
            resumed x fr rest (with_mem (with_al (mem x) s2) (with_pr (put t1 (pr x)) (with_tf (tf_copy fr) x))) t1).
  { intros t1 E1 E2 E3 E4. split; try done. split; try done; [apply lookup_insert_eq| |].
    - destruct H4. split; rewrite ?E1, ?E2, ?E3, ?E4; done.
    - rewrite E1. split; [done|]. intros a Ha. destruct (Hall a) as (? & ? & ?); [set_solver|]. split_and!; try done.
      cbn. apply Hw. split_and!; [done|..]; intros ->; [apply Hn1|apply Hn2]; set_solver. }
  unfold restore_signal_context, cur. rewrite (proj2 (Z.eqb_neq _ _)) by done. rewrite H2. cbn [of_opt bind].
  rewrite decide_False by done. rewrite Hf, (proj2 (Z.eqb_neq _ _)) by done. cbn [with_pr with_tf pr mem].
  rewrite Hop1. cbn [bind]. rewrite Hop2. cbn [bind]. rewrite copytrapframe_eq, !put_put.
  change (should_exit (set_sig_set (signal_mask fr) (set_signal_frames rest t))) with (should_exit t).
  destruct (truthy (should_exit t)); eexists _, _; (split; [reflexivity|]); (split; [by apply Hfin|done]).
Qed.

(** ** Runs of a handler *)

(** What can happen in user mode, or to the thread from outside, between two
    signal calls: registers and memory change, the program changes its mask or
    its actions, another process sends a signal. *)
Inductive user_step : sys St → sys St → Prop :=
| us_regs x f : user_step x (with_tf f x)
| us_mem x d : dom d = dom (dm (mem x)) → user_step x (with_mem (with_dm (mem x) d) x)
| us_mask x how set old z p o :
    0 ≤ set < 2 ^ 64 → sigprocmask how set old (pr x) = Ok (z, p, o) → user_step x (with_pr p x)
| us_action x signum act old z p o :
    set_sigaction signum act old (pr x) = Ok (z, p, o) → user_step x (with_pr p x)
| us_raise x t sig :
    threads (pr x) !! current_thread (pr x) = Some t → 1 ≤ sig ≤ 64 →
    user_step x (with_pr (put (set_sig_pending (Z.lor (sig_pending t) (sig_bit sig)) t) (pr x)) x).

(** The run of a handler: user steps, calls of [check_and_handle_signals] that
    enter no handler, and complete nested deliveries. *)
Inductive handler_run : sys St → sys St → Prop :=
| hr_done x : handler_run x x
| hr_user x y z : user_step x y → handler_run y z → handler_run x z
| hr_quiet x y z t t' :
    pa_avail (al (mem x)) 2 → check_and_handle_signals stk x = Ok (Returns 0, y) →
    threads (pr x) !! current_thread (pr x) = Some t → threads (pr y) !! current_thread (pr y) = Some t' →
    signal_frames t' = signal_frames t → handler_run y z → handler_run x z
| hr_nested x y z x' w :
    pa_avail (al (mem x)) 2 → check_and_handle_signals stk x = Ok (Returns 1, y) → handler_run y z →
    syscall_sigreturn z = Ok (Returns 0, x') → handler_run x' w → handler_run x w.

Lemma set_actions_inv signum act q old ths o ths' :
  set_actions signum act q old ths = Ok (o, ths') →
  ∀ e t, ths !! e = Some t → ∃ l, ths' !! e = Some (set_sigactions l t) ∧ length l = length (sigactions t).
Proof.
  revert old ths; induction q as [|k q IH]; intros old ths Hop e t He; cbn in Hop.
  { injection Hop as <- <-. exists (sigactions t). split; [|done]. rewrite He. by destruct t. }
  inv_res. destruct act as [n|]; [|by apply (IH _ _ Hop)].
  destruct (decide (e = k)) as [->|Hne].
  - assert (r = t) as -> by congruence.
    destruct (IH _ _ Hop k (set_sigactions (<[Z.to_nat signum := n]> (sigactions t)) t)) as (l & Hl & Hlen);
      [apply lookup_insert_eq|]. exists l. split; [done|]. by rewrite Hlen; cbn; rewrite length_insert.
  - apply (IH _ _ Hop). by rewrite lookup_insert_ne.
Qed.

Lemma user_step_quiet x t y : sys_ok x t → user_step x y → ∃ t', quiet x t y t'.
Proof.
  intros Hx Hst. destruct (Hx) as [H1 H2 H3 H4 H5 H6 H7]. destruct Hst as [x f|x d Hd|x how set old z p o Hset Hop|x signum act old z p o Hop|x t0 sig Hl Hsig].
  - exists t. apply quiet_intro; try done. exact (same_mem x).
  - exists t. apply quiet_intro; try done. by exists d.
  - unfold sigprocmask, cur in Hop. rewrite (proj2 (Z.eqb_neq _ _)) in Hop by done. rewrite H2 in Hop. cbn [of_opt bind] in Hop.
    assert (Hput : ∀ w, 0 ≤ w < 2 ^ 64 → ∃ t', quiet x t (with_pr (put (set_sig_set (special_rules w) t) (pr x)) x) t').
    { intros w Hw. exists (set_sig_set (special_rules w) t). apply quiet_intro; try done; [apply lookup_insert_eq| |exact (same_mem x)].
      destruct H4. split; try done. apply land_range, lor_u64; done. }
    assert (Hno : ∃ t', quiet x t (with_pr (pr x) x) t') by (exists t; apply quiet_intro; try done; exact (same_mem x)).
    destruct (how =? SIG_BLOCK); [|destruct (how =? SIG_UNBLOCK); [|destruct (how =? SIG_SETMASK)]]; simplify_eq; try done.
    + apply Hput, lor_u64; [apply H4|done].
    + apply Hput, land_range, H4.
    + by apply Hput.
  - unfold set_sigaction in Hop. assert (Hno : ∃ t', quiet x t (with_pr (pr x) x) t') by (exists t; apply quiet_intro; try done; exact (same_mem x)).
    destruct (current_thread (pr x) =? 0); [by simplify_eq|]. do 2 (destruct (_ || _); [by simplify_eq|]).
    inv_res. destruct r as [o' ths]. injection Hop as <- <- <-.
    destruct (set_actions_inv _ _ _ _ _ _ _ Hr _ _ H2) as (l & Hl & Hlen). exists (set_sigactions l t).
    apply quiet_intro; try done; [|exact (same_mem x)]. destruct H4. split; try done. cbn. by rewrite Hlen.
  - assert (t0 = t) as -> by congruence. exists (set_sig_pending (Z.lor (sig_pending t) (sig_bit sig)) t).
    apply quiet_intro; try done; [apply lookup_insert_eq| |exact (same_mem x)].
    destruct H4. split; try done. by apply lor_u64, sig_bit_range.
Qed.

Lemma quiet_trans x t y u z v : quiet x t y u → quiet y u z v → quiet x t z v.
Proof.
  intros [Q1 Q2 Q3 Q4] [R1 R2 R3 R4]. split; [done|congruence|by etrans|]. intros b. by rewrite R4.
Qed.

(** [sys_sigreturn] through the system call. *)
Lemma sigreturn_ok x t fr rest :
  sys_ok x t → signal_frames t = fr :: rest →
  ∃ y t', syscall_sigreturn x =
      Ok (if truthy (should_exit t) then Thread_exit (exit_value t) else Returns 0, y) ∧
    sys_ok y t' ∧ signal_frames t' = rest ∧ sig_set t' = signal_mask fr ∧ same_proc (pr x) (pr y) ∧
    (∀ b, pa_owned (al (mem y)) b ↔ pa_owned (al (mem x)) b ∧ b ≠ f_page fr ∧ b ≠ tf_page fr) ∧
    (truthy (should_exit t) = false → tf y = set_a0 0 (tf_copy fr)).
Proof.
  intros Hx Hf. destruct (restore_ok x t fr rest Hx Hf) as (y & t' & Hop & [Hy E1 E2 E3 E4 E5] & Hex & _).
  destruct (Hx) as [H1 H2 H3 H4 H5 H6 H7]. unfold syscall_sigreturn, sys_sigreturn, cur.
  rewrite (proj2 (Z.eqb_neq _ _)) by done. rewrite H2. cbn [of_opt bind]. rewrite Hf, Hop. cbn [bind].
  destruct (truthy (should_exit t)); cbn [bind].
  { exists y, t'. split_and!; try done. }
  change (0 <? 0) with false. cbn iota. rewrite (so_thread _ _ Hy). cbn [of_opt bind].
  set (t2 := set_current_signal _ _). eexists _, t2. split; [reflexivity|].
  split_and!; try done; [|etrans; [exact E4|by split]|intros _; cbn; by rewrite E3].
  destruct Hy as [Y1 Y2 Y3 Y4 Y5 Y6 Y7]. split; try done; [apply lookup_insert_eq|]. destruct Y4. by split.
Qed.

(** A run of a handler gives back every frame and page it takes. *)
Lemma handler_run_quiet x z : handler_run x z → ∀ t, sys_ok x t → ∃ t', quiet x t z t'.
Proof.
  induction 1 as [x|x y z Hst _ IH|x y z t1 t2 Hav Hop Hl1 Hl2 Hf _ IH|x y z x' w Hav Hop _ IH1 Hret _ IH2]; intros t Hx.
  - exists t. by split.
  - destruct (user_step_quiet x t y Hx Hst) as [t1 Hq]. destruct (IH t1 (qu_ok _ _ _ _ Hq)) as [t2 Hq2].
    exists t2. by eapply quiet_trans.
  - assert (t1 = t) as -> by (pose proof (so_thread _ _ Hx); congruence).
    destruct (check_and_handle_inv x t 0 y Hx Hav Hop) as (_ & t' & [[_ Hq]|(fr & Hen & _)]).
    + destruct (IH t' (qu_ok _ _ _ _ Hq)) as [t3 Hq3]. exists t3. by eapply quiet_trans.
    + exfalso. pose proof (so_thread _ _ (en_ok _ _ _ _ _ Hen)). assert (t' = t2) as -> by congruence.
      rewrite (en_frames _ _ _ _ _ Hen) in Hf. apply (f_equal length) in Hf. cbn in Hf. lia.
  - destruct (check_and_handle_inv x t 1 y Hx Hav Hop) as (_ & t' & [[? _]|(fr & Hen & Hex)]); [lia|].
    destruct (IH1 t' (en_ok _ _ _ _ _ Hen)) as (t2 & [Hz Hfz Hpz Hoz]). rewrite (en_frames _ _ _ _ _ Hen) in Hfz.
    destruct (sigreturn_ok z t2 fr (signal_frames t) Hz Hfz) as (x1 & t3 & Hop1 & Hx1 & Hf1 & Hm1 & Hp1 & Ho1 & _).
    rewrite Hop1 in Hret. destruct (truthy (should_exit t2)); [done|]. injection Hret as ->.
    destruct (IH2 t3 Hx1) as [t4 Hq4]. exists t4. apply (quiet_trans x t x' t3 w t4); [|done]. destruct Hen as [E1 E2 E3 E4 E5 E6 [E7 E8]].
    split; [done|done|by do 2 (etrans; [eassumption|])|]. intros b. rewrite Ho1, Hoz, E6. split; [tauto|]. intros Hb.
    split_and!; [by do 2 right|by intros ->|by intros ->].
Qed.

(** ** Deliveries that succeed *)

Lemma safe_write_ok addr data size fs x l :
  mem_ok (mem x) (pagetable (pr x)) → vma (pr x) = Some l → in_areas addr l = true →
  0 ≤ addr → 0 ≤ size → addr + size ≤ MAXVA → stk ≤ data → data + size ≤ stk + (sizeof_siginfo + sizeof_ucontext) →
  Forall (λ '(off, n, _), 0 ≤ off ∧ off + Z.of_nat n ≤ size) fs →
  user_range (pt (mem x)) (pagetable (pr x)) addr size →
  ∃ d, safe_write_user_stack addr data size fs x = Ok (0, with_mem (with_dm (mem x) d) x) ∧ dom d = dom (dm (mem x)).
Proof.
  intros Hm Hv Ha H0 Hs Hmax H1 H2 Hf Hu.
  assert (Hd : dom (store_fields data fs (dm (mem x))) = dom (dm (mem x))).
  { apply (store_fields_dom data size); [|done]. intros a Hin. apply (mo_stack _ _ Hm). lia. }
  set (m1 := with_dm (mem x) (store_fields data fs (dm (mem x)))).
  assert (Hm1 : mem_ok m1 (pagetable (pr x))) by (by apply mem_ok_dm).
  assert (∃ s', copyout (pagetable (pr x)) addr data size m1 = Ok (0, s')) as [s' Hop].
  { unfold copyout. rewrite (proj2 (Z.ltb_ge _ _)) by lia. destruct (VMemSpec.copy_fuel_enough addr size) as [_ Hfu]; [lia|].
    destruct (copyout_loop_total (copy_fuel size) m1 (pagetable (pr x)) data addr size) as (r & s' & Hop & [[-> _]|[-> (i & Hi & E)]]);
      try done; [apply Hm1|apply Hm1| | |by exists s'|by apply Hu in Hi].
    - apply (CString.live_sub _ stk (sizeof_siginfo + sizeof_ucontext)); [apply Hm1|lia|lia].
    - intros i Hi. apply (mo_user _ _ Hm1). lia. }
  assert (Hsw : safe_write_user_stack addr data size fs x = Ok (0, with_mem s' x)).
  { unfold safe_write_user_stack, is_valid_user_stack_addr. rewrite Hv. cbn [of_opt bind]. rewrite Ha. cbn [negb]. fold m1. by rewrite Hop. }
  destruct (safe_write_inv addr data size fs x 0 _ Hm H0 H1 H2 Hf Hsw) as (d & E & Hdd).
  exists d. by rewrite Hsw, E.
Qed.

Lemma siginfo_args_ok sig x t l :
  mem_ok (mem x) (pagetable (pr x)) → threads (pr x) !! current_thread (pr x) = Some t → vma (pr x) = Some l →
  248 ≤ r_sp (tf x) ≤ MAXVA → in_areas (r_sp (tf x) - 248) l = true → in_areas (r_sp (tf x) - 176) l = true →
  user_range (pt (mem x)) (pagetable (pr x)) (r_sp (tf x) - 248) 248 →
  ∃ d, siginfo_args stk sig x = Ok (true, with_tf (set_sp (r_sp (tf x) - 248) (set_a2 (r_sp (tf x) - 176)
      (set_a1 (r_sp (tf x) - 248) (tf x)))) (with_mem (with_dm (mem x) d) x)) ∧ dom d = dom (dm (mem x)).
Proof.
  intros Hm Ht Hv Hsp Ha1 Ha2 Hu. unfold siginfo_args, choose_sp, is_valid_user_stack_addr, cur.
  rewrite Ht, Hv. cbn [of_opt bind]. change (sizeof_siginfo + sizeof_ucontext) with 248.
  rewrite u64_small by (unfold MAXVA in Hsp; lia). rewrite Ha1. cbn [bind].
  destruct (safe_write_ok (r_sp (tf x) - 248) stk sizeof_siginfo (siginfo_fields sig (pid (pr x))) x l) as (d & -> & Hd); try done.
  { lia. } { unfold sizeof_siginfo. lia. } { unfold sizeof_siginfo, sizeof_ucontext. lia. }
  { unfold siginfo_fields, sizeof_siginfo. repeat constructor; lia. }
  { intros i Hi. apply Hu. unfold sizeof_siginfo in Hi. lia. }
  cbn [bind]. change (0 <? 0) with false. cbn iota. change sizeof_siginfo with 72.
  replace (r_sp (tf x) - 248 + 72) with (r_sp (tf x) - 176) by lia.
  rewrite u64_small by (unfold MAXVA in Hsp; lia). cbn [tf with_mem].
  destruct (safe_write_ok (r_sp (tf x) - 176) (stk + 72) sizeof_ucontext (ucontext_fields (r_sp (tf x)) (sig_set t))
              (with_mem (with_dm (mem x) d) x) l) as (d' & -> & Hd'); try done.
  { by apply mem_ok_dm. } { lia. } { unfold sizeof_ucontext. lia. } { lia. } { unfold sizeof_siginfo, sizeof_ucontext. lia. }
  { unfold ucontext_fields, sizeof_ucontext. repeat constructor; lia. }
  { intros i Hi. cbn. replace (r_sp (tf x) - 176 + i) with (r_sp (tf x) - 248 + (72 + i)) by lia.
    apply Hu. unfold sizeof_ucontext in Hi. lia. }
  cbn [bind]. change (0 <? 0) with false. cbn iota. exists d'. split; [done|]. by rewrite Hd'.
Qed.

Lemma plain_args_ok x t l :
  threads (pr x) !! current_thread (pr x) = Some t → vma (pr x) = Some l → 128 ≤ r_sp (tf x) ≤ MAXVA →
  in_areas (align16 (r_sp (tf x) - 128)) l = true →
  plain_args x = Ok (true, with_tf (set_sp (align16 (r_sp (tf x) - 128)) (set_a2 0 (set_a1 0 (tf x)))) x).
Proof.
  intros Ht Hv Hsp Ha. unfold plain_args, choose_sp, is_valid_user_stack_addr, cur.
  rewrite Ht, Hv. cbn [of_opt bind]. rewrite u64_small by (unfold MAXVA in Hsp; lia). by rewrite Ha.
Qed.

(** A signal with a handler of the program. *)
Lemma handle_signal_custom sig p q t a :
  current_thread p ≠ 0 → threads p !! current_thread p = Some t → state p ≠ ZOMBIE → 1 ≤ sig ≤ 64 →
  sig ≠ SIGCANCEL → sig ≠ SIGCANCEL + 1 → length (sigactions t) = 65%nat →
  sigactions t !! Z.to_nat sig = Some a → 1 < sa_handler a →
  handle_signal sig p q = Ok (0, put (clear_pending sig t) p, q).
Proof.
  intros Hc Ht Hz Hs H1 H2 Hlen Ha Hh. unfold handle_signal, cur. rewrite (proj2 (Z.eqb_neq _ _)) by done.
  rewrite Ht. cbn [of_opt bind]. rewrite decide_False by done.
  rewrite (proj2 (Z.leb_gt _ _)), (proj2 (Z.ltb_ge _ _)) by (unfold SIGRTMAX; lia).
  rewrite !(proj2 (Z.eqb_neq _ _)) by done. cbn [orb].
  destruct (action_ok t sig Hlen) as (a' & -> & Ha'); [lia|]. assert (a' = a) as -> by congruence. cbn [bind].
  by rewrite !(proj2 (Z.eqb_neq _ _)) by (unfold SIG_IGN, SIG_DFL; lia).
Qed.
End machine.

End Signal.
