(* ===== verification/SignalSend.v ===== *)
(** * Sending signals: lemmas

    [kill] changes the one process with the given pid and leaves every lock
    free; the loop of [sys_kill] over a process group does this to each member
    of the group. *)

From S2P Require Import Prelude FutexDefs SignalDefs Signal.
Import SignalDefs Signal.

Module SignalSend.

(** A process that [kill] can be used on. *)
Record target_ok (p : proc) : Prop := {
  ta_lock : lock p = false;
  ta_thread : current_thread p ≠ 0 ∧ ∃ t, threads p !! current_thread p = Some t ∧ length (sigactions t) = 65%nat
}.

(** The disposition of [sig] is the default one. *)
Definition default_action (sig : Z) (p : proc) : bool :=
  match threads p !! current_thread p ≫= λ t, sigactions t !! Z.to_nat sig with
  | Some a => sa_handler a =? SIG_DFL
  | None => false
  end.

(** The new value of [killed]. *)
Definition killed_by (sig : Z) (p : proc) : Z :=
  if (sig =? SIGCONT) && (killed p =? SIGSTOP) then 0
  else if default_action sig p && negb ((SIGRTMIN <=? sig) && (sig <=? SIGRTMAX)) && ((killed p =? 0) || (sig <? killed p))
  then sig else killed p.

(** [p] after the signal [sig] has been sent to it. *)
Record signalled (sig : Z) (p p' : proc) : Prop := {
  sd_pid : pid p' = pid p;
  sd_pgid : pgid p' = pgid p;
  sd_users : euid p' = euid p ∧ ruid p' = ruid p;
  sd_lock : lock p' = lock p;
  sd_killed : killed p' = killed_by sig p;
  sd_continued : continued p' = if (sig =? SIGCONT) && (killed p =? SIGSTOP) then 1 else continued p;
  sd_state : state p' = if decide (state p = SLEEPING) then RUNNABLE else state p;
  sd_cur : current_thread p' = current_thread p ∧ thread_queue p' = thread_queue p;
  sd_others : ∀ e, e ≠ current_thread p → threads p' !! e = threads p !! e;
  sd_thread : ∀ t, threads p !! current_thread p = Some t →
    threads p' !! current_thread p = Some (if decide (sig = 0) then t
      else set_sig_pending (Z.lor (sig_pending t) (sig_bit sig)) t)
}.

Lemma send_signal_ok sig p :
  current_thread p ≠ 0 → (∃ t, threads p !! current_thread p = Some t ∧ length (sigactions t) = 65%nat) → 0 ≤ sig ≤ 64 →
  ∃ p', send_signal sig p = Ok p' ∧ signalled sig p p'.
Proof.
  intros Hc (t & Ht & Hlen) Hsig. unfold send_signal.
  set (t1 := if decide (sig = 0) then t else set_sig_pending (Z.lor (sig_pending t) (sig_bit sig)) t).
  assert (E1 : (if (0 <? sig) && (sig <=? 64) && negb (current_thread p =? 0)
    then let* t := cur p in Ok (put (set_sig_pending (Z.lor (sig_pending t) (sig_bit sig)) t) p) else Ok p) = Ok (put t1 p)).
  { rewrite (proj2 (Z.eqb_neq _ _)), (proj2 (Z.leb_le _ _)) by lia. unfold t1, cur. rewrite Ht.
    destruct (Z.ltb_spec 0 sig); cbn; case_decide; try lia; [done|]. by rewrite put_id. }
  rewrite E1. cbn [bind]. clear E1.
  assert (Ht1 : threads (put t1 p) !! current_thread (put t1 p) = Some t1) by apply put_lookup.
  assert (Ha1 : sigactions t1 = sigactions t) by (unfold t1; by case_decide).
  change (killed (put t1 p)) with (killed p). unfold cur. rewrite Ht1. cbn [of_opt bind].
  destruct (action_ok t1 sig) as (a & Ha & Hla); [by rewrite Ha1|lia|]. rewrite Ha, Ha1 in *. cbn [bind].
  assert (Hdef : default_action sig p = (sa_handler a =? SIG_DFL)).
  { unfold default_action. rewrite Ht. cbn. by rewrite Hla. }
  assert (Hrt : (sig <? SIGRTMIN) || (SIGRTMAX <? sig) = negb ((SIGRTMIN <=? sig) && (sig <=? SIGRTMAX))).
  { rewrite !Z.ltb_antisym. by rewrite negb_andb. }
  set (p1 := if (sig =? SIGCONT) && (killed p =? SIGSTOP) then set_continued 1 (set_killed 0 (put t1 p))
             else set_killed (killed_by sig p) (put t1 p)).
  match goal with |- context [bind ?m _] => assert (E2 : m = Ok p1) end.
  { unfold p1, killed_by. destruct (_ && (killed p =? SIGSTOP)); [done|].
    change (sa_handler a =? 0) with (sa_handler a =? SIG_DFL). rewrite Hrt, <-Hdef. by destruct (default_action sig p && _ && _). }
  rewrite E2. cbn [bind]. eexists. split; [done|].
  unfold p1, killed_by in *. destruct ((sig =? SIGCONT) && (killed p =? SIGSTOP)) eqn:Ec.
  all: split; try (case_decide; done).
  all: try (intros e He; case_decide; cbn; by rewrite lookup_insert_ne).
  all: try (intros u Hu; assert (u = t) as -> by congruence; case_decide; cbn; by rewrite lookup_insert_eq).
  all: unfold killed_by; rewrite ?Ec; by repeat case_decide.
Qed.

(** ** One target *)

Lemma p_acquire_free p : lock p = false → p_acquire p = Ok (set_lock true p).
Proof. unfold p_acquire. by intros ->. Qed.

Lemma set_lock_id p : lock p = false → p_release (set_lock true p) = Ok p.
Proof. unfold p_release. cbn. intros <-. by destruct p. Qed.

(** The loop passes over processes with other pids. *)
Lemma kill_app me target sig l1 l2 :
  Forall (λ p, lock p = false ∧ pid p ≠ target) l1 →
  kill me target sig (l1 ++ l2) = (let* (r, l) := kill me target sig l2 in Ok (r, l1 ++ l)).
Proof.
  induction l1 as [|p l1 IH]; intros Hf; cbn [app].
  { destruct (kill me target sig l2) as [[r l]| | |]; done. }
  apply Forall_cons in Hf as [[Hl Hp] Hf]. cbn [kill]. rewrite p_acquire_free by done. cbn [bind].
  change (pid (set_lock true p)) with (pid p). rewrite (proj2 (Z.eqb_neq _ _)) by done.
  rewrite set_lock_id by done. cbn [bind]. rewrite IH by done.
  destruct (kill me target sig l2) as [[r l]| | |]; done.
Qed.

(** [p] after an attempt of user [me] to send it [sig]. *)
Definition attempted (me sig : Z) (p p' : proc) : Prop :=
  if may_not_signal me p then p' = p else signalled sig p p'.

Lemma kill_hit me sig p l :
  target_ok p → 0 ≤ sig ≤ 64 →
  ∃ p', kill me (pid p) sig (p :: l) = Ok (if may_not_signal me p then - EPERM else 0, p' :: l) ∧ attempted me sig p p'.
Proof.
  intros [Hl [Hc Ht]] Hsig. cbn [kill]. rewrite p_acquire_free by done. cbn [bind].
  change (pid (set_lock true p)) with (pid p). rewrite Z.eqb_refl. unfold attempted.
  change (may_not_signal me (set_lock true p)) with (may_not_signal me p). destruct (may_not_signal me p).
  { rewrite set_lock_id by done. by exists p. }
  destruct (send_signal_ok sig (set_lock true p)) as (p1 & -> & [S1 S2 S3 S4 S5 S6 S7 S8 S9 S10]); [done|done|done|]. cbn [bind].
  unfold p_release. rewrite S4. cbn [lock set_lock bind]. eexists. split; [done|].
  split; try done.
Qed.

(** Sending keeps what [kill] needs. *)
Lemma attempted_ok me sig p p' : target_ok p → attempted me sig p p' → target_ok p' ∧ pid p' = pid p ∧ pgid p' = pgid p ∧
  (state p' = UNUSED ↔ state p = UNUSED).
Proof.
  unfold attempted. destruct (may_not_signal me p); [by intros ? ->|]. intros [Hl [Hc (t & Ht & Hlen)]] [S1 S2 S3 S4 S5 S6 S7 [S8 _] S9 S10].
  split.
  2: { split_and!; try done. rewrite S7. by destruct (decide (state p = SLEEPING)) as [->|]. }
  split; [congruence|]. rewrite S8. split; [done|]. eexists. split; [by apply S10|]. by case_decide.
Qed.

(** ** A process group *)

(** The members of group [g] among the processes in use. *)
Definition member (g : Z) (p : proc) : bool := (pgid p =? g) && negb (bool_decide (state p = UNUSED)).

(** [l'] is [l] after an attempt on every member of [g]. *)
Definition group_signalled (me g sig : Z) : list proc → list proc → Prop :=
  Forall2 (λ p p', if member g p then attempted me sig p p' else p' = p).

(** Processes in use have pids of their own and can be signalled. *)
Definition pool_ok (l : list proc) : Prop :=
  Forall (λ p, lock p = false ∧ (state p ≠ UNUSED → target_ok p)) l ∧
  ∀ i j p q, l !! i = Some p → l !! j = Some q → state p ≠ UNUSED → pid p = pid q → i = j.

Lemma pool_ok_update me sig l1 p p' l2 :
  pool_ok (l1 ++ p :: l2) → state p ≠ UNUSED → attempted me sig p p' → pool_ok (l1 ++ p' :: l2).
Proof.
  intros [Hall Hinj] Hu Ha. rewrite Forall_app, Forall_cons in Hall. destruct Hall as (H1 & [Hl Hp] & H2).
  destruct (attempted_ok me sig p p' (Hp Hu) Ha) as (Hok & Epid & _ & Eu). split.
  - rewrite Forall_app, Forall_cons. split_and!; try done. apply Hok.
  - assert (Hrep : ∀ i q, (l1 ++ p' :: l2) !! i = Some q → ∃ q0, (l1 ++ p :: l2) !! i = Some q0 ∧ pid q = pid q0 ∧ (state q = UNUSED ↔ state q0 = UNUSED)).
    { intros i q Hi. destruct (decide (i = length l1)) as [->|Hne].
      - rewrite list_lookup_middle in Hi by done. injection Hi as <-. exists p. by rewrite list_lookup_middle.
      - exists q. split; [|done]. rewrite <-Hi, !lookup_app. destruct (l1 !! i) eqn:E; [done|].
        apply lookup_ge_None in E. by destruct (i - length l1)%nat eqn:E'; [lia|]. }
    intros i j q r Hi Hj Hq Hpid. destruct (Hrep i q Hi) as (q0 & Hi0 & Ep & Eq), (Hrep j r Hj) as (r0 & Hj0 & Er & _).
    apply (Hinj i j q0 r0); try done; [by rewrite <-Eq|congruence].
Qed.

Lemma kill_member me sig l1 p l2 :
  pool_ok (l1 ++ p :: l2) → state p ≠ UNUSED → 0 ≤ sig ≤ 64 →
  ∃ p', kill me (pid p) sig (l1 ++ p :: l2) = Ok (if may_not_signal me p then - EPERM else 0, l1 ++ p' :: l2) ∧
    attempted me sig p p'.
Proof.
  intros [Hall Hinj] Hu Hsig. rewrite Forall_app, Forall_cons in Hall. destruct Hall as (H1 & [Hl Hp] & H2).
  destruct (kill_hit me sig p l2 (Hp Hu) Hsig) as (p' & Hop & Ha). exists p'. split; [|done].
  rewrite kill_app, Hop; [done|]. apply Forall_lookup. intros i q Hi.
  rewrite Forall_lookup in H1. split; [by destruct (H1 i q Hi)|]. intros E.
  assert (length l1 = i); [|apply lookup_lt_Some in Hi; lia].
  apply (Hinj (length l1) i p q); [by apply list_lookup_middle|by apply lookup_app_l_Some|done|done].
Qed.

Lemma kill_group_spec n me g sig l1 l2 :
  n = length l2 → pool_ok (l1 ++ l2) → 0 ≤ sig ≤ 64 →
  ∃ l', kill_group n (length l1) me g sig (l1 ++ l2) = Ok (l1 ++ l') ∧ group_signalled me g sig l2 l' ∧ pool_ok (l1 ++ l').
Proof.
  revert n l1; induction l2 as [|p l2 IH]; intros n l1 -> Hok Hsig.
  { exists []. by split_and!; [..|constructor|]. }
  cbn [length kill_group]. rewrite list_lookup_middle by done. cbn [of_opt bind].
  assert (Hl : lock p = false).
  { destruct Hok as [Hall _]. rewrite Forall_app, Forall_cons in Hall. by destruct Hall as (_ & [? _] & _). }
  rewrite p_acquire_free by done. cbn [bind]. rewrite set_lock_id by done. cbn [bind].
  change (_ && negb _) with (member g p). destruct (member g p) eqn:Hm.
  - assert (Hu : state p ≠ UNUSED) by (unfold member in Hm; apply andb_true_iff in Hm as [_ Hm]; by case_bool_decide).
    destruct (kill_member me sig l1 p l2 Hok Hu Hsig) as (p' & -> & Ha). cbn [bind].
    destruct (IH (length l2) (l1 ++ [p'])) as (l' & Hop & Hg & Hok').
    { done. } { rewrite <-app_assoc. by apply (pool_ok_update me sig l1 p). } { done. }
    exists (p' :: l'). rewrite <-!app_assoc, length_app, Nat.add_1_r in Hop. rewrite <-app_assoc in Hok'. cbn [app] in Hop, Hok'.
    split_and!; [done| |done]. constructor; [by rewrite Hm|done].
  - destruct (IH (length l2) (l1 ++ [p])) as (l' & Hop & Hg & Hok').
    { done. } { by rewrite <-app_assoc. } { done. }
    exists (p :: l'). rewrite <-!app_assoc, length_app, Nat.add_1_r in Hop. rewrite <-app_assoc in Hok'. cbn [app] in Hop, Hok'.
    split_and!; [done| |done]. constructor; [by rewrite Hm|done].
Qed.

End SignalSend.
