(* ===== verification/SignalSpec.v ===== *)
(** * Signals: theorems *)

From S2P Require Import Prelude BuddyDefs Pmem PmemSpec CStringDefs CString VMemDefs VMem VMemCopy VMemSpec.
From S2P Require Import FutexDefs SignalDefs Signal SignalSend.
Import Pmem PmemSpec VMemDefs VMem VMemCopy VMemSpec SignalDefs Signal SignalSend.

Module SignalSpec.

Section claims.
Context {St : Type} `{PageAllocator St} `{!PageAllocatorLaws St} (stk : Z).
Implicit Types (x y z : sys St) (t : thread).

(** The next signal of [t] to be handled is [sig]. *)
Definition next_signal t (sig : Z) : Prop :=
  1 ≤ sig ≤ 64 ∧ unblocked t sig = true ∧ ignored t sig = false ∧
  ∀ s, 1 ≤ s < sig → unblocked t s = true → ignored t s = true.

(** The stack pointer of the handler, without and with the alternate stack. *)
Definition handler_frame (a : sigaction) x : Z :=
  if truthy (sa_flags a) then r_sp (tf x) - 248 else align16 (r_sp (tf x) - 128).
Definition handler_sp (a : sigaction) x t : Z :=
  if has (sa_flags a) SA_ONSTACK && truthy (ss_sp t) then u64 (ss_sp t + ss_size t) else handler_frame a x.

(** The user stack has room for the frame. *)
Definition stack_ready (a : sigaction) x : Prop :=
  248 ≤ r_sp (tf x) ≤ MAXVA ∧
  ∃ l, vma (pr x) = Some l ∧ in_areas (handler_frame a x) l = true ∧
    (sa_flags a ≠ 0 → in_areas (r_sp (tf x) - 176) l = true ∧
       user_range (pt (mem x)) (pagetable (pr x)) (r_sp (tf x) - 248) 248).

(** The registers in which the handler starts. *)
Definition handler_regs (sig : Z) (a : sigaction) x t : trapframe :=
  set_sp (handler_sp a x t) (set_ra SIGTRAMPOLINE (set_epc (sa_handler a)
    (set_a2 (if truthy (sa_flags a) then r_sp (tf x) - 176 else 0)
       (set_a1 (if truthy (sa_flags a) then r_sp (tf x) - 248 else 0) (set_a0 sig (tf x)))))).

Lemma first_signal_next t sig r t' : next_signal t sig → first_signal t 1 r t' → r = sig ∧ discarded t t' 1 sig.
Proof.
  intros (Hs & Hu & Hi & Hall) [(_ & Hno & _)|(Hr & Hur & Hir & Hno & Hd)].
  - rewrite (Hno sig) in Hi by (done || lia). done.
  - assert (r = sig) as ->; [|done]. destruct (decide (r < sig)); [rewrite Hall in Hir by (done || lia); done|].
    destruct (decide (sig < r)); [rewrite Hno in Hi by (done || lia); done|lia].
Qed.

(** The arguments of the handler, in both modes. *)
Lemma args_ok sig a x t :
  sys_ok stk x t → stack_ready a x →
  ∃ d, (if truthy (sa_flags a) then siginfo_args stk sig (with_tf (set_a0 sig (tf x)) x)
        else plain_args (with_tf (set_a0 sig (tf x)) x)) =
      Ok (true, with_tf (set_sp (handler_frame a x)
        (set_a2 (if truthy (sa_flags a) then r_sp (tf x) - 176 else 0)
           (set_a1 (if truthy (sa_flags a) then r_sp (tf x) - 248 else 0) (set_a0 sig (tf x))))) (with_mem (with_dm (mem x) d) x)) ∧
      dom d = dom (dm (mem x)).
Proof.
  intros Hx (Hsp & l & Hv & Ha & Hb). unfold handler_frame in *. destruct (truthy (sa_flags a)) eqn:Hf.
  - assert (Hne : sa_flags a ≠ 0) by (intros E; by rewrite E in Hf). destruct (Hb Hne) as [Ha2 Hu].
    by apply (siginfo_args_ok stk sig (with_tf (set_a0 sig (tf x)) x) t l); try apply Hx.
  - exists (dm (mem x)). split; [|done]. rewrite (plain_args_ok (with_tf (set_a0 sig (tf x)) x) t l); try done; [|apply Hx|cbn; lia].
    rewrite with_dm_id. by destruct x.
Qed.

(** The pending signals after [sig] has been chosen. *)
Definition taken t (sig : Z) t' : Prop :=
  ∀ s, 1 ≤ s → Z.testbit (sig_pending t') (s - 1) =
    Z.testbit (sig_pending t) (s - 1) && negb (bool_decide (s = sig)) &&
    negb (bool_decide (1 ≤ s < sig) && unblocked t s && ignored t s).

Lemma discarded_taken t t1 sig : 1 ≤ sig → discarded t t1 1 sig → taken t sig (clear_pending sig t1).
Proof.
  intros Hsig (_ & _ & Hd) s Hs. rewrite clear_pending_bit, Hd by lia.
  rewrite (bool_decide_ext (s - 1 = sig - 1) (s = sig)) by lia.
  by destruct (bool_decide (s = sig)), (bool_decide (1 ≤ s < sig) && unblocked t s && ignored t s), (Z.testbit (sig_pending t) (s - 1)).
Qed.

(** A delivery up to the check of the handler's address. *)
Lemma delivery_prefix x t sig a :
  sys_ok stk x t → pa_avail (al (mem x)) 2 → thread_should_cancel t = false → should_exit t = 0 →
  next_signal t sig → sig ≠ SIGCANCEL → sig ≠ SIGCANCEL + 1 → sigactions t !! Z.to_nat sig = Some a →
  1 < sa_handler a → stack_ready a x →
  ∃ frame x3 t3 fr, check_and_handle_signals stk x = enter_handler sig a frame x3 ∧
    threads (pr x3) !! current_thread (pr x3) = Some t3 ∧ signal_frames t3 = fr :: signal_frames t ∧
    sig_set t3 = sig_set t ∧ ss_sp t3 = ss_sp t ∧ ss_size t3 = ss_size t ∧ should_exit t3 = 0 ∧ taken t sig t3 ∧
    tf x3 = set_sp (handler_frame a x) (set_a2 (if truthy (sa_flags a) then r_sp (tf x) - 176 else 0)
      (set_a1 (if truthy (sa_flags a) then r_sp (tf x) - 248 else 0) (set_a0 sig (tf x)))).
Proof.
  intros Hx Hav Hcan Hex Hnext Hs1 Hs2 Ha Hh Hst. destruct (Hx) as [H1 H2 H3 H4 H5 H6 H7].
  unfold check_and_handle_signals, cur. rewrite (proj2 (Z.eqb_neq _ _)) by done. rewrite H2. cbn [of_opt bind].
  rewrite decide_False by done. unfold thread_check_cancellation. rewrite Hcan, put_id by done. cbn [with_pr pr fq tf mem].
  rewrite Hex. change (truthy 0) with false. cbn iota.
  destruct (check_pending_spec (pr x) t H1 H2 H3 H4) as (r & t1 & -> & Hfs & Ht1). cbn [bind].
  destruct (first_signal_next t sig r t1 Hnext Hfs) as [-> Hd]. pose proof (first_signal_same _ _ _ _ Hfs) as Hs.
  pose proof (proj1 Hnext) as Hr. rewrite (proj2 (Z.eqb_neq _ _)) by lia.
  rewrite (handle_signal_custom sig (put t1 (pr x)) (fq x) t1 a); try done.
  2: apply put_lookup. 2: apply Ht1. 2: by rewrite (ss_actions _ _ Hs).
  cbn [bind negb Z.eqb pr]. rewrite put_put. set (t2 := clear_pending sig t1). rewrite put_lookup. cbn [of_opt bind].
  destruct (action_ok t2 sig (to_actions _ Ht1)) as (a' & -> & Ha'); [lia|].
  assert (a' = a) as -> by (cbn in Ha'; rewrite (ss_actions _ _ Hs) in Ha'; congruence). cbn [bind].
  rewrite (proj2 (Z.eqb_neq _ _)) by lia. rewrite decide_False by done.
  set (x1 := mk_sys (put t2 (pr x)) (tf x) (mem x) (fq x)).
  assert (Hq1 : quiet stk x t x1 t2).
  { apply quiet_intro; [done|apply put_lookup|by apply clear_pending_ok|apply Hs|by split|exact (same_mem x)]. }
  destruct (save_frame_ok stk sig x1 t2) as (fp & ftf & st & -> & Hfp & Hm & Hf & Ho & _); try apply Hq1; [done|].
  cbn [bind]. set (fr := mk_frame _ _ _ _ _ _) in *. set (t3 := set_signal_frames _ _) in *. set (x2 := with_mem _ _) in *.
  assert (Hx2 : sys_ok stk x2 t3).
  { pose proof (qu_ok _ _ _ _ _ Hq1) as [Y1 Y2 Y3 Y4 Y5 Y6 Y7]. split; try done; [apply lookup_insert_eq|].
    destruct Y4. split; try done. cbn. by constructor. }
  destruct (args_ok sig a x2 t3 Hx2) as (d & -> & Hdd); [done|]. cbn [bind].
  eexists (fp, ftf), _, t3, fr. split; [reflexivity|]. split; [apply Hx2|]. split; [cbn; by rewrite (ss_frames _ _ Hs)|].
  split_and!; try apply Hs; [|by apply discarded_taken; [lia|]|done].
  destruct Hd as [E _]. transitivity (should_exit t1); [done|]. by rewrite E.
Qed.

Lemma delivery_ok x t sig a :
  sys_ok stk x t → pa_avail (al (mem x)) 2 → thread_should_cancel t = false → should_exit t = 0 →
  next_signal t sig → sig ≠ SIGCANCEL → sig ≠ SIGCANCEL + 1 → sigactions t !! Z.to_nat sig = Some a →
  0x1000 ≤ sa_handler a → stack_ready a x →
  ∃ y t', check_and_handle_signals stk x = Ok (Returns 1, y) ∧
    threads (pr y) !! current_thread (pr y) = Some t' ∧ tf y = handler_regs sig a x t ∧
    sig_set t' = (if has (sa_flags a) SA_NODEFER then sig_set t else Z.lor (sig_set t) (sig_bit sig)) ∧ taken t sig t' ∧
    handling_signal t' = sig ∧ current_signal t' = sig ∧ signal_interrupted t' = 1.
Proof.
  intros Hx Hav Hcan Hex Hnext Hs1 Hs2 Ha Hh Hst.
  destruct (delivery_prefix x t sig a) as (frame & x3 & t3 & fr & -> & Hl & Hfr & Hm & Hsp & Hsz & He & Htk & Htf); try done; [lia|].
  unfold enter_handler, cur. rewrite (proj2 (Z.eqb_neq _ _)), (proj2 (Z.ltb_ge _ _)) by lia. cbn [orb].
  rewrite Hl. cbn [of_opt bind].
  match goal with |- context [truthy (should_exit ?u)] => set (t4 := u) end.
  assert (should_exit t4 = 0) as -> by (subst t4; by destruct (has _ _)).
  change (truthy 0) with false. cbn iota. eexists _, t4. split; [reflexivity|].
  split; [apply lookup_insert_eq|]. split.
  { unfold handler_regs, handler_sp. rewrite Hsp, Hsz, Htf. by destruct (has _ _ && _). }
  split. { subst t4. rewrite <-Hm. by destruct (has _ _). }
  split; [|subst t4; by destruct (has _ _)].
  intros s Hs. rewrite <-Htk by done. subst t4. by destruct (has _ _).
Qed.

(** ** The claims *)

(** [check_pending_signals] of a process that is not exiting returns the
    least pending signal that is neither blocked nor ignored, or 0 when there
    is none; it drops exactly the ignored unblocked signals it passes and
    changes nothing else. *)
Theorem check_pending_correct p t :
  current_thread p ≠ 0 → threads p !! current_thread p = Some t → state p ≠ ZOMBIE → thread_ok t →
  ∃ r t', check_pending_signals p = Ok (r, put t' p) ∧
    (r = 0 ∧ (∀ s, 1 ≤ s ≤ 64 → unblocked t s = true → ignored t s = true) ∧ discarded t t' 1 65 ∨
     next_signal t r ∧ discarded t t' 1 r).
Proof.
  intros Hc Hl Hz Ht. destruct (check_pending_spec p t Hc Hl Hz Ht) as (r & t' & Hop & Hf & _).
  exists r, t'. split; [done|]. destruct Hf as [Hf|(? & ? & ? & ? & ?)]; [by left|by right].
Qed.


(** C38. Delivery and return are inverse, also when handlers nest: after
    [check_and_handle_signals] has entered a handler, and the handler has run
    with any user steps and any number of complete nested deliveries,
    [restore_signal_context] gives back every register of the interrupted
    context, the signal mask, the older frames and all pages that were taken;
    it returns 0 unless the thread has been cancelled meanwhile. *)
Theorem signal_roundtrip x t y z :
  sys_ok stk x t → pa_avail (al (mem x)) 2 →
  check_and_handle_signals stk x = Ok (Returns 1, y) → handler_run stk y z →
  ∃ x' t' o, restore_signal_context z = Ok (o, x') ∧ sys_ok stk x' t' ∧
    tf x' = tf x ∧ sig_set t' = sig_set t ∧ signal_frames t' = signal_frames t ∧
    (∀ b, pa_owned (al (mem x')) b ↔ pa_owned (al (mem x)) b) ∧
    (should_exit t' = 0 → o = Returns 0).
Proof.
  intros Hx Hav Hop Hrun.
  destruct (check_and_handle_inv stk x t 1 y Hx Hav Hop) as (_ & ty & [[? _]|(fr & [E1 E2 E3 E4 E5 E6 [E7 E8]] & _)]); [lia|].
  destruct (handler_run_quiet stk y z Hrun ty E1) as (tz & [Hz Hf _ Ho]). rewrite E2 in Hf.
  destruct (restore_ok stk z tz fr (signal_frames t) Hz Hf) as (x' & t' & Hr & [R1 R2 R3 R4 _ R6] & Hex & _).
  eexists x', t', _. split; [exact Hr|]. split_and!; try done; [congruence|congruence| |].
  - intros b. rewrite R6, Ho, E6. split; [tauto|]. intros Hb. split_and!; [by do 2 right|by intros ->|by intros ->].
  - rewrite Hex. by intros ->.
Qed.

(** A handler address below 0x1000 is refused only after the frame has been
    saved and the arguments have been set up: the call returns 0, the signal is
    no longer pending, the frame stays in the list and the program goes on with
    the registers of the handler's arguments. *)
Theorem bad_handler_leaks_frame x t sig a :
  sys_ok stk x t → pa_avail (al (mem x)) 2 → thread_should_cancel t = false → should_exit t = 0 →
  next_signal t sig → sig ≠ SIGCANCEL → sig ≠ SIGCANCEL + 1 → sigactions t !! Z.to_nat sig = Some a →
  1 < sa_handler a < 0x1000 → stack_ready a x →
  ∃ y t' fr, check_and_handle_signals stk x = Ok (Returns 0, y) ∧ threads (pr y) !! current_thread (pr y) = Some t' ∧
    signal_frames t' = fr :: signal_frames t ∧ taken t sig t' ∧
    r_a0 (tf y) = sig ∧ r_epc (tf y) = r_epc (tf x) ∧ r_sp (tf y) = handler_frame a x.
Proof.
  intros Hx Hav Hcan Hex Hnext Hs1 Hs2 Ha Hh Hst.
  destruct (delivery_prefix x t sig a) as (frame & x3 & t3 & fr & -> & Hl & Hfr & _ & _ & _ & _ & Htk & Htf); try done; [lia|].
  exists x3, t3, fr. unfold enter_handler. rewrite (proj2 (Z.ltb_lt _ _)), orb_true_r by lia. by rewrite Htf.
Qed.

(** The system call loses the result of the interrupted call: [syscall] stores
    the return value 0 of [sys_sigreturn] over the restored [a0]. *)
Theorem sigreturn_clobbers_a0 x t y z x' :
  sys_ok stk x t → pa_avail (al (mem x)) 2 →
  check_and_handle_signals stk x = Ok (Returns 1, y) → handler_run stk y z →
  syscall_sigreturn z = Ok (Returns 0, x') → tf x' = set_a0 0 (tf x).
Proof.
  intros Hx Hav Hop Hrun Hret.
  destruct (check_and_handle_inv stk x t 1 y Hx Hav Hop) as (_ & ty & [[? _]|(fr & [E1 E2 E3 E4 _ _ _] & _)]); [lia|].
  destruct (handler_run_quiet stk y z Hrun ty E1) as (tz & [Hz Hf _ _]). rewrite E2 in Hf.
  destruct (sigreturn_ok stk z tz fr (signal_frames t) Hz Hf) as (x1 & t1 & Hr & _ & _ & _ & _ & _ & Htf).
  rewrite Hr in Hret. destruct (truthy (should_exit tz)); [done|]. injection Hret as <-. by rewrite Htf, E4.
Qed.
End claims.

(** ** Masks, dispositions and senders *)

(** [sigprocmask] with a valid [how] returns 0, reports the old mask, and
    the new mask is the union, the difference or the new set, except for three
    signals: SIGKILL and SIGSTOP come out blocked whatever was asked and
    SIGSTKFLT (16) unblocked, although the comments say that SIGKILL and
    SIGSTOP cannot be blocked and SIGTERM is the signal to unblock.  With any
    other [how] it returns -1 and the mask is the same. *)
Theorem sigprocmask_correct how set old p t :
  current_thread p ≠ 0 → threads p !! current_thread p = Some t →
  (0 ≤ how ≤ 2 → ∃ m, sigprocmask how set old p =
       Ok (0, put (set_sig_set m t) p, if old then Some (sig_set t) else None) ∧
     ∀ s, 1 ≤ s → Z.testbit m (s - 1) =
       if bool_decide (s = SIGKILL) || bool_decide (s = SIGSTOP) then true
       else if bool_decide (s = 16) then false
       else if bool_decide (how = SIG_BLOCK) then Z.testbit (sig_set t) (s - 1) || Z.testbit set (s - 1)
       else if bool_decide (how = SIG_UNBLOCK) then Z.testbit (sig_set t) (s - 1) && negb (Z.testbit set (s - 1))
       else Z.testbit set (s - 1)) ∧
  (¬ (0 ≤ how ≤ 2) → sigprocmask how set old p = Ok (-1, p, if old then Some (sig_set t) else None)).
Proof.
  intros Hc Ht. unfold sigprocmask, cur. rewrite (proj2 (Z.eqb_neq _ _)) by done. rewrite Ht. cbn [of_opt bind].
  assert (Hbits : ∀ w s, 1 ≤ s → Z.testbit (special_rules w) (s - 1) =
    if bool_decide (s = SIGKILL) || bool_decide (s = SIGSTOP) then true else if bool_decide (s = 16) then false else Z.testbit w (s - 1)).
  { intros w s Hs. unfold special_rules. rewrite land_lnot_bit, !Z.lor_spec, !sig_bit_testbit by (unfold SIGKILL, SIGSTOP; lia).
    change (Z.shiftl 1 SIGTERM) with (sig_bit 16). rewrite sig_bit_testbit by lia.
    unfold SIGKILL, SIGSTOP. repeat case_bool_decide; try lia; by destruct (Z.testbit w (s - 1)). }
  split.
  - intros Hh. assert (how = 0 ∨ how = 1 ∨ how = 2) as [-> | [-> | ->]] by lia; cbn -[special_rules Z.testbit]; eexists; (split; [done|]);
      intros s Hs; rewrite Hbits by done; repeat (case_match; try done).
    + by rewrite Z.lor_spec.
    + by rewrite land_lnot_bit by lia.
  - intros Hh. by rewrite !(proj2 (Z.eqb_neq _ _)) by (unfold SIG_BLOCK, SIG_UNBLOCK, SIG_SETMASK; lia).
Qed.

(** [kill] on a pool whose processes in use have distinct pids: without a
    process of that pid it returns -ESRCH and changes nothing; otherwise it
    returns -EPERM and changes nothing when the sender is neither root nor a
    user of the target, and else returns 0 after marking the signal pending in
    the target's current thread, setting [killed] for a default action and
    waking the target, no other process being changed and every lock free. *)
Theorem kill_correct me target sig l :
  pool_ok l → 0 ≤ sig ≤ 64 →
  (Forall (λ p, pid p ≠ target) l → kill me target sig l = Ok (- ESRCH, l)) ∧
  (∀ l1 p l2, l = l1 ++ p :: l2 → pid p = target → state p ≠ UNUSED →
     ∃ p', kill me target sig l = Ok (if may_not_signal me p then - EPERM else 0, l1 ++ p' :: l2) ∧
       attempted me sig p p' ∧ pool_ok (l1 ++ p' :: l2)).
Proof.
  intros Hok Hsig. split.
  - intros Hno. rewrite <-(app_nil_r l) at 1. rewrite kill_app; [cbn; by rewrite app_nil_r|].
    apply Forall_and. split; [|done]. apply (Forall_impl _ _ _ (proj1 Hok)). by intros p [? _].
  - intros l1 p l2 -> <- Hu. destruct (kill_member me sig l1 p l2 Hok Hu Hsig) as (p' & Hop & Ha).
    exists p'. split_and!; [done|done|by apply (pool_ok_update me sig l1 p)].
Qed.

(** [sys_kill] to a process group ([pid < -1], or 0 for the caller's own
    group): it returns 0 and every process in use of the group, and no other,
    has been sent the signal as by [kill] (or left alone where the sender has
    no permission). *)
Theorem kill_group_correct me my_pgid target sig l :
  pool_ok l → 0 ≤ sig < 64 → target = 0 ∨ - INT_MAX ≤ target < -1 →
  ∃ l', sys_kill me my_pgid target sig l = Ok (0, l') ∧ pool_ok l' ∧
    group_signalled me (if decide (target = 0) then my_pgid else - target) sig l l'.
Proof.
  intros Hok Hsig Ht. unfold sys_kill.
  rewrite (proj2 (Z.ltb_ge _ _)), (proj2 (Z.leb_gt _ _)), (proj2 (Z.ltb_ge _ _)) by (unfold INT_MAX, SIGRTMAX in *; lia). cbn [orb].
  set (g := if decide (target = 0) then my_pgid else - target).
  destruct (kill_group_spec (length l) me g sig [] l eq_refl Hok) as (l' & Hop & Hg & Hok'); [lia|]. cbn in Hop, Hok'.
  exists l'. split; [|done]. unfold g in *. destruct Ht as [->|Ht].
  - rewrite decide_True in Hop by done. cbn [Z.ltb Z.compare Z.eqb]. by rewrite Hop.
  - rewrite decide_False in Hop by lia. rewrite (proj2 (Z.ltb_lt _ _)), (proj2 (Z.leb_gt _ _)) by lia. by rewrite Hop.
Qed.

(** Signal 0, which is meant as a probe, takes a pending kill back: a process
    that a default signal has marked for exit is unmarked. *)
Theorem kill_probe_revives p p' :
  default_action 0 p = true → 0 < killed p → signalled 0 p p' → killed p' = 0.
Proof.
  intros Hd Hk Hs. rewrite (sd_killed _ _ _ Hs). unfold killed_by. rewrite Hd. cbn.
  by rewrite (proj2 (Z.ltb_lt _ _)), orb_true_r by done.
Qed.

(** [kill] marks a process for exit on SIGCHLD, whose default action in
    [handle_signal] is to be ignored. *)
Theorem kill_sigchld_kills p p' :
  default_action SIGCHLD p = true → killed p = 0 → signalled SIGCHLD p p' → killed p' = SIGCHLD.
Proof. intros Hd Hk Hs. rewrite (sd_killed _ _ _ Hs). unfold killed_by. by rewrite Hd, Hk. Qed.

(** ** A concrete machine

    The address space of VMemSpec (the page 0x1000, for users), its frame and
    248 bytes of kernel stack at 0x2000000 present; a process with one thread,
    SIGUSR1 pending with a handler. *)
Definition sig_dm : gmap Z Z :=
  store_bytes 0x80300000 (replicate 4096 0) (store_bytes 0x2000000 (replicate 248 0) ∅).
Definition sig_mem : vm Buddy.buddy := with_dm user0 sig_dm.
Definition no_regs : trapframe :=
  mk_tf 1 2 3 4 5 6 7 8 9 10 11 12 13 14 15 16 17 18 19 20 21 22 23 24 25 26 27 28 29 30 31 32 33 34 35 36.
Definition user_action (h flags : Z) : list sigaction :=
  <[10%nat := mk_action h 0 flags]> (replicate 65 (mk_action 0 0 0)).
Definition thread0 (h flags : Z) : thread :=
  mk_thread 1 0 (sig_bit 10) (user_action h flags) [] 0 0 (-1) 0 0 0 0 0 0 0 0 0.
Definition proc0 (h flags : Z) : proc :=
  mk_proc false 7 7 0 0 RUNNING 0 0 0 0 {[ 1 := thread0 h flags ]} [1] 1
    (Some [mk_area 0x1000 0x2000 PTE_W]) root0 no_regs.
Definition futex0 : FutexDefs.futex := FutexDefs.mk_futex [] false 0 ∅.
Definition sys0 (h flags sp : Z) : sys Buddy.buddy :=
  mk_sys (proc0 h flags) (set_sp sp no_regs) sig_mem futex0.

Lemma store_bytes_lookup p bs m a :
  store_bytes p bs m !! a = if decide (p ≤ a < p + Z.of_nat (length bs)) then bs !! Z.to_nat (a - p) else m !! a.
Proof.
  revert p m; induction bs as [|b bs IH]; intros p m; cbn [store_bytes length]; [by rewrite decide_False by lia|].
  rewrite IH. repeat case_decide; try lia.
  - by replace (Z.to_nat (a - p)) with (S (Z.to_nat (a - (p + 1)))) by lia.
  - assert (a = p) as -> by lia. by rewrite Z.sub_diag, lookup_insert_eq.
  - by rewrite lookup_insert_ne by lia.
Qed.

Lemma sig_dm_live p n : (p = 0x80300000 ∧ n = 4096) ∨ (p = 0x2000000 ∧ n = 248) → CString.live sig_dm p n.
Proof.
  intros Hpn a Ha. unfold sig_dm. rewrite !store_bytes_lookup, !length_replicate.
  repeat case_decide; try lia; apply lookup_lt_is_Some; rewrite length_replicate; lia.
Qed.

Lemma user0_other va : 0 ≤ va < MAXVA → ¬ 0x1000 ≤ va < 0x2000 → upage (pt user0) root0 va = 0.
Proof.
  intros Hva Hno. destruct tables_ok as (_ & _ & _ & _ & _ & Hnp). destruct user0_ok as (_ & Hm & _).
  pose proof (Z.div_mod va 4096 ltac:(lia)). pose proof (Z.mod_pos_bound va 4096 ltac:(lia)).
  unfold upage. rewrite (mp_pte _ _ _ _ _ _ _ Hm), decide_False by lia.
  specialize (Hnp (va / 4096)). unfold present in Hnp.
  assert (pte_at (pt (snd tables)) root0 va = pte_at (pt (snd tables)) root0 (va / 4096 * 4096)) as ->.
  { unfold pte_at. destruct (indices_of_page va (va / 4096 * 4096)) as [-> ->]; [lia|lia|by rewrite Z.div_mul|done]. }
  by rewrite Hnp.
Qed.

Lemma sig_mem_ok : mem_ok 0x2000000 sig_mem root0.
Proof.
  destruct user0_space as (Hs & Hlk & _). split.
  - exact (space_dm user0 root0 sig_dm Hs).
  - exact Hlk.
  - apply sig_dm_live. right. split; reflexivity.
  - intros va Hva Hu. change (dm sig_mem) with sig_dm. change (pt sig_mem) with (pt user0) in *. destruct (decide (0x1000 ≤ va < 0x2000)) as [Hin|Hin]; [|exfalso; exact (Hu (user0_other va Hva Hin))].
    replace va with (0x1000 + (va - 0x1000)) by lia. rewrite user0_uaddr by lia.
    apply (sig_dm_live 0x80300000 4096); [left; split; reflexivity|lia].
Qed.

Lemma sys0_ok h flags sp : sys_ok 0x2000000 (sys0 h flags sp) (thread0 h flags).
Proof.
  split.
  1-3, 5: done.
  - split; [done|vm_compute; split; congruence|vm_compute; split; congruence|constructor].
  - exact sig_mem_ok.
  - split; [constructor|]. intros a Ha. by apply elem_of_nil in Ha.
Qed.

Lemma sys0_next h flags : 1 < h → next_signal (thread0 h flags) 10.
Proof.
  intros Hh. split; [lia|]. split; [done|]. split.
  - change (ignored (thread0 h flags) 10) with (h =? SIG_IGN). apply Z.eqb_neq. unfold SIG_IGN. lia.
  - intros s Hs. assert (s = 1 ∨ s = 2 ∨ s = 3 ∨ s = 4 ∨ s = 5 ∨ s = 6 ∨ s = 7 ∨ s = 8 ∨ s = 9) as Hc by lia.
    by destruct Hc as [-> | [-> | [-> | [-> | [-> | [-> | [-> | [-> | ->]]]]]]]].
Qed.

Lemma sys0_avail h flags sp : pa_avail (al (mem (sys0 h flags sp))) 2.
Proof. change (al (mem (sys0 h flags sp))) with (al user0). apply (pa_avail_le _ 5); [apply user0_ok|lia]. Qed.

Lemma sys0_stack h : stack_ready (mk_action h 0 4) (sys0 h 4 0x1e00).
Proof.
  split; [cbn; unfold MAXVA; lia|]. exists [mk_area 0x1000 0x2000 PTE_W]. split_and!; [done|done|]. intros _. split; [done|].
  intros i Hi. change (pt (mem (sys0 h 4 0x1e00))) with (pt user0). change (r_sp (tf (sys0 h 4 0x1e00))) with 0x1e00.
  change (pagetable (pr (sys0 h 4 0x1e00))) with root0. rewrite user0_upage by lia. done.
Qed.

Lemma sys0_delivery :
  ∃ y t', check_and_handle_signals 0x2000000 (sys0 0x4000 4 0x1e00) = Ok (Returns 1, y) ∧
    threads (pr y) !! current_thread (pr y) = Some t' ∧ tf y = handler_regs 10 (mk_action 0x4000 0 4) (sys0 0x4000 4 0x1e00) (thread0 0x4000 4).
Proof.
  destruct (delivery_ok 0x2000000 (sys0 0x4000 4 0x1e00) (thread0 0x4000 4) 10 (mk_action 0x4000 0 4)) as (y & t' & Hop & Hl & Htf & _).
  - apply sys0_ok.
  - apply sys0_avail.
  - reflexivity.
  - reflexivity.
  - apply sys0_next. lia.
  - discriminate.
  - discriminate.
  - reflexivity.
  - cbn. lia.
  - apply sys0_stack.
  - exists y, t'. split; [exact Hop|]. split; [exact Hl|exact Htf].
Qed.

Lemma check_pending_witness :
  ∃ r t', check_pending_signals (proc0 0x4000 4) = Ok (r, put t' (proc0 0x4000 4)) ∧
    (r = 0 ∧ (∀ s, 1 ≤ s ≤ 64 → unblocked (thread0 0x4000 4) s = true → ignored (thread0 0x4000 4) s = true) ∧
       discarded (thread0 0x4000 4) t' 1 65 ∨ next_signal (thread0 0x4000 4) r ∧ discarded (thread0 0x4000 4) t' 1 r).
Proof.
  apply check_pending_correct.
  - discriminate.
  - reflexivity.
  - discriminate.
  - apply (so_ok _ _ _ (sys0_ok 0x4000 4 0)).
Defined.


(** The handler clobbers its registers before it returns. *)
Lemma signal_roundtrip_witness :
  ∃ y z x' o, check_and_handle_signals 0x2000000 (sys0 0x4000 4 0x1e00) = Ok (Returns 1, y) ∧
    z = with_tf no_regs y ∧ restore_signal_context z = Ok (o, x') ∧ tf x' = tf (sys0 0x4000 4 0x1e00).
Proof.
  destruct sys0_delivery as (y & t' & Hop & _).
  destruct (signal_roundtrip 0x2000000 (sys0 0x4000 4 0x1e00) (thread0 0x4000 4) y (with_tf no_regs y)) as (x' & t1 & o & Hr & _ & Htf & _).
  - apply sys0_ok.
  - apply sys0_avail.
  - exact Hop.
  - apply (hr_user _ _ (with_tf no_regs y)); [apply us_regs|apply hr_done].
  - exists y, (with_tf no_regs y), x', o. split; [exact Hop|]. split; [reflexivity|]. split; [exact Hr|exact Htf].
Defined.

Lemma sigprocmask_witness :
  ∃ m, sigprocmask SIG_SETMASK 0 true (proc0 0x4000 4) = Ok (0, put (set_sig_set m (thread0 0x4000 4)) (proc0 0x4000 4), Some 0) ∧
    Z.testbit m (SIGKILL - 1) = true.
Proof.
  destruct (sigprocmask_correct SIG_SETMASK 0 true (proc0 0x4000 4) (thread0 0x4000 4)) as [Hok _]; [discriminate|reflexivity|].
  destruct Hok as (m & Hop & Hm); [unfold SIG_SETMASK; lia|]. exists m. split; [exact Hop|].
  rewrite (Hm SIGKILL) by (unfold SIGKILL; lia). reflexivity.
Defined.

(** A pool of two processes of group 7 and a free slot. *)
Definition pool0 : list proc :=
  [proc0 0 0; mk_proc false 8 7 1000 1000 SLEEPING 0 0 0 0 {[ 2 := thread0 0 0 ]} [2] 2 None 0 no_regs;
   mk_proc false 0 0 0 0 UNUSED 0 0 0 0 ∅ [] 0 None 0 no_regs].

Lemma pool0_ok : pool_ok pool0.
Proof.
  split.
  - constructor; [|constructor; [|constructor; [|constructor]]]; (split; [reflexivity|]); intros Hu.
    1,2: split; [reflexivity|]; (split; [discriminate|]); eexists; split; reflexivity.
    destruct Hu. reflexivity.
  - intros i j p q Hi Hj Hu Hp.
    do 3 (destruct i as [|i]; [injection Hi as <-; do 3 (destruct j as [|j]; [injection Hj as <-; try reflexivity; try discriminate Hp; by destruct Hu|]); discriminate Hj|]).
    discriminate Hi.
Qed.

Lemma kill_witness :
  ∃ p', kill 1000 8 15 pool0 = Ok (0, [proc0 0 0; p'; mk_proc false 0 0 0 0 UNUSED 0 0 0 0 ∅ [] 0 None 0 no_regs]) ∧
    state p' = RUNNABLE ∧ killed p' = 15.
Proof.
  destruct (kill_correct 1000 8 15 pool0 pool0_ok) as [_ Hk]; [lia|].
  destruct (Hk [proc0 0 0] _ _ eq_refl eq_refl) as (p' & Hop & Ha & _); [discriminate|]. exists p'.
  split; [exact Hop|]. split; [exact (sd_state _ _ _ Ha)|exact (sd_killed _ _ _ Ha)].
Defined.

Lemma kill_group_witness :
  ∃ l', sys_kill 0 1 (-7) 15 pool0 = Ok (0, l') ∧ group_signalled 0 7 15 pool0 l'.
Proof.
  destruct (kill_group_correct 0 1 (-7) 15 pool0 pool0_ok) as (l' & Hop & _ & Hg); [lia|unfold INT_MAX; lia|].
  exists l'. split; [exact Hop|exact Hg].
Defined.

(** A stack pointer above [MAXVA], which the program chooses freely, passes
    [is_valid_user_stack_addr] and makes [copyout] panic. *)
Theorem signal_stack_pointer_panics :
  ∃ m, check_and_handle_signals 0x2000000 (sys0 0x4000 4 (MAXVA + 4096)) = Panic m.
Proof. eexists. vm_compute. reflexivity. Qed.

End SignalSpec.
