(* ===== verification/ProcDefs.v ===== *)
(** * Processes (kernel/process.c), definitions

    The process table, [fork], [clone], [exit], [waitpid], [waitid], [kill],
    [sleep_on_chan], [wakeup], [yield] and the scheduler, on several harts.

    A slot of [pool] holds what the life cycle depends on; the memory image,
    the trap frame, the threads and the descriptors of a process are not part
    of this model.  Each process has one thread.  [ctx] is the control point of
    a process: while a hart runs the process it is the next section of kernel
    code to execute, otherwise it is what [p->context] resumes.  A section is
    the code from one point where the process can be interrupted, or can wait
    for a lock, to the next; [exec] runs one section.  [p->lock] is held only
    inside of a section, with one exception, which [p_lock] records;
    [parent_lock] is held across sections, [plock] is the hart that holds it.
    An attempt to take a lock that another hart holds, and an action that is
    not possible at this point, give [NoFuel]: nothing happens. *)

From stdpp Require Import functions.
From S2P Require Import Prelude.

Module ProcDefs.

Definition NPROC : nat := 128.
Definition NCPU : nat := 8.
Definition PID_MAX : Z := 10000.
Definition ESRCH : Z := 3.
Definition EINTR : Z := 4.
Definition ECHILD : Z := 10.
Definition EFAULT : Z := 14.
Definition EPERM : Z := 1.
Definition EINVAL : Z := 22.
Definition WNOHANG : Z := 1.
Definition WSTOPPED : Z := 2.
Definition WEXITED : Z := 4.
Definition WCONTINUED : Z := 8.
Definition WNOWAIT : Z := 16777216.
Definition P_ALL : Z := 0.
Definition P_PID : Z := 1.
Definition P_PGID : Z := 2.
Definition CLD_EXITED : Z := 1.
Definition CLD_KILLED : Z := 2.
Definition CLD_DUMPED : Z := 3.
Definition CLD_STOPPED : Z := 5.
Definition CLD_CONTINUED : Z := 6.
Definition SIGKILL : Z := 9.
Definition SIGCONT : Z := 18.
Definition SIGSTOP : Z := 19.
Definition SIGRTMIN : Z := 32.
Definition SIGRTMAX : Z := 64.

Inductive procstate := UNUSED | USED | SLEEPING | RUNNABLE | RUNNING | ZOMBIE.
#[export] Instance procstate_eq_dec : EqDecision procstate.
Proof. solve_decision. Defined.

(** [p->chan]: 0, the address of a slot of [pool], another address. *)
Inductive channel := NoChan | OfProc (i : nat) | Other (a : Z).
#[export] Instance channel_eq_dec : EqDecision channel.
Proof. solve_decision. Defined.

(** The calls that wait for a child, with their arguments. *)
Inductive query :=
| WaitPid (wpid addr options : Z)
| WaitId (idtype id infop options : Z).

(** Control points. *)
Inductive pc :=
| Run (r : Z)                              (* outside of the calls below; the last one returned r *)
| ForkLink (np : nat) (npid : Z)           (* fork: the child is filled in, np->lock is released *)
| ForkStart (np : nat) (npid : Z)          (* fork: the parent is recorded *)
| ExitLink                                 (* exit: the process is a zombie *)
| Reparent (i : nat)                       (* exit: in the loop of reparent, parent_lock held *)
| ExitWake                                 (* exit: before wakeup(p->parent), parent_lock held *)
| ExitSched                                (* exit: before the last sched *)
| Dead                                     (* what sched would return to: panic("zombie exit") *)
| WaitLock (q : query)                     (* waitpid, waitid: at acquire(&parent_lock) *)
| WaitScan (q : query) (i : nat) (havekids found : bool)   (* in the loop over pool, parent_lock held *)
| Asleep (k : pc).                         (* in sleep_on_chan, then k *)

Record creds := mk_creds { ruid : Z; euid : Z; suid : Z; rgid : Z; egid : Z; sgid : Z; groups : list Z }.

Record proc := mk_proc {
  p_lock : bool; state : procstate; chan : channel; parent : option nat;
  exit_state : Z; killed : Z; continued : Z;
  pid : Z; pgid : Z; sid : Z; umask : Z; personality : Z; cred : creds;
  ctx : pc
}.

Definition set_p_lock (v : bool) (p : proc) : proc :=
  mk_proc v (state p) (chan p) (parent p) (exit_state p) (killed p) (continued p) (pid p) (pgid p) (sid p)
    (umask p) (personality p) (cred p) (ctx p).
Definition set_state (v : procstate) (p : proc) : proc :=
  mk_proc (p_lock p) v (chan p) (parent p) (exit_state p) (killed p) (continued p) (pid p) (pgid p) (sid p)
    (umask p) (personality p) (cred p) (ctx p).
Definition set_chan (v : channel) (p : proc) : proc :=
  mk_proc (p_lock p) (state p) v (parent p) (exit_state p) (killed p) (continued p) (pid p) (pgid p) (sid p)
    (umask p) (personality p) (cred p) (ctx p).
Definition set_parent (v : option nat) (p : proc) : proc :=
  mk_proc (p_lock p) (state p) (chan p) v (exit_state p) (killed p) (continued p) (pid p) (pgid p) (sid p)
    (umask p) (personality p) (cred p) (ctx p).
Definition set_exit_state (v : Z) (p : proc) : proc :=
  mk_proc (p_lock p) (state p) (chan p) (parent p) v (killed p) (continued p) (pid p) (pgid p) (sid p)
    (umask p) (personality p) (cred p) (ctx p).
Definition set_killed (v : Z) (p : proc) : proc :=
  mk_proc (p_lock p) (state p) (chan p) (parent p) (exit_state p) v (continued p) (pid p) (pgid p) (sid p)
    (umask p) (personality p) (cred p) (ctx p).
Definition set_continued (v : Z) (p : proc) : proc :=
  mk_proc (p_lock p) (state p) (chan p) (parent p) (exit_state p) (killed p) v (pid p) (pgid p) (sid p)
    (umask p) (personality p) (cred p) (ctx p).
Definition set_pid (v : Z) (p : proc) : proc :=
  mk_proc (p_lock p) (state p) (chan p) (parent p) (exit_state p) (killed p) (continued p) v (pgid p) (sid p)
    (umask p) (personality p) (cred p) (ctx p).
Definition set_ctx (v : pc) (p : proc) : proc :=
  mk_proc (p_lock p) (state p) (chan p) (parent p) (exit_state p) (killed p) (continued p) (pid p) (pgid p) (sid p)
    (umask p) (personality p) (cred p) v.

(** [harts s h] is [cpus[h].proc]. *)
Record sys := mk_sys {
  pool : nat → proc;
  PID : Z;
  initproc : nat;
  plock : option nat;
  harts : nat → option nat
}.
Definition with_pool (pl : nat → proc) (s : sys) : sys := mk_sys pl (PID s) (initproc s) (plock s) (harts s).
Definition with_plock (l : option nat) (s : sys) : sys := mk_sys (pool s) (PID s) (initproc s) l (harts s).
Definition with_hart (h : nat) (o : option nat) (s : sys) : sys :=
  mk_sys (pool s) (PID s) (initproc s) (plock s) (<[h := o]> (harts s)).
Definition upd (i : nat) (f : proc → proc) (s : sys) : sys := with_pool (<[i := f (pool s i)]> (pool s)) s.
(** The process continues at [k]. *)
Definition goto (i : nat) (k : pc) (s : sys) : sys := upd i (set_ctx k) s.

(** What a section shows to the outside: a process ends, a report is copied
    to user memory, a child is collected. *)
Inductive report := Status (z : Z) | Info (code child status uid : Z).
Inductive event :=
| Exited (p : Z) (code : Z)
| Stored (p : Z) (addr : Z) (v : report)
| Reaped (p : Z) (child : Z).

(** Some hart runs the process. *)
Definition on_hart (s : sys) (i : nat) : bool :=
  existsb (λ h, bool_decide (harts s h = Some i)) (seq 0 NCPU).

(** [acquire(&p->lock)] of a lock that is never released does not return. *)
Definition acquire (p : proc) : res unit := if p_lock p then NoFuel else Ok tt.

(** ** Creation *)

(** [allocpid]: the number is used up even when it is too large. *)
Definition allocpid (s : sys) : Z * sys :=
  let pid := PID s in
  (if PID_MAX <? pid then -1 else pid, mk_sys (pool s) (PID s + 1) (initproc s) (plock s) (harts s)).

Definition no_creds : creds := mk_creds 0 0 0 0 0 0 [].

(** The slot found by [allocproc]: [p->context.ra = forkret]. *)
Definition fresh (pid : Z) (p : proc) : proc :=
  mk_proc (p_lock p) USED (chan p) (parent p) 0 0 0 pid pid pid 18 0 no_creds (Run 0).

(** [for (p = pool; p < &pool[NPROC]; p++)] of [allocproc], [n] slots left. *)
Fixpoint find_unused (n i : nat) (s : sys) : res (option nat) :=
  match n with
  | O => Ok None
  | S n =>
      let* _ := acquire (pool s i) in
      if bool_decide (state (pool s i) = UNUSED) then Ok (Some i) else find_unused n (S i) s
  end.

(** When the process numbers are used up [allocproc] returns with the lock of
    the slot held. *)
Definition allocproc (s : sys) : res (option nat * sys) :=
  let* o := find_unused NPROC 0 s in
  match o with
  | None => Ok (None, s)
  | Some i =>
      let '(pid, s) := allocpid s in
      if pid <? 0 then Ok (None, upd i (λ p, set_p_lock true (set_pid pid p)) s)
      else Ok (Some i, upd i (fresh pid) s)
  end.

(** What the child of [fork] gets from its parent, and the child of [clone]. *)
Definition fork_inherit (p np : proc) : proc :=
  mk_proc (p_lock np) (state np) (chan np) (parent np) (exit_state np) (killed np) (continued np) (pid np)
    (pgid p) (sid p) (umask p) (personality p) (cred p) (ctx np).
Definition clone_inherit (p np : proc) : proc :=
  mk_proc (p_lock np) (state np) (chan np) (parent np) (exit_state np) (killed np) (continued np) (pid np)
    (pgid p) (sid p) (umask np) (personality np) (cred p) (ctx np).

(** [fork] up to [release(&np->lock)]. *)
Definition fork (me : nat) (s : sys) : res sys :=
  let* (o, s) := allocproc s in
  match o with
  | None => Ok (goto me (Run (-1)) s)
  | Some np =>
      let s := upd np (fork_inherit (pool s me)) s in
      Ok (goto me (ForkLink np (pid (pool s np))) s)
  end.

(** The section under [parent_lock]. *)
Definition fork_link (h me np : nat) (npid : Z) (s : sys) : res sys :=
  match plock s with
  | Some _ => NoFuel
  | None => Ok (goto me (ForkStart np npid) (upd np (set_parent (Some me)) s))
  end.

Definition fork_start (me np : nat) (npid : Z) (s : sys) : res sys :=
  let* _ := acquire (pool s np) in
  Ok (goto me (Run npid) (upd np (set_state RUNNABLE) s)).

(** [clone] holds [np->lock] from beginning to end. *)
Definition clone (me : nat) (s : sys) : res sys :=
  let* (o, s) := allocproc s in
  match o with
  | None => Panic "fork:allocproc fail"
  | Some np =>
      let s := upd np (set_parent (Some me)) s in
      let s := upd np (clone_inherit (pool s me)) s in
      let npid := pid (pool s np) in
      Ok (goto me (Run npid) (upd np (set_state RUNNABLE) s))
  end.

(** ** Sleeping, waking, scheduling *)

(** [wakeup(chan)] called by the process [me]; nobody sleeps on a channel of
    [waitpid] without having held [parent_lock], so the loop is one step. *)
Definition wakeup (c : channel) (me : nat) (s : sys) : res sys :=
  if existsb (λ i, bool_decide (i ≠ me) && p_lock (pool s i)) (seq 0 NPROC) then NoFuel
  else Ok (with_pool (λ i, let p := pool s i in
         if bool_decide (i ≠ me) && bool_decide (state p = SLEEPING) && bool_decide (chan p = c)
         then set_state RUNNABLE p else p) s).

(** [sched], from the process [me] on the hart [h]; [k] is what it returns to.
    A slot that was freed has no [current_thread]. *)
Definition sched (h me : nat) (k : pc) (s : sys) : res sys :=
  match state (pool s me) with
  | RUNNING => Panic "sched running"
  | UNUSED => Undef
  | _ => Ok (with_hart h None (goto me k s))
  end.

(** [sleep_on_chan(c, lk)] up to the switch; [lk] is released by the caller
    of this function. *)
Definition sleep_on_chan (h me : nat) (c : channel) (k : pc) (s : sys) : res sys :=
  let* _ := acquire (pool s me) in
  sched h me (Asleep k) (upd me (λ p, set_state SLEEPING (set_chan c p)) s).

Definition yield (h me : nat) (s : sys) : res sys :=
  let* _ := acquire (pool s me) in
  sched h me (ctx (pool s me)) (upd me (set_state RUNNABLE) s).

(** A timer interrupt ([kerneltrap]): interrupts are off while a lock is held. *)
Definition timer (h me : nat) (s : sys) : res sys :=
  if bool_decide (plock s = Some h) then NoFuel
  else if bool_decide (state (pool s me) = RUNNING) then yield h me s else Ok s.

(** [scheduler] on the hart [h] has come to slot [i]: the switch to the process
    and what is left of [sleep_on_chan], [yield] or [exit] under [p->lock]. *)
Definition scheduler (h i : nat) (s : sys) : res sys :=
  if (i <? NPROC)%nat && (h <? NCPU)%nat then
    let* _ := acquire (pool s i) in
    if bool_decide (state (pool s i) = RUNNABLE) then
      let s := with_hart h (Some i) (upd i (set_state RUNNING) s) in
      match ctx (pool s i) with
      | Asleep k => Ok (goto i k (upd i (set_chan NoChan) s))
      | Dead => Panic "zombie exit"
      | _ => Ok s
      end
    else Ok s
  else NoFuel.

(** ** exit *)

(** [exit] up to the release of [p->lock]. *)
Definition exit (me : nat) (code : Z) (s : sys) : res (sys * list event) :=
  if bool_decide (me = initproc s) then Panic "init exiting"
  else
    let* _ := acquire (pool s me) in
    let s := upd me (λ p, set_state ZOMBIE (set_exit_state code p)) s in
    Ok (goto me ExitLink s, [Exited (pid (pool s me)) code]).

Definition exit_lock (h me : nat) (s : sys) : res sys :=
  match plock s with
  | Some _ => NoFuel
  | None => Ok (goto me (Reparent 0) (with_plock (Some h) s))
  end.

(** One iteration of [reparent]. *)
Definition reparent (me i : nat) (s : sys) : res sys :=
  if (i <? NPROC)%nat then
    let* s :=
      (if bool_decide (parent (pool s i) = Some me)
       then wakeup (OfProc (initproc s)) me (upd i (set_parent (Some (initproc s))) s)
       else Ok s) in
    Ok (goto me (Reparent (S i)) s)
  else Ok (goto me ExitWake s).

Definition exit_wake (me : nat) (s : sys) : res sys :=
  let c := match parent (pool s me) with Some j => OfProc j | None => NoChan end in
  let* s := wakeup c me s in
  Ok (goto me ExitSched (with_plock None s)).

Definition exit_sched (h me : nat) (s : sys) : res sys :=
  let* _ := acquire (pool s me) in
  sched h me Dead s.

(** ** waitpid, waitid *)

(** [freeproc].  A hart that still runs the process would go on with the
    stack and the slot of whoever gets the slot next. *)
Definition freed (p : proc) : proc :=
  mk_proc (p_lock p) UNUSED (chan p) None 0 0 (continued p) 0 (pgid p) (sid p) (umask p) (personality p)
    (cred p) (ctx p).
Definition freeproc (i : nat) (s : sys) : res sys :=
  if on_hart s i then Undef else Ok (upd i freed s).

(** The signals that set the core-dump bit of the status. *)
Definition dumps_core (sig : Z) : bool := bool_decide (sig ∈ [6; 11; 7; 8; 4; 5; 3; 31; 24; 25]).

(** The 16-bit status of [waitpid]. *)
Definition wait_status (p : proc) : Z :=
  if negb (killed p =? 0) then
    let status := killed p mod 2 ^ 16 in
    if dumps_core (killed p) then Z.lor status 128 else status
  else Z.shiftl (Z.land (exit_state p) 255) 8.

Inductive verdict := Go (havekids found : bool) | Return (r : Z).

Definition store (fault : bool) (by_ addr : Z) (v : report) : option (list event) :=
  if addr =? 0 then Some [] else if fault then None else Some [Stored by_ addr v].

(** One iteration of the loop of [waitpid]; [fault]: [copyout] fails. *)
Definition waitpid_child (fault : bool) (wpid addr : Z) (me i : nat) (havekids found : bool) (s : sys)
    : res (verdict * sys * list event) :=
  let np := pool s i in
  let by_ := pid (pool s me) in
  if bool_decide (parent np = Some me) then
    let* _ := acquire np in
    if (wpid =? -1) || (pid np =? wpid) then
      if bool_decide (state np = ZOMBIE) then
        let childpid := pid np in
        match store fault by_ addr (Status (wait_status np)) with
        | None => Ok (Return (- EFAULT), s, [])
        | Some ev =>
            let* s := freeproc i s in
            Ok (Return childpid, s, ev ++ [Reaped by_ childpid])
        end
      else Ok (Go true true, s, [])
    else Ok (Go true found, s, [])
  else Ok (Go havekids found, s, []).

(** The code and the status [waitid] reports for a zombie. *)
Definition exit_info (p : proc) : report :=
  if negb (killed p =? 0)
  then Info (if killed p =? SIGKILL then CLD_KILLED else CLD_DUMPED) (pid p) (killed p) (euid (cred p))
  else Info CLD_EXITED (pid p) (exit_state p) (euid (cred p)).

Definition waitid_match (idtype id : Z) (me : nat) (p : proc) : bool :=
  if idtype =? P_ALL then bool_decide (parent p = Some me)
  else if idtype =? P_PID then bool_decide (parent p = Some me) && (pid p =? id)
  else if idtype =? P_PGID then bool_decide (parent p = Some me) && (pgid p =? id)
  else false.

Definition has (options flag : Z) : bool := truthy (Z.land options flag).

Definition waitid_child (fault : bool) (idtype id infop options : Z) (me i : nat) (havekids : bool) (s : sys)
    : res (verdict * sys * list event) :=
  let np := pool s i in
  let by_ := pid (pool s me) in
  if waitid_match idtype id me np then
    let* _ := acquire np in
    let should_check_exit :=
      has options WEXITED || (Z.land options (Z.lor WEXITED (Z.lor WSTOPPED WCONTINUED)) =? 0) in
    if (killed np =? SIGSTOP) && has options WSTOPPED then
      match store fault by_ infop (Info CLD_STOPPED (pid np) SIGSTOP (euid (cred np))) with
      | None => Ok (Return (- EFAULT), s, [])
      | Some ev => Ok (Return 0, s, ev)
      end
    else if truthy (continued np) && has options WCONTINUED then
      match store fault by_ infop (Info CLD_CONTINUED (pid np) SIGCONT (euid (cred np))) with
      | None => Ok (Return (- EFAULT), s, [])
      | Some ev => Ok (Return 0, if has options WNOWAIT then s else upd i (set_continued 0) s, ev)
      end
    else if bool_decide (state np = ZOMBIE) && should_check_exit then
      match store fault by_ infop (exit_info np) with
      | None => Ok (Return (- EFAULT), s, [])
      | Some ev =>
          if has options WNOWAIT then Ok (Return 0, s, ev)
          else let* s := freeproc i s in Ok (Return 0, s, ev ++ [Reaped by_ (pid np)])
      end
    else Ok (Go true false, s, [])
  else Ok (Go havekids false, s, []).

Definition wait_child (fault : bool) (q : query) (me i : nat) (havekids found : bool) (s : sys)
    : res (verdict * sys * list event) :=
  match q with
  | WaitPid wpid addr _ => waitpid_child fault wpid addr me i havekids found s
  | WaitId idtype id infop options => waitid_child fault idtype id infop options me i havekids s
  end.

(** The tests before [acquire(&parent_lock)]. *)
Definition wait_args (q : query) : option Z :=
  match q with
  | WaitPid wpid _ options =>
      if wpid <? -1 then Some (- ESRCH)
      else if (options <? 0) || (WNOWAIT <? options) then Some (- EINVAL) else None
  | WaitId idtype id _ options =>
      if (idtype <? P_ALL) || (P_PGID <? idtype) then Some (- EINVAL)
      else if (idtype =? P_PID) && (id <=? 0) then Some (- EINVAL)
      else if (idtype =? P_PGID) && (id <=? 0) then Some (- EINVAL)
      else if Z.land options (Z.lnot WNOHANG) =? 0 then Some (- EINVAL) else None
  end.

(** The tests after the loop: the result of the call, or it sleeps. *)
Definition wait_end (q : query) (killed : Z) (havekids found : bool) : option Z :=
  if negb havekids then Some (- ECHILD)
  else if negb (killed =? 0) then Some (- EINTR)
  else match q with
       | WaitPid wpid _ options =>
           if (0 <? wpid) && negb found then Some (- ECHILD)
           else if has options WNOHANG then Some 0 else None
       | WaitId _ _ _ options => if has options WNOHANG then Some 0 else None
       end.

Definition wait_start (me : nat) (q : query) (s : sys) : sys :=
  match wait_args q with
  | Some r => goto me (Run r) s
  | None => goto me (WaitLock q) s
  end.

Definition wait_lock (h me : nat) (q : query) (s : sys) : res sys :=
  match plock s with
  | Some _ => NoFuel
  | None => Ok (goto me (WaitScan q 0 false false) (with_plock (Some h) s))
  end.

Definition wait_scan (fault : bool) (h me : nat) (q : query) (i : nat) (havekids found : bool) (s : sys)
    : res (sys * list event) :=
  if (i <? NPROC)%nat then
    let* (v, s, ev) := wait_child fault q me i havekids found s in
    match v with
    | Go hk fd => Ok (goto me (WaitScan q (S i) hk fd) s, ev)
    | Return r => Ok (goto me (Run r) (with_plock None s), ev)
    end
  else
    match wait_end q (killed (pool s me)) havekids found with
    | Some r => Ok (goto me (Run r) (with_plock None s), [])
    | None => let* s := sleep_on_chan h me (OfProc me) (WaitLock q) (with_plock None s) in Ok (s, [])
    end.

(** ** kill *)

(** [kill] on the process it found; [default]: the signal has no handler in
    the current thread. *)
Definition kill_one (default : bool) (sig : Z) (p : proc) : proc :=
  let p :=
    if (sig =? SIGCONT) && (killed p =? SIGSTOP) then set_continued 1 (set_killed 0 p)
    else if default && ((sig <? SIGRTMIN) || (SIGRTMAX <? sig)) && ((killed p =? 0) || (sig <? killed p))
    then set_killed sig p else p in
  if bool_decide (state p = SLEEPING) then set_state RUNNABLE p else p.

(** [kill(target, sig)] for [target > 0]; the loop, [n] slots left. *)
Fixpoint kill (n i : nat) (default : bool) (me : nat) (target sig : Z) (s : sys) : res (Z * sys) :=
  match n with
  | O => Ok (- ESRCH, s)
  | S n =>
      let* _ := acquire (pool s i) in
      if pid (pool s i) =? target then
        let e := euid (cred (pool s me)) in
        if negb (e =? 0) && negb (e =? euid (cred (pool s i))) && negb (e =? ruid (cred (pool s i)))
        then Ok (- EPERM, s)
        else Ok (0, upd i (kill_one default sig) s)
      else kill n (S i) default me target sig s
  end.

(** ** Execution *)

(** What a process or an interrupt can start; [Next] continues a call. *)
Inductive action :=
| Sched (i : nat)
| Timer
| Fork
| Clone
| Exit (code : Z)
| Wait (q : query)
| Kill (target sig : Z) (default : bool)
| SleepOn (a : Z)
| WakeUp (a : Z)
| Next (fault : bool).

(** The next section of the call in progress. *)
Definition next (fault : bool) (h me : nat) (s : sys) : res (sys * list event) :=
  let quiet (m : res sys) := let* s := m in Ok (s, []) in
  match ctx (pool s me) with
  | ForkLink np npid => quiet (fork_link h me np npid s)
  | ForkStart np npid => quiet (fork_start me np npid s)
  | ExitLink => quiet (exit_lock h me s)
  | Reparent i => quiet (reparent me i s)
  | ExitWake => quiet (exit_wake me s)
  | ExitSched => quiet (exit_sched h me s)
  | WaitLock q => quiet (wait_lock h me q s)
  | WaitScan q i hk fd => wait_scan fault h me q i hk fd s
  | _ => NoFuel
  end.

(** A call made by a process that is not inside of one. *)
Definition call (a : action) (h me : nat) (s : sys) : res (sys * list event) :=
  let quiet (m : res sys) := let* s := m in Ok (s, []) in
  match a with
  | Fork => quiet (fork me s)
  | Clone => quiet (clone me s)
  | Exit code => exit me code s
  | Wait q => Ok (wait_start me q s, [])
  | Kill target sig default =>
      if 0 <? target then
        let* (r, s) := kill NPROC 0 default me target sig s in Ok (goto me (Run r) s, [])
      else NoFuel
  | SleepOn a => quiet (sleep_on_chan h me (Other a) (Run 0) s)
  | WakeUp a => quiet (let* s := wakeup (Other a) me s in Ok (goto me (Run 0) s))
  | _ => NoFuel
  end.

(** The hart [h] executes one section. *)
Definition exec (h : nat) (a : action) (s : sys) : res (sys * list event) :=
  match harts s h, a with
  | None, Sched i => let* s := scheduler h i s in Ok (s, [])
  | Some me, Timer => let* s := timer h me s in Ok (s, [])
  | Some me, Next fault => next fault h me s
  | Some me, _ => match ctx (pool s me) with Run _ => call a h me s | _ => NoFuel end
  | _, _ => NoFuel
  end.

(** A sequence of sections with the harts that execute them. *)
Fixpoint run (l : list (nat * action)) (s : sys) : res (sys * list event) :=
  match l with
  | [] => Ok (s, [])
  | (h, a) :: l =>
      let* (s, ev) := exec h a s in
      let* (s, ev') := run l s in
      Ok (s, ev ++ ev')
  end.

(** After [proc_init] and [init_process]. *)
Definition unused_slot : proc :=
  mk_proc false UNUSED NoChan None 0 0 0 0 0 0 0 0 no_creds (Run 0).
Definition proc_init : sys := mk_sys (λ _, unused_slot) 1 0 None (λ _, None).
Definition init_process (s : sys) : res sys :=
  let* (o, s) := allocproc s in
  match o with
  | None => Undef
  | Some i => Ok (mk_sys (pool (upd i (set_state RUNNABLE) s)) (PID s) i (plock s) (harts s))
  end.
Definition boot : sys := get proc_init (init_process proc_init).

End ProcDefs.
