(* ===== verification/Proc.v ===== *)
(** * Processes: the invariant and that every section keeps it

    [inv] relates the states of the slots, the control points of the
    processes, the harts and [parent_lock].  The lemmas are grouped by what a
    section changes: nothing but wake-ups ([inv_quiet]), the process that runs
    ([inv_move]), a slot that is taken, linked, started, given to init or
    freed. *)

From stdpp Require Import functions.
From S2P Require Import Prelude ProcDefs.
Import ProcDefs.

Module Proc.

(** ** Updates *)

Lemma pool_upd i f s j : pool (upd i f s) j = if decide (j = i) then f (pool s i) else pool s j.
Proof. unfold upd. cbn. case_decide as E; [subst; apply fn_lookup_insert|by apply fn_lookup_insert_ne]. Qed.
Lemma harts_with h o s h' : harts (with_hart h o s) h' = if decide (h' = h) then o else harts s h'.
Proof. cbn. case_decide as E; [subst; apply fn_lookup_insert|by apply fn_lookup_insert_ne]. Qed.

Arguments upd : simpl never.
Arguments with_hart : simpl never.

Lemma harts_upd i f s : harts (upd i f s) = harts s.
Proof. done. Qed.
Lemma plock_upd i f s : plock (upd i f s) = plock s.
Proof. done. Qed.
Lemma PID_upd i f s : PID (upd i f s) = PID s.
Proof. done. Qed.
Lemma init_upd i f s : initproc (upd i f s) = initproc s.
Proof. done. Qed.
Lemma pool_with_hart h o s : pool (with_hart h o s) = pool s.
Proof. done. Qed.
Lemma plock_with_hart h o s : plock (with_hart h o s) = plock s.
Proof. done. Qed.
Lemma PID_with_hart h o s : PID (with_hart h o s) = PID s.
Proof. done. Qed.
Lemma init_with_hart h o s : initproc (with_hart h o s) = initproc s.
Proof. done. Qed.

Create Rewrite HintDb proc.
#[export] Hint Rewrite pool_upd harts_with harts_upd plock_upd PID_upd init_upd pool_with_hart plock_with_hart
  PID_with_hart init_with_hart : proc.

(** ** The invariant *)

(** Some hart runs the process. *)
Definition runs (s : sys) (i : nat) : Prop := ∃ h, harts s h = Some i.

(** Control points of a process that holds [parent_lock]. *)
Definition locking (k : pc) : bool :=
  match k with Reparent _ | ExitWake | WaitScan _ _ _ _ => true | _ => false end.
(** Control points after the process became a zombie, and those before it has
    woken its parent. *)
Definition exiting (k : pc) : bool :=
  match k with ExitLink | Reparent _ | ExitWake | ExitSched => true | _ => false end.
Definition pending (k : pc) : bool :=
  match k with ExitLink | Reparent _ | ExitWake => true | _ => false end.
(** Control points of a running process, of one that can be resumed. *)
Definition active (k : pc) : bool :=
  match k with Run _ | ForkLink _ _ | ForkStart _ _ | WaitLock _ | WaitScan _ _ _ _ => true | _ => false end.
Definition parked (k : pc) : bool :=
  match k with
  | Run _ | ForkLink _ _ | ForkStart _ _ | WaitLock _ | Asleep (WaitLock _) | Asleep (Run _) => true
  | _ => false
  end.

Definition slot_ok (r : Prop) (i : nat) (p : proc) : Prop :=
  match state p with
  | UNUSED => ¬ r ∧ parent p = None ∧ (ctx p = Dead ∨ ctx p = Run 0) ∧ pid p ≤ 0
  | USED => ¬ r ∧ ctx p = Run 0 ∧ p_lock p = false
  | RUNNABLE => ¬ r ∧ parked (ctx p) ∧ p_lock p = false
  | SLEEPING => ¬ r ∧ p_lock p = false ∧
      ((∃ q, ctx p = Asleep (WaitLock q) ∧ chan p = OfProc i) ∨ (∃ x a, ctx p = Asleep (Run x) ∧ chan p = Other a))
  | RUNNING => r ∧ active (ctx p) ∧ p_lock p = false
  | ZOMBIE => p_lock p = false ∧ ((r ∧ exiting (ctx p)) ∨ (¬ r ∧ ctx p = Dead))
  end.

(** The slot holds a process. *)
Definition used (p : proc) : Prop := state p ≠ UNUSED.

(** The child a process is creating: whether it is linked, the slot, the pid. *)
Definition forking (k : pc) : option (bool * nat * Z) :=
  match k with ForkLink c n => Some (false, c, n) | ForkStart c n => Some (true, c, n) | _ => None end.

(** The parent slot [j] of the process in slot [c] is in use, and when [j] has
    exited it has still to give [c] to init. *)
Definition present (s : sys) (c j : nat) : Prop :=
  match state (pool s j) with
  | UNUSED | USED => False
  | ZOMBIE => ctx (pool s j) = ExitLink ∨ ∃ n, ctx (pool s j) = Reparent n ∧ (n ≤ c)%nat
  | _ => True
  end.

(** The call collects this child when it is a zombie. *)
Definition wanted (q : query) (p : proc) : Prop :=
  match q with
  | WaitPid w _ _ => w = -1 ∨ pid p = w
  | WaitId t id _ o =>
      (t = P_ALL ∨ (t = P_PID ∧ pid p = id) ∨ (t = P_PGID ∧ pgid p = id)) ∧
      (has o WEXITED || (Z.land o (Z.lor WEXITED (Z.lor WSTOPPED WCONTINUED)) =? 0)) = true
  end.

(** A zombie child of [i] that a call [q] of [i] would collect. *)
Definition child_wanted (s : sys) (i c : nat) (q : query) : Prop :=
  state (pool s c) = ZOMBIE ∧ parent (pool s c) = Some i ∧ wanted q (pool s c).

Record inv (s : sys) : Prop := {
  v_bound : ∀ i, (NPROC ≤ i)%nat → state (pool s i) = UNUSED;
  v_cpu : ∀ h, (NCPU ≤ h)%nat → harts s h = None;
  v_one : ∀ h h' i, harts s h = Some i → harts s h' = Some i → h = h';
  v_slot : ∀ i, slot_ok (runs s i) i (pool s i);
  v_plock : ∀ h, plock s = Some h ↔ ∃ i, harts s h = Some i ∧ locking (ctx (pool s i));
  v_pid : ∀ i, used (pool s i) → 1 ≤ pid (pool s i) < PID s;
  v_pid1 : ∀ i j, used (pool s i) → used (pool s j) → pid (pool s i) = pid (pool s j) → i = j;
  v_next : 1 ≤ PID s;
  v_init : match state (pool s (initproc s)) with UNUSED | USED | ZOMBIE => False | _ => True end;
  v_parent : ∀ c j, used (pool s c) → parent (pool s c) = Some j → present s c j;
  v_orphan : ∀ c, used (pool s c) → parent (pool s c) = None →
    c = initproc s ∨ ∃ i n, forking (ctx (pool s i)) = Some (false, c, n);
  v_fork : ∀ i b c n, forking (ctx (pool s i)) = Some (b, c, n) →
    state (pool s c) = USED ∧ pid (pool s c) = n ∧ parent (pool s c) = (if b then Some i else None);
  v_fork1 : ∀ i i' b b' c n n', forking (ctx (pool s i)) = Some (b, c, n) →
    forking (ctx (pool s i')) = Some (b', c, n') → i = i';
  v_used : ∀ c, state (pool s c) = USED → ∃ i b n, forking (ctx (pool s i)) = Some (b, c, n);
  v_sleep : ∀ i q c, state (pool s i) = SLEEPING → ctx (pool s i) = Asleep (WaitLock q) →
    child_wanted s i c q → pending (ctx (pool s c));
  v_scan : ∀ i q n hk fd c, ctx (pool s i) = WaitScan q n hk fd → (c < n)%nat →
    child_wanted s i c q → pending (ctx (pool s c))
}.

(** ** Wake-ups *)

(** Two versions of a process that differ in a wake-up, [killed] and
    [continued] at most. *)
Definition quiet (p p' : proc) : Prop :=
  p_lock p' = p_lock p ∧ parent p' = parent p ∧ pid p' = pid p ∧ pgid p' = pgid p ∧ ctx p' = ctx p ∧ chan p' = chan p ∧
  (state p' = state p ∨ (state p = SLEEPING ∧ state p' = RUNNABLE)).

Lemma quiet_slot r i p p' : quiet p p' → slot_ok r i p → slot_ok r i p'.
Proof.
  intros (E1 & E2 & E3 & E4 & E5 & E6 & [Es|[Es Es']]); unfold slot_ok.
  - by rewrite Es, E1, E2, E3, E5, E6.
  - rewrite Es, Es', E1, E5. intros (? & ? & H). split_and!; [done| |done].
    destruct H as [(q & -> & _)|(x & a & -> & _)]; done.
Qed.

Lemma quiet_wanted q p p' : quiet p p' → wanted q p' → wanted q p.
Proof. intros (_ & _ & E3 & E4 & _). unfold wanted. by rewrite E3, E4. Qed.

Lemma inv_quiet s s' :
  inv s → (∀ i, quiet (pool s i) (pool s' i)) →
  PID s' = PID s → initproc s' = initproc s → plock s' = plock s → harts s' = harts s → inv s'.
Proof.
  intros Hs Hq EP EI EL EH.
  assert (Hst : ∀ i x, state (pool s' i) = x → x ≠ RUNNABLE → state (pool s i) = x).
  { intros i x <- Hx. destruct (Hq i) as (_ & _ & _ & _ & _ & _ & [Es|[Es Es']]); congruence. }
  assert (Hu : ∀ i, used (pool s' i) → used (pool s i)).
  { intros i. unfold used. destruct (Hq i) as (_ & _ & _ & _ & _ & _ & [Es|[Es Es']]); congruence. }
  assert (Hk : ∀ i, ctx (pool s' i) = ctx (pool s i)) by (intros i; apply Hq).
  assert (Hp : ∀ i, parent (pool s' i) = parent (pool s i)) by (intros i; apply Hq).
  assert (Hi : ∀ i, pid (pool s' i) = pid (pool s i)) by (intros i; apply Hq).
  assert (Hc : ∀ i c q, child_wanted s' i c q → child_wanted s i c q).
  { intros i c q (H1 & H2 & H3). split_and!; [by apply Hst|by rewrite <- Hp|].
    apply (quiet_wanted _ _ (pool s' c)); [apply Hq|done]. }
  split.
  - intros i Hn. pose proof (v_bound s Hs i Hn). destruct (Hq i) as (_ & _ & _ & _ & _ & _ & [Es|[Es Es']]); congruence.
  - rewrite EH. apply Hs.
  - rewrite EH. apply Hs.
  - intros i. unfold runs. rewrite EH. apply (quiet_slot _ _ (pool s i)); [apply Hq|apply Hs].
  - intros h. rewrite EL, EH. setoid_rewrite Hk. apply Hs.
  - intros i H%Hu. rewrite Hi, EP. by apply Hs.
  - intros i j H1%Hu H2%Hu. rewrite !Hi. by apply Hs.
  - rewrite EP. apply Hs.
  - rewrite EI. pose proof (v_init s Hs) as H.
    destruct (Hq (initproc s)) as (_ & _ & _ & _ & _ & _ & [->|[Es ->]]); done.
  - intros c j H%Hu. rewrite Hp. intros Hj. pose proof (v_parent s Hs c j H Hj) as Hpr. unfold present in *.
    rewrite Hk. destruct (Hq j) as (_ & _ & _ & _ & _ & _ & [->|[Es ->]]); done.
  - intros c H%Hu. rewrite Hp, EI. setoid_rewrite Hk. by apply Hs.
  - intros i b c n. rewrite Hk, Hp, Hi. intros H. destruct (v_fork s Hs i b c n H) as (H1 & H2 & H3).
    split_and!; [|done..]. destruct (Hq c) as (_ & _ & _ & _ & _ & _ & [->|[Es ->]]); [done|congruence].
  - intros i i' b b' c n n'. rewrite !Hk. apply Hs.
  - intros c Hcu. setoid_rewrite Hk. apply Hs. by apply Hst.
  - intros i q c H1 H2 H3%Hc. rewrite Hk in *. apply (v_sleep s Hs i q c); [by apply Hst|done..].
  - intros i q n hk fd c. rewrite !Hk. intros H1 H2 H3%Hc. by apply (v_scan s Hs i q n hk fd c).
Qed.

(** ** The running process *)

(** The process of slot [me] is replaced by a version [p'] that is the same
    process at another control point; harts and lock change with it. *)
Record moves (s s' : sys) (me : nat) (p' : proc) : Prop := {
  m_pool : ∀ i, pool s' i = if decide (i = me) then p' else pool s i;
  m_PID : PID s' = PID s;
  m_init : initproc s' = initproc s;
  m_same : pid p' = pid (pool s me) ∧ pgid p' = pgid (pool s me) ∧ parent p' = parent (pool s me) ∧
    forking (ctx p') = forking (ctx (pool s me));
  m_state : match state (pool s me) with UNUSED | USED => False | _ => True end;
  m_state' : match state p' with UNUSED | USED => False | ZOMBIE => me ≠ initproc s | _ => True end;
  m_slot : slot_ok (runs s' me) me p';
  m_cpu : ∀ h, (NCPU ≤ h)%nat → harts s' h = None;
  m_one : ∀ h h' i, harts s' h = Some i → harts s' h' = Some i → h = h';
  m_runs : ∀ i, i ≠ me → runs s' i ↔ runs s i;
  m_plock : ∀ h, plock s' = Some h ↔ ∃ i, harts s' h = Some i ∧ locking (ctx (pool s' i));
  (* its children, when it has exited *)
  m_kids : state p' = ZOMBIE → ∀ c, used (pool s c) → parent (pool s c) = Some me →
    ctx p' = ExitLink ∨ ∃ n, ctx p' = Reparent n ∧ (n ≤ c)%nat;
  (* it as a parent that waits *)
  m_sleep : ∀ q c, state p' = SLEEPING → ctx p' = Asleep (WaitLock q) → child_wanted s me c q → pending (ctx (pool s c));
  m_scan : ∀ q n hk fd c, ctx p' = WaitScan q n hk fd → (c < n)%nat → child_wanted s me c q → pending (ctx (pool s c));
  (* it as a child that has exited *)
  m_child : state p' = ZOMBIE → pending (ctx p') ∨ ∀ i q, parent (pool s me) = Some i →
    (state (pool s i) = SLEEPING → ctx (pool s i) = Asleep (WaitLock q) → ¬ wanted q (pool s me)) ∧
    (∀ n hk fd, ctx (pool s i) = WaitScan q n hk fd → (me < n)%nat → ¬ wanted q (pool s me))
}.

Lemma inv_move s s' me p' : inv s → moves s s' me p' → inv s'.
Proof.
  intros Hs [EP EN EI (Ei & Eg & Ep & Ef) Hst Hst' Hslot Hcpu Hone Hruns Hpl Hkids Hsl Hsc Hch].
  assert (Hu : ∀ i, used (pool s' i) → used (pool s i)).
  { intros i. unfold used. rewrite EP. case_decide; [subst; by intros _ E; rewrite E in Hst|done]. }
  assert (Hi : ∀ i, pid (pool s' i) = pid (pool s i)) by (intros i; rewrite EP; case_decide; by subst).
  assert (Hp : ∀ i, parent (pool s' i) = parent (pool s i)) by (intros i; rewrite EP; case_decide; by subst).
  assert (Hf : ∀ i, forking (ctx (pool s' i)) = forking (ctx (pool s i))) by (intros i; rewrite EP; case_decide; by subst).
  assert (Hw : ∀ q, wanted q p' ↔ wanted q (pool s me)) by (intros q; unfold wanted; by rewrite Ei, Eg).
  assert (Hc : ∀ i c q, c ≠ me → child_wanted s' i c q → child_wanted s i c q).
  { intros i c q Hne. unfold child_wanted. by rewrite !EP, decide_False. }
  split.
  - intros i Hn. rewrite EP. case_decide; [subst|by apply Hs]. by rewrite (v_bound s Hs me Hn) in Hst.
  - done.
  - done.
  - intros i. rewrite EP. case_decide as E; [by subst|]. pose proof (v_slot s Hs i) as H. unfold slot_ok in *.
    destruct (state (pool s i)); rewrite ?(Hruns i E); done.
  - done.
  - intros i H%Hu. rewrite Hi, EN. by apply Hs.
  - intros i j H1%Hu H2%Hu. rewrite !Hi. by apply Hs.
  - rewrite EN. apply Hs.
  - rewrite EI, EP. case_decide as E; [|apply Hs]. destruct (state p'); done.
  - intros c j H%Hu. rewrite Hp. intros Hj. unfold present. rewrite EP. case_decide as E.
    + subst j. destruct (state p') eqn:E'; try done. by apply Hkids.
    + by apply (v_parent s Hs c j).
  - intros c H%Hu. rewrite Hp, EI. setoid_rewrite Hf. by apply Hs.
  - intros i b c n. rewrite Hf, Hi, Hp. intros H. destruct (v_fork s Hs i b c n H) as (H1 & H2 & H3).
    split_and!; [|done..]. rewrite EP. case_decide; [|done]. subst. by rewrite H1 in Hst.
  - intros i i' b b' c n n'. rewrite !Hf. apply Hs.
  - intros c. rewrite EP. setoid_rewrite Hf. case_decide; [subst; by intros E; rewrite E in Hst'|apply Hs].
  - intros i q c. destruct (decide (c = me)) as [->|Hc1].
    + unfold child_wanted. rewrite !(EP me), decide_True by done. intros H1 H2 (H3 & H4 & H5).
      destruct (Hch H3) as [?|Hno]; [done|]. rewrite EP in H1, H2. case_decide as E; [subst; congruence|].
      rewrite Ep in H4. destruct (Hno i q H4) as [Hn _]. destruct (Hn H1 H2). by apply Hw.
    + intros H1 H2 H3%Hc; [|done]. rewrite (EP c), decide_False by done. rewrite EP in H1, H2. case_decide as E.
      * subst. by apply (Hsl q).
      * by apply (v_sleep s Hs i q c).
  - intros i q n hk fd c. destruct (decide (c = me)) as [->|Hc1].
    + unfold child_wanted. rewrite !(EP me), decide_True by done. intros H1 H2 (H3 & H4 & H5).
      destruct (Hch H3) as [?|Hno]; [done|]. rewrite EP in H1. case_decide as E.
      * subst. unfold slot_ok in Hslot. rewrite H3, H1 in Hslot. naive_solver.
      * rewrite Ep in H4. destruct (Hno i q H4) as [_ Hn]. destruct (Hn n hk fd H1 H2). by apply Hw.
    + intros H1 H2 H3%Hc; [|done]. rewrite (EP c), decide_False by done. rewrite EP in H1. case_decide as E.
      * subst. by apply (Hsc q n hk fd).
      * by apply (v_scan s Hs i q n hk fd c).
Qed.

(** A process that a hart runs. *)
Lemma running s h me : inv s → harts s h = Some me →
  p_lock (pool s me) = false ∧
  ((state (pool s me) = RUNNING ∧ active (ctx (pool s me))) ∨ (state (pool s me) = ZOMBIE ∧ exiting (ctx (pool s me)))).
Proof.
  intros Hs Hh. pose proof (v_slot s Hs me) as H. assert (runs s me) by (by exists h). unfold slot_ok in H.
  destruct (state (pool s me)) eqn:E; naive_solver.
Qed.

Lemma slot_ok_iff r r' i p : (r ↔ r') → slot_ok r i p → slot_ok r' i p.
Proof. intros E. unfold slot_ok. destruct (state p); rewrite ?E; done. Qed.

(** The hart [h] runs a section of the process [me], which then stays on the
    hart or leaves it; [parent_lock] is taken, released or left alone as the
    control points say. *)
Record section (s s' : sys) (h me : nat) (stay : bool) (p' : proc) : Prop := {
  c_hart : harts s h = Some me;
  c_pool : ∀ i, pool s' i = if decide (i = me) then p' else pool s i;
  c_PID : PID s' = PID s;
  c_init : initproc s' = initproc s;
  c_harts : ∀ h', harts s' h' = if decide (h' = h) then (if stay then Some me else None) else harts s h';
  c_plock : plock s' = if locking (ctx p') then Some h else if locking (ctx (pool s me)) then None else plock s;
  c_free : locking (ctx p') → locking (ctx (pool s me)) ∨ plock s = None;
  c_leave : stay = false → locking (ctx p') = false;
  c_same : pid p' = pid (pool s me) ∧ pgid p' = pgid (pool s me) ∧ parent p' = parent (pool s me) ∧
    forking (ctx p') = forking (ctx (pool s me));
  c_state : state p' = ZOMBIE → me ≠ initproc s;
  c_slot : slot_ok (stay = true) me p' ∧ used p' ∧ state p' ≠ USED
}.

Lemma inv_section s s' h me stay p' :
  inv s → section s s' h me stay p' →
  (state p' = ZOMBIE → ∀ c, used (pool s c) → parent (pool s c) = Some me →
    ctx p' = ExitLink ∨ ∃ n, ctx p' = Reparent n ∧ (n ≤ c)%nat) →
  (∀ q c, state p' = SLEEPING → ctx p' = Asleep (WaitLock q) → child_wanted s me c q → pending (ctx (pool s c))) →
  (∀ q n hk fd c, ctx p' = WaitScan q n hk fd → (c < n)%nat → child_wanted s me c q → pending (ctx (pool s c))) →
  (state p' = ZOMBIE → pending (ctx p') ∨ ∀ i q, parent (pool s me) = Some i →
    (state (pool s i) = SLEEPING → ctx (pool s i) = Asleep (WaitLock q) → ¬ wanted q (pool s me)) ∧
    (∀ n hk fd, ctx (pool s i) = WaitScan q n hk fd → (me < n)%nat → ¬ wanted q (pool s me))) →
  inv s'.
Proof.
  intros Hs [Hh EP EN EI EH EL Hfree Hleave Hsame Hst (Hslot & Hu & Hnu)] Hk Hsl Hsc Hch.
  destruct (running s h me Hs Hh) as (_ & Hrun).
  assert (Hoth : ∀ h' i, i ≠ me → harts s' h' = Some i ↔ harts s h' = Some i).
  { intros h' i Hi. rewrite EH. case_decide; [subst|done]. rewrite Hh. destruct stay; split; congruence. }
  assert (Hme : ∀ h', harts s' h' = Some me ↔ h' = h ∧ stay = true).
  { intros h'. rewrite EH. case_decide as E; [subst; destruct stay; naive_solver|].
    split; [|naive_solver]. intros H. destruct E. by apply (v_one s Hs h' h me). }
  apply (inv_move s s' me p'); [done|]. split; try done.
  - by destruct Hrun as [[-> _]|[-> _]].
  - unfold used in Hu. destruct (state p'); try done. by apply Hst.
  - apply (slot_ok_iff (stay = true)); [|done]. unfold runs. setoid_rewrite Hme. naive_solver.
  - intros h' Hn. rewrite EH. case_decide; [subst|by apply Hs]. rewrite (v_cpu s Hs h Hn) in Hh. done.
  - intros h1 h2 i. destruct (decide (i = me)) as [->|E].
    + rewrite !Hme. naive_solver.
    + rewrite !(Hoth _ i E). apply Hs.
  - intros i E. unfold runs. by setoid_rewrite Hoth.
  - intros h'. rewrite EL, EH. setoid_rewrite EP. case_decide as E.
    + subst h'. split.
      * intros H. destruct (locking (ctx p')) eqn:E'.
        -- exists me. destruct stay; [by rewrite decide_True, E'|specialize (Hleave eq_refl); congruence].
        -- destruct (locking (ctx (pool s me))) eqn:E1; [done|]. apply (v_plock s Hs) in H as (i & Hi & Hl).
           rewrite Hh in Hi. simplify_eq. by rewrite E1 in Hl.
      * intros (i & Hi & Hl). destruct stay; [|done]. simplify_eq. rewrite decide_True in Hl by done.
        by destruct (locking (ctx p')).
    + assert (Hne : ∀ i, harts s h' = Some i → i ≠ me) by (intros i Hi ->; destruct E; by apply (v_one s Hs h' h me)).
      split.
      * destruct (locking (ctx p')) eqn:E'; [naive_solver|]. destruct (locking (ctx (pool s me))); [done|].
        intros (i & Hi & Hl)%(v_plock s Hs). exists i. rewrite decide_False by (by apply Hne). done.
      * intros (i & Hi & Hl). rewrite decide_False in Hl by (by apply Hne).
        assert (Hpl : plock s = Some h') by (apply (v_plock s Hs); eauto).
        destruct (locking (ctx p')); [destruct Hfree as [Hl'|?]; [done| |congruence]|destruct (locking (ctx (pool s me))) eqn:Hl'; [|done]].
        -- assert (plock s = Some h) by (apply (v_plock s Hs); eauto). congruence.
        -- assert (plock s = Some h) by (apply (v_plock s Hs); exists me; by rewrite Hl'). congruence.
Qed.

(** The routine goals of [section], for a state made of updates. *)
Ltac section_goals :=
  unfold goto; split; cbn; autorewrite with proc; try done;
  [intros ?; autorewrite with proc; repeat case_decide; by subst
  |intros ?; autorewrite with proc; repeat case_decide; by subst|..].

(** The last of them: the slot is in order, and in use. *)
Ltac slot_goal := split; [unfold slot_ok; cbn|split; unfold used; cbn; congruence].

(** A process outside of calls, or that enters or leaves one. *)
Definition plain (k : pc) : bool := match k with Run _ | WaitLock _ => true | _ => false end.

Lemma plain_facts k : plain k → locking k = false ∧ active k = true ∧ forking k = None ∧ exiting k = false ∧ parked k = true.
Proof. by destruct k. Qed.

Lemma inv_goto s h me k :
  inv s → harts s h = Some me → plain (ctx (pool s me)) → plain k → inv (goto me k s).
Proof.
  intros Hs Hh (K1 & K2 & K3 & K4 & _)%plain_facts (L1 & L2 & L3 & L4 & _)%plain_facts.
  destruct (running s h me Hs Hh) as (Hlk & [[Hr _]|[_ He]]); [|by rewrite K4 in He].
  apply (inv_section s _ h me true (set_ctx k (pool s me))); [done| | | | |]; cbn; try (by rewrite Hr).
  - section_goals.
    + by rewrite L1, K1.
    + by rewrite L1.
    + by rewrite L3, K3.
    + congruence.
    + slot_goal. by rewrite Hr, L2.
  - intros q n hk fd c ->. done.
Qed.

Lemma inv_timer s s' h me : inv s → harts s h = Some me → timer h me s = Ok s' → inv s'.
Proof.
  intros Hs Hh. unfold timer. case_bool_decide as Hl; [done|]. case_bool_decide as Hr; [|by intros [= <-]].
  destruct (running s h me Hs Hh) as (Hlk & [[_ Ha]|[? _]]); [|congruence].
  assert (Hnl : locking (ctx (pool s me)) = false).
  { destruct (locking (ctx (pool s me))) eqn:E; [|done]. destruct Hl. apply (v_plock s Hs). exists me. by rewrite E. }
  unfold yield, acquire, sched. rewrite Hlk. cbn. rewrite pool_upd, decide_True by done. cbn. intros [= <-].
  apply (inv_section s _ h me false (set_state RUNNABLE (pool s me))); [done| | | | |]; try done.
  - section_goals; [by rewrite Hnl|by rewrite Hnl|]. slot_goal.
    split_and!; [done| |done]. by destruct (ctx (pool s me)).
  - intros q n hk fd c E. cbn in E. by rewrite E in Hnl.
Qed.

Lemma inv_sleep_other s s' h me a x :
  inv s → harts s h = Some me → ctx (pool s me) = Run x → sleep_on_chan h me (Other a) (Run 0) s = Ok s' → inv s'.
Proof.
  intros Hs Hh Hx. destruct (running s h me Hs Hh) as (Hlk & Hrun).
  unfold sleep_on_chan, acquire, sched. rewrite Hlk. cbn. rewrite pool_upd, decide_True by done. cbn. intros [= <-].
  apply (inv_section s _ h me false (set_ctx (Asleep (Run 0)) (set_state SLEEPING (set_chan (Other a) (pool s me)))));
    [done| | | | |]; try done.
  section_goals; [by rewrite Hx|by rewrite Hx|]. slot_goal.
  split_and!; [done|done|]. right. eauto.
Qed.

Lemma inv_exit s s' h me x code ev :
  inv s → harts s h = Some me → ctx (pool s me) = Run x → exit me code s = Ok (s', ev) → inv s'.
Proof.
  intros Hs Hh Hx. destruct (running s h me Hs Hh) as (Hlk & _). unfold exit, acquire.
  case_bool_decide as Hi; [done|]. rewrite Hlk. cbn. intros [= <- <-].
  apply (inv_section s _ h me true (set_ctx ExitLink (set_state ZOMBIE (set_exit_state code (pool s me)))));
    [done| | | | |]; try done.
  - section_goals; [by rewrite Hx|by rewrite Hx|]. slot_goal. auto.
  - by left.
  - by left.
Qed.

(** The process that runs has exited. *)
Lemma exited s h me : inv s → harts s h = Some me → exiting (ctx (pool s me)) →
  state (pool s me) = ZOMBIE ∧ p_lock (pool s me) = false ∧ me ≠ initproc s ∧ forking (ctx (pool s me)) = None.
Proof.
  intros Hs Hh He. destruct (running s h me Hs Hh) as (Hlk & [[_ Ha]|[Hz _]]); [by destruct (ctx (pool s me))|].
  split_and!; try done; [|by destruct (ctx (pool s me))]. intros ->. pose proof (v_init s Hs) as H. by rewrite Hz in H.
Qed.

Lemma inv_exit_lock s s' h me :
  inv s → harts s h = Some me → ctx (pool s me) = ExitLink → exit_lock h me s = Ok s' → inv s'.
Proof.
  intros Hs Hh Hx. destruct (exited s h me Hs Hh) as (Hz & Hlk & Hi & Hf); [by rewrite Hx|].
  unfold exit_lock. destruct (plock s) eqn:Hl; [done|]. intros [= <-].
  apply (inv_section s _ h me true (set_ctx (Reparent 0) (pool s me))); [done| | | | |]; cbn; try done.
  - section_goals; [auto|]. slot_goal. rewrite Hz. auto.
  - intros _ c _ _. right. exists 0%nat. split; [done|lia].
  - by left.
Qed.

(** What [reparent] has done so far. *)
Lemma reparented s me i c : inv s → state (pool s me) = ZOMBIE → ctx (pool s me) = Reparent i →
  used (pool s c) → parent (pool s c) = Some me → (i ≤ c)%nat.
Proof.
  intros Hs Hz Hx Hc Hp. pose proof (v_parent s Hs c me Hc Hp) as H. unfold present in H. rewrite Hz, Hx in H.
  destruct H as [?|(n & ? & ?)]; [done|]. naive_solver.
Qed.

Lemma inv_reparent_skip s h me i :
  inv s → harts s h = Some me → ctx (pool s me) = Reparent i → parent (pool s i) ≠ Some me →
  inv (goto me (Reparent (S i)) s).
Proof.
  intros Hs Hh Hx Hp. destruct (exited s h me Hs Hh) as (Hz & Hlk & Hi & Hf); [by rewrite Hx|].
  assert (Hl : plock s = Some h) by (apply (v_plock s Hs); exists me; by rewrite Hx).
  apply (inv_section s _ h me true (set_ctx (Reparent (S i)) (pool s me))); [done| | | | |]; cbn; try done.
  - section_goals. rewrite Hx. auto. slot_goal. rewrite Hz. auto.
  - intros _ c Hc Hp'. right. exists (S i). split; [done|]. pose proof (reparented s me i c Hs Hz Hx Hc Hp').
    destruct (decide (c = i)) as [->|]; [done|lia].
  - by left.
Qed.

Lemma inv_reparent_end s h me i :
  inv s → harts s h = Some me → ctx (pool s me) = Reparent i → (NPROC ≤ i)%nat → inv (goto me ExitWake s).
Proof.
  intros Hs Hh Hx Hn. destruct (exited s h me Hs Hh) as (Hz & Hlk & Hi & Hf); [by rewrite Hx|].
  assert (Hl : plock s = Some h) by (apply (v_plock s Hs); exists me; by rewrite Hx).
  apply (inv_section s _ h me true (set_ctx ExitWake (pool s me))); [done| | | | |]; cbn; try done.
  - section_goals. rewrite Hx. auto. slot_goal. rewrite Hz. auto.
  - intros _ c Hc Hp'. pose proof (reparented s me i c Hs Hz Hx Hc Hp'). destruct Hc. apply (v_bound s Hs). lia.
  - by left.
Qed.

Lemma quiet_refl p : quiet p p.
Proof. unfold quiet. auto 10. Qed.

(** [wakeup]: nobody else sleeps on the channel afterwards. *)
Lemma wakeup_spec c me s s' : wakeup c me s = Ok s' →
  (∀ i, quiet (pool s i) (pool s' i)) ∧ pool s' me = pool s me ∧
  (∀ i, i ≠ me → chan (pool s i) = c → state (pool s' i) ≠ SLEEPING) ∧
  PID s' = PID s ∧ initproc s' = initproc s ∧ plock s' = plock s ∧ harts s' = harts s.
Proof.
  unfold wakeup. case_match; [done|]. intros [= <-]. cbn. split_and!; try done.
  - intros i. destruct (bool_decide (i ≠ me)), (bool_decide_reflect (state (pool s i) = SLEEPING)) as [E|E],
      (bool_decide (chan (pool s i) = c)); cbn; try apply quiet_refl.
    unfold quiet. cbn. auto 10.
  - rewrite (bool_decide_false (me ≠ me)) by auto. done.
  - intros i Hi Hc. rewrite bool_decide_true, (bool_decide_true (chan _ = c)) by done. cbn.
    case_bool_decide; cbn; congruence.
Qed.

Lemma inv_wakeup c me s s' : inv s → wakeup c me s = Ok s' → inv s'.
Proof. intros Hs (H1 & _ & _ & H2 & H3 & H4 & H5)%wakeup_spec. by apply (inv_quiet s). Qed.

(** A process in the loop of [waitpid] is on the hart that has [parent_lock]. *)
Lemma scanner s i q n hk fd : inv s → ctx (pool s i) = WaitScan q n hk fd →
  ∃ h, plock s = Some h ∧ harts s h = Some i.
Proof.
  intros Hs Hx. pose proof (v_slot s Hs i) as H. unfold slot_ok in H. rewrite Hx in H.
  destruct (state (pool s i)); try naive_solver. destruct H as ((h & Hh) & _). exists h. split; [|done].
  apply (v_plock s Hs). exists i. by rewrite Hx.
Qed.

Lemma inv_exit_wake s s' h me :
  inv s → harts s h = Some me → ctx (pool s me) = ExitWake → exit_wake me s = Ok s' → inv s'.
Proof.
  intros Hs Hh Hx. unfold exit_wake. intros (s1 & Hw & [= <-])%bind_Ok.
  pose proof (inv_wakeup _ _ _ _ Hs Hw) as Hs1. apply wakeup_spec in Hw as (Hq & Hme & Hno & _ & _ & Hpl & Hha).
  rewrite <- Hha in Hh. rewrite <- Hme in Hx.
  destruct (exited s1 h me Hs1 Hh) as (Hz & Hlk & Hi & Hf); [by rewrite Hx|].
  assert (Hl : plock s1 = Some h) by (apply (v_plock s1 Hs1); exists me; by rewrite Hx).
  apply (inv_section s1 _ h me true (set_ctx ExitSched (pool s1 me))); [done| | | | |]; cbn; try done.
  - section_goals; [by rewrite Hx|]. slot_goal. rewrite Hz. auto.
  - intros _ c Hc Hp. pose proof (v_parent s1 Hs1 c me Hc Hp) as H. unfold present in H. rewrite Hz, Hx in H. naive_solver.
  - intros _. right. intros i q Hp. assert (Hne : i ≠ me).
    { intros ->. assert (Hu : used (pool s1 me)) by (unfold used; congruence).
      pose proof (v_parent s1 Hs1 me me Hu Hp) as H. unfold present in H. rewrite Hz, Hx in H. naive_solver. }
    split.
    + intros E1 E2 _. destruct (Hno i Hne); [|done]. rewrite <- Hme, Hp. pose proof (v_slot s1 Hs1 i) as H.
      unfold slot_ok in H. rewrite E1, E2 in H. destruct (Hq i) as (_ & _ & _ & _ & _ & <- & _). naive_solver.
    + intros n hk fd E _ _. destruct (scanner s1 i q n hk fd Hs1 E) as (h' & ? & ?). naive_solver.
Qed.

Lemma inv_exit_sched s s' h me :
  inv s → harts s h = Some me → ctx (pool s me) = ExitSched → exit_sched h me s = Ok s' → inv s'.
Proof.
  intros Hs Hh Hx. destruct (exited s h me Hs Hh) as (Hz & Hlk & Hi & Hf); [by rewrite Hx|].
  unfold exit_sched, acquire, sched. rewrite Hlk. cbn. rewrite Hz. intros [= <-].
  apply (inv_section s _ h me false (set_ctx Dead (pool s me))); [done| | | | |]; cbn; try done.
  - section_goals; [by rewrite Hx|]. slot_goal. rewrite Hz. auto.
  - intros _ c Hc Hp. pose proof (v_parent s Hs c me Hc Hp) as H. unfold present in H. rewrite Hz, Hx in H. naive_solver.
  - intros _. right. intros i q Hp. split.
    + intros E1 E2 Hw. pose proof (v_sleep s Hs i q me E1 E2) as H. rewrite Hx in H. by apply H.
    + intros n hk fd E Hn Hw. pose proof (v_scan s Hs i q n hk fd me E Hn) as H. rewrite Hx in H. by apply H.
Qed.

(** ** Waiting for a child *)

(** The process that runs is not a zombie. *)
Lemma alive s h me : inv s → harts s h = Some me → active (ctx (pool s me)) →
  state (pool s me) = RUNNING ∧ p_lock (pool s me) = false ∧ exiting (ctx (pool s me)) = false.
Proof. intros Hs Hh Ha. destruct (running s h me Hs Hh) as (? & [[]|[]]); by destruct (ctx (pool s me)). Qed.

Lemma inv_wait_lock s s' h me q :
  inv s → harts s h = Some me → ctx (pool s me) = WaitLock q → wait_lock h me q s = Ok s' → inv s'.
Proof.
  intros Hs Hh Hx. destruct (alive s h me Hs Hh) as (Hr & Hlk & _); [by rewrite Hx|].
  unfold wait_lock. destruct (plock s) eqn:Hl; [done|]. intros [= <-].
  apply (inv_section s _ h me true (set_ctx (WaitScan q 0 false false) (pool s me))); [done| | | | |]; cbn; try done.
  - section_goals; [auto|by rewrite Hx|congruence|]. slot_goal. by rewrite Hr.
  - congruence.
  - intros ? ? ? ? c [= <- <- <- <-]. lia.
  - congruence.
Qed.

(** The process ends its wait, or moves on to the next slot. *)
Lemma inv_wait_return s h me q i hk fd r :
  inv s → harts s h = Some me → ctx (pool s me) = WaitScan q i hk fd → inv (goto me (Run r) (with_plock None s)).
Proof.
  intros Hs Hh Hx. destruct (alive s h me Hs Hh) as (Hr & Hlk & _); [by rewrite Hx|].
  apply (inv_section s _ h me true (set_ctx (Run r) (pool s me))); [done| | | | |]; cbn; try congruence.
  section_goals; [by rewrite Hx|by rewrite Hx|congruence|]. slot_goal. by rewrite Hr.
Qed.

Lemma inv_wait_next s h me q i hk fd hk' fd' :
  inv s → harts s h = Some me → ctx (pool s me) = WaitScan q i hk fd →
  (child_wanted s me i q → pending (ctx (pool s i))) → inv (goto me (WaitScan q (S i) hk' fd') s).
Proof.
  intros Hs Hh Hx Hnext. destruct (alive s h me Hs Hh) as (Hr & Hlk & _); [by rewrite Hx|].
  assert (Hl : plock s = Some h) by (apply (v_plock s Hs); exists me; by rewrite Hx).
  apply (inv_section s _ h me true (set_ctx (WaitScan q (S i) hk' fd') (pool s me))); [done| | | | |]; cbn; try congruence.
  - section_goals; [rewrite Hx; auto|by rewrite Hx|congruence|]. slot_goal. by rewrite Hr.
  - intros ? ? ? ? c [= <- <- <- <-] Hc. destruct (decide (c = i)) as [->|]; [done|].
    apply (v_scan s Hs me q i hk fd); [done|lia].
Qed.

Lemma inv_wait_sleep s s' h me q i hk fd :
  inv s → harts s h = Some me → ctx (pool s me) = WaitScan q i hk fd → (NPROC ≤ i)%nat →
  sleep_on_chan h me (OfProc me) (WaitLock q) (with_plock None s) = Ok s' → inv s'.
Proof.
  intros Hs Hh Hx Hn. destruct (alive s h me Hs Hh) as (Hr & Hlk & _); [by rewrite Hx|].
  unfold sleep_on_chan, acquire, sched. cbn [pool with_plock]. rewrite Hlk. cbn. rewrite pool_upd, decide_True by done.
  cbn. intros [= <-].
  apply (inv_section s _ h me false (set_ctx (Asleep (WaitLock q)) (set_state SLEEPING (set_chan (OfProc me) (pool s me)))));
    [done| | | | |]; cbn; try congruence.
  - section_goals; [by rewrite Hx|by rewrite Hx|]. slot_goal. split_and!; [done|done|]. left. eauto.
  - intros ? c _ [= <-] Hc. apply (v_scan s Hs me q i hk fd); [done| |done].
    destruct (decide (c < i)%nat); [done|]. destruct Hc as (Hz & _). rewrite (v_bound s Hs) in Hz; [done|lia].
Qed.

(** ** Slots that change hands *)

Lemma on_hart_runs s i : inv s → on_hart s i = false ↔ ¬ runs s i.
Proof.
  intros Hs. rewrite <- not_true_iff_false. unfold on_hart. rewrite existsb_exists. apply not_iff_compat. split.
  - intros (h & _ & H%bool_decide_eq_true). by exists h.
  - intros (h & H). exists h. rewrite bool_decide_eq_true, in_seq. split; [|done].
    destruct (decide (NCPU ≤ h)%nat) as [Hn|]; [|lia]. by rewrite (v_cpu s Hs h Hn) in H.
Qed.

(** A zombie that no hart runs has no children and nobody else refers to it. *)
Lemma inv_free s i : inv s → state (pool s i) = ZOMBIE → ¬ runs s i → inv (upd i freed s).
Proof.
  intros Hs Hz Hnr.
  assert (Hd : ctx (pool s i) = Dead ∧ p_lock (pool s i) = false).
  { pose proof (v_slot s Hs i) as H. unfold slot_ok in H. rewrite Hz in H. naive_solver. }
  destruct Hd as [Hd Hlk].
  assert (Hu : ∀ j, used (pool (upd i freed s) j) → used (pool s j) ∧ j ≠ i ∧ pool (upd i freed s) j = pool s j).
  { intros j. rewrite pool_upd. case_decide; [|done]. by intros []. }
  assert (Hk : ∀ j, ctx (pool (upd i freed s) j) = ctx (pool s j)) by (intros j; rewrite pool_upd; case_decide; by subst).
  assert (Hst : ∀ j x, x ≠ UNUSED → state (pool (upd i freed s) j) = x → state (pool s j) = x ∧ pool (upd i freed s) j = pool s j).
  { intros j x Hx. rewrite pool_upd. case_decide; [cbn; congruence|done]. }
  split; rewrite ?PID_upd, ?init_upd, ?plock_upd, ?harts_upd; try apply Hs.
  - intros j Hn. rewrite pool_upd. case_decide; [done|by apply Hs].
  - intros j. change (runs (upd i freed s) j) with (runs s j). rewrite pool_upd. case_decide; [subst|by apply Hs].
    unfold slot_ok. cbn. auto with lia.
  - intros h. setoid_rewrite Hk. apply Hs.
  - intros j (H & _ & ->)%Hu. by apply Hs.
  - intros j j' (H & _ & ->)%Hu (H' & _ & ->)%Hu. by apply Hs.
  - rewrite pool_upd. pose proof (v_init s Hs) as H. case_decide as E; [|done]. by rewrite E, Hz in H.
  - intros c j (H & _ & ->)%Hu Hp. pose proof (v_parent s Hs c j H Hp) as Hpr. unfold present in *. rewrite Hk, pool_upd.
    case_decide; [|done]. subst. rewrite Hz, Hd in Hpr. naive_solver.
  - intros c (H & _ & ->)%Hu Hp. setoid_rewrite Hk. by apply Hs.
  - intros j b c n. rewrite Hk. intros H. destruct (v_fork s Hs j b c n H) as (H1 & H2). rewrite pool_upd.
    case_decide; [subst; congruence|done].
  - intros j j' b b' c n n'. rewrite !Hk. apply Hs.
  - intros c [H _]%Hst; [|done]. setoid_rewrite Hk. by apply Hs.
  - intros j q c [H1 _]%Hst; [|done]. rewrite !Hk. intros H2 (H3 & H4). apply Hst in H3 as [H3 E]; [|done].
    rewrite E in H4. by apply (v_sleep s Hs j q c).
  - intros j q n hk fd c. rewrite !Hk. intros H1 H2 (H3 & H4). apply Hst in H3 as [H3 E]; [|done].
    rewrite E in H4. by apply (v_scan s Hs j q n hk fd c).
Qed.

(** What one iteration of the loop of [waitpid] or [waitid] does: nothing, the
    report of a continued child, or the collection of a zombie. *)
Definition stored_only (ev : list event) : Prop := Forall (λ e, ∃ p a v, e = Stored p a v) ev.
Definition child_step (s s' : sys) (me i : nat) (q : query) (v : verdict) (ev : list event) : Prop :=
  (s' = s ∧ (∀ hk fd, v = Go hk fd → ¬ child_wanted s me i q) ∧ stored_only ev) ∨
  ((∃ r, v = Return r) ∧ s' = upd i (set_continued 0) s ∧ stored_only ev) ∨
  ((∃ r, v = Return r) ∧ child_wanted s me i q ∧ on_hart s i = false ∧ s' = upd i freed s ∧
    ∃ ev', ev = ev' ++ [Reaped (pid (pool s me)) (pid (pool s i))] ∧ stored_only ev').

Lemma store_stored fault b a v ev : store fault b a v = Some ev → stored_only ev.
Proof. unfold store. repeat case_match; intros [= <-]; repeat constructor; eauto. Qed.

Lemma waitpid_child_step fault w a o me i hk fd s v s' ev :
  waitpid_child fault w a me i hk fd s = Ok (v, s', ev) → child_step s s' me i (WaitPid w a o) v ev.
Proof.
  assert (Hnil : stored_only []) by constructor.
  unfold waitpid_child, acquire. case_bool_decide as Hp.
  2:{ intros [= <- <- <-]. left. split_and!; [done| |done]. intros ? ? _ (_ & ? & _). done. }
  destruct (p_lock _); cbn; [done|]. destruct (orb _ _) eqn:Hw.
  2:{ intros [= <- <- <-]. left. split_and!; [done| |done]. intros ? ? _ (_ & _ & Hw'). cbn in Hw'.
      apply orb_false_iff in Hw as [?%Z.eqb_neq ?%Z.eqb_neq]. lia. }
  case_bool_decide as Hz.
  2:{ intros [= <- <- <-]. left. split_and!; [done| |done]. intros ? ? _ (? & _). done. }
  destruct (store _ _ _ _) as [ev'|] eqn:Est; [|intros [= <- <- <-]; left; split_and!; [done|done|done]].
  unfold freeproc. destruct (on_hart s i) eqn:Hon; cbn; [done|]. intros [= <- <- <-]. right. right.
  split_and!; [by eexists| |done|done|].
  - split_and!; [done|done|]. cbn. apply orb_true_iff in Hw as [?%Z.eqb_eq|?%Z.eqb_eq]; auto.
  - exists ev'. split; [done|by eapply store_stored].
Qed.

Lemma waitid_child_step fault t id a o me i hk s v s' ev :
  waitid_child fault t id a o me i hk s = Ok (v, s', ev) → child_step s s' me i (WaitId t id a o) v ev.
Proof.
  assert (Hnil : stored_only []) by constructor.
  unfold waitid_child, acquire. destruct (waitid_match t id me (pool s i)) eqn:Hm.
  2:{ intros [= <- <- <-]. left. split_and!; [done| |done]. intros ? ? _ (_ & Hp & Hw & _). revert Hm. unfold waitid_match.
      rewrite (bool_decide_true (parent _ = _)) by done. destruct Hw as [->|[[-> ->]|[-> ->]]]; cbn; by rewrite ?Z.eqb_refl. }
  assert (Hp : parent (pool s i) = Some me ∧ (t = P_ALL ∨ (t = P_PID ∧ pid (pool s i) = id) ∨ (t = P_PGID ∧ pgid (pool s i) = id))).
  { revert Hm. unfold waitid_match. repeat case_match; rewrite ?andb_true_iff, ?bool_decide_eq_true, ?Z.eqb_eq in *; naive_solver. }
  destruct (p_lock _); cbn; [done|]. destruct (andb (killed _ =? _) _) eqn:E1.
  { destruct (store _ _ _ _) as [ev'|] eqn:Est; intros [= <- <- <-]; left; split_and!; try done. by eapply store_stored. }
  destruct (andb (truthy _) _) eqn:E2.
  { destruct (store _ _ _ _) as [ev'|] eqn:Est; [|intros [= <- <- <-]; left; split_and!; done].
    destruct (has o WNOWAIT); intros [= <- <- <-]; [left|right; left]; split_and!; try done; try (by eapply store_stored).
    by eexists. }
  destruct (bool_decide_reflect (state (pool s i) = ZOMBIE)) as [Hz|Hz]; cbn [andb].
  2:{ intros [= <- <- <-]. left. split_and!; [done| |done]. intros ? ? _ (? & _). done. }
  destruct (orb _ _) eqn:E3.
  2:{ intros [= <- <- <-]. left. split_and!; [done| |done]. intros ? ? _ (_ & _ & _ & Hw). congruence. }
  destruct (store _ _ _ _) as [ev'|] eqn:Est; [|intros [= <- <- <-]; left; split_and!; done].
  destruct (has o WNOWAIT); [intros [= <- <- <-]; left; split_and!; try done; by eapply store_stored|].
  unfold freeproc. destruct (on_hart s i) eqn:Hon; cbn; [done|]. intros [= <- <- <-]. right. right.
  split_and!; [by eexists| |done|done|].
  - split_and!; [done|apply Hp|]. split; [apply Hp|done].
  - exists ev'. split; [done|by eapply store_stored].
Qed.

Lemma wait_child_step fault q me i hk fd s v s' ev :
  wait_child fault q me i hk fd s = Ok (v, s', ev) → child_step s s' me i q v ev.
Proof. destruct q; [apply waitpid_child_step|apply waitid_child_step]. Qed.

Lemma inv_wait_scan fault s s' h me q i hk fd ev :
  inv s → harts s h = Some me → ctx (pool s me) = WaitScan q i hk fd →
  wait_scan fault h me q i hk fd s = Ok (s', ev) → inv s'.
Proof.
  intros Hs Hh Hx. unfold wait_scan. case_match eqn:Hi.
  - intros ([[v s1] ev1] & Hc & H)%bind_Ok. apply wait_child_step in Hc.
    destruct Hc as [(-> & Hgo & _)|[((r & ->) & -> & _)|((r & ->) & (Hz & Hp & _) & Hon & -> & _)]].
    + destruct v as [hk' fd'|r]; injection H as <- <-; [|by apply (inv_wait_return s h me q i hk fd)].
      apply (inv_wait_next s h me q i hk fd); try done. intros Hw. by destruct (Hgo hk' fd' eq_refl).
    + injection H as <- <-. apply (inv_wait_return _ h me q i hk fd); [|done|].
      * apply (inv_quiet s); try done. intros j. rewrite pool_upd. case_decide; [subst|apply quiet_refl]. unfold quiet. cbn. auto 10.
      * rewrite pool_upd. case_decide; by subst.
    + injection H as <- <-. apply (inv_wait_return _ h me q i hk fd); [|done|].
      * apply inv_free; [done..|]. by apply on_hart_runs.
      * rewrite pool_upd. case_decide; by subst.
  - apply Nat.ltb_ge in Hi. case_match; [intros [= <- <-]; by apply (inv_wait_return s h me q i hk fd)|].
    intros (s1 & Hsl & [= <- <-])%bind_Ok. by apply (inv_wait_sleep s s1 h me q i hk fd).
Qed.

(** ** Births *)

(** The running process [me] takes the slot [np] for a child, or takes the
    child it is creating one step further; [p'] is the child then and [k'] the
    control point of [me]. *)
Record births (s s' : sys) (h me np : nat) (p' : proc) (k' : pc) : Prop := {
  b_hart : harts s h = Some me;
  b_ctx : active (ctx (pool s me)) ∧ locking (ctx (pool s me)) = false;
  b_ctx' : active k' ∧ locking k' = false;
  b_np : (np < NPROC)%nat;
  b_pool : ∀ j, pool s' j = if decide (j = me) then set_ctx k' (pool s me) else if decide (j = np) then p' else pool s j;
  b_rest : initproc s' = initproc s ∧ plock s' = plock s ∧ harts s' = harts s;
  b_old : (state (pool s np) = UNUSED ∧ forking (ctx (pool s me)) = None) ∨ (∃ b n, forking (ctx (pool s me)) = Some (b, np, n));
  b_pid : PID s ≤ PID s' ∧ 1 ≤ pid p' < PID s' ∧ (∀ j, used (pool s j) → pid (pool s j) = pid p' → j = np);
  b_child : ctx p' = Run 0 ∧ p_lock p' = false;
  b_new : (∃ b, forking k' = Some (b, np, pid p') ∧ state p' = USED ∧ parent p' = (if b then Some me else None)) ∨
    (forking k' = None ∧ state p' = RUNNABLE ∧ parent p' = Some me)
}.

Section birth.
Context (s s' : sys) (h me np : nat) (p' : proc) (k' : pc) (Hs : inv s) (B : births s s' h me np p' k').

Lemma birth_slot : (state (pool s np) = UNUSED ∨ state (pool s np) = USED) ∧ (state p' = USED ∨ state p' = RUNNABLE) ∧
  state (pool s me) = RUNNING ∧ p_lock (pool s me) = false ∧ np ≠ me ∧ ¬ runs s np ∧ forking (ctx (pool s np)) = None.
Proof using Hs B.
  destruct B as [Hh (Ha & _) _ _ _ _ Hold _ _ Hnew]. destruct (alive s h me Hs Hh Ha) as (Hr & Hlme & _).
  assert (Hst : state (pool s np) = UNUSED ∨ state (pool s np) = USED).
  { destruct Hold as [[? _]|(b & n & Hf)]; [by left|right]. by apply (v_fork s Hs) in Hf as (? & _). }
  pose proof (v_slot s Hs np) as H. unfold slot_ok in H.
  split_and!; [done|destruct Hnew as [(b & _ & ? & _)|(_ & ? & _)]; auto|done|done|intros ->; destruct Hst; congruence| |].
  - destruct Hst as [E|E]; rewrite E in H; naive_solver.
  - destruct Hst as [E|E]; rewrite E in H; [destruct H as (_ & _ & [-> | ->] & _)|destruct H as (_ & -> & _)]; done.
Qed.

Lemma birth_pool : pool s' me = set_ctx k' (pool s me) ∧ pool s' np = p' ∧
  (∀ j, j ≠ me → j ≠ np → pool s' j = pool s j) ∧ (∀ j, j = me ∨ j = np ∨ (j ≠ me ∧ j ≠ np)).
Proof using Hs B.
  destruct birth_slot as (_ & _ & _ & _ & Hne & _). pose proof (b_pool _ _ _ _ _ _ _ B) as EP.
  split_and!; [by rewrite EP, decide_True|by rewrite EP, decide_False, decide_True|intros j ? ?; by rewrite EP, !decide_False|].
  intros j. destruct (decide (j = me)), (decide (j = np)); auto.
Qed.

(** Processes other than [me] create other children. *)
Lemma birth_other j b c n : j ≠ me → forking (ctx (pool s' j)) = Some (b, c, n) →
  j ≠ np ∧ c ≠ np ∧ forking (ctx (pool s j)) = Some (b, c, n).
Proof using Hs B.
  destruct birth_pool as (Eme & Enp & Eo & Hcase). destruct B as [_ _ _ _ _ _ Hold _ (Hk & _) _]. intros Hj.
  destruct (Hcase j) as [->|[->|[_ Hj']]]; [done|by rewrite Enp, Hk|]. rewrite Eo by done. intros Hf.
  split_and!; try done. intros ->. destruct Hold as [[E _]|(b' & n' & Hf')].
  - apply (v_fork s Hs) in Hf as (? & _). congruence.
  - by destruct Hj; apply (v_fork1 s Hs j me b b' np n n').
Qed.

(** A process that creates a child other than [np] is not [me]. *)
Lemma birth_keeps i b c n : c ≠ np → forking (ctx (pool s i)) = Some (b, c, n) → forking (ctx (pool s' i)) = Some (b, c, n).
Proof using Hs B.
  destruct birth_pool as (_ & _ & Eo & Hcase). destruct birth_slot as (_ & _ & _ & _ & _ & _ & Hctx).
  destruct B as [_ _ _ _ _ _ Hold _ _ _]. intros Hc Hf. destruct (Hcase i) as [->|[->|[? ?]]]; [|congruence|by rewrite Eo].
  destruct Hold as [[_ E]|(b' & n' & E)]; congruence.
Qed.

Lemma birth_used j : used (pool s' j) →
  j = np ∨ (used (pool s j) ∧ pid (pool s' j) = pid (pool s j) ∧ parent (pool s' j) = parent (pool s j)).
Proof using Hs B.
  destruct birth_pool as (Eme & _ & Eo & Hcase). destruct birth_slot as (_ & _ & Hr & _).
  intros Hj. destruct (Hcase j) as [->|[->|[? ?]]]; [right|by left|right].
  - rewrite Eme. split; [|done]. unfold used. congruence.
  - rewrite Eo in Hj by done. by rewrite Eo.
Qed.

Lemma birth_wanted j q c : child_wanted s' j c q → pool s' c = pool s c ∧ child_wanted s j c q.
Proof using Hs B.
  destruct birth_pool as (Eme & Enp & Eo & Hcase). destruct birth_slot as (_ & Hst' & Hr & _).
  intros (H1 & H2 & H3). destruct (Hcase c) as [->|[->|[? ?]]].
  - rewrite Eme in H1. cbn in H1. congruence.
  - rewrite Enp in H1. destruct Hst'; congruence.
  - by rewrite Eo in H1, H2, H3 |- * by done.
Qed.

Lemma birth_plock h' : plock s' = Some h' ↔ ∃ i, harts s' h' = Some i ∧ locking (ctx (pool s' i)).
Proof using Hs B.
  destruct birth_pool as (Eme & _ & Eo & Hcase). destruct birth_slot as (_ & _ & _ & _ & _ & Hnr & _).
  destruct B as [_ (_ & Hl) (_ & Hl') _ _ (_ & -> & ->) _ _ _ _].
  assert (Hli : ∀ i, harts s h' = Some i → locking (ctx (pool s' i)) = locking (ctx (pool s i))).
  { intros i Hi. destruct (Hcase i) as [->|[->|[? ?]]]; [rewrite Eme; cbn; congruence|by destruct Hnr; exists h'|by rewrite Eo]. }
  rewrite (v_plock s Hs h'). split; intros (i & Hi & Hi'); exists i; (split; [done|]); [rewrite Hli|rewrite <- Hli]; done.
Qed.

Lemma birth_slots i : slot_ok (runs s' i) i (pool s' i).
Proof using Hs B.
  destruct birth_pool as (Eme & Enp & Eo & Hcase). destruct birth_slot as (_ & Hst' & Hr & Hlme & _ & Hnr & _).
  destruct B as [Hh _ (Ha' & _) _ _ (_ & _ & EH) _ _ (Hk & Hlk) _].
  unfold runs. rewrite EH. change (∃ h0, harts s h0 = Some i) with (runs s i).
  destruct (Hcase i) as [->|[->|[? ?]]]; [| |rewrite Eo by done; apply Hs].
  - rewrite Eme. unfold slot_ok. cbn. rewrite Hr. split_and!; [by exists h|done|done].
  - rewrite Enp. unfold slot_ok. destruct Hst' as [E|E]; rewrite E, Hk; done.
Qed.

Lemma birth_parent c j : used (pool s' c) → parent (pool s' c) = Some j → present s' c j.
Proof using Hs B.
  destruct birth_pool as (Eme & Enp & Eo & Hcase). destruct birth_slot as (Hst & _ & Hr & _ & Hne & _).
  pose proof (b_new _ _ _ _ _ _ _ B) as Hnew. intros Hc Hp. assert (Hj : present s c j ∧ j ≠ np ∨ j = me).
  { apply birth_used in Hc as [->|(Hc & _ & Ep)].
    - right. rewrite Enp in Hp. destruct Hnew as [([] & _ & _ & E)|(_ & _ & E)]; congruence.
    - left. rewrite Ep in Hp. pose proof (v_parent s Hs c j Hc Hp) as H. split; [done|]. intros ->.
      unfold present in H. destruct Hst as [E|E]; by rewrite E in H. }
  unfold present in *. destruct (Hcase j) as [->|[->|[? ?]]]; [by rewrite Eme; cbn; rewrite Hr|naive_solver|].
  rewrite Eo by done. naive_solver.
Qed.

Lemma birth_orphan c : used (pool s' c) → parent (pool s' c) = None →
  c = initproc s ∨ ∃ i n, forking (ctx (pool s' i)) = Some (false, c, n).
Proof using Hs B.
  destruct birth_pool as (Eme & Enp & _). pose proof (b_new _ _ _ _ _ _ _ B) as Hnew.
  intros Hc. destruct (decide (c = np)) as [->|Hcn].
  - rewrite Enp. intros Hp. right. exists me. rewrite Eme. cbn.
    destruct Hnew as [([] & Hf & _ & E)|(_ & _ & E)]; [congruence| |congruence]. eauto.
  - apply birth_used in Hc as [?|(Hc & _ & Ep)]; [done|]. rewrite Ep. intros Hp.
    destruct (v_orphan s Hs c Hc Hp) as [?|(i & n & Hf)]; [by left|right]. exists i, n. by apply birth_keeps.
Qed.

Lemma birth_fork i b c n : forking (ctx (pool s' i)) = Some (b, c, n) →
  state (pool s' c) = USED ∧ pid (pool s' c) = n ∧ parent (pool s' c) = (if b then Some i else None).
Proof using Hs B.
  destruct birth_pool as (Eme & Enp & Eo & _). destruct birth_slot as (_ & _ & Hr & _).
  pose proof (b_new _ _ _ _ _ _ _ B) as Hnew. intros Hf. destruct (decide (i = me)) as [->|Hi].
  - rewrite Eme in Hf. cbn in Hf. destruct Hnew as [(b' & E & E1 & E2)|(E & _)]; [|congruence].
    rewrite E in Hf. injection Hf as <- <- <-. by rewrite Enp.
  - apply birth_other in Hf as (_ & Hc & Hf); [|done]. apply (v_fork s Hs) in Hf as (H1 & H2).
    rewrite Eo; [done| |done]. intros ->. congruence.
Qed.

Lemma birth_fork1 i i' b b' c n n' : forking (ctx (pool s' i)) = Some (b, c, n) →
  forking (ctx (pool s' i')) = Some (b', c, n') → i = i'.
Proof using Hs B.
  destruct birth_pool as (Eme & _). pose proof (b_new _ _ _ _ _ _ _ B) as Hnew.
  assert (Hme : ∀ b0 n0, forking (ctx (pool s' me)) = Some (b0, c, n0) → c = np).
  { rewrite Eme. cbn. intros b0 n0 E'. destruct Hnew as [(b1 & E & _)|(E & _)]; congruence. }
  intros Hf Hf'. destruct (decide (i = me)) as [->|Hi], (decide (i' = me)) as [->|Hi']; [done| | |].
  - apply Hme in Hf. by apply birth_other in Hf' as (_ & ? & _).
  - apply Hme in Hf'. by apply birth_other in Hf as (_ & ? & _).
  - apply birth_other in Hf as (_ & _ & Hf); [|done]. apply birth_other in Hf' as (_ & _ & Hf'); [|done].
    by apply (v_fork1 s Hs i i' b b' c n n').
Qed.

Lemma birth_USED c : state (pool s' c) = USED → ∃ i b n, forking (ctx (pool s' i)) = Some (b, c, n).
Proof using Hs B.
  destruct birth_pool as (Eme & Enp & Eo & Hcase). destruct birth_slot as (_ & _ & Hr & _).
  pose proof (b_new _ _ _ _ _ _ _ B) as Hnew. intros Hc. destruct (Hcase c) as [->|[->|[? ?]]].
  - rewrite Eme in Hc. cbn in Hc. congruence.
  - rewrite Enp in Hc. destruct Hnew as [(b & E & _)|(_ & E & _)]; [|congruence]. exists me, b, (pid p'). by rewrite Eme.
  - rewrite Eo in Hc by done. destruct (v_used s Hs c Hc) as (i & b & n & Hf). exists i, b, n. by apply birth_keeps.
Qed.

Lemma inv_birth : inv s'.
Proof using Hs B.
  destruct birth_pool as (Eme & Enp & Eo & Hcase). destruct birth_slot as (Hst & Hst' & Hr & _).
  pose proof B as [_ _ (_ & Hl') Hn _ (EI & EL & EH) _ (HP & Hpid & Hfr) (Hk & _) _].
  split; rewrite ?EI; try apply Hs; try apply birth_slots; try apply birth_plock; try apply birth_parent; try apply birth_orphan;
    try apply birth_fork; try apply birth_fork1; try apply birth_USED; rewrite ?EH; try apply Hs.
  - intros i Hi. pose proof (v_bound s Hs i Hi) as E. destruct (Hcase i) as [->|[->|[? ?]]]; [congruence|lia|by rewrite Eo].
  - intros i [->|(H & -> & _)]%birth_used; [by rewrite Enp|]. pose proof (v_pid s Hs i H). lia.
  - intros i j [->|(H & -> & _)]%birth_used [->|(H' & -> & _)]%birth_used; rewrite ?Enp; [done| | |by apply Hs].
    + intros E. symmetry. by apply Hfr.
    + intros E. by apply Hfr.
  - pose proof (v_next s Hs). lia.
  - pose proof (v_init s Hs) as H. destruct (Hcase (initproc s)) as [E0|[E0|[? ?]]]; rewrite ?E0 in *;
      [rewrite Eme; cbn; by rewrite Hr|destruct Hst as [E|E]; by rewrite E in H|by rewrite Eo].
  - intros i q c H1 H2 (Ec & Hc)%birth_wanted. rewrite Ec. destruct (Hcase i) as [->|[->|[? ?]]].
    + rewrite Eme in H1. cbn in H1. congruence.
    + rewrite Enp in H1. destruct Hst'; congruence.
    + rewrite Eo in H1, H2 by done. by apply (v_sleep s Hs i q c).
  - intros i q n hk fd c H1 H2 (Ec & Hc)%birth_wanted. rewrite Ec. destruct (Hcase i) as [->|[->|[? ?]]].
    + rewrite Eme in H1. cbn in H1. by rewrite H1 in Hl'.
    + rewrite Enp in H1. congruence.
    + rewrite Eo in H1 by done. by apply (v_scan s Hs i q n hk fd c).
Qed.
End birth.

Lemma first_unused n i s o : find_unused n i s = Ok o →
  match o with
  | Some j => (i ≤ j < i + n)%nat ∧ state (pool s j) = UNUSED ∧ p_lock (pool s j) = false
  | None => True
  end.
Proof.
  revert i. induction n as [|n IH]; intros i; cbn; [by intros [= <-]|]. unfold acquire.
  destruct (p_lock (pool s i)) eqn:Hl; cbn; [done|]. case_bool_decide as E; [intros [= <-]; split_and!; [lia..|done|done]|].
  intros H%IH. destruct o; [|done]. destruct H as (? & ? & ?). split_and!; [lia..|done|done].
Qed.

(** [allocproc] changes one slot that was unused, or nothing. *)
Lemma allocproc_spec s o s' : 1 ≤ PID s → allocproc s = Ok (o, s') →
  initproc s' = initproc s ∧ plock s' = plock s ∧ harts s' = harts s ∧ PID s ≤ PID s' ∧
  match o with
  | None => (PID s' = PID s ∧ pool s' = pool s) ∨
      ∃ i, (i < NPROC)%nat ∧ state (pool s i) = UNUSED ∧ PID_MAX < PID s ∧ PID s < PID s' ∧
        ∀ j, pool s' j = if decide (j = i) then set_p_lock true (set_pid (-1) (pool s i)) else pool s j
  | Some i => (i < NPROC)%nat ∧ state (pool s i) = UNUSED ∧ p_lock (pool s i) = false ∧ PID s' = PID s + 1 ∧ PID s ≤ PID_MAX ∧
      ∀ j, pool s' j = if decide (j = i) then fresh (PID s) (pool s i) else pool s j
  end.
Proof.
  intros HP. unfold allocproc. intros (o' & Hf & H)%bind_Ok. apply first_unused in Hf. destruct o' as [i|].
  2:{ injection H as <- <-. do 3 (split; [done|]). split; [lia|by left]. }
  unfold allocpid in H. destruct Hf as (Hi & Hst & Hl). destruct (Z.ltb_spec PID_MAX (PID s)) as [Hp|Hp]; cbn in H.
  - injection H as <- <-. do 3 (split; [done|]). split; [rewrite PID_upd; cbn; lia|]. right. exists i. split_and!; [lia|done|done|rewrite PID_upd; cbn; lia|].
    intros j. by rewrite pool_upd.
  - rewrite (proj2 (Z.ltb_ge (PID s) 0)) in H by lia. injection H as <- <-. do 3 (split; [done|]). split; [rewrite PID_upd; cbn; lia|].
    split_and!; [lia|done|done|done|done|]. intros j. by rewrite pool_upd.
Qed.

(** When the numbers are used up. *)
Lemma inv_leak s s' i :
  inv s → state (pool s i) = UNUSED → (∀ j, pool s' j = if decide (j = i) then set_p_lock true (set_pid (-1) (pool s i)) else pool s j) →
  initproc s' = initproc s → plock s' = plock s → harts s' = harts s → PID s ≤ PID s' → inv s'.
Proof.
  intros Hs Hi EP EI EL EH HP.
  assert (Hu : ∀ j, used (pool s' j) → used (pool s j) ∧ pool s' j = pool s j).
  { intros j. rewrite EP. case_decide; [|done]. subst. by intros []. }
  assert (Hk : ∀ j, ctx (pool s' j) = ctx (pool s j)) by (intros j; rewrite EP; case_decide; by subst).
  assert (Hst : ∀ j, state (pool s' j) = state (pool s j)) by (intros j; rewrite EP; case_decide; by subst).
  assert (Hp : ∀ j, parent (pool s' j) = parent (pool s j)) by (intros j; rewrite EP; case_decide; by subst).
  assert (Hc : ∀ j c q, child_wanted s' j c q → child_wanted s j c q).
  { intros j c q. unfold child_wanted. rewrite EP. case_decide; [|done]. subst. cbn. naive_solver congruence. }
  split; rewrite ?EI, ?EL, ?EH; try apply Hs.
  - intros j Hn. rewrite Hst. by apply Hs.
  - intros j. unfold runs. rewrite EH. pose proof (v_slot s Hs j) as H. rewrite EP. case_decide; [subst|done].
    unfold slot_ok in *. cbn. rewrite Hi in *. naive_solver lia.
  - intros h. setoid_rewrite Hk. apply Hs.
  - intros j [H ->]%Hu. pose proof (v_pid s Hs j H). lia.
  - intros j j' [H ->]%Hu [H' ->]%Hu. by apply Hs.
  - pose proof (v_next s Hs). lia.
  - rewrite Hst. apply Hs.
  - intros c j [H ->]%Hu Hpj. unfold present. rewrite Hst, Hk. by apply Hs.
  - intros c [H ->]%Hu. setoid_rewrite Hk. by apply Hs.
  - intros j b c n. rewrite Hk, Hst, Hp. intros Hf. destruct (v_fork s Hs j b c n Hf) as (H1 & H2 & H3).
    split_and!; [done| |done]. rewrite EP. case_decide; [subst; congruence|done].
  - intros j j' b b' c n n'. rewrite !Hk. apply Hs.
  - intros c. rewrite Hst. setoid_rewrite Hk. apply Hs.
  - intros j q c. rewrite Hst, !Hk. intros H1 H2 H3%Hc. by apply (v_sleep s Hs j q c).
  - intros j q n hk fd c. rewrite !Hk. intros H1 H2 H3%Hc. by apply (v_scan s Hs j q n hk fd c).
Qed.

Lemma inv_fork s s' h me x :
  inv s → harts s h = Some me → ctx (pool s me) = Run x → fork me s = Ok s' → inv s'.
Proof.
  intros Hs Hh Hx. unfold fork. intros ([o s1] & Ha & H)%bind_Ok.
  apply allocproc_spec in Ha as (EI & EL & EH & HP & Ho); [|apply Hs]. destruct o as [np|].
  - injection H as <-. destruct Ho as (Hn & Hun & Hl & EN & _ & EP).
    destruct (alive s h me Hs Hh) as (Hr & _); [by rewrite Hx|]. assert (Hne : np ≠ me) by (intros ->; congruence).
    apply (inv_birth s _ h me np (fork_inherit (pool s me) (fresh (PID s) (pool s np))) (ForkLink np (PID s))); [done|].
    pose proof (v_next s Hs). split; try done; rewrite ?Hx; cbn; try done.
    + intros j. unfold goto. rewrite !pool_upd, !EP. repeat case_decide; subst; rewrite ?fn_lookup_insert; done.
    + by left.
    + unfold goto. rewrite !PID_upd, EN. split_and!; [lia..|]. intros j Hj%(v_pid s Hs). lia.
    + left. exists false. split_and!; [done..|]. pose proof (v_slot s Hs np) as H1. unfold slot_ok in H1. rewrite Hun in H1. naive_solver.
  - injection H as <-. assert (Hs1 : inv s1).
    { destruct Ho as [[EN EP]|(i & Hi & Hun & _ & _ & EP)].
      - apply (inv_quiet s); try done. intros i. rewrite EP. apply quiet_refl.
      - by apply (inv_leak s s1 i). }
    assert (Hx1 : ctx (pool s1 me) = Run x).
    { destruct Ho as [[EN EP]|(i & Hi & Hun & _ & _ & EP)]; rewrite EP; [done|]. case_decide; by subst. }
    apply (inv_goto s1 h); [done|congruence|by rewrite Hx1|done].
Qed.

Lemma inv_clone s s' h me x :
  inv s → harts s h = Some me → ctx (pool s me) = Run x → clone me s = Ok s' → inv s'.
Proof.
  intros Hs Hh Hx. unfold clone. intros ([o s1] & Ha & H)%bind_Ok.
  apply allocproc_spec in Ha as (EI & EL & EH & HP & Ho); [|apply Hs]. destruct o as [np|]; [|done].
  injection H as <-. destruct Ho as (Hn & Hun & Hl & EN & _ & EP).
  destruct (alive s h me Hs Hh) as (Hr & _); [by rewrite Hx|]. assert (Hne : np ≠ me) by (intros ->; congruence).
  apply (inv_birth s _ h me np
    (set_state RUNNABLE (clone_inherit (pool s me) (set_parent (Some me) (fresh (PID s) (pool s np))))) (Run (PID s))); [done|].
  pose proof (v_next s Hs). split; try done; rewrite ?Hx; cbn; try done.
  - intros j. unfold goto. rewrite !pool_upd, !EP.
    repeat case_decide; subst; rewrite ?fn_lookup_insert, ?fn_lookup_insert_ne, ?EP, ?decide_False by done; done.
  - by left.
  - unfold goto. rewrite !PID_upd, EN. split_and!; [lia..|]. intros j Hj%(v_pid s Hs). lia.
  - by right.
Qed.

Lemma inv_fork_link s s' h me np n :
  inv s → harts s h = Some me → ctx (pool s me) = ForkLink np n → fork_link h me np n s = Ok s' → inv s'.
Proof.
  intros Hs Hh Hx. unfold fork_link. destruct (plock s) eqn:Hpl; [done|]. intros [= <-].
  destruct (v_fork s Hs me false np n) as (Hu & Hp & Hpa); [by rewrite Hx|].
  assert (Hu' : used (pool s np)) by (unfold used; congruence). pose proof (v_slot s Hs np) as Hsl. unfold slot_ok in Hsl.
  rewrite Hu in Hsl. destruct (alive s h me Hs Hh) as (Hr & _); [by rewrite Hx|].
  apply (inv_birth s _ h me np (set_parent (Some me) (pool s np)) (ForkStart np n)); [done|].
  split; try done; rewrite ?Hx; cbn; try done.
  - destruct (decide (NPROC ≤ np)%nat) as [Hn|]; [|lia]. rewrite (v_bound s Hs np Hn) in Hu. done.
  - intros j. unfold goto. rewrite !pool_upd. repeat case_decide; subst; congruence.
  - right. eauto.
  - pose proof (v_pid s Hs np Hu'). unfold goto. rewrite !PID_upd. split_and!; [lia..|]. intros j Hj. by apply (v_pid1 s Hs).
  - naive_solver.
  - left. exists true. by rewrite Hp.
Qed.

Lemma inv_fork_start s s' h me np n :
  inv s → harts s h = Some me → ctx (pool s me) = ForkStart np n → fork_start me np n s = Ok s' → inv s'.
Proof.
  intros Hs Hh Hx. unfold fork_start. intros (_ & _ & [= <-])%bind_Ok.
  destruct (v_fork s Hs me true np n) as (Hu & Hp & Hpa); [by rewrite Hx|].
  assert (Hu' : used (pool s np)) by (unfold used; congruence). pose proof (v_slot s Hs np) as Hsl. unfold slot_ok in Hsl.
  rewrite Hu in Hsl. destruct (alive s h me Hs Hh) as (Hr & _); [by rewrite Hx|].
  apply (inv_birth s _ h me np (set_state RUNNABLE (pool s np)) (Run n)); [done|].
  split; try done; rewrite ?Hx; cbn; try done.
  - destruct (decide (NPROC ≤ np)%nat) as [Hn|]; [|lia]. rewrite (v_bound s Hs np Hn) in Hu. done.
  - intros j. unfold goto. rewrite !pool_upd. repeat case_decide; subst; congruence.
  - right. eauto.
  - pose proof (v_pid s Hs np Hu'). unfold goto. rewrite !PID_upd. split_and!; [lia..|]. intros j Hj. by apply (v_pid1 s Hs).
  - naive_solver.
  - by right.
Qed.

(** ** The scheduler *)

Lemma inv_enter s h i p' :
  inv s → harts s h = None → (h < NCPU)%nat → state (pool s i) = RUNNABLE →
  pid p' = pid (pool s i) ∧ pgid p' = pgid (pool s i) ∧ parent p' = parent (pool s i) ∧ p_lock p' = false →
  state p' = RUNNING → (ctx p' = ctx (pool s i) ∧ active (ctx p') ∨ ctx (pool s i) = Asleep (ctx p')) →
  ∀ s', (∀ j, pool s' j = if decide (j = i) then p' else pool s j) → PID s' = PID s → initproc s' = initproc s →
    plock s' = plock s → (∀ h', harts s' h' = if decide (h' = h) then Some i else harts s h') → inv s'.
Proof.
  intros Hs Hh Hn Hst (E1 & E2 & E3 & E4) Hr Hk s' EP EN EI EL EH.
  pose proof (v_slot s Hs i) as Hsl. unfold slot_ok in Hsl. rewrite Hst in Hsl. destruct Hsl as (Hnr & Hpk & Hlk).
  assert (Hk' : active (ctx p') ∧ locking (ctx p') = false ∧ forking (ctx p') = forking (ctx (pool s i))).
  { destruct Hk as [[-> Ha]|Hk]; [by destruct (ctx (pool s i))|]. rewrite Hk in *. by destruct (ctx p'). }
  destruct Hk' as (Ha & Hl & Hf).
  assert (Hnh : ∀ h', harts s h' ≠ Some i) by (intros h' H; destruct Hnr; by exists h').
  apply (inv_move s s' i p'); [done|]. split; try done; rewrite ?Hr, ?Hst; try done.
  - unfold slot_ok. rewrite Hr. split_and!; [|done|done]. exists h. by rewrite EH, decide_True.
  - intros h' Hn'. rewrite EH, decide_False by lia. by apply Hs.
  - intros h1 h2 j. rewrite !EH. destruct (decide (h1 = h)) as [->|], (decide (h2 = h)) as [->|]; [done| | |apply Hs].
    + intros [= <-] H. by destruct (Hnh h2).
    + intros H [= <-]. by destruct (Hnh h1).
  - intros j Hj. unfold runs. setoid_rewrite EH. split; intros (h' & H); exists h'; [case_decide; congruence|].
    rewrite decide_False; [done|congruence].
  - intros h'. rewrite EL, EH. setoid_rewrite EP. split.
    + intros (j & Hj & Hlj)%(v_plock s Hs). exists j. rewrite !decide_False; [done|intros ->; by apply (Hnh h')|congruence].
    + intros (j & Hj & Hlj). destruct (decide (h' = h)) as [->|]; [injection Hj as <-; rewrite decide_True in Hlj by done; by rewrite Hl in Hlj|].
      apply (v_plock s Hs). exists j. rewrite decide_False in Hlj; [done|intros ->; by apply (Hnh h')].
  - intros q n hk fd c E. by rewrite E in Hl.
Qed.

Lemma inv_scheduler s s' h i : inv s → harts s h = None → scheduler h i s = Ok s' → inv s'.
Proof.
  intros Hs Hh. unfold scheduler. destruct (_ && _) eqn:Hb; [|done]. apply andb_true_iff in Hb as [Hi%Nat.ltb_lt Hn%Nat.ltb_lt].
  unfold acquire. destruct (p_lock (pool s i)) eqn:Hlk; cbn; [done|]. case_bool_decide as Hst; [|by intros [= <-]].
  rewrite pool_with_hart, pool_upd, decide_True by done. cbn.
  pose proof (v_slot s Hs i) as Hsl. unfold slot_ok in Hsl. rewrite Hst in Hsl. destruct Hsl as (Hnr & Hpk & _).
  destruct (ctx (pool s i)) as [x|c n|c n| |m| | | |q|q m hk fd|k] eqn:Hk; try done; intros [= <-].
  5:{ apply (inv_enter s h i (set_ctx k (set_chan NoChan (set_state RUNNING (pool s i))))); try done; cbn; auto.
      - intros j. unfold goto. autorewrite with proc. by repeat case_decide; subst.
      - intros h'. unfold goto. autorewrite with proc. done. }
  all: apply (inv_enter s h i (set_state RUNNING (pool s i))); try done; cbn; auto; try (rewrite Hk; auto);
    intros j; autorewrite with proc; done.
Qed.

(** ** kill and reparent *)

Lemma kill_spec n i b me t sg s r s' : kill n i b me t sg s = Ok (r, s') →
  (∀ j, quiet (pool s j) (pool s' j)) ∧ PID s' = PID s ∧ initproc s' = initproc s ∧ plock s' = plock s ∧ harts s' = harts s.
Proof.
  revert i. induction n as [|n IH]; intros i; cbn; [intros [= <- <-]; split_and!; try done; intros; apply quiet_refl|].
  unfold acquire. destruct (p_lock _); cbn; [done|]. case_match; [|apply IH].
  case_match; intros [= <- <-]; split_and!; try done; intros j; [apply quiet_refl|].
  rewrite pool_upd. case_decide; [subst|apply quiet_refl]. unfold kill_one, quiet.
  repeat case_match; cbn; rewrite ?bool_decide_eq_true in *; cbn in *; auto 10.
Qed.

(** A child of an exiting process is given to init, which is not asleep. *)
Lemma inv_adopt s s' h me i :
  inv s → harts s h = Some me → ctx (pool s me) = Reparent i → parent (pool s i) = Some me →
  (∀ q, state (pool s (initproc s)) = SLEEPING → ctx (pool s (initproc s)) ≠ Asleep (WaitLock q)) →
  (∀ j, pool s' j = if decide (j = i) then set_parent (Some (initproc s)) (pool s i) else pool s j) →
  PID s' = PID s → initproc s' = initproc s → plock s' = plock s → harts s' = harts s → inv s'.
Proof.
  intros Hs Hh Hx Hp Hnosleep EP EN EI EL EH.
  destruct (exited s h me Hs Hh) as (Hz & _ & Hi & _); [by rewrite Hx|].
  assert (Hl : plock s = Some h) by (apply (v_plock s Hs); exists me; by rewrite Hx).
  assert (Hk : ∀ j, ctx (pool s' j) = ctx (pool s j)) by (intros j; rewrite EP; case_decide; by subst).
  assert (Hst : ∀ j, state (pool s' j) = state (pool s j)) by (intros j; rewrite EP; case_decide; by subst).
  assert (Hid : ∀ j, pid (pool s' j) = pid (pool s j)) by (intros j; rewrite EP; case_decide; by subst).
  assert (Hu : ∀ j, used (pool s' j) ↔ used (pool s j)) by (intros j; unfold used; by rewrite Hst).
  assert (Hpar : ∀ j, j ≠ i → parent (pool s' j) = parent (pool s j)) by (intros j ?; by rewrite EP, decide_False).
  assert (Hpi : parent (pool s' i) = Some (initproc s)) by (by rewrite EP, decide_True).
  assert (Hc : ∀ j c q, child_wanted s' j c q → child_wanted s j c q ∨ (c = i ∧ j = initproc s)).
  { intros j c q (H1 & H2 & H3). destruct (decide (c = i)) as [->|]; [right; split; congruence|left].
    rewrite EP, decide_False in H1, H2, H3 by done. done. }
  split; rewrite ?EN, ?EI, ?EL, ?EH; try apply Hs.
  - intros j Hn. rewrite Hst. by apply Hs.
  - intros j. unfold runs. rewrite EH. pose proof (v_slot s Hs j) as H. rewrite EP. case_decide as E; [subst j|done].
    revert H. unfold slot_ok, runs. cbn. destruct (state (pool s i)); try done. rewrite Hp. naive_solver.
  - intros h'. setoid_rewrite Hk. apply Hs.
  - intros j. rewrite Hu, Hid. apply Hs.
  - intros j j'. rewrite !Hu, !Hid. apply Hs.
  - rewrite Hst. apply Hs.
  - intros c j. rewrite Hu. intros H Hpj. unfold present. rewrite Hst, Hk. destruct (decide (c = i)) as [->|].
    + rewrite Hpi in Hpj. injection Hpj as <-. pose proof (v_init s Hs). by destruct (state (pool s (initproc s))).
    + rewrite Hpar in Hpj by done. by apply Hs.
  - intros c. rewrite Hu. setoid_rewrite Hk. destruct (decide (c = i)) as [->|]; [by rewrite Hpi|]. rewrite Hpar by done. apply Hs.
  - intros j b c n. rewrite Hk, Hst, Hid. intros Hf. destruct (v_fork s Hs j b c n Hf) as (H1 & H2 & H3).
    split_and!; [done..|]. rewrite Hpar; [done|]. intros ->. destruct b; [|congruence]. assert (j = me) as -> by congruence.
    by rewrite Hx in Hf.
  - intros j j' b b' c n n'. rewrite !Hk. apply Hs.
  - intros c. rewrite Hst. setoid_rewrite Hk. apply Hs.
  - intros j q c. rewrite Hst, !Hk. intros H1 H2 [H3|[-> ->]]%Hc; [by apply (v_sleep s Hs j q c)|].
    by destruct (Hnosleep q H1).
  - intros j q n hk fd c. rewrite !Hk. intros H1 H2 [H3|[-> ->]]%Hc; [by apply (v_scan s Hs j q n hk fd c)|].
    destruct (scanner s _ q n hk fd Hs H1) as (h' & ? & ?). congruence.
Qed.

Lemma inv_reparent s s' h me i :
  inv s → harts s h = Some me → ctx (pool s me) = Reparent i → reparent me i s = Ok s' → inv s'.
Proof.
  intros Hs Hh Hx. unfold reparent. case_match eqn:Hi.
  2:{ intros [= <-]. apply Nat.ltb_ge in Hi. by apply (inv_reparent_end s h me i). }
  intros (s1 & H1 & [= <-])%bind_Ok. case_bool_decide as Hp; [|injection H1 as <-; by apply (inv_reparent_skip s h)].
  destruct (exited s h me Hs Hh) as (Hz & _ & Hne & _); [by rewrite Hx|].
  apply wakeup_spec in H1 as (Hq & Hme & Hno & EN & EI & EL & EH).
  set (s2 := with_pool (λ j, set_parent (parent (pool s j)) (pool s1 j)) s).
  assert (Hq2 : ∀ j, quiet (pool s j) (pool s2 j)).
  { intros j. specialize (Hq j). rewrite pool_upd in Hq. unfold quiet in *. cbn. case_decide; [subst|]; naive_solver. }
  assert (Hk2 : ∀ j, ctx (pool s2 j) = ctx (pool s j)) by (intros j; apply Hq2).
  assert (Hs2 : inv s2) by (by apply (inv_quiet s)).
  apply (inv_reparent_skip _ h); [apply (inv_adopt s2 s1 h me i); try done| | |].
  - by rewrite Hk2.
  - intros q Hsl Hk. cbn in Hsl. apply (Hno (initproc s)); [congruence| |done].
    rewrite Hk2 in Hk. change (initproc s2) with (initproc s) in *. pose proof (v_slot s Hs (initproc s)) as Hok.
    assert (Es : state (pool s (initproc s)) = SLEEPING).
    { destruct (Hq2 (initproc s)) as (_ & _ & _ & _ & _ & _ & [<-|[? _]]); done. }
    unfold slot_ok in Hok. rewrite Es, Hk in Hok. rewrite pool_upd.
    destruct Hok as (_ & _ & [(q' & _ & Hc)|(? & ? & ? & _)]); [|done]. case_decide as Ei; [subst; cbn|]; congruence.
  - intros j. cbn. specialize (Hq j). rewrite pool_upd in Hq. destruct Hq as (_ & Hpj & _).
    case_decide; [subst|]; cbn in Hpj; rewrite <- Hpj; by destruct (pool s1 _).
  - by rewrite EH.
  - rewrite Hme, pool_upd. case_decide; by subst.
  - destruct (Hq i) as (_ & -> & _). rewrite pool_upd, decide_True by done. cbn. congruence.
Qed.

End Proc.
