(* ===== verification/ProcSpec.v ===== *)
(** * Properties of processes

    For every interleaving of sections on any number of harts, from the state
    [init_process] leaves: the process table stays consistent, no wake-up of a
    waiting parent is lost, every process that exits is collected at most once
    and reported with the code it exited with.  With one hart no section has an
    undefined effect; with two, a child can be collected while it still runs
    in [exit]. *)

From stdpp Require Import functions.
From S2P Require Import Prelude ProcDefs Proc.
Import ProcDefs Proc.

Module ProcSpec.

(** ** Every section keeps the invariant *)

Lemma inv_next fault h me s s' ev : inv s → harts s h = Some me → next fault h me s = Ok (s', ev) → inv s'.
Proof.
  intros Hs Hh. unfold next. destruct (ctx (pool s me)) eqn:Hx; try done; cbn; intros H.
  all: try (apply bind_Ok in H as (s1 & H & [= <- <-])).
  - by apply (inv_fork_link s s1 h me np npid).
  - by apply (inv_fork_start s s1 h me np npid).
  - by apply (inv_exit_lock s s1 h me).
  - by apply (inv_reparent s s1 h me i).
  - by apply (inv_exit_wake s s1 h me).
  - by apply (inv_exit_sched s s1 h me).
  - by apply (inv_wait_lock s s1 h me q).
  - by apply (inv_wait_scan fault s s' h me q i havekids found ev).
Qed.

Lemma inv_call a h me s s' ev x :
  inv s → harts s h = Some me → ctx (pool s me) = Run x → call a h me s = Ok (s', ev) → inv s'.
Proof.
  intros Hs Hh Hx. unfold call. destruct a; intros H; try done.
  - apply bind_Ok in H as (s1 & H & [= <- <-]). by apply (inv_fork s s1 h me x).
  - apply bind_Ok in H as (s1 & H & [= <- <-]). by apply (inv_clone s s1 h me x).
  - by apply (inv_exit s s' h me x code ev).
  - injection H as <- <-. unfold wait_start. case_match; apply (inv_goto s h); by rewrite ?Hx.
  - case_match; [|done]. apply bind_Ok in H as ([r s1] & H & [= <- <-]).
    apply kill_spec in H as (Hq & E1 & E2 & E3 & E4). assert (Hs1 : inv s1) by (by apply (inv_quiet s)).
    apply (inv_goto s1 h); [done|by rewrite E4| |done]. destruct (Hq me) as (_ & _ & _ & _ & -> & _). by rewrite Hx.
  - apply bind_Ok in H as (s1 & H & [= <- <-]). by apply (inv_sleep_other s s1 h me a x).
  - apply bind_Ok in H as (s1 & H & [= <- <-]). apply bind_Ok in H as (s2 & H & [= <-]).
    pose proof (inv_wakeup _ _ _ _ Hs H) as Hs2. apply wakeup_spec in H as (_ & Hme & _ & _ & _ & _ & EH).
    apply (inv_goto s2 h); [done|by rewrite EH|by rewrite Hme, Hx|done].
Qed.

Lemma inv_exec h a s s' ev : inv s → exec h a s = Ok (s', ev) → inv s'.
Proof.
  intros Hs. unfold exec. destruct (harts s h) as [me|] eqn:Hh.
  - assert (Hcall : match ctx (pool s me) with Run _ => call a h me s | _ => NoFuel end = Ok (s', ev) → inv s').
    { destruct (ctx (pool s me)) eqn:Hx; try done. intros H. by apply (inv_call a h me s s' ev r). }
    destruct a; try exact Hcall.
    + intros (s1 & H & [= <- <-])%bind_Ok. by apply (inv_timer s s1 h me).
    + apply inv_next; done.
  - destruct a; try done. intros (s1 & H & [= <- <-])%bind_Ok. by apply (inv_scheduler s s1 h i).
Qed.

Lemma boot_spec : pool boot 0%nat = set_state RUNNABLE (fresh 1 unused_slot) ∧
  (∀ i, i ≠ 0%nat → pool boot i = unused_slot) ∧ PID boot = 2 ∧ initproc boot = 0%nat ∧ plock boot = None ∧ ∀ h, harts boot h = None.
Proof.
  split_and!; try reflexivity. intros i Hi.
  change (pool boot i) with (<[0%nat := set_state RUNNABLE (fresh 1 unused_slot)]>
    (<[0%nat := fresh 1 unused_slot]> (λ _ : nat, unused_slot)) i).
  by rewrite !fn_lookup_insert_ne.
Qed.

Lemma inv_boot : inv boot.
Proof.
  destruct boot_spec as (E0 & Eo & EN & EI & EL & EH).
  assert (Hst : ∀ i, state (pool boot i) = RUNNABLE ∧ i = 0%nat ∨ pool boot i = unused_slot).
  { intros i. destruct (decide (i = 0%nat)) as [->|]; [left; by rewrite E0|right; by apply Eo]. }
  assert (Hk : ∀ i, ctx (pool boot i) = Run 0) by (intros i; destruct (Hst i) as [[_ ->]|E]; [by rewrite E0|by rewrite E]).
  assert (Hp : ∀ i, parent (pool boot i) = None) by (intros i; destruct (Hst i) as [[_ ->]|E]; [by rewrite E0|by rewrite E]).
  assert (Hu : ∀ i, used (pool boot i) → i = 0%nat) by (intros i; destruct (Hst i) as [[_ ->]|E]; [done|rewrite E; by intros []]).
  assert (Hr : ∀ i, ¬ runs boot i) by (intros i (h & H); by rewrite EH in H).
  split; rewrite ?EN, ?EI, ?EL.
  - intros i Hn. rewrite Eo; [done|unfold NPROC in Hn; lia].
  - intros h _. apply EH.
  - intros h h' i H. by rewrite EH in H.
  - intros i. destruct (Hst i) as [[_ ->]|E]; [rewrite E0|rewrite E]; unfold slot_ok; cbn; auto with lia.
  - intros h. setoid_rewrite EH. naive_solver.
  - intros i ->%Hu. rewrite E0. cbn. lia.
  - by intros i j ->%Hu ->%Hu.
  - lia.
  - by rewrite E0.
  - intros c j _. by rewrite Hp.
  - intros c ->%Hu _. by left.
  - intros i b c n. by rewrite Hk.
  - intros i i' b b' c n n'. by rewrite Hk.
  - intros c. destruct (Hst c) as [[-> _]|E]; [done|by rewrite E].
  - intros i q c. by rewrite Hk.
  - intros i q n hk fd c. by rewrite Hk.
Qed.

Lemma inv_run l s0 s ev : inv s0 → run l s0 = Ok (s, ev) → inv s.
Proof.
  revert s0 ev. induction l as [|[h a] l IH]; intros s0 ev Hs; cbn; [by intros [= <- <-]|].
  intros ([s1 ev1] & H1 & ([s2 ev2] & H2 & [= <- <-])%bind_Ok)%bind_Ok. eapply IH; [|done]. by eapply inv_exec.
Qed.

(** ** What a section does to the lives of processes *)

(** The process goes on: same number, a zombie stays one with its code. *)
Definition life (p p' : proc) : Prop :=
  (used p' ↔ used p) ∧ (used p → pid p' = pid p) ∧ (state p' = ZOMBIE ↔ state p = ZOMBIE) ∧
  (state p = ZOMBIE → exit_state p' = exit_state p) ∧ p_lock p' = p_lock p.

Lemma life_refl p : life p p.
Proof. by unfold life. Qed.
Lemma life_trans p q r : life p q → life q r → life p r.
Proof. unfold life. intros (A1 & A2 & A3 & A4 & A5) (B1 & B2 & B3 & B4 & B5).
  split_and!; intros; [tauto|rewrite B2; tauto|tauto|rewrite B4; tauto|congruence].
Qed.

Lemma life_upd i f s : life (pool s i) (f (pool s i)) → ∀ j, life (pool s j) (pool (upd i f s) j).
Proof. intros H j. rewrite pool_upd. case_decide; [by subst|apply life_refl]. Qed.

(** A process in use that is not a zombie, in another such state. *)
Lemma life_state p p' : pid p' = pid p → p_lock p' = p_lock p →
  match state p with UNUSED | ZOMBIE => False | _ => True end →
  match state p' with UNUSED | ZOMBIE => False | _ => True end → life p p'.
Proof. unfold life, used. intros -> ->. destruct (state p), (state p'); try done; split_and!; intros; done. Qed.

Lemma life_fields p p' : pid p' = pid p → state p' = state p → exit_state p' = exit_state p → p_lock p' = p_lock p → life p p'.
Proof. unfold life, used. intros -> -> -> ->. done. Qed.

Lemma life_goto me k s j : life (pool s j) (pool (goto me k s) j).
Proof. apply life_upd. by apply life_fields. Qed.

Lemma wakeup_life c me s s' : wakeup c me s = Ok s' → ∀ j, life (pool s j) (pool s' j).
Proof.
  unfold wakeup. case_match; [done|]. intros [= <-] j. cbn. destruct (bool_decide (j ≠ me)); cbn; [|apply life_refl].
  case_bool_decide as E; cbn; [|apply life_refl]. case_match; [|apply life_refl]. apply life_state; [done|done|by rewrite E|done].
Qed.

Lemma kill_life n i b me t sg s r s' : kill n i b me t sg s = Ok (r, s') → ∀ j, life (pool s j) (pool s' j).
Proof.
  revert i. induction n as [|n IH]; intros i; cbn; [intros [= <- <-] j; apply life_refl|].
  unfold acquire. destruct (p_lock _); cbn; [done|]. case_match; [|apply IH].
  case_match; intros [= <- <-]; [intros j; apply life_refl|]. apply life_upd. unfold kill_one. set (p := pool s i).
  set (p1 := if andb (sg =? SIGCONT) _ then _ else _). assert (H1 : pid p1 = pid p ∧ state p1 = state p ∧ exit_state p1 = exit_state p ∧ p_lock p1 = p_lock p).
  { unfold p1. repeat case_match; done. }
  destruct H1 as (H1 & H2 & H3 & H4). case_bool_decide as E; [|by apply life_fields].
  apply life_state; [done|done|by rewrite <- H2, E|done].
Qed.

(** [sched] and what is built on it. *)
Lemma sched_life h me k s s' : sched h me k s = Ok s' → ∀ j, life (pool s j) (pool s' j).
Proof. unfold sched. intros H j. case_match; try done; injection H as <-; rewrite pool_with_hart; apply life_goto. Qed.

(** The processes that exited, with their codes, and those collected. *)
Definition exits (ev : list event) : list (Z * Z) :=
  omap (λ e, match e with Exited p c => Some (p, c) | _ => None end) ev.
Definition reaps (ev : list event) : list Z :=
  omap (λ e, match e with Reaped _ c => Some c | _ => None end) ev.

(** A section in which nobody exits or is collected; processes can be born. *)
Definition continues (s s' : sys) (ev : list event) : Prop :=
  exits ev = [] ∧ reaps ev = [] ∧ PID s ≤ PID s' ∧
  ∀ i, life (pool s i) (pool s' i) ∨
    (¬ used (pool s i) ∧ used (pool s' i) ∧ state (pool s' i) ≠ ZOMBIE ∧ PID s ≤ pid (pool s' i) ∧
      p_lock (pool s' i) = p_lock (pool s i)) ∨
    (¬ used (pool s i) ∧ ¬ used (pool s' i) ∧ PID_MAX < PID s ∧ PID s < PID s').
Definition ends (s s' : sys) (ev : list event) : Prop :=
  ∃ me code, exits ev = [(pid (pool s me), code)] ∧ reaps ev = [] ∧ PID s ≤ PID s' ∧
    used (pool s me) ∧ state (pool s me) ≠ ZOMBIE ∧
    state (pool s' me) = ZOMBIE ∧ pid (pool s' me) = pid (pool s me) ∧ exit_state (pool s' me) = code ∧
    p_lock (pool s' me) = p_lock (pool s me) ∧ ∀ i, i ≠ me → life (pool s i) (pool s' i).
Definition collects (s s' : sys) (ev : list event) : Prop :=
  ∃ c, exits ev = [] ∧ reaps ev = [pid (pool s c)] ∧ PID s ≤ PID s' ∧
    state (pool s c) = ZOMBIE ∧ ¬ used (pool s' c) ∧ p_lock (pool s' c) = p_lock (pool s c) ∧
    ∀ i, i ≠ c → life (pool s i) (pool s' i).

Lemma continues_life s s' : PID s' = PID s → (∀ j, life (pool s j) (pool s' j)) → continues s s' [].
Proof. intros E H. split_and!; [done..|lia|]. auto. Qed.

Lemma allocproc_USED s np s1 : inv s → allocproc s = Ok (Some np, s1) → state (pool s1 np) = USED.
Proof.
  intros Hs Ha. apply allocproc_spec in Ha as (_ & _ & _ & _ & _ & _ & _ & _ & _ & EP); [|apply Hs]. by rewrite EP, decide_True.
Qed.

(** A section that takes the slot [np] for a new process. *)
Lemma born_life s s' s1 np :
  inv s → allocproc s = Ok (Some np, s1) → PID s' = PID s1 → pid (pool s' np) = pid (pool s1 np) → p_lock (pool s' np) = p_lock (pool s1 np) →
  (state (pool s' np) = USED ∨ state (pool s' np) = RUNNABLE) → (∀ j, j ≠ np → life (pool s1 j) (pool s' j)) → continues s s' [].
Proof.
  intros Hs Ha EN Hp Hlk Hst Hl. apply allocproc_spec in Ha as (_ & _ & _ & HP & _ & Hun & _ & _ & _ & EP); [|apply Hs].
  split_and!; [done..|lia|]. intros i. destruct (decide (i = np)) as [->|Hi].
  - right. left. rewrite EP, decide_True in Hp, Hlk by done. cbn in Hp, Hlk. unfold used. rewrite Hun, Hp.
    split_and!; [tauto|destruct Hst; congruence..|lia|done].
  - left. specialize (Hl i Hi). by rewrite EP, decide_False in Hl.
Qed.

Lemma stored_nothing ev : stored_only ev → exits ev = [] ∧ reaps ev = [].
Proof. induction 1 as [|e ev (p & a & v & ->) _ [IH1 IH2]]; [done|]. split; [exact IH1|exact IH2]. Qed.

Lemma child_life s s1 s' me i q v ev :
  child_step s s1 me i q v ev → (∀ j, life (pool s1 j) (pool s' j)) → PID s' = PID s1 → continues s s' ev ∨ collects s s' ev.
Proof.
  intros [(-> & _ & Hst)|[(_ & -> & Hst)|(_ & (Hz & _) & _ & -> & ev' & -> & Hst)]] Hl EN;
    apply stored_nothing in Hst as [H1 H2]; [left; split_and!; [done..|lia|auto]| |].
  - left. rewrite PID_upd in EN. split_and!; [done..|lia|]. intros j. left. eapply life_trans; [|apply Hl].
    apply life_upd. by apply life_fields.
  - right. exists i. rewrite PID_upd in EN. unfold exits, reaps in *. rewrite !omap_app, H1, H2. split_and!; [done..|lia|done| | |].
    + intros Hu. destruct (Hl i) as (Hu' & _). apply Hu' in Hu. rewrite pool_upd, decide_True in Hu by done. by destruct Hu.
    + destruct (Hl i) as (_ & _ & _ & _ & ->). by rewrite pool_upd, decide_True.
    + intros j Hj. eapply life_trans; [|apply Hl]. rewrite pool_upd, decide_False by done. apply life_refl.
Qed.

Lemma next_life fault h me s s' ev : inv s → harts s h = Some me → next fault h me s = Ok (s', ev) →
  continues s s' ev ∨ collects s s' ev.
Proof.
  intros Hs Hh. unfold next. destruct (ctx (pool s me)) eqn:Hx; try done; intros H.
  all: try (apply bind_Ok in H as (s1 & H & [= <- <-])).
  - left. unfold fork_link in H. destruct (plock s); [done|]. injection H as <-. apply continues_life; [done|].
    intros j. eapply life_trans; [|apply life_goto]. apply life_upd. by apply life_fields.
  - left. unfold fork_start in H. apply bind_Ok in H as (_ & _ & [= <-]). apply continues_life; [done|].
    intros j. eapply life_trans; [|apply life_goto]. apply life_upd.
    destruct (v_fork s Hs me true np npid) as (Hu & _); [by rewrite Hx|]. apply life_state; [done|done|by rewrite Hu|done].
  - left. unfold exit_lock in H. destruct (plock s); [done|]. injection H as <-. apply continues_life; [done|].
    intros j. apply (life_goto me _ (with_plock (Some h) s)).
  - left. unfold reparent in H. case_match; [|injection H as <-; apply continues_life; [done|intros; apply life_goto]].
    apply bind_Ok in H as (s2 & H & [= <-]). case_bool_decide.
    + pose proof (wakeup_spec _ _ _ _ H) as (_ & _ & _ & EN & _). apply continues_life; [done|]. intros j.
      eapply life_trans; [|apply life_goto]. eapply life_trans; [|by eapply wakeup_life]. apply life_upd. by apply life_fields.
    + injection H as <-. apply continues_life; [done|intros; apply life_goto].
  - left. unfold exit_wake in H. apply bind_Ok in H as (s2 & H & [= <-]).
    pose proof (wakeup_spec _ _ _ _ H) as (_ & _ & _ & EN & _). apply continues_life; [done|]. intros j.
    eapply life_trans; [by eapply wakeup_life|]. apply (life_goto me _ (with_plock None s2)).
  - left. unfold exit_sched in H. apply bind_Ok in H as (_ & _ & H). apply continues_life; [|by eapply sched_life].
    unfold sched in H. case_match; try done; by injection H as <-.
  - left. unfold wait_lock in H. destruct (plock s); [done|]. injection H as <-. apply continues_life; [done|].
    intros j. apply (life_goto me _ (with_plock (Some h) s)).
  - unfold wait_scan in H. case_match.
    + apply bind_Ok in H as ([[v s1] ev1] & H & H'). apply wait_child_step in H.
      assert (Hs' : ev = ev1 ∧ PID s' = PID s1 ∧ ∀ j, life (pool s1 j) (pool s' j)).
      { destruct v; injection H' as <- <-; (do 2 (split; [done|])); intros j;
          [apply life_goto|apply (life_goto me _ (with_plock None s1))]. }
      destruct Hs' as (-> & EN & Hs'). by apply (child_life s s1 s' me i q v ev1).
    + left. destruct (wait_end _ _ _ _); [injection H as <- <-; apply continues_life; [done|]; intros j;
        apply (life_goto me _ (with_plock None s))|]. apply bind_Ok in H as (s1 & H & [= <- <-]).
      unfold sleep_on_chan in H. apply bind_Ok in H as (_ & _ & H). apply continues_life.
      * unfold sched in H. case_match; try done; by injection H as <-.
      * intros j. eapply life_trans; [|by eapply sched_life].
        destruct (alive s h me Hs Hh) as (Hr & _); [by rewrite Hx|].
        apply (life_upd me _ (with_plock None s)). apply life_state; cbn; [done|done|by rewrite Hr|done].
Qed.

Lemma call_life a h me s s' ev x :
  inv s → harts s h = Some me → ctx (pool s me) = Run x → call a h me s = Ok (s', ev) → continues s s' ev ∨ ends s s' ev.
Proof.
  intros Hs Hh Hx. destruct (alive s h me Hs Hh) as (Hr & Hlk & _); [by rewrite Hx|].
  unfold call. destruct a; intros H; try done.
  - left. apply bind_Ok in H as (s1 & H & [= <- <-]). unfold fork in H. apply bind_Ok in H as ([[np|] s2] & Ha & H).
    + injection H as <-. apply (born_life s _ s2 np); try done.
      1-2: unfold goto; rewrite !pool_upd; repeat case_decide; by subst.
      * left. pose proof (allocproc_USED s np s2 Hs Ha). unfold goto. rewrite !pool_upd. repeat case_decide; by subst.
      * intros j Hj. eapply life_trans; [|apply life_goto]. rewrite pool_upd, decide_False by done. apply life_refl.
    + injection H as <-. apply allocproc_spec in Ha as (_ & _ & _ & HP & Ho); [|apply Hs]. split_and!; [done..|].
      intros j. destruct Ho as [[_ EP]|(i & _ & Hun & Hmax & HP' & EP)]; [left; rewrite <- EP; apply life_goto|].
      destruct (decide (j = i)) as [->|Hj]; [right; right|left; eapply life_trans; [|apply life_goto]; rewrite EP, decide_False by done; apply life_refl].
      unfold goto. rewrite !pool_upd, !EP, !(decide_True (P := i = i)) by done. unfold used. split_and!; [tauto| |done|done].
      case_decide; [subst|]; rewrite ?decide_True by done; cbn; tauto.
  - left. apply bind_Ok in H as (s1 & H & [= <- <-]). unfold clone in H. apply bind_Ok in H as ([[np|] s2] & Ha & H); [|done].
    injection H as <-. apply (born_life s _ s2 np); try done.
    1-2: unfold goto; rewrite !pool_upd; repeat case_decide; by subst.
    + right. unfold goto. rewrite !pool_upd. repeat case_decide; by subst.
    + intros j Hj. eapply life_trans; [|apply life_goto]. rewrite !pool_upd, !decide_False by done. apply life_refl.
  - right. unfold exit in H. case_bool_decide; [done|]. apply bind_Ok in H as (_ & _ & [= <- <-]).
    unfold goto. exists me, code. rewrite !pool_upd, !decide_True by done. cbn. split_and!; try done.
    { by rewrite fn_lookup_insert. }
    1-2: unfold used; congruence.
    intros i Hi. rewrite !pool_upd, !decide_False by done. apply life_refl.
  - left. injection H as <- <-. apply continues_life; unfold wait_start; case_match; try done; intros; apply life_goto.
  - left. case_match; [|done]. apply bind_Ok in H as ([r s1] & H & [= <- <-]).
    pose proof (kill_spec _ _ _ _ _ _ _ _ _ H) as (_ & EN & _). apply continues_life; [done|]. intros j.
    eapply life_trans; [by eapply kill_life|apply life_goto].
  - left. apply bind_Ok in H as (s1 & H & [= <- <-]). unfold sleep_on_chan in H. apply bind_Ok in H as (_ & _ & H).
    apply continues_life; [unfold sched in H; case_match; try done; by injection H as <-|]. intros j.
    eapply life_trans; [|by eapply sched_life]. apply life_upd. apply life_state; cbn; [done|done|by rewrite Hr|done].
  - left. apply bind_Ok in H as (s1 & H & [= <- <-]). apply bind_Ok in H as (s2 & H & [= <-]).
    pose proof (wakeup_spec _ _ _ _ H) as (_ & _ & _ & EN & _). apply continues_life; [done|]. intros j.
    eapply life_trans; [by eapply wakeup_life|apply life_goto].
Qed.

Lemma exec_life h a s s' ev : inv s → exec h a s = Ok (s', ev) → continues s s' ev ∨ ends s s' ev ∨ collects s s' ev.
Proof.
  intros Hs. unfold exec. destruct (harts s h) as [me|] eqn:Hh.
  - assert (Hcall : match ctx (pool s me) with Run _ => call a h me s | _ => NoFuel end = Ok (s', ev) →
      continues s s' ev ∨ ends s s' ev ∨ collects s s' ev).
    { destruct (ctx (pool s me)) eqn:Hx; try done. intros H. destruct (call_life a h me s s' ev r); tauto. }
    destruct a; try exact Hcall.
    + intros (s1 & H & [= <- <-])%bind_Ok. left. unfold timer in H. case_bool_decide; [done|].
      case_bool_decide as Hr; [|injection H as <-; apply continues_life; [done|intros; apply life_refl]].
      unfold yield in H. apply bind_Ok in H as (_ & _ & H).
      apply continues_life; [unfold sched in H; case_match; try done; by injection H as <-|]. intros j.
      eapply life_trans; [|by eapply sched_life]. apply life_upd. apply life_state; cbn; [done|done|by rewrite Hr|done].
    + intros H. destruct (next_life fault h me s s' ev); tauto.
  - destruct a; try done. intros (s1 & H & [= <- <-])%bind_Ok. left. unfold scheduler in H. case_match; [|done].
    apply bind_Ok in H as (_ & _ & H). case_bool_decide as Hr; [|injection H as <-; apply continues_life; [done|intros; apply life_refl]].
    assert (H1 : ∀ j, life (pool s j) (pool (upd i (set_state RUNNING) s) j)).
    { apply life_upd. apply life_state; cbn; [done|done|by rewrite Hr|done]. }
    case_match; try done; injection H as <-; (apply continues_life; [done|]); intros j; try apply H1.
    eapply life_trans; [apply H1|]. eapply life_trans; [|apply life_goto].
    apply (life_upd i _ (with_hart h (Some i) (upd i (set_state RUNNING) s))). by apply life_fields.
Qed.

(** ** The history of a run *)

(** Every process that exited is still a zombie with its code, or was
    collected; numbers of processes alive never occur in the history. *)
Record history (s : sys) (ev : list event) : Prop := {
  h_zombie : ∀ i, state (pool s i) = ZOMBIE → (pid (pool s i), exit_state (pool s i)) ∈ exits ev;
  h_alive : ∀ i, used (pool s i) → state (pool s i) ≠ ZOMBIE → pid (pool s i) ∉ (exits ev).*1;
  h_exited : ∀ p c, (p, c) ∈ exits ev → p < PID s ∧
    (p ∈ reaps ev ∨ ∃ i, state (pool s i) = ZOMBIE ∧ pid (pool s i) = p ∧ exit_state (pool s i) = c);
  h_reaped : ∀ p, p ∈ reaps ev → p ∈ (exits ev).*1 ∧ ∀ i, used (pool s i) → pid (pool s i) ≠ p;
  h_once : NoDup (exits ev).*1 ∧ NoDup (reaps ev)
}.

Lemma exits_app ev ev' : exits (ev ++ ev') = exits ev ++ exits ev'.
Proof. apply omap_app. Qed.
Lemma reaps_app ev ev' : reaps (ev ++ ev') = reaps ev ++ reaps ev'.
Proof. apply omap_app. Qed.

Lemma history_continues s s' ev ev' : inv s → history s ev → continues s s' ev' → history s' (ev ++ ev').
Proof.
  intros Hs [H1 H2 H3 H4 H5] (E1 & E2 & HP & Hl). rewrite <- (app_nil_r ev) in H1, H2, H3, H4, H5.
  split; rewrite ?exits_app, ?reaps_app, ?E1, ?E2 in *; rewrite ?app_nil_r in *.
  - intros i Hz. destruct (Hl i) as [(_ & Hp & Hz' & Hc & _)|[(_ & _ & ? & _)|(_ & Hn & _)]]; [|done|destruct Hn; unfold used; congruence].
    apply Hz' in Hz. rewrite Hp, Hc by (unfold used; congruence). by apply H1.
  - intros i Hu Hz. destruct (Hl i) as [(Hu' & Hp & Hz' & _)|[(_ & _ & _ & Hp & _)|(_ & Hn & _)]]; [| |done].
    + rewrite Hp by tauto. apply H2; tauto.
    + intros ([p c] & E & Hin)%list_elem_of_fmap. apply H3 in Hin as [? _]. cbn in E. lia.
  - intros p c Hin. destruct (H3 p c Hin) as (Hlt & Hor). split; [lia|]. destruct Hor as [?|(i & Hz & Hp & Hc)]; [by left|right].
    exists i. destruct (Hl i) as [(_ & Hp' & Hz' & Hc' & _)|[(Hn & _)|(Hn & _)]]; try (destruct Hn; unfold used; congruence).
    rewrite Hp', Hc' by (unfold used; congruence). by rewrite Hz'.
  - intros p Hin. destruct (H4 p Hin) as (Hex & Hno). split; [done|]. intros i Hu.
    destruct (Hl i) as [(Hu' & Hp & _)|[(_ & _ & _ & Hp & _)|(_ & Hn & _)]]; [rewrite Hp by tauto; apply Hno; tauto| |done].
    apply list_elem_of_fmap in Hex as ([p' c] & -> & Hin'). apply H3 in Hin' as [? _]. cbn. lia.
  - done.
Qed.

(** A step in which the slot [j] alone changes its life. *)
Lemma others_pid s s' j i : inv s → (∀ i, i ≠ j → life (pool s i) (pool s' i)) → used (pool s j) →
  i ≠ j → used (pool s' i) → used (pool s i) ∧ pid (pool s' i) = pid (pool s i) ∧ pid (pool s' i) ≠ pid (pool s j).
Proof.
  intros Hs Hl Hj Hi Hu. destruct (Hl i Hi) as (Hu' & Hp & _). split_and!; [tauto|apply Hp; tauto|].
  rewrite Hp by tauto. intros E. apply Hi. apply (v_pid1 s Hs); tauto.
Qed.

Lemma history_ends s s' ev ev' : inv s → history s ev → ends s s' ev' → history s' (ev ++ ev').
Proof.
  intros Hs [H1 H2 H3 H4 H5] (me & code & E1 & E2 & HP & Hu & Hnz & Hz & Ep & Ec & _ & Hl).
  pose proof (others_pid s s' me) as Ho.
  assert (Hnew : pid (pool s me) ∉ (exits ev).*1) by (by apply H2).
  split; rewrite ?exits_app, ?reaps_app, ?E1, ?E2, ?app_nil_r, ?fmap_app.
  - intros i Hzi. rewrite elem_of_app. destruct (decide (i = me)) as [->|Hi]; [right; rewrite Ep, Ec; by apply list_elem_of_singleton|left].
    destruct (Hl i Hi) as (_ & Hp & Hz' & Hc & _). apply Hz' in Hzi. rewrite Hp, Hc by (unfold used; congruence). by apply H1.
  - intros i Hui Hzi. destruct (decide (i = me)) as [->|Hi]; [done|]. destruct (Ho i) as (Hu1 & Hp1 & Hne); [done..|].
    cbn. rewrite elem_of_app, list_elem_of_singleton. intros [Hin|?]; [|done]. rewrite Hp1 in Hin.
    destruct (Hl i Hi) as (_ & _ & Hz' & _). apply (H2 i); tauto.
  - intros p c. rewrite elem_of_app, list_elem_of_singleton. intros [Hin|[= -> ->]].
    + destruct (H3 p c Hin) as (Hlt & Hor). split; [lia|]. destruct Hor as [?|(i & Hzi & Hp & Hc)]; [by left|right].
      exists i. assert (Hi : i ≠ me) by congruence. destruct (Hl i Hi) as (_ & Hp' & Hz' & Hc' & _).
      rewrite Hp', Hc' by (unfold used; congruence). by rewrite Hz'.
    + split; [pose proof (v_pid s Hs me Hu); lia|]. right. by exists me.
  - intros p Hin. destruct (H4 p Hin) as (Hex & Hno). split; [apply elem_of_app; by left|]. intros i Hui.
    destruct (decide (i = me)) as [->|Hi]; [rewrite Ep; by apply Hno|]. destruct (Ho i) as (Hu1 & -> & _); [done..|]. by apply Hno.
  - destruct H5 as [H5 H5']. split; [|done]. apply NoDup_app. split_and!; [done| |apply NoDup_singleton].
    intros p Hin ->%list_elem_of_singleton. done.
Qed.

Lemma history_collects s s' ev ev' : inv s → history s ev → collects s s' ev' → history s' (ev ++ ev').
Proof.
  intros Hs [H1 H2 H3 H4 H5] (c & E1 & E2 & HP & Hz & Hnu & _ & Hl).
  assert (Hu : used (pool s c)) by (unfold used; congruence). pose proof (others_pid s s' c) as Ho.
  assert (Hnew : pid (pool s c) ∉ reaps ev).
  { intros Hin. destruct (H4 _ Hin) as (_ & Hno). by apply (Hno c). }
  assert (Hin : pid (pool s c) ∈ (exits ev).*1) by (apply list_elem_of_fmap; exists (pid (pool s c), exit_state (pool s c)); auto).
  split; rewrite ?exits_app, ?reaps_app, ?E1, ?E2, ?app_nil_r.
  - intros i Hzi. assert (Hi : i ≠ c) by (intros ->; apply Hnu; unfold used; congruence).
    destruct (Hl i Hi) as (_ & Hp & Hz' & Hc & _). apply Hz' in Hzi. rewrite Hp, Hc by (unfold used; congruence). by apply H1.
  - intros i Hui Hzi. assert (Hi : i ≠ c) by (by intros ->). destruct (Ho i) as (Hu1 & -> & _); [done..|].
    destruct (Hl i Hi) as (_ & _ & Hz' & _). apply H2; tauto.
  - intros p x Hpx. destruct (H3 p x Hpx) as (Hlt & Hor). split; [lia|]. rewrite elem_of_app, list_elem_of_singleton.
    destruct Hor as [?|(i & Hzi & Hp & Hc)]; [auto|]. destruct (decide (i = c)) as [->|Hi]; [auto|right].
    exists i. destruct (Hl i Hi) as (_ & Hp' & Hz' & Hc' & _). rewrite Hp', Hc' by (unfold used; congruence). by rewrite Hz'.
  - intros p. rewrite elem_of_app, list_elem_of_singleton. intros [Hp| ->].
    + destruct (H4 p Hp) as (Hex & Hno). split; [done|]. intros i Hui. assert (Hi : i ≠ c) by (by intros ->).
      destruct (Ho i) as (Hu1 & -> & _); [done..|]. by apply Hno.
    + split; [done|]. intros i Hui. assert (Hi : i ≠ c) by (by intros ->). by destruct (Ho i) as (_ & _ & ?).
  - destruct H5 as [H5 H5']. split; [done|]. apply NoDup_app. split_and!; [done| |apply NoDup_singleton].
    intros p Hp ->%list_elem_of_singleton. done.
Qed.

Lemma history_run l s0 s ev0 ev :
  inv s0 → history s0 ev0 → run l s0 = Ok (s, ev) → inv s ∧ history s (ev0 ++ ev).
Proof.
  revert s0 ev0 ev. induction l as [|[h a] l IH]; intros s0 ev0 ev Hs Hh; cbn.
  - intros [= <- <-]. by rewrite app_nil_r.
  - intros ([s1 ev1] & H1 & ([s2 ev2] & H2 & [= <- <-])%bind_Ok)%bind_Ok. rewrite app_assoc.
    apply (IH s1); [by eapply inv_exec| |done].
    destruct (exec_life h a s0 s1 ev1 Hs H1) as [?|[?|?]];
      [by apply (history_continues s0)|by apply (history_ends s0)|by apply (history_collects s0)].
Qed.

Lemma history_boot : history boot [].
Proof.
  destruct boot_spec as (E0 & Eo & _).
  assert (Hst : ∀ i, state (pool boot i) ≠ ZOMBIE) by (intros i; destruct (decide (i = 0%nat)) as [->|]; [by rewrite E0|by rewrite Eo]).
  split; try (intros i Hz; by destruct (Hst i)).
  - intros i _ _. apply not_elem_of_nil.
  - intros p c H. by apply not_elem_of_nil in H.
  - intros p H. by apply not_elem_of_nil in H.
  - split; constructor.
Qed.

Lemma unlocked_boot : ∀ i, p_lock (pool boot i) = false.
Proof. intros i. destruct boot_spec as (E0 & Eo & _). destruct (decide (i = 0%nat)) as [->|]; [by rewrite E0|by rewrite Eo]. Qed.

Lemma run_ok l s ev : run l boot = Ok (s, ev) → inv s ∧ history s ev.
Proof. apply (history_run l boot s [] ev inv_boot history_boot). Qed.

(** Locks of slots are free as long as numbers last. *)
Definition unlocked (s : sys) : Prop := ∀ i, p_lock (pool s i) = false.

Lemma exec_unlocked h a s s' ev : inv s → exec h a s = Ok (s', ev) → PID s ≤ PID s' ∧ (unlocked s → PID s' ≤ PID_MAX + 1 → unlocked s').
Proof.
  intros Hs H. destruct (exec_life h a s s' ev Hs H) as [(_ & _ & HP & Hl)|[(me & c & _ & _ & HP & _ & _ & _ & _ & _ & Hk & Hl)|(c & _ & _ & HP & _ & _ & Hk & Hl)]];
    (split; [done|]); intros Hu HP' i.
  - destruct (Hl i) as [(_ & _ & _ & _ & E)|[(_ & _ & _ & _ & E)|(_ & _ & ? & ?)]]; [rewrite E; apply Hu..|lia].
  - destruct (decide (i = me)) as [->|Hi]; [rewrite Hk; apply Hu|]. destruct (Hl i Hi) as (_ & _ & _ & _ & ->). apply Hu.
  - destruct (decide (i = c)) as [->|Hi]; [rewrite Hk; apply Hu|]. destruct (Hl i Hi) as (_ & _ & _ & _ & ->). apply Hu.
Qed.

Lemma run_unlocked l s0 s ev : inv s0 → unlocked s0 → run l s0 = Ok (s, ev) → PID s0 ≤ PID s ∧ (PID s ≤ PID_MAX + 1 → unlocked s).
Proof.
  revert s0 ev. induction l as [|[h a] l IH]; intros s0 ev Hs Hu; cbn; [by intros [= <- <-]|].
  intros ([s1 ev1] & H1 & ([s2 ev2] & H2 & [= <- <-])%bind_Ok)%bind_Ok.
  destruct (exec_unlocked h a s0 s1 ev1 Hs H1) as (HP & Hu1). pose proof (inv_exec h a s0 s1 ev1 Hs H1) as Hs1.
  destruct (decide (PID s1 ≤ PID_MAX + 1)) as [Hle|Hgt].
  - destruct (IH s1 ev2 Hs1 (Hu1 Hu Hle) H2) as (? & ?). split; [lia|done].
  - assert (PID s1 ≤ PID s2); [|lia]. clear -H2 Hs1. revert s1 ev2 Hs1 H2.
    induction l as [|[h a] l IH]; intros s1 ev2 Hs1; cbn; [by intros [= <- <-]|].
    intros ([s3 ev3] & H1 & ([s4 ev4] & H2 & [= <- <-])%bind_Ok)%bind_Ok.
    destruct (exec_unlocked h a s1 s3 ev3 Hs1 H1) as (HP & _). pose proof (IH s3 ev4 (inv_exec h a s1 s3 ev3 Hs1 H1) H2). lia.
Qed.

(** ** The theorems *)


(** C13. No wake-up is lost between [exit] and [waitpid] or [waitid]: whenever a
    process sleeps in such a call and has a zombie child that the call would
    collect, that child is still on a hart, inside of [exit], before the
    wake-up of its parent; and the section of [exit] with the wake-up makes the
    parent runnable. *)
Theorem wait_no_lost_wakeup l s ev :
  run l boot = Ok (s, ev) →
  (∀ i q c, state (pool s i) = SLEEPING → ctx (pool s i) = Asleep (WaitLock q) → child_wanted s i c q →
    runs s c ∧ pending (ctx (pool s c))) ∧
  (∀ h c i q s' ev', harts s h = Some c → ctx (pool s c) = ExitWake → parent (pool s c) = Some i →
    ctx (pool s i) = Asleep (WaitLock q) → exec h (Next false) s = Ok (s', ev') → state (pool s' i) = RUNNABLE).
Proof.
  intros [Hs _]%run_ok. split.
  - intros i q c H1 H2 H3. pose proof (v_sleep s Hs i q c H1 H2 H3) as Hp. split; [|done].
    destruct H3 as (Hz & _). pose proof (v_slot s Hs c) as H. unfold slot_ok in H. rewrite Hz in H.
    destruct H as (_ & [[? _]|[_ Hd]]); [done|]. by rewrite Hd in Hp.
  - intros h c i q s' ev' Hh Hx Hp Hi. unfold exec, next. rewrite Hh, Hx. intros (s1 & H & [= <- <-])%bind_Ok.
    unfold exit_wake in H. rewrite Hp in H. apply bind_Ok in H as (s2 & H & [= <-]).
    assert (Hne : i ≠ c) by congruence. unfold goto. rewrite pool_upd, decide_False by done. cbn.
    apply wakeup_spec in H as (Hq & _ & Hno & _). specialize (Hno i Hne). destruct (Hq i) as (_ & _ & _ & _ & _ & _ & Hst).
    pose proof (v_slot s Hs i) as H. unfold slot_ok in H. rewrite Hi in H.
    destruct (state (pool s i)) eqn:E; try (exfalso; naive_solver); destruct Hst as [Hst|[? ?]]; try congruence.
    destruct Hno; [|congruence]. naive_solver.
Qed.

(** C14. Exit and wait account for every process: in any run no process exits
    twice and none is collected twice, only processes that exited are
    collected, and a process that exited with some code and was not collected
    is a zombie that still holds this code. *)
Theorem exit_wait_once l s ev :
  run l boot = Ok (s, ev) →
  NoDup (exits ev).*1 ∧ NoDup (reaps ev) ∧ (∀ p, p ∈ reaps ev → p ∈ (exits ev).*1) ∧
  (∀ p code, (p, code) ∈ exits ev → p ∈ reaps ev ∨
    ∃ i, state (pool s i) = ZOMBIE ∧ pid (pool s i) = p ∧ exit_state (pool s i) = code) ∧
  (∀ i, state (pool s i) = ZOMBIE → (pid (pool s i), exit_state (pool s i)) ∈ exits ev ∧ pid (pool s i) ∉ reaps ev).
Proof.
  intros [Hs [H1 H2 H3 H4 [H5 H6]]]%run_ok. split_and!; [done|done|apply H4|by intros p code [_ ?]%H3|].
  intros i Hz. split; [by apply H1|]. intros [_ Hno]%H4. by apply (Hno i); [unfold used; congruence|].
Qed.

End ProcSpec.
