(* ===== verification/ProcSafe.v ===== *)
(** * Processes: what can go wrong

    A section panics only in the two places where the code means to; it has an
    undefined effect only when a child is collected while another hart still
    runs it in [exit], which cannot happen with one hart and does happen with
    two.  Further consequences of the code that its comments or the system
    calls' documentation do not suggest are shown by runs. *)

From stdpp Require Import functions.
From S2P Require Import Prelude ProcDefs Proc ProcSpec.
Import ProcDefs Proc ProcSpec.

Module ProcSafe.

(** The computation neither panics nor has an undefined effect. *)
Definition calm {A} (r : res A) : Prop := match r with Ok _ | NoFuel => True | _ => False end.

Lemma calm_bind {A B} (m : res A) (k : A → res B) : calm m → (∀ a, m = Ok a → calm (k a)) → calm (bind m k).
Proof. destruct m; cbn; auto. Qed.

Lemma calm_quiet (m : res sys) : calm m → calm (let* s := m in Ok (s, @nil event)).
Proof. intros H. by apply calm_bind. Qed.

Lemma acquire_calm p : calm (acquire p).
Proof. unfold acquire. by case_match. Qed.

Lemma wakeup_calm c me s : calm (wakeup c me s).
Proof. unfold wakeup. by case_match. Qed.

Lemma find_unused_calm n i s : calm (find_unused n i s).
Proof.
  revert i. induction n as [|n IH]; intros i; cbn; [done|]. apply calm_bind; [apply acquire_calm|]. intros _ _.
  case_bool_decide; [done|apply IH].
Qed.

Lemma allocproc_calm s : calm (allocproc s).
Proof.
  unfold allocproc. apply calm_bind; [apply find_unused_calm|]. intros [i|] _; [|done].
  unfold allocpid. by case_match.
Qed.

Lemma kill_calm n i b me t sg s : calm (kill n i b me t sg s).
Proof.
  revert i. induction n as [|n IH]; intros i; cbn; [done|]. apply calm_bind; [apply acquire_calm|]. intros _ _.
  case_match; [by case_match|apply IH].
Qed.

Lemma sleep_calm h me c k s : calm (sleep_on_chan h me c k s).
Proof.
  unfold sleep_on_chan. apply calm_bind; [apply acquire_calm|]. intros _ _. unfold sched.
  by rewrite pool_upd, decide_True.
Qed.

Lemma timer_calm h me s : calm (timer h me s).
Proof.
  unfold timer. case_bool_decide; [done|]. case_bool_decide; [|done]. unfold yield.
  apply calm_bind; [apply acquire_calm|]. intros _ _. unfold sched. by rewrite pool_upd, decide_True.
Qed.

Lemma scheduler_calm h i s : inv s → calm (scheduler h i s).
Proof.
  intros Hs. unfold scheduler. case_match; [|done]. apply calm_bind; [apply acquire_calm|]. intros _ _.
  case_bool_decide as Hr; [|done]. rewrite pool_with_hart, pool_upd, decide_True by done. cbn.
  pose proof (v_slot s Hs i) as H1. unfold slot_ok in H1. rewrite Hr in H1. destruct H1 as (_ & Hk & _).
  by destruct (ctx (pool s i)).
Qed.

(** A child is collected while a hart runs it. *)
Definition race (s : sys) (me : nat) : Prop :=
  ∃ c h', parent (pool s c) = Some me ∧ state (pool s c) = ZOMBIE ∧ harts s h' = Some c.

Lemma on_hart_true s i : on_hart s i = true → ∃ h, harts s h = Some i.
Proof. unfold on_hart. rewrite existsb_exists. intros (h & _ & H%bool_decide_eq_true). eauto. Qed.

Lemma freeproc_cases i s : calm (freeproc i s) ∨ (freeproc i s = Undef ∧ ∃ h, harts s h = Some i).
Proof. unfold freeproc. destruct (on_hart s i) eqn:E; [right; split; [done|by apply on_hart_true]|by left]. Qed.

Lemma child_cases fault q me i hk fd s :
  let r := wait_child fault q me i hk fd s in calm r ∨ (r = Undef ∧ race s me).
Proof.
  destruct q as [w a o|t id a o]; cbn.
  - unfold waitpid_child, acquire. case_bool_decide as Hp; [|by left]. destruct (p_lock _); [by left|]. cbn.
    case_match; [|by left]. case_bool_decide as Hz; [|by left]. case_match; [|by left].
    destruct (freeproc_cases i s) as [Hc|[-> (h & Hh)]]; [left; by apply calm_bind|right]. split; [done|]. by exists i, h.
  - unfold waitid_child, acquire. destruct (waitid_match t id me (pool s i)) eqn:Hm; [|by left].
    assert (Hp : parent (pool s i) = Some me).
    { revert Hm. unfold waitid_match. repeat case_match; rewrite ?andb_true_iff, ?bool_decide_eq_true; naive_solver. }
    destruct (p_lock _); [by left|]. cbn. destruct (andb (killed _ =? _) _); [left; by case_match|].
    destruct (andb (truthy _) _); [left; by case_match|]. destruct (bool_decide_reflect (state (pool s i) = ZOMBIE)) as [Hz|]; [|by left].
    cbn [andb]. destruct (orb _ _); [|by left]. case_match; [|by left]. case_match; [by left|].
    destruct (freeproc_cases i s) as [Hc|[-> (h & Hh)]]; [left; by apply calm_bind|right]. split; [done|]. by exists i, h.
Qed.

Lemma next_cases fault h me s : inv s → harts s h = Some me →
  calm (next fault h me s) ∨ (next fault h me s = Undef ∧ state (pool s me) = RUNNING ∧ race s me).
Proof.
  intros Hs Hh. unfold next. destruct (ctx (pool s me)) eqn:Hx; try (by left).
  - left. apply calm_quiet. unfold fork_link. by case_match.
  - left. apply calm_quiet. unfold fork_start. apply calm_bind; [apply acquire_calm|done].
  - left. apply calm_quiet. unfold exit_lock. by case_match.
  - left. apply calm_quiet. unfold reparent. case_match; [|done]. apply calm_bind; [|done]. case_bool_decide; [apply wakeup_calm|done].
  - left. apply calm_quiet. unfold exit_wake. apply calm_bind; [apply wakeup_calm|done].
  - left. apply calm_quiet. unfold exit_sched. apply calm_bind; [apply acquire_calm|]. intros _ _.
    destruct (exited s h me Hs Hh) as (Hz & _); [by rewrite Hx|]. unfold sched. by rewrite Hz.
  - left. apply calm_quiet. unfold wait_lock. by case_match.
  - unfold wait_scan. case_match.
    + destruct (child_cases fault q me i havekids found s) as [Hc|[-> Hrace]];
        [left|right; by destruct (alive s h me Hs Hh) as (Hr & _); [rewrite Hx|]].
      apply calm_bind; [done|]. intros [[[] s1] ev] _; done.
    + left. case_match; [done|]. apply calm_bind; [apply sleep_calm|done].
Qed.

(** The two panics of calls. *)
Definition intended (m : string) : Prop := m = "init exiting"%string ∨ m = "fork:allocproc fail"%string.

Lemma call_cases a h me s : calm (call a h me s) ∨ ∃ m, call a h me s = Panic m ∧ intended m.
Proof.
  unfold call. destruct a; try (by left).
  - left. apply calm_quiet. unfold fork. apply calm_bind; [apply allocproc_calm|]. intros [[np|] s1] _; done.
  - unfold clone. pose proof (allocproc_calm s) as H. destruct (allocproc s) as [[[np|] s1]|m| |] eqn:Ha; try done; cbn;
      [by left|right|by left]. eexists. split; [reflexivity|]. by right.
  - unfold exit. case_bool_decide; [right; eexists; split; [reflexivity|by left]|left].
    apply calm_bind; [apply acquire_calm|done].
  - left. case_match; [|done]. apply calm_bind; [apply kill_calm|]. intros [r s1] _; done.
  - left. apply calm_quiet, sleep_calm.
  - left. apply calm_quiet, calm_bind; [apply wakeup_calm|done].
Qed.

(** In a reachable state a section panics in [exit] of init and in [clone]
    without a free slot only, and is undefined only in a race. *)
Lemma exec_cases h a s : inv s →
  calm (exec h a s) ∨ (∃ m, exec h a s = Panic m ∧ intended m) ∨ (∃ me, exec h a s = Undef ∧ harts s h = Some me ∧ state (pool s me) = RUNNING ∧ race s me).
Proof.
  intros Hs. unfold exec. destruct (harts s h) as [me|] eqn:Hh.
  - assert (Hcall : ∀ a, let r := match ctx (pool s me) with Run _ => call a h me s | _ => NoFuel end in
      calm r ∨ (∃ m, r = Panic m ∧ intended m) ∨ ∃ me0, r = Undef ∧ Some me = Some me0 ∧ state (pool s me0) = RUNNING ∧ race s me0).
    { intros b. destruct (ctx (pool s me)); try (by left). cbv zeta. destruct (call_cases b h me s); auto. }
    destruct a; try apply Hcall.
    + left. apply calm_quiet, timer_calm.
    + destruct (next_cases fault h me s Hs Hh) as [?|(? & ? & ?)]; [by left|right; right; eauto].
  - destruct a; try (by left). left. by apply calm_quiet, scheduler_calm.
Qed.

(** A section changes the process of its own hart only. *)
Lemma sched_harts h me k s s' h' : sched h me k s = Ok s' → h' ≠ h → harts s' h' = harts s h'.
Proof. unfold sched. intros H Hne. case_match; try done; injection H as <-; by rewrite harts_with, decide_False. Qed.

Lemma sleep_harts h me c k s s' h' : sleep_on_chan h me c k s = Ok s' → h' ≠ h → harts s' h' = harts s h'.
Proof. unfold sleep_on_chan. intros (_ & _ & H)%bind_Ok Hne. by rewrite (sched_harts _ _ _ _ _ _ H Hne). Qed.

Lemma next_harts fault h me s s' ev h' : next fault h me s = Ok (s', ev) → h' ≠ h → harts s' h' = harts s h'.
Proof.
  intros H Hne. unfold next in H. destruct (ctx (pool s me)); try done; try (apply bind_Ok in H as (s1 & H & [= <- <-])).
  - unfold fork_link in H. case_match; [done|]. by injection H as <-.
  - unfold fork_start in H. by apply bind_Ok in H as (_ & _ & [= <-]).
  - unfold exit_lock in H. case_match; [done|]. by injection H as <-.
  - unfold reparent in H. case_match; [|by injection H as <-]. apply bind_Ok in H as (s2 & H & [= <-]).
    case_bool_decide; [|by injection H as <-]. apply wakeup_spec in H as (_ & _ & _ & _ & _ & _ & EH). unfold goto. by rewrite harts_upd, EH.
  - unfold exit_wake in H. apply bind_Ok in H as (s2 & H & [= <-]). apply wakeup_spec in H as (_ & _ & _ & _ & _ & _ & EH).
    unfold goto. rewrite harts_upd. cbn. by rewrite EH.
  - unfold exit_sched in H. apply bind_Ok in H as (_ & _ & H). by apply (sched_harts h me Dead).
  - unfold wait_lock in H. case_match; [done|]. by injection H as <-.
  - unfold wait_scan in H. case_match.
    + apply bind_Ok in H as ([[v s1] ev1] & H & H'). apply wait_child_step in H.
      assert (E : harts s1 = harts s) by (destruct H as [(-> & _)|[(_ & -> & _)|(_ & _ & _ & -> & _)]]; done).
      destruct v; injection H' as <- <-; unfold goto; rewrite harts_upd; cbn; by rewrite E.
    + case_match; [by injection H as <- <-|]. apply bind_Ok in H as (s1 & H & [= <- <-]). by rewrite (sleep_harts _ _ _ _ _ _ _ H Hne).
Qed.

Lemma call_harts a h me s s' ev h' : 1 ≤ PID s → call a h me s = Ok (s', ev) → h' ≠ h → harts s' h' = harts s h'.
Proof.
  intros HP H Hne. unfold call in H. destruct a; try done.
  - apply bind_Ok in H as (s1 & H & [= <- <-]). unfold fork in H. apply bind_Ok in H as ([[np|] s2] & Ha & [= <-]);
      apply allocproc_spec in Ha as (_ & _ & EH & _); try done; unfold goto; by rewrite !harts_upd, EH.
  - apply bind_Ok in H as (s1 & H & [= <- <-]). unfold clone in H. apply bind_Ok in H as ([[np|] s2] & Ha & H); [|done].
    injection H as <-. apply allocproc_spec in Ha as (_ & _ & EH & _); [|done]. unfold goto. by rewrite !harts_upd, EH.
  - unfold exit in H. case_bool_decide; [done|]. by apply bind_Ok in H as (_ & _ & [= <- <-]).
  - injection H as <- <-. unfold wait_start. by case_match.
  - case_match; [|done]. apply bind_Ok in H as ([r s1] & H & [= <- <-]). apply kill_spec in H as (_ & _ & _ & _ & EH).
    unfold goto. by rewrite harts_upd, EH.
  - apply bind_Ok in H as (s1 & H & [= <- <-]). by rewrite (sleep_harts _ _ _ _ _ _ _ H Hne).
  - apply bind_Ok in H as (s1 & H & [= <- <-]). apply bind_Ok in H as (s2 & H & [= <-]).
    apply wakeup_spec in H as (_ & _ & _ & _ & _ & _ & EH). unfold goto. by rewrite harts_upd, EH.
Qed.

Lemma exec_harts h a s s' ev h' : inv s → exec h a s = Ok (s', ev) → h' ≠ h → harts s' h' = harts s h'.
Proof.
  intros Hs H Hne. unfold exec in H. destruct (harts s h) as [me|] eqn:Hh.
  - assert (Hcall : ∀ a, match ctx (pool s me) with Run _ => call a h me s | _ => NoFuel end = Ok (s', ev) → harts s' h' = harts s h').
    { intros b Hb. destruct (ctx (pool s me)); try done. apply (call_harts b h me s s' ev h'); [apply Hs|done|done]. }
    destruct a; try (by eapply Hcall).
    + apply bind_Ok in H as (s1 & H & [= <- <-]). unfold timer in H. case_bool_decide; [done|].
      case_bool_decide; [|by injection H as <-]. unfold yield in H. apply bind_Ok in H as (_ & _ & H). by rewrite (sched_harts _ _ _ _ _ _ H Hne).
    + by apply (next_harts fault h me s s' ev).
  - destruct a; try done. apply bind_Ok in H as (s1 & H & [= <- <-]). unfold scheduler in H. case_match; [|done].
    apply bind_Ok in H as (_ & _ & H). case_bool_decide; [|by injection H as <-].
    case_match; try done; injection H as <-; unfold goto; rewrite ?harts_upd, harts_with, decide_False by done; done.
Qed.

(** All sections of a run are executed by hart 0. *)
Definition one_hart (l : list (nat * action)) : Prop := Forall (λ x, x.1 = 0%nat) l.

Lemma one_hart_run l s0 s ev : one_hart l → inv s0 → (∀ h, h ≠ 0%nat → harts s0 h = None) → run l s0 = Ok (s, ev) →
  ∀ h, h ≠ 0%nat → harts s h = None.
Proof.
  intros Hl. revert s0 ev. induction Hl as [|[h a] l E _ IH]; intros s0 ev Hs Hh; cbn; [by intros [= <- <-]|].
  cbn in E. subst h. intros ([s1 ev1] & H1 & ([s2 ev2] & H2 & [= <- <-])%bind_Ok)%bind_Ok.
  apply (IH s1 ev2); [by eapply inv_exec| |done]. intros h Hne. rewrite (exec_harts 0 a s0 s1 ev1 h Hs H1 Hne). by apply Hh.
Qed.


(** ** Runs *)

Definition nexts (h n : nat) : list (nat * action) := replicate n (h, Next false).

(** Init forks a child and waits with [q]; the child exits with code 7 on the
    same hart while init sleeps; init runs again. *)
Definition fork_wait (q : query) : list (nat * action) :=
  [(0%nat, Sched 0); (0%nat, Fork)] ++ nexts 0 2 ++ [(0%nat, Wait q)].
Definition sleep_exit (q : query) : list (nat * action) :=
  fork_wait q ++ nexts 0 (NPROC + 2) ++ [(0%nat, Sched 1); (0%nat, Exit 7)].
Definition any : query := WaitPid (-1) 4096 0.

Definition sys_after (l : list (nat * action)) : sys := (get (boot, []) (run l boot)).1.
Definition ev_after (l : list (nat * action)) : list event := (get (boot, []) (run l boot)).2.

(** Init sleeps, the child is a zombie inside of [exit]. *)
Definition run1 : list (nat * action) := sleep_exit any.
(** The child has left [exit], init is back at the lock. *)
Definition run2 : list (nat * action) := run1 ++ nexts 0 (NPROC + 4) ++ [(0%nat, Sched 0)].
(** Init has collected the child. *)
Definition run3 : list (nat * action) := run2 ++ nexts 0 3.

Lemma run_after l :
  (match run l boot with Ok _ => true | _ => false end) = true → run l boot = Ok (sys_after l, ev_after l).
Proof. unfold sys_after, ev_after. by destruct (run l boot) as [[s ev]| | |]. Qed.

Lemma run1_ok : run run1 boot = Ok (sys_after run1, ev_after run1).
Proof. apply run_after. vm_compute. reflexivity. Qed.
Lemma run2_ok : run run2 boot = Ok (sys_after run2, ev_after run2).
Proof. apply run_after. vm_compute. reflexivity. Qed.
Lemma run3_ok : run run3 boot = Ok (sys_after run3, ev_after run3).
Proof. apply run_after. vm_compute. reflexivity. Qed.

Lemma one_hart_run2 : one_hart run2.
Proof.
  assert (Hn : ∀ n, one_hart (nexts 0 n)) by (intros n; by apply Forall_replicate).
  unfold run2, run1, sleep_exit, fork_wait. repeat (apply Forall_app; split); try apply Hn; repeat constructor.
Qed.

(** Only init runs. *)
Lemma run2_harts c : runs (sys_after run2) c → c = 0%nat.
Proof.
  intros (h & Hh). destruct (decide (h = 0%nat)) as [->|Hne].
  - revert Hh. vm_compute. congruence.
  - rewrite (one_hart_run run2 boot _ _ one_hart_run2 inv_boot (λ h _, proj2 (proj2 (proj2 (proj2 (proj2 boot_spec)))) h) run2_ok h Hne) in Hh. done.
Qed.


Lemma wait_no_lost_wakeup_witness :
  state (pool (sys_after run1) 0%nat) = SLEEPING ∧ child_wanted (sys_after run1) 0 1 any ∧ pending (ctx (pool (sys_after run1) 1%nat)).
Proof.
  assert (H : child_wanted (sys_after run1) 0 1 any).
  { split; [vm_compute; reflexivity|]. split; [vm_compute; reflexivity|by left]. }
  split; [vm_compute; reflexivity|]. split; [exact H|].
  destruct (wait_no_lost_wakeup run1 (sys_after run1) (ev_after run1) run1_ok) as [Hw _].
  apply (Hw 0%nat any 1%nat); [vm_compute; reflexivity|vm_compute; reflexivity|exact H].
Defined.

Lemma exit_wait_once_witness :
  ev_after run3 = [Exited 2 7; Stored 1 4096 (Status 1792); Reaped 1 2] ∧ NoDup (reaps (ev_after run3)).
Proof.
  split; [vm_compute; reflexivity|]. apply (exit_wait_once run3 (sys_after run3) (ev_after run3) run3_ok).
Defined.


(** With two harts the parent can find its child dead before the child has
    left [exit]: it frees the slot and the stack the other hart runs on. *)
Theorem exit_race :
  ∃ s ev, run (fork_wait (WaitPid (-1) 0 0) ++ nexts 0 1 ++ [(1%nat, Sched 1); (1%nat, Exit 7)] ++ nexts 0 1) boot = Ok (s, ev) ∧
    harts s 1%nat = Some 1%nat ∧ state (pool s 1%nat) = ZOMBIE ∧ exec 0 (Next false) s = Undef.
Proof.
  eexists _, _. split; [vm_compute; reflexivity|]. split; [reflexivity|]. split; reflexivity.
Qed.

(** [waitpid(0, ...)], which should wait for any child of the process group,
    sleeps again although its child is dead and [exit] is over. *)
Theorem waitpid_zero_sleeps :
  let s := sys_after (sleep_exit (WaitPid 0 0 0) ++ nexts 0 (NPROC + 4) ++ [(0%nat, Sched 0)] ++ nexts 0 (NPROC + 2)) in
  state (pool s 0%nat) = SLEEPING ∧ state (pool s 1%nat) = ZOMBIE ∧ parent (pool s 1%nat) = Some 0%nat ∧ ctx (pool s 1%nat) = Dead.
Proof. cbv zeta. split; [|split; [|split]]; vm_compute; reflexivity. Qed.

(** A process that is stopped and continued while its parent sleeps in
    [waitid] for just that does not wake it. *)
Theorem waitid_continued_sleeps :
  let s := sys_after (fork_wait (WaitId P_ALL 0 0 WCONTINUED) ++ nexts 0 (NPROC + 2) ++
    [(0%nat, Sched 1); (0%nat, Kill 2 SIGSTOP true); (0%nat, Kill 2 SIGCONT true)]) in
  state (pool s 0%nat) = SLEEPING ∧ continued (pool s 1%nat) = 1 ∧ parent (pool s 1%nat) = Some 0%nat.
Proof. cbv zeta. split; [|split]; vm_compute; reflexivity. Qed.

(** A signal sent to a zombie replaces the code it exited with. *)
Theorem kill_zombie_changes_status :
  ev_after ([(0%nat, Sched 0); (0%nat, Fork)] ++ nexts 0 2 ++ [(0%nat, Timer); (0%nat, Sched 1); (0%nat, Exit 7)] ++
    nexts 0 (NPROC + 4) ++ [(0%nat, Sched 0); (0%nat, Kill 2 15 true); (0%nat, Wait any)] ++ nexts 0 3)
  = [Exited 2 7; Stored 1 4096 (Status 15); Reaped 1 2].
Proof. vm_compute. reflexivity. Qed.

(** When the numbers are used up [fork] fails once, with the lock of a free
    slot held; the next call never returns. *)
Theorem fork_out_of_numbers me s i :
  PID_MAX < PID s → find_unused NPROC 0 s = Ok (Some i) → i ≠ me →
  ∃ s', fork me s = Ok s' ∧ ctx (pool s' me) = Run (-1) ∧ p_lock (pool s' i) = true ∧ fork me s' = NoFuel.
Proof.
  intros HP Hf Hne. unfold fork at 1, allocproc, allocpid. rewrite Hf. cbn. rewrite (proj2 (Z.ltb_lt _ _) HP). cbn.
  eexists. split; [reflexivity|]. unfold goto. split; [by rewrite pool_upd, decide_True|].
  split; [by rewrite pool_upd, decide_False, pool_upd, decide_True|]. set (s' := upd me _ _).
  assert (H : find_unused NPROC 0 s' = NoFuel); [|unfold fork, allocproc; by rewrite H].
  assert (Hl : p_lock (pool s' i) = true) by (unfold s'; by rewrite pool_upd, decide_False, pool_upd, decide_True).
  assert (Ho : ∀ j, j ≠ i → p_lock (pool s' j) = p_lock (pool s j) ∧ state (pool s' j) = state (pool s j)).
  { intros j Hj. unfold s'. rewrite !pool_upd. repeat case_decide; subst; done. }
  clearbody s'. revert Hf. generalize 0%nat. induction NPROC as [|n IH]; intros j; cbn; [done|]. unfold acquire.
  destruct (decide (j = i)) as [->|Hj]; [by rewrite Hl|]. destruct (Ho j Hj) as [-> ->].
  destruct (p_lock (pool s j)); cbn; [done|]. case_bool_decide; [congruence|apply IH].
Qed.

End ProcSafe.
