(* ===== verification/ProcCalls.v ===== *)
(** * Processes: whole calls

    A call of [exit], [waitpid] or [waitid] is many sections; here a hart runs
    all sections of a call while the other harts do nothing, which is what
    happens on a machine with one hart.  The calls end, with the result and the
    effect stated. *)

From stdpp Require Import functions.
From S2P Require Import Prelude ProcDefs Proc ProcSpec ProcSafe.
Import ProcDefs Proc ProcSpec ProcSafe.

Module ProcCalls.

(** [n] sections of the call in progress on hart [h]; copies do not fail. *)
Definition steps (h n : nat) (s : sys) : res (sys * list event) := run (replicate n (h, Next false)) s.

Lemma steps_S h n s s1 s2 ev1 ev2 :
  exec h (Next false) s = Ok (s1, ev1) → steps h n s1 = Ok (s2, ev2) → steps h (S n) s = Ok (s2, ev1 ++ ev2).
Proof. intros H1 H2. unfold steps in *. cbn. rewrite H1. cbn. by rewrite H2. Qed.

Lemma steps_add h n m s s1 s2 ev1 ev2 :
  steps h n s = Ok (s1, ev1) → steps h m s1 = Ok (s2, ev2) → steps h (n + m) s = Ok (s2, ev1 ++ ev2).
Proof.
  revert s ev1. induction n as [|n IH]; intros s ev1.
  - intros [= <- <-]. done.
  - unfold steps at 1. cbn. intros ([s' ev] & H1 & ([s'' ev''] & H2 & [= <- <-])%bind_Ok)%bind_Ok H3.
    rewrite <- app_assoc. eapply steps_S; [done|]. by eapply IH.
Qed.

Lemma exec_next h me s : harts s h = Some me → exec h (Next false) s = next false h me s.
Proof. intros H. unfold exec. by rewrite H. Qed.

Lemma wakeup_total c me s : unlocked s → ∃ s', wakeup c me s = Ok s'.
Proof.
  intros Hu. unfold wakeup. assert (existsb (λ i, bool_decide (i ≠ me) && p_lock (pool s i)) (seq 0 NPROC) = false) as ->; [|eauto].
  rewrite <- not_true_iff_false, existsb_exists. intros (i & _ & H). by rewrite Hu, andb_false_r in H.
Qed.

(** ** exit *)

(** [s'] is [s] after [reparent] by [me] has dealt with the slots below [i]. *)
Record handed (me i : nat) (k : pc) (s s' : sys) : Prop := {
  g_parent : ∀ j, parent (pool s' j) =
    if bool_decide (parent (pool s j) = Some me ∧ (j < i)%nat) then Some (initproc s) else parent (pool s j);
  g_lock : unlocked s';
  g_chan : ∀ j, chan (pool s' j) = chan (pool s j);
  g_state : ∀ j, state (pool s' j) = state (pool s j) ∨ (state (pool s j) = SLEEPING ∧ state (pool s' j) = RUNNABLE);
  g_ctx : ctx (pool s' me) = k;
  g_self : state (pool s' me) = state (pool s me);
  g_rest : initproc s' = initproc s ∧ plock s' = plock s ∧ harts s' = harts s;
  g_init : (∃ j, parent (pool s j) = Some me ∧ (j < i)%nat) → initproc s ≠ me →
    chan (pool s (initproc s)) = OfProc (initproc s) → state (pool s' (initproc s)) ≠ SLEEPING
}.

Lemma reparent_step h me i s s0 :
  (i < NPROC)%nat → initproc s0 ≠ me → harts s0 h = Some me → handed me i (Reparent i) s0 s →
  ∃ s', exec h (Next false) s = Ok (s', []) ∧ handed me (S i) (Reparent (S i)) s0 s'.
Proof.
  intros Hi Hne Hh [G1 G2 G3 G4 G5 G6 (G7 & G8 & G9) G10].
  rewrite (exec_next h me) by congruence. unfold next. rewrite G5. unfold reparent.
  rewrite (proj2 (Nat.ltb_lt i NPROC) Hi).
  assert (Hpar : ∀ j, j ≠ i → bool_decide (parent (pool s0 j) = Some me ∧ (j < S i)%nat) = bool_decide (parent (pool s0 j) = Some me ∧ (j < i)%nat)).
  { intros j Hj. apply bool_decide_ext. intuition lia. }
  assert (Hi' : parent (pool s i) = parent (pool s0 i)) by (rewrite G1, bool_decide_false by lia; done).
  case_bool_decide as Hp.
  - set (s1 := upd i (set_parent (Some (initproc s))) s).
    assert (Hu : unlocked s1) by (intros j; unfold s1; rewrite pool_upd; case_decide; [subst; apply G2|apply G2]).
    destruct (wakeup_total (OfProc (initproc s)) me s1 Hu) as (s2 & Hw). rewrite Hw. cbn. eexists. split; [reflexivity|].
    pose proof (wakeup_spec _ _ _ _ Hw) as (Hq & Hme & Hno & _ & EI & EL & EH).
    assert (Hs1 : ∀ j, pool s1 j = if decide (j = i) then set_parent (Some (initproc s)) (pool s i) else pool s j) by (intros j; apply pool_upd).
    split.
    + intros j. unfold goto. rewrite pool_upd. transitivity (parent (pool s2 j)); [case_decide; by subst|].
      destruct (Hq j) as (_ & -> & _). rewrite Hs1. case_decide as E.
      * subst j. rewrite bool_decide_true by (split; [congruence|lia]). cbn. congruence.
      * by rewrite Hpar, G1.
    + intros j. unfold goto. rewrite pool_upd. transitivity (p_lock (pool s2 j)); [case_decide; by subst|].
      destruct (Hq j) as (-> & _). apply Hu.
    + intros j. unfold goto. rewrite pool_upd. transitivity (chan (pool s2 j)); [case_decide; by subst|].
      destruct (Hq j) as (_ & _ & _ & _ & _ & -> & _). rewrite Hs1, <- G3. case_decide; by subst.
    + intros j. unfold goto. rewrite pool_upd. assert (E : state (pool s1 j) = state (pool s j)) by (rewrite Hs1; case_decide; by subst).
      assert (E' : state (if decide (j = me) then set_ctx (Reparent (S i)) (pool s2 me) else pool s2 j) = state (pool s2 j)) by (case_decide; by subst).
      rewrite E'. destruct (Hq j) as (_ & _ & _ & _ & _ & _ & Hst). rewrite E in Hst. destruct (G4 j), Hst; naive_solver congruence.
    + unfold goto. by rewrite pool_upd, decide_True.
    + unfold goto. rewrite pool_upd, decide_True by done. cbn. rewrite Hme, Hs1. case_decide; subst; cbn; congruence.
    + unfold goto. rewrite init_upd, plock_upd, harts_upd, EI, EL, EH. done.
    + intros _ _ Hc. unfold goto. rewrite pool_upd. rewrite decide_False by done. rewrite <- G7. apply Hno; [congruence|].
      assert (Hc' : chan (pool s (initproc s)) = OfProc (initproc s)) by (rewrite G7, G3; done).
      rewrite Hs1. case_decide as E; [cbn; by rewrite <- E|done].
  - cbn. eexists. split; [reflexivity|]. unfold goto. split; cbn; try done.
    + intros j. rewrite pool_upd. transitivity (parent (pool s j)); [case_decide; by subst|]. rewrite G1.
      destruct (decide (j = i)) as [->|Hj]; [|by rewrite Hpar]. rewrite !bool_decide_false; [done|intros [? _]; congruence|lia].
    + intros j. rewrite pool_upd. case_decide; [subst; apply G2|apply G2].
    + intros j. rewrite pool_upd, <- G3. case_decide; by subst.
    + intros j. rewrite pool_upd. case_decide; [subst; apply G4|apply G4].
    + by rewrite pool_upd, decide_True.
    + by rewrite pool_upd, decide_True.
    + intros (j & Hj & Hlt) Hni Hc. rewrite pool_upd, decide_False by congruence. apply G10; [|done..]. exists j. split; [done|].
      destruct (decide (j = i)) as [->|]; [congruence|lia].
Qed.

Lemma reparent_loop h me n i s s0 :
  (i + n ≤ NPROC)%nat → initproc s0 ≠ me → harts s0 h = Some me → handed me i (Reparent i) s0 s →
  ∃ s', steps h n s = Ok (s', []) ∧ handed me (i + n) (Reparent (i + n)) s0 s'.
Proof.
  intros Hn Hne Hh. revert i s Hn. induction n as [|n IH]; intros i s Hn Hg.
  - exists s. rewrite Nat.add_0_r. done.
  - destruct (reparent_step h me i s s0) as (s1 & H1 & Hg1); [lia|done..|].
    destruct (IH (S i) s1) as (s2 & H2 & Hg2); [lia|done|]. exists s2. replace (i + S n)%nat with (S i + n)%nat by lia.
    split; [|done]. by apply (steps_S h n s s1 s2 [] []).
Qed.

(** What is left of [exit], from the point where the process is a zombie. *)
Record exit_done (h me : nat) (s s' : sys) : Prop := {
  x_off : harts s' h = None ∧ ctx (pool s' me) = Dead ∧ state (pool s' me) = ZOMBIE ∧ plock s' = None;
  x_kids : ∀ c, c ≠ me → parent (pool s' c) = if bool_decide (parent (pool s c) = Some me) then Some (initproc s) else parent (pool s c);
  x_wake : ∀ i, parent (pool s me) = Some i → i ≠ me → chan (pool s i) = OfProc i → state (pool s' i) ≠ SLEEPING;
  x_init : (∃ c, parent (pool s c) = Some me) → chan (pool s (initproc s)) = OfProc (initproc s) →
    state (pool s' (initproc s)) ≠ SLEEPING
}.

(** A slot with a parent is in range. *)
Lemma parent_bound s c j : inv s → parent (pool s c) = Some j → (c < NPROC)%nat.
Proof.
  intros Hs Hp. destruct (decide (NPROC ≤ c)%nat) as [Hn|]; [|lia]. pose proof (v_slot s Hs c) as H. unfold slot_ok in H.
  rewrite (v_bound s Hs c Hn) in H. destruct H as (_ & H & _). congruence.
Qed.

(** The sections after [reparent]. *)
Lemma exit_tail h me s s0 :
  harts s0 h = Some me → state (pool s0 me) = ZOMBIE → handed me NPROC (Reparent NPROC) s0 s →
  ∃ s', steps h 3 s = Ok (s', []) ∧ harts s' h = None ∧ ctx (pool s' me) = Dead ∧ state (pool s' me) = ZOMBIE ∧ plock s' = None ∧
    (∀ j, parent (pool s' j) = parent (pool s j)) ∧
    (∀ j, state (pool s' j) = state (pool s j) ∨ state (pool s' j) = RUNNABLE) ∧
    (∀ i, parent (pool s me) = Some i → i ≠ me → chan (pool s i) = OfProc i → state (pool s' i) ≠ SLEEPING).
Proof.
  intros Hh Hz [_ G2 _ _ G5 G6 (_ & _ & G9) _].
  set (s1 := goto me ExitWake s). assert (Hs1 : ∀ j, pool s1 j = if decide (j = me) then set_ctx ExitWake (pool s me) else pool s j) by (intros j; apply pool_upd).
  assert (H1 : exec h (Next false) s = Ok (s1, [])).
  { rewrite (exec_next h me) by congruence. unfold next, reparent. by rewrite G5, Nat.ltb_irrefl. }
  assert (Hu1 : unlocked s1) by (intros j; rewrite Hs1; case_decide; [subst; apply G2|apply G2]).
  assert (Hp1 : parent (pool s1 me) = parent (pool s me)) by (by rewrite Hs1, decide_True).
  set (c := match parent (pool s me) with Some j => OfProc j | None => NoChan end).
  destruct (wakeup_total c me s1 Hu1) as (s2 & Hw). pose proof (wakeup_spec _ _ _ _ Hw) as (Hq & Hme & Hno & _ & _ & _ & EH).
  set (s3 := goto me ExitSched (with_plock None s2)).
  assert (Hs3 : ∀ j, pool s3 j = if decide (j = me) then set_ctx ExitSched (pool s2 me) else pool s2 j) by (intros j; unfold s3, goto; by rewrite pool_upd).
  assert (H2 : exec h (Next false) s1 = Ok (s3, [])).
  { rewrite (exec_next h me) by (change (harts s h = Some me); congruence). unfold next, exit_wake.
    rewrite (Hs1 me), decide_True by done. cbn [ctx set_ctx parent]. fold c. by rewrite Hw. }
  assert (Hz3 : state (pool s3 me) = ZOMBIE ∧ p_lock (pool s3 me) = false).
  { rewrite Hs3, decide_True by done. cbn. rewrite Hme, Hs1, decide_True by done. cbn. split; [congruence|apply G2]. }
  set (s4 := with_hart h None (goto me Dead s3)).
  assert (Hs4 : ∀ j, pool s4 j = if decide (j = me) then set_ctx Dead (pool s3 me) else pool s3 j) by (intros j; unfold s4, goto; by rewrite pool_with_hart, pool_upd).
  assert (H3 : exec h (Next false) s3 = Ok (s4, [])).
  { rewrite (exec_next h me) by (change (harts s2 h = Some me); rewrite EH; change (harts s h = Some me); congruence).
    unfold next, exit_sched, sched, acquire. destruct Hz3 as [Hz3 Hl3]. rewrite Hl3, Hz3, Hs3, decide_True by done. done. }
  exists s4. split; [apply (steps_S h 2 s s1 _ [] [] H1), (steps_S h 1 s1 s3 _ [] [] H2), (steps_S h 0 s3 s4 _ [] [] H3); done|].
  assert (Hsame : ∀ j, state (pool s4 j) = state (pool s2 j) ∧ parent (pool s4 j) = parent (pool s2 j)).
  { intros j. rewrite Hs4, !Hs3. repeat case_decide; by subst. }
  assert (Hone : ∀ j, state (pool s1 j) = state (pool s j) ∧ parent (pool s1 j) = parent (pool s j) ∧ chan (pool s1 j) = chan (pool s j)).
  { intros j. rewrite Hs1. case_decide; by subst. }
  split_and!.
  - unfold s4. by rewrite harts_with, decide_True.
  - by rewrite Hs4, decide_True.
  - rewrite Hs4, decide_True by done. apply Hz3.
  - done.
  - intros j. rewrite (proj2 (Hsame j)). destruct (Hq j) as (_ & -> & _). apply Hone.
  - intros j. rewrite (proj1 (Hsame j)), <- (proj1 (Hone j)). destruct (Hq j) as (_ & _ & _ & _ & _ & _ & [->|[_ ->]]); auto.
  - intros i Hp Hi Hc. rewrite (proj1 (Hsame i)). apply Hno; [done|]. unfold c. rewrite Hp. rewrite <- Hc. apply Hone.
Qed.

Lemma exit_ends h me s :
  inv s → harts s h = Some me → ctx (pool s me) = ExitLink → plock s = None → unlocked s →
  ∃ s', steps h (NPROC + 4) s = Ok (s', []) ∧ exit_done h me s s'.
Proof.
  intros Hs Hh Hx Hl Hu. destruct (exited s h me Hs Hh) as (Hz & _ & Hne & _); [by rewrite Hx|].
  set (s0 := with_plock (Some h) s). set (s1 := goto me (Reparent 0) s0).
  assert (Hs1 : ∀ j, pool s1 j = if decide (j = me) then set_ctx (Reparent 0) (pool s me) else pool s j) by (intros j; unfold s1, goto; by rewrite pool_upd).
  assert (H1 : exec h (Next false) s = Ok (s1, [])).
  { rewrite (exec_next h me) by done. unfold next, exit_lock. by rewrite Hx, Hl. }
  assert (Hg : handed me 0 (Reparent 0) s0 s1).
  { split; try done; try (intros j; rewrite Hs1; case_decide; by subst).
    - intros j. rewrite bool_decide_false by lia. rewrite Hs1. case_decide; by subst.
    - intros j. rewrite Hs1. case_decide; subst; apply Hu.
    - intros j. left. rewrite Hs1. case_decide; by subst.
    - by rewrite Hs1, decide_True.
    - by rewrite Hs1, decide_True.
    - intros (j & _ & ?). lia. }
  destruct (reparent_loop h me NPROC 0 s1 s0) as (s2 & H2 & Hg2); [lia|done|done|done|]. rewrite Nat.add_0_l in Hg2.
  destruct (exit_tail h me s2 s0) as (s3 & H3 & E1 & E2 & E3 & E4 & Hp & Hst & Hw); [done|done|done|].
  exists s3. split.
  { replace (NPROC + 4)%nat with (S (NPROC + 3)) by lia. apply (steps_S h _ s s1 s3 [] [] H1), (steps_add h _ 3 s1 s2 s3 [] [] H2 H3). }
  destruct Hg2 as [G1 G2 G3 G4 G5 G6 G7 G8].
  assert (Hst' : ∀ j, state (pool s2 j) ≠ SLEEPING → state (pool s3 j) ≠ SLEEPING) by (intros j; destruct (Hst j); congruence).
  split; [done| | |].
  - intros c Hc. rewrite Hp, G1. change (pool s0) with (pool s). change (initproc s0) with (initproc s).
    destruct (decide (parent (pool s c) = Some me)) as [E|E]; [|rewrite !bool_decide_false; [done|done|by intros []]].
    rewrite !bool_decide_true; [done|done|]. split; [done|]. by apply (parent_bound s c me).
  - intros i Hpi Hi Hci. apply Hw; [|done|by rewrite G3]. rewrite G1, bool_decide_false; [done|]. intros [E _].
    change (parent (pool s me) = Some me) in E. congruence.
  - intros (c & Hc) Hci. apply Hst'. apply G8; [|done|done]. exists c. split; [done|]. by apply (parent_bound s c me).
Qed.

(** ** waitpid *)

(** [s'] is [s] with the process [me] at the control point [k] and
    [parent_lock] with [h]. *)
Record scans (h me : nat) (k : pc) (s s' : sys) : Prop := {
  n_pool : ∀ j, pool s' j = if decide (j = me) then set_ctx k (pool s me) else pool s j;
  n_rest : PID s' = PID s ∧ initproc s' = initproc s ∧ plock s' = Some h ∧ harts s' = harts s
}.

Lemma scans_goto h me k k' s s' : scans h me k s s' → scans h me k' s (goto me k' s').
Proof.
  intros [H1 (H2 & H3 & H4 & H5)]. split; [|done]. intros j. unfold goto. rewrite pool_upd, !H1. repeat case_decide; by subst.
Qed.

Section waitpid.
Context (h me : nat) (w a o : Z) (s : sys).
Context (Hh : harts s h = Some me) (Hu : unlocked s).

Definition is_kid (j : nat) : bool := bool_decide (parent (pool s j) = Some me).
Definition is_target (j : nat) : bool := is_kid j && ((w =? -1) || (pid (pool s j) =? w)).

Lemma is_kid_true j : is_kid j = true ↔ parent (pool s j) = Some me.
Proof. apply bool_decide_eq_true. Qed.
Lemma is_target_true j : is_target j = true ↔ parent (pool s j) = Some me ∧ wanted (WaitPid w a o) (pool s j).
Proof. unfold is_target. rewrite andb_true_iff, is_kid_true, orb_true_iff, !Z.eqb_eq. done. Qed.

Definition at_scan (i : nat) : pc :=
  WaitScan (WaitPid w a o) i (existsb is_kid (seq 0 i)) (existsb is_target (seq 0 i)).

Lemma seen f i : existsb f (seq 0 (S i)) = existsb f (seq 0 i) || f i.
Proof. rewrite seq_S, existsb_app. cbn. by rewrite orb_false_r. Qed.

(** The loop passes over a slot. *)
Lemma scan_step i s1 :
  (i < NPROC)%nat → ¬ child_wanted s me i (WaitPid w a o) → scans h me (at_scan i) s s1 →
  ∃ s2, exec h (Next false) s1 = Ok (s2, []) ∧ scans h me (at_scan (S i)) s s2.
Proof.
  intros Hi Hw Hsc. pose proof Hsc as [Hp (_ & _ & _ & Hh1)]. eexists. split; [|by eapply scans_goto].
  rewrite (exec_next h me) by congruence. unfold next. rewrite Hp, decide_True by done. cbn [ctx set_ctx at_scan].
  unfold wait_scan. rewrite (proj2 (Nat.ltb_lt i NPROC) Hi). unfold wait_child, waitpid_child, acquire.
  assert (E : parent (pool s1 i) = parent (pool s i) ∧ p_lock (pool s1 i) = false ∧ pid (pool s1 i) = pid (pool s i) ∧ state (pool s1 i) = state (pool s i)).
  { rewrite Hp. case_decide; [subst|]; split_and!; try done; apply Hu. }
  destruct E as (-> & -> & -> & ->). unfold at_scan. rewrite !seen.
  change (is_target i) with (is_kid i && ((w =? -1) || (pid (pool s i) =? w))).
  change (is_kid i) with (bool_decide (parent (pool s i) = Some me)).
  case_bool_decide as Hk; cbn; [|by rewrite !orb_false_r]. rewrite orb_true_r.
  destruct (orb _ _) eqn:Hm; cbn; [|by rewrite orb_false_r]. rewrite orb_true_r.
  rewrite bool_decide_false; [done|]. intros Hz. apply Hw. split_and!; [done|done|]. cbn.
  apply orb_true_iff in Hm as [?%Z.eqb_eq|?%Z.eqb_eq]; auto.
Qed.

Lemma scan_loop n i s1 :
  (i + n ≤ NPROC)%nat → (∀ j, (j < i + n)%nat → ¬ child_wanted s me j (WaitPid w a o)) → scans h me (at_scan i) s s1 →
  ∃ s2, steps h n s1 = Ok (s2, []) ∧ scans h me (at_scan (i + n)) s s2.
Proof.
  revert i s1. induction n as [|n IH]; intros i s1 Hn Hw Hsc; [exists s1; by rewrite Nat.add_0_r|].
  destruct (scan_step i s1) as (s2 & H1 & Hsc2); [lia|apply Hw; lia|done|].
  destruct (IH (S i) s2) as (s3 & H2 & Hsc3); [lia|intros; apply Hw; lia|done|]. exists s3.
  replace (i + S n)%nat with (S i + n)%nat by lia. split; [|done]. by apply (steps_S h n s1 s2 s3 [] []).
Qed.

(** From [acquire(&parent_lock)] to slot [i]. *)
Lemma scan_to i :
  (i ≤ NPROC)%nat → (∀ j, (j < i)%nat → ¬ child_wanted s me j (WaitPid w a o)) →
  ctx (pool s me) = WaitLock (WaitPid w a o) → plock s = None →
  ∃ s2, steps h (S i) s = Ok (s2, []) ∧ scans h me (at_scan i) s s2.
Proof.
  intros Hi Hw Hx Hl. destruct (scan_loop i 0 (goto me (at_scan 0) (with_plock (Some h) s))) as (s2 & H2 & Hsc); [lia|done| |].
  - split; [|done]. intros j. unfold goto. rewrite pool_upd. by case_decide; subst.
  - exists s2. split; [|done]. eapply (steps_S h i s _ s2 [] []); [|done].
    rewrite (exec_next h me) by done. unfold next, wait_lock. by rewrite Hx, Hl.
Qed.

(** A zombie child is collected. *)
Lemma scan_collect c s1 :
  (c < NPROC)%nat → child_wanted s me c (WaitPid w a o) → on_hart s c = false → c ≠ me → scans h me (at_scan c) s s1 →
  ∃ s2, exec h (Next false) s1 = Ok (s2, (if a =? 0 then [] else [Stored (pid (pool s me)) a (Status (wait_status (pool s c)))]) ++
      [Reaped (pid (pool s me)) (pid (pool s c))]) ∧
    pool s2 me = set_ctx (Run (pid (pool s c))) (pool s me) ∧ pool s2 c = freed (pool s c) ∧
    (∀ j, j ≠ me → j ≠ c → pool s2 j = pool s j) ∧ plock s2 = None.
Proof.
  intros Hc (Hz & Hp & Hw) Hon Hne [Hpl (_ & _ & _ & Hh1)]. rewrite (exec_next h me) by congruence. unfold next.
  rewrite Hpl, decide_True by done. cbn [ctx set_ctx at_scan]. unfold at_scan. cbv iota. unfold wait_scan.
  rewrite (proj2 (Nat.ltb_lt c NPROC) Hc). unfold wait_child, waitpid_child, acquire, freeproc.
  assert (on_hart s1 c = false) as -> by (unfold on_hart in *; by rewrite Hh1).
  rewrite (Hpl c), decide_False by done. rewrite bool_decide_true by done. rewrite Hu. cbn [bind].
  assert ((w =? -1) || (pid (pool s c) =? w) = true) as -> by (apply orb_true_iff; rewrite !Z.eqb_eq; exact Hw).
  rewrite bool_decide_true by done. rewrite (Hpl me), decide_True by done. cbn [pid set_ctx].
  unfold store. destruct (a =? 0); cbn [bind app].
  all: eexists; split; [reflexivity|]; unfold goto; rewrite !pool_upd; cbn [pool with_plock]; rewrite ?pool_upd, ?Hpl;
    rewrite ?decide_True, ?(decide_False (P := me = c)), ?(decide_False (P := c = me)) by done; split_and!; try done; try (by case_decide).
  all: intros j ? ?; rewrite pool_upd, decide_False by done; cbn [pool with_plock]; by rewrite pool_upd, decide_False, Hpl, decide_False.
Qed.

(** The end of the loop. *)
Lemma scan_end s1 r :
  wait_end (WaitPid w a o) (killed (pool s me)) (existsb is_kid (seq 0 NPROC)) (existsb is_target (seq 0 NPROC)) = r →
  state (pool s me) = RUNNING → scans h me (at_scan NPROC) s s1 →
  ∃ s2, exec h (Next false) s1 = Ok (s2, []) ∧ plock s2 = None ∧ (∀ j, j ≠ me → pool s2 j = pool s j) ∧
    match r with
    | Some r => pool s2 me = set_ctx (Run r) (pool s me) ∧ harts s2 h = Some me
    | None => state (pool s2 me) = SLEEPING ∧ chan (pool s2 me) = OfProc me ∧
        ctx (pool s2 me) = Asleep (WaitLock (WaitPid w a o)) ∧ harts s2 h = None
    end.
Proof.
  intros Hr Hrun [Hpl (_ & _ & _ & Hh1)]. rewrite (exec_next h me) by congruence. unfold next.
  rewrite Hpl, decide_True by done. cbn [ctx set_ctx at_scan]. unfold at_scan. cbv iota. unfold wait_scan.
  rewrite Nat.ltb_irrefl. rewrite Hpl, decide_True by done. cbn [killed set_ctx]. rewrite Hr. destruct r as [r|].
  - eexists. split; [reflexivity|]. split; [done|]. unfold goto. split.
    + intros j Hj. rewrite pool_upd, decide_False by done. cbn. by rewrite Hpl, decide_False.
    + rewrite pool_upd, decide_True by done. cbn. rewrite Hpl, decide_True by done. split; [done|]. change (harts s1 h = Some me). congruence.
  - unfold sleep_on_chan, acquire, sched. cbn [pool with_plock]. rewrite Hpl, decide_True by done. cbn [p_lock set_ctx].
    rewrite Hu. cbn [bind]. rewrite pool_upd, decide_True by done. cbn [state set_state]. eexists. split; [reflexivity|].
    split; [done|]. unfold goto. split.
    + intros j Hj. autorewrite with proc. rewrite !decide_False by done. cbn. by rewrite Hpl, decide_False.
    + rewrite !pool_with_hart, !pool_upd, !decide_True by done. cbn. rewrite harts_with, decide_True by done. done.
Qed.
End waitpid.

(** C16. [exit] ends: once a process is a zombie, when no other hart holds
    [parent_lock] and process numbers have not run out, the remaining sections return, without a panic, after
    [NPROC + 4] sections.  Then the hart is free, the process will never run
    again, all its children belong to init, a parent that slept in
    [waitpid] does not sleep any more, and neither does init when it received
    a child. *)
Theorem exit_terminates l s ev h me :
  run l boot = Ok (s, ev) → harts s h = Some me → ctx (pool s me) = ExitLink → plock s = None → PID s ≤ PID_MAX + 1 →
  ∃ s', steps h (NPROC + 4) s = Ok (s', []) ∧ exit_done h me s s'.
Proof.
  intros Hrun Hh Hx Hl HP. apply exit_ends; try done; [apply (run_ok l s ev Hrun)|].
  by apply (run_unlocked l boot s ev inv_boot unlocked_boot Hrun).
Qed.

(** The result of [waitpid] when no zombie can be collected: some child
    exists, some child with the number asked for exists. *)
Definition no_zombie_result (w o killed : Z) (kids targets : Prop) (r : option Z) : Prop :=
  (¬ kids → r = Some (- ECHILD)) ∧
  (kids → killed ≠ 0 → r = Some (- EINTR)) ∧
  (kids → killed = 0 → 0 < w → ¬ targets → r = Some (- ECHILD)) ∧
  (kids → killed = 0 → ¬ (0 < w ∧ ¬ targets) → r = if has o WNOHANG then Some 0 else None).

Lemma exists_in f : existsb f (seq 0 NPROC) = true ↔ ∃ j, (j < NPROC)%nat ∧ f j = true.
Proof. rewrite existsb_exists. split; intros (j & H1 & H2); exists j; rewrite in_seq in *; split; try done; lia. Qed.

Lemma wait_end_result w a o k hk fd (kids targets : Prop) :
  (hk = true ↔ kids) → (fd = true ↔ targets) → no_zombie_result w o k kids targets (wait_end (WaitPid w a o) k hk fd).
Proof.
  intros Hk Ht. unfold no_zombie_result, wait_end.
  split_and!; intros H1; [destruct hk; [tauto|done]|..]; (destruct hk; [cbn|by apply Hk in H1]).
  - intros H2%Z.eqb_neq. by rewrite H2.
  - intros -> H2 H3. cbn. rewrite (proj2 (Z.ltb_lt 0 w) H2). destruct fd; [tauto|done].
  - intros -> H2. cbn. destruct (Z.ltb_spec 0 w), fd; cbn; try (by destruct (has o WNOHANG)).
    destruct H2. split; [done|]. by intros ?%Ht.
Qed.

(** C17. [waitpid(w, a, o)], alone on the hart, when process numbers have not
    run out and no child that it would collect is still inside of [exit]
    (always so on one hart): it collects the
    first zombie child in the table that was asked for, stores its status,
    frees its slot and returns its number; without such a child it returns
    [-ECHILD] when there is no child, or none with the number asked for,
    [-EINTR] when the caller was killed, 0 with [WNOHANG], and otherwise sleeps
    on its own slot with [parent_lock] released. *)
Theorem waitpid_correct l s ev h me w a o :
  run l boot = Ok (s, ev) → harts s h = Some me → ctx (pool s me) = WaitLock (WaitPid w a o) → plock s = None → PID s ≤ PID_MAX + 1 →
  (∀ c, child_wanted s me c (WaitPid w a o) → ¬ runs s c) →
  (∀ c, child_wanted s me c (WaitPid w a o) → (∀ j, (j < c)%nat → ¬ child_wanted s me j (WaitPid w a o)) →
    ∃ s', steps h (c + 2) s = Ok (s', (if a =? 0 then [] else [Stored (pid (pool s me)) a (Status (wait_status (pool s c)))]) ++
        [Reaped (pid (pool s me)) (pid (pool s c))]) ∧
      pool s' me = set_ctx (Run (pid (pool s c))) (pool s me) ∧ pool s' c = freed (pool s c) ∧
      (∀ j, j ≠ me → j ≠ c → pool s' j = pool s j) ∧ plock s' = None) ∧
  ((∀ c, ¬ child_wanted s me c (WaitPid w a o)) →
    ∃ s' r, steps h (NPROC + 2) s = Ok (s', []) ∧ plock s' = None ∧ (∀ j, j ≠ me → pool s' j = pool s j) ∧
      no_zombie_result w o (killed (pool s me)) (∃ j, parent (pool s j) = Some me)
        (∃ j, parent (pool s j) = Some me ∧ (w = -1 ∨ pid (pool s j) = w)) r ∧
      match r with
      | Some r => pool s' me = set_ctx (Run r) (pool s me) ∧ harts s' h = Some me
      | None => state (pool s' me) = SLEEPING ∧ chan (pool s' me) = OfProc me ∧ harts s' h = None
      end).
Proof.
  intros Hrun Hh Hx Hl HP Hrace. destruct (run_unlocked l boot s ev inv_boot unlocked_boot Hrun) as [_ Hu]. specialize (Hu HP).
  pose proof (run_ok l s ev Hrun) as [Hs _]. destruct (alive s h me Hs Hh) as (Hr & _); [by rewrite Hx|]. split.
  - intros c Hc Hfirst. pose proof Hc as (Hz & Hp & _). pose proof (parent_bound s c me Hs Hp) as Hcn.
    destruct (scan_to h me w a o s Hh Hu c) as (s1 & H1 & Hsc); [lia|done..|].
    destruct (scan_collect h me w a o s Hh Hu c s1) as (s2 & H2 & Hrest); try done; [by apply on_hart_runs, Hrace|congruence|].
    exists s2. split; [|done]. replace (c + 2)%nat with (S c + 1)%nat by lia.
    rewrite <- (app_nil_l (_ ++ _)). eapply steps_add; [done|].
    rewrite <- (app_nil_r (_ ++ _)). by apply (steps_S h 0 s1 s2 s2 _ []).
  - intros Hno. destruct (scan_to h me w a o s Hh Hu NPROC) as (s1 & H1 & Hsc); [done|auto|done|done|].
    destruct (scan_end h me w a o s Hh Hu s1 _ eq_refl Hr Hsc) as (s2 & H2 & Hpl & Hoth & Hres).
    exists s2. eexists. split; [|split; [done|split; [done|split; [|]]]].
    + replace (NPROC + 2)%nat with (S NPROC + 1)%nat by lia. apply (steps_add h _ 1 s s1 s2 [] [] H1).
      by apply (steps_S h 0 s1 s2 s2 [] []).
    + apply wait_end_result with (a := a); rewrite exists_in; split.
      * intros (j & _ & Hj%is_kid_true). eauto.
      * intros (j & Hj). exists j. split; [by apply (parent_bound s j me)|by apply is_kid_true].
      * intros (j & _ & Hj%(is_target_true me w a o)). eauto.
      * intros (j & Hj & Hw). exists j. split; [by apply (parent_bound s j me)|by apply (is_target_true me w a o)].
    + case_match; naive_solver.
Qed.

(** ** Witnesses *)

Lemma exit_terminates_witness :
  ∃ s', steps 0 (NPROC + 4) (sys_after run1) = Ok (s', []) ∧ exit_done 0 1 (sys_after run1) s'.
Proof.
  apply (exit_terminates run1 (sys_after run1) (ev_after run1) 0 1 run1_ok); vm_compute; [reflexivity..|discriminate].
Defined.

Lemma waitpid_witness :
  child_wanted (sys_after run2) 0 1 any ∧
  ∃ s', steps 0 3 (sys_after run2) = Ok (s', [Stored 1 4096 (Status 1792); Reaped 1 2]) ∧ plock s' = None.
Proof.
  assert (H : child_wanted (sys_after run2) 0 1 any).
  { split; [vm_compute; reflexivity|]. split; [vm_compute; reflexivity|by left]. }
  split; [exact H|].
  destruct (waitpid_correct run2 (sys_after run2) (ev_after run2) 0 0 (-1) 4096 0 run2_ok) as [Hc _].
  - vm_compute. reflexivity.
  - vm_compute. reflexivity.
  - vm_compute. reflexivity.
  - vm_compute. discriminate.
  - intros c (Hz & _) Hr. apply run2_harts in Hr. subst c. revert Hz. vm_compute. discriminate.
  - destruct (Hc 1%nat H) as (s' & H1 & _ & _ & _ & H2).
    + intros j Hj. destruct j as [|j]; [|exfalso; lia]. intros (Hz & _). revert Hz. vm_compute. discriminate.
    + exists s'. split; [|exact H2]. change (1 + 2)%nat with 3%nat in H1. rewrite H1. vm_compute. reflexivity.
Defined.

End ProcCalls.
