(* ===== verification/FileDefs.v ===== *)
(** * Open files and descriptors (kernel/fs/file.c, pipealloc, and the system
      calls openat, close, pipe2, read, write, dup, dup3, fcntl), definitions

    The table of open files, the descriptor table of every process, the pipes
    and the pages they live in.  Processes have one thread each, and interleave:
    [ctl] is the control point of a process, and [exec] runs one section of its
    kernel code.  A section has at most one critical section of [ftable.lock];
    what it does besides works on the descriptors of its own process, on a file
    that no other process refers to, or under the lock of a pipe.  A process in
    [pipewrite] or [piperead] that sleeps can be resumed at any time.

    The file system is a parameter (the class [Vfs]): what [fileclose] and
    [openat] call of vfs_ext4.c.  [read] and [write] are modelled for pipes.
    A name that does not resolve and a call that the model does not have give
    [NoFuel]: nothing happens. *)

From stdpp Require Import functions.
From S2P Require Import Prelude Pmem PipeDefs FifoDefs ProcDefs.
Import Pmem PipeDefs.

Module FileDefs.

Definition NFILE : nat := 1024.
Definition NOFILE : nat := 256.
Definition NPROC : nat := ProcDefs.NPROC.
Definition ENOENT : Z := 2.
Definition EBADF : Z := 9.
Definition EFAULT : Z := 14.
Definition EINVAL : Z := 22.
Definition ENFILE : Z := 23.
Definition EMFILE : Z := 24.
Definition O_RDONLY : Z := 0.
Definition O_WRONLY : Z := 1.
Definition O_RDWR : Z := 2.
Definition O_CREAT : Z := 64.
Definition O_APPEND : Z := 1024.
Definition O_NONBLOCK : Z := 2048.
Definition O_DIRECT : Z := 16384.
Definition O_CLOEXEC : Z := 524288.
Definition O_PATH : Z := 2097152.
Definition FD_CLOEXEC : Z := 1.
Definition POLLIN : Z := 1.
Definition POLLOUT : Z := 4.
Definition POLLHUP : Z := 16.

Definition u16 (z : Z) : Z := z mod 2 ^ 16.

Inductive file_type := FD_NONE | FD_PIPE | FD_FIFO | FD_REG | FD_DEVICE | FD_SOCKET | FD_BUSYBOX | FD_PROCFS.
#[export] Instance file_type_eq_dec : EqDecision file_type.
Proof. solve_decision. Defined.

Inductive fs_type := EXT4 | VFAT | OtherFs.

(** [union file_data]: the page of a pipe, the slot of a FIFO, a vnode (its
    file system and its data page), the address of a [prth_info_t]. *)
Inductive file_data := NoData | Pipe (a : Z) | Fifo (i : nat) | Vnode (fs : fs_type) (data : Z) | Pti (a : Z).

Record file := mk_file {
  f_type : file_type; f_mode : Z; f_flags : Z; fd_flags : Z; f_pos : Z; f_count : Z;
  f_major : Z; f_minor : Z; f_path : list Z; removed : Z; f_tmpfile : Z; f_data : file_data; f_lock : bool
}.

Definition set_count (c : Z) (f : file) : file :=
  mk_file (f_type f) (f_mode f) (f_flags f) (fd_flags f) (f_pos f) c (f_major f) (f_minor f) (f_path f)
    (removed f) (f_tmpfile f) (f_data f) (f_lock f).
Definition set_fd_flags (v : Z) (f : file) : file :=
  mk_file (f_type f) (f_mode f) (f_flags f) v (f_pos f) (f_count f) (f_major f) (f_minor f) (f_path f)
    (removed f) (f_tmpfile f) (f_data f) (f_lock f).
Definition set_flags (v : Z) (f : file) : file :=
  mk_file (f_type f) (f_mode f) v (fd_flags f) (f_pos f) (f_count f) (f_major f) (f_minor f) (f_path f)
    (removed f) (f_tmpfile f) (f_data f) (f_lock f).
Definition set_mode (v : Z) (f : file) : file :=
  mk_file (f_type f) v (f_flags f) (fd_flags f) (f_pos f) (f_count f) (f_major f) (f_minor f) (f_path f)
    (removed f) (f_tmpfile f) (f_data f) (f_lock f).
Definition set_path (v : list Z) (f : file) : file :=
  mk_file (f_type f) (f_mode f) (f_flags f) (fd_flags f) (f_pos f) (f_count f) (f_major f) (f_minor f) v
    (removed f) (f_tmpfile f) (f_data f) (f_lock f).
Definition set_f_lock (v : bool) (f : file) : file :=
  mk_file (f_type f) (f_mode f) (f_flags f) (fd_flags f) (f_pos f) (f_count f) (f_major f) (f_minor f) (f_path f)
    (removed f) (f_tmpfile f) (f_data f) v.
(** The end of a pipe, as [pipealloc] fills it in. *)
Definition pipe_end (flags a : Z) (f : file) : file :=
  mk_file FD_PIPE (f_mode f) flags (fd_flags f) (f_pos f) (f_count f) (f_major f) (f_minor f) (f_path f)
    (removed f) (f_tmpfile f) (Pipe a) (f_lock f).

(** What the open files rely on: vfs_ext4.c and procfs.c. *)
Class Vfs (Fs : Type) := {
  vfs_ext4_openat : file → Fs → Z * file * Fs;
  vfs_is_dir : list Z → Fs → bool;              (* vfs_ext4_is_dir(path) == 0 *)
  vfs_ext4_fclose : file → Fs → Fs;
  vfs_ext4_dirclose : file → Fs → Fs;
  vfs_ext4_rm : list Z → Fs → Fs;
  vfs_nlink : list Z → Fs → option Z;           (* st_nlink of vfs_ext4_stat, when it succeeds *)
  freeprthinfo : Z → Fs → Fs
}.

(** Opening a path that is not a FIFO makes the file a regular file or a
    device on a mounted file system, or leaves its type; the count is 1. *)
Class VfsLaws (Fs : Type) `{Vfs Fs} : Prop := {
  vfs_openat_ok : ∀ x t r x' t', vfs_ext4_openat x t = (r, x', t') →
    f_count x = 1 → f_type x = FD_NONE → f_lock x = false →
    f_count x' = 1 ∧ f_lock x' = false ∧
    (f_type x' = FD_NONE ∨ ((f_type x' = FD_REG ∨ f_type x' = FD_DEVICE) ∧
       ∃ d, f_data x' = Vnode EXT4 d ∨ f_data x' = Vnode VFAT d))
}.

(** Control points. *)
Inductive pc :=
| NoProc                                              (* no process in this slot *)
| Embryo                                              (* a child that fork is filling in *)
| Run (r : Z)                                         (* outside of the calls; the last one returned r *)
| Close (f : nat) (k : pc)                            (* at fileclose(f), then k *)
| CloseData (f : nat) (ff : file) (k : pc)            (* in fileclose: the last reference is gone *)
| CloseEnd (f : nat) (k : pc)                         (* in fileclose: before the second critical section *)
| Dup3Set (f oldfd newfd : nat) (flags : Z)           (* in dup3: newfd has been closed *)
| PipeTwo (rf : nat) (flags : Z)                      (* in pipe2: pipealloc has one file *)
| Reading (fd f : nat) (n : Z)                        (* in piperead, asleep *)
| Writing (fd f : nat) (n i : Z)                      (* in pipewrite, asleep, next byte i *)
| ForkDup (np i : nat)                                (* in the loop of fork over the descriptors *)
| ExitLoop (fd : nat)                                 (* in the loop of exit over the descriptors *)
| ExitClear (fd : nat).                               (* exit: the file of fd is closed *)

Record proc := mk_proc { ofile : nat → option nat; ofn : Z; nofile : Z; ctl : pc }.

(** What a section shows to the outside: wake-ups of a pipe, descriptors
    stored to user memory, bytes read. *)
Inductive report := OfPipe (a : Z) (e : event) | Stored (r w : Z) | Got (l : list Z).

(** [fileclose] without its two critical sections on the table: the files and
    pipes that go with the last reference. *)
Section files.
Context {St : Type} `{PageAllocator St} {Fs : Type} `{Vfs Fs}.

(** [pipes w !! a] is the pipe in page [a] with the page of its buffer. *)
Record world := mk_world {
  ft_lock : bool;
  files : nat → file;
  pipes : gmap Z (Z * pipe);
  fifos : FifoDefs.table;
  pages : St;
  vfs : Fs;
  procs : nat → proc
}.

Definition with_ft_lock (l : bool) (w : world) : world :=
  mk_world l (files w) (pipes w) (fifos w) (pages w) (vfs w) (procs w).
Definition upd_file (f : nat) (g : file → file) (w : world) : world :=
  mk_world (ft_lock w) (<[f := g (files w f)]> (files w)) (pipes w) (fifos w) (pages w) (vfs w) (procs w).
Definition with_pipes (m : gmap Z (Z * pipe)) (w : world) : world :=
  mk_world (ft_lock w) (files w) m (fifos w) (pages w) (vfs w) (procs w).
Definition with_fifos (t : FifoDefs.table) (w : world) : world :=
  mk_world (ft_lock w) (files w) (pipes w) t (pages w) (vfs w) (procs w).
Definition with_pages (s : St) (w : world) : world :=
  mk_world (ft_lock w) (files w) (pipes w) (fifos w) s (vfs w) (procs w).
Definition with_vfs (t : Fs) (w : world) : world :=
  mk_world (ft_lock w) (files w) (pipes w) (fifos w) (pages w) t (procs w).
Definition upd_proc (p : nat) (g : proc → proc) (w : world) : world :=
  mk_world (ft_lock w) (files w) (pipes w) (fifos w) (pages w) (vfs w) (<[p := g (procs w p)]> (procs w)).

Definition goto (p : nat) (k : pc) (w : world) : world :=
  upd_proc p (λ x, mk_proc (ofile x) (ofn x) (nofile x) k) w.
(** [p->ofile[fd] = o]. *)
Definition set_fd (p fd : nat) (o : option nat) (w : world) : world :=
  upd_proc p (λ x, mk_proc (<[fd := o]> (ofile x)) (ofn x) (nofile x) (ctl x)) w.

Definition ft_acquire (w : world) : res world :=
  if ft_lock w then Panic "double acquire" else Ok (with_ft_lock true w).
Definition ft_release (w : world) : res world :=
  if ft_lock w then Ok (with_ft_lock false w) else Panic "release".

(** ** The table of open files *)

(** The loop of [filealloc], [n] slots left. *)
Fixpoint find_free (n i : nat) (fl : nat → file) : option nat :=
  match n with
  | O => None
  | S n => if f_count (fl i) =? 0 then Some i else find_free n (S i) fl
  end.

Definition fresh (f : file) : file :=
  mk_file FD_NONE 0 0 0 0 1 (f_major f) (f_minor f) [] 0 0 (f_data f) (f_lock f).

Definition filealloc (w : world) : res (option nat * world) :=
  let* w := ft_acquire w in
  match find_free NFILE 0 (files w) with
  | Some i => let* w := ft_release (upd_file i fresh w) in Ok (Some i, w)
  | None => let* w := ft_release w in Ok (None, w)
  end.

Definition filedup (f : nat) (w : world) : res world :=
  let* w := ft_acquire w in
  if f_count (files w f) <? 1 then Panic "filedup"
  else ft_release (upd_file f (λ x, set_count (u16 (f_count x + 1)) x) w).

(** [fileclose] up to the first release of [ftable.lock]; the copy [ff] of
    the file when this was the last reference.  The lock that is taken is the
    one of the copy: nobody would release it. *)
Definition fileclose_enter (f : nat) (w : world) : res (option file * world) :=
  let* w := ft_acquire w in
  if f_count (files w f) <? 1 then Panic "fileclose"
  else
    let w := upd_file f (λ x, set_count (u16 (f_count x - 1)) x) w in
    if 0 <? f_count (files w f) then let* w := ft_release w in Ok (None, w)
    else
      let ff := files w f in
      if f_lock ff then NoFuel
      else
        let* w := ft_release (upd_file f (set_count (u16 (-1))) w) in
        Ok (Some ff, w).

Definition filereadable (f : file) : bool := negb (truthy (Z.land (f_flags f) O_WRONLY)).
Definition filewriteable (f : file) : bool :=
  truthy (Z.land (f_flags f) O_WRONLY) || truthy (Z.land (f_flags f) O_RDWR).

(** Closing a file of an ext4 or vfat file system. *)
Definition close_vnode (ff : file) (tmp : bool) (t : Fs) : Fs :=
  let t := if vfs_is_dir (f_path ff) t then vfs_ext4_dirclose ff t else vfs_ext4_fclose ff t in
  let t := if truthy (removed ff) then vfs_ext4_rm (f_path ff) t else t in
  if tmp && truthy (f_tmpfile ff) then
    match vfs_nlink (f_path ff) t with
    | Some n => if n <=? 1 then vfs_ext4_rm (f_path ff) t else t
    | None => t
    end
  else t.

(** The middle of [fileclose], by the type of the file. *)
Definition fileclose_data (ff : file) (w : world) : res (world * list report) :=
  match f_type ff with
  | FD_PIPE =>
      match f_data ff with
      | Pipe a =>
          let* (d, pi) := of_opt (pipes w !! a) in
          let* (o, s, ev) := pipeclose a d (filewriteable ff) pi (pages w) in
          let m := match o with Some pi => <[a := (d, pi)]> (pipes w) | None => delete a (pipes w) end in
          Ok (with_pages s (with_pipes m w), OfPipe a <$> ev)
      | _ => Undef
      end
  | FD_FIFO =>
      match f_data ff with
      | Fifo i => let* (t, _) := FifoDefs.fifo_close i (f_flags ff) (fifos w) in Ok (with_fifos t w, [])
      | _ => Undef
      end
  | FD_REG | FD_DEVICE =>
      match f_data ff with
      | Vnode EXT4 _ => Ok (with_vfs (close_vnode ff true (vfs w)) w, [])
      | Vnode VFAT _ => Ok (with_vfs (close_vnode ff false (vfs w)) w, [])
      | Vnode OtherFs _ => Panic "fileclose: unknown filesystem type!"
      | _ => Undef
      end
  | FD_PROCFS =>
      match f_data ff with
      | Pti a => Ok (with_vfs (freeprthinfo a (vfs w)) w, [])
      | _ => Undef
      end
  | FD_BUSYBOX | FD_SOCKET | FD_NONE => Ok (w, [])
  end.

Definition reset_file (f : file) : file :=
  mk_file FD_NONE 0 0 (fd_flags f) 0 0 (f_major f) (f_minor f) [] 0 0 (f_data f) (f_lock f).

Definition fileclose_end (f : nat) (w : world) : res world :=
  let* w := ft_acquire w in
  ft_release (upd_file f reset_file w).

(** ** Descriptors *)

(** The first free descriptor from [fd] on, [n] descriptors left, below [lim]. *)
Fixpoint fd_scan (n fd : nat) (lim : Z) (of_ : nat → option nat) : option nat :=
  match n with
  | O => None
  | S n =>
      if Z.of_nat fd <? lim then
        match of_ fd with None => Some fd | Some _ => fd_scan n (S fd) lim of_ end
      else None
  end.

Definition fdalloc (me f : nat) (w : world) : option nat * world :=
  match fd_scan NOFILE 0 (ofn (procs w me)) (ofile (procs w me)) with
  | Some fd => (Some fd, set_fd me fd (Some f) w)
  | None => (None, w)
  end.

(** A negative start indexes before the array. *)
Definition fdalloc2 (me f : nat) (begin : Z) (w : world) : res (option nat * world) :=
  if begin <? 0 then Undef
  else
    match fd_scan (NOFILE - Z.to_nat begin) (Z.to_nat begin) (Z.of_nat NOFILE) (ofile (procs w me)) with
    | Some fd => Ok (Some fd, set_fd me fd (Some f) w)
    | None => Ok (None, w)
    end.

Definition fd_num (o : option nat) : Z := match o with Some fd => Z.of_nat fd | None => -1 end.

(** [fd < 0 || fd >= NOFILE || (f = p->ofile[fd]) == 0]. *)
Definition getfd (me : nat) (fd : Z) (w : world) : option nat :=
  if (fd <? 0) || (Z.of_nat NOFILE <=? fd) then None else ofile (procs w me) (Z.to_nat fd).

(** ** close, dup, dup3, fcntl *)

Definition sys_close (me : nat) (fd : Z) (w : world) : res world :=
  if fd <? 0 then Ok (goto me (Run (- EBADF)) w)
  else
    match getfd me fd w with
    | None => Ok (goto me (Run (- ENFILE)) w)
    | Some f => Ok (goto me (Close f (Run 0)) (set_fd me (Z.to_nat fd) None w))
    end.

Definition sys_dup (me : nat) (fd : Z) (w : world) : res world :=
  match getfd me fd w with
  | None => Ok (goto me (Run (- EBADF)) w)
  | Some f =>
      if nofile (procs w me) <=? fd then Ok (goto me (Run (- EBADF)) w)
      else
        let '(o, w) := fdalloc me f w in
        match o with
        | None => Ok (goto me (Run (- EMFILE)) w)
        | Some new =>
            let* w := filedup f w in
            (* both descriptors name f: f->fd_flags = f->fd_flags *)
            Ok (goto me (Run (Z.of_nat new)) (upd_file f (λ x, set_fd_flags (fd_flags x) x) w))
        end
  end.

Definition sys_dup3 (me : nat) (oldfd newfd flags : Z) (w : world) : res world :=
  match getfd me oldfd w with
  | None => Ok (goto me (Run (- EINVAL)) w)
  | Some f =>
      if oldfd =? newfd then Ok (goto me (Run newfd) w)
      else if (newfd <? 0) || (Z.of_nat NOFILE <=? newfd) || (ofn (procs w me) <=? newfd)
      then Ok (goto me (Run (- EINVAL)) w)
      else
        let k := Dup3Set f (Z.to_nat oldfd) (Z.to_nat newfd) flags in
        match ofile (procs w me) (Z.to_nat newfd) with
        | Some g => Ok (goto me (Close g k) w)
        | None => Ok (goto me k w)
        end
  end.

Definition has (x flag : Z) : bool := truthy (Z.land x flag).

Definition dup3_set (me f oldfd newfd : nat) (flags : Z) (w : world) : res world :=
  let w := set_fd me newfd (Some f) w in
  let* w := filedup f w in
  let* old := of_opt (ofile (procs w me) oldfd) in
  let w := upd_file f (set_fd_flags (Z.land (fd_flags (files w old)) (Z.lnot FD_CLOEXEC))) w in
  let w := if has flags O_CLOEXEC
           then upd_file f (λ x, set_fd_flags (Z.lor (fd_flags x) FD_CLOEXEC) x) w else w in
  Ok (goto me (Run (Z.of_nat newfd)) w).

(** The commands of [fcntl] that work on descriptors and flags, and the size
    of a pipe. *)
Inductive cmd := F_DUPFD | F_DUPFD_CLOEXEC | F_GETFD | F_SETFD | F_GETFL | F_SETFL | F_GETPIPE_SZ.

Definition setfl (flags arg : Z) : Z :=
  u32 (Z.lor (Z.land flags (Z.lnot (Z.lor O_NONBLOCK O_APPEND))) (Z.land arg (Z.lor O_NONBLOCK O_APPEND))).

Definition sys_fcntl (me : nat) (fd : Z) (c : cmd) (arg : Z) (w : world) : res world :=
  match getfd me fd w with
  | None => Ok (goto me (Run (- EBADF)) w)
  | Some f =>
      let x := files w f in
      match c with
      | F_DUPFD =>
          let* (o, w) := fdalloc2 me f (i32 arg) w in
          match o with
          | None => Ok (goto me (Run (- EMFILE)) w)
          | Some new => let* w := filedup f w in Ok (goto me (Run (Z.of_nat new)) w)
          end
      | F_DUPFD_CLOEXEC =>
          let* (o, w) := fdalloc2 me f (i32 arg) w in
          if 0 <? fd_num o then
            let* w := filedup f w in
            Ok (goto me (Run (fd_num o)) (upd_file f (set_fd_flags FD_CLOEXEC) w))
          else Ok (goto me (Run (fd_num o)) w)
      | F_GETFD => Ok (goto me (Run (i32 (fd_flags x))) w)
      | F_SETFD => Ok (goto me (Run 0) (upd_file f (set_fd_flags (u32 arg)) w))
      | F_GETFL => Ok (goto me (Run (i32 (f_flags x))) w)
      | F_SETFL => Ok (goto me (Run 0) (upd_file f (set_flags (setfl (f_flags x) arg)) w))
      | F_GETPIPE_SZ =>
          if negb (bool_decide (f_type x = FD_PIPE)) then Ok (goto me (Run (- EBADF)) w)
          else
            match f_data x with
            | Pipe a =>
                let* (d, pi) := of_opt (pipes w !! a) in
                let* (sz, pi) := pipeget_size pi in
                Ok (goto me (Run (i32 sz)) (with_pipes (<[a := (d, pi)]> (pipes w)) w))
            | _ => Undef
            end
      end
  end.

(** ** pipe2 *)

(** The tests of [sys_pipe2] ([acc]: both [access_ok]) and the first
    [filealloc] of [pipealloc]. *)
Definition sys_pipe2 (me : nat) (flags : Z) (acc : bool) (w : world) : res world :=
  if truthy (Z.land flags (Z.lnot (Z.lor O_CLOEXEC (Z.lor O_NONBLOCK O_DIRECT)))) then Ok (goto me (Run (- EINVAL)) w)
  else if negb acc then Ok (goto me (Run (- EFAULT)) w)
  else
    let* (o, w) := filealloc w in
    match o with
    | None => Ok (goto me (Run (-1)) w)
    | Some rf => Ok (goto me (PipeTwo rf flags) w)
    end.

(** The rest of [pipealloc] with both files: [kalloc] does not return NULL. *)
Definition pipealloc (rf wf : nat) (w : world) : res world :=
  let* (a, s) := pa_alloc (pages w) in
  let* (d, s) := pa_alloc s in
  let w := with_pipes (<[a := (d, new_pipe)]> (pipes w)) (with_pages s w) in
  Ok (upd_file wf (pipe_end O_WRONLY a) (upd_file rf (pipe_end O_RDONLY a) w)).

(** The flags of [pipe2] on the two files. *)
Definition pipe_flags (flags : Z) (rf wf : nat) (w : world) : world :=
  let w := if has flags O_CLOEXEC
           then upd_file wf (set_fd_flags FD_CLOEXEC) (upd_file rf (set_fd_flags FD_CLOEXEC) w) else w in
  let nb x := set_flags (Z.lor (f_flags x) O_NONBLOCK) x in
  if has flags O_NONBLOCK then upd_file wf nb (upd_file rf nb w) else w.

(** [sys_pipe2] after [pipealloc]; [fault]: a [copyout] fails. *)
Definition pipe_fds (me rf wf : nat) (flags : Z) (fault : bool) (w : world) : world * list report :=
  let '(o1, w) := fdalloc me rf w in
  match o1 with
  | None => (goto me (Close rf (Close wf (Run (- EMFILE)))) w, [])
  | Some fdread =>
      let '(o2, w) := fdalloc me wf w in
      match o2 with
      | None => (goto me (Close rf (Close wf (Run (- EMFILE)))) (set_fd me fdread None w), [])
      | Some fdwrite =>
          let w := pipe_flags flags rf wf w in
          if fault then
            (goto me (Close rf (Close wf (Run (-1)))) (set_fd me fdwrite None (set_fd me fdread None w)), [])
          else (goto me (Run 0) w, [Stored (Z.of_nat fdread) (Z.of_nat fdwrite)])
      end
  end.

(** The second [filealloc], the rest of [pipealloc] and of [sys_pipe2]. *)
Definition pipe_two (me rf : nat) (flags : Z) (fault : bool) (w : world) : res (world * list report) :=
  let* (o, w) := filealloc w in
  match o with
  | None => Ok (goto me (Close rf (Run (-1))) w, [])
  | Some wf => let* w := pipealloc rf wf w in Ok (pipe_fds me rf wf flags fault w)
  end.

(** ** read, write and poll on pipes *)

(** [acquire(&f->f_lock); release(&f->f_lock)]. *)
Definition lock_unlock (f : nat) (w : world) : res world :=
  if f_lock (files w f) then Panic "double acquire" else Ok w.

Definition pipe_of (f : nat) (w : world) : res (Z * Z * pipe) :=
  match f_type (files w f), f_data (files w f) with
  | FD_PIPE, Pipe a => let* (d, pi) := of_opt (pipes w !! a) in Ok (a, d, pi)
  | FD_PIPE, _ => Undef
  | _, _ => NoFuel
  end.

(** A segment of [piperead] in [fileread], and what follows its return.
    [resume]: the segment starts after a sleep. *)
Definition read_segment (resume : bool) (dst : Z → bool) (killed : bool) (me fd f : nat) (n : Z) (w : world)
    : res (world * list report) :=
  let* (a, d, pi) := pipe_of f w in
  let nonblock := has (f_flags (files w f)) O_NONBLOCK in
  let* (o, pi, out, ev) :=
    (if resume then piperead_resume dst killed nonblock n pi else piperead dst killed nonblock n pi) in
  let w := with_pipes (<[a := (d, pi)]> (pipes w)) w in
  let rep := (OfPipe a <$> ev) ++ [Got out] in
  match o with
  | Sleep _ => Ok (goto me (Reading fd f n) w, rep)
  | Ret r => let* w := lock_unlock f w in Ok (goto me (Run r) w, rep)
  end.

Definition write_segment (src : Z → option Z) (killed : Z → bool) (me fd f : nat) (n i : Z) (w : world)
    : res (world * list report) :=
  let* (a, d, pi) := pipe_of f w in
  let nonblock := has (f_flags (files w f)) O_NONBLOCK in
  let* (o, pi, ev) := pipewrite_from BUFPAGE src killed nonblock n i pi in
  let w := with_pipes (<[a := (d, pi)]> (pipes w)) w in
  let rep := OfPipe a <$> ev in
  match o with
  | Sleep i => Ok (goto me (Writing fd f n i) w, rep)
  | Ret r => let* w := lock_unlock f w in Ok (goto me (Run r) w, rep)
  end.

(** The bytes of a string, and [strstr]. *)
Definition bytes (s : string) : list Z := (λ c, Z.of_N (Ascii.N_of_ascii c)) <$> String.list_ascii_of_string s.
Fixpoint contains (sub l : list Z) : bool :=
  bool_decide (sub `prefix_of` l) || match l with [] => false | _ :: l => contains sub l end.

(** [acc]: [access_ok]. *)
Definition sys_read (dst : Z → bool) (killed acc : bool) (me : nat) (fd n : Z) (w : world) : res (world * list report) :=
  match getfd me fd w with
  | None => Ok (goto me (Run (- EBADF)) w, [])
  | Some f =>
      if has (f_flags (files w f)) O_PATH then Ok (goto me (Run (- EBADF)) w, [])
      else if negb (filereadable (files w f)) then Ok (goto me (Run (- EBADF)) w, [])
      else if negb acc && negb (contains (bytes "/proc") (f_path (files w f))) then Ok (goto me (Run (- EFAULT)) w, [])
      else
        let* w := lock_unlock f w in
        read_segment false dst killed me (Z.to_nat fd) f n w
  end.

Definition sys_write (src : Z → option Z) (killed : Z → bool) (acc : bool) (me : nat) (fd n : Z) (w : world)
    : res (world * list report) :=
  if (fd <? 0) || (Z.of_nat NOFILE <=? fd) then Ok (goto me (Run (- EBADF)) w, [])
  else
    match getfd me fd w with
    | None => Ok (goto me (Run (- ENOENT)) w, [])
    | Some f =>
        if has (f_flags (files w f)) O_PATH then Ok (goto me (Run (- EBADF)) w, [])
        else if negb acc then Ok (goto me (Run (- EFAULT)) w, [])
        else if negb (filewriteable (files w f)) then Ok (goto me (Run (- EBADF)) w, [])
        else
          let* w := lock_unlock f w in
          write_segment src killed me (Z.to_nat fd) f n 0 w
    end.

(** [filepoll] on a pipe. *)
Definition filepoll (x : file) (pi : pipe) (events : Z) : Z :=
  let r := 0 in
  let r := if has events POLLIN && (negb (nread pi =? nwrite pi) || (writeopen pi =? 0)) then Z.lor r POLLIN else r in
  let r := if has events POLLOUT && (nwrite pi <? u32 (nread pi + size pi)) then Z.lor r POLLOUT else r in
  let r := if (readopen pi =? 0) && has (f_flags x) O_RDONLY then Z.lor r POLLHUP else r in
  if (writeopen pi =? 0) && has (f_flags x) O_WRONLY then Z.lor r POLLHUP else r.

(** ** openat *)

(** The paths that stay open over [exec]. *)
Definition kept_open (path : list Z) : bool :=
  contains (bytes "libc.so.6") path || contains (bytes "libpcre2-8.so.0") path ||
  bool_decide (path = bytes "/etc/passwd") || bool_decide (path = bytes "/etc/group").

(** [sys_openat] from the allocation of the file on.  [st]: the mode of the
    file when it exists; [target]: what the symbolic links of the path
    resolve to, or the error of resolving them. *)
Definition open_file (me : nat) (flags mode umask : Z) (st : option Z) (path : list Z) (target : Z + list Z) (w : world)
    : res world :=
  let* (o, w) := filealloc w in
  match o with
  | None => Ok (goto me (Run (- ENFILE)) w)
  | Some f =>
      let '(o, w) := fdalloc me f w in
      match o with
      | None => Ok (goto me (Run (- EMFILE)) w)
      | Some fd =>
          let w := upd_file f (set_flags (u32 (Z.land flags (Z.lnot O_CLOEXEC)))) w in
          let w := if has flags O_CLOEXEC && negb (kept_open path) then upd_file f (set_fd_flags FD_CLOEXEC) w else w in
          let w := if bool_decide (path = bytes "/tmp") || contains (bytes "/proc") path
                   then upd_file f (λ x, set_flags (Z.lor (f_flags x) O_CREAT) x) w else w in
          let w := upd_file f (set_mode (match st with
                                         | Some m => Z.land m 4095
                                         | None => Z.land (Z.land mode (Z.lnot umask)) 4095
                                         end)) w in
          match target with
          | inl e => Ok (goto me (Run e) w)
          | inr path =>
              let w := upd_file f (set_path path) w in
              let '(r, x, t) := vfs_ext4_openat (files w f) (vfs w) in
              let w := with_vfs t (upd_file f (λ _, x) w) in
              if r <? 0 then Ok (goto me (Run r) (set_fd me fd None w))
              else Ok (goto me (Run (Z.of_nat fd)) w)
          end
      end
  end.

(** ** Processes *)

(** [fork] starts to copy the descriptors to the slot [np], which [allocproc]
    has cleared. *)
Definition fork (me np : nat) (w : world) : res world :=
  match ctl (procs w np) with
  | NoProc =>
      if (np <? NPROC)%nat then
        Ok (goto me (ForkDup np 0)
          (upd_proc np (λ _, mk_proc (λ _, None) (ofn (procs w me)) (nofile (procs w me)) Embryo) w))
      else NoFuel
  | _ => NoFuel
  end.

(** One iteration of the loop of [fork]; afterwards the child runs. *)
Definition fork_dup (me np i : nat) (w : world) : res world :=
  if (i <? NOFILE)%nat then
    let* w :=
      match ofile (procs w me) i with
      | Some f =>
          if 0 <? f_count (files w f) then let* w := filedup f w in Ok (set_fd np i (Some f) w)
          else Ok (set_fd np i None w)
      | None => Ok (set_fd np i None w)
      end in
    Ok (goto me (ForkDup np (S i)) w)
  else Ok (goto me (Run (Z.of_nat np)) (goto np (Run 0) w)).

(** One iteration of the loop of [exit]. *)
Definition exit_loop (me fd : nat) (w : world) : res world :=
  if (fd <? NOFILE)%nat then
    match ofile (procs w me) fd with
    | Some f => Ok (goto me (Close f (ExitClear fd)) w)
    | None => Ok (goto me (ExitLoop (S fd)) w)
    end
  else Ok (goto me NoProc w).

(** ** Execution *)

Inductive action :=
| Open (flags mode umask : Z) (st : option Z) (path : list Z) (target : Z + list Z)
| CloseFd (fd : Z)
| Dup (fd : Z)
| Dup3 (oldfd newfd flags : Z)
| Fcntl (fd : Z) (c : cmd) (arg : Z)
| Pipe2 (flags : Z) (acc : bool)
| Read (fd n : Z) (acc : bool) (dst : Z → bool) (killed : bool)
| Write (fd n : Z) (acc : bool) (src : Z → option Z) (killed : Z → bool)
| Fork (np : nat)
| Exit
| Next (fault : bool) (dst : Z → bool) (src : Z → option Z) (killed : bool).

Definition quiet (m : res world) : res (world * list report) := let* w := m in Ok (w, []).

(** The next section of the call in progress. *)
Definition next (fault : bool) (dst : Z → bool) (src : Z → option Z) (killed : bool) (me : nat) (w : world)
    : res (world * list report) :=
  match ctl (procs w me) with
  | Close f k =>
      let* (o, w) := fileclose_enter f w in
      match o with
      | None => Ok (goto me k w, [])
      | Some ff => Ok (goto me (CloseData f ff k) w, [])
      end
  | CloseData f ff k => let* (w, ev) := fileclose_data ff w in Ok (goto me (CloseEnd f k) w, ev)
  | CloseEnd f k => quiet (let* w := fileclose_end f w in Ok (goto me k w))
  | Dup3Set f oldfd newfd flags => quiet (dup3_set me f oldfd newfd flags w)
  | PipeTwo rf flags => pipe_two me rf flags fault w
  | Reading fd f n => read_segment true dst killed me fd f n w
  | Writing fd f n i => write_segment src (λ _, killed) me fd f n i w
  | ForkDup np i => quiet (fork_dup me np i w)
  | ExitLoop fd => quiet (exit_loop me fd w)
  | ExitClear fd => quiet (Ok (goto me (ExitLoop (S fd)) (set_fd me fd None w)))
  | _ => NoFuel
  end.

Definition call (a : action) (me : nat) (w : world) : res (world * list report) :=
  match a with
  | Open flags mode umask st path target => quiet (open_file me flags mode umask st path target w)
  | CloseFd fd => quiet (sys_close me fd w)
  | Dup fd => quiet (sys_dup me fd w)
  | Dup3 oldfd newfd flags => quiet (sys_dup3 me oldfd newfd flags w)
  | Fcntl fd c arg => quiet (sys_fcntl me fd c arg w)
  | Pipe2 flags acc => quiet (sys_pipe2 me flags acc w)
  | Read fd n acc dst killed => sys_read dst killed acc me fd n w
  | Write fd n acc src killed => sys_write src killed acc me fd n w
  | Fork np => quiet (fork me np w)
  | Exit => quiet (Ok (goto me (ExitLoop 0) w))
  | Next _ _ _ _ => NoFuel
  end.

(** The process [me] executes one section. *)
Definition exec (me : nat) (a : action) (w : world) : res (world * list report) :=
  match a with
  | Next fault dst src killed => next fault dst src killed me w
  | _ => match ctl (procs w me) with Run _ => call a me w | _ => NoFuel end
  end.

Fixpoint run (l : list (nat * action)) (w : world) : res (world * list report) :=
  match l with
  | [] => Ok (w, [])
  | (p, a) :: l =>
      let* (w, ev) := exec p a w in
      let* (w, ev') := run l w in
      Ok (w, ev ++ ev')
  end.

(** After [fileinit]; the first process has no descriptors. *)
Definition zero_file : file := mk_file FD_NONE 0 0 0 0 0 0 0 [] 0 0 NoData false.
Definition fileinit (s : St) (t : Fs) (fi : FifoDefs.table) : world :=
  mk_world false (λ _, zero_file) ∅ (FifoDefs.init_fifo_table fi) s t
    (λ p, mk_proc (λ _, None) (Z.of_nat NOFILE) (Z.of_nat NOFILE) (if bool_decide (p = 0%nat) then Run 0 else NoProc)).
End files.

Arguments world : clear implicits.

End FileDefs.
