(* ===== verification/FileInv.v ===== *)
(** * Open files: the references to a file, and the invariant

    [refs]: how many references the descriptors and the control points of all
    processes hold to a file.  A descriptor that a call has given up and not
    cleared yet, or has set and not counted yet, is [uncounted]; a file that a
    call is about to close is [held].  The invariant [inv] says that the
    reference counts are exact (a file that a failed [openat] has lost apart),
    that a file whose count is the mark -1 is being closed by exactly one
    process, and that a pipe exists, with an end open, exactly as long as a
    file for this end is open. *)

From stdpp Require Import functions.
From S2P Require Import Prelude Ring Pmem PipeDefs Pipe FifoDefs ProcDefs FileDefs.
Import Pmem PipeDefs Pipe FileDefs.

Module FileInv.

(** ** Counting *)

(** A sum in which one term changes. *)
Lemma sum_update (g h : nat → nat) l p :
  NoDup l → p ∈ l → (∀ i, i ≠ p → h i = g i) →
  (sum_list_with h l + g p = sum_list_with g l + h p)%nat.
Proof.
  induction 1 as [|x l Hx Hnd IH]; intros Hin Hext; [by apply elem_of_nil in Hin|]. cbn.
  apply elem_of_cons in Hin as [->|Hin].
  - enough (sum_list_with h l = sum_list_with g l) by lia.
    clear -Hx Hext. induction l as [|y l IH]; [done|]. apply not_elem_of_cons in Hx as [? ?]. cbn. rewrite Hext by done.
    rewrite IH by done. done.
  - rewrite (Hext x) by (intros ->; done). specialize (IH Hin Hext). lia.
Qed.

Lemma sum_bound (g : nat → nat) l b : (∀ i, i ∈ l → (g i ≤ b)%nat) → (sum_list_with g l ≤ length l * b)%nat.
Proof.
  induction l as [|x l IH]; intros Hb; cbn; [lia|]. pose proof (Hb x (list_elem_of_here x l)).
  pose proof (IH (λ i Hi, Hb i (list_elem_of_further i x l Hi))). lia.
Qed.

Lemma sum_zero (g : nat → nat) l : sum_list_with g l = 0%nat → ∀ i, i ∈ l → g i = 0%nat.
Proof.
  induction l as [|x l IH]; cbn; intros Hs i; [by intros ?%elem_of_nil|].
  intros [->|Hi]%elem_of_cons; [lia|]. apply IH; [lia|done].
Qed.

Lemma sum_le (g : nat → nat) l i : i ∈ l → (g i ≤ sum_list_with g l)%nat.
Proof. intros Hi. induction Hi; cbn; lia. Qed.

Lemma sum_le2 (g : nat → nat) l i j : NoDup l → i ∈ l → j ∈ l → i ≠ j → (g i + g j ≤ sum_list_with g l)%nat.
Proof.
  induction 1 as [|x l Hx Hnd IH]; intros Hi Hj Hne; [by apply elem_of_nil in Hi|]. cbn.
  apply elem_of_cons in Hi as [->|Hi]; apply elem_of_cons in Hj as [->|Hj]; try done.
  - pose proof (sum_le g l j Hj). lia.
  - pose proof (sum_le g l i Hi). lia.
  - specialize (IH Hi Hj Hne). lia.
Qed.

(** ** References *)

Fixpoint uncounted (k : pc) : option nat :=
  match k with
  | Close _ k | CloseData _ _ k | CloseEnd _ k => uncounted k
  | Dup3Set _ _ newfd _ => Some newfd
  | ExitClear fd => Some fd
  | _ => None
  end.

Fixpoint held (k : pc) : list nat :=
  match k with
  | Close f k => f :: held k
  | CloseData _ _ k | CloseEnd _ k => held k
  | PipeTwo rf _ => [rf]
  | _ => []
  end.

Definition closing (k : pc) : option nat :=
  match k with CloseData f _ _ | CloseEnd f _ => Some f | _ => None end.

(** The descriptor [fd] is a counted reference to [f]. *)
Definition cnt (of_ : nat → option nat) (u : option nat) (f fd : nat) : nat :=
  if decide (of_ fd = Some f ∧ u ≠ Some fd) then 1%nat else 0%nat.
Definition fd_refs (of_ : nat → option nat) (u : option nat) (f : nat) : nat :=
  sum_list_with (cnt of_ u f) (seq 0 NOFILE).
Definition held_refs (f : nat) (l : list nat) : nat := sum_list_with (λ g, if decide (g = f) then 1%nat else 0%nat) l.
Definition refs_of (x : proc) (f : nat) : nat :=
  (fd_refs (ofile x) (uncounted (ctl x)) f + held_refs f (held (ctl x)))%nat.
Definition refs (ps : nat → proc) (f : nat) : nat := sum_list_with (λ p, refs_of (ps p) f) (seq 0 NPROC).

Lemma in_range n i : i ∈ seq 0 n ↔ (i < n)%nat.
Proof. rewrite list_elem_of_In, in_seq. lia. Qed.

(** One process changes. *)
Lemma refs_change ps ps' p f :
  (p < NPROC)%nat → (∀ q, q ≠ p → ps' q = ps q) → (refs ps' f + refs_of (ps p) f = refs ps f + refs_of (ps' p) f)%nat.
Proof.
  intros Hp Hq. unfold refs. apply (sum_update (λ q, refs_of (ps q) f) (λ q, refs_of (ps' q) f));
    [apply NoDup_seq|by apply in_range|]. intros i Hi. by rewrite Hq.
Qed.

(** The descriptors agree but for [fd], and at most [fd] is uncounted. *)
Lemma fd_refs_change of1 of2 u1 u2 fd f :
  (fd < NOFILE)%nat → (∀ i, i ≠ fd → of2 i = of1 i) → (u1 = None ∨ u1 = Some fd) → (u2 = None ∨ u2 = Some fd) →
  (fd_refs of2 u2 f + cnt of1 u1 f fd = fd_refs of1 u1 f + cnt of2 u2 f fd)%nat.
Proof.
  intros Hfd Hof H1 H2. unfold fd_refs. apply sum_update; [apply NoDup_seq|by apply in_range|].
  intros i Hi. unfold cnt. rewrite Hof by done. repeat case_decide; try done; exfalso; naive_solver congruence.
Qed.

Lemma fd_refs_ext of1 of2 u f : (∀ i, of1 i = of2 i) → fd_refs of1 u f = fd_refs of2 u f.
Proof.
  intros He. unfold fd_refs. induction (seq 0 NOFILE) as [|i l IH]; [done|]. cbn. rewrite IH. f_equal. unfold cnt. by rewrite He.
Qed.

Lemma cnt_None of_ u f fd : of_ fd = None → cnt of_ u f fd = 0%nat.
Proof. intros H. unfold cnt. rewrite H. rewrite decide_False; [done|]. by intros [? _]. Qed.
Lemma cnt_uncounted of_ f fd : cnt of_ (Some fd) f fd = 0%nat.
Proof. unfold cnt. rewrite decide_False; [done|]. by intros [_ ?]. Qed.
Lemma cnt_Some of_ u f g fd : of_ fd = Some g → u ≠ Some fd → cnt of_ u f fd = if decide (g = f) then 1%nat else 0%nat.
Proof. intros H Hu. unfold cnt. rewrite H. repeat case_decide; naive_solver. Qed.

Lemma fd_refs_pos of_ u f fd : (fd < NOFILE)%nat → of_ fd = Some f → u ≠ Some fd → (1 ≤ fd_refs of_ u f)%nat.
Proof.
  intros Hfd Hof Hu. unfold fd_refs. pose proof (sum_le (cnt of_ u f) (seq 0 NOFILE) fd) as H.
  rewrite (cnt_Some of_ u f f fd), decide_True in H by done. apply H. by apply in_range.
Qed.

Lemma fd_refs_bound of_ u f : (fd_refs of_ u f ≤ NOFILE)%nat.
Proof.
  unfold fd_refs. pose proof (sum_bound (cnt of_ u f) (seq 0 NOFILE) 1) as H. rewrite length_seq in H.
  rewrite Nat.mul_1_r in H. apply H. intros i _. unfold cnt. case_decide; lia.
Qed.

Lemma held_refs_pos f l : f ∈ l → (1 ≤ held_refs f l)%nat.
Proof. intros H. induction H; cbn; [rewrite decide_True by done; lia|fold (held_refs x l); lia]. Qed.
Lemma held_refs_bound f l : (held_refs f l ≤ length l)%nat.
Proof. induction l; cbn; [lia|]. fold (held_refs f l). case_decide; lia. Qed.

Lemma refs_ge ps p f : (p < NPROC)%nat → (refs_of (ps p) f ≤ refs ps f)%nat.
Proof. intros Hp. apply (sum_le (λ p, refs_of (ps p) f)). by apply in_range. Qed.
Lemma refs_ge2 ps p q f :
  (p < NPROC)%nat → (q < NPROC)%nat → p ≠ q → (refs_of (ps p) f + refs_of (ps q) f ≤ refs ps f)%nat.
Proof. intros Hp Hq Hne. apply (sum_le2 (λ p, refs_of (ps p) f)); [apply NoDup_seq|by apply in_range..|done]. Qed.

Lemma refs_bound ps f :
  (∀ p, (p < NPROC)%nat → (length (held (ctl (ps p))) ≤ 2)%nat) → (refs ps f ≤ NPROC * (NOFILE + 2))%nat.
Proof.
  intros Hl. unfold refs. pose proof (sum_bound (λ p, refs_of (ps p) f) (seq 0 NPROC) (NOFILE + 2)) as H.
  rewrite length_seq in H. apply H. intros p Hp%in_range. unfold refs_of.
  pose proof (fd_refs_bound (ofile (ps p)) (uncounted (ctl (ps p))) f).
  pose proof (held_refs_bound f (held (ctl (ps p)))). pose proof (Hl p Hp). lia.
Qed.

(** Without descriptors there are no references. *)
Lemma fd_refs_none of_ u f : (∀ fd, of_ fd = None) → fd_refs of_ u f = 0%nat.
Proof.
  intros Hn. unfold fd_refs. induction (seq 0 NOFILE) as [|i l IH]; [done|]. cbn [sum_list_with]. by rewrite IH, cnt_None.
Qed.

Lemma refs_none (ps : nat → proc) f : (∀ p fd, ofile (ps p) fd = None) → (∀ p, held (ctl (ps p)) = []) → refs ps f = 0%nat.
Proof.
  intros Ho Hh. unfold refs. induction (seq 0 NPROC) as [|p l IH]; [done|]. cbn [sum_list_with]. rewrite IH.
  unfold refs_of. by rewrite Hh, fd_refs_none by apply Ho.
Qed.

(** The sums are only used through these lemmas. *)
#[global] Opaque fd_refs refs.

(** ** The invariant *)

Section invariant.
Context {St : Type} `{PageAllocator St} {Fs : Type} `{Vfs Fs}.
Abbreviation world := (world St Fs).
Implicit Types (w : world) (f g fd p q me : nat) (a d : Z) (k : pc).

(** What a section keeps of a file that other processes refer to. *)
Definition kind (x : file) : file_type * file_data * bool * bool * bool :=
  (f_type x, f_data x, filewriteable x, filereadable x, f_lock x).

(** Count, references, whether somebody is closing the file, whether it is an
    end of a pipe. *)
Definition slot_ok (c : Z) (r : nat) (cl pipe : Prop) : Prop :=
  (c = 0 ∧ r = 0%nat ∧ ¬ cl) ∨ (c = 65535 ∧ r = 0%nat ∧ cl) ∨
  (0 < c < 65535 ∧ ¬ cl ∧ (c = Z.of_nat r ∨ (c = 1 ∧ r = 0%nat ∧ ¬ pipe))).

(** The descriptors and the control point of a process are within the tables. *)
Record range_ok (x : proc) : Prop := {
  ro_fd : ∀ fd f, ofile x fd = Some f → (fd < NOFILE)%nat ∧ (f < NFILE)%nat;
  ro_held : ∀ f, f ∈ held (ctl x) → (f < NFILE)%nat;
  ro_two : (length (held (ctl x)) ≤ 2)%nat;
  ro_closing : ∀ f, closing (ctl x) = Some f → (f < NFILE)%nat
}.

Definition closed_by w p f : Prop := closing (ctl (procs w p)) = Some f.
#[export] Instance closed_by_dec w p f : Decision (closed_by w p f).
Proof. unfold closed_by. apply _. Defined.
Definition is_pipe w f : Prop := f_type (files w f) = FD_PIPE.

Record counts w : Prop := {
  a_lock : ft_lock w = false;
  a_slot : ∀ f, (f < NFILE)%nat →
    slot_ok (f_count (files w f)) (refs (procs w) f) (∃ p, closed_by w p f) (is_pipe w f);
  a_closing : ∀ p q f, closed_by w p f → closed_by w q f → p = q;
  a_range : ∀ p, range_ok (procs w p);
  a_proc : ∀ p, (NPROC ≤ p)%nat → ctl (procs w p) = NoProc
}.

(** The file is open, or its pipe is still to be closed. *)
Definition live w f : Prop :=
  0 < f_count (files w f) < 65535 ∨ ∃ p ff k, ctl (procs w p) = CloseData f ff k.

(** [f] is the end of the pipe [a] for writing ([wr]) or for reading. *)
Definition end_of w f a (wr : bool) : Prop :=
  (f < NFILE)%nat ∧ live w f ∧ is_pipe w f ∧ f_data (files w f) = Pipe a ∧ filewriteable (files w f) = wr.

Definition open_flag (wr : bool) (pi : pipe) : Z := if wr then writeopen pi else readopen pi.

Definition pipe_ok (pi : pipe) : Prop :=
  p_lock pi = false ∧ size pi = PIPESIZE ∧ ∃ R l, holds BUFPAGE pi R l.

Record chans w : Prop := {
  b_end : ∀ f a wr, end_of w f a wr → ∃ d pi, pipes w !! a = Some (d, pi) ∧ open_flag wr pi = 1;
  b_uniq : ∀ f g a wr, end_of w f a wr → end_of w g a wr → f = g;
  b_pipe : ∀ a d pi, pipes w !! a = Some (d, pi) →
    pipe_ok pi ∧ (∃ wr, open_flag wr pi = 1) ∧
    (∀ wr, open_flag wr pi = 0 ∨ (open_flag wr pi = 1 ∧ ∃ f, end_of w f a wr));
  b_page : ∀ a d pi, pipes w !! a = Some (d, pi) →
    pa_owned (pages w) a ∧ pa_owned (pages w) d ∧ a ≠ d ∧ pipes w !! d = None;
  b_data : ∀ a b d pi pi', pipes w !! a = Some (d, pi) → pipes w !! b = Some (d, pi') → a = b;
  b_inv : pa_inv (pages w);
  b_avail : pa_avail (pages w) (2 * NFILE - 2 * base.size (pipes w))
}.

(** Files that are not free have a type with its data. *)
Definition type_ok (x : file) : Prop :=
  match f_type x with
  | FD_NONE => True
  | FD_PIPE => ∃ a, f_data x = Pipe a
  | FD_REG | FD_DEVICE => ∃ d, f_data x = Vnode EXT4 d ∨ f_data x = Vnode VFAT d
  | _ => False
  end.

(** What a call in progress relies on. *)
Definition dup_ok (x : proc) (f oldfd newfd : nat) : Prop :=
  ofile x oldfd = Some f ∧ oldfd ≠ newfd ∧ (newfd < NOFILE)%nat.
Definition cleared (x : proc) (n : nat) : Prop := ∀ fd, (fd < n)%nat → ofile x fd = None.

Fixpoint tail_ok (x : proc) (k : pc) : Prop :=
  match k with
  | Run _ => True
  | Close _ k => tail_ok x k
  | Dup3Set f oldfd newfd _ => dup_ok x f oldfd newfd
  | ExitClear fd => (fd < NOFILE)%nat ∧ cleared x fd
  | _ => False
  end.

Definition at_ok (fl : nat → file) (ps : nat → proc) p : Prop :=
  let x := ps p in
  match ctl x with
  | NoProc => ∀ fd, ofile x fd = None
  | Embryo | Run _ => True
  | Close _ k => tail_ok x k
  | CloseData f ff k => kind (fl f) = kind ff ∧ tail_ok x k
  | CloseEnd f k => tail_ok x k
  | Dup3Set f oldfd newfd _ => dup_ok x f oldfd newfd
  | PipeTwo rf _ => f_type (fl rf) = FD_NONE ∧ f_count (fl rf) = 1
  | Reading fd f _ => ofile x fd = Some f ∧ f_type (fl f) = FD_PIPE
  | Writing fd f _ i => ofile x fd = Some f ∧ f_type (fl f) = FD_PIPE ∧ 0 ≤ i
  | ForkDup np i => np ≠ p ∧ ctl (ps np) = Embryo ∧ ∀ j, (i ≤ j)%nat → ofile (ps np) j = None
  | ExitLoop fd => cleared x fd
  | ExitClear fd => (fd < NOFILE)%nat ∧ cleared x fd
  end.

Definition forking (k : pc) : option nat := match k with ForkDup np _ => Some np | _ => None end.

Record points w : Prop := {
  c_at : ∀ p, at_ok (files w) (procs w) p;
  c_fork : ∀ p q np, forking (ctl (procs w p)) = Some np → forking (ctl (procs w q)) = Some np → p = q;
  c_type : ∀ f, (f < NFILE)%nat → f_count (files w f) ≠ 0 → type_ok (files w f);
  c_flock : ∀ f, f_lock (files w f) = false
}.

Record inv w : Prop := { i_counts : counts w; i_chans : chans w; i_points : points w }.

(** ** Reading the state after an update *)

Lemma files_upd f h w g : files (upd_file f h w) g = if decide (g = f) then h (files w f) else files w g.
Proof. cbn. unfold insert, fn_insert. repeat case_decide; congruence. Qed.
Lemma procs_upd p h w q : procs (upd_proc p h w) q = if decide (q = p) then h (procs w p) else procs w q.
Proof. cbn. unfold insert, fn_insert. repeat case_decide; congruence. Qed.
Lemma procs_upd_eq p h w : procs (upd_proc p h w) p = h (procs w p).
Proof. by rewrite procs_upd, decide_True. Qed.
Lemma procs_upd_ne p h w q : q ≠ p → procs (upd_proc p h w) q = procs w q.
Proof. intros. by rewrite procs_upd, decide_False. Qed.

End invariant.

End FileInv.
