(* ===== verification/File.v ===== *)
(** * Open files: how a section preserves the invariant, by what it changes

    One process moves on; at most one file changes its count.  The lemmas
    [counts_*] are the ways a count can change; [chans_ext] and [points_upd]
    say when the pipes and the calls of the other processes are not
    concerned. *)

From stdpp Require Import functions.
From S2P Require Import Prelude Ring Pmem PipeDefs Pipe FifoDefs ProcDefs FileDefs FileInv.
Import Pmem PipeDefs Pipe FileDefs FileInv.

Module File.

Section preserve.
Context {St : Type} `{PageAllocator St} {Fs : Type} `{Vfs Fs}.
Abbreviation world := (world St Fs).
Implicit Types (w : world) (f g fd p q me : nat) (a d : Z) (k : pc) (x : proc).

(** ** Counts *)

Lemma counts_used w p : counts w → ctl (procs w p) ≠ NoProc → (p < NPROC)%nat.
Proof. intros Hc Hk. destruct (decide (p < NPROC)%nat); [done|]. destruct Hk. apply (a_proc _ Hc). lia. Qed.

(** Only the process [me] changes: what is to be shown for a file that no other
    process is closing, and for a file that another process is closing. *)
Lemma counts_upd w w' me :
  counts w → (me < NPROC)%nat → ft_lock w' = false → (∀ p, p ≠ me → procs w' p = procs w p) → range_ok (procs w' me) →
  (∀ f r', (f < NFILE)%nat → (r' + refs_of (procs w me) f = refs (procs w) f + refs_of (procs w' me) f)%nat →
     (refs_of (procs w me) f ≤ refs (procs w) f)%nat → (r' ≤ NPROC * (NOFILE + 2))%nat →
     slot_ok (f_count (files w f)) (refs (procs w) f) (closed_by w me f) (is_pipe w f) →
     slot_ok (f_count (files w' f)) r' (closed_by w' me f) (is_pipe w' f)) →
  (∀ f, (f < NFILE)%nat → f_count (files w f) = 65535 → ¬ closed_by w me f → refs_of (procs w me) f = 0%nat →
     f_count (files w' f) = 65535 ∧ refs_of (procs w' me) f = 0%nat ∧ ¬ closed_by w' me f) →
  counts w'.
Proof.
  intros [Hl Hs Hcl Hr Hp] Hme Hl' Hoth Hr' Hmine Hother.
  assert (Hother_cl : ∀ p f, p ≠ me → closed_by w' p f ↔ closed_by w p f) by (intros p f Hne; unfold closed_by; by rewrite Hoth).
  assert (Hrefs : ∀ f, (refs (procs w') f + refs_of (procs w me) f = refs (procs w) f + refs_of (procs w' me) f)%nat).
  { intros f. by apply refs_change. }
  assert (Hra : ∀ p, range_ok (procs w' p)).
  { intros p. destruct (decide (p = me)) as [->|Hne]; [done|]. rewrite Hoth by done. apply Hr. }
  assert (Hbig : ∀ f, (refs (procs w') f ≤ NPROC * (NOFILE + 2))%nat).
  { intros f. apply refs_bound. intros p _. apply (ro_two _ (Hra p)). }
  split; [done| | |done|].
  - intros f Hf. pose proof (Hs f Hf) as Hsf. pose proof (refs_ge (procs w) me f Hme) as Hge.
    destruct (decide (f_count (files w f) = 65535 ∧ ¬ closed_by w me f)) as [[H1 H2]|Hno].
    + destruct Hsf as [(? & _)|[(_ & Hz & q & Hq)|(? & _)]]; [lia| |lia].
      assert (Hqm : q ≠ me) by (intros ->; done).
      destruct (Hother f Hf H1 H2 ltac:(lia)) as (E1 & E2 & E3). right. left. specialize (Hrefs f). split_and!; [done|lia|].
      exists q. by apply Hother_cl.
    + assert (Hnobody : ∀ p, p ≠ me → ¬ closed_by w p f).
      { intros p Hne Hpc. apply Hno. destruct Hsf as [(_ & _ & Hn)|[(Hc & _ & _)|(_ & Hn & _)]].
        - destruct Hn. eauto.
        - split; [done|]. intros Hm. by apply Hne, (Hcl p me f).
        - destruct Hn. eauto. }
      assert (Hiff : (∃ p, closed_by w p f) ↔ closed_by w me f).
      { split; [|eauto]. intros (p & Hpc). destruct (decide (p = me)) as [->|Hne]; [done|]. by apply Hnobody in Hpc. }
      assert (Hiff' : (∃ p, closed_by w' p f) ↔ closed_by w' me f).
      { split; [|eauto]. intros (p & Hpc). destruct (decide (p = me)) as [->|Hne]; [done|]. apply Hother_cl in Hpc; [|done]. by apply Hnobody in Hpc. }
      assert (Hm : slot_ok (f_count (files w' f)) (refs (procs w') f) (closed_by w' me f) (is_pipe w' f)).
      { apply (Hmine f); [done|apply Hrefs|done|apply Hbig|]. unfold slot_ok in *. rewrite <-!Hiff. exact Hsf. }
      unfold slot_ok in *. rewrite !Hiff'. exact Hm.
  - assert (Hexcl : ∀ q f, q ≠ me → closed_by w q f → ¬ closed_by w' me f).
    { intros q f Hqm Hqf. pose proof (ro_closing _ (Hr q) f Hqf) as Hf. pose proof (refs_ge (procs w) me f Hme).
      destruct (Hs f Hf) as [(_ & _ & Hn)|[(Hc & Hz & _)|(_ & Hn & _)]]; [destruct Hn; eauto| |destruct Hn; eauto].
      apply (Hother f Hf Hc); [|lia]. intros Hm. by apply Hqm, (Hcl q me f). }
    intros p q f Hpf Hqf. destruct (decide (p = me)) as [->|Hpm], (decide (q = me)) as [->|Hqm]; [done|..].
    + rewrite Hother_cl in Hqf by done. by destruct (Hexcl q f Hqm Hqf).
    + rewrite Hother_cl in Hpf by done. by destruct (Hexcl p f Hpm Hpf).
    + rewrite Hother_cl in Hpf, Hqf by done. by apply (Hcl p q f).
  - intros p Hp'. rewrite Hoth by lia. by apply Hp.
Qed.

(** The process [me] moves on, its descriptors stay within the tables. *)
Record moved w w' me : Prop := {
  m_me : (me < NPROC)%nat;
  m_lock : ft_lock w' = false;
  m_oth : ∀ p, p ≠ me → procs w' p = procs w p;
  m_range : range_ok (procs w' me)
}.

(** How the count [c] of a file with [t] references and the references [r] of
    the process to it can change together; [cl]: the process is closing it. *)
Inductive trans (t : nat) (c c' : Z) (r r' : nat) (cl cl' pipe pipe' : Prop) : Prop :=
| tr_same : c' = c → r' = r → (cl' ↔ cl) → (pipe' → pipe ∨ (0 < r)%nat) → trans t c c' r r' cl cl' pipe pipe'
| tr_inc : 0 < c < 65535 → (0 < t)%nat → c' = c + 1 → r' = S r → ¬ cl' → (pipe' → pipe) → trans t c c' r r' cl cl' pipe pipe'
| tr_dec : 1 < c < 65535 → c' = c - 1 → r = S r' → ¬ cl' → (pipe' → pipe) → trans t c c' r r' cl cl' pipe pipe'
| tr_last : c = 1 → c' = 65535 → r = S r' → cl' → trans t c c' r r' cl cl' pipe pipe'
| tr_end : c = 65535 → c' = 0 → cl → ¬ cl' → r' = r → trans t c c' r r' cl cl' pipe pipe'
| tr_new : c = 0 → c' = 1 → r' = S r → ¬ cl' → trans t c c' r r' cl cl' pipe pipe'
| tr_lost : c = 0 → c' = 1 → r' = r → ¬ cl' → ¬ pipe' → trans t c c' r r' cl cl' pipe pipe'.

Lemma counts_trans w w' me :
  counts w → moved w w' me →
  (∀ f, (f < NFILE)%nat → trans (refs (procs w) f) (f_count (files w f)) (f_count (files w' f)) (refs_of (procs w me) f) (refs_of (procs w' me) f)
     (closed_by w me f) (closed_by w' me f) (is_pipe w f) (is_pipe w' f)) →
  counts w'.
Proof.
  intros Hc [M1 M2 M3 M4] Ht. apply (counts_upd w w' me); try done.
  - intros f r' Hf Heq Hle Hb Hs. unfold NPROC, ProcDefs.NPROC, NOFILE in Hb.
    destruct (Ht f Hf) as [? ? ? Hp|? ? ? ? ? ?|? ? ? ? ?|? ? ? ?|? ? ? ? ?|? ? ? ?|? ? ? ? ?];
      destruct Hs as [(? & ? & ?)|[(? & ? & ?)|(? & ? & [?|(? & ? & ?)])]];
      unfold slot_ok; try (exfalso; lia); try (exfalso; tauto);
      first [left; split_and!; [lia|lia|tauto]|right; left; split_and!; [lia|lia|tauto]
            |right; right; split_and!; [lia|lia|tauto|first [left; lia|right; split_and!; [lia|lia|tauto]
               |right; split_and!; [lia|lia|intros Hpp; destruct (Hp Hpp); [tauto|lia]]]]].
  - intros f Hf H1 H2 H3. destruct (Ht f Hf); try lia; try tauto. split_and!; [lia|lia|tauto].
Qed.

(** ** Pipes *)

(** The same pipes in the same pages with the same open ends; their contents
    may differ. *)
Definition same_pipes (m m' : gmap Z (Z * pipe)) : Prop :=
  dom m' = dom m ∧
  ∀ a d pi, m !! a = Some (d, pi) → ∃ pi', m' !! a = Some (d, pi') ∧ (∀ wr, open_flag wr pi' = open_flag wr pi) ∧ (pipe_ok pi → pipe_ok pi').

Lemma same_pipes_refl m : same_pipes m m.
Proof. split; [done|]. intros a d pi E. by exists pi. Qed.

Lemma same_pipes_insert m a d pi pi' :
  m !! a = Some (d, pi) → (∀ wr, open_flag wr pi' = open_flag wr pi) → (pipe_ok pi → pipe_ok pi') →
  same_pipes m (<[a := (d, pi')]> m).
Proof.
  intros E Hf Hok. split.
  - rewrite dom_insert_L. apply elem_of_dom_2 in E. set_solver.
  - intros b d' pj Eb. destruct (decide (b = a)) as [->|Hne].
    + rewrite E in Eb. injection Eb as <- <-. exists pi'. by rewrite lookup_insert_eq.
    + exists pj. by rewrite lookup_insert_ne.
Qed.

Lemma same_pipes_back m m' a d pi' :
  same_pipes m m' → m' !! a = Some (d, pi') →
  ∃ pi, m !! a = Some (d, pi) ∧ (∀ wr, open_flag wr pi' = open_flag wr pi) ∧ (pipe_ok pi → pipe_ok pi').
Proof.
  intros [Hd Hm] E. assert (Ha : a ∈ dom m) by (rewrite <-Hd; by apply elem_of_dom_2 in E).
  apply elem_of_dom in Ha as [[d0 pi] E0]. destruct (Hm a d0 pi E0) as (pi1 & E1 & H1 & H2).
  rewrite E in E1. injection E1 as <- <-. eauto.
Qed.

Lemma chans_ext w w' :
  chans w → (∀ f a wr, end_of w' f a wr ↔ end_of w f a wr) → same_pipes (pipes w) (pipes w') → pages w' = pages w → chans w'.
Proof.
  intros [B1 B2 B3 B4 B5 B6 B7] He Hp Hs.
  assert (Hback := λ a d pi', same_pipes_back _ _ a d pi' Hp). destruct Hp as [Hd Hp]. split.
  - intros f a wr (d & pi & E & Ho)%He%B1. destruct (Hp a d pi E) as (pi' & E' & Hf & _). exists d, pi'. by rewrite Hf.
  - intros f g a wr Hf%He Hg%He. eauto.
  - intros a d pi' (pi & E & Hf & Hok)%Hback. destruct (B3 a d pi E) as (H1 & (wr & H2) & H3).
    split_and!; [by apply Hok|exists wr; by rewrite Hf|]. intros wr'. rewrite Hf. destruct (H3 wr') as [?|(? & f & ?)]; [by left|right].
    split; [done|]. exists f. by apply He.
  - intros a d pi' (pi & E & _)%Hback. rewrite Hs. destruct (B4 a d pi E) as (? & ? & ? & Hn). split_and!; try done.
    apply not_elem_of_dom. rewrite Hd. by apply not_elem_of_dom.
  - intros a b d pi pi' (? & E & _)%Hback (? & E' & _)%Hback. by apply (B5 a b d _ _ E E').
  - by rewrite Hs.
  - rewrite Hs. replace (base.size (pipes w')) with (base.size (pipes w)); [done|].
    rewrite <-!size_dom. by rewrite Hd.
Qed.

Lemma kind_type (y y' : file) : kind y' = kind y → f_type y' = f_type y.
Proof. unfold kind. congruence. Qed.

Lemma kind_lock (y y' : file) : kind y' = kind y → f_lock y' = f_lock y.
Proof. unfold kind. congruence. Qed.
Lemma kind_type_ok (y y' : file) : kind y' = kind y → type_ok y → type_ok y'.
Proof. unfold kind, type_ok. intros [= -> -> _ _ _]. done. Qed.

(** The ends of pipes when no file changes its kind. *)
Lemma end_of_same w w' :
  (∀ f, (f < NFILE)%nat → kind (files w' f) = kind (files w f)) →
  (∀ f, (f < NFILE)%nat → is_pipe w f → live w' f ↔ live w f) →
  ∀ f a wr, end_of w' f a wr ↔ end_of w f a wr.
Proof.
  intros Hk Hl f a wr. unfold end_of, is_pipe in *. split; intros (Hf & Hlv & Ht & Hd & Hw); pose proof (Hk f Hf) as E; unfold kind in E;
    injection E as E1 E2 E3 E4 E5; split_and!; try congruence; apply (Hl f Hf); congruence.
Qed.

(** ** Calls in progress *)

(** The others are not concerned when the files they use keep their kind. *)
Lemma points_gen w w' me :
  points w → (∀ p, p ≠ me → procs w' p = procs w p) →
  (∀ p i, ctl (procs w p) = ForkDup me i → ctl (procs w' me) = Embryo ∧ ∀ j, (i ≤ j)%nat → ofile (procs w' me) j = None) →
  (∀ p f, p ≠ me → closed_by w p f ∨ f ∈ held (ctl (procs w p)) ∨ (∃ fd, ofile (procs w p) fd = Some f ∧ uncounted (ctl (procs w p)) = None) →
     kind (files w' f) = kind (files w f)) →
  (∀ p f, p ≠ me → f ∈ held (ctl (procs w p)) → f_count (files w f) = 1 → f_count (files w' f) = 1) →
  at_ok (files w') (procs w') me →
  (∀ np, forking (ctl (procs w' me)) = Some np → ∀ p, p ≠ me → forking (ctl (procs w p)) ≠ Some np) →
  (∀ f, (f < NFILE)%nat → f_count (files w' f) ≠ 0 → type_ok (files w' f)) → (∀ f, f_lock (files w' f) = false) →
  points w'.
Proof.
  intros [C1 C2 C3 C4] Hoth Hemb Hk Hone Hme Hfork Ht Hl. split; [|..|done|done].
  - intros p. destruct (decide (p = me)) as [->|Hne]; [done|]. specialize (C1 p). unfold at_ok in *. rewrite Hoth by done.
    pose proof (Hk p) as Hkp. pose proof (Hone p) as Hop. unfold closed_by in Hkp.
    destruct (ctl (procs w p)) eqn:E; try done; cbn [closing held uncounted] in Hkp, Hop.
    + destruct C1 as [C1 ?]. split; [|done]. rewrite Hkp; [done|done|by left].
    + destruct C1 as [C1 C1']. split; [|apply Hop; [done|by left|done]]. rewrite <-C1. apply kind_type, Hkp; [done|]. right. left. by left.
    + destruct C1 as [C1 C1']. split; [done|]. rewrite <-C1'. apply kind_type, Hkp; [done|]. right. right. eauto.
    + destruct C1 as (C1 & C1' & C1''). split_and!; try done. rewrite <-C1'. apply kind_type, Hkp; [done|]. right. right. eauto.
    + destruct C1 as (Hnp & He & Hn). split; [done|]. destruct (decide (np = me)) as [->|]; [by apply (Hemb p)|by rewrite Hoth].
  - intros p q np Hp Hq. destruct (decide (p = me)) as [->|Hpm], (decide (q = me)) as [->|Hqm]; [done|..].
    + rewrite Hoth in Hq by done. by destruct (Hfork np Hp q Hqm).
    + rewrite Hoth in Hp by done. by destruct (Hfork np Hq p Hpm).
    + rewrite Hoth in Hp, Hq by done. by apply (C2 p q np).
Qed.

Lemma points_upd w w' me :
  points w → (∀ p, p ≠ me → procs w' p = procs w p) → ctl (procs w me) ≠ Embryo →
  (∀ p f, p ≠ me → closed_by w p f ∨ f ∈ held (ctl (procs w p)) ∨ (∃ fd, ofile (procs w p) fd = Some f ∧ uncounted (ctl (procs w p)) = None) →
     kind (files w' f) = kind (files w f)) →
  (∀ p f, p ≠ me → f ∈ held (ctl (procs w p)) → f_count (files w f) = 1 → f_count (files w' f) = 1) →
  at_ok (files w') (procs w') me →
  (∀ np, forking (ctl (procs w' me)) = Some np → ∀ p, p ≠ me → forking (ctl (procs w p)) ≠ Some np) →
  (∀ f, (f < NFILE)%nat → f_count (files w' f) ≠ 0 → type_ok (files w' f)) → (∀ f, f_lock (files w' f) = false) →
  points w'.
Proof.
  intros Hp Hoth Hemb. apply points_gen; [done|done|]. intros p i E. pose proof (c_at _ Hp p) as Ha. unfold at_ok in Ha. rewrite E in Ha. tauto.
Qed.

(** ** Sections that leave the kinds of files and the ends of pipes alone *)

Lemma closing_data w p f : (∃ ff k, ctl (procs w p) = CloseData f ff k) → closed_by w p f.
Proof. intros (ff & k & E). unfold closed_by. by rewrite E. Qed.

(** A step of one process that changes no kind of a file. *)
Lemma keep_step w w' me :
  inv w → moved w w' me → closing (ctl (procs w me)) = None →
  (∀ p i, ctl (procs w p) = ForkDup me i → ctl (procs w' me) = Embryo ∧ ∀ j, (i ≤ j)%nat → ofile (procs w' me) j = None) →
  (∀ f, kind (files w' f) = kind (files w f)) → (∀ f, f_count (files w' f) ≠ 0 → f_count (files w f) ≠ 0) →
  (∀ p f, p ≠ me → f ∈ held (ctl (procs w p)) → f_count (files w f) = 1 → f_count (files w' f) = 1) →
  same_pipes (pipes w) (pipes w') → pages w' = pages w →
  (∀ f, (f < NFILE)%nat → trans (refs (procs w) f) (f_count (files w f)) (f_count (files w' f)) (refs_of (procs w me) f) (refs_of (procs w' me) f)
     (closed_by w me f) (closed_by w' me f) (is_pipe w f) (is_pipe w' f)) →
  at_ok (files w') (procs w') me →
  (∀ f, closed_by w' me f → ∃ ff k, ctl (procs w' me) = CloseData f ff k) →
  (∀ np, forking (ctl (procs w' me)) = Some np → ∀ p, p ≠ me → forking (ctl (procs w p)) ≠ Some np) →
  inv w'.
Proof.
  intros [Ic Ib Ip] Hm Hcl Hemb Hk Hc0 Hown Hpi Hpg Ht Hat Hd Hf. pose proof (m_oth _ _ _ Hm) as Hoth.
  pose proof (counts_trans w w' me Ic Hm Ht) as Ic'. split; [done| |].
  - apply (chans_ext w); [done| |done|done]. apply end_of_same; [by intros f _|]. intros f Hfn Hpipe.
    assert (Hcd : (∃ p ff k, ctl (procs w' p) = CloseData f ff k) ↔
                  (∃ p ff k, ctl (procs w p) = CloseData f ff k) ∨ closed_by w' me f).
    { split.
      - intros (p & ff & k & E). destruct (decide (p = me)) as [->|Hne]; [right; apply closing_data; eauto|].
        left. exists p, ff, k. by rewrite <-Hoth.
      - intros [(p & ff & k & E)|(ff & k & E)%Hd]; [|eauto]. exists p, ff, k. rewrite Hoth; [done|]. intros ->. rewrite E in Hcl. done. }
    assert (Hn : ¬ closed_by w me f) by (unfold closed_by; congruence).
    unfold live. rewrite Hcd.
    destruct (Ht f Hfn) as [E1 _ E3 _|? _ ? E4 _ _|? ? _ _ _|? _ _ ?|_ _ ? _ _|E1 E2 _ _|E1 E2 _ _ _].
    + rewrite E1, E3. tauto.
    + pose proof (a_slot _ Ic' f Hfn) as Hs. pose proof (refs_ge (procs w') me f (m_me _ _ _ Hm)) as Hr.
      destruct Hs as [(? & ? & _)|[(? & ? & _)|(? & _)]]; [lia|lia|]. split; intros _; left; lia.
    + split; intros _; left; lia.
    + split; intros _; [left; lia|tauto].
    + done.
    + exfalso. apply (Hc0 f); lia.
    + exfalso. apply (Hc0 f); lia.
  - destruct Ip as [C1 C2 C3 C4]. apply (points_gen w w' me); try done.
    + intros f Hfn Hne. apply (kind_type_ok (files w f)); [done|]. apply (C3 f Hfn). by apply Hc0.
    + intros f. rewrite (kind_lock (files w f)) by done. apply C4.
Qed.

(** The same for a process that nobody is creating, on files it refers to. *)
Lemma keep_quiet w w' me :
  inv w → moved w w' me → closing (ctl (procs w me)) = None → ctl (procs w me) ≠ Embryo →
  (∀ f, kind (files w' f) = kind (files w f)) → (∀ f, f_count (files w' f) ≠ 0 → f_count (files w f) ≠ 0) →
  (∀ f, f_count (files w' f) = f_count (files w f) ∨ (1 ≤ refs_of (procs w me) f)%nat) →
  same_pipes (pipes w) (pipes w') → pages w' = pages w →
  (∀ f, (f < NFILE)%nat → trans (refs (procs w) f) (f_count (files w f)) (f_count (files w' f)) (refs_of (procs w me) f) (refs_of (procs w' me) f)
     (closed_by w me f) (closed_by w' me f) (is_pipe w f) (is_pipe w' f)) →
  at_ok (files w') (procs w') me →
  (∀ f, closed_by w' me f → ∃ ff k, ctl (procs w' me) = CloseData f ff k) →
  (∀ np, forking (ctl (procs w' me)) = Some np → forking (ctl (procs w me)) = Some np) →
  inv w'.
Proof.
  intros Hi Hm Hcl Hemb Hk Hc0 Hown Hpi Hpg Ht Hat Hd Hf. pose proof (i_counts _ Hi) as Ic. destruct (i_points _ Hi) as [C1 C2 C3 C4].
  apply (keep_step w w' me); try done.
  - intros p i E. pose proof (C1 p) as Ha. unfold at_ok in Ha. rewrite E in Ha. tauto.
  - intros p f Hne Hin Hc1. destruct (Hown f) as [->|Hr]; [done|exfalso].
    assert (Hp : (p < NPROC)%nat) by (apply (counts_used w); [done|]; intros E; rewrite E in Hin; by apply elem_of_nil in Hin).
    pose proof (refs_ge2 (procs w) me p f (m_me _ _ _ Hm) Hp ltac:(done)) as H2'. pose proof (held_refs_pos f _ Hin) as H3'. unfold refs_of in H2', Hr.
    destruct (a_slot _ Ic f (ro_held _ (a_range _ Ic p) f Hin)) as [(? & _)|[(? & _)|(_ & _ & [?|(_ & ? & _)])]]; lia.
  - intros np Hnp p Hne Hp. apply Hne, (C2 p me np Hp). by apply Hf.
Qed.
End preserve.

End File.
