(* ===== verification/FileOps.v ===== *)
(** * Open files: every section keeps the invariant, and returns *)

From stdpp Require Import functions.
From S2P Require Import Prelude Ring Pmem PipeDefs Pipe FifoDefs ProcDefs FileDefs FileInv File.
Import Pmem PipeDefs Pipe FileDefs FileInv File.

Module FileOps.

Section ops.
Context {St : Type} `{PageAllocatorLaws St} {Fs : Type} `{VfsLaws Fs}.
Abbreviation world := (world St Fs).
Implicit Types (w : world) (f g fd p q me : nat) (a d : Z) (k : pc) (x : proc).

(** ** The critical sections of the table *)

Lemma with_lock_eq l w : ft_lock w = l → with_ft_lock l w = w.
Proof. destruct w. cbn. by intros ->. Qed.

Lemma filealloc_eq w : ft_lock w = false →
  filealloc w = Ok (match find_free NFILE 0 (files w) with Some i => (Some i, upd_file i fresh w) | None => (None, w) end).
Proof.
  intros Hl. unfold filealloc, ft_acquire. rewrite Hl. cbn [bind]. cbn [files with_ft_lock].
  destruct (find_free NFILE 0 (files w)) as [i|]; cbn; f_equal; f_equal; destruct w; cbn in *; by subst.
Qed.

Lemma filedup_eq f w : ft_lock w = false →
  filedup f w = if f_count (files w f) <? 1 then Panic "filedup"
                else Ok (upd_file f (λ y, set_count (u16 (f_count y + 1)) y) w).
Proof. intros Hl. unfold filedup, ft_acquire. rewrite Hl. cbn. case_match; [done|]. f_equal. destruct w; cbn in *; by subst. Qed.

Lemma fileclose_end_eq f w : ft_lock w = false → fileclose_end f w = Ok (upd_file f reset_file w).
Proof. intros Hl. unfold fileclose_end, ft_acquire. rewrite Hl. cbn. f_equal. destruct w; cbn in *; by subst. Qed.

Lemma find_free_spec n i (fl : nat → file) j :
  find_free n i fl = Some j → (i ≤ j < i + n)%nat ∧ f_count (fl j) = 0.
Proof.
  revert i. induction n as [|n IH]; intros i; cbn; [done|].
  destruct (Z.eqb_spec (f_count (fl i)) 0); [intros [= <-]; split; [lia|done]|].
  intros [? ?]%IH. split; [lia|done].
Qed.

Lemma fd_scan_spec n fd lim of_ j :
  fd_scan n fd lim of_ = Some j →
  (fd ≤ j < fd + n)%nat ∧ Z.of_nat j < lim ∧ of_ j = None ∧ ∀ i, (fd ≤ i < j)%nat → of_ i ≠ None.
Proof.
  revert fd. induction n as [|n IH]; intros fd; cbn; [done|].
  destruct (Z.ltb_spec (Z.of_nat fd) lim); [|done]. destruct (of_ fd) eqn:E.
  - intros (? & ? & ? & Hi)%IH. split_and!; try done; try lia. intros i Hlt.
    destruct (decide (i = fd)) as [->|]; [congruence|]. apply Hi. lia.
  - intros [= <-]. split_and!; try done; try lia.
Qed.

Lemma getfd_Some me (fd : Z) w f :
  getfd me fd w = Some f → 0 ≤ fd < Z.of_nat NOFILE ∧ ofile (procs w me) (Z.to_nat fd) = Some f.
Proof.
  unfold getfd. destruct (Z.ltb_spec fd 0); [done|]. destruct (Z.leb_spec (Z.of_nat NOFILE) fd); [done|]. cbn. intros E. split; [lia|done].
Qed.

(** ** What a process knows of its files *)

(** A counted reference: the file is open, with this count. *)
Lemma ref_open w me f : inv w → (me < NPROC)%nat → (1 ≤ refs_of (procs w me) f)%nat → (f < NFILE)%nat →
  f_count (files w f) = Z.of_nat (refs (procs w) f) ∧ 0 < f_count (files w f) < 65535 ∧ (∀ p, ¬ closed_by w p f).
Proof.
  intros Hi Hme Hr Hf. pose proof (refs_ge (procs w) me f Hme).
  destruct (a_slot _ (i_counts _ Hi) f Hf) as [(? & ? & _)|[(? & ? & _)|(? & Hn & [?|(? & ? & _)])]]; try lia.
  split_and!; try lia. intros p Hp. apply Hn. eauto.
Qed.

Lemma fd_ref w me fd f : inv w → ofile (procs w me) fd = Some f → uncounted (ctl (procs w me)) ≠ Some fd →
  (1 ≤ refs_of (procs w me) f)%nat.
Proof.
  intros Hi Hfd Hu. destruct (ro_fd _ (a_range _ (i_counts _ Hi) me) fd f Hfd) as [Hn _].
  pose proof (fd_refs_pos _ _ f fd Hn Hfd Hu). unfold refs_of. lia.
Qed.

(** The count of a descriptor's file. *)
Lemma fd_open w me fd f : inv w → (me < NPROC)%nat → ofile (procs w me) fd = Some f → uncounted (ctl (procs w me)) ≠ Some fd →
  0 < f_count (files w f) < 65535 ∧ (f < NFILE)%nat ∧ type_ok (files w f) ∧ f_lock (files w f) = false.
Proof.
  intros Hi Hme Hfd Hu. destruct (ro_fd _ (a_range _ (i_counts _ Hi) me) fd f Hfd) as [_ Hf].
  destruct (ref_open w me f Hi Hme (fd_ref w me fd f Hi Hfd Hu) Hf) as (_ & Hc & _). split_and!; try done; try lia.
  - apply (c_type _ (i_points _ Hi)); [done|lia].
  - apply (c_flock _ (i_points _ Hi)).
Qed.

Lemma in_table w me : inv w → ctl (procs w me) ≠ NoProc → (me < NPROC)%nat.
Proof. intros Hi. apply counts_used, Hi. Qed.

(** ** Changes that concern nobody *)

Lemma keep_file f h w : inv w → (∀ y, kind (h y) = kind y) → (∀ y, f_count (h y) = f_count y) → inv (upd_file f h w).
Proof.
  intros [[A1 A2 A3 A4 A5] Ib [C1 C2 C3 C4]] Hk Hc.
  assert (Hk' : ∀ g, kind (files (upd_file f h w) g) = kind (files w g)) by (intros g; rewrite files_upd; case_decide; by subst).
  assert (Hc' : ∀ g, f_count (files (upd_file f h w) g) = f_count (files w g)) by (intros g; rewrite files_upd; case_decide; by subst).
  split; [split; try done|apply (chans_ext w); try done|split; try done].
  - intros g Hg. unfold is_pipe. rewrite Hc', (kind_type _ _ (Hk' g)). by apply A2.
  - apply end_of_same; [by intros g _|]. intros g _ _. unfold live. by rewrite Hc'.
  - apply same_pipes_refl.
  - intros p. pose proof (C1 p) as Hp. unfold at_ok in *. change (procs (upd_file f h w)) with (procs w).
    destruct (ctl (procs w p)); try done; rewrite ?Hk', ?(kind_type _ _ (Hk' _)), ?Hc'; done.
  - intros g Hg. rewrite Hc'. intros Hne. apply (kind_type_ok (files w g)); [done|]. by apply C3.
  - intros g. by rewrite (kind_lock (files w g)) by done.
Qed.

(** Only the process [me] changes. *)
Definition same_but me w w' : Prop :=
  ft_lock w' = ft_lock w ∧ (∀ f, files w' f = files w f) ∧ pipes w' = pipes w ∧ pages w' = pages w ∧
  ∀ p, p ≠ me → procs w' p = procs w p.

Lemma same_but_procs me h w : same_but me w (upd_proc me h w).
Proof. split_and!; try done. intros p Hne. by apply procs_upd_ne. Qed.
Lemma same_but_trans me w w' w'' : same_but me w w' → same_but me w' w'' → same_but me w w''.
Proof. intros (?&H1'&?&?&H2') (?&H3'&?&?&H4'). split_and!; try congruence; intros; rewrite ?H3', ?H4', ?H1', ?H2'; done. Qed.

Lemma keep_move w w' me :
  inv w → same_but me w w' → ctl (procs w me) ≠ NoProc → ctl (procs w me) ≠ Embryo →
  closing (ctl (procs w me)) = None → closing (ctl (procs w' me)) = None →
  range_ok (procs w' me) → (∀ f, refs_of (procs w' me) f = refs_of (procs w me) f) → at_ok (files w') (procs w') me →
  (∀ np, forking (ctl (procs w' me)) = Some np → forking (ctl (procs w me)) = Some np) → inv w'.
Proof.
  intros Hi (S1 & S2 & S3 & S4 & S5) Hk He Hcl Hcl' Hr Href Hat Hf. apply (keep_quiet w _ me); try done.
  - split; [by apply (in_table w)|rewrite S1; apply (a_lock _ (i_counts _ Hi))|done|done].
  - intros f. by rewrite S2.
  - intros f. by rewrite S2.
  - intros f. left. by rewrite S2.
  - rewrite S3. apply same_pipes_refl.
  - intros f _. unfold is_pipe. rewrite !S2. apply tr_same; [done|apply Href| |by left]. unfold closed_by. by rewrite Hcl, Hcl'.
  - intros f. unfold closed_by. by rewrite Hcl'.
Qed.

Lemma keep_goto me k w :
  inv w → ctl (procs w me) ≠ NoProc → ctl (procs w me) ≠ Embryo → closing (ctl (procs w me)) = None → closing k = None →
  (∀ np, forking k = Some np → forking (ctl (procs w me)) = Some np) →
  (∀ f, (fd_refs (ofile (procs w me)) (uncounted k) f + held_refs f (held k) = refs_of (procs w me) f)%nat) →
  (∀ f, f ∈ held k → (f < NFILE)%nat) → (length (held k) ≤ 2)%nat →
  at_ok (files w) (procs (goto me k w)) me → inv (goto me k w).
Proof.
  intros Hi Hk He Hcl Hcl' Hf Hr Hh Hl Hat. assert (Hx := procs_upd_eq me (λ x, mk_proc (ofile x) (ofn x) (nofile x) k) w).
  apply (keep_move w _ me); [done|apply same_but_procs|..]; unfold goto; rewrite ?Hx; try done.
  destruct (a_range _ (i_counts _ Hi) me) as [R1 R2 R3 R4]. split; try done. cbn. by rewrite Hcl'.
Qed.

(** The call returns. *)
Lemma keep_ret me r r' w : inv w → ctl (procs w me) = Run r → inv (goto me (Run r') w).
Proof.
  intros Hi E. apply keep_goto; rewrite ?E; try done.
  - intros f. unfold refs_of. by rewrite E.
  - intros f ?%elem_of_nil. done.
  - cbn. lia.
  - unfold at_ok, goto. rewrite procs_upd_eq. done.
Qed.

Lemma held_one f g : held_refs g [f] = if decide (f = g) then 1%nat else 0%nat.
Proof. cbn. case_decide; lia. Qed.

Lemma fn_insert_ne {A} (h : nat → A) i v j : j ≠ i → (<[i := v]> h) j = h j.
Proof. intros. by rewrite fn_lookup_insert_ne. Qed.

(** The references of the descriptors after [p->ofile[n] = o]. *)
Lemma fd_set of_ n o u u' g :
  (n < NOFILE)%nat → (u = None ∨ u = Some n) → (u' = None ∨ u' = Some n) →
  (fd_refs (<[n := o]> of_) u' g + cnt of_ u g n = fd_refs of_ u g + cnt (<[n := o]> of_) u' g n)%nat.
Proof. intros. apply fd_refs_change; try done. intros. by apply fn_insert_ne. Qed.
Lemma cnt_set_None of_ n u g : cnt (<[n := None]> of_) u g n = 0%nat.
Proof. apply cnt_None, fn_lookup_insert. Qed.
Lemma cnt_set_Some of_ n u f g : u ≠ Some n → cnt (<[n := Some f]> of_) u g n = if decide (f = g) then 1%nat else 0%nat.
Proof. intros. apply cnt_Some; [apply fn_lookup_insert|done]. Qed.

Lemma range_set x n o a b k :
  range_ok x → (n < NOFILE)%nat → (∀ f, o = Some f → (f < NFILE)%nat) →
  (∀ f, f ∈ held k → (f < NFILE)%nat) → (length (held k) ≤ 2)%nat → (∀ f, closing k = Some f → (f < NFILE)%nat) →
  range_ok (mk_proc (<[n := o]> (ofile x)) a b k).
Proof.
  intros [R1 _ _ _] Hn Ho H1' H2' H3'. split; try done. cbn. intros fd g Hg. destruct (decide (fd = n)) as [->|Hne].
  - rewrite fn_lookup_insert in Hg. eauto.
  - rewrite fn_insert_ne in Hg by done. eauto.
Qed.
Lemma range_ctl x a b k :
  range_ok x → (∀ f, f ∈ held k → (f < NFILE)%nat) → (length (held k) ≤ 2)%nat → (∀ f, closing k = Some f → (f < NFILE)%nat) →
  range_ok (mk_proc (ofile x) a b k).
Proof. intros [R1 _ _ _] H1' H2' H3'. by split. Qed.

(** ** close *)

Lemma keep_sys_close me r (fd : Z) w w' : inv w → ctl (procs w me) = Run r → sys_close me fd w = Ok w' → inv w'.
Proof.
  intros Hi E. unfold sys_close. case_match; [intros [= <-]; by apply (keep_ret me r)|].
  destruct (getfd me fd w) as [f|] eqn:Hg; intros [= <-]; [|by apply (keep_ret me r)].
  apply getfd_Some in Hg as [Hfd Hof]. set (n := Z.to_nat fd) in *. assert (Hn : (n < NOFILE)%nat) by lia.
  pose proof (a_range _ (i_counts _ Hi) me) as Hr. set (w' := goto me _ _).
  assert (Hx : procs w' me = mk_proc (<[n := None]> (ofile (procs w me))) (ofn (procs w me)) (nofile (procs w me)) (Close f (Run 0))).
  { unfold w', goto, set_fd. by rewrite !procs_upd_eq. }
  apply (keep_move w w' me); rewrite ?E, ?Hx; try done.
  - eapply same_but_trans; apply same_but_procs.
  - apply range_set; try done; cbn; [by intros g ->%list_elem_of_singleton; apply (ro_fd _ Hr n)|lia].
  - intros g. unfold refs_of. rewrite E. cbn [ofile ctl uncounted held]. rewrite held_one.
    pose proof (fd_set (ofile (procs w me)) n None None None g Hn (or_introl eq_refl) (or_introl eq_refl)) as Hc.
    rewrite (cnt_set_None (ofile (procs w me))), (cnt_Some _ None g f n Hof) in Hc by done. unfold held_refs at 1. cbn [sum_list_with]. lia.
  - unfold at_ok. by rewrite Hx.
Qed.

(** The call that comes after a close. *)
Lemma tail_at fl ps p k : ctl (ps p) = k → tail_ok (ps p) k → at_ok fl ps p.
Proof. intros E Ht. unfold at_ok. rewrite E. by destruct k. Qed.
Lemma tail_ok_ofile x x' k : ofile x' = ofile x → tail_ok x k → tail_ok x' k.
Proof. intros E. induction k; cbn; try done; unfold dup_ok, cleared; by rewrite E. Qed.
Lemma tail_closing x k : tail_ok x k → closing k = None.
Proof. by destruct k. Qed.
Lemma tail_forking x k : tail_ok x k → forking k = None.
Proof. by destruct k. Qed.

Lemma u16_small z : 0 ≤ z < 65536 → u16 z = z.
Proof. apply Z.mod_small. Qed.

Lemma fileclose_enter_spec f w :
  ft_lock w = false → 0 < f_count (files w f) < 65535 → f_lock (files w f) = false →
  (1 < f_count (files w f) → fileclose_enter f w = Ok (None, upd_file f (λ y, set_count (u16 (f_count y - 1)) y) w)) ∧
  (f_count (files w f) = 1 → ∃ w1, fileclose_enter f w = Ok (Some (set_count 0 (files w f)), w1) ∧
     (∀ g, files w1 g = if decide (g = f) then set_count 65535 (files w f) else files w g) ∧
     ft_lock w1 = false ∧ pipes w1 = pipes w ∧ pages w1 = pages w ∧ procs w1 = procs w).
Proof.
  intros Hl Hc Hlk. unfold fileclose_enter, ft_acquire. rewrite Hl. cbn [bind]. change (files (with_ft_lock true w)) with (files w).
  rewrite (proj2 (Z.ltb_ge _ _)) by lia. rewrite files_upd, decide_True by done. change (files (with_ft_lock true w) f) with (files w f).
  cbn [f_count set_count]. rewrite u16_small by lia. split; intros Hc1.
  - rewrite (proj2 (Z.ltb_lt _ _)) by lia. unfold ft_release. cbn. f_equal. f_equal. destruct w; cbn in *; by subst.
  - rewrite (proj2 (Z.ltb_ge _ _)) by lia. cbn [f_lock set_count]. rewrite Hlk. unfold ft_release. cbn [ft_lock upd_file with_ft_lock bind].
    rewrite Hc1. change (1 - 1) with 0. eexists. split; [reflexivity|]. split; [|done]. intros g.
    change (files (with_ft_lock false (upd_file f (set_count (u16 (-1))) (upd_file f (λ y, set_count (u16 (f_count y - 1)) y) (with_ft_lock true w)))) g)
      with (files (upd_file f (set_count (u16 (-1))) (upd_file f (λ y, set_count (u16 (f_count y - 1)) y) (with_ft_lock true w))) g).
    rewrite files_upd. destruct (decide (g = f)) as [->|Hne]; rewrite files_upd; [rewrite decide_True by done|by rewrite decide_False].
    reflexivity.
Qed.

Lemma close_refs of_ f k g :
  (fd_refs of_ (uncounted (Close f k)) g + held_refs g (held (Close f k)) =
   fd_refs of_ (uncounted k) g + held_refs g (held k) + if decide (f = g) then 1 else 0)%nat.
Proof. cbn [uncounted held]. unfold held_refs. cbn [sum_list_with]. lia. Qed.

Section enter.
Context (me f : nat) (k : pc) (w : world) (Hi : inv w) (E : ctl (procs w me) = Close f k).

Lemma enter_me : (me < NPROC)%nat.
Proof using Hi E. apply (in_table w); congruence. Qed.
Lemma enter_refs : (1 ≤ refs_of (procs w me) f)%nat.
Proof using E. unfold refs_of. rewrite E, close_refs, decide_True by done. lia. Qed.
Lemma enter_range : (f < NFILE)%nat.
Proof using Hi E. apply (ro_held _ (a_range _ (i_counts _ Hi) me)). rewrite E. left. Qed.
Lemma enter_tail : tail_ok (procs w me) k.
Proof using Hi E. pose proof (c_at _ (i_points _ Hi) me) as Ha. unfold at_ok in Ha. by rewrite E in Ha. Qed.
Lemma enter_held : (∀ g, g ∈ held k → (g < NFILE)%nat) ∧ (length (held k) ≤ 2)%nat.
Proof using Hi E.
  destruct (a_range _ (i_counts _ Hi) me) as [_ R2 R3 _]. rewrite E in R2, R3. cbn in R3. split; [|lia]. intros g Hg. apply R2. by right.
Qed.

(** Another reference is left. *)
Lemma keep_close_more :
  1 < f_count (files w f) < 65535 → inv (goto me k (upd_file f (λ y, set_count (u16 (f_count y - 1)) y) w)).
Proof using Hi E.
  intros Hc. set (w1 := upd_file f _ w). pose proof enter_tail as Ht. destruct enter_held as [Hk2 Hk3].
  assert (Hx : procs (goto me k w1) me = mk_proc (ofile (procs w me)) (ofn (procs w me)) (nofile (procs w me)) k) by (unfold goto; by rewrite procs_upd_eq).
  assert (Hfl : ∀ g, files (goto me k w1) g = if decide (g = f) then set_count (u16 (f_count (files w f) - 1)) (files w f) else files w g)
    by (intros g; exact (files_upd f (λ y, set_count (u16 (f_count y - 1)) y) w g)).
  apply (keep_quiet w _ me); rewrite ?Hx, ?E; try done.
  - split; [apply enter_me|apply (a_lock _ (i_counts _ Hi))|intros p Hp; unfold goto; by rewrite procs_upd_ne|]. rewrite Hx.
    apply range_ctl; try done; [apply (a_range _ (i_counts _ Hi))|]. cbn. by rewrite (tail_closing _ _ Ht).
  - intros g. rewrite Hfl. case_decide; by subst.
  - intros g. rewrite Hfl. case_decide; [subst; lia|done].
  - intros g. rewrite Hfl. case_decide; [subst; right; apply enter_refs|by left].
  - apply same_pipes_refl.
  - intros g Hg. unfold is_pipe, closed_by. rewrite Hx, E, Hfl. cbn [ctl closing]. rewrite (tail_closing _ _ Ht).
    unfold refs_of. rewrite E, close_refs. cbn [ofile ctl]. case_decide as Hgf.
    + subst g. rewrite decide_True by done. cbn. rewrite u16_small by lia. apply tr_dec; try done; lia.
    + rewrite decide_False by done. apply tr_same; try done; try lia. by left.
  - apply (tail_at _ _ _ k); rewrite Hx; [done|]. by apply (tail_ok_ofile (procs w me)).
  - intros g. unfold closed_by. rewrite Hx. cbn. by rewrite (tail_closing _ _ Ht).
  - cbn. by rewrite (tail_forking _ _ Ht).
Qed.

(** This was the last reference: the slot is marked. *)
Lemma keep_close_last ff w1 :
  f_count (files w f) = 1 → kind ff = kind (files w f) →
  (∀ g, files w1 g = if decide (g = f) then set_count 65535 (files w f) else files w g) →
  ft_lock w1 = false → pipes w1 = pipes w → pages w1 = pages w → procs w1 = procs w →
  inv (goto me (CloseData f ff k) w1).
Proof using Hi E.
  intros Hc Hff Hfl L1 L2 L3 L4. pose proof enter_tail as Ht. destruct enter_held as [Hk2 Hk3].
  set (w2 := goto me (CloseData f ff k) w1). assert (Hf2 : ∀ g, files w2 g = files w1 g) by done.
  assert (Hx : procs w2 me = mk_proc (ofile (procs w me)) (ofn (procs w me)) (nofile (procs w me)) (CloseData f ff k)).
  { unfold w2, goto. by rewrite procs_upd_eq, L4. }
  assert (Hp2 : pipes w2 = pipes w1) by done.
  apply (keep_quiet w w2 me); rewrite ?Hx, ?E; try done.
  - split; [apply enter_me|done|intros p Hp; unfold w2, goto; rewrite procs_upd_ne by done; by rewrite L4|]. rewrite Hx.
    apply range_ctl; try done; [apply (a_range _ (i_counts _ Hi))|]. cbn. intros g [= <-]. apply enter_range.
  - intros g. rewrite Hf2, Hfl. case_decide; by subst.
  - intros g. rewrite Hf2, Hfl. case_decide; [subst; lia|done].
  - intros g. rewrite Hf2, Hfl. case_decide; [subst; right; apply enter_refs|by left].
  - rewrite Hp2, L2. apply same_pipes_refl.
  - intros g Hg. unfold is_pipe, closed_by. rewrite Hx, E, Hf2, Hfl. cbn [ctl closing].
    unfold refs_of. rewrite E, close_refs. cbn [ofile ctl uncounted held]. case_decide as Hgf.
    + subst g. rewrite decide_True by done. apply tr_last; try done; lia.
    + rewrite decide_False by done. apply tr_same; try done; try lia; [|by left]. split; [congruence|done].
  - unfold at_ok. rewrite Hx. cbn [ctl]. split; [|by apply (tail_ok_ofile (procs w me))]. rewrite Hf2, Hfl, decide_True, Hff by done. done.
  - intros g. unfold closed_by. rewrite Hx. intros [= <-]. cbn. eauto.
Qed.
End enter.

Lemma keep_close_enter me f k w :
  inv w → ctl (procs w me) = Close f k →
  ∃ o w1, fileclose_enter f w = Ok (o, w1) ∧
    inv (goto me (match o with None => k | Some ff => CloseData f ff k end) w1) ∧
    (o = None ∧ 1 < f_count (files w f) ∨ o = Some (set_count 0 (files w f)) ∧ f_count (files w f) = 1).
Proof.
  intros Hi E. destruct (ref_open w me f Hi (enter_me _ _ _ _ Hi E) (enter_refs _ _ _ _ E) (enter_range _ _ _ _ Hi E)) as (_ & Hc & _).
  destruct (fileclose_enter_spec f w (a_lock _ (i_counts _ Hi)) Hc (c_flock _ (i_points _ Hi) f)) as [Hmore Hlast].
  destruct (decide (1 < f_count (files w f))) as [H1'|H1'].
  - exists None. eexists. split; [by apply Hmore|]. split; [|by left]. apply keep_close_more; [done|done|lia].
  - destruct Hlast as (w1 & Hop & Hfl & L1 & L2 & L3 & L4); [lia|]. exists (Some (set_count 0 (files w f))), w1.
    split; [done|]. split; [|right; split; [done|lia]]. apply (keep_close_last me f k w); try done; lia.
Qed.

(** ** The data of a file that is closed *)

Definition shut (wr : bool) (pi : pipe) : pipe :=
  mk_pipe false (data pi) (size pi) (nread pi) (nwrite pi) (if wr then readopen pi else 0) (if wr then 0 else writeopen pi).

Lemma shut_flag wr wr' pi : open_flag wr' (shut wr pi) = if bool_decide (wr' = wr) then 0 else open_flag wr' pi.
Proof. by destruct wr, wr'. Qed.
Lemma shut_ok wr pi : pipe_ok pi → pipe_ok (shut wr pi).
Proof. intros (Hl & Hs & R & l & Hh). split_and!; [done|done|]. by exists R, l. Qed.

(** Both pages of a pipe go back to the allocator. *)
Lemma free_both a d (s : St) :
  pa_inv s → pa_owned s a → pa_owned s d → a ≠ d →
  ∃ s1 s', pa_free d s = Ok s1 ∧ pa_free a s1 = Ok s' ∧ pa_inv s' ∧
    (∀ b, pa_owned s b → b ≠ a → b ≠ d → pa_owned s' b) ∧ (∀ n, pa_avail s n → pa_avail s' (S (S n))).
Proof.
  intros Hi Ha Hd Hne. destruct (pa_free_ok s d Hi Hd) as (s1 & F1 & I1 & _ & K1 & _).
  assert (Ha1 : pa_owned s1 a) by (by destruct (K1 a Ha)).
  destruct (pa_free_ok s1 a I1 Ha1) as (s2 & F2 & I2 & _ & K2 & _). exists s1, s2. split_and!; try done.
  - intros b Hb Hba Hbd. destruct (K1 b Hb); [done|]. by destruct (K2 b).
  - intros n Hn. eapply (pa_free_avail s1 a); try done. by eapply (pa_free_avail s d).
Qed.

Lemma pipeclose_spec a d wr pi (s : St) :
  p_lock pi = false → pa_inv s → pa_owned s a → pa_owned s d → a ≠ d →
  (open_flag (negb wr) pi ≠ 0 → pipeclose a d wr pi s = Ok (Some (shut wr pi), s, [if wr then WakeRead else WakeWrite])) ∧
  (open_flag (negb wr) pi = 0 → ∃ s', pipeclose a d wr pi s = Ok (None, s', [if wr then WakeRead else WakeWrite]) ∧ pa_inv s' ∧
     (∀ b, pa_owned s b → b ≠ a → b ≠ d → pa_owned s' b) ∧ (∀ n, pa_avail s n → pa_avail s' (S (S n)))).
Proof.
  intros Hl Hi Ha Hd Hne. destruct (free_both a d s Hi Ha Hd Hne) as (s1 & s2 & F1 & F2 & Hrest).
  unfold pipeclose, acquire, release. rewrite Hl. cbn [bind]. split; intros Hf.
  - destruct wr; cbn in *; rewrite (proj2 (Z.eqb_neq _ _) Hf); done.
  - exists s2. split; [|done]. destruct wr; cbn in *; rewrite Hf; cbn; rewrite F1; cbn; rewrite F2; done.
Qed.

(** The step from [CloseData] to [CloseEnd]: what does not depend on the type
    of the file. *)
Section close_data.
Context w w' me f ff k (Hi : inv w) (E : ctl (procs w me) = CloseData f ff k)
  (Hfl : ∀ g, files w' g = files w g) (Hlk : ft_lock w' = ft_lock w)
  (Hx : procs w' me = mk_proc (ofile (procs w me)) (ofn (procs w me)) (nofile (procs w me)) (CloseEnd f k))
  (Hoth : ∀ p, p ≠ me → procs w' p = procs w p).

Lemma cd_closed : closed_by w me f.
Proof using E. unfold closed_by. by rewrite E. Qed.

Lemma cd_range : (f < NFILE)%nat.
Proof using Hi E. apply (ro_closing _ (a_range _ (i_counts _ Hi) me)), cd_closed. Qed.

Lemma cd_count : f_count (files w f) = 65535.
Proof using Hi E.
  destruct (a_slot _ (i_counts _ Hi) f cd_range) as [(_ & _ & Hn)|[(? & _)|(_ & Hn & _)]]; [|done|];
    (exfalso; apply Hn; exists me; apply cd_closed).
Qed.

Lemma cd_at : kind (files w f) = kind ff ∧ tail_ok (procs w me) k.
Proof using Hi E. pose proof (c_at _ (i_points _ Hi) me) as Ha. unfold at_ok in Ha. by rewrite E in Ha. Qed.

Lemma cd_moved : moved w w' me.
Proof using Hi E Hlk Hx Hoth.
  split; [apply (in_table w); [done|congruence]|rewrite Hlk; apply (a_lock _ (i_counts _ Hi))|done|].
  rewrite Hx. pose proof (a_range _ (i_counts _ Hi) me) as [R1 R2 R3 R4]. rewrite E in *. by split.
Qed.

Lemma cd_counts : counts w'.
Proof using Hi E Hfl Hlk Hx Hoth.
  apply (counts_trans w w' me); [apply Hi|apply cd_moved|]. intros g Hg. unfold is_pipe, closed_by. rewrite Hfl, Hx, E.
  apply tr_same; try done; [|by left]. unfold refs_of. by rewrite E.
Qed.

Lemma cd_points : points w'.
Proof using Hi E Hfl Hx Hoth.
  destruct (i_points _ Hi) as [C1 C2 C3 C4]. apply (points_upd w w' me); try done; rewrite ?Hx, ?E; try done.
  - intros p g _ _. by rewrite Hfl.
  - intros p g _ _. by rewrite Hfl.
  - unfold at_ok. rewrite Hx. cbn. apply (tail_ok_ofile (procs w me)); [done|apply cd_at].
  - intros g Hg. rewrite Hfl. by apply C3.
  - intros g. by rewrite Hfl.
Qed.

Lemma cd_ends g b wr : end_of w' g b wr ↔ end_of w g b wr ∧ g ≠ f.
Proof using Hi E Hfl Hx Hoth.
  unfold end_of, is_pipe. rewrite !Hfl. assert (Hl : live w' g ↔ live w g ∧ g ≠ f); [|tauto]. unfold live. rewrite Hfl. split.
  - intros [Hc|(p & ff' & k' & Ep)].
    + split; [by left|]. intros ->. rewrite cd_count in Hc. lia.
    + assert (Hp : p ≠ me) by (intros ->; rewrite Hx in Ep; done). rewrite Hoth in Ep by done. split; [right; eauto|].
      intros ->. apply Hp, (a_closing _ (i_counts _ Hi) p me f); unfold closed_by; [by rewrite Ep|by rewrite E].
  - intros [[Hc|(p & ff' & k' & Ep)] Hne]; [by left|right]. exists p, ff', k'. rewrite Hoth; [done|]. intros ->. congruence.
Qed.

(** A file that is not a pipe. *)
Lemma cd_other : f_type (files w f) ≠ FD_PIPE → pipes w' = pipes w → pages w' = pages w → inv w'.
Proof using Hi E Hfl Hlk Hx Hoth.
  intros Ht Hp Hs. split; [apply cd_counts| |apply cd_points]. apply (chans_ext w); [apply Hi| |rewrite Hp; apply same_pipes_refl|done].
  intros g b wr. rewrite cd_ends. split; [tauto|]. intros He. split; [done|]. intros ->. by destruct He as (_ & _ & He & _).
Qed.

(** A pipe whose other end is open. *)
Lemma cd_shut a d pi wr :
  end_of w f a wr → pipes w !! a = Some (d, pi) → open_flag (negb wr) pi ≠ 0 →
  pipes w' = <[a := (d, shut wr pi)]> (pipes w) → pages w' = pages w → inv w'.
Proof using Hi E Hfl Hlk Hx Hoth.
  intros He Ha Ho Hp Hs. split; [apply cd_counts| |apply cd_points]. destruct (i_chans _ Hi) as [B1 B2 B3 B4 B5 B6 B7].
  destruct (B3 a d pi Ha) as (Hok & _ & Hends). destruct (Hends (negb wr)) as [?|(H1' & g & Hg)]; [done|].
  assert (Hgf : g ≠ f). { intros ->. destruct He as (_&_&_&_&E1), Hg as (_&_&_&_&E2). destruct wr; cbn in *; congruence. }
  split.
  - intros g' b wr' [Hg' Hne]%cd_ends. destruct (B1 _ _ _ Hg') as (d' & pi' & Hb & Hopen). rewrite Hp. destruct (decide (b = a)) as [->|Hba].
    + exists d, (shut wr pi). rewrite lookup_insert_eq, shut_flag. split; [done|]. rewrite bool_decide_eq_false_2; [congruence|].
      intros ->. by apply Hne, (B2 g' f a wr).
    + exists d', pi'. by rewrite lookup_insert_ne.
  - intros g1 g2 b wr' [? _]%cd_ends [? _]%cd_ends. eauto.
  - intros b d' pi'. rewrite Hp. destruct (decide (b = a)) as [->|Hba].
    + rewrite lookup_insert_eq. intros [= <- <-]. split_and!; [by apply shut_ok|..].
      * exists (negb wr). rewrite shut_flag. by destruct wr.
      * intros wr'. rewrite shut_flag. case_bool_decide as Hw; [by left|right]. assert (wr' = negb wr) as -> by (destruct wr, wr'; done).
        split; [done|]. exists g. by apply cd_ends.
    + rewrite lookup_insert_ne by done. intros Hb. destruct (B3 b d' pi' Hb) as (? & ? & He'). split_and!; try done.
      intros wr'. destruct (He' wr') as [?|(? & g' & Hg')]; [by left|right]. split; [done|]. exists g'. apply cd_ends. split; [done|].
      intros ->. destruct He as (_&_&_&E1&_), Hg' as (_&_&_&E2&_). congruence.
  - intros b d' pi'. rewrite Hp, Hs. intros Hb. assert (∃ pj, pipes w !! b = Some (d', pj)) as (pj & Hb').
    { destruct (decide (b = a)) as [->|Hba]; [rewrite lookup_insert_eq in Hb; injection Hb as <- <-; eauto|rewrite lookup_insert_ne in Hb by done; eauto]. }
    destruct (B4 b d' pj Hb') as (? & ? & ? & Hn). split_and!; try done. rewrite lookup_insert_ne; [done|]. intros ->. congruence.
  - assert (Hsame : ∀ b d' pi', pipes w' !! b = Some (d', pi') → ∃ pj, pipes w !! b = Some (d', pj)).
    { intros b d' pi'. rewrite Hp. destruct (decide (b = a)) as [->|Hba]; [rewrite lookup_insert_eq|rewrite lookup_insert_ne by done; eauto].
      intros [= <- <-]. eauto. }
    intros b c d' p1 p2 (? & Hb)%Hsame (? & Hc)%Hsame. by apply (B5 b c d' _ _ Hb Hc).
  - by rewrite Hs.
  - rewrite Hp, Hs, map_size_insert_Some by eauto. done.
Qed.

(** A pipe whose other end is closed. *)
Lemma cd_gone a d pi wr :
  end_of w f a wr → pipes w !! a = Some (d, pi) → open_flag (negb wr) pi = 0 →
  pipes w' = delete a (pipes w) → pa_inv (pages w') →
  (∀ b, pa_owned (pages w) b → b ≠ a → b ≠ d → pa_owned (pages w') b) →
  (∀ n, pa_avail (pages w) n → pa_avail (pages w') (S (S n))) → inv w'.
Proof using Hi E Hfl Hlk Hx Hoth H0.
  intros He Ha Ho Hp Hpi Hown Hav. split; [apply cd_counts| |apply cd_points]. destruct (i_chans _ Hi) as [B1 B2 B3 B4 B5 B6 B7].
  assert (Hback : ∀ b v, pipes w' !! b = Some v → b ≠ a ∧ pipes w !! b = Some v).
  { intros b v. rewrite Hp, lookup_delete_Some. intros [? ?]. done. }
  assert (Hno : ∀ g wr', end_of w g a wr' → g = f).
  { intros g wr' Hg. destruct (B1 _ _ _ Hg) as (d' & pi' & Ha' & Hopen). rewrite Ha in Ha'. injection Ha' as <- <-.
    assert (wr' = wr) as -> by (destruct wr, wr'; cbn in *; congruence). by apply (B2 g f a wr). }
  split.
  - intros g' b wr' [Hg' Hne]%cd_ends. destruct (B1 _ _ _ Hg') as (d' & pi' & Hb & Hopen). exists d', pi'. split; [|done].
    rewrite Hp, lookup_delete_ne; [done|]. intros <-. by apply Hne, (Hno g' wr').
  - intros g1 g2 b wr' [? _]%cd_ends [? _]%cd_ends. eauto.
  - intros b d' pi' [Hba Hb]%Hback. destruct (B3 b d' pi' Hb) as (? & ? & He'). split_and!; try done.
    intros wr'. destruct (He' wr') as [?|(? & g' & Hg')]; [by left|right]. split; [done|]. exists g'. apply cd_ends. split; [done|].
    intros ->. destruct He as (_&_&_&E1&_), Hg' as (_&_&_&E2&_). congruence.
  - intros b d' pi' [Hba Hb]%Hback. destruct (B4 b d' pi' Hb) as (Hob & Hod & ? & Hn). destruct (B4 a d pi Ha) as (_ & _ & Had & Hnd).
    assert (Hd' : d' ≠ a) by congruence. split_and!; try done.
    + apply Hown; [done|done|]. congruence.
    + apply Hown; [done|done|]. intros ->. by apply Hba, (B5 b a d _ _ Hb Ha).
    + rewrite Hp, lookup_delete_ne by done. done.
  - intros b c d' p1 p2 [_ Hb]%Hback [_ Hc]%Hback. by apply (B5 b c d' _ _ Hb Hc).
  - done.
  - rewrite Hp, map_size_delete_Some by eauto. apply (pa_avail_le _ (S (S (2 * NFILE - 2 * base.size (pipes w))))); [by apply Hav|].
    assert (base.size (pipes w) ≠ 0)%nat by (apply map_size_non_empty_iff; intros Hem; rewrite Hem in Ha; done). lia.
Qed.
End close_data.
End ops.

End FileOps.
