(* ===== verification/FileStep.v ===== *)
(** * Open files: the sections of the calls keep the invariant *)

From stdpp Require Import functions.
From S2P Require Import Prelude Ring Pmem PipeDefs Pipe FifoDefs ProcDefs FileDefs FileInv File FileOps.
Import Pmem PipeDefs Pipe FileDefs FileInv File FileOps.

Module FileStep.

Section steps.
Context {St : Type} `{PageAllocatorLaws St} {Fs : Type} `{VfsLaws Fs}.
Abbreviation world := (world St Fs).
Implicit Types (w : world) (f g fd p q me : nat) (a d : Z) (k : pc) (x : proc).

(** ** The end of fileclose *)

Lemma keep_close_data me f ff k w :
  inv w → ctl (procs w me) = CloseData f ff k →
  ∃ w1 ev, fileclose_data ff w = Ok (w1, ev) ∧ inv (goto me (CloseEnd f k) w1).
Proof.
  intros Hi E. destruct (cd_at w me f ff k Hi E) as [Hk Ht].
  pose proof (cd_range w me f ff k Hi E) as Hf. pose proof (cd_count w me f ff k Hi E) as Hc.
  pose proof (c_type _ (i_points _ Hi) f Hf ltac:(lia)) as Hty.
  assert (Hty' : type_ok ff) by (apply (kind_type_ok (files w f)); done).
  assert (Hx : ∀ w1, procs w1 = procs w → procs (goto me (CloseEnd f k) w1) me =
    mk_proc (ofile (procs w me)) (ofn (procs w me)) (nofile (procs w me)) (CloseEnd f k)).
  { intros w1 H1'. unfold goto. rewrite procs_upd_eq. by rewrite H1'. }
  assert (Hoth : ∀ w1 p, procs w1 = procs w → p ≠ me → procs (goto me (CloseEnd f k) w1) p = procs w p).
  { intros w1 p H1' Hne. unfold goto. rewrite procs_upd_ne by done. by rewrite H1'. }
  assert (Hplain : ∀ w1, files w1 = files w → ft_lock w1 = ft_lock w → procs w1 = procs w → pipes w1 = pipes w → pages w1 = pages w →
    f_type ff ≠ FD_PIPE → inv (goto me (CloseEnd f k) w1)).
  { intros w1 F1 F2 F3 F4 F5 Hnp. eapply (cd_other w _ me f ff k); try done.
    - intros g. change (files (goto me (CloseEnd f k) w1) g) with (files w1 g). by rewrite F1.
    - by apply Hx.
    - intros p Hp. by apply Hoth.
    - by rewrite (kind_type ff (files w f)). }
  unfold fileclose_data. destruct (f_type ff) eqn:Et; unfold type_ok in Hty'; rewrite Et in Hty'; try done.
  - eexists _, _. split; [reflexivity|]. by apply Hplain.
  - destruct Hty' as (a & Ed). rewrite Ed.
    assert (He : end_of w f a (filewriteable ff)).
    { unfold kind in Hk. injection Hk as K1 K2 K3 K4 K5. split_and!; try done; [right; eauto|unfold is_pipe; congruence|congruence]. }
    destruct (b_end _ (i_chans _ Hi) _ _ _ He) as (d & pi & Ha & Ho). rewrite Ha. cbn [of_opt bind].
    destruct (b_pipe _ (i_chans _ Hi) _ _ _ Ha) as ((Hl & Hsz & Hh) & _ & _). destruct (b_page _ (i_chans _ Hi) _ _ _ Ha) as (O1 & O2 & O3 & _).
    destruct (pipeclose_spec a d (filewriteable ff) pi (pages w) Hl (b_inv _ (i_chans _ Hi)) O1 O2 O3) as [Hsome Hnone].
    destruct (decide (open_flag (negb (filewriteable ff)) pi = 0)) as [Hz|Hz].
    + destruct (Hnone Hz) as (s' & -> & I1 & I2 & I3). cbn [bind]. eexists _, _. split; [reflexivity|].
      eapply (cd_gone w _ me f ff k Hi E) with (a := a) (wr := filewriteable ff); try done; [by apply Hx|by intros p Hp; apply Hoth].
    + rewrite (Hsome Hz). cbn [bind]. eexists _, _. split; [reflexivity|].
      eapply (cd_shut w _ me f ff k Hi E) with (a := a) (wr := filewriteable ff); try done; [by apply Hx|by intros p Hp; apply Hoth].
  - destruct Hty' as (d & [-> | ->]); (eexists _, _; split; [reflexivity|by apply Hplain]).
  - destruct Hty' as (d & [-> | ->]); (eexists _, _; split; [reflexivity|by apply Hplain]).
Qed.

(** A file to which only [me] refers is not used by a call of another
    process. *)
Lemma not_used w me f p :
  inv w → (me < NPROC)%nat → (refs (procs w) f ≤ refs_of (procs w me) f)%nat → (∀ q, q ≠ me → ¬ closed_by w q f) → p ≠ me →
  ¬ (closed_by w p f ∨ f ∈ held (ctl (procs w p)) ∨ (∃ fd, ofile (procs w p) fd = Some f ∧ uncounted (ctl (procs w p)) = None)).
Proof.
  intros Hi Hme Hr Hcl Hp Hu. assert (Hlt : ctl (procs w p) ≠ NoProc → (refs_of (procs w p) f ≤ 0)%nat).
  { intros Hk. pose proof (refs_ge2 (procs w) me p f Hme (in_table w p Hi Hk) ltac:(done)). lia. }
  destruct Hu as [Hu|[Hu|(fd & Hu & Hn)]].
  - by apply (Hcl p).
  - assert (ctl (procs w p) ≠ NoProc) by (intros E; rewrite E in Hu; by apply elem_of_nil in Hu).
    pose proof (held_refs_pos f _ Hu). unfold refs_of in Hlt. specialize (Hlt ltac:(done)). lia.
  - assert (ctl (procs w p) ≠ NoProc).
    { intros E. pose proof (c_at _ (i_points _ Hi) p) as Ha. unfold at_ok in Ha. rewrite E in Ha. by rewrite Ha in Hu. }
    pose proof (fd_ref w p fd f Hi Hu ltac:(congruence)). specialize (Hlt ltac:(done)). lia.
Qed.

Lemma keep_close_end me f k w :
  inv w → ctl (procs w me) = CloseEnd f k → fileclose_end f w = Ok (upd_file f reset_file w) ∧ inv (goto me k (upd_file f reset_file w)).
Proof.
  intros Hi E. pose proof (a_lock _ (i_counts _ Hi)) as Hlk. split; [by apply fileclose_end_eq|].
  assert (Hcl : closed_by w me f) by (unfold closed_by; by rewrite E). pose proof (a_range _ (i_counts _ Hi) me) as Hr.
  pose proof (ro_closing _ Hr f Hcl) as Hf. assert (Hme : (me < NPROC)%nat) by (apply (in_table w); congruence).
  assert (Hc : f_count (files w f) = 65535 ∧ refs (procs w) f = 0%nat).
  { destruct (a_slot _ (i_counts _ Hi) f Hf) as [(_ & _ & Hn)|[(? & ? & _)|(_ & Hn & _)]]; [destruct Hn; eauto|done|destruct Hn; eauto]. }
  destruct Hc as [Hc Hz]. assert (Hnl : ∀ p ff k', ctl (procs w p) ≠ CloseData f ff k').
  { intros p ff k' Ep. assert (p = me) as -> by (apply (a_closing _ (i_counts _ Hi) p me f); [unfold closed_by; by rewrite Ep|done]). congruence. }
  assert (Ht : tail_ok (procs w me) k). { pose proof (c_at _ (i_points _ Hi) me) as Ha. unfold at_ok in Ha. by rewrite E in Ha. }
  set (w' := goto me k _).
  assert (Hx : procs w' me = mk_proc (ofile (procs w me)) (ofn (procs w me)) (nofile (procs w me)) k) by (unfold w', goto; by rewrite procs_upd_eq).
  assert (Hoth : ∀ p, p ≠ me → procs w' p = procs w p) by (intros p Hp; unfold w', goto; by rewrite procs_upd_ne).
  assert (Hfl : ∀ g, files w' g = if decide (g = f) then reset_file (files w f) else files w g) by (intros g; exact (files_upd f reset_file w g)).
  split.
  - apply (counts_trans w w' me); [apply Hi| |].
    + split; [done|done|done|]. rewrite Hx. pose proof Hr as [R1 R2 R3 R4]. rewrite E in R2, R3. apply range_ctl; [done|exact R2|exact R3|].
      by rewrite (tail_closing _ _ Ht).
    + intros g Hg. unfold is_pipe, closed_by. rewrite Hx, E, Hfl. cbn [ctl closing]. rewrite (tail_closing _ _ Ht).
      unfold refs_of. rewrite E. cbn [ofile ctl uncounted held]. case_decide as Hgf.
      * subst g. apply tr_end; done.
      * apply tr_same; try done; [|by left]. split; [done|congruence].
  - apply (chans_ext w); [apply Hi| |apply same_pipes_refl|done]. intros g b wr. unfold end_of, is_pipe, live. rewrite Hfl. case_decide as Hgf.
    + subst g. split; [intros (_ & _ & ? & _); done|]. intros (_ & [?|(p & ff & k' & Ep)] & _); [lia|]. by destruct (Hnl p ff k').
    + assert (Hcd : (∃ p ff k', ctl (procs w' p) = CloseData g ff k') ↔ (∃ p ff k', ctl (procs w p) = CloseData g ff k')); [|tauto].
      split; intros (p & ff & k' & Ep); exists p, ff, k'; destruct (decide (p = me)) as [->|Hp].
      * rewrite Hx in Ep. cbn in Ep. subst k. done.
      * by rewrite Hoth in Ep.
      * congruence.
      * by rewrite Hoth.
  - destruct (i_points _ Hi) as [C1 C2 C3 C4]. apply (points_upd w w' me); try done; rewrite ?E, ?Hx; try done.
    + intros p g Hp Hu. rewrite Hfl. case_decide as Hgf; [|done]. subst g. exfalso. revert Hu. apply (not_used w me); try done; [lia|].
      intros q Hq Hqc. by apply Hq, (a_closing _ (i_counts _ Hi) q me f).
    + intros p g _ _. rewrite Hfl. case_decide; [subst; lia|done].
    + apply (tail_at _ _ _ k); rewrite Hx; [done|]. by apply (tail_ok_ofile (procs w me)).
    + cbn. by rewrite (tail_forking _ _ Ht).
    + intros g Hg. rewrite Hfl. case_decide; [done|]. by apply C3.
    + intros g. rewrite Hfl. case_decide; [apply C4|done].
Qed.

(** ** A new descriptor for an open file *)

Lemma keep_ref w w' me n f r :
  inv w → ctl (procs w me) ≠ NoProc → ctl (procs w me) ≠ Embryo →
  closing (ctl (procs w me)) = None → held (ctl (procs w me)) = [] →
  (n < NOFILE)%nat → (uncounted (ctl (procs w me)) = None ∧ ofile (procs w me) n = None ∨ uncounted (ctl (procs w me)) = Some n) →
  (1 ≤ refs_of (procs w me) f)%nat → (f < NFILE)%nat →
  (∀ g, files w' g = if decide (g = f) then set_count (u16 (f_count (files w f) + 1)) (files w f) else files w g) →
  procs w' me = mk_proc (<[n := Some f]> (ofile (procs w me))) (ofn (procs w me)) (nofile (procs w me)) (Run r) →
  (∀ p, p ≠ me → procs w' p = procs w p) → ft_lock w' = ft_lock w → pipes w' = pipes w → pages w' = pages w → inv w'.
Proof.
  intros Hi Hk1 Hk2 Hcl Hh Hn Hu Hrf Hf Hfl Hx Hoth Hlk Hp Hs. assert (Hme : (me < NPROC)%nat) by (by apply (in_table w)).
  destruct (ref_open w me f Hi Hme Hrf Hf) as (_ & Hc & _).
  apply (keep_quiet w w' me); rewrite ?Hx; try done.
  - split; [done|rewrite Hlk; apply (a_lock _ (i_counts _ Hi))|done|]. rewrite Hx.
    apply range_set; try done; [apply (a_range _ (i_counts _ Hi))|by intros g [= <-]|by intros g ?%elem_of_nil|cbn; lia].
  - intros g. rewrite Hfl. case_decide; by subst.
  - intros g. rewrite Hfl. case_decide; [subst; lia|done].
  - intros g. rewrite Hfl. case_decide; [subst; by right|by left].
  - rewrite Hp. apply same_pipes_refl.
  - intros g Hg. unfold is_pipe, closed_by. rewrite Hx, Hcl, Hfl. cbn [ctl closing].
    assert (Hrg : refs_of (mk_proc (<[n := Some f]> (ofile (procs w me))) (ofn (procs w me)) (nofile (procs w me)) (Run r)) g =
                  (refs_of (procs w me) g + if decide (f = g) then 1 else 0)%nat).
    { unfold refs_of. rewrite Hh. cbn [ofile ctl uncounted held].
      pose proof (fd_set (ofile (procs w me)) n (Some f) (uncounted (ctl (procs w me))) None g Hn) as Hset.
      rewrite cnt_set_Some in Hset by done.
      assert (Hz : cnt (ofile (procs w me)) (uncounted (ctl (procs w me))) g n = 0%nat).
      { destruct Hu as [[-> Hnone]| ->]; [by apply cnt_None|apply cnt_uncounted]. }
      rewrite Hz in Hset. specialize (Hset ltac:(naive_solver) ltac:(by left)). lia. }
    rewrite Hrg. case_decide as Hgf.
    + subst g. rewrite decide_True by done. cbn [f_count set_count f_type]. rewrite u16_small by lia.
      pose proof (refs_ge (procs w) me f Hme). apply tr_inc; try done; lia.
    + rewrite decide_False by done. apply tr_same; [done|lia|done|by left].
  - unfold at_ok. by rewrite Hx.
  - intros g. unfold closed_by. by rewrite Hx.
Qed.

(** [p->ofile[new] = f; filedup(f)]. *)
Lemma dup_to me n f w :
  inv w → (me < NPROC)%nat → (1 ≤ refs_of (procs w me) f)%nat → (f < NFILE)%nat →
  ∃ w1, filedup f (set_fd me n (Some f) w) = Ok w1 ∧
    (∀ g, files w1 g = if decide (g = f) then set_count (u16 (f_count (files w f) + 1)) (files w f) else files w g) ∧
    procs w1 me = mk_proc (<[n := Some f]> (ofile (procs w me))) (ofn (procs w me)) (nofile (procs w me)) (ctl (procs w me)) ∧
    (∀ p, p ≠ me → procs w1 p = procs w p) ∧ ft_lock w1 = ft_lock w ∧ pipes w1 = pipes w ∧ pages w1 = pages w.
Proof.
  intros Hi Hme Hr Hf. destruct (ref_open w me f Hi Hme Hr Hf) as (_ & Hc & _).
  rewrite filedup_eq by apply (a_lock _ (i_counts _ Hi)). change (files (set_fd me n (Some f) w)) with (files w).
  rewrite (proj2 (Z.ltb_ge _ _)) by lia. eexists. split; [reflexivity|]. split_and!; try done.
  - intros g. exact (files_upd f (λ y, set_count (u16 (f_count y + 1)) y) (set_fd me n (Some f) w) g).
  - exact (procs_upd_eq me _ w).
  - intros p Hp. exact (procs_upd_ne me _ w p Hp).
Qed.

Lemma keep_dup_to me n f r w :
  inv w → ctl (procs w me) = Run r → (n < NOFILE)%nat → ofile (procs w me) n = None → (∃ fd, ofile (procs w me) fd = Some f) →
  ∃ w1, filedup f (set_fd me n (Some f) w) = Ok w1 ∧ ∀ r', inv (goto me (Run r') w1).
Proof.
  intros Hi E Hn Ho (fd & Hfd). assert (Hme : (me < NPROC)%nat) by (apply (in_table w); congruence).
  pose proof (ro_fd _ (a_range _ (i_counts _ Hi) me) fd f Hfd) as [_ Hf].
  assert (Hr : (1 ≤ refs_of (procs w me) f)%nat) by (apply (fd_ref w me fd); [done|done|by rewrite E]).
  destruct (dup_to me n f w Hi Hme Hr Hf) as (w2 & -> & F1 & F2 & F3 & F4 & F5 & F6). exists w2. split; [done|]. intros r'.
  eapply (keep_ref w _ me n f r'); rewrite ?E; try done.
  - by left.
  - unfold goto. rewrite procs_upd_eq, F2. done.
  - intros p Hp. unfold goto. rewrite procs_upd_ne by done. by apply F3.
Qed.

(** ** dup, dup3 *)

Lemma keep_sys_dup me (fd : Z) r w : inv w → ctl (procs w me) = Run r → ∃ w', sys_dup me fd w = Ok w' ∧ inv w'.
Proof.
  intros Hi E. unfold sys_dup. destruct (getfd me fd w) as [f|] eqn:Hg; [|eexists; split; [done|by apply (keep_ret me r)]].
  case_match; [eexists; split; [done|by apply (keep_ret me r)]|]. apply getfd_Some in Hg as [_ Hof]. unfold fdalloc.
  destruct (fd_scan NOFILE 0 _ _) as [n|] eqn:Hs; [|eexists; split; [done|by apply (keep_ret me r)]].
  apply fd_scan_spec in Hs as (Hn & _ & Hno & _).
  destruct (keep_dup_to me n f r w Hi E ltac:(lia) Hno ltac:(eauto)) as (w1 & -> & Hw1). cbn [bind]. eexists. split; [reflexivity|].
  apply (keep_file f (λ y, set_fd_flags (fd_flags y) y) (goto me (Run (Z.of_nat n)) w1)); [apply Hw1|by intros []..].
Qed.

Lemma keep_sys_dup3 me oldfd newfd flags r w :
  inv w → ctl (procs w me) = Run r → ∃ w', sys_dup3 me oldfd newfd flags w = Ok w' ∧ inv w'.
Proof.
  intros Hi E. unfold sys_dup3. destruct (getfd me oldfd w) as [f|] eqn:Hg; [|eexists; split; [done|by apply (keep_ret me r)]].
  apply getfd_Some in Hg as [Hold Hof]. destruct (Z.eqb_spec oldfd newfd) as [_|Hne]; [eexists; split; [done|by apply (keep_ret me r)]|].
  destruct (orb _ _) eqn:Hb; [eexists; split; [done|by apply (keep_ret me r)]|].
  apply orb_false_iff in Hb as [[Hb1%Z.ltb_ge Hb2%Z.leb_gt]%orb_false_iff _].
  set (n := Z.to_nat newfd) in *. set (o := Z.to_nat oldfd) in *. assert (Hn : (n < NOFILE)%nat) by lia. assert (Hon : o ≠ n) by lia.
  pose proof (a_range _ (i_counts _ Hi) me) as Hr.
  assert (Hset : ∀ g, (fd_refs (ofile (procs w me)) (Some n) g + cnt (ofile (procs w me)) None g n = fd_refs (ofile (procs w me)) None g)%nat).
  { intros g. pose proof (fd_refs_change (ofile (procs w me)) (ofile (procs w me)) None (Some n) n g Hn) as Hc.
    rewrite cnt_uncounted in Hc. rewrite Hc; [lia|done|by left|by right]. }
  destruct (ofile (procs w me) n) as [h|] eqn:Hh; (eexists; split; [reflexivity|]); apply keep_goto; rewrite ?E; try done; try (cbn; lia).
  - intros g. unfold refs_of. rewrite E. cbn [uncounted held]. rewrite held_one. change (held_refs g []) with 0%nat.
    pose proof (Hset g) as Hc. rewrite (cnt_Some _ None g h n Hh) in Hc by done. lia.
  - intros g ->%list_elem_of_singleton. by apply (ro_fd _ Hr n).
  - unfold at_ok, goto. rewrite procs_upd_eq. by split_and!.
  - intros g. unfold refs_of. rewrite E. cbn [uncounted held]. pose proof (Hset g) as Hc. rewrite (cnt_None _ None g n Hh) in Hc by done. lia.
  - intros g ?%elem_of_nil. done.
  - unfold at_ok, goto. rewrite procs_upd_eq. by split_and!.
Qed.

Lemma keep_dup3_set me f oldfd newfd flags w :
  inv w → ctl (procs w me) = Dup3Set f oldfd newfd flags → ∃ w', dup3_set me f oldfd newfd flags w = Ok w' ∧ inv w'.
Proof.
  intros Hi E. assert (Hme : (me < NPROC)%nat) by (apply (in_table w); congruence).
  pose proof (c_at _ (i_points _ Hi) me) as Ha. unfold at_ok in Ha. rewrite E in Ha. destruct Ha as (Hold & Hne & Hn).
  pose proof (ro_fd _ (a_range _ (i_counts _ Hi) me) oldfd f Hold) as [_ Hf].
  assert (Hr : (1 ≤ refs_of (procs w me) f)%nat).
  { apply (fd_ref w me oldfd); [done|done|]. rewrite E. cbn. congruence. }
  unfold dup3_set. destruct (dup_to me newfd f w Hi Hme Hr Hf) as (w1 & -> & F1 & F2 & F3 & F4 & F5 & F6). cbn [bind].
  rewrite F2. cbn [ofile]. rewrite fn_insert_ne, Hold by done. cbn [of_opt bind]. eexists. split; [reflexivity|].
  assert (Hinv : inv (goto me (Run (Z.of_nat newfd)) w1)).
  { eapply (keep_ref w _ me newfd f); rewrite ?E; try done.
    - by right.
    - unfold goto. rewrite procs_upd_eq, F2. done.
    - intros p Hp. unfold goto. rewrite procs_upd_ne by done. by apply F3. }
  set (v := Z.land _ _).
  destruct (has flags O_CLOEXEC).
  - apply (keep_file f (λ y, set_fd_flags (Z.lor (fd_flags y) FD_CLOEXEC) y) (goto me (Run (Z.of_nat newfd)) (upd_file f (set_fd_flags v) w1)));
      [|by intros []..]. apply (keep_file f (set_fd_flags v) (goto me (Run (Z.of_nat newfd)) w1)); [done|by intros []..].
  - apply (keep_file f (set_fd_flags v) (goto me (Run (Z.of_nat newfd)) w1)); [done|by intros []..].
Qed.

(** ** Operations on a pipe through a descriptor *)

(** The contents of a pipe change, the process goes on at [k]. *)
Lemma keep_pipe_use me k a d pi pi' w :
  inv w → ctl (procs w me) ≠ NoProc → ctl (procs w me) ≠ Embryo → closing (ctl (procs w me)) = None → closing k = None → forking k = None →
  uncounted k = uncounted (ctl (procs w me)) → held k = held (ctl (procs w me)) →
  pipes w !! a = Some (d, pi) → (∀ wr, open_flag wr pi' = open_flag wr pi) → (pipe_ok pi → pipe_ok pi') →
  at_ok (files w) (procs (goto me k w)) me → inv (goto me k (with_pipes (<[a := (d, pi')]> (pipes w)) w)).
Proof.
  intros Hi Hk1 Hk2 Hcl Hcl' Hfk Hu Hh Ha Hfl Hok Hat. set (w' := goto me k _).
  assert (Hx : procs w' me = mk_proc (ofile (procs w me)) (ofn (procs w me)) (nofile (procs w me)) k) by (unfold w', goto; by rewrite procs_upd_eq).
  assert (Hr : refs_of (procs w' me) = refs_of (procs w me)) by (rewrite Hx; unfold refs_of; cbn [ofile ctl]; by rewrite Hu, Hh).
  apply (keep_quiet w w' me); try done.
  - split; [by apply (in_table w)|apply (a_lock _ (i_counts _ Hi))|intros p Hp; unfold w', goto; by rewrite procs_upd_ne|].
    rewrite Hx. pose proof (a_range _ (i_counts _ Hi) me) as [R1 R2 R3 R4]. rewrite <-Hh in R2, R3. apply range_ctl; [apply (a_range _ (i_counts _ Hi))|done|done|].
    by rewrite Hcl'.
  - intros g. by left.
  - by apply same_pipes_insert with pi.
  - intros g _. unfold closed_by. rewrite Hx, Hcl. cbn [ctl]. rewrite Hcl', <-Hx, Hr. apply tr_same; try done. by left.
  - intros g. unfold closed_by. rewrite Hx. cbn. by rewrite Hcl'.
  - intros np. rewrite Hx. cbn. by rewrite Hfk.
Qed.

(** The pipe of a descriptor. *)
Lemma fd_pipe me fd f w :
  inv w → (me < NPROC)%nat → ofile (procs w me) fd = Some f → uncounted (ctl (procs w me)) ≠ Some fd → f_type (files w f) = FD_PIPE →
  ∃ a d pi, f_data (files w f) = Pipe a ∧ pipes w !! a = Some (d, pi) ∧ pipe_ok pi ∧ end_of w f a (filewriteable (files w f)) ∧
    open_flag (filewriteable (files w f)) pi = 1 ∧ pipe_of f w = Ok (a, d, pi).
Proof.
  intros Hi Hme Hfd Hu Ht. destruct (fd_open w me fd f Hi Hme Hfd Hu) as (Hc & Hf & Hty & _). unfold type_ok in Hty. rewrite Ht in Hty.
  destruct Hty as (a & Hd). assert (He : end_of w f a (filewriteable (files w f))) by (split_and!; try done; by left).
  destruct (b_end _ (i_chans _ Hi) _ _ _ He) as (d & pi & Ha & Ho). destruct (b_pipe _ (i_chans _ Hi) _ _ _ Ha) as (Hok & _).
  exists a, d, pi. split_and!; try done. unfold pipe_of. rewrite Ht, Hd, Ha. done.
Qed.

Lemma read_keeps dst killed nonblock n pi R l o pi' out ev :
  pipe_ok pi → holds BUFPAGE pi R l → read_done BUFPAGE dst killed nonblock n pi pi' R l o out ev →
  pipe_ok pi' ∧ ∀ wr, open_flag wr pi' = open_flag wr pi.
Proof.
  intros (Hl & Hs & _) Hh (Hl' & Hne & He). destruct (decide (l = [])) as [->|Hq].
  - destruct (He eq_refl) as (-> & _). split; [|by intros []]. split_and!; [done|done|]. by exists R, [].
  - destruct (Hne Hq) as (_ & _ & lost & C). destruct C as [(rest & _ & Hrest & _) _ _ _ Csz _ Cro Cwo]. split.
    + split_and!; [done|by rewrite Csz|]. eauto.
    + by intros [].
Qed.

Lemma write_keeps src killed nonblock n i pi R l bs o pi' ev :
  pipe_ok pi → wrote BUFPAGE src killed nonblock n pi pi' R l bs i o ev →
  pipe_ok pi' ∧ ∀ wr, open_flag wr pi' = open_flag wr pi.
Proof.
  intros (Hl & Hs & _) [W1 W2 W3 W4 W5 W6 W7 W8]. split; [|by intros []]. split_and!; [done|congruence|]. eauto.
Qed.

Definition in_call k : Prop := k ≠ NoProc ∧ k ≠ Embryo ∧ closing k = None ∧ uncounted k = None ∧ held k = [].

(** A read segment does what [piperead] does, on the pipe of the descriptor. *)
Lemma read_segment_spec resume dst killed me fd f n w :
  inv w → in_call (ctl (procs w me)) → ofile (procs w me) fd = Some f → f_type (files w f) = FD_PIPE →
  ∃ a d pi R l o pi' out ev, pipe_of f w = Ok (a, d, pi) ∧ holds BUFPAGE pi R l ∧
    read_done BUFPAGE dst killed (has (f_flags (files w f)) O_NONBLOCK) n pi pi' R l o out ev ∧
    read_segment resume dst killed me fd f n w =
      Ok (goto me (match o with Sleep _ => Reading fd f n | Ret r => Run r end) (with_pipes (<[a := (d, pi')]> (pipes w)) w),
          (OfPipe a <$> ev) ++ [Got out]) ∧
    inv (goto me (match o with Sleep _ => Reading fd f n | Ret r => Run r end) (with_pipes (<[a := (d, pi')]> (pipes w)) w)).
Proof.
  intros Hi (K1 & K2 & K3 & K4 & K5) Hfd Ht. assert (Hme : (me < NPROC)%nat) by (by apply (in_table w)).
  destruct (fd_pipe me fd f w Hi Hme Hfd ltac:(by rewrite K4) Ht) as (a & d & pi & Hd & Ha & Hok & _ & _ & Hpo).
  pose proof Hok as (Hl & _ & R & l & Hh). set (nb := has (f_flags (files w f)) O_NONBLOCK).
  destruct (piperead_spec BUFPAGE dst killed nb n pi R l Hh Hl) as (o & pi' & out & ev & P1 & P2 & Hdone).
  exists a, d, pi, R, l, o, pi', out, ev. split_and!; try done.
  - unfold read_segment. rewrite Hpo. cbn [bind]. fold nb. assert (Hop : (if resume then piperead_resume dst killed nb n pi
      else piperead dst killed nb n pi) = Ok (o, pi', out, ev)) by (by destruct resume). rewrite Hop. cbn [bind]. destruct o; [|done].
    unfold lock_unlock. change (files (with_pipes _ w)) with (files w). by rewrite (c_flock _ (i_points _ Hi) f).
  - destruct (read_keeps _ _ _ _ _ _ _ _ _ _ _ Hok Hh Hdone) as [Hok' Hfl].
    apply (keep_pipe_use me _ a d pi); try done; try (by destruct o); rewrite ?K4, ?K5; try (by destruct o).
    unfold at_ok, goto. rewrite procs_upd_eq. by destruct o.
Qed.

Lemma write_segment_spec src killed me fd f n i w :
  inv w → in_call (ctl (procs w me)) → ofile (procs w me) fd = Some f → f_type (files w f) = FD_PIPE → 0 ≤ i →
  ∃ a d pi R l o pi' bs ev, pipe_of f w = Ok (a, d, pi) ∧ holds BUFPAGE pi R l ∧
    wrote BUFPAGE src killed (has (f_flags (files w f)) O_NONBLOCK) n pi pi' R l bs i o ev ∧
    write_segment src killed me fd f n i w =
      Ok (goto me (match o with Sleep j => Writing fd f n j | Ret r => Run r end) (with_pipes (<[a := (d, pi')]> (pipes w)) w),
          OfPipe a <$> ev) ∧
    inv (goto me (match o with Sleep j => Writing fd f n j | Ret r => Run r end) (with_pipes (<[a := (d, pi')]> (pipes w)) w)).
Proof.
  intros Hi (K1 & K2 & K3 & K4 & K5) Hfd Ht Hi0. assert (Hme : (me < NPROC)%nat) by (by apply (in_table w)).
  destruct (fd_pipe me fd f w Hi Hme Hfd ltac:(by rewrite K4) Ht) as (a & d & pi & Hd & Ha & Hok & _ & _ & Hpo).
  pose proof Hok as (Hl & Hs & R & l & Hh). set (nb := has (f_flags (files w f)) O_NONBLOCK).
  destruct (pipewrite_from_spec BUFPAGE src killed nb n i pi R l Hh Hl Hi0) as (o & pi' & ev & bs & P1 & Hw); [left; by rewrite Hs|].
  exists a, d, pi, R, l, o, pi', bs, ev. split_and!; try done.
  - unfold write_segment. rewrite Hpo. cbn [bind]. fold nb. rewrite P1. cbn [bind]. destruct o; [|done].
    unfold lock_unlock. change (files (with_pipes _ w)) with (files w). by rewrite (c_flock _ (i_points _ Hi) f).
  - destruct (write_keeps _ _ _ _ _ _ _ _ _ _ _ _ Hok Hw) as [Hok' Hfl]. pose proof (w_end _ _ _ _ _ _ _ _ _ _ _ _ _ Hw) as Hend.
    apply (keep_pipe_use me _ a d pi); try done; try (by destruct o); rewrite ?K4, ?K5; try (by destruct o).
    unfold at_ok, goto. rewrite procs_upd_eq. destruct o as [|j]; [done|]. split_and!; try done. inversion Hend; lia.
Qed.

Lemma run_in_call r : in_call (Run r).
Proof. by split_and!. Qed.

Lemma keep_sys_read dst killed acc me (fd n : Z) r w :
  inv w → ctl (procs w me) = Run r →
  sys_read dst killed acc me fd n w = NoFuel ∨ ∃ w' ev, sys_read dst killed acc me fd n w = Ok (w', ev) ∧ inv w'.
Proof.
  intros Hi E. assert (Hret : ∀ r', ∃ w' ev, Ok (goto me (Run r') w, []) = Ok (w', ev : list report) ∧ inv w')
    by (intros r'; eexists _, _; split; [done|by apply (keep_ret me r)]).
  unfold sys_read. destruct (getfd me fd w) as [f|] eqn:Hg; [|by right]. do 3 (case_match; [by right|]).
  apply getfd_Some in Hg as [Hfd Hof]. unfold lock_unlock. rewrite (c_flock _ (i_points _ Hi) f). cbn [bind].
  destruct (decide (f_type (files w f) = FD_PIPE)) as [Ht|Ht].
  - right. destruct (read_segment_spec false dst killed me (Z.to_nat fd) f n w Hi) as (a & d & pi & R & l & o & pi' & out & ev & _ & _ & _ & -> & Hinv);
      [by rewrite E; apply run_in_call|done|done|]. eauto.
  - left. unfold read_segment, pipe_of. destruct (f_type (files w f)); done.
Qed.

Lemma keep_sys_write src killed acc me (fd n : Z) r w :
  inv w → ctl (procs w me) = Run r →
  sys_write src killed acc me fd n w = NoFuel ∨ ∃ w' ev, sys_write src killed acc me fd n w = Ok (w', ev) ∧ inv w'.
Proof.
  intros Hi E. assert (Hret : ∀ r', ∃ w' ev, Ok (goto me (Run r') w, []) = Ok (w', ev : list report) ∧ inv w')
    by (intros r'; eexists _, _; split; [done|by apply (keep_ret me r)]).
  unfold sys_write. case_match; [by right|]. destruct (getfd me fd w) as [f|] eqn:Hg; [|by right]. do 3 (case_match; [by right|]).
  apply getfd_Some in Hg as [Hfd Hof]. unfold lock_unlock. rewrite (c_flock _ (i_points _ Hi) f). cbn [bind].
  destruct (decide (f_type (files w f) = FD_PIPE)) as [Ht|Ht].
  - right. destruct (write_segment_spec src killed me (Z.to_nat fd) f n 0 w Hi) as (a & d & pi & R & l & o & pi' & bs & ev & _ & _ & _ & -> & Hinv);
      [by rewrite E; apply run_in_call|done|done|done|]. eauto.
  - left. unfold write_segment, pipe_of. destruct (f_type (files w f)); done.
Qed.

(** ** fcntl *)

(** The lowest bits of a number under a mask. *)
Lemma land_low (x y m : Z) : 0 ≤ m < 4 → (∀ i, 0 ≤ i < 2 → Z.testbit x i = Z.testbit y i) → Z.land x m = Z.land y m.
Proof.
  intros Hm Hxy. apply Z.bits_inj'. intros i Hi. rewrite !Z.land_spec. destruct (Z_lt_dec i 2) as [Hlt|Hge]; [by rewrite Hxy by lia|].
  assert (Z.testbit m i = false) as ->; [|by rewrite !andb_false_r]. destruct (decide (m = 0)) as [->|]; [apply Z.bits_0|].
  apply Z.bits_above_log2; [lia|]. apply Z.log2_lt_pow2; [lia|]. assert (2 ^ 2 ≤ 2 ^ i) by (apply Z.pow_le_mono_r; lia). lia.
Qed.

(** [F_SETFL] keeps the access mode. *)
Lemma setfl_mode flags arg m : 0 ≤ m < 4 → Z.land (setfl flags arg) m = Z.land flags m.
Proof.
  intros Hm. apply land_low; [done|]. intros i Hi. unfold setfl, u32. rewrite Z.mod_pow2_bits_low by lia.
  rewrite Z.lor_spec, !Z.land_spec, Z.lnot_spec by lia.
  assert (Z.testbit (Z.lor O_NONBLOCK O_APPEND) i = false) as ->.
  { assert (i = 0 ∨ i = 1) as [-> | ->] by lia; done. }
  by rewrite andb_true_r, andb_false_r, orb_false_r.
Qed.

Lemma setfl_kind arg y : kind (set_flags (setfl (f_flags y) arg) y) = kind y.
Proof. unfold kind, filewriteable, filereadable. cbn. by rewrite !setfl_mode by (unfold O_WRONLY, O_RDWR; lia). Qed.

(** The calls of [fcntl] the theorems are about: a descriptor is not asked for
    below 0, and with close-on-exec not at 0. *)
Definition fcntl_safe (c : cmd) (arg : Z) : Prop :=
  match c with F_DUPFD => 0 ≤ i32 arg | F_DUPFD_CLOEXEC => 0 < i32 arg | _ => True end.

Lemma fdalloc2_spec me f b w :
  0 ≤ b → fdalloc2 me f b w = Ok (None, w) ∨
  ∃ n, fdalloc2 me f b w = Ok (Some n, set_fd me n (Some f) w) ∧ b ≤ Z.of_nat n ∧ (n < NOFILE)%nat ∧ ofile (procs w me) n = None ∧
    ∀ i, (Z.to_nat b ≤ i < n)%nat → ofile (procs w me) i ≠ None.
Proof.
  intros Hb. unfold fdalloc2. rewrite (proj2 (Z.ltb_ge _ _)) by lia.
  destruct (fd_scan _ _ _ _) as [n|] eqn:Hs; [right|by left]. apply fd_scan_spec in Hs as (Hn & ? & ? & ?).
  exists n. split_and!; try done; lia.
Qed.

Lemma keep_sys_fcntl me (fd : Z) c arg r w :
  inv w → ctl (procs w me) = Run r → fcntl_safe c arg → ∃ w', sys_fcntl me fd c arg w = Ok w' ∧ inv w'.
Proof.
  intros Hi E Hsafe. assert (Hme : (me < NPROC)%nat) by (apply (in_table w); congruence).
  unfold sys_fcntl. destruct (getfd me fd w) as [f|] eqn:Hg; [|eexists; split; [done|by apply (keep_ret me r)]].
  apply getfd_Some in Hg as [_ Hof].
  destruct c; cbn in Hsafe; try (eexists; split; [done|by apply (keep_ret me r)]).
  - destruct (fdalloc2_spec me f (i32 arg) w Hsafe) as [-> |(n & -> & _ & Hn & Hno & _)]; cbn [bind].
    + eexists. split; [done|by apply (keep_ret me r)].
    + destruct (keep_dup_to me n f r w Hi E Hn Hno ltac:(eauto)) as (w1 & -> & Hw1). cbn [bind]. eexists. split; [done|apply Hw1].
  - destruct (fdalloc2_spec me f (i32 arg) w ltac:(lia)) as [-> |(n & -> & Hlo & Hn & Hno & _)]; cbn [bind fd_num].
    + eexists. split; [done|by apply (keep_ret me r)].
    + rewrite (proj2 (Z.ltb_lt _ _)) by lia.
      destruct (keep_dup_to me n f r w Hi E Hn Hno ltac:(eauto)) as (w1 & -> & Hw1). cbn [bind]. eexists. split; [done|].
      apply (keep_file f (set_fd_flags FD_CLOEXEC) (goto me (Run (Z.of_nat n)) w1)); [apply Hw1|by intros []..].
  - eexists. split; [done|]. apply (keep_file f (set_fd_flags (u32 arg)) (goto me (Run 0) w)); [by apply (keep_ret me r)|by intros []..].
  - eexists. split; [done|]. pose proof (keep_ret me r 0 w Hi E) as Hi'.
    assert (Heq : ∀ g, files (goto me (Run 0) (upd_file f (set_flags (setfl (f_flags (files w f)) arg)) w)) g =
      files (upd_file f (λ y, set_flags (setfl (f_flags y) arg) y) (goto me (Run 0) w)) g).
    { intros g. change (files (goto me (Run 0) (upd_file f (set_flags (setfl (f_flags (files w f)) arg)) w)) g)
        with (files (upd_file f (set_flags (setfl (f_flags (files w f)) arg)) w) g). by rewrite !files_upd. }
    apply (keep_file f (λ y, set_flags (setfl (f_flags y) arg) y) (goto me (Run 0) w)); [done|by intros y; apply setfl_kind|by intros []].
  - case_bool_decide as Ht; cbn [negb]; [|eexists; split; [done|by apply (keep_ret me r)]].
    destruct (fd_pipe me (Z.to_nat fd) f w Hi Hme Hof ltac:(by rewrite E) Ht) as (a & d & pi & -> & Ha & Hok & _).
    rewrite Ha. cbn [of_opt bind]. pose proof Hok as (Hl & _). unfold pipeget_size. rewrite acquire_ok by done. cbn [bind].
    rewrite release_ok by done. cbn [bind]. eexists. split; [done|]. apply (keep_pipe_use me _ a d pi); rewrite ?E; try done; [by intros []|].
    unfold at_ok, goto. by rewrite procs_upd_eq.
Qed.

(** ** exit *)

Lemma keep_exit me r w : inv w → ctl (procs w me) = Run r → inv (goto me (ExitLoop 0) w).
Proof.
  intros Hi E. apply keep_goto; rewrite ?E; try done; [by unfold refs_of; rewrite E|by intros f ?%elem_of_nil|cbn; lia|].
  unfold at_ok, goto. rewrite procs_upd_eq. intros fd ?. lia.
Qed.

Lemma keep_exit_loop me fd w :
  inv w → ctl (procs w me) = ExitLoop fd → ∃ w', exit_loop me fd w = Ok w' ∧ inv w'.
Proof.
  intros Hi E. pose proof (c_at _ (i_points _ Hi) me) as Ha. unfold at_ok in Ha. rewrite E in Ha.
  pose proof (a_range _ (i_counts _ Hi) me) as Hr. unfold exit_loop. destruct (Nat.ltb_spec fd NOFILE) as [Hlt|Hge].
  - destruct (ofile (procs w me) fd) as [f|] eqn:Ho; (eexists; split; [done|]); apply keep_goto; rewrite ?E; try done; try (cbn; lia).
    + intros g. unfold refs_of. rewrite E. cbn [uncounted held]. rewrite held_one. change (held_refs g []) with 0%nat.
      pose proof (fd_refs_change (ofile (procs w me)) (ofile (procs w me)) None (Some fd) fd g Hlt) as Hc.
      rewrite cnt_uncounted, (cnt_Some _ None g f fd Ho) in Hc by done. rewrite Nat.add_0_r in *. rewrite Hc; [lia|done|by left|by right].
    + intros g ->%list_elem_of_singleton. by apply (ro_fd _ Hr fd).
    + unfold at_ok, goto. rewrite procs_upd_eq. by split.
    + intros g. unfold refs_of. by rewrite E.
    + by intros f ?%elem_of_nil.
    + unfold at_ok, goto. rewrite procs_upd_eq. intros i Hi'. destruct (decide (i = fd)) as [->|]; [done|]. apply Ha. lia.
  - eexists. split; [done|]. apply keep_goto; rewrite ?E; try done; try (cbn; lia).
    + intros g. unfold refs_of. by rewrite E.
    + by intros f ?%elem_of_nil.
    + unfold at_ok, goto. rewrite procs_upd_eq. cbn. intros i. destruct (ofile (procs w me) i) as [f|] eqn:Ho; [|done].
      destruct (ro_fd _ Hr i f Ho). rewrite Ha in Ho by lia. done.
Qed.

Lemma keep_exit_clear me fd w :
  inv w → ctl (procs w me) = ExitClear fd → inv (goto me (ExitLoop (S fd)) (set_fd me fd None w)).
Proof.
  intros Hi E. pose proof (c_at _ (i_points _ Hi) me) as Ha. unfold at_ok in Ha. rewrite E in Ha. destruct Ha as [Hlt Ha].
  pose proof (a_range _ (i_counts _ Hi) me) as Hr. set (w' := goto me _ _).
  assert (Hx : procs w' me = mk_proc (<[fd := None]> (ofile (procs w me))) (ofn (procs w me)) (nofile (procs w me)) (ExitLoop (S fd)))
    by (unfold w', goto, set_fd; by rewrite !procs_upd_eq).
  apply (keep_move w w' me); rewrite ?E, ?Hx; try done.
  - eapply same_but_trans; apply same_but_procs.
  - apply range_set; try done; [by intros g ?%elem_of_nil|cbn; lia].
  - intros g. unfold refs_of. rewrite E. cbn [ofile ctl uncounted held].
    pose proof (fd_set (ofile (procs w me)) fd None (Some fd) None g Hlt (or_intror eq_refl) (or_introl eq_refl)) as Hc.
    rewrite cnt_set_None, cnt_uncounted in Hc. lia.
  - unfold at_ok. rewrite Hx. intros i Hi'. cbn [ofile]. destruct (decide (i = fd)) as [->|]; [apply fn_lookup_insert|].
    rewrite fn_insert_ne by done. apply Ha. lia.
Qed.
End steps.

End FileStep.
