(* ===== verification/FilePipe.v ===== *)
(** * Open files: new files, new pipes, new processes *)

From stdpp Require Import functions.
From S2P Require Import Prelude Ring Pmem PipeDefs Pipe FifoDefs ProcDefs FileDefs FileInv File FileOps FileStep.
Import Pmem PipeDefs Pipe FileDefs FileInv File FileOps FileStep.

Module FilePipe.

Section steps.
Context {St : Type} `{PageAllocatorLaws St} {Fs : Type} `{VfsLaws Fs}.
Abbreviation world := (world St Fs).
Implicit Types (w : world) (f g fd p q me : nat) (a d : Z) (k : pc) (x : proc).

(** ** A new file *)

(** A free slot. *)
Lemma slot_free w f : inv w → (f < NFILE)%nat → f_count (files w f) = 0 → refs (procs w) f = 0%nat ∧ ∀ p, ¬ closed_by w p f.
Proof.
  intros Hi Hf Hc. destruct (a_slot _ (i_counts _ Hi) f Hf) as [(_ & ? & Hn)|[(? & _)|(? & _)]]; [|lia|lia].
  split; [done|]. intros p Hp. apply Hn. eauto.
Qed.

(** The process takes the free slot [f] for a file that is not a pipe, as a
    reference of its own, or loses it. *)
Lemma keep_fresh w w' me f (own : bool) :
  inv w → ctl (procs w me) ≠ NoProc → ctl (procs w me) ≠ Embryo → closing (ctl (procs w me)) = None →
  (f < NFILE)%nat → f_count (files w f) = 0 → (∀ g, g ≠ f → files w' g = files w g) → f_count (files w' f) = 1 → f_lock (files w' f) = false →
  f_type (files w' f) ≠ FD_PIPE → type_ok (files w' f) →
  (∀ p, p ≠ me → procs w' p = procs w p) → range_ok (procs w' me) → closing (ctl (procs w' me)) = None →
  (∀ g, refs_of (procs w' me) g = (refs_of (procs w me) g + if own then if decide (f = g) then 1 else 0 else 0)%nat) →
  at_ok (files w') (procs w') me → forking (ctl (procs w' me)) = None →
  ft_lock w' = ft_lock w → pipes w' = pipes w → pages w' = pages w → inv w'.
Proof.
  intros Hi K1 K2 K3 Hf Hc Hfl Hc' Hl' Ht' Hty' Hoth Hr Hcl Href Hat Hfk Hlk Hp Hs.
  assert (Hme : (me < NPROC)%nat) by (by apply (in_table w)). destruct (slot_free w f Hi Hf Hc) as [Hz Hno]. split.
  - apply (counts_trans w w' me); [apply Hi|split; try done; rewrite Hlk; apply (a_lock _ (i_counts _ Hi))|]. intros g Hg.
    unfold is_pipe, closed_by. rewrite Hcl, K3, Href. destruct (decide (f = g)) as [<-|Hne].
    + destruct own; [apply tr_new; try done; lia|apply tr_lost; try done; lia].
    + rewrite Hfl by done. apply tr_same; [done|destruct own; lia|done|by left].
  - apply (chans_ext w); [apply Hi| |rewrite Hp; apply same_pipes_refl|done]. intros g b wr. unfold end_of, is_pipe, live.
    destruct (decide (g = f)) as [->|Hne].
    + split; [intros (_ & _ & ? & _); done|]. intros (_ & [?|(p & ff & k & Ep)] & _); [lia|]. destruct (Hno p). unfold closed_by. by rewrite Ep.
    + rewrite Hfl by done.
      assert (Hcd : (∃ p ff k', ctl (procs w' p) = CloseData g ff k') ↔ (∃ p ff k', ctl (procs w p) = CloseData g ff k')); [|tauto].
      split; intros (p & ff & k' & Ep); exists p, ff, k'; destruct (decide (p = me)) as [->|Hpm].
      * by rewrite Ep in Hcl.
      * by rewrite Hoth in Ep.
      * by rewrite Ep in K3.
      * by rewrite Hoth.
  - destruct (i_points _ Hi) as [C1 C2 C3 C4]. apply (points_upd w w' me); try done.
    + intros p g Hpm Hu. destruct (decide (g = f)) as [->|Hne]; [|by rewrite Hfl]. exfalso. revert Hu. apply (not_used w me); try done. lia.
    + intros p g _ _ Hg1. rewrite Hfl; [done|]. intros ->. lia.
    + by rewrite Hfk.
    + intros g Hg Hcg. destruct (decide (g = f)) as [->|Hne]; [done|]. rewrite Hfl in * by done. by apply C3.
    + intros g. destruct (decide (g = f)) as [->|Hne]; [done|]. rewrite Hfl by done. apply C4.
Qed.

(** What [filealloc] finds. *)
Lemma filealloc_spec w : inv w →
  filealloc w = Ok (None, w) ∨
  ∃ f, filealloc w = Ok (Some f, upd_file f fresh w) ∧ (f < NFILE)%nat ∧ f_count (files w f) = 0.
Proof.
  intros Hi. rewrite filealloc_eq by apply (a_lock _ (i_counts _ Hi)).
  destruct (find_free NFILE 0 (files w)) as [f|] eqn:Hs; [right|by left]. apply find_free_spec in Hs as [? ?]. exists f. split_and!; [done|lia|done].
Qed.

Lemma keep_sys_pipe2 me flags acc r w : inv w → ctl (procs w me) = Run r → ∃ w', sys_pipe2 me flags acc w = Ok w' ∧ inv w'.
Proof.
  intros Hi E. unfold sys_pipe2. do 2 (case_match; [eexists; split; [done|by apply (keep_ret me r)]|]).
  destruct (filealloc_spec w Hi) as [-> |(f & -> & Hf & Hc)]; cbn [bind]; [eexists; split; [done|by apply (keep_ret me r)]|].
  eexists. split; [done|]. set (w' := goto me _ _).
  assert (Hx : procs w' me = mk_proc (ofile (procs w me)) (ofn (procs w me)) (nofile (procs w me)) (PipeTwo f flags)) by (unfold w', goto; by rewrite procs_upd_eq).
  assert (Hff : files w' f = fresh (files w f)) by (transitivity (files (upd_file f fresh w) f); [done|by rewrite files_upd, decide_True]).
  apply (keep_fresh w w' me f true); rewrite ?E, ?Hx, ?Hff; try done.
  - intros g Hg. transitivity (files (upd_file f fresh w) g); [done|by rewrite files_upd, decide_False].
  - apply (c_flock _ (i_points _ Hi)).
  - intros p Hp. unfold w', goto. by rewrite procs_upd_ne.
  - apply range_ctl; [apply (a_range _ (i_counts _ Hi))|by intros g ->%list_elem_of_singleton|cbn; lia|done].
  - intros g. unfold refs_of. rewrite E. cbn [ofile ctl uncounted held]. rewrite held_one. change (held_refs g []) with 0%nat. lia.
  - unfold at_ok. rewrite Hx. change (f_type (files w' f) = FD_NONE ∧ f_count (files w' f) = 1). by rewrite Hff.
Qed.

(** ** openat *)

(** [w'] differs from [w] in the file [f] and in the process [me]; the file
    satisfies [P]. *)
Record opened w w' me f (P : file → Prop) : Prop := {
  o_file : ∀ g, g ≠ f → files w' g = files w g;
  o_new : P (files w' f);
  o_oth : ∀ p, p ≠ me → procs w' p = procs w p;
  o_lock : ft_lock w' = ft_lock w;
  o_pipes : pipes w' = pipes w;
  o_pages : pages w' = pages w
}.

Definition blank (y : file) : Prop := f_count y = 1 ∧ f_lock y = false ∧ f_type y = FD_NONE.
Definition plain (y : file) : Prop := f_count y = 1 ∧ f_lock y = false ∧ f_type y ≠ FD_PIPE ∧ type_ok y.

Lemma blank_plain y : blank y → plain y.
Proof. intros (? & ? & Ht). unfold plain, type_ok. rewrite Ht. done. Qed.

Lemma opened_upd w w' me f (P Q : file → Prop) h :
  opened w w' me f P → (∀ y, P y → Q (h y)) → opened w (upd_file f h w') me f Q.
Proof.
  intros [O1 O2 O3 O4 O5 O6] Hh. split; try done; intros; rewrite ?files_upd; [by rewrite decide_False; auto|].
  rewrite decide_True by done. by apply Hh.
Qed.

Lemma opened_proc w w' me f P h : opened w w' me f P → opened w (upd_proc me h w') me f P.
Proof. intros [O1 O2 O3 O4 O5 O6]. split; try done. intros p Hp. rewrite procs_upd_ne by done. by apply O3. Qed.

Lemma opened_vfs w w' me f P t : opened w w' me f P → opened w (with_vfs t w') me f P.
Proof. by intros [O1 O2 O3 O4 O5 O6]. Qed.

(** The process has the new file as a descriptor, or has lost it. *)
Lemma keep_opened w w' me f (own : bool) fd r r' :
  inv w → ctl (procs w me) = Run r → (f < NFILE)%nat → f_count (files w f) = 0 → opened w w' me f plain →
  (own = true → (fd < NOFILE)%nat ∧ ofile (procs w me) fd = None) →
  (∀ n, ofile (procs w' me) n = (if own then <[fd := Some f]> (ofile (procs w me)) else ofile (procs w me)) n) →
  ctl (procs w' me) = Run r' → inv w'.
Proof.
  intros Hi E Hf Hc [O1 (P1 & P2 & P3 & P4) O3 O4 O5 O6] Hfd Ho Hx.
  pose proof (a_range _ (i_counts _ Hi) me) as Hr. apply (keep_fresh w w' me f own); rewrite ?E, ?Hx; try done.
  - split; rewrite ?Hx; [|by intros g ?%elem_of_nil|cbn; lia|done]. intros n g. rewrite Ho. destruct own; [|apply (ro_fd _ Hr)].
    destruct (decide (n = fd)) as [->|Hne]; [rewrite fn_lookup_insert|rewrite fn_insert_ne by done; apply (ro_fd _ Hr)].
    intros [= <-]. by split; [apply Hfd|].
  - intros g. unfold refs_of. rewrite E, Hx. cbn [uncounted held]. destruct own.
    + destruct (Hfd eq_refl) as [Hn Hno].
      pose proof (fd_refs_change (ofile (procs w me)) (ofile (procs w' me)) None None fd g Hn) as Hc'.
      rewrite (cnt_Some (ofile (procs w' me)) None g f fd), (cnt_None (ofile (procs w me)) None g fd Hno) in Hc' by
        (done || by rewrite Ho, fn_lookup_insert). rewrite Nat.add_0_r in Hc'. rewrite Hc'; [lia| |by left|by left].
      intros i Hne. rewrite Ho. by apply fn_insert_ne.
    + rewrite (fd_refs_ext (ofile (procs w' me)) (ofile (procs w me))); [lia|done].
  - unfold at_ok. by rewrite Hx.
Qed.

Lemma keep_open me flags mode umask st path target r w :
  inv w → ctl (procs w me) = Run r → ∃ w', open_file me flags mode umask st path target w = Ok w' ∧ inv w'.
Proof.
  intros Hi E. unfold open_file.
  destruct (filealloc_spec w Hi) as [-> |(f & -> & Hf & Hc)]; cbn [bind]; [eexists; split; [done|by apply (keep_ret me r)]|].
  assert (H0' : opened w (upd_file f fresh w) me f blank).
  { split; try done; [intros g Hg; by rewrite files_upd, decide_False|]. rewrite files_upd, decide_True by done.
    split_and!; try done. apply (c_flock _ (i_points _ Hi)). }
  unfold fdalloc. change (procs (upd_file f fresh w)) with (procs w).
  destruct (fd_scan NOFILE 0 _ _) as [fd|] eqn:Hs.
  2:{ eexists. split; [done|]. eapply (keep_opened w _ me f false 0 r); try done.
      - apply opened_proc. split; try apply H0'. apply blank_plain, H0'.
      - intros n. unfold goto. by rewrite procs_upd_eq.
      - unfold goto. by rewrite procs_upd_eq. }
  apply fd_scan_spec in Hs as (Hfd & _ & Hno & _). assert (Hlt : (fd < NOFILE)%nat) by lia.
  assert (H1' : opened w (set_fd me fd (Some f) (upd_file f fresh w)) me f blank) by (by apply opened_proc).
  assert (Hof : procs (set_fd me fd (Some f) (upd_file f fresh w)) me =
    mk_proc (<[fd := Some f]> (ofile (procs w me))) (ofn (procs w me)) (nofile (procs w me)) (Run r))
    by (unfold set_fd; rewrite procs_upd_eq; by rewrite <-E).
  revert H1' Hof. generalize (set_fd me fd (Some f) (upd_file f fresh w)). intros w1 H1' Hof.
  cbv zeta. match goal with |- context [upd_file f (set_mode ?m) ?w2] => set (w3 := upd_file f (set_mode m) w2) end.
  assert (H3 : opened w w3 me f blank ∧ procs w3 = procs w1).
  { unfold w3. split; [apply (opened_upd _ _ _ _ blank); [|done]|by repeat case_match].
    repeat case_match; repeat (apply (opened_upd _ _ _ _ blank); [|done]); done. }
  clearbody w3. destruct H3 as [H3 Hp3]. rewrite <-Hp3 in Hof. clear w1 H1' Hp3. destruct target as [e|path'].
  - eexists. split; [done|]. eapply (keep_opened w _ me f true fd r); try done.
    + apply opened_proc. split; try apply H3. apply blank_plain, H3.
    + intros n. unfold goto. by rewrite procs_upd_eq, Hof.
    + unfold goto. by rewrite procs_upd_eq.
  - destruct (vfs_ext4_openat _ _) as [[r1 x] t] eqn:Hop.
    assert (H4 : opened w (upd_file f (set_path path') w3) me f blank) by (by apply (opened_upd _ _ _ _ blank)).
    assert (H5 : opened w (with_vfs t (upd_file f (λ _, x) (upd_file f (set_path path') w3))) me f plain).
    { apply opened_vfs, (opened_upd _ _ _ _ blank); [done|]. intros _ _. pose proof (o_new _ _ _ _ _ H4) as (B1 & B2 & B3).
      destruct (vfs_openat_ok _ _ _ _ _ Hop B1 B3 B2) as (V1 & V2 & V3). unfold plain, type_ok. destruct V3 as [V3|([V3|V3] & V4)]; rewrite V3; done. }
    destruct (r1 <? 0); (eexists; split; [done|]).
    + eapply (keep_opened w _ me f false 0 r); try done.
      * by apply opened_proc, opened_proc.
      * intros n. unfold goto, set_fd. rewrite !procs_upd_eq. cbn [ofile]. change (procs (with_vfs _ _)) with (procs w3). rewrite Hof. cbn [ofile].
        destruct (decide (n = fd)) as [->|Hne]; [by rewrite fn_lookup_insert|by rewrite !fn_insert_ne].
      * unfold goto. by rewrite procs_upd_eq.
    + eapply (keep_opened w _ me f true fd r); try done.
      * by apply opened_proc.
      * intros n. unfold goto. rewrite procs_upd_eq. cbn [ofile]. change (procs (with_vfs _ _)) with (procs w3). by rewrite Hof.
      * unfold goto. by rewrite procs_upd_eq.
Qed.
(** ** A new pipe *)

Lemma length_omap_le {A B} (h : A → option B) l : (length (omap h l) ≤ length l)%nat.
Proof. induction l as [|x l IH]; [done|]. cbn. destruct (h x); cbn; lia. Qed.

(** Every pipe has a file: while a file is not an end of a pipe there are fewer
    pipes than files. *)
Lemma pipes_few w rf : inv w → (rf < NFILE)%nat → ¬ is_pipe w rf → (base.size (pipes w) < NFILE)%nat.
Proof.
  intros Hi Hrf Ht. set (addr := λ f : nat, match f_data (files w f) with Pipe a => Some a | _ => None end).
  set (l := filter (λ f, f ≠ rf) (seq 0 NFILE)). rewrite <-size_dom. unfold base.size, set_size. cbn.
  assert (Hsub : elements (dom (pipes w)) ⊆+ omap addr l).
  { apply NoDup_submseteq; [apply NoDup_elements|]. intros a Ha. apply elem_of_elements, elem_of_dom in Ha as [[d pi] Ha].
    destruct (b_pipe _ (i_chans _ Hi) _ _ _ Ha) as (_ & (wr & Hwr) & Hends).
    destruct (Hends wr) as [?|(_ & f & Hf & _ & Hp & Hd & _)]; [lia|]. apply list_elem_of_omap. exists f. unfold addr. rewrite Hd.
    split; [|done]. apply list_elem_of_filter. split; [by intros ->|by apply in_range]. }
  apply submseteq_length in Hsub. pose proof (length_omap_le addr l).
  pose proof (length_filter_lt (λ f, f ≠ rf) (seq 0 NFILE) rf) as Hlt. rewrite length_seq in Hlt. fold l in Hlt.
  specialize (Hlt ltac:(by apply in_range) ltac:(by intros Hx)). lia.
Qed.

(** The pipes with a new one in the pages [a] and [d], whose ends are [rf] and
    [wf]. *)
Lemma chans_new_pipe w w' rf wf a d :
  chans w → pipes w !! a = None → d ≠ a → pa_owned (pages w') a → pa_owned (pages w') d →
  (∀ b, pa_owned (pages w) b → b ≠ a ∧ b ≠ d ∧ pa_owned (pages w') b) →
  (∀ g b wr, end_of w' g b wr ↔ end_of w g b wr ∨ (g = rf ∧ b = a ∧ wr = false) ∨ (g = wf ∧ b = a ∧ wr = true)) →
  pipes w' = <[a := (d, new_pipe)]> (pipes w) → pa_inv (pages w') → pa_avail (pages w') (2 * NFILE - 2 * S (base.size (pipes w))) → chans w'.
Proof.
  intros [B1 B2 B3 B4 B5 B6 B7] Hfa Hda Oa Od Hold Hends Hpi I2 A2.
  split; rewrite ?Hpi.
  - intros g b wr [He|[(-> & -> & ->)|(-> & -> & ->)]]%Hends; [|exists d, new_pipe; by rewrite lookup_insert_eq..].
    destruct (B1 _ _ _ He) as (d' & pi' & Hb & Ho). exists d', pi'. rewrite lookup_insert_ne; [done|]. intros ->. congruence.
  - assert (Hno : ∀ g wr, ¬ end_of w g a wr). { intros g wr He. destruct (B1 _ _ _ He) as (? & ? & ? & _). congruence. }
    intros g1 g2 b wr [He1|[(-> & -> & ->)|(-> & -> & ->)]]%Hends [He2|[(-> & Hb2 & Hw2)|(-> & Hb2 & Hw2)]]%Hends; subst; try done;
      try (by eauto); exfalso; by eapply Hno.
  - intros b d' pi'. destruct (decide (b = a)) as [->|Hba].
    + rewrite lookup_insert_eq. intros [= <- <-]. split_and!.
      * split_and!; [done|done|]. exists 0, []. apply new_pipe_holds.
      * by exists true.
      * intros wr. right. split; [by destruct wr|]. destruct wr; [exists wf|exists rf]; apply Hends; right; [by right|by left].
    + rewrite lookup_insert_ne by done. intros Hb. destruct (B3 b d' pi' Hb) as (? & ? & He'). split_and!; try done. intros wr.
      destruct (He' wr) as [?|(? & g & Hg)]; [by left|right]. split; [done|]. exists g. apply Hends. by left.
  - intros b d' pi'. destruct (decide (b = a)) as [->|Hba].
    + rewrite lookup_insert_eq. intros [= <- <-]. split_and!; [done|done|done|].
      rewrite lookup_insert_ne by done. destruct (pipes w !! d) as [[d' pi']|] eqn:Ed; [|done]. destruct (B4 _ _ _ Ed) as (Hod & _). by destruct (Hold d Hod) as (_ & ? & _).
    + rewrite lookup_insert_ne by done. intros Hb. destruct (B4 b d' pi' Hb) as (Hob & Hod & ? & ?). destruct (Hold b Hob) as (_ & _ & ?), (Hold d' Hod) as (? & _ & ?).
      split_and!; try done. by rewrite lookup_insert_ne.
  - intros b c d' p1 p2. destruct (decide (b = a)) as [->|Hba], (decide (c = a)) as [->|Hca]; rewrite ?lookup_insert_eq, ?lookup_insert_ne by done; try done.
    + intros [= <- <-] Hc. destruct (B4 c d p2 Hc) as (_ & Hod & _). by destruct (Hold d Hod) as (_ & ? & _).
    + intros Hb [= <- <-]. destruct (B4 b d p1 Hb) as (_ & Hod & _). by destruct (Hold d Hod) as (_ & ? & _).
    + apply B5.
  - done.
  - rewrite map_size_insert_None by done. done.
Qed.

(** Both files are held, of no type yet; then they are the ends of a new pipe. *)
Lemma keep_pipealloc me rf wf k w :
  inv w → ctl (procs w me) = Close rf (Close wf k) → rf ≠ wf → f_type (files w rf) = FD_NONE → f_type (files w wf) = FD_NONE →
  f_count (files w rf) = 1 → f_count (files w wf) = 1 →
  ∃ w', pipealloc rf wf w = Ok w' ∧ inv w' ∧ procs w' = procs w.
Proof.
  intros Hi E Hne Tr Tw Cr Cw. assert (Hme : (me < NPROC)%nat) by (apply (in_table w); congruence).
  pose proof (a_range _ (i_counts _ Hi) me) as Hr.
  assert (Hrf : (rf < NFILE)%nat) by (apply (ro_held _ Hr); rewrite E; left).
  assert (Hwf : (wf < NFILE)%nat) by (apply (ro_held _ Hr); rewrite E; right; left).
  destruct (i_chans _ Hi) as [B1 B2 B3 B4 B5 B6 B7].
  pose proof (pipes_few w rf Hi Hrf ltac:(unfold is_pipe; by rewrite Tr)) as Hfew.
  replace (2 * NFILE - 2 * base.size (pipes w))%nat with (S (S (2 * NFILE - 2 * S (base.size (pipes w))))) in B7 by lia.
  destruct (pa_alloc_ok _ _ B6 B7) as (a & s1 & P1 & I1 & A1 & _ & _ & Na & O1).
  destruct (pa_alloc_ok _ _ I1 A1) as (d & s2 & P2 & I2 & A2 & _ & _ & Nd & O2).
  unfold pipealloc. rewrite P1. cbn [bind]. rewrite P2. cbn [bind]. eexists. split; [reflexivity|]. set (w' := upd_file wf _ _).
  assert (Hfl : ∀ g, files w' g = if decide (g = wf) then pipe_end O_WRONLY a (files w wf) else if decide (g = rf) then pipe_end O_RDONLY a (files w rf) else files w g).
  { intros g. unfold w'. rewrite !files_upd. repeat case_decide; try done; congruence. }
  assert (Hpi : pipes w' = <[a := (d, new_pipe)]> (pipes w)) by done. assert (Hpg : pages w' = s2) by done.
  assert (Hps : procs w' = procs w) by done. assert (Hlk : ft_lock w' = ft_lock w) by done. split; [|done]. clearbody w'.
  assert (Hfa : pipes w !! a = None).
  { destruct (pipes w !! a) as [[d' pi']|] eqn:Ea; [|done]. by destruct (B4 a d' pi' Ea) as (? & _). }
  assert (Hda : d ≠ a) by (intros ->; apply Nd, O1; by left).
  assert (Hold : ∀ b, pa_owned (pages w) b → b ≠ a ∧ b ≠ d ∧ pa_owned s2 b).
  { intros b Hb. split_and!; [by intros ->|by intros ->; apply Nd, O1; right|]. apply O2. right. apply O1. by right. }
  assert (Hone : ∀ g, g = rf ∨ g = wf → (refs (procs w) g ≤ refs_of (procs w me) g)%nat ∧ (1 ≤ refs_of (procs w me) g)%nat ∧ ∀ p, ¬ closed_by w p g).
  { intros g Hg. assert (H1' : (1 ≤ refs_of (procs w me) g)%nat).
    { unfold refs_of. rewrite E, !close_refs.
      destruct Hg as [-> | ->]; [rewrite (decide_True (P := rf = rf)) by done|rewrite (decide_True (P := wf = wf)) by done]; lia. }
    destruct (ref_open w me g Hi Hme H1') as (Hc & _ & Hn); [by destruct Hg as [-> | ->]|]. split_and!; [|done|done].
    destruct Hg as [-> | ->]; lia. }
  assert (Hcd : ∀ g ff k', (∃ p, ctl (procs w p) = CloseData g ff k') → g ≠ rf ∧ g ≠ wf).
  { intros g ff k' (p & Ep). split; intros ->; [destruct (Hone rf) as (_ & _ & Hn); [by left|]|destruct (Hone wf) as (_ & _ & Hn); [by right|]];
      apply (Hn p); unfold closed_by; by rewrite Ep. }
  assert (Hends : ∀ g b wr, end_of w' g b wr ↔ end_of w g b wr ∨ (g = rf ∧ b = a ∧ wr = false) ∨ (g = wf ∧ b = a ∧ wr = true)).
  { intros g b wr. unfold end_of, live, is_pipe. rewrite Hps. rewrite Hfl.
    destruct (decide (g = wf)) as [->|Hgw]; [|destruct (decide (g = rf)) as [->|Hgr]].
    - rewrite Tw. cbn. rewrite Cw. split; [intros (_ & _ & _ & [= <-] & <-); right; right; done|].
      intros [(_ & _ & ? & _)|[(? & _)|(_ & -> & ->)]]; [done|done|]. split_and!; try done. by left.
    - rewrite Tr. cbn. rewrite Cr. split; [intros (_ & _ & _ & [= <-] & <-); right; left; done|].
      intros [(_ & _ & ? & _)|[(_ & -> & ->)|(? & _)]]; [done| |done]. split_and!; try done. by left.
    - split; [tauto|]. intros [?|[(? & _)|(? & _)]]; done. }
  split.
  - apply (counts_trans w w' me); [apply Hi|split; [done|rewrite Hlk; apply (a_lock _ (i_counts _ Hi))|intros; by rewrite Hps|by rewrite Hps]|].
    intros g Hg. unfold is_pipe, closed_by. rewrite Hps. rewrite Hfl. destruct (decide (g = wf)) as [->|Hgw]; [|destruct (decide (g = rf)) as [->|Hgr]]; apply tr_same; try done; try (by left); intros _; right.
    + destruct (Hone wf) as (_ & ? & _); [by right|lia].
    + destruct (Hone rf) as (_ & ? & _); [by left|lia].
  - apply (chans_new_pipe w w' rf wf a d); rewrite ?Hpg; try done; [apply Hi|..].
    + apply O2. right. apply O1. by left.
    + apply O2. by left.
  - destruct (i_points _ Hi) as [C1 C2 C3 C4]. apply (points_upd w w' me); rewrite ?Hps, ?E; try done.
    + intros p g Hp Hu. rewrite Hfl. destruct (decide (g = wf)) as [->|Hgw]; [|destruct (decide (g = rf)) as [->|Hgr]; [|done]]; exfalso; revert Hu; (apply (not_used w me); try done);
        [apply Hone; by right|intros q _; apply Hone; by right|apply Hone; by left|intros q _; apply Hone; by left].
    + intros p g _ _ Hg1. rewrite Hfl. repeat case_decide; by subst.
    + specialize (C1 me). unfold at_ok in *. by rewrite E in *.
    + intros g Hg. rewrite Hfl. repeat case_decide; [intros _; by exists a..|]. by apply C3.
    + intros g. rewrite Hfl. repeat case_decide; apply C4.
Qed.
Lemma pipealloc_goto rf wf me k w :
  pipealloc rf wf (goto me k w) = let* w' := pipealloc rf wf w in Ok (goto me k w').
Proof.
  unfold pipealloc. change (pages (goto me k w)) with (pages w). destruct (pa_alloc (pages w)) as [[a s1]| | |]; try done. cbn [bind].
  by destruct (pa_alloc s1) as [[d s2]| | |].
Qed.

(** The two ends while they are only held by the call, and while they are
    descriptors. *)
Lemma keep_ends_held w w' me rf wf r r' :
  inv w → ctl (procs w me) = Close rf (Close wf (Run r)) → same_but me w w' →
  (∀ n, ofile (procs w' me) n = ofile (procs w me) n) → ctl (procs w' me) = Close rf (Close wf (Run r')) → inv w'.
Proof.
  intros Hi E Hs Ho Hx. pose proof (a_range _ (i_counts _ Hi) me) as [R1 R2 R3 R4]. apply (keep_move w w' me); rewrite ?E, ?Hx; try done.
  - split; rewrite ?Hx; rewrite ?E in *; try done. intros n f. rewrite Ho. apply R1.
  - intros g. unfold refs_of. rewrite E, Hx. cbn [uncounted held]. by rewrite (fd_refs_ext _ (ofile (procs w me))).
  - unfold at_ok. by rewrite Hx.
Qed.

Lemma keep_ends_fds w w' me rf wf n1 n2 r r' :
  inv w → ctl (procs w me) = Close rf (Close wf (Run r)) → same_but me w w' →
  (n1 < NOFILE)%nat → (n2 < NOFILE)%nat → n1 ≠ n2 → ofile (procs w me) n1 = None → ofile (procs w me) n2 = None →
  (∀ n, ofile (procs w' me) n = (<[n2 := Some wf]> (<[n1 := Some rf]> (ofile (procs w me)))) n) → ctl (procs w' me) = Run r' → inv w'.
Proof.
  intros Hi E Hs L1 L2 Hne N1 N2 Ho Hx. pose proof (a_range _ (i_counts _ Hi) me) as [R1 R2 R3 R4].
  assert (Hrf : (rf < NFILE)%nat) by (apply R2; rewrite E; left). assert (Hwf : (wf < NFILE)%nat) by (apply R2; rewrite E; right; left).
  apply (keep_move w w' me); rewrite ?E, ?Hx; try done.
  - split; rewrite ?Hx; [|by intros g ?%elem_of_nil|cbn; lia|done]. intros n f. rewrite Ho.
    destruct (decide (n = n2)) as [->|]; [rewrite fn_lookup_insert; by intros [= <-]|rewrite fn_insert_ne by done].
    destruct (decide (n = n1)) as [->|]; [rewrite fn_lookup_insert; by intros [= <-]|rewrite fn_insert_ne by done]. apply R1.
  - intros g. unfold refs_of. rewrite E, Hx, !close_refs. cbn [uncounted held]. rewrite (fd_refs_ext _ _ None g Ho).
    pose proof (fd_set (<[n1 := Some rf]> (ofile (procs w me))) n2 (Some wf) None None g L2 (or_introl eq_refl) (or_introl eq_refl)) as H2'.
    pose proof (fd_set (ofile (procs w me)) n1 (Some rf) None None g L1 (or_introl eq_refl) (or_introl eq_refl)) as H1'.
    rewrite cnt_set_Some, cnt_None in H1' by done. rewrite cnt_set_Some, cnt_None in H2' by (done || by rewrite fn_insert_ne). lia.
  - unfold at_ok. by rewrite Hx.
Qed.

Lemma nonblock_kind y : kind (set_flags (Z.lor (f_flags y) O_NONBLOCK) y) = kind y.
Proof.
  unfold kind, filewriteable, filereadable. cbn. assert (Hm : ∀ m, 0 ≤ m < 4 → Z.land (Z.lor (f_flags y) O_NONBLOCK) m = Z.land (f_flags y) m).
  { intros m Hm. apply land_low; [done|]. intros i Hi. rewrite Z.lor_spec. assert (i = 0 ∨ i = 1) as [-> | ->] by lia; by rewrite orb_false_r. }
  by rewrite !Hm by (unfold O_WRONLY, O_RDWR; lia).
Qed.

(** The flags that [pipe2] sets on the two files. *)
Lemma keep_pipe_flags flags rf wf w : inv w → inv (pipe_flags flags rf wf w).
Proof.
  intros Hi. unfold pipe_flags. assert (H1' : inv (if has flags O_CLOEXEC then upd_file wf (set_fd_flags FD_CLOEXEC) (upd_file rf (set_fd_flags FD_CLOEXEC) w) else w)).
  { case_match; [|done]. do 2 (apply keep_file; [|by intros []..]). done. }
  cbv zeta. destruct (has flags O_NONBLOCK); [|done]. do 2 (apply keep_file; [|by intros y; apply nonblock_kind|by intros []]). done.
Qed.

Lemma pipe_flags_proc flags rf wf p h w : pipe_flags flags rf wf (upd_proc p h w) = upd_proc p h (pipe_flags flags rf wf w).
Proof. unfold pipe_flags. by repeat case_match. Qed.

(** The descriptors of a new pipe, or the two files to be closed again. *)
Lemma keep_pipe_fds me rf wf flags fault r w :
  let k := Close rf (Close wf (Run r)) in
  inv (goto me k w) → inv (pipe_fds me rf wf flags fault w).1.
Proof.
  intros k Hi. set (w0 := goto me k w) in *. assert (Hk : ctl (procs w0 me) = k) by (unfold w0, goto; by rewrite procs_upd_eq).
  assert (Ho : ofile (procs w0 me) = ofile (procs w me)) by (unfold w0, goto; by rewrite procs_upd_eq).
  assert (Hs : ∀ w', (∀ p, p ≠ me → procs w' p = procs w p) → ft_lock w' = ft_lock w → files w' = files w → pipes w' = pipes w →
    pages w' = pages w → same_but me w0 w').
  { intros w' Hp E1 E2 E3 E4. split_and!; try done; [intros f; by rewrite E2|]. intros p Hne. rewrite Hp by done. unfold w0, goto. by rewrite procs_upd_ne. }
  clearbody w0. unfold pipe_fds, fdalloc, set_fd, goto.
  destruct (fd_scan NOFILE 0 _ _) as [n1|] eqn:S1.
  2:{ cbn [fst]. eapply (keep_ends_held w0); [done|exact Hk|apply Hs; try done; intros p Hne; by rewrite procs_upd_ne|..]; rewrite procs_upd_eq; [|done].
      intros n. by rewrite Ho. }
  apply fd_scan_spec in S1 as (L1 & _ & N1 & _).
  rewrite procs_upd_eq; cbn [ofile ofn ctl]. destruct (fd_scan NOFILE 0 _ _) as [n2|] eqn:S2.
  2:{ cbn [fst]. eapply (keep_ends_held w0); [done|exact Hk|apply Hs; try done; intros p Hne; by rewrite !procs_upd_ne|..]; rewrite !procs_upd_eq; [|done].
      intros n. cbn [ofile]. rewrite Ho. destruct (decide (n = n1)) as [->|Hne]; [by rewrite fn_lookup_insert|by rewrite !fn_insert_ne]. }
  apply fd_scan_spec in S2 as (L2 & _ & N2 & _).
  assert (Hne : n1 ≠ n2) by (intros ->; by rewrite fn_lookup_insert in N2). rewrite fn_insert_ne in N2 by done.
  rewrite !pipe_flags_proc. destruct fault; cbn [fst]; rewrite <-!pipe_flags_proc; apply keep_pipe_flags.
  - eapply (keep_ends_held w0); [done|exact Hk|apply Hs; try done; intros p Hp; by rewrite !procs_upd_ne|..]; rewrite !procs_upd_eq; [|done].
    intros n. cbn [ofile]. rewrite Ho. destruct (decide (n = n2)) as [->|D2]; [by rewrite fn_lookup_insert|rewrite fn_insert_ne by done].
    destruct (decide (n = n1)) as [->|D1]; [by rewrite fn_lookup_insert|by rewrite !fn_insert_ne].
  - eapply (keep_ends_fds w0 _ me rf wf n1 n2); [done|exact Hk|apply Hs; try done; intros p Hp; by rewrite !procs_upd_ne|lia|lia|done| | | |];
      rewrite ?Ho, ?procs_upd_eq; try done.
Qed.

(** Both files are allocated. *)
Lemma keep_two_held me rf wf flags r w :
  inv w → ctl (procs w me) = PipeTwo rf flags → (wf < NFILE)%nat → f_count (files w wf) = 0 →
  inv (goto me (Close rf (Close wf (Run r))) (upd_file wf fresh w)) ∧
  rf ≠ wf ∧ f_count (files w rf) = 1 ∧ f_type (files w rf) = FD_NONE.
Proof.
  intros Hi E Hwf Hc. pose proof (a_range _ (i_counts _ Hi) me) as Hr. assert (Hme : (me < NPROC)%nat) by (apply (in_table w); congruence).
  assert (Hin : rf ∈ held (ctl (procs w me))) by (rewrite E; left). pose proof (ro_held _ Hr rf Hin) as Hrf.
  pose proof (c_at _ (i_points _ Hi) me) as Ha. unfold at_ok in Ha. rewrite E in Ha. destruct Ha as [Ht Hc1].
  assert (Hne : rf ≠ wf) by (intros ->; lia). split; [|done]. set (w' := goto me _ _).
  assert (Hx : procs w' me = mk_proc (ofile (procs w me)) (ofn (procs w me)) (nofile (procs w me)) (Close rf (Close wf (Run r))))
    by (unfold w', goto; by rewrite procs_upd_eq).
  assert (Hff : files w' wf = fresh (files w wf)) by (transitivity (files (upd_file wf fresh w) wf); [done|by rewrite files_upd, decide_True]).
  apply (keep_fresh w w' me wf true); rewrite ?E, ?Hx, ?Hff; try done.
  - intros g Hg. transitivity (files (upd_file wf fresh w) g); [done|by rewrite files_upd, decide_False].
  - apply (c_flock _ (i_points _ Hi)).
  - intros p Hp. unfold w', goto. by rewrite procs_upd_ne.
  - apply range_ctl; [done| |cbn; lia|done]. intros g [->|[->|?%elem_of_nil]%elem_of_cons]%elem_of_cons; done.
  - intros g. unfold refs_of. rewrite E. cbn [ofile ctl]. rewrite !close_refs. cbn [uncounted held]. rewrite held_one.
    change (held_refs g []) with 0%nat. lia.
  - unfold at_ok. by rewrite Hx.
Qed.

Lemma keep_pipe_two me rf flags fault w :
  inv w → ctl (procs w me) = PipeTwo rf flags → ∃ w' ev, pipe_two me rf flags fault w = Ok (w', ev) ∧ inv w'.
Proof.
  intros Hi E. pose proof (a_range _ (i_counts _ Hi) me) as Hr. unfold pipe_two.
  destruct (filealloc_spec w Hi) as [-> |(wf & -> & Hwf & Hc)]; cbn [bind].
  { eexists _, _. split; [done|]. apply keep_goto; rewrite ?E; try done;
      [by intros g; unfold refs_of; rewrite E|intros g ->%list_elem_of_singleton; apply (ro_held _ Hr); rewrite E; left|cbn; lia|].
    unfold at_ok, goto. by rewrite procs_upd_eq. }
  destruct (keep_two_held me rf wf flags 0 w Hi E Hwf Hc) as (Hi1 & Hne & Hc1 & Ht1). set (w1 := upd_file wf fresh w) in *.
  set (k := Close rf (Close wf (Run 0))) in *.
  assert (Hf1 : ∀ g, files (goto me k w1) g = if decide (g = wf) then fresh (files w wf) else files w g) by (intros g; exact (files_upd wf fresh w g)).
  destruct (keep_pipealloc me rf wf (Run 0) (goto me k w1) Hi1) as (w2' & Hop & Hi2 & Hp2);
    [unfold goto; by rewrite procs_upd_eq|done|rewrite Hf1, ?decide_False, ?decide_True by done; done..|].
  rewrite pipealloc_goto in Hop. apply bind_Ok in Hop as (w2 & -> & [= <-]). cbn [bind].
  destruct (pipe_fds me rf wf flags fault w2) as [w' ev] eqn:Hpf. exists w', ev. split; [done|].
  pose proof (keep_pipe_fds me rf wf flags fault 0 w2 Hi2) as Hr'. by rewrite Hpf in Hr'.
Qed.
End steps.

End FilePipe.
