(* ===== verification/FileFork.v ===== *)
(** * Open files: fork

    The child is a process that only its parent knows: the loop of [fork]
    gives it the descriptors of the parent one by one. *)

From stdpp Require Import functions.
From S2P Require Import Prelude Ring Pmem PipeDefs Pipe FifoDefs ProcDefs FileDefs FileInv File FileOps FileStep.
Import Pmem PipeDefs Pipe FileDefs FileInv File FileOps FileStep.

Module FileFork.

Section fork.
Context {St : Type} `{PageAllocatorLaws St} {Fs : Type} `{VfsLaws Fs}.
Abbreviation world := (world St Fs).
Implicit Types (w : world) (f g fd p q me np i : nat) (k : pc) (x : proc).

(** A step of one process that leaves the table of files alone and keeps its
    references. *)
Lemma keep_step_procs w w' p :
  inv w → same_but p w w' → (p < NPROC)%nat → closing (ctl (procs w p)) = None → closing (ctl (procs w' p)) = None →
  (∀ q j, ctl (procs w q) = ForkDup p j → ctl (procs w' p) = Embryo ∧ ∀ n, (j ≤ n)%nat → ofile (procs w' p) n = None) →
  range_ok (procs w' p) → (∀ f, refs_of (procs w' p) f = refs_of (procs w p) f) → at_ok (files w') (procs w') p →
  (∀ np, forking (ctl (procs w' p)) = Some np → ∀ q, q ≠ p → forking (ctl (procs w q)) ≠ Some np) → inv w'.
Proof.
  intros Hi (S1 & S2 & S3 & S4 & S5) Hp Hcl Hcl' He Hr Href Hat Hf. apply (keep_step w w' p); try done.
  - split; [done|rewrite S1; apply (a_lock _ (i_counts _ Hi))|done|done].
  - intros f. by rewrite S2.
  - intros f. by rewrite S2.
  - intros q f _ _. by rewrite S2.
  - rewrite S3. apply same_pipes_refl.
  - intros f _. unfold is_pipe. rewrite !S2. apply tr_same; [done|apply Href| |by left]. unfold closed_by. by rewrite Hcl, Hcl'.
  - intros f. unfold closed_by. by rewrite Hcl'.
Qed.

Lemma no_parent w p q j : inv w → ctl (procs w p) ≠ Embryo → ctl (procs w q) ≠ ForkDup p j.
Proof. intros Hi He E. pose proof (c_at _ (i_points _ Hi) q) as Ha. unfold at_ok in Ha. rewrite E in Ha. tauto. Qed.

Lemma no_fds_range a b k : held k = [] → closing k = None → range_ok (mk_proc (λ _, None) a b k).
Proof. intros Hh Hc. split; cbn; rewrite ?Hh, ?Hc; try done; [by intros f ?%elem_of_nil|cbn; lia]. Qed.

Lemma keep_fork me np r w :
  inv w → ctl (procs w me) = Run r → fork me np w = NoFuel ∨ ∃ w', fork me np w = Ok w' ∧ inv w'.
Proof.
  intros Hi E. unfold fork. destruct (ctl (procs w np)) eqn:En; try (by left).
  destruct (Nat.ltb_spec np NPROC) as [Hnp|]; [right|by left]. eexists. split; [done|].
  assert (Hne : np ≠ me) by (intros ->; congruence). set (w1 := upd_proc np _ w).
  assert (Hx : procs w1 np = mk_proc (λ _, None) (ofn (procs w me)) (nofile (procs w me)) Embryo) by (apply procs_upd_eq).
  assert (Hoth : ∀ p, p ≠ np → procs w1 p = procs w p) by (intros p Hp; by apply procs_upd_ne).
  assert (Hi1 : inv w1).
  { apply (keep_step_procs w w1 np); rewrite ?En, ?Hx; try done; [by apply no_fds_range| |by unfold at_ok; rewrite Hx].
    intros f. unfold refs_of. rewrite En. cbn. f_equal. apply fd_refs_ext. intros n. symmetry.
    pose proof (c_at _ (i_points _ Hi) np) as Ha. unfold at_ok in Ha. rewrite En in Ha. apply Ha. }
  assert (Eme : ctl (procs w1 me) = Run r) by (by rewrite Hoth by done).
  apply (keep_step_procs w1 _ me); rewrite ?Eme; try done; [apply same_but_procs|apply (in_table w1); congruence|..]; unfold goto; rewrite ?procs_upd_eq.
  - done.
  - intros q j Eq. exfalso. revert Eq. apply no_parent; congruence.
  - apply range_ctl; [apply (a_range _ (i_counts _ Hi1))|by intros f ?%elem_of_nil|cbn; lia|done].
  - intros f. unfold refs_of. by rewrite Eme.
  - unfold at_ok. rewrite procs_upd_eq. cbn [ctl]. rewrite procs_upd_ne by done. rewrite Hx. done.
  - cbn [forking ctl]. intros ? [= <-] q Hq Hf. destruct (decide (q = np)) as [->|Hqn]; [by rewrite Hx in Hf|]. rewrite Hoth in Hf by done.
    destruct (ctl (procs w q)) as [| | | | | | | | | |np' j| |] eqn:Eq; try done. injection Hf as ->. revert Eq. apply no_parent; congruence.
Qed.

(** The parent goes on to the next descriptor. *)
Lemma keep_fork_next me np i w : inv w → ctl (procs w me) = ForkDup np i → inv (goto me (ForkDup np (S i)) w).
Proof.
  intros Hi E. pose proof (c_at _ (i_points _ Hi) me) as Ha. unfold at_ok in Ha. rewrite E in Ha. destruct Ha as (Hne & He & Hn).
  apply keep_goto; rewrite ?E; try done; [by intros f; unfold refs_of; rewrite E|by intros f ?%elem_of_nil|cbn; lia|].
  unfold at_ok, goto. rewrite procs_upd_eq. cbn. rewrite fn_insert_ne by done. split_and!; try done. intros j Hj. apply Hn. lia.
Qed.

(** The child gets the descriptor [i]. *)
Lemma keep_child_fd me np i f w w' :
  inv w → ctl (procs w me) = ForkDup np (S i) → ofile (procs w me) i = Some f → ofile (procs w np) i = None →
  (∀ g, files w' g = if decide (g = f) then set_count (u16 (f_count (files w f) + 1)) (files w f) else files w g) →
  (∀ p, p ≠ np → procs w' p = procs w p) → (∀ n, ofile (procs w' np) n = (<[i := Some f]> (ofile (procs w np))) n) → ctl (procs w' np) = Embryo →
  ft_lock w' = ft_lock w → pipes w' = pipes w → pages w' = pages w → inv w'.
Proof.
  intros Hi E Ho Hno Hfl Hoth Ho' Hc' Hlk Hp Hpg. pose proof (c_at _ (i_points _ Hi) me) as Ha. unfold at_ok in Ha. rewrite E in Ha.
  destruct Ha as (Hne & He & Hn). assert (Hme : (me < NPROC)%nat) by (apply (in_table w); congruence).
  assert (Hnp : (np < NPROC)%nat) by (apply (in_table w); congruence).
  destruct (ro_fd _ (a_range _ (i_counts _ Hi) me) i f Ho) as [Hin Hf].
  destruct (fd_open w me i f Hi Hme Ho ltac:(by rewrite E)) as (Hcc & _ & _ & _).
  pose proof (fd_ref w me i f Hi Ho ltac:(by rewrite E)) as Hr. pose proof (refs_ge (procs w) me f Hme) as Hr2.
  assert (Hf' : files w' f = set_count (f_count (files w f) + 1) (files w f)) by (rewrite Hfl, decide_True, u16_small by (done || lia); done).
  assert (Hg : ∀ g, g ≠ f → files w' g = files w g) by (intros g ?; by rewrite Hfl, decide_False).
  assert (Hk : ∀ g, kind (files w' g) = kind (files w g)) by (intros g; destruct (decide (g = f)) as [->|]; [rewrite Hf'|rewrite Hg]; done).
  assert (Hnp_r := a_range _ (i_counts _ Hi) np).
  assert (Hcnt : ∀ g, g ≠ f → f_count (files w' g) = f_count (files w g)) by (intros g ?; by rewrite Hg).
  apply (keep_step w w' np); rewrite ?He, ?Hc'; try done.
  - split; [done|rewrite Hlk; apply (a_lock _ (i_counts _ Hi))|done|]. split; rewrite ?Hc'; [|by intros g ?%elem_of_nil|cbn; lia|done].
    intros n g. rewrite Ho'. destruct (decide (n = i)) as [->|]; [rewrite fn_lookup_insert; by intros [= <-]|rewrite fn_insert_ne by done; apply (ro_fd _ Hnp_r)].
  - intros q j Eq. split; [done|]. intros n Hj. assert (q = me) as -> by (apply (c_fork _ (i_points _ Hi) q me np); by rewrite ?Eq, ?E).
    rewrite E in Eq. injection Eq as <-. rewrite Ho', fn_insert_ne by lia. by apply Hn.
  - intros g. destruct (decide (g = f)) as [->|]; [lia|by rewrite Hcnt].
  - intros p g Hpn Hin' H1'. destruct (decide (g = f)) as [->|]; [exfalso|by rewrite Hcnt].
    assert (Hpl : (p < NPROC)%nat) by (apply (in_table w); [done|]; intros E'; rewrite E' in Hin'; by apply elem_of_nil in Hin').
    assert (Hpm : me ≠ p) by (intros <-; rewrite E in Hin'; by apply elem_of_nil in Hin').
    pose proof (refs_ge2 (procs w) me p f Hme Hpl Hpm) as Hge. pose proof (held_refs_pos f _ Hin'). unfold refs_of in Hge, Hr, Hr2.
    destruct (a_slot _ (i_counts _ Hi) f Hf) as [(? & _)|[(? & _)|(_ & _ & [?|(_ & ? & _)])]]; lia.
  - rewrite Hp. apply same_pipes_refl.
  - intros g Hgn. unfold is_pipe, closed_by. rewrite (kind_type _ _ (Hk g)), He, Hc'.
    assert (Hrg : refs_of (procs w' np) g = (refs_of (procs w np) g + if decide (f = g) then 1 else 0)%nat).
    { unfold refs_of. rewrite He, Hc'. cbn. rewrite (fd_refs_ext _ _ None g Ho').
      pose proof (fd_set (ofile (procs w np)) i (Some f) None None g Hin (or_introl eq_refl) (or_introl eq_refl)) as H1'.
      rewrite cnt_set_Some, cnt_None in H1' by done. lia. }
    rewrite Hrg. destruct (decide (f = g)) as [<-|].
    + apply tr_inc; try done; [lia|by rewrite Hf'|lia].
    + apply tr_same; [by rewrite Hcnt|lia|done|by left].
  - unfold at_ok. by rewrite Hc'.
  - intros g. unfold closed_by. by rewrite Hc'.
Qed.

(** The child keeps its descriptors, and may start. *)
Lemma keep_child_same w w' np k :
  inv w → ctl (procs w np) = Embryo → same_but np w w' → (∀ n, ofile (procs w' np) n = ofile (procs w np) n) → ctl (procs w' np) = k →
  k = Embryo ∨ (∃ r, k = Run r) ∧ (∀ p i, ctl (procs w p) ≠ ForkDup np i) → inv w'.
Proof.
  intros Hi E Hs Ho Hk Hcase. pose proof (a_range _ (i_counts _ Hi) np) as Hr.
  assert (Hkk : held k = [] ∧ closing k = None ∧ uncounted k = None ∧ forking k = None) by (destruct Hcase as [->|[[r ->] _]]; done).
  destruct Hkk as (K1 & K2 & K3 & K4). apply (keep_step_procs w w' np); rewrite ?E, ?Hk; try done.
  - apply (in_table w); congruence.
  - intros q j Eq. destruct Hcase as [->|[_ Hno]]; [|by apply Hno in Eq]. split; [done|]. intros n Hn. rewrite Ho.
    pose proof (c_at _ (i_points _ Hi) q) as Ha. unfold at_ok in Ha. rewrite Eq in Ha. by apply Ha.
  - split; rewrite ?Hk, ?K1, ?K2; [|by intros f ?%elem_of_nil|cbn; lia|done]. intros n f. rewrite Ho. apply (ro_fd _ Hr).
  - intros f. unfold refs_of. rewrite E, Hk, K1, K3. cbn [uncounted held]. by rewrite (fd_refs_ext _ _ None f Ho).
  - unfold at_ok. rewrite Hk. destruct Hcase as [->|[[r ->] _]]; done.
  - by rewrite K4.
Qed.

Lemma keep_fork_dup me np i w :
  inv w → ctl (procs w me) = ForkDup np i → ∃ w', fork_dup me np i w = Ok w' ∧ inv w'.
Proof.
  intros Hi E. pose proof (c_at _ (i_points _ Hi) me) as Ha. unfold at_ok in Ha. rewrite E in Ha. destruct Ha as (Hne & He & Hn).
  assert (Hme : (me < NPROC)%nat) by (apply (in_table w); congruence).
  assert (Hnp : (np < NPROC)%nat) by (apply (in_table w); congruence).
  pose proof (keep_fork_next me np i w Hi E) as Hi1. set (w1 := goto me (ForkDup np (S i)) w) in *.
  assert (Hx : procs w1 np = procs w np) by (unfold w1, goto; by rewrite procs_upd_ne).
  unfold fork_dup. destruct (Nat.ltb_spec i NOFILE) as [Hlt|Hge].
  - destruct (ofile (procs w me) i) as [f|] eqn:Ho.
    + destruct (fd_open w me i f Hi Hme Ho ltac:(by rewrite E)) as (Hc & _). rewrite (proj2 (Z.ltb_lt _ _)) by lia.
      rewrite filedup_eq by apply (a_lock _ (i_counts _ Hi)). rewrite (proj2 (Z.ltb_ge _ _)) by lia. cbn [bind]. eexists. split; [done|].
      eapply (keep_child_fd me np i f w1); try done.
      * unfold w1, goto. by rewrite procs_upd_eq.
      * unfold w1, goto. by rewrite procs_upd_eq.
      * rewrite Hx. by apply Hn.
      * intros g. exact (files_upd f _ w g).
      * intros p Hp. unfold w1, goto, set_fd. destruct (decide (p = me)) as [->|]; [rewrite !procs_upd_eq, procs_upd_ne by done; done|by rewrite !procs_upd_ne].
      * intros n. rewrite Hx. unfold goto. rewrite procs_upd_ne by done. unfold set_fd. by rewrite procs_upd_eq.
      * unfold goto. rewrite procs_upd_ne by done. unfold set_fd. by rewrite procs_upd_eq.
    + cbn [bind]. eexists. split; [done|]. apply (keep_child_same w1 _ np Embryo); try done; [by rewrite Hx|..].
      * split_and!; try done. intros p Hp. unfold w1, goto, set_fd.
        destruct (decide (p = me)) as [->|]; [rewrite !procs_upd_eq, procs_upd_ne by done; done|by rewrite !procs_upd_ne].
      * intros n. rewrite Hx. unfold goto. rewrite procs_upd_ne by done. unfold set_fd. rewrite procs_upd_eq. cbn [ofile].
        destruct (decide (n = i)) as [->|]; [rewrite fn_lookup_insert; symmetry; by apply Hn|by rewrite fn_insert_ne].
      * unfold goto. rewrite procs_upd_ne by done. unfold set_fd. by rewrite procs_upd_eq.
      * by left.
  - eexists. split; [done|]. set (w2 := goto me (Run (Z.of_nat np)) w).
    assert (Hi2 : inv w2) by (apply keep_goto; rewrite ?E; try done; [by intros f; unfold refs_of; rewrite E|by intros f ?%elem_of_nil|cbn; lia|];
      unfold at_ok, goto; by rewrite procs_upd_eq).
    apply (keep_child_same w2 _ np (Run 0)); try done.
    + unfold w2, goto. by rewrite procs_upd_ne.
    + split_and!; try done. intros p Hp. unfold w2, goto.
      destruct (decide (p = me)) as [->|]; [rewrite !procs_upd_eq, procs_upd_ne by done; done|by rewrite !procs_upd_ne].
    + intros n. unfold w2, goto. rewrite !(procs_upd_ne me) by done. by rewrite procs_upd_eq.
    + unfold goto. rewrite (procs_upd_ne me) by done. by rewrite procs_upd_eq.
    + right. split; [by exists 0|]. intros p j. unfold w2, goto. rewrite procs_upd. case_decide as Hp; [done|]. intros Ep.
      apply Hp, (c_fork _ (i_points _ Hi) p me np); by rewrite ?Ep, ?E.
Qed.
End fork.

End FileFork.
