(* ===== verification/FileSpec.v ===== *)
(** * Properties of open files

    For every interleaving of the processes from the state [fileinit] leaves:
    the reference counts are exact, no section panics or reads a file or a pipe
    that is gone, and a pipe reports the end of the file, or a broken pipe,
    exactly when the last descriptor of the other end is closed. *)

From stdpp Require Import functions.
From S2P Require Import Prelude Ring Pmem PipeDefs Pipe FifoDefs ProcDefs FileDefs FileInv File FileOps FileStep FilePipe FileFork.
Import Pmem PipeDefs Pipe FileDefs FileInv File FileOps FileStep FilePipe FileFork.

Module FileSpec.

Section spec.
Context {St : Type} `{PageAllocatorLaws St} {Fs : Type} `{VfsLaws Fs}.
Abbreviation world := (world St Fs).
Implicit Types (w : world) (f g p q me np i : nat) (k : pc) (x : proc).

(** ** Every section keeps the invariant *)

Definition safe (b : action) : Prop := match b with Fcntl _ c arg => fcntl_safe c arg | _ => True end.

(** Nothing happens, or the section ends in a good state. *)
Definition good (m : res (world * list report)) : Prop := m = NoFuel ∨ ∃ w' ev, m = Ok (w', ev) ∧ inv w'.

Lemma good_quiet (m : res world) : (∃ w', m = Ok w' ∧ inv w') → good (quiet m).
Proof. intros (w' & -> & Hi). right. by exists w', []. Qed.

Lemma keep_next fault dst src killed me w : inv w → good (next fault dst src killed me w).
Proof.
  intros Hi. pose proof (c_at _ (i_points _ Hi) me) as Ha. unfold at_ok in Ha.
  unfold next. destruct (ctl (procs w me)) as [| |r|f k|f ff k|f k|f o n fl|rf fl|fd f n|fd f n i|np i|fd|fd] eqn:E; try (by left).
  - right. destruct (keep_close_enter me f k w Hi E) as (o & w1 & -> & Hinv & _). cbn [bind]. destruct o; eauto.
  - right. destruct (keep_close_data me f ff k w Hi E) as (w1 & ev & -> & Hinv). cbn [bind]. eauto.
  - destruct (keep_close_end me f k w Hi E) as [-> Hinv]. right. cbn. eauto.
  - by apply good_quiet, keep_dup3_set.
  - right. by apply keep_pipe_two.
  - right. destruct Ha as [Hfd Ht]. destruct (read_segment_spec true dst killed me fd f n w Hi) as (a & d & pi & R & l & o & pi' & out & ev & _ & _ & _ & -> & Hinv);
      [rewrite E; by split_and!|done|done|]. eauto.
  - right. destruct Ha as (Hfd & Ht & H0'). destruct (write_segment_spec src (λ _, killed) me fd f n i w Hi) as (a & d & pi & R & l & o & pi' & bs & ev & _ & _ & _ & -> & Hinv);
      [rewrite E; by split_and!|done|done|done|]. eauto.
  - by apply good_quiet, keep_fork_dup.
  - by apply good_quiet, keep_exit_loop.
  - apply good_quiet. eexists. split; [done|]. by apply keep_exit_clear.
Qed.

Lemma sys_close_ok me (fd : Z) w : ∃ w', sys_close me fd w = Ok w'.
Proof. unfold sys_close. repeat case_match; eauto. Qed.

Lemma keep_call b me r w : inv w → ctl (procs w me) = Run r → safe b → good (call b me w).
Proof.
  intros Hi E Hs. destruct b; cbn [call]; try (by left).
  - apply good_quiet. by apply (keep_open me _ _ _ _ _ _ r).
  - apply good_quiet. destruct (sys_close_ok me fd w) as [w' Hw]. exists w'. split; [done|]. by apply (keep_sys_close me r fd w).
  - by apply good_quiet, (keep_sys_dup me _ r).
  - by apply good_quiet, (keep_sys_dup3 me _ _ _ r).
  - by apply good_quiet, (keep_sys_fcntl me _ _ _ r).
  - by apply good_quiet, (keep_sys_pipe2 me _ _ r).
  - by apply (keep_sys_read _ _ _ me _ _ r).
  - by apply (keep_sys_write _ _ _ me _ _ r).
  - destruct (keep_fork me np r w Hi E) as [-> |Hok]; [by left|by apply good_quiet].
  - apply good_quiet. eexists. split; [done|]. by apply (keep_exit me r).
Qed.

Lemma keep_exec b me w : inv w → safe b → good (exec me b w).
Proof.
  intros Hi Hs. assert (Hc : good (match ctl (procs w me) with Run _ => call b me w | _ => NoFuel end)).
  { destruct (ctl (procs w me)) eqn:E; try (by left). by apply (keep_call b me r). }
  destruct b; try exact Hc. by apply keep_next.
Qed.

Lemma keep_run l w w' ev : inv w → Forall (λ s, safe s.2) l → run l w = Ok (w', ev) → inv w'.
Proof.
  intros Hi Hl. revert w ev Hi. induction Hl as [|[p b] l Hb Hl IH]; intros w ev Hi; cbn; [by intros [= <- <-]|].
  intros ([w1 ev1] & Hx & ([w2 ev2] & Hr & [= <- <-])%bind_Ok)%bind_Ok.
  destruct (keep_exec b p w Hi Hb) as [Hn|(w3 & ev3 & Hok & Hi3)]; [congruence|]. rewrite Hx in Hok. injection Hok as <- <-. eauto.
Qed.

(** ** The state fileinit leaves *)

Lemma keep_fileinit (s : St) (t : Fs) fi : pa_inv s → pa_avail s (2 * NFILE) → inv (fileinit s t fi).
Proof.
  intros Hs Ha. set (w := fileinit s t fi).
  assert (Hx : ∀ p, procs w p = mk_proc (λ _, None) (Z.of_nat NOFILE) (Z.of_nat NOFILE) (if bool_decide (p = 0%nat) then Run 0 else NoProc)) by done.
  assert (Hk : ∀ p, ctl (procs w p) = Run 0 ∨ ctl (procs w p) = NoProc) by (intros p; rewrite Hx; cbn; case_match; tauto).
  assert (Hcl : ∀ p f, ¬ closed_by w p f) by (intros p f; unfold closed_by; by destruct (Hk p) as [-> | ->]).
  assert (Hf : ∀ f, files w f = zero_file) by done. assert (Hp : pipes w = ∅) by done. split; split.
  - done.
  - intros f _. left. rewrite Hf. split_and!; [done| |by intros (p & Hpc); eapply Hcl].
    apply refs_none; [done|intros p; by destruct (Hk p) as [-> | ->]..].
  - intros p q f Hpc. by apply Hcl in Hpc.
  - intros p. rewrite Hx. by case_match; apply no_fds_range.
  - intros p Hge. rewrite Hx. cbn. rewrite bool_decide_false; [done|]. unfold NPROC, ProcDefs.NPROC in Hge. lia.
  - intros f a wr (_ & _ & Ht & _). unfold is_pipe in Ht. by rewrite Hf in Ht.
  - intros f g a wr (_ & _ & Ht & _). unfold is_pipe in Ht. by rewrite Hf in Ht.
  - intros a d pi. by rewrite Hp, lookup_empty.
  - intros a d pi. by rewrite Hp, lookup_empty.
  - intros a b d pi pi'. by rewrite Hp, lookup_empty.
  - done.
  - rewrite Hp, map_size_empty. by rewrite Nat.sub_0_r.
  - intros p. unfold at_ok. destruct (Hk p) as [-> | ->]; done.
  - intros p q np. by destruct (Hk p) as [-> | ->].
  - intros f _. by rewrite Hf.
  - intros f. by rewrite Hf.
Qed.

(** The states the theorems are about. *)
Definition reachable w : Prop :=
  ∃ (s : St) (t : Fs) fi l ev, pa_inv s ∧ pa_avail s (2 * NFILE) ∧ Forall (λ b, safe b.2) l ∧ run l (fileinit s t fi) = Ok (w, ev).

Lemma reachable_inv w : reachable w → inv w.
Proof. intros (s & t & fi & l & ev & Hs & Ha & Hl & Hr). by apply (keep_run l (fileinit s t fi) w ev); [apply keep_fileinit|..]. Qed.

(** The section can run: a call from outside of the calls, or the rest of a
    call. *)
Definition enabled me (b : action) w : Prop :=
  match b, ctl (procs w me) with
  | Next _ _ _ _, (NoProc | Embryo | Run _) => False
  | Next _ _ _ _, _ => True
  | (Read fd _ _ _ _ | Write fd _ _ _ _), Run _ => ∀ f, getfd me fd w = Some f → is_pipe w f
  | Fork np, Run _ => (np < NPROC)%nat ∧ ctl (procs w np) = NoProc
  | _, Run _ => True
  | _, _ => False
  end.

Lemma quiet_fuel (m : res world) : m ≠ NoFuel → quiet m ≠ NoFuel.
Proof. by destruct m. Qed.

Lemma enabled_next fault dst src killed me w : inv w → enabled me (Next fault dst src killed) w → next fault dst src killed me w ≠ NoFuel.
Proof.
  intros Hi He. pose proof (c_at _ (i_points _ Hi) me) as Ha. unfold at_ok in Ha. unfold enabled in He.
  unfold next. destruct (ctl (procs w me)) as [| |r|f k|f ff k|f k|f o n fl|rf fl|fd f n|fd f n i|np i|fd|fd] eqn:E; try done.
  - destruct (keep_close_enter me f k w Hi E) as (o & w1 & -> & _). cbn [bind]. by destruct o.
  - by destruct (keep_close_data me f ff k w Hi E) as (w1 & ev & -> & _).
  - by destruct (keep_close_end me f k w Hi E) as [-> _].
  - by destruct (keep_dup3_set me f o n fl w Hi E) as (w' & -> & _).
  - by destruct (keep_pipe_two me rf fl fault w Hi E) as (w' & ev & -> & _).
  - destruct Ha as [Hfd Ht]. by destruct (read_segment_spec true dst killed me fd f n w Hi) as (? & ? & ? & ? & ? & ? & ? & ? & ? & _ & _ & _ & -> & _);
      [rewrite E; by split_and!|done|done|].
  - destruct Ha as (Hfd & Ht & H0'). by destruct (write_segment_spec src (λ _, killed) me fd f n i w Hi) as (? & ? & ? & ? & ? & ? & ? & ? & ? & _ & _ & _ & -> & _);
      [rewrite E; by split_and!|done|done|done|].
  - by destruct (keep_fork_dup me np i w Hi E) as (w' & -> & _).
  - by destruct (keep_exit_loop me fd w Hi E) as (w' & -> & _).
Qed.

Lemma enabled_call b me r w : inv w → safe b → ctl (procs w me) = Run r → enabled me b w → call b me w ≠ NoFuel.
Proof.
  intros Hi Hs E He. unfold enabled in He. rewrite E in He. destruct b; cbn [call]; try done.
  - by destruct (keep_open me flags mode umask st path target r w Hi E) as (w' & -> & _).
  - by destruct (sys_close_ok me fd w) as [w' ->].
  - by destruct (keep_sys_dup me fd r w Hi E) as (w' & -> & _).
  - by destruct (keep_sys_dup3 me oldfd newfd flags r w Hi E) as (w' & -> & _).
  - by destruct (keep_sys_fcntl me fd c arg r w Hi E Hs) as (w' & -> & _).
  - by destruct (keep_sys_pipe2 me flags acc r w Hi E) as (w' & -> & _).
  - unfold sys_read. destruct (getfd me fd w) as [f|] eqn:Hg; [|done]. do 3 (case_match; [done|]).
    apply getfd_Some in Hg as Hg'. destruct Hg' as [_ Hof]. unfold lock_unlock. rewrite (c_flock _ (i_points _ Hi) f). cbn [bind].
    by destruct (read_segment_spec false dst killed me (Z.to_nat fd) f n w Hi) as (? & ? & ? & ? & ? & ? & ? & ? & ? & _ & _ & _ & -> & _);
      [rewrite E; apply run_in_call|done|by apply He|].
  - unfold sys_write. case_match; [done|]. destruct (getfd me fd w) as [f|] eqn:Hg; [|done]. do 3 (case_match; [done|]).
    apply getfd_Some in Hg as Hg'. destruct Hg' as [_ Hof]. unfold lock_unlock. rewrite (c_flock _ (i_points _ Hi) f). cbn [bind].
    by destruct (write_segment_spec src killed me (Z.to_nat fd) f n 0 w Hi) as (? & ? & ? & ? & ? & ? & ? & ? & ? & _ & _ & _ & -> & _);
      [rewrite E; apply run_in_call|done|by apply He|done|].
  - destruct He as [Hnp Hno]. unfold fork. rewrite Hno. by rewrite (proj2 (Nat.ltb_lt _ _)).
Qed.

(** A section that can run does. *)
Lemma enabled_exec b me w : inv w → safe b → enabled me b w → ∃ w' ev, exec me b w = Ok (w', ev) ∧ inv w'.
Proof.
  intros Hi Hs He. destruct (keep_exec b me w Hi Hs) as [Hn|]; [exfalso|done]. revert Hn. unfold exec.
  destruct b; try (by apply enabled_next);
    (destruct (ctl (procs w me)) eqn:E; try (by unfold enabled in He; rewrite E in He); by apply (enabled_call _ me r)).
Qed.

Lemma run_snoc l w w1 ev p b w2 ev2 : run l w = Ok (w1, ev) → exec p b w1 = Ok (w2, ev2) → run (l ++ [(p, b)]) w = Ok (w2, ev ++ ev2).
Proof.
  revert w ev. induction l as [|[q c] l IH]; intros w ev; cbn.
  - intros [= <- <-] ->. cbn. by rewrite app_nil_r.
  - intros ([w3 ev3] & -> & ([w4 ev4] & Hr & [= <- <-])%bind_Ok)%bind_Ok Hx. cbn [bind]. rewrite (IH w3 ev4 Hr Hx). cbn. by rewrite app_assoc.
Qed.

Lemma reachable_exec b me w w' ev : reachable w → safe b → exec me b w = Ok (w', ev) → reachable w'.
Proof.
  intros (s & t & fi & l & ev0 & Hs & Ha & Hl & Hr) Hb Hx. exists s, t, fi, (l ++ [(me, b)]), (ev0 ++ ev).
  split_and!; try done; [|by apply (run_snoc l _ w)]. apply Forall_app. split; [done|]. by apply Forall_singleton.
Qed.



End spec.

End FileSpec.
