(* ===== verification/FileCalls.v ===== *)
(** * Open files: what the calls do

    [exit] closes every descriptor in a bounded number of sections; [dup]
    takes the lowest free descriptor; a read or a write on a pipe sees whether
    the other end is open in any process. *)

From stdpp Require Import functions.
From S2P Require Import Prelude Ring Pmem PipeDefs Pipe FifoDefs ProcDefs FileDefs FileInv File FileOps FileStep FilePipe FileFork FileSpec.
Import Pmem PipeDefs Pipe FileDefs FileInv File FileOps FileStep FilePipe FileFork FileSpec.

Module FileCalls.

Section calls.
Context {St : Type} `{PageAllocatorLaws St} {Fs : Type} `{VfsLaws Fs}.
Abbreviation world := (world St Fs).
Implicit Types (w : world) (f g p q me np i : nat) (k : pc) (x : proc).

(** ** Descriptors *)

Lemma fd_scan_none n fd lim (of_ : nat → option nat) i :
  fd_scan n fd lim of_ = None → (fd ≤ i < fd + n)%nat → Z.of_nat i < lim → of_ i ≠ None.
Proof.
  revert fd. induction n as [|n IH]; intros fd Hs Hlt Hlim; [lia|]. cbn in Hs.
  rewrite (proj2 (Z.ltb_lt _ _)) in Hs by lia. destruct (of_ fd) eqn:E; [|done].
  destruct (decide (i = fd)) as [->|]; [congruence|]. apply (IH (S fd)); [done|lia|done].
Qed.

(** ** exit *)

(** The sections [exit] has left. *)
Definition exit_left (k : pc) : nat :=
  match k with
  | ExitLoop fd => 5 * (NOFILE - fd) + 1
  | Close _ (ExitClear fd) => 5 * (NOFILE - fd)
  | CloseData _ _ (ExitClear fd) => 5 * (NOFILE - fd) - 1
  | CloseEnd _ (ExitClear fd) => 5 * (NOFILE - fd) - 2
  | ExitClear fd => 5 * (NOFILE - fd) - 3
  | _ => 0
  end.
Definition in_exit (k : pc) : bool :=
  match k with
  | ExitLoop _ | ExitClear _ | Close _ (ExitClear _) | CloseData _ _ (ExitClear _) | CloseEnd _ (ExitClear _) => true
  | _ => false
  end.

(** The file has a reference, or the process is closing it, or it is free. *)
Definition tracked me f w : Prop := (0 < refs (procs w) f)%nat ∨ closed_by w me f ∨ f_count (files w f) = 0.

(** One section of [exit] of [me]. *)
Record exit_step me w w' : Prop := {
  e_inv : inv w';
  e_oth : ∀ q, q ≠ me → procs w' q = procs w q;
  e_left : (ctl (procs w' me) = NoProc ∧ (0 < exit_left (ctl (procs w me)))%nat) ∨
    (in_exit (ctl (procs w' me)) = true ∧ (exit_left (ctl (procs w' me)) < exit_left (ctl (procs w me)))%nat);
  e_track : ∀ f, (f < NFILE)%nat → tracked me f w → tracked me f w'
}.

Lemma same_refs me w w' f :
  (me < NPROC)%nat → (∀ q, q ≠ me → procs w' q = procs w q) → refs_of (procs w' me) f = refs_of (procs w me) f →
  refs (procs w') f = refs (procs w) f.
Proof. intros Hme Ho Hr. pose proof (refs_change (procs w) (procs w') me f Hme Ho). lia. Qed.

(** Only the process changes, and no file. *)
Lemma track_procs me f w w' :
  (me < NPROC)%nat → (∀ q, q ≠ me → procs w' q = procs w q) → refs_of (procs w' me) f = refs_of (procs w me) f →
  (closed_by w me f → closed_by w' me f) → f_count (files w' f) = f_count (files w f) → tracked me f w → tracked me f w'.
Proof. intros Hme Ho Hr Hc Hf. unfold tracked. rewrite (same_refs me w w' f), Hf by done. tauto. Qed.

Lemma goto_oth me k w q : q ≠ me → procs (goto me k w) q = procs w q.
Proof. apply procs_upd_ne. Qed.
Lemma goto_ctl me k w : ctl (procs (goto me k w) me) = k.
Proof. unfold goto. by rewrite procs_upd_eq. Qed.
Lemma goto_ofile me k w : ofile (procs (goto me k w) me) = ofile (procs w me).
Proof. unfold goto. by rewrite procs_upd_eq. Qed.

Lemma exit_close me f fd w :
  inv w → ctl (procs w me) = Close f (ExitClear fd) →
  ∃ o w1, fileclose_enter f w = Ok (o, w1) ∧
    exit_step me w (goto me (match o with None => ExitClear fd | Some ff => CloseData f ff (ExitClear fd) end) w1).
Proof.
  intros Hi E. destruct (keep_close_enter me f (ExitClear fd) w Hi E) as (o & w1 & Hop & Hinv & Hcase). exists o, w1. split; [done|].
  assert (Hme : (me < NPROC)%nat) by (apply (in_table w); congruence). pose proof (a_range _ (i_counts _ Hi) me) as Hr.
  assert (Hf : (f < NFILE)%nat) by (apply (ro_held _ Hr); rewrite E; left).
  assert (Hrf : (1 ≤ refs_of (procs w me) f)%nat) by (unfold refs_of; rewrite E, close_refs, decide_True by done; lia).
  destruct (ref_open w me f Hi Hme Hrf Hf) as (Hcr & Hc & Hn). pose proof (c_at _ (i_points _ Hi) me) as Ha. unfold at_ok in Ha. rewrite E in Ha.
  destruct Ha as [Hlt _].
  destruct (fileclose_enter_spec f w (a_lock _ (i_counts _ Hi)) Hc (c_flock _ (i_points _ Hi) f)) as [Hmore Hlast].
  assert (Hps : procs w1 = procs w ∧ (∀ g, g ≠ f → files w1 g = files w g)).
  { destruct Hcase as [[-> H1']|[-> H1']].
    - rewrite Hmore in Hop by done. injection Hop as <-. split; [done|]. intros g Hg. by rewrite files_upd, decide_False.
    - destruct (Hlast H1') as (w2 & Hop2 & Hfl & _ & _ & _ & Hp). rewrite Hop in Hop2. injection Hop2 as <-. split; [done|].
      intros g Hg. by rewrite Hfl, decide_False. }
  destruct Hps as [Hps Hfs]. set (k' := match o with None => _ | Some ff => _ end) in *.
  assert (Hoth : ∀ q, q ≠ me → procs (goto me k' w1) q = procs w q) by (intros q Hq; rewrite goto_oth by done; by rewrite Hps).
  assert (Hrefs : ∀ g, (refs_of (procs (goto me k' w1) me) g + (if decide (f = g) then 1 else 0) = refs_of (procs w me) g)%nat).
  { intros g. unfold refs_of. rewrite E, close_refs, goto_ctl, goto_ofile, Hps. subst k'. destruct o; cbn [uncounted held]; lia. }
  split; [done|done| |].
  - right. rewrite goto_ctl, E. subst k'. destruct o; cbn [in_exit exit_left]; (split; [done|lia]).
  - intros g Hg Ht. destruct (decide (g = f)) as [->|Hne].
    + destruct Hcase as [[-> H1']|[-> H1']]; [left|right; left; unfold closed_by; by rewrite goto_ctl].
      pose proof (refs_change (procs w) (procs (goto me k' w1)) me f Hme Hoth) as Hch. specialize (Hrefs f). rewrite decide_True in Hrefs by done. lia.
    + apply (track_procs me g w); try done; [specialize (Hrefs g); rewrite decide_False in Hrefs by done; lia| |].
      * unfold closed_by. by rewrite E.
      * change (files (goto me k' w1)) with (files w1). by rewrite Hfs.
Qed.

Lemma close_data_keeps ff w w1 ev : fileclose_data ff w = Ok (w1, ev) → files w1 = files w ∧ procs w1 = procs w.
Proof.
  unfold fileclose_data. destruct (f_type ff); repeat case_match; try done; try (by intros [= <- <-]).
  - intros ([d pi] & _ & ([[o s] ev'] & _ & [= <- <-])%bind_Ok)%bind_Ok. done.
  - intros ([t r] & _ & [= <- <-])%bind_Ok. done.
Qed.

Lemma exit_close_refs me fd f g w :
  inv w → ctl (procs w me) = ExitLoop fd → (fd < NOFILE)%nat → ofile (procs w me) fd = Some f →
  refs_of (procs (goto me (Close f (ExitClear fd)) w) me) g = refs_of (procs w me) g.
Proof.
  intros Hi E Hlt Ho. unfold refs_of. rewrite E, goto_ctl, goto_ofile, close_refs. cbn [uncounted held].
  pose proof (fd_refs_change (ofile (procs w me)) (ofile (procs w me)) None (Some fd) fd g Hlt) as Hc.
  rewrite cnt_uncounted, (cnt_Some _ None g f fd Ho) in Hc by done.
  specialize (Hc ltac:(done) ltac:(by left) ltac:(by right)). lia.
Qed.

Lemma exit_step_ok fault dst src killed me w :
  inv w → in_exit (ctl (procs w me)) = true →
  ∃ w' ev, next fault dst src killed me w = Ok (w', ev) ∧ exit_step me w w'.
Proof.
  intros Hi Hx. assert (Hme : (me < NPROC)%nat) by (apply (in_table w); [done|]; intros E; by rewrite E in Hx).
  pose proof (c_at _ (i_points _ Hi) me) as Ha. unfold at_ok in Ha. unfold next.
  destruct (ctl (procs w me)) as [| | |f k|f ff k|f k| | | | | |fd|fd] eqn:E; try done.
  - destruct k; try done. destruct (exit_close me f fd w Hi E) as (o & w1 & -> & Hs). cbn [bind]. destruct o; eauto.
  - destruct k; try done. destruct (keep_close_data me f ff (ExitClear fd) w Hi E) as (w1 & ev & Hop & Hinv).
    rewrite Hop. cbn [bind]. eexists _, _. split; [done|]. destruct (close_data_keeps _ _ _ _ Hop) as [Hfs Hps].
    destruct Ha as [_ [Hlt _]]. split; [done|intros q Hq; rewrite goto_oth by done; by rewrite Hps|right; rewrite goto_ctl, E; cbn [in_exit exit_left]; split; [done|lia]|].
    intros g Hg. apply track_procs; [done|intros q Hq; rewrite goto_oth by done; by rewrite Hps| |unfold closed_by; by rewrite goto_ctl, E|].
    + unfold refs_of. by rewrite E, goto_ctl, goto_ofile, Hps.
    + change (files (goto me (CloseEnd f (ExitClear fd)) w1)) with (files w1). by rewrite Hfs.
  - destruct k; try done. destruct (keep_close_end me f (ExitClear fd) w Hi E) as [-> Hinv]. cbn [quiet bind]. eexists _, _. split; [done|].
    destruct Ha as [Hlt _]. split; [done|intros q Hq; by rewrite goto_oth|right; rewrite goto_ctl, E; cbn [in_exit exit_left]; split; [done|lia]|].
    intros g Hg Ht. destruct (decide (g = f)) as [->|Hne].
    + right. right. transitivity (f_count (files (upd_file f reset_file w) f)); [done|]. by rewrite files_upd, decide_True.
    + revert Ht. apply track_procs; [done|intros q Hq; by rewrite goto_oth| |unfold closed_by; rewrite E; cbn; by intros [= ->]|].
      * unfold refs_of. by rewrite E, goto_ctl, goto_ofile.
      * transitivity (f_count (files (upd_file f reset_file w) g)); [done|]. by rewrite files_upd, decide_False.
  - destruct (keep_exit_loop me fd w Hi E) as (w' & Hop & Hinv). rewrite Hop. cbn [quiet bind]. exists w', []. split; [done|]. revert Hop. unfold exit_loop.
    destruct (Nat.ltb_spec fd NOFILE) as [Hlt|Hge]; [destruct (ofile (procs w me) fd) as [f|] eqn:Ho|]; intros [= <-].
    all: split; [done|intros q Hq; by rewrite goto_oth| |intros g Hg; apply track_procs; try done; [intros q Hq; by rewrite goto_oth| |unfold closed_by; by rewrite E]].
    all: rewrite ?goto_ctl, ?E; cbn [in_exit exit_left]; try (right; split; [done|lia]).
    + apply (exit_close_refs me fd f g w Hi E Hlt Ho).
    + unfold refs_of. by rewrite E, goto_ctl, goto_ofile.
    + left. split; [done|lia].
    + unfold refs_of. by rewrite E, goto_ctl, goto_ofile.
  - pose proof (keep_exit_clear me fd w Hi E) as Hinv. cbn [quiet bind]. eexists _, _. split; [done|]. destruct Ha as [Hlt _].
    assert (Hoth : ∀ q, q ≠ me → procs (goto me (ExitLoop (S fd)) (set_fd me fd None w)) q = procs w q)
      by (intros q Hq; rewrite goto_oth by done; unfold set_fd; by rewrite procs_upd_ne).
    split; [done|done|right; rewrite goto_ctl, E; cbn [in_exit exit_left]; split; [done|lia]|].
    intros g Hg. apply track_procs; try done; [|unfold closed_by; by rewrite E].
    unfold refs_of. rewrite E, goto_ctl, goto_ofile. unfold set_fd. rewrite procs_upd_eq. cbn [ofile uncounted held].
    pose proof (fd_set (ofile (procs w me)) fd None (Some fd) None g Hlt (or_intror eq_refl) (or_introl eq_refl)) as Hc.
    rewrite cnt_set_None, cnt_uncounted in Hc. lia.
Qed.

(** The sections of [exit], without those of others. *)
Lemma exit_run fault dst src killed me w :
  inv w → in_exit (ctl (procs w me)) = true →
  ∃ n w' ev, (n ≤ exit_left (ctl (procs w me)))%nat ∧ run (replicate n (me, Next fault dst src killed)) w = Ok (w', ev) ∧ inv w' ∧
    ctl (procs w' me) = NoProc ∧ (∀ q, q ≠ me → procs w' q = procs w q) ∧ (∀ f, (f < NFILE)%nat → tracked me f w → tracked me f w').
Proof.
  remember (exit_left (ctl (procs w me))) as m eqn:Hm. revert w Hm. induction (lt_wf m) as [m _ IH]. intros w Hm Hi Hx.
  destruct (exit_step_ok fault dst src killed me w Hi Hx) as (w1 & ev1 & Hop & [S1 S2 S3 S4]).
  destruct S3 as [[Hno Hpos]|[Hin Hlt]].
  - exists 1%nat, w1, (ev1 ++ []). split_and!; try done; [lia|cbn; by rewrite Hop].
  - destruct (IH (exit_left (ctl (procs w1 me))) ltac:(lia) w1 eq_refl S1 Hin) as (n & w' & ev & Hn & Hr & Hi' & Hc & Ho & Ht).
    exists (S n), w', (ev1 ++ ev). split_and!; try done; [lia|cbn; rewrite Hop; cbn [bind]; by rewrite Hr| |].
    + intros q Hq. rewrite Ho by done. by apply S2.
    + intros f Hf Htr. auto.
Qed.


(** ** dup *)

(** [dup] returns the lowest free descriptor below the limit of the
    process, which then names the same file, whose count goes up by one;
    every other descriptor, file and process is as before.  Without a free
    descriptor below the limit it returns -EMFILE, for a descriptor that is
    not open -EBADF, and changes nothing. *)
Theorem dup_correct me fd r w :
  reachable w → ctl (procs w me) = Run r →
  match getfd me fd w with
  | Some f =>
      if nofile (procs w me) <=? fd then sys_dup me fd w = Ok (goto me (Run (- EBADF)) w)
      else
        (∃ n w', (n < NOFILE)%nat ∧ Z.of_nat n < ofn (procs w me) ∧ ofile (procs w me) n = None ∧
           (∀ i, (i < n)%nat → ofile (procs w me) i ≠ None) ∧
           sys_dup me fd w = Ok w' ∧ ctl (procs w' me) = Run (Z.of_nat n) ∧
           ofile (procs w' me) = <[n := Some f]> (ofile (procs w me)) ∧ (∀ q, q ≠ me → procs w' q = procs w q) ∧
           files w' f = set_count (f_count (files w f) + 1) (files w f) ∧ (∀ g, g ≠ f → files w' g = files w g)) ∨
        ((∀ i, (i < NOFILE)%nat → Z.of_nat i < ofn (procs w me) → ofile (procs w me) i ≠ None) ∧
           sys_dup me fd w = Ok (goto me (Run (- EMFILE)) w))
  | None => sys_dup me fd w = Ok (goto me (Run (- EBADF)) w)
  end.
Proof.
  intros Hi%reachable_inv E. assert (Hme : (me < NPROC)%nat) by (apply (in_table w); congruence). unfold sys_dup.
  destruct (getfd me fd w) as [f|] eqn:Hg; [|done]. apply getfd_Some in Hg as [_ Hof]. case_match eqn:Hlim; [done|]. unfold fdalloc.
  destruct (fd_scan NOFILE 0 _ _) as [n|] eqn:Hs; [left|right; split; [|done]].
  - apply fd_scan_spec in Hs as (Hn & Hlt & Hno & Hall). pose proof (fd_ref w me (Z.to_nat fd) f Hi Hof ltac:(by rewrite E)) as Hr.
    pose proof (ro_fd _ (a_range _ (i_counts _ Hi) me) _ f Hof) as [_ Hf].
    destruct (ref_open w me f Hi Hme Hr Hf) as (_ & Hc & _).
    destruct (dup_to me n f w Hi Hme Hr Hf) as (w1 & -> & F1 & F2 & F3 & F4 & F5 & F6). cbn [bind]. eexists n, _.
    split; [lia|]. split; [done|]. split; [done|]. split; [intros i Hlt'; apply Hall; lia|]. split; [reflexivity|].
    rewrite goto_ctl, goto_ofile. set (w2 := upd_file f _ w1).
    assert (Hg : ∀ g, files (goto me (Run (Z.of_nat n)) w2) g = if decide (g = f) then set_count (f_count (files w f) + 1) (files w f) else files w g).
    { intros g. change (files (goto me (Run (Z.of_nat n)) w2)) with (files w2). unfold w2. rewrite files_upd, !F1.
      case_decide; [|done]. subst. rewrite decide_True, u16_small by (done || lia). done. }
    split_and!; try done.
    + change (procs w2 me) with (procs w1 me). by rewrite F2.
    + intros q Hq. rewrite goto_oth by done. by apply F3.
    + by rewrite Hg, decide_True.
    + intros g Hne. by rewrite Hg, decide_False.
  - intros i Hi' Hlt. by apply (fd_scan_none NOFILE 0 (ofn (procs w me))); [|lia|].
Qed.

(** ** Reading and writing *)

Lemma end_flag w a d pi wr : inv w → pipes w !! a = Some (d, pi) → open_flag wr pi = 0 ∧ (¬ ∃ f, end_of w f a wr) ∨ open_flag wr pi = 1 ∧ ∃ f, end_of w f a wr.
Proof.
  intros Hi Ha. destruct (proj2 (proj2 (b_pipe _ (i_chans _ Hi) a d pi Ha)) wr) as [Hz|[H1' Hex]]; [left|by right].
  split; [done|]. intros (f & Hf). destruct (b_end _ (i_chans _ Hi) f a wr Hf) as (d' & pi' & Ha' & ?). rewrite Ha in Ha'. injection Ha' as <- <-. lia.
Qed.

Lemma pipe_of_data f w a d pi : pipe_of f w = Ok (a, d, pi) → f_data (files w f) = Pipe a ∧ pipes w !! a = Some (d, pi).
Proof.
  unfold pipe_of. destruct (f_type (files w f)); try done. destruct (f_data (files w f)); try done.
  intros ([d' pi'] & Hp & [= <- <- <-])%bind_Ok. destruct (pipes w !! a0) as [[? ?]|]; [|done]. by injection Hp as <- <-.
Qed.

(** The loop of [pipewrite] when no reader is left. *)
Lemma write_broken src killed nonblock n pi :
  p_lock pi = false → readopen pi = 0 → 0 < n → pipewrite_from BUFPAGE src killed nonblock n 0 pi = Ok (Ret (- EPIPE), with_lock (with_lock pi true) false, [SigPipe]).
Proof.
  intros Hl Hr Hn. unfold pipewrite_from. rewrite acquire_ok by done. cbn [bind]. rewrite Nat.add_1_r. cbn [pipewrite_loop].
  rewrite (proj2 (Z.ltb_lt _ _)) by lia. change (readopen (with_lock pi true)) with (readopen pi). rewrite Hr. cbn [orb Z.eqb].
  by rewrite release_ok.
Qed.

(** C21. A read from an empty pipe returns 0, the end of the file, exactly when
    no process has the end for writing open any more; while one has, it
    returns -EAGAIN for a non-blocking descriptor and sleeps otherwise (-1
    when the process is killed).  From a pipe that is not empty it delivers
    the first bytes of what the pipe holds, in order.  A write returns -EPIPE,
    with the signal SIGPIPE, when no process has the end for reading open any
    more, and only then (or when the process is killed). *)
Theorem pipe_end_of_file dst killed src killed' n me fd f r w :
  reachable w → ctl (procs w me) = Run r → getfd me fd w = Some f → is_pipe w f → has (f_flags (files w f)) O_PATH = false →
  ∃ a d pi R (l : list Z), f_data (files w f) = Pipe a ∧ pipes w !! a = Some (d, pi) ∧ holds BUFPAGE pi R l ∧
    (filereadable (files w f) = true → ∃ w' ev, sys_read dst killed true me fd n w = Ok (w', ev) ∧
       (l = [] → (¬ ∃ g, end_of w g a true) → ctl (procs w' me) = Run 0) ∧
       (l = [] → (∃ g, end_of w g a true) →
          ctl (procs w' me) = if killed then Run (-1) else if has (f_flags (files w f)) O_NONBLOCK then Run (- EAGAIN) else Reading (Z.to_nat fd) f n) ∧
       (l ≠ [] → ∃ out lost rest pi', l = out ++ lost ++ rest ∧ Got out ∈ ev ∧ ctl (procs w' me) = Run (Z.of_nat (length out)) ∧
          pipes w' !! a = Some (d, pi') ∧ holds BUFPAGE pi' (R + Z.of_nat (length (out ++ lost))) rest ∧
          (lost = [] ∨ dst (Z.of_nat (length out)) = false) ∧ (lost = [] → Z.of_nat (length out) < n → rest = []))) ∧
    (filewriteable (files w f) = true → ∃ w' ev, sys_write src killed' true me fd n w = Ok (w', ev) ∧
       (0 < n → (¬ ∃ g, end_of w g a false) → ctl (procs w' me) = Run (- EPIPE) ∧ OfPipe a SigPipe ∈ ev) ∧
       ((∃ g, end_of w g a false) → (∀ j, killed' j = false) → ctl (procs w' me) ≠ Run (- EPIPE))).
Proof.
  intros Hi%reachable_inv E Hg Ht Hpath. pose proof (getfd_Some _ _ _ _ Hg) as [Hfd Hof].
  destruct (read_segment_spec false dst killed me (Z.to_nat fd) f n w Hi) as (a & d & pi & R & l & o & pi' & out & ev & Hpo & Hh & Hdone & Hseg & _);
    [rewrite E; apply run_in_call|done|done|].
  destruct (write_segment_spec src killed' me (Z.to_nat fd) f n 0 w Hi) as (a' & d' & pi1 & R' & l' & o' & pi2 & bs & ev' & Hpo' & Hh' & Hw & Hseg' & _);
    [rewrite E; apply run_in_call|done|done|done|].
  rewrite Hpo in Hpo'. injection Hpo' as <- <- <-. destruct (pipe_of_data f w a d pi Hpo) as [Hd Ha].
  exists a, d, pi, R, l. split_and!; try done.
  - intros Hrd. unfold sys_read. rewrite Hg, Hpath, Hrd. cbn [negb]. unfold lock_unlock. rewrite (c_flock _ (i_points _ Hi) f). cbn [bind].
    rewrite Hseg. eexists _, _. split; [done|]. rewrite goto_ctl. destruct Hdone as (_ & Hne & He). split_and!.
    + intros Hq Hno. destruct (He Hq) as (_ & _ & _ & ->). destruct (end_flag w a d pi true Hi Ha) as [[Hz _]|[_ ?]]; [|done]. change (open_flag true pi) with (writeopen pi) in Hz. by rewrite Hz.
    + intros Hq Hex. destruct (He Hq) as (_ & _ & _ & ->). destruct (end_flag w a d pi true Hi Ha) as [[_ ?]|[H1' _]]; [done|].
      change (open_flag true pi) with (writeopen pi) in H1'. rewrite H1'. cbn [Z.eqb]. destruct killed; [done|]. by destruct (has (f_flags (files w f)) O_NONBLOCK).
    + intros Hq. destruct (Hne Hq) as (-> & _ & lost & [(rest & Eq & Hrest & Hend) Hlost _ _ _ _ _ _]). exists out, lost, rest, pi'. split_and!; try done.
      * apply elem_of_app. right. by left.
      * change (pipes (goto me (Run (Z.of_nat (length out))) (with_pipes (<[a:=(d, pi')]> (pipes w)) w)) !! a) with ((<[a:=(d, pi')]> (pipes w)) !! a). apply lookup_insert_eq.
      * destruct Hlost as [?|[_ ?]]; [by left|by right].
      * intros Hl0 Hlt. apply Hend; [done|lia].
  - intros Hwr. unfold sys_write. destruct (orb _ _) eqn:Hb; [exfalso; lia|]. rewrite Hg, Hpath, Hwr. cbn [negb]. unfold lock_unlock. rewrite (c_flock _ (i_points _ Hi) f). cbn [bind].
    rewrite Hseg'. eexists _, _. split; [done|]. rewrite goto_ctl. split.
    + intros Hn Hno. destruct (end_flag w a d pi false Hi Ha) as [[Hz _]|[_ ?]]; [|done].
      pose proof (proj1 (proj1 (b_pipe _ (i_chans _ Hi) a d pi Ha))) as Hl. revert Hseg'. unfold write_segment. rewrite Hpo. cbn [bind].
      rewrite write_broken by done. cbn [bind]. unfold lock_unlock. change (files (with_pipes _ w)) with (files w). rewrite (c_flock _ (i_points _ Hi) f). cbn [bind].
      intros [Heq <-]%Ok_pair_inj. split; [|by left]. apply (f_equal (λ v, ctl (procs v me))) in Heq. by rewrite !goto_ctl in Heq.
    + intros Hex Hk. destruct (end_flag w a d pi false Hi Ha) as [[_ ?]|[H1' _]]; [done|]. change (open_flag false pi) with (readopen pi) in H1'.
      pose proof (w_end _ _ _ _ _ _ _ _ _ _ _ _ _ Hw) as Hend. rewrite H1' in Hend. unfold EPIPE, EAGAIN in *.
      destruct Hend as [Hj|Hj Hf Hs|Hj [Hk'|Hk']|Hj Hf Hnb|Hj Hf Hnb]; try lia; try (intros [= ?]; lia).
      * by rewrite Hk in Hk'.
      * intros [= Hr']. revert Hr'. unfold EAGAIN. destruct (_ =? 0); lia.
Qed.

(** ** poll *)

Lemma has_lor r b m : has (Z.lor r b) m = has r m || has b m.
Proof. unfold has, truthy. rewrite Z.land_lor_distr_l. destruct (Z.eqb_spec (Z.land r m) 0) as [->|Hr]; [done|]. cbn.
  destruct (Z.eqb_spec (Z.lor (Z.land r m) (Z.land b m)) 0) as [Hz|]; [|done]. by apply Z.lor_eq_0_iff in Hz as [? _]. Qed.

(** [poll] reports a pipe as readable exactly when a read would not sleep (on
    a descriptor of a process that is not killed, in blocking mode), and never
    reports a hang-up to the reading end: [O_RDONLY] is 0. *)
Theorem filepoll_correct dst n (x' : file) events pi R l :
  holds BUFPAGE pi R l → p_lock pi = false → has events POLLIN = true →
  (has (filepoll x' pi events) POLLIN = true ↔
     ∀ o pi' out ev, piperead dst false false n pi = Ok (o, pi', out, ev) → ∃ r, o = Ret r) ∧
  (has (f_flags x') O_WRONLY = false → has (filepoll x' pi events) POLLHUP = false).
Proof.
  intros Hh Hl He. destruct (piperead_spec BUFPAGE dst false false n pi R l Hh Hl) as (o & pi' & out & ev & Hop & _ & _ & Hne & Hem).
  assert (Hin : has (filepoll x' pi events) POLLIN = negb (nread pi =? nwrite pi) || (writeopen pi =? 0)).
  { unfold filepoll. rewrite He. cbn [andb]. set (g := negb _ || _). repeat (case_match; rewrite ?has_lor); by destruct g. }
  assert (Hempty : (nread pi =? nwrite pi) = bool_decide (l = [])) by (apply (Ring.ring_empty _ _ _ _ R l (proj1 Hh))). split.
  - rewrite Hin, Hempty. split.
    + intros Hb o' p' out' ev'. rewrite Hop. intros [= <- _ _ _]. case_bool_decide as Hq; cbn in Hb.
      * destruct (Hem Hq) as (_ & _ & _ & ->). rewrite Hb. eauto.
      * destruct (Hne Hq) as (-> & _). eauto.
    + intros Hall. destruct (Hall _ _ _ _ Hop) as [r ->]. case_bool_decide as Hq; [|done]. destruct (Hem Hq) as (_ & _ & _ & Ho). cbn.
      by destruct (writeopen pi =? 0).
  - intros Hw. unfold filepoll. rewrite Hw, andb_false_r. change (has (f_flags x') O_RDONLY) with (truthy (Z.land (f_flags x') 0)).
    rewrite Z.land_0_r, andb_false_r. by repeat (case_match; rewrite ?has_lor).
Qed.
End calls.

End FileCalls.
