(* ===== verification/FileStream.v ===== *)
(** * Open files: pipe2, write, read

    What is written to the one descriptor of a new pipe can be read from the
    other. *)

From stdpp Require Import functions.
From S2P Require Import Prelude Ring Pmem PipeDefs Pipe FifoDefs ProcDefs FileDefs FileInv File FileOps FileStep FilePipe FileFork FileSpec FileCalls.
Import Pmem PipeDefs Pipe FileDefs FileInv File FileOps FileStep FilePipe FileFork FileSpec FileCalls.

Module FileStream.

Section stream.
Context {St : Type} `{PageAllocatorLaws St} {Fs : Type} `{VfsLaws Fs}.
Abbreviation world := (world St Fs).
Implicit Types (w : world) (f g p q me np i : nat) (k : pc) (x : proc).

(** ** A new pipe *)

Lemma find_free_none n i (fl : nat → file) j : find_free n i fl = None → (i ≤ j < i + n)%nat → f_count (fl j) ≠ 0.
Proof.
  revert i. induction n as [|n IH]; intros i; cbn; [lia|]. destruct (Z.eqb_spec (f_count (fl i)) 0); [done|].
  intros Hs Hj. destruct (decide (j = i)) as [->|]; [done|]. apply (IH (S i)); [done|lia].
Qed.

Lemma filealloc_some w f : inv w → (f < NFILE)%nat → f_count (files w f) = 0 →
  ∃ g, filealloc w = Ok (Some g, upd_file g fresh w) ∧ (g < NFILE)%nat ∧ f_count (files w g) = 0.
Proof.
  intros Hi Hf Hc. rewrite filealloc_eq by apply (a_lock _ (i_counts _ Hi)). destruct (find_free NFILE 0 (files w)) as [g|] eqn:Hs.
  - apply find_free_spec in Hs as [? ?]. exists g. split_and!; [done|lia|done].
  - destruct (find_free_none _ _ _ f Hs); [lia|done].
Qed.

(** [f] is an end of the pipe [a], as [pipe2] has made it. *)
Record new_end w f (a mode : Z) : Prop := {
  n_type : f_type (files w f) = FD_PIPE;
  n_data : f_data (files w f) = Pipe a;
  n_flags : f_flags (files w f) = mode ∨ f_flags (files w f) = Z.lor mode O_NONBLOCK
}.

(** The two files after [pipealloc] and the flags. *)
Lemma pipe_flags_ends flags rf wf a w :
  rf ≠ wf → files w rf = pipe_end O_RDONLY a (files w rf) → files w wf = pipe_end O_WRONLY a (files w wf) →
  new_end (pipe_flags flags rf wf w) rf a O_RDONLY ∧ new_end (pipe_flags flags rf wf w) wf a O_WRONLY.
Proof.
  intros Hne Hr Hw. unfold pipe_flags. cbv zeta.
  set (w1 := if has flags O_CLOEXEC then _ else w).
  assert (H1' : ∀ g, f_type (files w1 g) = f_type (files w g) ∧ f_data (files w1 g) = f_data (files w g) ∧ f_flags (files w1 g) = f_flags (files w g)).
  { intros g. unfold w1. destruct (has flags O_CLOEXEC); [|done]. rewrite !files_upd. repeat case_decide; by subst. }
  clearbody w1. destruct (H1' rf) as (R1 & R2 & R3), (H1' wf) as (W1 & W2 & W3). rewrite Hr in R1, R2, R3. rewrite Hw in W1, W2, W3. cbn in R1, R2, R3, W1, W2, W3.
  destruct (has flags O_NONBLOCK); [|split; split; rewrite ?R1, ?R2, ?R3, ?W1, ?W2, ?W3; auto].
  split; split; rewrite !files_upd; rewrite ?(decide_True (P := wf = wf)), ?(decide_True (P := rf = rf)), ?(decide_False (P := rf = wf)), ?(decide_False (P := wf = rf)) by done;
    cbn; rewrite ?R1, ?R2, ?R3, ?W1, ?W2, ?W3; auto.
Qed.

(** The descriptors of [pipe2], when two are free. *)
Lemma pipe_fds_some me rf wf flags i j w :
  i ≠ j → (i < NOFILE)%nat → (j < NOFILE)%nat → Z.of_nat i < ofn (procs w me) → Z.of_nat j < ofn (procs w me) →
  ofile (procs w me) i = None → ofile (procs w me) j = None →
  ∃ n1 n2 w', pipe_fds me rf wf flags false w = (w', [Stored (Z.of_nat n1) (Z.of_nat n2)]) ∧ n1 ≠ n2 ∧ (n1 < NOFILE)%nat ∧ (n2 < NOFILE)%nat ∧
    ofile (procs w' me) n1 = Some rf ∧ ofile (procs w' me) n2 = Some wf ∧ ctl (procs w' me) = Run 0 ∧
    files w' = files (pipe_flags flags rf wf w) ∧ pipes w' = pipes w.
Proof.
  intros Hij Hi Hj Li Lj Oi Oj. unfold pipe_fds, fdalloc, set_fd.
  destruct (fd_scan NOFILE 0 _ _) as [n1|] eqn:S1; [|by destruct (fd_scan_none _ _ _ _ i S1 ltac:(lia) Li)].
  apply fd_scan_spec in S1 as (L1 & _ & N1 & _). rewrite procs_upd_eq. cbn [ofile ofn].
  destruct (fd_scan NOFILE 0 _ _) as [n2|] eqn:S2.
  2:{ destruct (decide (i = n1)) as [->|Hin].
      - destruct (fd_scan_none _ _ _ _ j S2 ltac:(lia) Lj). rewrite fn_insert_ne; [done|congruence].
      - destruct (fd_scan_none _ _ _ _ i S2 ltac:(lia) Li). by rewrite fn_insert_ne. }
  apply fd_scan_spec in S2 as (L2 & _ & N2 & _).
  assert (Hne : n1 ≠ n2) by (intros ->; by rewrite fn_lookup_insert in N2).
  rewrite !pipe_flags_proc. eexists n1, n2, _. split; [reflexivity|]. rewrite goto_ctl, goto_ofile. split_and!; try done; try lia.
  - rewrite !procs_upd_eq. cbn [ofile]. by rewrite fn_insert_ne, fn_lookup_insert.
  - rewrite procs_upd_eq. cbn [ofile]. by rewrite fn_lookup_insert.
  - unfold pipe_flags. by repeat case_match.
Qed.

(** The modes of the ends of a new pipe. *)
Lemma new_end_modes w f a mode : mode = O_RDONLY ∨ mode = O_WRONLY → new_end w f a mode →
  has (f_flags (files w f)) O_PATH = false ∧ filereadable (files w f) = bool_decide (mode = O_RDONLY) ∧
  filewriteable (files w f) = bool_decide (mode = O_WRONLY).
Proof. intros Hm [_ _ Hf]. unfold filereadable, filewriteable. by destruct Hf as [-> | ->], Hm as [-> | ->]. Qed.

(** [pipe2] with two free files and two free descriptors. *)
Lemma pipe2_some me flags r f g i j dst src killed w :
  inv w → ctl (procs w me) = Run r → Z.land flags (Z.lnot (Z.lor O_CLOEXEC (Z.lor O_NONBLOCK O_DIRECT))) = 0 →
  f ≠ g → (f < NFILE)%nat → (g < NFILE)%nat → f_count (files w f) = 0 → f_count (files w g) = 0 →
  i ≠ j → (i < NOFILE)%nat → (j < NOFILE)%nat → Z.of_nat i < ofn (procs w me) → Z.of_nat j < ofn (procs w me) →
  ofile (procs w me) i = None → ofile (procs w me) j = None →
  ∃ n1 n2 rf wf a d w1, run [(me, Pipe2 flags true); (me, Next false dst src killed)] w = Ok (w1, [Stored (Z.of_nat n1) (Z.of_nat n2)]) ∧
    inv w1 ∧ n1 ≠ n2 ∧ (n1 < NOFILE)%nat ∧ (n2 < NOFILE)%nat ∧ ofile (procs w1 me) n1 = Some rf ∧ ofile (procs w1 me) n2 = Some wf ∧
    ctl (procs w1 me) = Run 0 ∧ new_end w1 rf a O_RDONLY ∧ new_end w1 wf a O_WRONLY ∧ pipes w1 !! a = Some (d, new_pipe).
Proof.
  intros Hi E Hfl Hfg Hf Hg Cf Cg Hij Li Lj Oi Oj Ni Nj.
  destruct (filealloc_some w f Hi Hf Cf) as (rf & Ha & Hrf & Crf).
  destruct (keep_sys_pipe2 me flags true r w Hi E) as (w1 & Hop & Hi1).
  assert (Hw1 : w1 = goto me (PipeTwo rf flags) (upd_file rf fresh w)).
  { revert Hop. unfold sys_pipe2. rewrite Hfl. cbn [truthy negb]. rewrite Ha. cbn [bind]. by intros [= <-]. }
  assert (E1 : ctl (procs w1 me) = PipeTwo rf flags) by (rewrite Hw1; apply goto_ctl).
  assert (Hfree : ∃ h, (h < NFILE)%nat ∧ h ≠ rf ∧ f_count (files w h) = 0) by (destruct (decide (f = rf)) as [->|]; eauto).
  destruct Hfree as (h & Hh & Hhr & Ch).
  assert (Hfs : ∀ g', files w1 g' = if decide (g' = rf) then fresh (files w rf) else files w g') by (intros g'; rewrite Hw1; exact (files_upd rf fresh w g')).
  destruct (filealloc_some w1 h Hi1 Hh) as (wf & Ha2 & Hwf & Cwf); [by rewrite Hfs, decide_False|].
  destruct (keep_pipe_two me rf flags false w1 Hi1 E1) as (w4 & ev & Hp & Hi4).
  pose proof Hp as Hp0. revert Hp. unfold pipe_two. rewrite Ha2. cbn [bind]. intros (w3 & Hpa & Hpf)%bind_Ok.
  assert (Hne : rf ≠ wf) by (intros <-; rewrite Hfs, decide_True in Cwf by done; done).
  revert Hpa. unfold pipealloc. intros ([a s1] & _ & ([d s2] & _ & Hw3)%bind_Ok)%bind_Ok. injection Hw3 as Hw3.
  assert (Hp3 : procs w3 me = mk_proc (ofile (procs w me)) (ofn (procs w me)) (nofile (procs w me)) (PipeTwo rf flags)) by (rewrite <-Hw3, Hw1; exact (procs_upd_eq me _ _)).
  destruct (pipe_fds_some me rf wf flags i j w3) as (n1 & n2 & w5 & Hfd & Hn & L1 & L2 & O1 & O2 & C5 & F5 & P5); rewrite ?Hp3; try done.
  rewrite Hfd in Hpf. injection Hpf as <- <-.
  assert (Hf3 : ∀ g', files w3 g' = if decide (g' = wf) then pipe_end O_WRONLY a (fresh (files w1 wf))
                      else if decide (g' = rf) then pipe_end O_RDONLY a (files w1 rf) else files w1 g').
  { intros g'. rewrite <-Hw3, !files_upd. cbn [files with_pipes with_pages]. rewrite !files_upd. repeat case_decide; subst; done. }
  destruct (pipe_flags_ends flags rf wf a w3 Hne) as [[] []];
    [by rewrite !Hf3, !decide_False, !decide_True by done|by rewrite !Hf3, !decide_True by done|].
  exists n1, n2, rf, wf, a, d, w5. split; [|split_and!; try done; try (split; by rewrite F5)].
  - cbn [run exec]. rewrite E. cbn [call]. rewrite Hop. cbn [quiet bind]. unfold next. by rewrite E1, Hp0.
  - rewrite P5, <-Hw3. exact (lookup_insert_eq (pipes (upd_file wf fresh w1)) a (d, new_pipe)).
Qed.

(** User memory that holds [l]. *)
Definition user (l : list Z) (j : Z) : option Z := if 0 <=? j then l !! Z.to_nat j else None.

(** A write of [l] to an empty pipe of which the other end is open. *)
Lemma write_all l nb pi :
  holds BUFPAGE pi 0 [] → p_lock pi = false → size pi = PIPESIZE → readopen pi = 1 → Z.of_nat (length l) ≤ PIPESIZE →
  ∃ pi' ev, pipewrite_from BUFPAGE (user l) (λ _, false) nb (Z.of_nat (length l)) 0 pi = Ok (Ret (Z.of_nat (length l)), pi', ev) ∧
    holds BUFPAGE pi' 0 l ∧ p_lock pi' = false.
Proof.
  intros Hh Hl Hs Hr Hlen.
  destruct (pipewrite_from_spec BUFPAGE (user l) (λ _, false) nb (Z.of_nat (length l)) 0 pi 0 [] Hh Hl ltac:(lia)) as (o & pi' & ev & bs & Hop & [W1 W2 W3 W4 W5 W6 W7 W8]);
    [left; by rewrite Hs|]. exists pi', ev. rewrite Hr, Hs in *. cbn [app] in *. rewrite Z.add_0_l in W8.
  assert (Hpre : ∀ m c, bs !! m = Some c → l !! m = Some c).
  { intros m c Hk. specialize (W2 m c Hk). rewrite Z.add_0_l in W2. unfold user in W2. rewrite (proj2 (Z.leb_le _ _)), Nat2Z.id in W2 by lia. done. }
  assert (Hbl : (length bs ≤ length l)%nat).
  { destruct bs as [|c bs'] using rev_ind; [cbn; lia|]. specialize (Hpre (length bs') c). rewrite lookup_app_r, Nat.sub_diag in Hpre by lia.
    apply lookup_lt_Some in Hpre; [|done]. rewrite length_app. cbn. lia. }
  assert (Hdone : (length l ≤ length bs)%nat → o = Ret (Z.of_nat (length bs)) → bs = l).
  { intros Hle _. apply list_eq_same_length with (length l); [done|lia|]. intros m c c' _ Hc Hc'. apply Hpre in Hc. congruence. }
  destruct W8 as [Hj|Hj Hf Hsrc|Hj [Hk|Hk]|Hj Hf Hnb|Hj Hf Hnb]; try lia; try done.
  - assert (bs = l) as -> by (apply Hdone; [lia|done]). by rewrite Hop.
  - exfalso. unfold user in Hsrc. rewrite (proj2 (Z.leb_le _ _)), Nat2Z.id in Hsrc by lia. apply lookup_ge_None in Hsrc. lia.
  - apply bool_decide_eq_true in Hf. lia.
  - apply bool_decide_eq_true in Hf. lia.
Qed.

(** A read of at least [l] from a pipe that holds [l]. *)
Lemma read_all l nb n pi :
  holds BUFPAGE pi 0 l → p_lock pi = false → l ≠ [] → Z.of_nat (length l) ≤ n →
  ∃ pi' ev, piperead (λ _, true) false nb n pi = Ok (Ret (Z.of_nat (length l)), pi', l, ev) ∧ holds BUFPAGE pi' (Z.of_nat (length l)) [].
Proof.
  intros Hh Hl Hne Hn. destruct (piperead_spec BUFPAGE (λ _, true) false nb n pi 0 l Hh Hl) as (o & pi' & out & ev & Hop & _ & _ & Hd & _).
  destruct (Hd Hne) as (-> & -> & lost & [(rest & Eq & Hrest & Hend) Hlost _ _ _ _ _ _]).
  destruct Hlost as [->|[_ ?]]; [|done]. rewrite app_nil_l, app_nil_r, Z.add_0_l in *.
  assert (Hr : rest = []). { destruct (decide (Z.of_nat (length out) < n)); [by apply Hend; [|lia]|]. apply nil_length_inv. rewrite Eq, length_app in Hn. lia. }
  subst rest. rewrite app_nil_r in Eq. subst out. eauto.
Qed.

(** The two calls, on a pipe of which the state is known. *)
Lemma exec_write me m f a d pi pi' n src killed r r' ev w :
  inv w → ctl (procs w me) = Run r → (m < NOFILE)%nat → ofile (procs w me) m = Some f → new_end w f a O_WRONLY → pipes w !! a = Some (d, pi) →
  pipewrite_from BUFPAGE src killed (has (f_flags (files w f)) O_NONBLOCK) n 0 pi = Ok (Ret r', pi', ev) →
  run [(me, Write (Z.of_nat m) n true src killed)] w =
    Ok (goto me (Run r') (with_pipes (<[a := (d, pi')]> (pipes w)) w), (OfPipe a <$> ev) ++ []).
Proof.
  intros Hi E Hm Ho He Hp Hop. destruct (new_end_modes w f a O_WRONLY ltac:(by right) He) as (Pw & _ & Ww).
  cbn [run exec]. rewrite E. cbn [call]. unfold sys_write, getfd. destruct (orb _ _) eqn:Hb; [exfalso; lia|]. rewrite Nat2Z.id, Ho, Pw, Ww.
  cbn [negb]. unfold lock_unlock. rewrite (c_flock _ (i_points _ Hi)). cbn [bind]. unfold write_segment, pipe_of. rewrite (n_type _ _ _ _ He), (n_data _ _ _ _ He), Hp.
  cbn [of_opt bind]. rewrite Hop. cbn [bind]. unfold lock_unlock. change (files (with_pipes _ w)) with (files w). by rewrite (c_flock _ (i_points _ Hi)).
Qed.

Lemma exec_read me m f a d pi pi' n dst killed r r' out ev w :
  (∀ g, f_lock (files w g) = false) → ctl (procs w me) = Run r → (m < NOFILE)%nat → ofile (procs w me) m = Some f → new_end w f a O_RDONLY → pipes w !! a = Some (d, pi) →
  piperead dst killed (has (f_flags (files w f)) O_NONBLOCK) n pi = Ok (Ret r', pi', out, ev) →
  run [(me, Read (Z.of_nat m) n true dst killed)] w =
    Ok (goto me (Run r') (with_pipes (<[a := (d, pi')]> (pipes w)) w), ((OfPipe a <$> ev) ++ [Got out]) ++ []).
Proof.
  intros Hlk E Hm Ho He Hp Hop. destruct (new_end_modes w f a O_RDONLY ltac:(by left) He) as (Pr & Rr & _).
  cbn [run exec]. rewrite E. cbn [call]. unfold sys_read, getfd. destruct (orb _ _) eqn:Hb; [exfalso; lia|]. rewrite Nat2Z.id, Ho, Pr, Rr.
  cbn [negb]. unfold lock_unlock. rewrite Hlk. cbn [bind]. unfold read_segment, pipe_of. rewrite (n_type _ _ _ _ He), (n_data _ _ _ _ He), Hp.
  cbn [of_opt bind]. rewrite Hop. cbn [bind]. unfold lock_unlock. change (files (with_pipes _ w)) with (files w). by rewrite Hlk.
Qed.

(** C23. Round trip through a pipe: when two files of the table and two
    descriptors of the process are free, [pipe2] stores two different
    descriptors; a write of up to the size of the pipe to the second returns
    the number of bytes, and a read from the first delivers exactly the bytes
    that were written, whatever flags the pipe has. *)
Theorem pipe2_roundtrip me flags r f g i j dst src killed l n w :
  reachable w → ctl (procs w me) = Run r → Z.land flags (Z.lnot (Z.lor O_CLOEXEC (Z.lor O_NONBLOCK O_DIRECT))) = 0 →
  f ≠ g → (f < NFILE)%nat → (g < NFILE)%nat → f_count (files w f) = 0 → f_count (files w g) = 0 →
  i ≠ j → (i < NOFILE)%nat → (j < NOFILE)%nat → Z.of_nat i < ofn (procs w me) → Z.of_nat j < ofn (procs w me) →
  ofile (procs w me) i = None → ofile (procs w me) j = None →
  l ≠ [] → Z.of_nat (length l) ≤ PIPESIZE → Z.of_nat (length l) ≤ n →
  ∃ n1 n2 w1 w2 w3 ev ev', n1 ≠ n2 ∧
    run [(me, Pipe2 flags true); (me, Next false dst src killed)] w = Ok (w1, [Stored n1 n2]) ∧ ctl (procs w1 me) = Run 0 ∧
    run [(me, Write n2 (Z.of_nat (length l)) true (user l) (λ _, false))] w1 = Ok (w2, ev) ∧ ctl (procs w2 me) = Run (Z.of_nat (length l)) ∧
    run [(me, Read n1 n true (λ _, true) false)] w2 = Ok (w3, ev') ∧ ctl (procs w3 me) = Run (Z.of_nat (length l)) ∧ Got l ∈ ev'.
Proof.
  intros Hi%reachable_inv E Hfl Hfg Hf Hg Cf Cg Hij Li Lj Oi Oj Ni Nj Hl Hlen Hn.
  destruct (pipe2_some me flags r f g i j dst src killed w) as (n1 & n2 & rf & wf & a & d & w1 & Hr & Hi1 & Hne & L1 & L2 & O1 & O2 & C1 & Er & Ew & Hp); try done.
  destruct (write_all l (has (f_flags (files w1 wf)) O_NONBLOCK) new_pipe new_pipe_holds eq_refl eq_refl eq_refl Hlen) as (pi' & ev & Hwr & Hh & Hlk).
  destruct (read_all l (has (f_flags (files w1 rf)) O_NONBLOCK) n pi' Hh Hlk Hl Hn) as (pi2 & ev2 & Hrd & _).
  exists (Z.of_nat n1), (Z.of_nat n2), w1. eexists _, _, _, _. split; [lia|]. split; [exact Hr|]. split; [done|].
  split; [by apply (exec_write me n2 wf a d new_pipe pi' _ _ _ 0)|]. split; [apply goto_ctl|].
  split; [apply (exec_read me n1 rf a d pi' pi2 _ _ _ (Z.of_nat (length l)) (Z.of_nat (length l)) l ev2)|split; [apply goto_ctl|]].
  - intros h. apply (c_flock _ (i_points _ Hi1)).
  - apply goto_ctl.
  - done.
  - by rewrite goto_ofile.
  - destruct Er; by split.
  - exact (lookup_insert_eq (pipes w1) a (d, pi')).
  - exact Hrd.
  - rewrite app_nil_r. apply elem_of_app. right. by left.
Qed.
End stream.

End FileStream.
