(* ===== verification/FileRuns.v ===== *)
(** * Open files: concrete runs

    The theorems on open files at a concrete machine: the buddy allocator on
    16 MiB, which has the 2048 pages that 1024 pipes can take, and a file
    system in which every path is a regular file.  Then what the calls do
    outside of the theorems: an uncounted descriptor, an index before the
    array, a lost file. *)

From stdpp Require Import functions.
From S2P Require Import Prelude CList BuddyDefs BuddyBits BuddyInv BuddyOps BuddyFree BuddyInit Ring Pmem PmemSpec PipeDefs Pipe FifoDefs ProcDefs.
From S2P Require Import FileDefs FileInv File FileOps FileStep FilePipe FileFork FileSpec FileCalls FileStream.
Import Buddy BuddyInit Pmem PmemSpec PipeDefs Pipe FileDefs FileInv File FileOps FileStep FilePipe FileFork FileSpec FileCalls FileStream.

Module FileRuns.

(** ** The machine *)

Definition big : res buddy := buddy_init 0x80200000 0x81200000 empty_state.
Definition big_state : buddy := get empty_state big.

Lemma big_range : BuddyInit.range_ok 0x80200000 0x81200000 4096.
Proof. unfold BuddyInit.range_ok. split_and!; vm_compute; congruence. Qed.

Lemma big_inv : pa_inv big_state.
Proof.
  destruct (buddy_init_spec _ _ _ empty_state big_range) as (s & Hop & Hw & Hlk & _).
  unfold big_state, big. rewrite Hop. exact (conj Hw Hlk).
Qed.

Lemma big_avail : pa_avail big_state (2 * NFILE).
Proof.
  exists (seqZ 1536 2048). split; [apply NoDup_seqZ|]. split; [rewrite length_seqZ; unfold NFILE; lia|].
  assert (Hall : forallb (free_page_b big_state) (seqZ 1536 2048) = true) by (vm_compute; reflexivity).
  intros p Hp. apply free_page_b_spec. apply (proj1 (forallb_forall _ _) Hall). by apply list_elem_of_In.
Qed.

#[export] Instance plain_vfs : Vfs unit := {
  vfs_ext4_openat x t := (0, mk_file FD_REG (f_mode x) (f_flags x) (fd_flags x) 0 (f_count x) 0 0 (f_path x) 0 0 (Vnode EXT4 0) (f_lock x), t);
  vfs_is_dir _ _ := false;
  vfs_ext4_fclose _ t := t;
  vfs_ext4_dirclose _ t := t;
  vfs_ext4_rm _ t := t;
  vfs_nlink _ _ := None;
  freeprthinfo _ t := t
}.
#[export] Instance plain_vfs_laws : VfsLaws unit.
Proof. split. intros x t r x' t' [= <- <- <-] Hc Ht Hl. split_and!; try done. right. split; [by left|]. exists 0. by left. Qed.

Abbreviation world := (world buddy unit).
Definition no_fifos : FifoDefs.table := FifoDefs.mk_table false [].
Definition start : world := fileinit big_state tt no_fifos.

Definition after (l : list (nat * action)) (P : world → list report → bool) : bool :=
  match run l start with Ok (w, ev) => P w ev | _ => false end.

(** The run of [l] ends in [w]. *)
Record ran (l : list (nat * action)) (w : world) (ev : list report) : Prop := { ran_eq : run l start = Ok (w, ev) }.

Lemma after_spec l P : after l P = true → Forall (λ b, safe b.2) l → ∃ w ev, reachable w ∧ ran l w ev ∧ P w ev = true.
Proof.
  unfold after. destruct (run l start) as [[w ev]| | |] eqn:E; try done. intros HP Hl. exists w, ev. split_and!; try done.
  exists big_state, tt, no_fifos, l, ev. split_and!; [apply big_inv|apply big_avail|done|done].
Qed.

(** A section of a call without faults. *)
Definition go : action := Next false (λ _, true) (λ _, None) false.

Definition returns (me : nat) (r : Z) (w : world) : bool := match ctl (procs w me) with Run r' => r' =? r | _ => false end.
Definition fd_is (w : world) (me fd : nat) (f : nat) : bool := bool_decide (ofile (procs w me) fd = Some f).

(** Process 0 makes a pipe (files 0 and 1 at descriptors 0 and 1), duplicates
    its end for writing, and forks process 1. *)
Definition shared : list (nat * action) :=
  [(0, Pipe2 0 true); (0, go); (0, Dup 1); (0, Fork 1)]%nat ++ replicate 257 (0%nat, go).

Lemma safe_shared : Forall (λ b, safe b.2) shared.
Proof. apply Forall_app. split; [by repeat constructor|]. by apply Forall_replicate. Qed.

(** ** The theorems at this machine *)

Lemma returns_ctl me r (w : world) : returns me r w = true → ctl (procs w me) = Run r.
Proof. unfold returns. destruct (ctl (procs w me)); try done. by intros ->%Z.eqb_eq. Qed.
Lemma fd_is_Some (w : world) me fd f : fd_is w me fd f = true → ofile (procs w me) fd = Some f.
Proof. apply bool_decide_eq_true. Qed.

(** The state after [shared]. *)
Lemma shared_spec : ∃ w ev, reachable w ∧ ran shared w ev ∧ f_count (files w 1) = 4 ∧ ofile (procs w 1) 2 = Some 1%nat ∧
  ctl (procs w 0) = Run 1 ∧ ctl (procs w 1) = Run 0.
Proof.
  destruct (after_spec shared (λ w _, (f_count (files w 1) =? 4) && fd_is w 1 2 1 && returns 0 1 w && returns 1 0 w)) as (w & ev & Hr & Hrun & HP);
    [vm_compute; reflexivity|exact safe_shared|].
  apply andb_prop in HP as [[[HP1%Z.eqb_eq HP2%fd_is_Some]%andb_prop HP3%returns_ctl]%andb_prop HP4%returns_ctl]. eauto 10.
Qed.


(** The pipe of process 0 after it has closed the end for writing. *)
Definition half : list (nat * action) := [(0, Pipe2 0 true); (0, go); (0, CloseFd 1); (0, go); (0, go); (0, go)]%nat.

Lemma half_spec : ∃ w ev a d pi, reachable w ∧ ran half w ev ∧ f_data (files w 0) = Pipe a ∧ pipes w !! a = Some (d, pi) ∧
  writeopen pi = 0 ∧ ofile (procs w 0) 0 = Some 0%nat ∧ ctl (procs w 0) = Run 0 ∧ f_type (files w 0) = FD_PIPE ∧ f_flags (files w 0) = 0.
Proof.
  destruct (after_spec half (λ w _, match f_data (files w 0) with
      Pipe a => match pipes w !! a with Some (d, pi) => writeopen pi =? 0 | None => false end | _ => false end &&
      fd_is w 0 0 0 && returns 0 0 w && bool_decide (f_type (files w 0) = FD_PIPE) && (f_flags (files w 0) =? 0))) as (w & ev & Hr & Hrun & HP);
    [vm_compute; reflexivity|by repeat constructor|].
  apply andb_prop in HP as [[[[HP1 HP2%fd_is_Some]%andb_prop HP3%returns_ctl]%andb_prop HP4%bool_decide_eq_true]%andb_prop HP5%Z.eqb_eq].
  destruct (f_data (files w 0)) as [|a| | |] eqn:Hd; try done. destruct (pipes w !! a) as [[d pi]|] eqn:Ha; [|done]. apply Z.eqb_eq in HP1.
  exists w, ev, a, d, pi. auto 10.
Qed.




Lemma dup_correct_witness :
  ∃ w ev n w', ran half w ev ∧ sys_dup 0 0 w = Ok w' ∧ ctl (procs w' 0) = Run (Z.of_nat n) ∧ ofile (procs w' 0) n = Some 0%nat.
Proof.
  destruct (after_spec half (λ w _, fd_is w 0 0 0 && returns 0 0 w && bool_decide (ofile (procs w 0) 1 = None) &&
    (nofile (procs w 0) =? 256) && (ofn (procs w 0) =? 256))) as (w & ev & Hr & Hrun & HP); [vm_compute; reflexivity|by repeat constructor|].
  apply andb_prop in HP as [[[[Ho%fd_is_Some E%returns_ctl]%andb_prop H1%bool_decide_eq_true]%andb_prop Hl%Z.eqb_eq]%andb_prop Hn%Z.eqb_eq].
  exists w, ev. assert (Hg : getfd 0 0 w = Some 0%nat) by exact Ho. pose proof (dup_correct 0 0 0 w Hr E) as Hd. rewrite Hg, Hl, Hn in Hd.
  destruct Hd as [(n & w' & _ & _ & _ & _ & H2 & H3 & H4 & _)|[Hall _]]; [|by destruct (Hall 1%nat ltac:(unfold NOFILE; lia) ltac:(lia))].
  exists n, w'. split; [exact Hrun|]. split; [exact H2|]. split; [exact H3|]. rewrite H4. apply fn_lookup_insert.
Defined.

Lemma pipe_end_of_file_witness :
  ∃ w ev w' ev', ran half w ev ∧ sys_read (λ _, true) false true 0 0 10 w = Ok (w', ev') ∧
    (ctl (procs w' 0) = Run 0 ∨ ∃ l, Got l ∈ ev').
Proof.
  destruct half_spec as (w & ev & a & d & pi & Hr & Hrun & Hd & Ha & Hw & Ho & E & Ht & Hf). exists w, ev.
  destruct (pipe_end_of_file (λ _, true) false (λ _, None) (λ _, false) 10 0 0 0 0 w Hr E) as (a' & d' & pi' & R & l & Hd' & Ha' & Hh & H1 & _);
    [exact Ho|exact Ht|by rewrite Hf|].
  rewrite Hd in Hd'. injection Hd' as <-. rewrite Ha in Ha'. injection Ha' as <- <-.
  destruct H1 as (w' & ev' & Hx & H2 & _ & H3); [unfold filereadable; by rewrite Hf|]. exists w', ev'. split; [exact Hrun|]. split; [exact Hx|].
  destruct l as [|b l]; [left; apply H2; [done|]|right; destruct (H3 ltac:(done)) as (out & _ & _ & _ & _ & Hg & _); eauto].
  intros (f & He). destruct (b_end _ (i_chans _ (reachable_inv w Hr)) f a true He) as (d2 & pi2 & Ha2 & Ho2). rewrite Ha in Ha2. injection Ha2 as <- <-.
  change (writeopen pi = 1) in Ho2. lia.
Defined.

Lemma pipe2_roundtrip_witness :
  ∃ n1 n2 w1 w2 w3 ev ev', run [(0, Pipe2 O_NONBLOCK true); (0, go)]%nat start = Ok (w1, [Stored n1 n2]) ∧
    run [(0%nat, Write n2 3 true (user [7; 8; 9]) (λ _, false))] w1 = Ok (w2, ev) ∧
    run [(0%nat, Read n1 100 true (λ _, true) false)] w2 = Ok (w3, ev') ∧ Got [7; 8; 9] ∈ ev'.
Proof.
  destruct (pipe2_roundtrip 0 O_NONBLOCK 0 0 1 0 1 (λ _, true) (λ _, None) false [7; 8; 9] 100 start)
    as (n1 & n2 & w1 & w2 & w3 & ev & ev' & _ & H1 & _ & H2 & _ & H3 & _ & H4).
  - exists big_state, tt, no_fifos, [], []. split_and!; [apply big_inv|apply big_avail|constructor|reflexivity].
  - reflexivity.
  - reflexivity.
  - lia.
  - unfold NFILE. lia.
  - unfold NFILE. lia.
  - reflexivity.
  - reflexivity.
  - lia.
  - unfold NOFILE. lia.
  - unfold NOFILE. lia.
  - change (Z.of_nat 0 < Z.of_nat NOFILE). unfold NOFILE. lia.
  - change (Z.of_nat 1 < Z.of_nat NOFILE). unfold NOFILE. lia.
  - reflexivity.
  - reflexivity.
  - discriminate.
  - unfold PIPESIZE. cbn. lia.
  - cbn. lia.
  - exists n1, n2, w1, w2, w3, ev, ev'. exact (conj H1 (conj H2 (conj H3 H4))).
Defined.

(** ** Outside of the theorems *)

(** [fcntl(fd, F_DUPFD_CLOEXEC, 0)] tests for a descriptor greater than 0:
    when the new descriptor is 0 the file is not counted.  Here the file 1 is
    then closed through the descriptor 0, and closing the descriptor 1, which
    is still open, panics. *)
Definition close_fd (fd : Z) : list (nat * action) := [(0, CloseFd fd); (0, go); (0, go); (0, go)]%nat.
Theorem dupfd_cloexec_uncounted :
  run ([(0, Pipe2 0 true); (0, go)]%nat ++ close_fd 0 ++ [(0%nat, Fcntl 1 F_DUPFD_CLOEXEC 0)] ++ close_fd 0 ++ close_fd 1) start = Panic "fileclose".
Proof. vm_compute. reflexivity. Qed.

(** [fcntl(fd, F_DUPFD, -1)] reads and writes before the descriptors. *)
Theorem dupfd_negative :
  run ([(0, Pipe2 0 true); (0, go)]%nat ++ [(0%nat, Fcntl 0 F_DUPFD (-1))]) start = Undef.
Proof. vm_compute. reflexivity. Qed.

(** An [openat] that finds no free descriptor has taken a file that nobody
    refers to and nobody can release. *)
Theorem openat_loses_file me flags mode umask st path target r f (w : world) :
  inv w → ctl (procs w me) = Run r → (f < NFILE)%nat → f_count (files w f) = 0 →
  (∀ i, (i < NOFILE)%nat → Z.of_nat i < ofn (procs w me) → ofile (procs w me) i ≠ None) →
  ∃ g w', open_file me flags mode umask st path target w = Ok w' ∧ ctl (procs w' me) = Run (- EMFILE) ∧
    f_count (files w g) = 0 ∧ f_count (files w' g) = 1 ∧ refs (procs w') g = 0%nat.
Proof.
  intros Hi E Hf Hc Hall. destruct (filealloc_some w f Hi Hf Hc) as (g & Hop & Hg & Hcg). unfold open_file. rewrite Hop. cbn [bind]. unfold fdalloc.
  change (procs (upd_file g fresh w)) with (procs w). destruct (fd_scan NOFILE 0 _ _) as [n|] eqn:Hs.
  { apply fd_scan_spec in Hs as (Hn & Hlt & Hno & _). by destruct (Hall n ltac:(lia) Hlt). }
  eexists g, _. split; [reflexivity|]. rewrite goto_ctl. split_and!; try done.
  - change (files (goto me (Run (- EMFILE)) (upd_file g fresh w)) g) with (files (upd_file g fresh w) g). by rewrite files_upd, decide_True.
  - rewrite (same_refs me w); [by apply slot_free|apply (in_table w); congruence|intros q Hq; by rewrite goto_oth|].
    unfold refs_of. by rewrite goto_ctl, goto_ofile, E.
Qed.
End FileRuns.
