(* ===== verification/VmaDefs.v ===== *)
(** * Memory areas of a process (kernel/vma.c), definitions

    A [struct vma] lives in a page of its own; [vmas] maps the addresses of
    these pages to their contents, so that a pointer to an area that has been
    freed leads nowhere.  The areas of a process form a ring through a head
    ([p->vma]); the operations perform the loads and stores of the C code on
    the links.  The segments of shared memory ([segs], by address) and the
    table [shm_segs] are part of the state, as is the cursor [map_addr] that
    all processes share.

    The page allocator is used through [PageAllocator] for single pages and
    [BlockAllocator] for blocks; [buddy_alloc] clears what it hands out, so a
    new area and a new page hold zeros.  The files behind a mapping belong to
    the file system, the class [MapFiles]. *)

From S2P Require Import Prelude BuddyDefs Pmem CStringDefs VMemDefs.
Import Pmem VMemDefs.

Module VmaDefs.

(** ** Constants (RISC-V) *)
Definition MAXUVA : Z := 0x80000000.
Definition USER_MMAP_START : Z := MAXUVA - 0x20000000 - 2 * PGSIZE.
Definition USER_STACK_TOP : Z := MAXUVA - PGSIZE.
Definition USER_STACK_SIZE : Z := 100 * PGSIZE.
Definition PTE_STACK : Z := Z.lor (Z.lor PTE_R PTE_W) PTE_U.
Definition PROT_NONE : Z := 0.
Definition PROT_READ : Z := 1.
Definition PROT_WRITE : Z := 2.
Definition PROT_EXEC : Z := 4.
Definition MAP_SHARED : Z := 0x01.
Definition MAP_PRIVATE : Z := 0x02.
Definition MAP_SHARED_VALIDATE : Z := 0x03.
Definition MAP_FIXED : Z := 0x10.
Definition MAP_ANONYMOUS : Z := 0x20.
Definition MAP_ALLOC : Z := 0xf00.
Definition SHMMNI : Z := 5000.
Definition IPC_PRIVATE : Z := 0.
Definition IPC_CREAT : Z := 512.
Definition EBADF : Z := 9.
Definition ENOMEM : Z := 12.
Definition EACCES : Z := 13.
Definition EEXIST : Z := 17.
Definition ENOSPC : Z := 28.
Definition O_WRONLY : Z := 1.
Definition O_RDWR : Z := 2.

(** A negative error code returned as [uint64]. *)
Definition err (e : Z) : Z := u64 (- e).

(** ** Data *)

Inductive segtype := NONE | MMAP | STACK | SHARE.
#[export] Instance segtype_eq_dec : EqDecision segtype.
Proof. solve_decision. Defined.

(** [struct vma] without its links. *)
Record area := mk_area {
  a_type : segtype; a_perm : Z; orig_prot : Z; a_addr : Z; a_size : Z; a_end : Z; a_flags : Z;
  a_fd : Z; f_off : Z; fsize : Z; ref_count : Z; shm_kernel : Z
}.
#[export] Instance area_eq_dec : EqDecision area.
Proof. solve_decision. Defined.
Record vma := mk_vma { data : area; prev : Z; next : Z }.

Definition blank : area := mk_area NONE 0 0 0 0 0 0 0 0 0 0 0.

(** The part of an area from [lo] to [hi], at offset [off] of the file. *)
Definition resized (a : area) (lo hi off : Z) : area :=
  mk_area (a_type a) (a_perm a) (orig_prot a) lo (u64 (hi - lo)) hi (a_flags a) (a_fd a) off (fsize a) (ref_count a)
    (shm_kernel a).
Definition set_refs (n : Z) (a : area) : area :=
  mk_area (a_type a) (a_perm a) (orig_prot a) (a_addr a) (a_size a) (a_end a) (a_flags a) (a_fd a) (f_off a) (fsize a)
    n (shm_kernel a).
Definition set_file (fd off : Z) (a : area) : area :=
  mk_area (a_type a) (a_perm a) 0 (a_addr a) (a_size a) (a_end a) (a_flags a) fd off (fsize a) (ref_count a)
    (shm_kernel a).
Definition set_prot (prot : Z) (a : area) : area :=
  mk_area (a_type a) (a_perm a) prot (a_addr a) (a_size a) (a_end a) (a_flags a) (a_fd a) (f_off a) (fsize a)
    (ref_count a) (shm_kernel a).
Definition set_flags (fl : Z) (a : area) : area :=
  mk_area (a_type a) (a_perm a) (orig_prot a) (a_addr a) (a_size a) (a_end a) fl (a_fd a) (f_off a) (fsize a)
    (ref_count a) (shm_kernel a).
Definition set_fsize (n : Z) (a : area) : area :=
  mk_area (a_type a) (a_perm a) (orig_prot a) (a_addr a) (a_size a) (a_end a) (a_flags a) (a_fd a) (f_off a) n
    (ref_count a) (shm_kernel a).
Definition set_shm (ty : segtype) (shm : Z) (a : area) : area :=
  mk_area ty (a_perm a) (orig_prot a) (a_addr a) (a_size a) (a_end a) (a_flags a) (a_fd a) (f_off a) (fsize a)
    (ref_count a) shm.

(** [struct shm_attach], at address [at_ptr]. *)
Record shm_attach := mk_attach { at_ptr : Z; at_addr : Z; at_shmid : Z }.

(** [struct shmid_kernel].  [shm_pages] is the address of the array, whose
    words are [pages]; [attaches] points to an area. *)
Record shmid_kernel := mk_shm {
  shm_key : Z; shmid : Z; shm_size : Z; shm_flag : Z; attach_count : Z; is_deleted : bool;
  shm_pages : Z; pages : list Z; attaches : Z;
  shm_uid : Z; shm_gid : Z; shm_mode : Z; shm_cpid : Z; shm_lpid : Z; shm_nattch : Z;
  shm_attach_list : list shm_attach
}.
Definition set_attaches (v : Z) (x : shmid_kernel) : shmid_kernel :=
  mk_shm (shm_key x) (shmid x) (shm_size x) (shm_flag x) (attach_count x) (is_deleted x) (shm_pages x) (pages x) v
    (shm_uid x) (shm_gid x) (shm_mode x) (shm_cpid x) (shm_lpid x) (shm_nattch x) (shm_attach_list x).
Definition set_pages (l : list Z) (x : shmid_kernel) : shmid_kernel :=
  mk_shm (shm_key x) (shmid x) (shm_size x) (shm_flag x) (attach_count x) (is_deleted x) (shm_pages x) l (attaches x)
    (shm_uid x) (shm_gid x) (shm_mode x) (shm_cpid x) (shm_lpid x) (shm_nattch x) (shm_attach_list x).
(** The count, the pid of the last operation, the recorded count and the list. *)
Definition set_count (n lpid nattch : Z) (l : list shm_attach) (x : shmid_kernel) : shmid_kernel :=
  mk_shm (shm_key x) (shmid x) (shm_size x) (shm_flag x) n (is_deleted x) (shm_pages x) (pages x) (attaches x)
    (shm_uid x) (shm_gid x) (shm_mode x) (shm_cpid x) lpid nattch l.

(** The fields of [struct proc] that the areas use; [pvma] and the entries of
    [ofile] are 0 for NULL. *)
Record mproc := mk_mproc {
  pvma : Z; pagetable : Z; psz : Z; pid : Z; euid : Z; egid : Z;
  ofile : gmap Z Z; shm_attaches : list shm_attach
}.
Definition with_pvma (v : Z) (p : mproc) : mproc :=
  mk_mproc v (pagetable p) (psz p) (pid p) (euid p) (egid p) (ofile p) (shm_attaches p).
Definition with_pagetable (t : Z) (p : mproc) : mproc :=
  mk_mproc (pvma p) t (psz p) (pid p) (euid p) (egid p) (ofile p) (shm_attaches p).
Definition with_psz (n : Z) (p : mproc) : mproc :=
  mk_mproc (pvma p) (pagetable p) n (pid p) (euid p) (egid p) (ofile p) (shm_attaches p).
Definition with_attaches (l : list shm_attach) (p : mproc) : mproc :=
  mk_mproc (pvma p) (pagetable p) (psz p) (pid p) (euid p) (egid p) (ofile p) l.
Definition file_of (p : mproc) (fd : Z) : res Z := of_opt (ofile p !! fd).

(** [pmem_alloc_pages(n)], [pmem_free_pages(p, n)], [buddy_cleanup_and_rebuild]. *)
Class BlockAllocator (St : Type) := {
  pb_alloc : Z → St → res (Z * St);
  pb_free : Z → Z → St → res St;
  pb_cleanup : St → res St
}.
#[export] Instance buddy_blocks : BlockAllocator Buddy.buddy := {
  pb_alloc := Buddy.pmem_alloc_pages;
  pb_free := Buddy.pmem_free_pages;
  pb_cleanup := Buddy.buddy_cleanup_and_rebuild
}.

(** What a mapping asks of the file at an address. *)
Class MapFiles (St Fs : Type) := {
  mf_flags : Z → Fs → Z;                     (* f->f_flags *)
  mf_readable : Z → Fs → bool;               (* get_file_ops()->readable(f) *)
  mf_fstat : Z → Fs → Z * Z;                 (* vfs_ext4_fstat: result and st_size *)
  mf_pos : Z → Fs → Z;                       (* f->f_pos *)
  mf_lseek : Z → Z → Fs → Z * Fs;            (* vfs_ext4_lseek(f, off, SEEK_SET) *)
  mf_read : Z → Z → Z → Fs → vm St → res (Z * Fs * vm St);   (* read to a user address *)
  mf_dup : Z → Fs → res Fs                   (* get_file_ops()->dup(f) *)
}.

Section vma.
Context {St : Type} `{PageAllocator St} `{BlockAllocator St} {Fs : Type} `{MapFiles St Fs}.

Record mem := mk_mem {
  vms : vm St;
  vmas : gmap Z vma;
  segs : gmap Z shmid_kernel;
  shm_segs : gmap Z Z;        (* the entries that are not NULL *)
  fs : Fs;
  map_addr : Z
}.
Definition with_vms (s : mem) (v : vm St) : mem := mk_mem v (vmas s) (segs s) (shm_segs s) (fs s) (map_addr s).
Definition with_vmas (s : mem) (h : gmap Z vma) : mem := mk_mem (vms s) h (segs s) (shm_segs s) (fs s) (map_addr s).
Definition with_segs (s : mem) (g : gmap Z shmid_kernel) : mem :=
  mk_mem (vms s) (vmas s) g (shm_segs s) (fs s) (map_addr s).
Definition with_ids (s : mem) (g : gmap Z Z) : mem := mk_mem (vms s) (vmas s) (segs s) g (fs s) (map_addr s).
Definition with_fs (s : mem) (x : Fs) : mem := mk_mem (vms s) (vmas s) (segs s) (shm_segs s) x (map_addr s).
Definition with_map_addr (s : mem) (a : Z) : mem := mk_mem (vms s) (vmas s) (segs s) (shm_segs s) (fs s) a.

(** An operation of vmem.c. *)
Definition vmdo {A} (f : vm St → res (A * vm St)) (s : mem) : res (A * mem) :=
  let* (r, v) := f (vms s) in Ok (r, with_vms s v).
Definition vmrun (f : vm St → res (vm St)) (s : mem) : res mem :=
  let* v := f (vms s) in Ok (with_vms s v).

(** ** Areas in memory *)

Definition ld (a : Z) (s : mem) : res vma := of_opt (vmas s !! a).
Definition upd (a : Z) (f : vma → vma) (s : mem) : res mem :=
  let* x := ld a s in Ok (with_vmas s (<[a := f x]> (vmas s))).
Definition set_prev (a v : Z) (s : mem) : res mem := upd a (λ x, mk_vma (data x) v (next x)) s.
Definition set_next (a v : Z) (s : mem) : res mem := upd a (λ x, mk_vma (data x) (prev x) v) s.
Definition set_data (a : Z) (f : area → area) (s : mem) : res mem :=
  upd a (λ x, mk_vma (f (data x)) (prev x) (next x)) s.

(** [(struct vma * )pmem_alloc_pages(1)] and [pmem_free_pages(v, 1)]. *)
Definition alloc_node (s : mem) : res (Z * mem) :=
  let* (a, st) := pa_alloc (al (vms s)) in
  let s := with_vms s (with_al (vms s) st) in
  if a =? 0 then Ok (0, s) else Ok (a, with_vmas s (<[a := mk_vma blank 0 0]> (vmas s))).
Definition free_node (a : Z) (s : mem) : res mem :=
  let* st := pa_free a (al (vms s)) in
  Ok (with_vmas (with_vms s (with_al (vms s) st)) (delete a (vmas s))).

(** A page of data from [pmem_alloc_pages(1)], and a page given back. *)
Definition zero_mem (a n : Z) (d : gmap Z Z) : gmap Z Z :=
  foldr (λ i d, <[a + i := 0]> d) d (seqZ 0 n).
Definition alloc_page (v : vm St) : res (Z * vm St) :=
  let* (a, st) := pa_alloc (al v) in
  let v := with_al v st in
  if a =? 0 then Ok (0, v) else Ok (a, with_dm v (zero_mem a PGSIZE (dm v))).
Definition free_page (a : Z) (v : vm St) : res (vm St) :=
  let* st := pa_free a (al v) in Ok (with_al v st).

(** [vma->prev->next = vma->next; vma->next->prev = vma->prev;] *)
Definition unlink (v : Z) (s : mem) : res mem :=
  let* x := ld v s in
  let* s := set_next (prev x) (next x) s in
  let* x := ld v s in
  set_prev (next x) (prev x) s.

(** The number of areas bounds every walk along a ring. *)
Definition ring_fuel (s : mem) : nat := S (size (vmas s)).

(** ** Permissions *)

Definition get_mmapperms (prot : Z) : Z :=
  let perm := PTE_U in
  if prot =? PROT_NONE then 0
  else
    let perm := if has prot PROT_READ then Z.lor perm PTE_R else perm in
    let perm := if has prot PROT_WRITE then Z.lor perm PTE_W else perm in
    if has prot PROT_EXEC then Z.lor perm PTE_X else perm.

Definition experm (tbl va perm : Z) (v : vm St) : res (Z * vm St) :=
  if MAXVA <=? va then Ok (0, v)
  else
    let* (r, v) := walk tbl va false v in
    match r with
    | None => Ok (0, v)
    | Some pte =>
        let* w := rd pte v in
        if negb (has w PTE_V) then Ok (0, v)
        else if negb (has w PTE_U) then Ok (0, v)
        else
          let* v := wr pte (Z.lor w perm) v in
          let* w := rd pte v in
          Ok (PTE2PA w, v)
    end.
Definition vm_protect (tbl va addr perm : Z) (v : vm St) : res (Z * vm St) :=
  let* (pa, v) := experm tbl va perm v in Ok (i32 pa, v).

(** ** uvmalloc1 (kernel/vmem.c) *)

(** [for (a = start; a < end; a += PGSIZE)]. *)
Fixpoint uvmalloc1_loop (n : nat) (tbl start a perm : Z) (v : vm St) : res (Z * vm St) :=
  match n with
  | O => let* v := release v in Ok (1, v)
  | S n =>
      let* (m, v) := alloc_page v in
      if m =? 0 then
        let* _ := uvmdealloc1 tbl start a v in
        Panic "pmem alloc error"
      else
        let* (r, v) := mappages_internal tbl a m PGSIZE (Z.lor perm (Z.lor PTE_U PTE_D)) v in
        if negb (r =? 1) then
          let* v := free_page m v in
          let* v := uvmdealloc1 tbl start a v in
          let* v := release v in
          Ok (0, v)
        else uvmalloc1_loop n tbl start (a + PGSIZE) perm v
  end.

Definition uvmalloc1 (tbl start end_ perm : Z) (v : vm St) : res (Z * vm St) :=
  let* v := acquire v in
  let* _ := assert_ (start <? end_) "uvmalloc1:start < end" in
  let npages := u64 (PGROUNDUP end_ - start) / PGSIZE in
  let pages_one_by_one v := uvmalloc1_loop (Z.to_nat ((end_ - start + PGSIZE - 1) / PGSIZE)) tbl start start perm v in
  if 0 <? npages then
    let* (m, st) := pb_alloc (i32 npages) (al v) in
    let v := with_al v st in
    if negb (m =? 0) then
      let v := with_dm v (zero_mem m (npages * PGSIZE) (dm v)) in
      let* (r, v) := mappages_internal tbl start m (npages * PGSIZE) (Z.lor perm (Z.lor PTE_U PTE_D)) v in
      if r =? 1 then let* v := release v in Ok (1, v)
      else
        let* st := pb_free m (i32 npages) (al v) in
        pages_one_by_one (with_al v st)
    else pages_one_by_one v
  else pages_one_by_one v.

(** ** Allocation of areas *)

(** The loop of [alloc_vma]: an area that contains the range, or the one
    before which it goes. *)
Fixpoint alloc_find (fuel : nat) (head v start end_ : Z) (s : mem) : res (Z + Z) :=
  match fuel with
  | O => NoFuel
  | S fuel =>
      if v =? head then Ok (inr v)
      else
        let* x := ld v s in
        if end_ <=? a_addr (data x) then Ok (inr v)
        else if a_end (data x) <=? start then alloc_find fuel head (next x) start end_ s
        else if (a_addr (data x) <=? start) && (end_ <=? a_end (data x)) then Ok (inl v)
        else Panic "vma address overflow"
  end.

(** [vma->prev = find->prev; vma->next = find; find->prev->next = vma;
    find->prev = vma;] *)
Definition insert_before (v find_vma : Z) (s : mem) : res mem :=
  let* f := ld find_vma s in
  let* s := set_prev v (prev f) s in
  let* s := set_next v find_vma s in
  let* f := ld find_vma s in
  let* s := set_next (prev f) v s in
  set_prev find_vma v s.

(** [vma->prev = find; vma->next = find->next; find->next->prev = vma;
    find->next = vma;] *)
Definition insert_after (v find_vma : Z) (s : mem) : res mem :=
  let* s := set_prev v find_vma s in
  let* f := ld find_vma s in
  let* s := set_next v (next f) s in
  let* f := ld find_vma s in
  let* s := set_prev (next f) v s in
  set_next find_vma v s.

Definition alloc_vma (p : mproc) (type : segtype) (addr sz perm : Z) (alloc : bool) (pa : Z) (s : mem)
    : res (Z * mem) :=
  if pvma p =? 0 then Panic "alloc_vma: invalid process or VMA list"
  else
    let start := PGROUNDUP addr in
    let end_ := PGROUNDUP (u64 (addr + sz)) in
    let* h := ld (pvma p) s in
    let* r := alloc_find (ring_fuel s) (pvma p) (next h) start end_ s in
    match r with
    | inl v => Ok (v, s)
    | inr find_vma =>
        let* (v, s) := alloc_node s in
        if v =? 0 then Panic "vma alloc failed"
        else
          let* s :=
            (if negb (sz =? 0) then
               if alloc then
                 let* (r, s) := vmdo (uvmalloc1 (pagetable p) start end_ perm) s in
                 if r =? 0 then Panic "uvmalloc1 failed" else Ok s
               else if negb (pa =? 0) then
                 let* (r, s) := vmdo (mappages (pagetable p) start end_ pa perm) s in
                 if r =? -1 then Panic "mappages failed" else Ok s
               else Ok s
             else Ok s) in
          let* s := set_data v (λ a, mk_area type perm (orig_prot a) start (u64 sz) end_ (a_flags a) (-1) 0 0 1 0) s in
          let* s := insert_before v find_vma s in
          Ok (v, s)
    end.

(** The first area below [USER_MMAP_START] that is a mapping, 0 for none. *)
Fixpoint find_mmap_loop (fuel : nat) (head v : Z) (s : mem) : res Z :=
  match fuel with
  | O => NoFuel
  | S fuel =>
      if v =? head then Ok 0
      else
        let* x := ld v s in
        if (bool_decide (a_type (data x) = MMAP) || bool_decide (a_type (data x) = SHARE)) &&
           (a_addr (data x) <? USER_MMAP_START)
        then Ok v
        else find_mmap_loop fuel head (next x) s
  end.
Definition find_mmap_vma (head : Z) (s : mem) : res Z :=
  let* h := ld head s in find_mmap_loop (ring_fuel s) head (next h) s.

(** The address that [alloc_mmap_vma] takes for [start], with the heap end of
    the process and the cursor. *)
Definition choose_start (faddr start len : Z) (p : mproc) (s : mem) : Z * mproc * mem :=
  if start =? 0 then
    let heap_end := PGROUNDUP (psz p) in
    if (u64 len <? faddr) && (heap_end <? u64 (faddr - len)) then (PGROUNDDOWN (u64 (faddr - len)), p, s)
    else
      let start := map_addr s in
      let s := with_map_addr s (PGROUNDUP (u64 (map_addr s + len))) in
      if start <? heap_end then (heap_end, with_psz (PGROUNDUP (u64 (psz p + len))) p, s)
      else (start, p, s)
  else (start, p, s).

Definition alloc_mmap_vma (p : mproc) (flags start len perm fd offset : Z) (s : mem) : res (Z * mproc * mem) :=
  let* f := find_mmap_vma (pvma p) s in
  let find_vma := if f =? 0 then pvma p else f in
  let* x := ld find_vma s in
  let '(start, p, s) := choose_start (a_addr (data x)) start len p s in
  let isalloc := has flags MAP_ALLOC || (negb (fd =? -1) && truthy perm) in
  let isalloc := if has flags 0x01 then false else isalloc in
  let* (v, s) := alloc_vma p MMAP start len perm isalloc 0 s in
  if v =? 0 then Panic "alloc_mmap_vma"
  else
    let* s := set_data v (set_file fd (u64 offset)) s in
    Ok (v, p, s).

Definition vma_init (p : mproc) (s : mem) : res (Z * mproc * mem) :=
  let* (v, s) := alloc_node s in
  if v =? 0 then Panic "vma_init: pmem_alloc_pages failed"
  else
    let* s := set_prev v v s in
    let* s := set_next v v s in
    let p := with_pvma v p in
    let* (r, p, s) := alloc_mmap_vma p 0 USER_MMAP_START 0 0 0 0 s in
    if r =? 0 then Panic "init vma error!" else Ok (v, p, s).

(** [while (find_vma != p->vma && find_vma->next != p->vma)]. *)
Fixpoint last_area (fuel : nat) (head v : Z) (s : mem) : res Z :=
  match fuel with
  | O => NoFuel
  | S fuel =>
      if v =? head then Ok v
      else
        let* x := ld v s in
        if next x =? head then Ok v else last_area fuel head (next x) s
  end.

Definition alloc_vma_stack (p : mproc) (s : mem) : res (Z * mem) :=
  let end_ := USER_STACK_TOP in
  let start := end_ - USER_STACK_SIZE in
  let* h := ld (pvma p) s in
  let* find_vma := last_area (ring_fuel s) (pvma p) (next h) s in
  let* (v, s) := alloc_node s in
  if v =? 0 then Panic "vma kalloc failed"
  else
    let* (r, s) := vmdo (uvmalloc1 (pagetable p) start end_ PTE_STACK) s in
    if negb (r =? 1) then Panic "user stack vma alloc failed"
    else
      let* s := set_data v (λ a, mk_area STACK (Z.lor PTE_R PTE_W) (orig_prot a) start USER_STACK_SIZE end_ 0 (-1)
                                   (u64 (-1)) 0 (ref_count a) (shm_kernel a)) s in
      let* s := insert_after v find_vma s in
      Ok (0, s).

(** [while (vma != p->vma) { if (vma->type == STACK) break; ... }]. *)
Fixpoint find_stack (fuel : nat) (head v : Z) (s : mem) : res Z :=
  match fuel with
  | O => NoFuel
  | S fuel =>
      if v =? head then Ok v
      else
        let* x := ld v s in
        if bool_decide (a_type (data x) = STACK) then Ok v else find_stack fuel head (next x) s
  end.
Definition get_proc_sp (p : mproc) (s : mem) : res Z :=
  let* h := ld (pvma p) s in
  let* v := find_stack (ring_fuel s) (pvma p) (next h) s in
  let* x := ld v s in
  let* _ := assert_ (bool_decide (a_type (data x) = STACK)) "proc don't have stack!" in
  Ok (a_end (data x)).

End vma.
Arguments mem St Fs : clear implicits.

End VmaDefs.
