(* ===== verification/MmapDefs.v ===== *)
(** * Mappings (kernel/vma.c), definitions

    mmap, munmap, copy on write, msync, and the segments of shared memory that
    shared mappings use.  Memory barriers and TLB flushes have no effect on the
    state. *)

From S2P Require Import Prelude BuddyDefs Pmem CStringDefs VMemDefs VmaDefs.
Import Pmem VMemDefs VmaDefs.

Module MmapDefs.

Definition SIGBUS : Z := 7.
Definition SIGSEGV : Z := 11.
Definition SHM_R : Z := 256.
Definition SHM_W : Z := 128.

Section mmap.
Context {St : Type} `{PageAllocator St} `{BlockAllocator St} {Fs : Type} `{MapFiles St Fs}.
Notation mem := (mem St Fs).

(** ** Shared segments *)

Definition seg (a : Z) (s : mem) : res shmid_kernel := of_opt (segs s !! a).
Definition upd_seg (a : Z) (f : shmid_kernel → shmid_kernel) (s : mem) : res mem :=
  let* x := seg a s in Ok (with_segs s (<[a := f x]> (segs s))).

(** The first [i < SHMMNI] that satisfies [test]. *)
Fixpoint first_id (n : nat) (i : Z) (test : Z → bool) : Z :=
  match n with
  | O => -1
  | S n => if test i then i else first_id n (i + 1) test
  end.
Definition allocshmid (s : mem) : Z :=
  first_id (Z.to_nat SHMMNI) 0 (λ i, bool_decide (shm_segs s !! i = None)).
Definition findshm (key : Z) (s : mem) : Z :=
  first_id (Z.to_nat SHMMNI) 0 (λ i,
    match shm_segs s !! i ≫= λ a, segs s !! a with
    | Some x => shm_key x =? key
    | None => false
    end).

(** [slab_free] of a page that holds no slab gives it to the page allocator:
    the first word of the page is the key and the number of the segment,
    which is not the mark of a slab. *)
Definition slab_free (a : Z) (s : mem) : res mem := vmrun (free_page a) s.

Definition newseg (p : mproc) (key shmflg size : Z) (s : mem) : res (Z * mem) :=
  if negb (key =? IPC_PRIVATE) && (0 <=? findshm key s) then Ok (- EEXIST, s)
  else
    let* (shp, st) := pa_alloc (al (vms s)) in
    let s := with_vms s (with_al (vms s) st) in
    if shp =? 0 then Panic "kmalloc failed"
    else
      let sysid := allocshmid s in
      if sysid <? 0 then let* s := slab_free shp s in Ok (- ENOSPC, s)
      else
        let num_pages := Z.quot (size + PGSIZE - 1) PGSIZE in
        let blocks := u64 (num_pages * 8 + PGSIZE) / PGSIZE in
        let* (arr, st) := pb_alloc (i32 blocks) (al (vms s)) in
        let s := with_vms s (with_al (vms s) st) in
        if arr =? 0 then let* s := slab_free shp s in Ok (- ENOMEM, s)
        else
          let x := mk_shm key sysid (u64 size) shmflg 0 false arr (replicate (Z.to_nat (blocks * 512)) 0) 0
                     (euid p) (egid p) (Z.land shmflg 511) (pid p) (pid p) 0 [] in
          Ok (sysid, with_ids (with_segs s (<[shp := x]> (segs s))) (<[sysid := shp]> (shm_segs s))).

(** [do vma = vma->next; while (vma && vma != start_vma)]. *)
Fixpoint sync_loop (fuel : nat) (start v : Z) (s : mem) : res unit :=
  match fuel with
  | O => NoFuel
  | S fuel =>
      let* x := ld v s in
      if (next x =? 0) || (next x =? start) then Ok tt else sync_loop fuel start (next x) s
  end.
Definition sync_shared_memory (shp : Z) (s : mem) : res unit :=
  if shp =? 0 then Ok tt
  else
    let* x := seg shp s in
    if attaches x =? 0 then Ok tt else sync_loop (ring_fuel s) (attaches x) (attaches x) s.

Definition is_root_user (p : mproc) : bool := euid p =? 0.
(** The bits of [mode] for reading and writing, shifted to one class. *)
Definition class_grants (mode shift perm : Z) : bool :=
  let r := Z.shiftr SHM_R shift in
  let w := Z.shiftr SHM_W shift in
  ((perm =? SHM_R) && has mode r) || ((perm =? SHM_W) && has mode w) ||
  ((perm =? Z.lor SHM_R SHM_W) && (Z.land mode (Z.lor r w) =? Z.lor r w)).
Definition has_shm_permission (p : mproc) (x : option shmid_kernel) (perm : Z) : bool :=
  match x with
  | None => false
  | Some x =>
      if is_root_user p then true
      else if (euid p =? shm_uid x) && class_grants (shm_mode x) 0 perm then true
      else if (egid p =? shm_gid x) && class_grants (shm_mode x) 3 perm then true
      else class_grants (shm_mode x) 6 perm
  end.
Definition check_shm_permissions (p : mproc) (x : option shmid_kernel) (requested : Z) : Z :=
  match x with
  | None => - EINVAL
  | Some _ =>
      if has requested SHM_R && negb (has_shm_permission p x SHM_R) then - EACCES
      else if has requested SHM_W && negb (has_shm_permission p x SHM_W) then - EACCES
      else 0
  end.

(** ** munmap *)

(** [current] moves along the links until the successor is [v]. *)
Fixpoint find_pred (fuel : nat) (first current v : Z) (s : mem) : res Z :=
  match fuel with
  | O => NoFuel
  | S fuel =>
      if current =? 0 then Ok 0
      else
        let* x := ld current s in
        if next x =? v then Ok current
        else if next x =? first then Ok (next x)
        else find_pred fuel first (next x) v s
  end.

(** Takes [v] off the list of the areas of its segment. *)
Definition detach_area (shp v : Z) (s : mem) : res mem :=
  let* x := seg shp s in
  if attaches x =? 0 then Ok s
  else if attaches x =? v then upd_seg shp (set_attaches 0) s
  else
    let* c := find_pred (ring_fuel s) (attaches x) (attaches x) v s in
    if c =? 0 then Ok s
    else
      let* y := ld c s in
      if next y =? v then let* z := ld v s in set_next c (next z) s else Ok s.

Definition shared (a : area) : bool := bool_decide (a_type a = SHARE) && negb (shm_kernel a =? 0).

(** Unmaps the pages of [lo .. hi-1]. *)
Definition unmap_range (p : mproc) (lo hi : Z) (do_free : bool) (s : mem) : res mem :=
  vmrun (vmunmap (pagetable p) lo (u64 (hi - lo) / PGSIZE) do_free) s.

(** The area [v], which holds [a], lies in the range. *)
Definition munmap_whole (p : mproc) (v : Z) (a : area) (s : mem) : res mem :=
  if 1 <? ref_count a then set_data v (set_refs (ref_count a - 1)) s
  else
    let* s :=
      (if shared a then
         let* x := seg (shm_kernel a) s in
         let* s := unmap_range p (a_addr a) (a_end a) false s in
         if is_deleted x || (shm_pages x =? 0) then Ok s else detach_area (shm_kernel a) v s
       else unmap_range p (a_addr a) (a_end a) true s) in
    let* s := unlink v s in
    free_node v s.

(** [new->prev = vma->prev; new->next = vma->next; vma->prev->next = new;
    vma->next->prev = new;] *)
Definition take_place (new v : Z) (s : mem) : res mem :=
  let* x := ld v s in
  let* s := set_prev new (prev x) s in
  let* s := set_next new (next x) s in
  let* x := ld v s in
  let* s := set_next (prev x) new s in
  let* x := ld v s in
  set_prev (next x) new s.

(** The new area before the range goes where [v] was. *)
Definition munmap_front (v start : Z) (s : mem) : res mem :=
  let* (new, s) := alloc_node s in
  if new =? 0 then Panic "munmap: failed to allocate front VMA"
  else
    let* x := ld v s in
    let a := data x in
    let* s := set_data new (λ _, resized a (a_addr a) start (f_off a)) s in
    take_place new v s.

(** The new area behind the range, after the one before it if there is one. *)
Definition munmap_back (v start end_ : Z) (s : mem) : res mem :=
  let* (new, s) := alloc_node s in
  if new =? 0 then Panic "munmap: failed to allocate back VMA"
  else
    let* x := ld v s in
    let a := data x in
    let* s := set_data new (λ _, resized a end_ (a_end a) (u64 (f_off a + (end_ - a_addr a)))) s in
    if a_addr a <? start then
      let* pv := ld (prev x) s in
      let front := next pv in
      insert_after new front s
    else take_place new v s.

(** The area [v], which holds [a], reaches beyond the range. *)
Definition munmap_part (p : mproc) (v : Z) (a : area) (start end_ : Z) (s : mem) : res mem :=
  let* backup :=
    (if shared a then
       let* x := seg (shm_kernel a) s in
       Ok (negb (is_deleted x) && negb (shm_pages x =? 0))
     else Ok false) in
  let* s := unlink v s in
  let* s := (if a_addr a <? start then munmap_front v start s else Ok s) in
  let* s := (if end_ <? a_end a then munmap_back v start end_ s else Ok s) in
  let lo := Z.max (a_addr a) start in
  let hi := Z.min (a_end a) end_ in
  let* s := (if lo <? hi then unmap_range p lo hi (negb backup) s else Ok s) in
  free_node v s.

Fixpoint munmap_loop (fuel : nat) (p : mproc) (v start end_ : Z) (found : bool) (s : mem) : res (bool * mem) :=
  match fuel with
  | O => NoFuel
  | S fuel =>
      if v =? pvma p then Ok (found, s)
      else
        let* x := ld v s in
        let a := data x in
        if (start <? a_end a) && (a_addr a <=? end_) then
          let* s :=
            (if (start <=? a_addr a) && (a_end a <=? end_) then munmap_whole p v a s
             else if (a_addr a <? start) || (end_ <? a_end a) then munmap_part p v a start end_ s
             else Ok s) in
          munmap_loop fuel p (next x) start end_ true s
        else munmap_loop fuel p (next x) start end_ found s
  end.

Definition munmap (p : mproc) (start len : Z) (s : mem) : res (Z * mem) :=
  let* h := ld (pvma p) s in
  let end_ := PGROUNDDOWN (u64 (start + len)) in
  let start := PGROUNDDOWN start in
  if negb (start =? PGROUNDDOWN start) || (len <=? 0) then Ok (-1, s)
  else
    let* (found, s) := munmap_loop (ring_fuel s) p (next h) start end_ false s in
    Ok (if (found : bool) then 0 else -1, s).

(** ** mmap *)

(** The loop of [MAP_FIXED] over the areas that overlap the range. *)
Fixpoint fixed_loop (fuel : nat) (p : mproc) (v start end_ : Z) (s : mem) : res mem :=
  match fuel with
  | O => NoFuel
  | S fuel =>
      if v =? pvma p then Ok s
      else
        let* x := ld v s in
        let a := data x in
        let* s :=
          (if (start <? a_end a) && (a_addr a <? end_) then
             let lo := Z.max (a_addr a) start in
             let hi := Z.min (a_end a) end_ in
             if lo <? hi then let* (_, s) := munmap p lo (i32 (hi - lo)) s in Ok s else Ok s
           else Ok s) in
        fixed_loop fuel p (next x) start end_ s
  end.

(** Takes the permission to write from the page of a private mapping. *)
Definition protect_private (p : mproc) (v va flags prot : Z) (s : mem) : res mem :=
  if has flags MAP_PRIVATE && has prot PROT_WRITE then
    let* (r, s) := vmdo (walk (pagetable p) va false) s in
    match r with
    | None => Ok s
    | Some pte =>
        let* w := rd pte (vms s) in
        if has w PTE_V then
          let* s := vmrun (wr pte (Z.ldiff w PTE_W)) s in
          set_data v (λ a, set_flags (Z.lor (a_flags a) MAP_PRIVATE) a) s
        else Ok s
    end
  else Ok s.

(** [for (uint64 i = 0; i < len; i += PGSIZE)] over the pages of an anonymous
    mapping; the result is 0, or -1 for the error return. *)
Fixpoint anon_loop (fuel : nat) (p : mproc) (v start i len perm flags prot : Z) (s : mem) : res (Z * mem) :=
  match fuel with
  | O => NoFuel
  | S fuel =>
      if i <? len then
        let va := u64 (start + i) in
        let* (pa, s) := vmdo (experm (pagetable p) va perm) s in
        let* (r, s) :=
          (if pa =? 0 then
             let* (new_pa, s) := vmdo alloc_page s in
             if new_pa =? 0 then Ok (-1, s)
             else
               let* (r, s) := vmdo (mappages (pagetable p) va new_pa PGSIZE perm) s in
               if r <? 0 then let* s := vmrun (free_page new_pa) s in Ok (-1, s) else Ok (0, s)
           else Ok (0, s)) in
        if negb (r =? 0) then Ok (-1, s)
        else
          let* s := protect_private p v va flags prot s in
          anon_loop fuel p v start (u64 (i + PGSIZE)) len perm flags prot s
      else Ok (0, s)
  end.

Definition page_fuel (len : Z) : nat := Z.to_nat (len / PGSIZE + 2).

(** The loop that gives a shared mapping its pages. *)
Fixpoint shared_loop (fuel : nat) (p : mproc) (shp start i len perm : Z) (s : mem) : res (Z * mem) :=
  match fuel with
  | O => NoFuel
  | S fuel =>
      if i <? len then
        let* (pa, s) := vmdo alloc_page s in
        if pa =? 0 then Ok (-1, s)
        else
          let* (r, s) := vmdo (mappages (pagetable p) (u64 (start + i)) pa PGSIZE (Z.lor perm (Z.lor PTE_U PTE_R))) s in
          if r <? 0 then let* s := vmrun (free_page pa) s in Ok (-1, s)
          else
            let* x := seg shp s in
            let idx := Z.to_nat (i / PGSIZE) in
            let* _ := of_opt (pages x !! idx) in
            let* s := upd_seg shp (set_pages (<[idx := pa]> (pages x))) s in
            shared_loop fuel p shp start (u64 (i + PGSIZE)) len perm s
      else Ok (0, s)
  end.

(** The loop that fills the pages of a file mapping; [strict]: a read error
    panics (private mappings); [v] is the area, for the copy-on-write mark. *)
Fixpoint fill_loop (fuel : nat) (strict : bool) (p : mproc) (v f start i len perm flags prot : Z) (s : mem)
    : res (Z * mem) :=
  match fuel with
  | O => NoFuel
  | S fuel =>
      if i <? len then
        let va := u64 (start + i) in
        let* (pa, s) := vmdo (experm (pagetable p) va perm) s in
        let remaining := i32 (len - i) in
        let to_read := if PGSIZE <? remaining then PGSIZE else remaining in
        let* (got, s) :=
          (if 0 <? to_read then
             let* (n, x, w) := mf_read f va to_read (fs s) (vms s) in Ok (n, with_fs (with_vms s w) x)
           else Ok (0, s)) in
        if (0 <? to_read) && (got <? 0) then (if strict then Panic "bytes_read null" else Ok (-1, s))
        else
          let fill lo n s := vmrun (λ w, let* d := CStringDefs.memset (pa + lo) 0 n (dm w) in Ok (with_dm w d)) s in
          let* s := (if got <? to_read then fill got (to_read - got) s else Ok s) in
          let* s := (if to_read <? PGSIZE then fill to_read (PGSIZE - to_read) s else Ok s) in
          let* s := (if strict then protect_private p v va flags prot s else Ok s) in
          fill_loop fuel strict p v f start (u64 (i + PGSIZE)) len perm flags prot s
      else Ok (0, s)
  end.

(** [vfs_ext4_lseek(f, off, SEEK_SET)]. *)
Definition lseek (f off : Z) (s : mem) : Z * mem :=
  let '(r, x) := mf_lseek f off (fs s) in (r, with_fs s x).

(** The part of [mmap] for [MAP_SHARED]. *)
Definition mmap_shared (p : mproc) (v f start len perm flags prot fd offset : Z) (s : mem) : res (Z * mem) :=
  let* (id, s) := newseg p 0 (Z.lor IPC_CREAT 438) (i32 len) s in
  if id =? -1 then Ok (u64 (-1), s)
  else
    let* shp := (if (0 <=? id) && (id <? SHMMNI) then Ok (default 0 (shm_segs s !! id)) else Undef) in
    if shp =? 0 then Ok (u64 (-1), s)
    else
      let* s := set_data v (set_shm SHARE shp) s in
      let* s := upd_seg shp (set_attaches v) s in
      let '(r, fsz) := mf_fstat f (fs s) in
      if negb (f =? 0) && (r <? 0) then Ok (u64 r, s)
      else
        let len := if f =? 0 then len else Z.min (i32 fsz) len in
        let* s := (if f =? 0 then Ok s else set_data v (set_fsize (u64 (i32 fsz))) s) in
        let* (r, s) := shared_loop (page_fuel (u64 len)) p shp start 0 (u64 len) perm s in
        if negb (r =? 0) then Ok (u64 (-1), s)
        else
          let* _ := sync_shared_memory shp s in
          if fd =? -1 then Ok (start, s)
          else
            let '(r, fsz) := mf_fstat f (fs s) in
            if r <? 0 then Ok (u64 r, s)
            else
              let* s := set_data v (set_fsize (u64 (i32 fsz))) s in
              let orig_pos := mf_pos f (fs s) in
              let '(r, s) := lseek f offset s in
              if r <? 0 then Ok (u64 r, s)
              else
                let len := Z.min len (i32 fsz) in
                let* (r, s) := fill_loop (page_fuel (u64 len)) false p v f start 0 (u64 len) perm flags prot s in
                if negb (r =? 0) then Ok (u64 (-1), s)
                else
                  let '(_, s) := lseek f orig_pos s in
                  let* x := mf_dup f (fs s) in
                  Ok (start, with_fs s x).

(** The part for a private mapping of a file. *)
Definition mmap_file (p : mproc) (v f start len perm flags prot offset : Z) (s : mem) : res (Z * mem) :=
  let '(r, s) := lseek f offset s in
  if r <? 0 then Ok (u64 r, s)
  else
    let* _ := assert_ (negb (len =? 0)) "len is zero!" in
    let orig_pos := mf_pos f (fs s) in
    let* (_, s) := fill_loop (page_fuel (u64 len)) true p v f start 0 (u64 len) perm flags prot s in
    let '(_, s) := lseek f orig_pos s in
    let* x := mf_dup f (fs s) in
    Ok (start, with_fs s x).

(** The checks of [mmap]: 0, or the error code. *)
Definition mmap_check (p : mproc) (len flags fd : Z) (s : mem) : res Z :=
  if negb (has flags (Z.lor (Z.lor MAP_PRIVATE MAP_SHARED) MAP_SHARED_VALIDATE)) then Ok (err EINVAL)
  else if negb (has flags MAP_ANONYMOUS) && (fd <? 0) then Ok (err EBADF)
  else if len =? 0 then Ok (err EINVAL)
  else
    let* e :=
      (if negb (has flags MAP_ANONYMOUS) && negb (fd =? -1) then
         let* f := file_of p fd in
         if f =? 0 then Ok (err EBADF)
         else if has (mf_flags f (fs s)) O_WRONLY && negb (has (mf_flags f (fs s)) O_RDWR) then Ok (err EACCES)
         else if negb (mf_readable f (fs s)) then Ok (err EACCES)
         else Ok 0
       else Ok 0) in
    if negb (e =? 0) then Ok e
    else if Z.land flags (Z.lor MAP_PRIVATE MAP_SHARED) =? 0 then Ok (err EINVAL)
    else Ok 0.

Definition mmap (p : mproc) (start len prot flags fd offset : Z) (s : mem) : res (Z * mproc * mem) :=
  let fd := if has flags MAP_ANONYMOUS then -1 else fd in
  let* e := mmap_check p len flags fd s in
  if negb (e =? 0) then Ok (e, p, s)
  else
    let perm := i32 (get_mmapperms prot) in
    let* f := (if fd =? -1 then Ok 0 else file_of p fd) in
    if negb (has flags MAP_ANONYMOUS) && negb (fd =? -1) && (f =? 0) then Ok (u64 (-1), p, s)
    else
      let* s :=
        (if has flags MAP_FIXED then
           let* h := ld (pvma p) s in
           fixed_loop (ring_fuel s) p (next h) start (u64 (start + len)) s
         else Ok s) in
      let* (v, p, s) := alloc_mmap_vma p flags start len perm fd offset s in
      let* x := ld v s in
      let start := if has flags MAP_FIXED then start else a_addr (data x) in
      let* s := set_data v (set_prot prot) s in
      if prot =? PROT_NONE then Ok (start, p, s)
      else
        let* (r, s) :=
          (if has flags MAP_SHARED then mmap_shared p v f start len perm flags prot fd offset s
           else if has flags MAP_ANONYMOUS || (fd =? -1) then
             let* (r, s) := anon_loop (page_fuel (u64 len)) p v start 0 (u64 len) perm flags prot s in
             Ok (if r =? 0 then start else u64 (-1), s)
           else mmap_file p v f start len perm flags prot offset s) in
        Ok (r, p, s).

(** ** Copy on write and page faults *)

(** The area that contains [va], 0 for none. *)
Fixpoint area_at (fuel : nat) (head v va : Z) (s : mem) : res Z :=
  match fuel with
  | O => NoFuel
  | S fuel =>
      if v =? head then Ok 0
      else
        let* x := ld v s in
        if (a_addr (data x) <=? va) && (va <? a_end (data x)) then Ok v
        else area_at fuel head (next x) va s
  end.

Definition handle_cow_write (p : mproc) (va : Z) (s : mem) : res (Z * mem) :=
  let* h := ld (pvma p) s in
  let* v := area_at (ring_fuel s) (pvma p) (next h) va s in
  if v =? 0 then Ok (-1, s)
  else
    let* x := ld v s in
    if has (a_flags (data x)) MAP_PRIVATE then
      let* (r, s) := vmdo (walk (pagetable p) va false) s in
      match r with
      | None => Ok (-1, s)
      | Some pte =>
          let* w := rd pte (vms s) in
          if has w PTE_V then
            let* (new_pa, s) := vmdo alloc_page s in
            if new_pa =? 0 then Ok (-1, s)
            else
              let* d := CStringDefs.memmove new_pa (PTE2PA w) PGSIZE (dm (vms s)) in
              let s := with_vms s (with_dm (vms s) d) in
              let flags := Z.lor (PTE_FLAGS w) PTE_W in
              let* s := vmrun (wr pte (Z.lor (Z.lor (PA2PTE new_pa) flags) PTE_V)) s in
              Ok (0, s)
          else Ok (-1, s)
      end
    else Ok (-1, s).

Definition msync (p : mproc) (addr : Z) (s : mem) : res Z :=
  let* h := ld (pvma p) s in
  let* v := area_at (ring_fuel s) (pvma p) (next h) addr s in
  Ok (if v =? 0 then -1 else 0).

End mmap.

End MmapDefs.
