(* ===== verification/VmaForkDefs.v ===== *)
(** * Areas at page faults, fork, exit and brk, definitions

    [pagefault_handler] of hsai/hsai_trap.c, [vma_copy], [vma_map],
    [free_vma_list] and [free_vma] of kernel/vma.c, the loop of fork that calls
    [vma_map], the part of [freeproc] that gives the memory back, and
    [uvmdealloc] of kernel/vmem.c.  A signal that a fault sends
    to its process is part of the result. *)

From S2P Require Import Prelude BuddyDefs Pmem CStringDefs VMemDefs VmaDefs MmapDefs.
Import Pmem VMemDefs VmaDefs MmapDefs.

Module VmaForkDefs.

Section areas.
Context {St : Type} `{PageAllocator St} `{BlockAllocator St} {Fs : Type} `{MapFiles St Fs}.
Notation mem := (mem St Fs).

(** ** Page faults *)

(** The first loop of the handler: the area of [addr]; it gives up at the
    first area above [addr]. *)
Fixpoint fault_area (fuel : nat) (head v addr : Z) (s : mem) : res Z :=
  match fuel with
  | O => NoFuel
  | S fuel =>
      if v =? head then Ok 0
      else
        let* x := ld v s in
        if a_end (data x) <=? addr then fault_area fuel head (next x) addr s
        else if (a_addr (data x) <=? addr) && (addr <=? a_end (data x)) then Ok v
        else Ok 0
  end.

(** The entry that maps [va], when it is valid. *)
Definition valid_pte (p : mproc) (va : Z) (s : mem) : res (option (Z * Z) * mem) :=
  let* (r, s) := vmdo (walk (pagetable p) va false) s in
  match r with
  | None => Ok (None, s)
  | Some pte =>
      let* w := rd pte (vms s) in
      Ok (if has w PTE_V then Some (pte, w) else None, s)
  end.

(** The page of a private mapping of a file is read again. *)
Definition fault_file (p : mproc) (a : area) (f va : Z) (s : mem) : res (Z * mem) :=
  let orig_pos := mf_pos f (fs s) in
  let '(r, s) := lseek f (u64 (f_off a + (va - a_addr a))) s in
  if r <? 0 then Ok (-1, s)
  else
    let remaining := u64 (a_end a - va) in
    let to_read := if PGSIZE <? remaining then PGSIZE else remaining in
    let* (pa, s) := vmdo (walkaddr (pagetable p) va) s in
    let fill lo n s := vmrun (λ w, let* d := CStringDefs.memset (pa + lo) 0 n (dm w) in Ok (with_dm w d)) s in
    let* (got, s) :=
      (if 0 <? to_read then
         let* (n, x, w) := mf_read f va to_read (fs s) (vms s) in Ok (n, with_fs (with_vms s w) x)
       else Ok (to_read, s)) in
    if got <? 0 then
      let* s := vmrun (free_page pa) s in
      let '(_, s) := lseek f orig_pos s in
      Ok (-1, s)
    else
      let* s := (if got <? to_read then fill got (to_read - got) s else Ok s) in
      let* s := (if to_read <? PGSIZE then fill to_read (PGSIZE - to_read) s else Ok s) in
      let '(_, s) := lseek f orig_pos s in
      Ok (0, s).

(** A page of a shared segment. *)
Definition fault_shared (p : mproc) (a : area) (addr va perm : Z) (s : mem) : res (Z * list Z * mem) :=
  if fsize a <? u64 (addr - a_addr a) then Ok (-1, [SIGBUS], s)
  else
    let* x := seg (shm_kernel a) s in
    let idx := i32 (u64 (va - a_addr a) / PGSIZE) in
    if u64 (shm_size x + PGSIZE - 1) / PGSIZE <=? idx then Ok (-1, [], s)
    else
      let* w := of_opt (pages x !! Z.to_nat idx) in
      let* s :=
        (if w =? 0 then
           let* (pa, s) := vmdo alloc_page s in
           if pa =? 0 then Panic "shm pmem_alloc_pages failed"
           else upd_seg (shm_kernel a) (set_pages (<[Z.to_nat idx := pa]> (pages x))) s
         else Ok s) in
      let* (e, s) := valid_pte p va s in
      match e with
      | Some _ => Ok (0, [SIGSEGV], s)
      | None =>
          let* x := seg (shm_kernel a) s in
          let* pa := of_opt (pages x !! Z.to_nat idx) in
          let* (r, s) := vmdo (mappages (pagetable p) va pa PGSIZE perm) s in
          if r <? 0 then Panic "shm mappages failed" else Ok (0, [], s)
      end.

(** A page of zeros. *)
Definition fault_zero (p : mproc) (va : Z) (s : mem) : res (Z * mem) :=
  let* (pa, s) := vmdo alloc_page s in
  if pa =? 0 then Panic "pmem_alloc_pages failed"
  else if negb (pa mod PGSIZE =? 0) then let* s := vmrun (free_page pa) s in Ok (-1, s)
  else
    let perm := Z.lor (Z.lor (Z.lor (Z.lor (Z.lor PTE_R PTE_W) PTE_X) PTE_D) PTE_U) PTE_V in
    let* (e, s) := valid_pte p va s in
    match e with
    | Some (pte, w) => let* s := vmrun (wr pte (Z.lor w perm)) s in Ok (0, s)
    | None =>
        let* (r, s) := vmdo (mappages (pagetable p) va pa PGSIZE perm) s in
        if r <? 0 then Panic "mappages failed" else Ok (0, s)
    end.

(** Copy on write: [true] when it is done with the fault. *)
Definition fault_cow (p : mproc) (a : area) (va : Z) (s : mem) : res (bool * mem) :=
  if has (a_flags a) MAP_PRIVATE then
    let* (e, s) := valid_pte p va s in
    match e with
    | Some (_, w) =>
        if negb (has w PTE_W) then
          let* (r, s) := handle_cow_write p va s in
          Ok ((r =? 0) && (a_fd a =? -1), s)
        else Ok (false, s)
    | None => Ok (false, s)
    end
  else Ok (false, s).

(** The part of the handler for an address in the area [a]. *)
Definition fault_in (p : mproc) (a : area) (addr va : Z) (s : mem) : res (Z * list Z * mem) :=
  if orig_prot a =? PROT_NONE then Ok (- SIGSEGV, [SIGSEGV], s)
  else
    let* (finished, s) := fault_cow p a va s in
    if (finished : bool) then Ok (0, [], s)
    else
      let* f := (if has (a_flags a) MAP_PRIVATE && negb (a_fd a =? -1) then file_of p (a_fd a) else Ok 0) in
      if negb (f =? 0) then
        let* (r, s) := fault_file p a f va s in Ok (r, [], s)
      else if shared a then fault_shared p a addr va (Z.lor (a_perm a) PTE_U) s
      else
        let* (r, s) := fault_zero p va s in Ok (r, [], s).

Definition pagefault_handler (p : mproc) (addr : Z) (s : mem) : res (Z * list Z * mem) :=
  let va := PGROUNDDOWN addr in
  let* h := ld (pvma p) s in
  let* v := fault_area (ring_fuel s) (pvma p) (next h) addr s in
  if negb (v =? 0) then let* x := ld v s in fault_in p (data x) addr va s
  else if addr <=? psz p then
    let* (r, s) := fault_zero p va s in Ok (r, [], s)
  else Ok (-1, [SIGSEGV], s).

(** ** fork *)

(** Appends [v] to the ring of [head]. *)
Definition append_area (head v : Z) (s : mem) : res mem :=
  let* s := set_next v 0 s in
  let* s := set_prev v 0 s in
  insert_before v head s.

(** [while (pre != head)] of [vma_copy]; [head] is the head of the parent,
    [new] that of the child [np]. *)
Fixpoint copy_loop (fuel : nat) (np : mproc) (head new pre : Z) (s : mem) : res mem :=
  match fuel with
  | O => NoFuel
  | S fuel =>
      if pre =? head then Ok s
      else
        let* (n, s) := alloc_node s in
        if n =? 0 then Panic "vma alloc failed"
        else
          let* x := ld pre s in
          let* s := upd n (λ _, x) s in
          let a := data x in
          let* s :=
            (if bool_decide (a_type a = MMAP) && negb (a_fd a =? -1) then
               let* f := file_of np (a_fd a) in
               if f =? 0 then Ok s else let* y := mf_dup f (fs s) in Ok (with_fs s y)
             else Ok s) in
          if shared a then
            let* g := seg (shm_kernel a) s in
            if negb (shm_pages g =? 0) then
              let* s := upd_seg (shm_kernel a)
                (λ g, set_count (i32 (attach_count g + 1)) (shm_lpid g) (shm_nattch g) (shm_attach_list g) g) s in
              let* s := append_area new n s in
              copy_loop fuel np head new (next x) s
            else
              let* s := unlink n s in
              let* s := free_node n s in
              copy_loop fuel np head new pre s
          else
            let* s := append_area new n s in
            copy_loop fuel np head new (next x) s
  end.

Definition vma_copy (np : mproc) (head : Z) (s : mem) : res (Z * mproc * mem) :=
  let* (new, s) := alloc_node s in
  if new =? 0 then Panic "vma alloc failed"
  else
    let* s := set_prev new new s in
    let* s := set_next new new s in
    let np := with_pvma new np in
    let* h := ld head s in
    let* s := copy_loop (ring_fuel s) np head new (next h) s in
    Ok (new, np, s).

(** The page of the parent at [va] for the child: a copy when the page is
    writable or [copy] is set, the same frame otherwise. *)
Definition map_page (old new va : Z) (copy : bool) (v : vm St) : res (vm St) :=
  let* (r, v) := walk old va false v in
  match r with
  | None => Ok v
  | Some pte =>
      let* w := rd pte v in
      if negb (has w PTE_V) then Ok v
      else
        let* (r, v) := walk new va false v in
        let* there := (match r with None => Ok false | Some q => let* u := rd q v in Ok (has u PTE_V) end) in
        if (there : bool) then Ok v
        else
          let pa := PTE2PA w in
          let flags := PTE_FLAGS w in
          if copy || has flags PTE_W then
            let* (m, v) := alloc_page v in
            let* (m, v) :=
              (if m =? 0 then
                 let* st := pb_cleanup (al v) in
                 let* (m, v) := alloc_page (with_al v st) in
                 if m =? 0 then Panic "vma_map: pmem_alloc_pages failed after cleanup" else Ok (m, v)
               else Ok (m, v)) in
            let* d := CStringDefs.memmove m pa PGSIZE (dm v) in
            let* (r, v) := mappages new va m PGSIZE flags (with_dm v d) in
            if negb (r =? 1) then Panic "vma_map: mappages failed" else Ok v
          else
            let* (r, v) := mappages new va pa PGSIZE flags v in
            if negb (r =? 1) then Panic "vma_map: shared mappages failed" else Ok v
  end.

(** Page [i] of a shared area. *)
Definition map_shared (old new shp : Z) (a : area) (i : Z) (s : mem) : res mem :=
  let va := u64 (a_addr a + i * PGSIZE) in
  let* (r, s) := vmdo (walk new va false) s in
  let* there := (match r with None => Ok false | Some q => let* u := rd q (vms s) in Ok (has u PTE_V) end) in
  if (there : bool) then Ok s
  else
    let* x := seg shp s in
    let within := i <? i32 (u64 (shm_size x + PGSIZE - 1) / PGSIZE) in
    let* pa := (if within then of_opt (pages x !! Z.to_nat i) else Ok 0) in
    if within && negb (pa =? 0) then
      let* (r, s) := vmdo (mappages new va pa PGSIZE (Z.lor (a_perm a) PTE_U)) s in
      if negb (r =? 1) then Panic "vma_map: shared memory mapping failed" else Ok s
    else
      let* (r, s) := vmdo (walk old va false) s in
      match r with
      | None => Ok s
      | Some pte =>
          let* w := rd pte (vms s) in
          if negb (has w PTE_V) then Ok s
          else
            let* (r, s) := vmdo (mappages new va (PTE2PA w) PGSIZE (PTE_FLAGS w)) s in
            if negb (r =? 1) then Panic "vma_map: shared memory mapping failed"
            else if within then upd_seg shp (λ x, set_pages (<[Z.to_nat i := PTE2PA w]> (pages x)) x) s
            else Ok s
      end.

Definition vma_map (old new v : Z) (s : mem) : res (Z * mem) :=
  let* x := ld v s in
  let a := data x in
  if shared a then
    let* g := seg (shm_kernel a) s in
    if shm_pages g =? 0 then Ok (0, s)
    else
      let* s := for_range 0 (i32 (u64 (a_size a + PGSIZE - 1) / PGSIZE)) (map_shared old new (shm_kernel a) a) s in
      let* _ := sync_shared_memory (shm_kernel a) s in
      Ok (0, s)
  else
    let copy := bool_decide (a_type a = STACK) || (has (a_flags a) MAP_PRIVATE && has (a_perm a) PTE_W) in
    let n := (a_end a - a_addr a + PGSIZE - 1) / PGSIZE in
    let* s := vmrun (for_range 0 n (λ i, map_page old new (a_addr a + i * PGSIZE) copy)) s in
    Ok (0, s).

(** [while (nvma != np->vma)] of fork. *)
Fixpoint map_areas (fuel : nat) (old : Z) (np : mproc) (v : Z) (s : mem) : res mem :=
  match fuel with
  | O => NoFuel
  | S fuel =>
      if v =? pvma np then Ok s
      else
        let* x := ld v s in
        let* s :=
          (if negb (a_addr (data x) =? a_end (data x)) then
             let* (r, s) := vma_map old (pagetable np) v s in
             if r <? 0 then Panic "fork: vma deep mapping failed" else Ok s
           else Ok s) in
        let* x := ld v s in
        map_areas fuel old np (next x) s
  end.

(** [vma_copy] and the loop over [vma_map] in fork. *)
Definition fork_areas (p np : mproc) (s : mem) : res (mproc * mem) :=
  let* (new, np, s) := vma_copy np (pvma p) s in
  let* h := ld new s in
  let* s := map_areas (ring_fuel s) (pagetable p) np (next h) s in
  Ok (np, s).

(** ** exit and brk *)

(** Takes the first record of [addr] and [id] off a list and frees it. *)
Fixpoint drop_attach (addr id : Z) (l : list shm_attach) (s : mem) : res (list shm_attach * mem) :=
  match l with
  | [] => Ok ([], s)
  | x :: l =>
      if (at_addr x =? addr) && (at_shmid x =? id) then
        let* s := vmrun (free_page (at_ptr x)) s in Ok (l, s)
      else let* (l, s) := drop_attach addr id l s in Ok (x :: l, s)
  end.

Fixpoint free_pages (l : list Z) (s : mem) : res mem :=
  match l with
  | [] => Ok s
  | pa :: l =>
      let* s := (if pa =? 0 then Ok s else vmrun (free_page pa) s) in
      free_pages l s
  end.

(** The segment goes with its last area. *)
Definition free_segment (shp : Z) (s : mem) : res mem :=
  let* x := seg shp s in
  let* s := free_pages (at_ptr <$> shm_attach_list x) s in
  let n := i32 (u64 (shm_size x + PGSIZE - 1) / PGSIZE) in
  let* _ := (if Z.of_nat (length (pages x)) <? n then Undef else Ok tt) in
  let* s := free_pages (take (Z.to_nat n) (pages x)) s in
  let* s := vmrun (free_page (shm_pages x)) s in
  let* s := vmrun (free_page shp) s in
  Ok (with_ids (with_segs s (delete shp (segs s))) (delete (shmid x) (shm_segs s))).

(** One attachment of the segment at [shp] goes, by process [me]. *)
Definition leave_segment (me shp addr id : Z) (s : mem) : res mem :=
  let* x := seg shp s in
  let n := i32 (attach_count x - 1) in
  let* (l, s) := drop_attach addr id (shm_attach_list x) s in
  let* s := upd_seg shp (set_count n me n l) s in
  if is_deleted x && (n =? 0) then free_segment shp s else Ok s.

Definition detach_segment (p : mproc) (a : area) (s : mem) : res (mproc * mem) :=
  let shp := shm_kernel a in
  let* x := seg shp s in
  let* (l, s) := drop_attach (a_addr a) (shmid x) (shm_attaches p) s in
  let* s := leave_segment (pid p) shp (a_addr a) (shmid x) s in
  Ok (with_attaches l p, s).

(** [while (at != NULL)] of [cleanup_process_shm_refs]. *)
Fixpoint cleanup_loop (me : Z) (l : list shm_attach) (s : mem) : res mem :=
  match l with
  | [] => Ok s
  | x :: l =>
      let id := at_shmid x in
      let* s :=
        (if (0 <=? id) && (id <? SHMMNI) then
           match shm_segs s !! id with
           | Some shp => leave_segment me shp (at_addr x) id s
           | None => Ok s
           end
         else Ok s) in
      let* s := vmrun (free_page (at_ptr x)) s in
      cleanup_loop me l s
  end.
Definition cleanup_process_shm_refs (p : mproc) (s : mem) : res (mproc * mem) :=
  let* s := cleanup_loop (pid p) (shm_attaches p) s in
  Ok (with_attaches [] p, s).

Definition shm_init (s : mem) : mem := with_ids s ∅.

Definition validate_shm_refcount (shp : Z) (s : mem) : res (Z * mem) :=
  if shp =? 0 then Ok (0, s)
  else
    let* x := seg shp s in
    if (attach_count x <? 0) || (0x7FFFFFFF <? attach_count x) then Ok (0, s)
    else
      let actual := i32 (Z.of_nat (length (shm_attach_list x))) in
      if negb (actual =? attach_count x) then
        let* s := upd_seg shp (set_count actual (shm_lpid x) actual (shm_attach_list x)) s in Ok (1, s)
      else Ok (1, s).

(** The result, and owner, group, mode, size, creator, last process and count. *)
Definition get_shm_statistics (id : Z) (s : mem) : res (Z * list Z * mem) :=
  match (if (0 <=? id) && (id <? SHMMNI) then shm_segs s !! id else None) with
  | None => Ok (- EINVAL, [], s)
  | Some shp =>
      let* (_, s) := validate_shm_refcount shp s in
      let* x := seg shp s in
      Ok (0, [shm_uid x; shm_gid x; shm_mode x; shm_size x; shm_cpid x; shm_lpid x; attach_count x], s)
  end.

(** The body of the loop of [free_vma_list] over the pages of an area. *)
Definition drop_page (tbl va : Z) (keep : bool) (v : vm St) : res (vm St) :=
  let* (r, v) := walk tbl va false v in
  match r with
  | None => Ok v
  | Some pte =>
      let* w := rd pte v in
      if negb (has w PTE_V) then Ok v
      else if PTE_FLAGS w =? PTE_V then Ok v
      else
        let* v := (if keep then Ok v else free_page (PTE2PA w) v) in
        wr pte 0 v
  end.

Fixpoint free_list_loop (fuel : nat) (p : mproc) (head v : Z) (s : mem) : res (mproc * mem) :=
  match fuel with
  | O => NoFuel
  | S fuel =>
      if v =? head then let* s := free_node v s in Ok (p, s)
      else
        let* x := ld v s in
        let a := data x in
        let keep := bool_decide (a_type a = SHARE) in
        let* (p, s) :=
          (if shared a then
             let* (p, s) := detach_segment p a s in
             let* s := set_data v (set_shm (a_type a) 0) s in
             Ok (p, s)
           else Ok (p, s)) in
        let n := (a_end a - a_addr a + PGSIZE - 1) / PGSIZE in
        let* s := vmrun (for_range 0 n (λ i, drop_page (pagetable p) (a_addr a + i * PGSIZE) keep)) s in
        let* x := ld v s in
        let* y := ld (next x) s in
        let* s := free_node (prev y) s in
        free_list_loop fuel p head (next x) s
  end.

Definition free_vma_list (p : mproc) (s : mem) : res (Z * mproc * mem) :=
  if pvma p =? 0 then Ok (1, p, s)
  else
    let* h := ld (pvma p) s in
    let* (p, s) := free_list_loop (ring_fuel s) p (pvma p) (next h) s in
    Ok (1, with_pvma 0 p, s).

Definition TRAMPOLINE : Z := MAXVA - PGSIZE.
Definition TRAPFRAME : Z := TRAMPOLINE - PGSIZE.

(** [virt_addr] is the lowest address of the program. *)
Definition proc_freepagetable (p : mproc) (virt_addr sz : Z) (s : mem) : res mem :=
  let* s := vmrun (vmunmap (pagetable p) TRAMPOLINE 1 false) s in
  let* s := vmrun (vmunmap (pagetable p) TRAPFRAME 1 false) s in
  vmrun (uvmfree (pagetable p) virt_addr (u64 (sz - virt_addr))) s.

(** [if (p->pagetable)] of [freeproc]. *)
Definition free_memory (p : mproc) (virt_addr : Z) (s : mem) : res (mproc * mem) :=
  if pagetable p =? 0 then Ok (p, s)
  else
    let* (_, p, s) := free_vma_list p s in
    let* s := proc_freepagetable p virt_addr (psz p) s in
    Ok (with_pagetable 0 p, s).

(** Cuts [start .. end_-1] out of the area [v]. *)
Definition cut_left (v start : Z) (s : mem) : res mem :=
  let* (n, s) := alloc_node s in
  if n =? 0 then Panic "free_vma: pmem_alloc_pages failed"
  else
    let* x := ld v s in
    let* s := set_data n (λ _, resized (data x) (a_addr (data x)) start (f_off (data x))) s in
    insert_before n v s.

Definition cut_right (v end_ : Z) (s : mem) : res mem :=
  let* (n, s) := alloc_node s in
  if n =? 0 then Panic "free_vma: pmem_alloc_pages failed"
  else
    let* x := ld v s in
    let a := data x in
    let* s := set_data n (λ _, resized a end_ (a_end a) (u64 (f_off a + (end_ - a_addr a)))) s in
    insert_after n v s.

Fixpoint free_vma_loop (fuel : nat) (p : mproc) (v start end_ : Z) (s : mem) : res mem :=
  match fuel with
  | O => NoFuel
  | S fuel =>
      if v =? pvma p then Ok s
      else
        let* x := ld v s in
        let a := data x in
        let* s :=
          (if (start <? a_end a) && (a_addr a <? end_) then
             let* s := (if (start <=? a_addr a) && (a_end a <=? end_) then Ok s
                        else
                          let* s := (if a_addr a <? start then cut_left v start s else Ok s) in
                          if end_ <? a_end a then cut_right v end_ s else Ok s) in
             let* s := unlink v s in
             free_node v s
           else Ok s) in
        free_vma_loop fuel p (next x) start end_ s
  end.

Definition free_vma (p : mproc) (start end_ : Z) (s : mem) : res (Z * mem) :=
  if pvma p =? 0 then Ok (-1, s)
  else
    let* h := ld (pvma p) s in
    if next h =? 0 then Ok (-1, s)
    else
      let* s := free_vma_loop (ring_fuel s) p (next h) start end_ s in
      Ok (1, s).

(** [pt] is the page table, [p] the current process. *)
Definition uvmdealloc (p : mproc) (pt oldsz newsz : Z) (s : mem) : res (Z * mem) :=
  if oldsz <=? newsz then Ok (oldsz, s)
  else if PGROUNDUP newsz <? PGROUNDUP oldsz then
    let npages := i32 ((PGROUNDUP oldsz - PGROUNDUP newsz) / PGSIZE) in
    let* (_, s) := free_vma p newsz oldsz s in
    let* s := vmrun (vmunmap pt (PGROUNDUP newsz) npages true) s in
    Ok (newsz, s)
  else Ok (newsz, s).

End areas.

End VmaForkDefs.
