(* ===== verification/VmaRing.v ===== *)
(** * The ring of areas

    [ring h hd l]: the heap [h] links the areas of [l] (address and contents)
    in this order, forwards and backwards, in a ring through the head [hd].
    The operations of kernel/vma.c on the links insert and remove one area. *)

From S2P Require Import Prelude BuddyDefs Pmem CStringDefs VMemDefs VmaDefs.
Import Pmem VMemDefs VmaDefs.

Module VmaRing.

Definition nx (h : gmap Z vma) (a : Z) : option Z := next <$> h !! a.
Definition pv (h : gmap Z vma) (a : Z) : option Z := prev <$> h !! a.
Definition dt (h : gmap Z vma) (a : Z) : option area := data <$> h !! a.

Fixpoint chain (h : gmap Z vma) (c : list Z) : Prop :=
  match c with
  | a :: (b :: _) as c' => nx h a = Some b ∧ pv h b = Some a ∧ chain h c'
  | _ => True
  end.

Definition holds (h : gmap Z vma) (l : list (Z * area)) : Prop := Forall (λ x, dt h x.1 = Some x.2) l.

Record ring (h : gmap Z vma) (hd : Z) (l : list (Z * area)) : Prop := {
  r_chain : chain h (hd :: l.*1 ++ [hd]);
  r_nodup : NoDup (hd :: l.*1);
  r_data : holds h l
}.

(** The neighbours of the position between two parts of the list. *)
Definition pred_of (hd : Z) (l : list (Z * area)) : Z := default hd (last l.*1).
Definition succ_of (hd : Z) (l : list (Z * area)) : Z := default hd (head l.*1).

Lemma pred_of_eq hd l : ∃ pre, hd :: l.*1 = pre ++ [pred_of hd l].
Proof.
  unfold pred_of. destruct l as [|[v a] l _] using rev_ind; [by exists []|].
  rewrite fmap_app. change ([(v, a)].*1) with [v]. rewrite last_snoc. by exists (hd :: l.*1).
Qed.
Lemma succ_of_eq hd l : ∃ post, l.*1 ++ [hd] = succ_of hd l :: post.
Proof. unfold succ_of. destruct l as [|[v a] l]; [by exists []|by exists (l.*1 ++ [hd])]. Qed.

Lemma pred_of_in hd l : pred_of hd l ∈ hd :: l.*1.
Proof. destruct (pred_of_eq hd l) as [pre ->]. apply elem_of_app. right. by apply list_elem_of_singleton. Qed.
Lemma succ_of_in hd l : succ_of hd l ∈ hd :: l.*1.
Proof.
  destruct (succ_of_eq hd l) as [post E]. assert (Hin : succ_of hd l ∈ l.*1 ++ [hd]) by (rewrite E; left).
  apply elem_of_app in Hin as [?|?%list_elem_of_singleton]; set_solver.
Qed.

Lemma chain_split h c1 x c2 : chain h (c1 ++ x :: c2) ↔ chain h (c1 ++ [x]) ∧ chain h (x :: c2).
Proof.
  induction c1 as [|a c1 IH]; [cbn; tauto|].
  destruct c1 as [|b c1]; [cbn; tauto|]. cbn in *. rewrite IH. tauto.
Qed.

Lemma chain_step h a b c : chain h (a :: b :: c) ↔ nx h a = Some b ∧ pv h b = Some a ∧ chain h (b :: c).
Proof. done. Qed.

#[local] Arguments chain : simpl never.

Lemma chain_frame h h' x tail init z :
  x :: tail = init ++ [z] → (∀ a, a ∈ init → nx h' a = nx h a) → (∀ b, b ∈ tail → pv h' b = pv h b) →
  chain h (x :: tail) → chain h' (x :: tail).
Proof.
  revert x init. induction tail as [|y tail IH]; intros x init E Hn Hp Hc; [done|].
  destruct init as [|i init]; [by destruct tail|]. cbn in E. injection E as -> E.
  apply chain_step in Hc as (H1 & H2 & H3). apply chain_step. split_and!.
  - rewrite Hn; [done|left].
  - rewrite Hp; [done|left].
  - apply (IH y init); try done; intros; [apply Hn|apply Hp]; by right.
Qed.

(** ** Loads *)

Lemma ring_at h hd l1 v a l2 :
  ring h hd (l1 ++ (v, a) :: l2) → h !! v = Some (mk_vma a (pred_of hd l1) (succ_of hd l2)).
Proof.
  intros [Hc _ Hd]. apply Forall_app in Hd as [_ Hd]. apply Forall_cons in Hd as [Hd _]. cbn in Hd.
  destruct (pred_of_eq hd l1) as [pre E1], (succ_of_eq hd l2) as [post E2].
  rewrite fmap_app in Hc. cbn in Hc. rewrite <-app_assoc in Hc. cbn in Hc. rewrite E2 in Hc.
  rewrite app_comm_cons, E1, <-app_assoc in Hc. cbn in Hc.
  apply chain_split in Hc as [_ Hc]. apply chain_step in Hc as (_ & Hp & Hc). apply chain_step in Hc as (Hn & _).
  unfold nx, pv, dt in *. destruct (h !! v) as [x|]; cbn in *; [|done]. destruct x; cbn in *. congruence.
Qed.

(** Both neighbours of a position point to each other. *)
Lemma ring_between h hd l1 l2 :
  ring h hd (l1 ++ l2) → nx h (pred_of hd l1) = Some (succ_of hd l2) ∧ pv h (succ_of hd l2) = Some (pred_of hd l1).
Proof.
  intros [Hc _ _]. destruct (pred_of_eq hd l1) as [pre E1], (succ_of_eq hd l2) as [post E2].
  rewrite fmap_app, <-app_assoc, E2, app_comm_cons, E1, <-app_assoc in Hc. cbn in Hc.
  apply chain_split in Hc as [_ Hc]. apply chain_step in Hc as (? & ? & _). done.
Qed.

Lemma ring_hd h hd l : ring h hd l → ∃ a, h !! hd = Some (mk_vma a (pred_of hd l) (succ_of hd l)).
Proof.
  intros Hr. destruct (ring_between h hd [] l Hr) as [Hn _].
  destruct (ring_between h hd l []) as [_ Hp]; [by rewrite app_nil_r|].
  change (pred_of hd []) with hd in Hn. change (succ_of hd []) with hd in Hp.
  unfold nx, pv in *. destruct (h !! hd) as [x|]; cbn in *; [|done]. exists (data x). destruct x; cbn in *. congruence.
Qed.

Lemma ring_live h hd l v : ring h hd l → v ∈ hd :: l.*1 → is_Some (h !! v).
Proof.
  intros Hr [->|Hv]%elem_of_cons; [destruct (ring_hd _ _ _ Hr); eauto|].
  apply list_elem_of_fmap in Hv as ([w a] & -> & Hin). apply list_elem_of_split in Hin as (l1 & l2 & ->).
  cbn. rewrite (ring_at _ _ _ _ _ _ Hr). eauto.
Qed.

(** The areas of a ring are among those of the heap. *)
Lemma ring_size h hd l : ring h hd l → (length l < size h)%nat.
Proof.
  intros Hr. assert (Hs : list_to_set (C := gset Z) (hd :: l.*1) ⊆ dom h).
  { intros v Hv%elem_of_list_to_set. apply elem_of_dom. by apply (ring_live h hd l). }
  apply subseteq_size in Hs. rewrite size_list_to_set, size_dom in Hs by apply (r_nodup _ _ _ Hr).
  cbn in Hs. rewrite length_fmap in Hs. lia.
Qed.

Lemma nodup_split hd l1 (v : Z) (a : area) l2 :
  NoDup (hd :: (l1 ++ (v, a) :: l2).*1) →
  v ≠ hd ∧ (v ∉ l1.*1) ∧ (v ∉ l2.*1) ∧ NoDup (hd :: (l1 ++ l2).*1).
Proof.
  rewrite !fmap_app. cbn. intros [Hh Hn]%NoDup_cons. apply NoDup_app in Hn as (H1 & H2 & H3).
  apply NoDup_cons in H3 as [H3 H4]. apply not_elem_of_app in Hh as [Hh1 Hh2].
  apply not_elem_of_cons in Hh2 as [Hh2 Hh3]. split_and!; try done.
  - intros Hv. apply (H2 v Hv). left.
  - apply NoDup_cons. split; [by apply not_elem_of_app|]. apply NoDup_app. split_and!; try done.
    intros x Hx1 Hx2. apply (H2 x Hx1). by right.
Qed.

Lemma nodup_insert hd l1 (v : Z) (a : area) l2 :
  NoDup (hd :: (l1 ++ l2).*1) → v ∉ hd :: (l1 ++ l2).*1 → NoDup (hd :: (l1 ++ (v, a) :: l2).*1).
Proof.
  intros Hnd Hv. enough (hd :: (l1 ++ (v, a) :: l2).*1 ≡ₚ v :: hd :: (l1 ++ l2).*1) as -> by by apply NoDup_cons.
  rewrite !fmap_app. cbn. rewrite <-Permutation_middle. apply Permutation_swap.
Qed.

Lemma holds_ext h h' l : holds h l → (∀ v, v ∈ l.*1 → dt h' v = dt h v) → holds h' l.
Proof.
  intros Hh He. apply Forall_forall. intros x Hx. rewrite He; [by apply (proj1 (Forall_forall _ _) Hh)|].
  by apply list_elem_of_fmap_2.
Qed.

(** A ring only depends on the links and contents of its members. *)
Lemma ring_ext h h' hd l :
  ring h hd l → (∀ v, v ∈ hd :: l.*1 → nx h' v = nx h v ∧ pv h' v = pv h v) → (∀ v, v ∈ l.*1 → dt h' v = dt h v) →
  ring h' hd l.
Proof.
  intros [Hc Hn Hd] He Hdt. split; [|done|by apply (holds_ext h)].
  apply (chain_frame h h' hd (l.*1 ++ [hd]) (hd :: l.*1) hd); [done| | |done]; intros v Hv; [by apply He|].
  apply He. set_solver.
Qed.

(** The two halves of the chain around a position survive a change of the
    links across it. *)
Lemma chain_halves h h' hd (l1 l2 : list (Z * area)) pre post succ pred :
  NoDup (hd :: (l1 ++ l2).*1) → hd :: l1.*1 = pre ++ [pred] → l2.*1 ++ [hd] = succ :: post →
  (∀ b, b ∈ hd :: (l1 ++ l2).*1 → b ≠ pred → nx h' b = nx h b) →
  (∀ b, b ∈ hd :: (l1 ++ l2).*1 → b ≠ succ → pv h' b = pv h b) →
  (chain h (pre ++ [pred]) → chain h' (pre ++ [pred])) ∧ (chain h (succ :: post) → chain h' (succ :: post)).
Proof.
  intros Hnd E1 E2 Hn Hp.
  assert (Hnd' : NoDup ((hd :: l1.*1) ++ l2.*1)) by (by rewrite <-app_comm_cons, <-fmap_app).
  apply NoDup_app in Hnd' as (Hn1 & Hn12 & Hn2).
  assert (Hpre : ∀ b, b ∈ pre → b ≠ pred ∧ b ∈ hd :: l1.*1).
  { intros b Hb. rewrite E1 in Hn1 |- *. apply NoDup_app in Hn1 as (_ & Hx & _). split; [|by apply elem_of_app; left].
    intros ->. apply (Hx _ Hb). by apply list_elem_of_singleton. }
  assert (Hsucc : succ ∉ l1.*1).
  { intros Hin. assert (Hs : succ ∈ l2.*1 ++ [hd]) by (rewrite E2; left).
    apply elem_of_app in Hs as [Hs| ->%list_elem_of_singleton].
    - apply (Hn12 succ); [by right|done].
    - apply NoDup_cons in Hn1 as [? _]. done. }
  assert (Hpost : NoDup (succ :: post)).
  { rewrite <-E2. apply NoDup_app. split_and!; [done| |apply NoDup_singleton].
    intros x Hx ->%list_elem_of_singleton. apply (Hn12 hd); [left|done]. }
  assert (Hpred : pred ∈ hd :: l1.*1) by (rewrite E1; apply elem_of_app; right; by apply list_elem_of_singleton).
  rewrite <-E1. split.
  - apply (chain_frame h h' hd l1.*1 pre pred); [done| |].
    + intros b [Hb1 Hb2]%Hpre. apply Hn; [|done]. rewrite fmap_app, app_comm_cons. apply elem_of_app. by left.
    + intros b Hb. apply Hp; [|by intros ->]. rewrite fmap_app. right. apply elem_of_app. by left.
  - apply (chain_frame h h' succ post l2.*1 hd); [done| |].
    + intros b Hb. apply Hn; [|intros ->; by apply (Hn12 pred)].
      rewrite fmap_app. right. apply elem_of_app. by right.
    + intros b Hb. apply NoDup_cons in Hpost as [Hx _]. apply Hp; [|by intros ->].
      assert (Hb' : b ∈ l2.*1 ++ [hd]) by (rewrite E2; by right). rewrite fmap_app.
      apply elem_of_app in Hb' as [?| ->%list_elem_of_singleton]; [right; apply elem_of_app; by right|left].
Qed.

(** ** Insertion and removal *)

Lemma ring_insert h h' hd l1 l2 v a :
  ring h hd (l1 ++ l2) → v ∉ hd :: (l1 ++ l2).*1 →
  (∀ b, b ∈ v :: hd :: (l1 ++ l2).*1 →
     nx h' b = (if decide (b = v) then Some (succ_of hd l2) else if decide (b = pred_of hd l1) then Some v else nx h b)) →
  (∀ b, b ∈ v :: hd :: (l1 ++ l2).*1 →
     pv h' b = (if decide (b = v) then Some (pred_of hd l1) else if decide (b = succ_of hd l2) then Some v else pv h b)) →
  (∀ b, b ∈ (l1 ++ l2).*1 → dt h' b = dt h b) → dt h' v = Some a →
  ring h' hd (l1 ++ (v, a) :: l2).
Proof.
  intros [Hc Hnd Hd] Hv Hn Hp Hdt Hva. destruct (pred_of_eq hd l1) as [pre E1], (succ_of_eq hd l2) as [post E2].
  assert (Hin1 : pred_of hd l1 ∈ hd :: (l1 ++ l2).*1).
  { pose proof (pred_of_in hd l1). rewrite fmap_app, app_comm_cons. apply elem_of_app. by left. }
  assert (Hin2 : succ_of hd l2 ∈ hd :: (l1 ++ l2).*1).
  { pose proof (succ_of_in hd l2) as Hx. rewrite fmap_app. apply elem_of_cons in Hx as [->|]; [left|].
    right. apply elem_of_app. by right. }
  assert (Hne1 : pred_of hd l1 ≠ v) by (intros <-; done).
  assert (Hne2 : succ_of hd l2 ≠ v) by (intros <-; done).
  destruct (chain_halves h h' hd l1 l2 pre post (succ_of hd l2) (pred_of hd l1) Hnd E1 E2) as [F1 F2].
  { intros b Hb Hb'. rewrite Hn, decide_False, decide_False; try done; [intros ->; done|by right]. }
  { intros b Hb Hb'. rewrite Hp, decide_False, decide_False; try done; [intros ->; done|by right]. }
  rewrite fmap_app, <-app_assoc, E2, app_comm_cons, E1, <-app_assoc in Hc. cbn in Hc.
  apply chain_split in Hc as [C1 C2]. apply chain_step in C2 as (_ & _ & C2).
  split; [|by apply nodup_insert|].
  - rewrite fmap_app, <-app_assoc. cbn. rewrite E2, app_comm_cons, E1, <-app_assoc. cbn.
    apply chain_split. split; [by apply F1|]. apply chain_step. split_and!.
    + rewrite Hn, decide_False, decide_True; try done. by right.
    + rewrite Hp, decide_True; [done|done|left].
    + apply chain_step. split_and!; [| |by apply F2].
      * rewrite Hn, decide_True; [done|done|left].
      * rewrite Hp, decide_False, decide_True; try done. by right.
  - apply (holds_ext h h') in Hd; [|done]. apply Forall_app in Hd as [D1 D2].
    apply Forall_app. split; [done|]. by apply Forall_cons.
Qed.

Lemma ring_remove h h' hd l1 v a l2 :
  ring h hd (l1 ++ (v, a) :: l2) →
  (∀ b, b ∈ hd :: (l1 ++ l2).*1 →
     nx h' b = if decide (b = pred_of hd l1) then Some (succ_of hd l2) else nx h b) →
  (∀ b, b ∈ hd :: (l1 ++ l2).*1 →
     pv h' b = if decide (b = succ_of hd l2) then Some (pred_of hd l1) else pv h b) →
  (∀ b, b ∈ (l1 ++ l2).*1 → dt h' b = dt h b) →
  ring h' hd (l1 ++ l2).
Proof.
  intros [Hc Hnd Hd] Hn Hp Hdt. destruct (pred_of_eq hd l1) as [pre E1], (succ_of_eq hd l2) as [post E2].
  destruct (nodup_split hd l1 v a l2 Hnd) as (_ & _ & _ & Hnd').
  assert (Hin1 : pred_of hd l1 ∈ hd :: (l1 ++ l2).*1).
  { pose proof (pred_of_in hd l1). rewrite fmap_app, app_comm_cons. apply elem_of_app. by left. }
  assert (Hin2 : succ_of hd l2 ∈ hd :: (l1 ++ l2).*1).
  { pose proof (succ_of_in hd l2) as Hx. rewrite fmap_app. apply elem_of_cons in Hx as [->|]; [left|].
    right. apply elem_of_app. by right. }
  destruct (chain_halves h h' hd l1 l2 pre post (succ_of hd l2) (pred_of hd l1) Hnd' E1 E2) as [F1 F2].
  { intros b Hb Hb'. by rewrite Hn, decide_False. }
  { intros b Hb Hb'. by rewrite Hp, decide_False. }
  rewrite fmap_app, <-app_assoc in Hc. cbn in Hc. rewrite E2, app_comm_cons, E1, <-app_assoc in Hc. cbn in Hc.
  apply chain_split in Hc as [C1 C2]. apply chain_step in C2 as (_ & _ & C2). apply chain_step in C2 as (_ & _ & C2).
  split; [|done|].
  - rewrite fmap_app, <-app_assoc, E2, app_comm_cons, E1, <-app_assoc. cbn. apply chain_split. split; [by apply F1|].
    apply chain_step. split_and!; [by rewrite Hn, decide_True|by rewrite Hp, decide_True|by apply F2].
  - apply (holds_ext h h'); [|done]. apply Forall_app in Hd as [D1 D2]. apply Forall_cons in D2 as [_ D2].
    by apply Forall_app.
Qed.

(** ** The stores of the C code *)

Definition up_next (a v : Z) (h : gmap Z vma) : gmap Z vma := alter (λ x, mk_vma (data x) (prev x) v) a h.
Definition up_prev (a v : Z) (h : gmap Z vma) : gmap Z vma := alter (λ x, mk_vma (data x) v (next x)) a h.
Definition up_data (a : Z) (f : area → area) (h : gmap Z vma) : gmap Z vma :=
  alter (λ x, mk_vma (f (data x)) (prev x) (next x)) a h.

Section stores.
Implicit Types (h : gmap Z vma).

Lemma nx_up_next h a v b : is_Some (h !! a) → nx (up_next a v h) b = if decide (b = a) then Some v else nx h b.
Proof.
  intros [x Hx]. unfold nx, up_next. case_decide as E; [subst; by rewrite lookup_alter_eq, Hx|].
  by rewrite lookup_alter_ne by done.
Qed.
Lemma pv_up_prev h a v b : is_Some (h !! a) → pv (up_prev a v h) b = if decide (b = a) then Some v else pv h b.
Proof.
  intros [x Hx]. unfold pv, up_prev. case_decide as E; [subst; by rewrite lookup_alter_eq, Hx|].
  by rewrite lookup_alter_ne by done.
Qed.
Lemma dt_up_data h a f b x : dt h a = Some x → dt (up_data a f h) b = if decide (b = a) then Some (f x) else dt h b.
Proof.
  unfold dt, up_data. intros Hx. case_decide as E.
  - subst. rewrite lookup_alter_eq. destruct (h !! a); cbn in *; congruence.
  - by rewrite lookup_alter_ne by done.
Qed.

Lemma alter_same {A} (g : vma → A) f h a b :
  (∀ x, g (f x) = g x) → g <$> alter f a h !! b = g <$> h !! b.
Proof.
  intros Hg. destruct (decide (b = a)) as [->|Hne]; [|by rewrite lookup_alter_ne by done].
  rewrite lookup_alter_eq. destruct (h !! a); cbn; [by rewrite Hg|done].
Qed.
Lemma nx_up_prev h a v b : nx (up_prev a v h) b = nx h b.
Proof. by apply alter_same. Qed.
Lemma nx_up_data h a f b : nx (up_data a f h) b = nx h b.
Proof. by apply alter_same. Qed.
Lemma pv_up_next h a v b : pv (up_next a v h) b = pv h b.
Proof. by apply alter_same. Qed.
Lemma pv_up_data h a f b : pv (up_data a f h) b = pv h b.
Proof. by apply alter_same. Qed.
Lemma dt_up_next h a v b : dt (up_next a v h) b = dt h b.
Proof. by apply alter_same. Qed.
Lemma dt_up_prev h a v b : dt (up_prev a v h) b = dt h b.
Proof. by apply alter_same. Qed.

Lemma live_alter f h a b : is_Some (alter f a h !! b) ↔ is_Some (h !! b).
Proof. apply lookup_alter_is_Some. Qed.
Lemma live_up_next h a v b : is_Some (up_next a v h !! b) ↔ is_Some (h !! b).
Proof. apply live_alter. Qed.
Lemma live_up_prev h a v b : is_Some (up_prev a v h !! b) ↔ is_Some (h !! b).
Proof. apply live_alter. Qed.
Lemma live_up_data h a f b : is_Some (up_data a f h !! b) ↔ is_Some (h !! b).
Proof. apply live_alter. Qed.

Lemma same_node h h' b : nx h' b = nx h b → pv h' b = pv h b → dt h' b = dt h b → h' !! b = h !! b.
Proof.
  unfold nx, pv, dt. destruct (h' !! b) as [[]|], (h !! b) as [[]|]; cbn; intros; simplify_eq; done.
Qed.
Lemma node_eq h b a p n : dt h b = Some a → pv h b = Some p → nx h b = Some n → h !! b = Some (mk_vma a p n).
Proof. unfold nx, pv, dt. destruct (h !! b) as [[]|]; cbn; intros; simplify_eq; done. Qed.

(** The members of [c] apart the heap is the same, and no area comes or goes. *)
Definition outside (h h' : gmap Z vma) (c : list Z) : Prop :=
  (∀ b, b ∉ c → h' !! b = h !! b) ∧ dom h' = dom h.

Lemma outside_trans h1 h2 h3 c : outside h1 h2 c → outside h2 h3 c → outside h1 h3 c.
Proof. intros [A1 A2] [B1 B2]. split; [|congruence]. intros b Hb. rewrite B1, A1; done. Qed.
Lemma outside_alter f h a c : a ∈ c → outside h (alter f a h) c.
Proof. intros Ha. split; [|apply dom_alter_L]. intros b Hb. apply lookup_alter_ne. intros ->. done. Qed.
Lemma outside_mono h h' c c' : outside h h' c → (∀ b, b ∈ c → b ∈ c') → outside h h' c'.
Proof. intros [A1 A2] Hs. split; [|done]. intros b Hb. apply A1. intros Hc. by apply Hb, Hs. Qed.

(** A ring none of whose areas changes. *)
Lemma ring_same h h' hd l : ring h hd l → (∀ b, b ∈ hd :: l.*1 → h' !! b = h !! b) → ring h' hd l.
Proof.
  intros Hr Hs. apply (ring_ext h); try done; intros v Hv; unfold nx, pv, dt; rewrite Hs; try done. by right.
Qed.
End stores.

Create Rewrite HintDb links.
#[export] Hint Rewrite nx_up_prev nx_up_data pv_up_next pv_up_data dt_up_next dt_up_prev : links.

(** The members of a ring on both sides of a position. *)
Lemma around hd (l1 l2 : list (Z * area)) b :
  b = pred_of hd l1 ∨ b = succ_of hd l2 → b ∈ hd :: (l1 ++ l2).*1.
Proof.
  rewrite fmap_app. intros [->| ->].
  - pose proof (pred_of_in hd l1). rewrite app_comm_cons. apply elem_of_app. by left.
  - pose proof (succ_of_in hd l2) as Hx. apply elem_of_cons in Hx as [->|]; [left|]. right. apply elem_of_app. by right.
Qed.

(** Names the neighbours of a position: they are live and linked. *)
Tactic Notation "neighbours" constr(hd) constr(l1) constr(l2) constr(Hr) ident(P) ident(S) :=
  destruct (ring_between _ _ _ _ Hr) as [B1 B2];
  set (P := pred_of hd l1) in *; set (S := succ_of hd l2) in *;
  assert (HP : P ∈ hd :: (l1 ++ l2).*1) by (apply around; by left);
  assert (HS : S ∈ hd :: (l1 ++ l2).*1) by (apply around; by right);
  pose proof (ring_live _ _ _ _ Hr HP) as LP; pose proof (ring_live _ _ _ _ Hr HS) as LS.

Section ops.
Context {St : Type} `{PageAllocator St} `{BlockAllocator St} {Fs : Type} `{MapFiles St Fs}.
Implicit Types (s : mem St Fs).

Lemma alter_insert (f : vma → vma) (h : gmap Z vma) a x : h !! a = Some x → <[a := f x]> h = alter f a h.
Proof.
  intros Hx. apply map_eq. intros b. destruct (decide (b = a)) as [->|Hne].
  - by rewrite lookup_insert_eq, lookup_alter_eq, Hx.
  - by rewrite lookup_insert_ne, lookup_alter_ne by done.
Qed.
Lemma ld_ok s a x : vmas s !! a = Some x → ld a s = Ok x.
Proof. intros Hx. unfold ld. by rewrite Hx. Qed.
Lemma store_next_ok s a v : is_Some (vmas s !! a) → set_next a v s = Ok (with_vmas s (up_next a v (vmas s))).
Proof. intros [x Hx]. unfold set_next, upd, up_next. rewrite (ld_ok s a x Hx). cbn [bind]. by rewrite <-(alter_insert _ _ a x Hx). Qed.
Lemma store_prev_ok s a v : is_Some (vmas s !! a) → set_prev a v s = Ok (with_vmas s (up_prev a v (vmas s))).
Proof. intros [x Hx]. unfold set_prev, upd, up_prev. rewrite (ld_ok s a x Hx). cbn [bind]. by rewrite <-(alter_insert _ _ a x Hx). Qed.
Lemma store_data_ok s a f : is_Some (vmas s !! a) → set_data a f s = Ok (with_vmas s (up_data a f (vmas s))).
Proof. intros [x Hx]. unfold set_data, upd, up_data. rewrite (ld_ok s a x Hx). cbn [bind]. by rewrite <-(alter_insert _ _ a x Hx). Qed.

Lemma unlink_ok s hd l1 v a l2 :
  ring (vmas s) hd (l1 ++ (v, a) :: l2) →
  ∃ h', unlink v s = Ok (with_vmas s h') ∧ ring h' hd (l1 ++ l2) ∧ outside (vmas s) h' (hd :: (l1 ++ l2).*1) ∧
    h' !! v = Some (mk_vma a (pred_of hd l1) (succ_of hd l2)).
Proof.
  intros Hr. pose proof (ring_at _ _ _ _ _ _ Hr) as Hv. destruct (nodup_split _ _ _ _ _ (r_nodup _ _ _ Hr)) as (N1 & N2 & N3 & N4).
  set (P := pred_of hd l1) in *. set (S := succ_of hd l2) in *.
  assert (HP : P ∈ hd :: (l1 ++ l2).*1) by (apply around; by left).
  assert (HS : S ∈ hd :: (l1 ++ l2).*1) by (apply around; by right).
  assert (Hvn : v ∉ hd :: (l1 ++ l2).*1).
  { rewrite fmap_app. intros [?|[?|?]%elem_of_app]%elem_of_cons; done. }
  assert (Hmem : ∀ b, b ∈ hd :: (l1 ++ l2).*1 → is_Some (vmas s !! b)).
  { intros b Hb. apply (ring_live _ _ _ _ Hr). rewrite fmap_app in *. cbn. set_solver. }
  assert (HPv : P ≠ v) by (intros E; by rewrite E in HP). assert (HSv : S ≠ v) by (intros E; by rewrite E in HS).
  exists (up_prev S P (up_next P S (vmas s))). split_and!.
  - unfold unlink. rewrite (ld_ok s v _ Hv). cbn [bind prev next].
    rewrite store_next_ok by by apply Hmem. cbn [bind].
    rewrite (ld_ok _ v (mk_vma a P S)); [|cbn; unfold up_next; by rewrite lookup_alter_ne].
    cbn [bind prev next]. by rewrite store_prev_ok by (cbn; apply live_up_next, Hmem, HS).
  - apply (ring_remove (vmas s) _ hd l1 v a l2 Hr); intros b Hb; autorewrite with links.
    + by rewrite nx_up_next by by apply Hmem.
    + rewrite pv_up_prev by (apply live_up_next, Hmem, HS). by rewrite pv_up_next.
    + done.
  - eapply outside_trans; by apply outside_alter.
  - unfold up_prev, up_next. by rewrite !lookup_alter_ne by done.
Qed.

(** Any order of the four stores puts [v] between two parts of a ring. *)
Lemma link_in h h' hd l1 l2 v a :
  ring h hd (l1 ++ l2) → v ∉ hd :: (l1 ++ l2).*1 → dt h v = Some a →
  (∀ b, nx h' b = if decide (b = v) then Some (succ_of hd l2) else if decide (b = pred_of hd l1) then Some v else nx h b) →
  (∀ b, pv h' b = if decide (b = v) then Some (pred_of hd l1) else if decide (b = succ_of hd l2) then Some v else pv h b) →
  (∀ b, dt h' b = dt h b) →
  ring h' hd (l1 ++ (v, a) :: l2) ∧ outside h h' (v :: hd :: (l1 ++ l2).*1).
Proof.
  intros Hr Hv Ha Hn Hp Hd. split.
  - apply (ring_insert h h'); intros; rewrite ?Hd; done.
  - assert (Ho : ∀ b, b ∉ v :: hd :: (l1 ++ l2).*1 → h' !! b = h !! b).
    { intros b Hb. assert (b ≠ v) by (intros ->; apply Hb; left).
      assert (b ≠ pred_of hd l1) by (intros ->; apply Hb; right; apply around; by left).
      assert (b ≠ succ_of hd l2) by (intros ->; apply Hb; right; apply around; by right).
      apply same_node; [rewrite Hn|rewrite Hp|apply Hd]; by rewrite !decide_False. }
    split; [done|]. apply set_eq. intros b. rewrite !elem_of_dom. specialize (Hd b). unfold dt in Hd.
    destruct (h' !! b), (h !! b); cbn in Hd; try done.
Qed.

Lemma live_dt (h : gmap Z vma) v a : dt h v = Some a → is_Some (h !! v).
Proof. unfold dt. destruct (h !! v); [eauto|done]. Qed.

Lemma insert_before_ok s hd l1 l2 v a :
  ring (vmas s) hd (l1 ++ l2) → v ∉ hd :: (l1 ++ l2).*1 → dt (vmas s) v = Some a →
  ∃ h', insert_before v (succ_of hd l2) s = Ok (with_vmas s h') ∧ ring h' hd (l1 ++ (v, a) :: l2) ∧
    outside (vmas s) h' (v :: hd :: (l1 ++ l2).*1).
Proof.
  intros Hr Hv Ha. neighbours hd l1 l2 Hr P S. pose proof (live_dt _ _ _ Ha) as Lv.
  assert (HPv : P ≠ v) by (intros E; by rewrite E in HP). assert (HSv : S ≠ v) by (intros E; by rewrite E in HS).
  exists (up_prev S v (up_next P v (up_next v S (up_prev v P (vmas s))))). split.
  - unfold insert_before. destruct LS as [x Hx]. rewrite (ld_ok s S x Hx). cbn [bind].
    assert (prev x = P) as -> by (unfold pv in B2; rewrite Hx in B2; by injection B2).
    rewrite store_prev_ok by done. cbn [bind]. rewrite store_next_ok by (cbn; by apply live_up_prev). cbn [bind].
    rewrite (ld_ok _ S x); [|cbn; unfold up_next, up_prev; by rewrite !lookup_alter_ne]. cbn [bind].
    assert (prev x = P) as -> by (unfold pv in B2; rewrite Hx in B2; by injection B2).
    rewrite store_next_ok by (cbn; by apply live_up_next, live_up_prev). cbn [bind].
    by rewrite store_prev_ok by (cbn; apply live_up_next, live_up_next, live_up_prev; eauto).
  - apply link_in; try done; intros b; fold P S; autorewrite with links; [| |done].
    + rewrite !nx_up_next by (rewrite ?live_up_next, ?live_up_prev; done). autorewrite with links.
      repeat case_decide; congruence.
    + rewrite pv_up_prev by (rewrite ?live_up_next, ?live_up_prev; done). autorewrite with links.
      rewrite pv_up_prev by done. repeat case_decide; congruence.
Qed.

Lemma insert_after_ok s hd l1 l2 v a :
  ring (vmas s) hd (l1 ++ l2) → v ∉ hd :: (l1 ++ l2).*1 → dt (vmas s) v = Some a →
  ∃ h', insert_after v (pred_of hd l1) s = Ok (with_vmas s h') ∧ ring h' hd (l1 ++ (v, a) :: l2) ∧
    outside (vmas s) h' (v :: hd :: (l1 ++ l2).*1).
Proof.
  intros Hr Hv Ha. neighbours hd l1 l2 Hr P S. pose proof (live_dt _ _ _ Ha) as Lv.
  assert (HPv : P ≠ v) by (intros E; by rewrite E in HP). assert (HSv : S ≠ v) by (intros E; by rewrite E in HS).
  exists (up_next P v (up_prev S v (up_next v S (up_prev v P (vmas s))))). split.
  - unfold insert_after. rewrite store_prev_ok by done. cbn [bind]. destruct (LP) as [x Hx].
    assert (E : next x = S) by (unfold nx in B1; rewrite Hx in B1; by injection B1).
    rewrite (ld_ok _ P x); [|cbn; unfold up_prev; by rewrite lookup_alter_ne]. cbn [bind]. rewrite E.
    rewrite store_next_ok by (cbn; by apply live_up_prev). cbn [bind].
    rewrite (ld_ok _ P x); [|cbn; unfold up_next, up_prev; by rewrite !lookup_alter_ne]. cbn [bind]. rewrite E.
    rewrite store_prev_ok by (cbn; by apply live_up_next, live_up_prev). cbn [bind].
    by rewrite store_next_ok by (cbn; by apply live_up_prev, live_up_next, live_up_prev).
  - apply link_in; try done; intros b; fold P S; autorewrite with links; [| |done].
    + rewrite nx_up_next by (rewrite ?live_up_prev, ?live_up_next, ?live_up_prev; done). autorewrite with links.
      rewrite nx_up_next by (rewrite ?live_up_prev; done). autorewrite with links.
      repeat case_decide; congruence.
    + rewrite pv_up_prev by (rewrite ?live_up_next, ?live_up_prev; done). autorewrite with links.
      rewrite pv_up_prev by done. repeat case_decide; congruence.
Qed.
End ops.

End VmaRing.
