(* ===== verification/VmaInv.v ===== *)
(** * Memory areas: the invariant

    [areas_in p s l]: the areas of process [p] are those of [l], in a ring of
    pages that the allocator has handed out for this purpose only, next to the
    page tables of the process.  [held] are the pages handed out for anything
    but areas.  [swept]: how a state is related to one where the pages of a set
    have been unmapped and their frames freed. *)

From S2P Require Import Prelude BuddyDefs Pmem CStringDefs VMemDefs VMem VMemSpec VmaDefs MmapDefs VmaRing.
Import Pmem VMemDefs VMem VMemSpec VmaDefs MmapDefs VmaRing.

Module VmaInv.

Section inv.
Context {St : Type} `{PageAllocator St} `{!PageAllocatorLaws St} `{BlockAllocator St} {Fs : Type} `{MapFiles St Fs}.
Implicit Types (s : mem St Fs) (p : mproc) (l : list (Z * area)).

(** An area in user space, not of a shared segment. *)
Record area_ok (a : area) : Prop := {
  ao_le : 0 ≤ a_addr a ≤ a_end a;
  ao_max : a_end a ≤ MAXVA;
  ao_lo : a_addr a mod PGSIZE = 0;
  ao_hi : a_end a mod PGSIZE = 0;
  ao_private : shared a = false
}.

Record areas_in p s l : Prop := {
  w_space : space (vms s) (pagetable p);
  w_lock : vmem_lock (vms s) = false;
  w_ring : ring (vmas s) (pvma p) l;
  w_nodes : ∀ v, is_Some (vmas s !! v) → v ≠ 0 ∧ pa_owned (al (vms s)) v;
  w_tables : ∀ q a, path q → table_at (pt (vms s)) (pagetable p) q = Some a → vmas s !! a = None;
  w_areas : Forall area_ok l.*2
}.

Definition held s (b : Z) : Prop := pa_owned (al (vms s)) b ∧ vmas s !! b = None.

Lemma areas_null p s l : areas_in p s l → pvma p ≠ 0.
Proof. intros Hw. apply (w_nodes _ _ _ Hw), (ring_live _ _ _ _ (w_ring _ _ _ Hw)). left. Qed.

Lemma with_vmas_vmas s h h' : with_vmas (with_vmas s h) h' = with_vmas s h'.
Proof. done. Qed.

(** Changing the links: the set of areas stays. *)
Lemma areas_links p s l h l' :
  areas_in p s l → ring h (pvma p) l' → dom h = dom (vmas s) → Forall area_ok l'.*2 →
  areas_in p (with_vmas s h) l' ∧ ∀ b, held (with_vmas s h) b ↔ held s b.
Proof.
  intros [W1 W2 W3 W4 W5 W6] Hr Hd Ho.
  assert (E : ∀ b, vmas s !! b = None ↔ h !! b = None) by (intros b; by rewrite <-!not_elem_of_dom, Hd).
  split.
  - split; try done; cbn.
    + intros v Hv. apply W4. destruct (vmas s !! v) eqn:Ev; [eauto|]. apply E in Ev. rewrite Ev in Hv. by destruct Hv.
    + intros q a Hq Ha. apply E. by apply (W5 q).
  - intros b. unfold held. cbn. by rewrite E.
Qed.

(** ** A new area, an area given back *)

Lemma alloc_node_ok p s l n :
  areas_in p s l → pa_avail (al (vms s)) (S n) →
  ∃ v s', alloc_node s = Ok (v, s') ∧ v ≠ 0 ∧ vmas s !! v = None ∧ ¬ pa_owned (al (vms s)) v ∧
    vmas s' = <[v := mk_vma blank 0 0]> (vmas s) ∧ areas_in p s' l ∧ pa_avail (al (vms s')) n ∧
    (∀ b, held s' b ↔ held s b) ∧ pt (vms s') = pt (vms s) ∧ dm (vms s') = dm (vms s) ∧
    (∀ b, pa_owned (al (vms s')) b ↔ b = v ∨ pa_owned (al (vms s)) b) ∧
    segs s' = segs s ∧ fs s' = fs s ∧ shm_segs s' = shm_segs s ∧ map_addr s' = map_addr s.
Proof.
  intros [W1 W2 W3 W4 W5 W6] Hav. unfold alloc_node.
  destruct (pa_alloc_ok (al (vms s)) n (sp_inv _ _ W1) Hav) as (v & st & -> & Hi & Hav' & Hb & _ & Hno & Hown).
  cbn [bind]. rewrite (proj2 (Z.eqb_neq v 0)) by lia.
  assert (Hv : vmas s !! v = None).
  { destruct (vmas s !! v) eqn:E; [|done]. destruct Hno. apply W4. eauto. }
  eexists v, _. split; [reflexivity|]. cbn [vms vmas with_vmas with_vms al pt dm with_al segs fs shm_segs map_addr].
  split_and!; try done; [lia| |].
  - split; cbn [vms vmas with_vmas with_vms al pt dm vmem_lock with_al]; try done.
    + split; cbn [al pt dm vmem_lock with_al]; [done| |apply (sp_inj _ _ W1)].
      intros q a Hq Ha. destruct (sp_table _ _ W1 q a Hq Ha) as [Ht Ho]. split; [done|]. apply Hown. by right.
    + apply (ring_same (vmas s)); [done|]. intros b Hb'. apply lookup_insert_ne. intros <-.
      destruct (ring_live _ _ _ _ W3 Hb'). congruence.
    + intros b. rewrite lookup_insert_is_Some'. intros [<-|Hb']; [split; [lia|apply Hown; by left]|].
      split; [by apply W4|]. apply Hown. right. by apply W4.
    + intros q a Hq Ha. rewrite lookup_insert_ne; [by apply (W5 q)|]. intros <-.
      apply Hno. by apply (sp_table _ _ W1 q).
  - intros b. unfold held. cbn. rewrite Hown. split.
    + intros [Ho Hn]. apply lookup_insert_None in Hn as [Hn Hne]. destruct Ho as [->|]; [done|]. done.
    + intros [Ho Hn]. split; [by right|]. apply lookup_insert_None. split; [done|]. intros <-. done.
Qed.

Lemma free_node_ok p s l v :
  areas_in p s l → is_Some (vmas s !! v) → v ∉ pvma p :: l.*1 →
  ∃ s', free_node v s = Ok s' ∧ vmas s' = delete v (vmas s) ∧ areas_in p s' l ∧
    (∀ n, pa_avail (al (vms s)) n → pa_avail (al (vms s')) (S n)) ∧
    (∀ b, held s' b ↔ held s b) ∧ pt (vms s') = pt (vms s) ∧ dm (vms s') = dm (vms s) ∧
    ¬ pa_owned (al (vms s')) v ∧
    segs s' = segs s ∧ fs s' = fs s ∧ shm_segs s' = shm_segs s ∧ map_addr s' = map_addr s.
Proof.
  intros [W1 W2 W3 W4 W5 W6] Hv Hout. unfold free_node. destruct (W4 v Hv) as [Hv0 Ho].
  destruct (pa_free_ok (al (vms s)) v (sp_inv _ _ W1) Ho) as (st & E & Hi & F1 & F2 & F3). rewrite E. cbn [bind].
  eexists. split; [reflexivity|]. cbn [vms vmas with_vmas with_vms al pt dm with_al segs fs shm_segs map_addr].
  split_and!; try done.
  - split; cbn [vms vmas with_vmas with_vms al pt dm vmem_lock with_al]; try done.
    + apply (space_free _ _ v); try done. intros q Hq Hx. apply W5 in Hx; [|done]. destruct Hv. congruence.
    + apply (ring_same (vmas s)); [done|]. intros b Hb. apply lookup_delete_ne. by intros <-.
    + intros b [x Hb]. apply lookup_delete_Some in Hb as [Hne Hb]. destruct (W4 b) as [? Hob]; [eauto|].
      split; [done|]. by destruct (F2 b Hob) as [->|].
    + intros q a Hq Ha. apply lookup_delete_None. right. by apply (W5 q).
  - intros n. exact (pa_free_avail (al (vms s)) v st n (sp_inv _ _ W1) Ho E).
  - intros b. unfold held. cbn. rewrite lookup_delete_None. split.
    + intros [Hob [->|Hn]]; [done|]. split; [by apply F1|done].
    + intros [Hob Hn]. destruct (F2 b Hob) as [->|]; [destruct Hv; congruence|]. split; [done|by right].
Qed.

(** ** Unmapping pages of the areas *)

Definition pr s p (i : Z) : bool := present (vms s) (pagetable p) i.
Definition fr s p (i : Z) : Z := frame (vms s) (pagetable p) i.

(** The mapped pages of [X] are leaves whose frames are single pages handed
    out for this purpose and mapped once. *)
Record frames_ok p s (X : Z → Prop) : Prop := {
  f_leaf : ∀ i, X i → pr s p i = true → PTE_FLAGS (pte_at (pt (vms s)) (pagetable p) (i * 4096)) ≠ PTE_V;
  f_own : ∀ i, X i → pr s p i = true → fr s p i ≠ 0 ∧ held s (fr s p i) ∧
    ∀ q, path q → table_at (pt (vms s)) (pagetable p) q ≠ Some (fr s p i);
  f_once : ∀ i j, X i → X j → pr s p i = true → pr s p j = true → fr s p i = fr s p j → i = j
}.

Record swept p s s' (X : Z → Prop) : Prop := {
  sw_dm : dm (vms s') = dm (vms s);
  sw_gone : ∀ va, 0 ≤ va < MAXVA → X (va / 4096) → has (pte_at (pt (vms s')) (pagetable p) va) PTE_V = false;
  sw_keep : ∀ va, 0 ≤ va < MAXVA → ¬ X (va / 4096) →
    pte_at (pt (vms s')) (pagetable p) va = pte_at (pt (vms s)) (pagetable p) va;
  sw_tables : ∀ q, path q → table_at (pt (vms s')) (pagetable p) q = table_at (pt (vms s)) (pagetable p) q;
  sw_held : ∀ b, held s' b ↔ held s b ∧ ¬ ∃ i, X i ∧ pr s p i = true ∧ b = fr s p i;
  sw_words : zeroed (pt (vms s)) (pt (vms s')) (pagetable p);
  sw_globals : segs s' = segs s ∧ fs s' = fs s ∧ shm_segs s' = shm_segs s ∧ map_addr s' = map_addr s
}.

Definition in_user (X : Z → Prop) : Prop := ∀ i, X i → 0 ≤ i < 2 ^ 26.

Lemma page_addr i : 0 ≤ i < 2 ^ 26 → 0 ≤ i * 4096 < MAXVA ∧ i * 4096 / 4096 = i.
Proof. intros Hi. rewrite Z.div_mul by lia. unfold MAXVA. lia. Qed.

Lemma swept_page p s s' X i :
  swept p s s' X → 0 ≤ i < 2 ^ 26 → ¬ X i →
  pte_at (pt (vms s')) (pagetable p) (i * 4096) = pte_at (pt (vms s)) (pagetable p) (i * 4096) ∧
  pr s' p i = pr s p i ∧ fr s' p i = fr s p i.
Proof.
  intros Hs Hi Hx. destruct (page_addr i Hi) as [Ha Hd]. unfold pr, fr, present, frame.
  rewrite (sw_keep _ _ _ _ Hs); [done..|by rewrite Hd].
Qed.
Lemma swept_absent p s s' X i : swept p s s' X → 0 ≤ i < 2 ^ 26 → X i → pr s' p i = false.
Proof. intros Hs Hi Hx. destruct (page_addr i Hi) as [Ha Hd]. apply (sw_gone _ _ _ _ Hs); [done|by rewrite Hd]. Qed.

Lemma swept_refl p s : swept p s s (λ _, False).
Proof. split; try done; [|apply zeroed_refl]. intros b. split; [|by intros []]. intros Hb. split; [done|]. by intros (i & [] & _). Qed.

Lemma swept_ext p s s' (X Y : Z → Prop) : (∀ i, X i ↔ Y i) → swept p s s' X → swept p s s' Y.
Proof.
  intros E [A1 A2 A3 A4 A5 A6 A7]. split; try done.
  - intros va Hva Hy. apply A2; [done|]. by apply E.
  - intros va Hva Hy. apply A3; [done|]. by rewrite E.
  - intros b. rewrite A5. by setoid_rewrite E.
Qed.

Lemma swept_trans p s1 s2 s3 X Y :
  in_user X → in_user Y → (∀ i, X i → Y i → False) → swept p s1 s2 X → swept p s2 s3 Y →
  swept p s1 s3 (λ i, X i ∨ Y i).
Proof.
  intros UX UY Hdis A B. pose proof A as [A1 A2 A3 A4 A5 A6 A7]. pose proof B as [B1 B2 B3 B4 B5 B6 B7].
  split; [congruence| | |by intros; rewrite B4, A4| |by apply (zeroed_trans _ (pt (vms s2)))|].
  - intros va Hva [Hx|Hy]; [|by apply B2]. rewrite B3; [by apply A2|done|]. intros Hy. by apply (Hdis (va / 4096)).
  - intros va Hva Hn. rewrite B3, A3; try done; intros ?; apply Hn; [by left|by right].
  - intros b. rewrite B5, A5. assert (E : ∀ i, Y i → pr s2 p i = pr s1 p i ∧ fr s2 p i = fr s1 p i).
    { intros i Hy. destruct (swept_page p s1 s2 X i A) as (_ & -> & ->); [by apply UY| |done]. intros Hx. by apply (Hdis i). }
    split.
    + intros [[Hh W1] W2]. split; [done|]. intros (i & [Hx|Hy] & Hp & ->); [apply W1; eauto|].
      apply W2. exists i. destruct (E i Hy) as [-> ->]. done.
    + intros [Hh W1]. split; [split; [done|]|].
      * intros (i & Hx & Hp & ->). apply W1. eauto.
      * intros (i & Hy & Hp & ->). destruct (E i Hy) as [Ep Ef]. apply W1. exists i. rewrite <-Ep, <-Ef. eauto.
  - intuition congruence.
Qed.

(** What is left of the condition on the frames. *)
Lemma frames_swept p s s' X Y :
  in_user Y → (∀ i, X i → Y i → False) → swept p s s' X → frames_ok p s (λ i, X i ∨ Y i) → frames_ok p s' Y.
Proof.
  intros UY Hdis Hs [F1 F2 F3].
  assert (E : ∀ i, Y i → pte_at (pt (vms s')) (pagetable p) (i * 4096) = pte_at (pt (vms s)) (pagetable p) (i * 4096) ∧
                pr s' p i = pr s p i ∧ fr s' p i = fr s p i).
  { intros i Hy. apply (swept_page p s s' X i Hs); [by apply UY|]. intros Hx. by apply (Hdis i). }
  split.
  - intros i Hy. destruct (E i Hy) as (-> & -> & _). apply F1. by right.
  - intros i Hy. destruct (E i Hy) as (_ & Ep & Ef). rewrite Ep, Ef. intros Hp.
    destruct (F2 i (or_intror Hy) Hp) as (G1 & G2 & G3). split_and!; [done| |].
    + apply (sw_held _ _ _ _ Hs). split; [done|]. intros (j & Hx & Hpj & Ej).
      apply (Hdis j); [done|]. replace j with i; [done|]. apply F3; [by right|by left|done|done|done].
    + intros q Hq. rewrite (sw_tables _ _ _ _ Hs) by done. by apply G3.
  - intros i j Hi Hj. destruct (E i Hi) as (_ & -> & ->), (E j Hj) as (_ & -> & ->). apply F3; by right.
Qed.

Lemma frames_sub p s (X Y : Z → Prop) : (∀ i, Y i → X i) → frames_ok p s X → frames_ok p s Y.
Proof. intros Hs [F1 F2 F3]. split; eauto. Qed.

(** What unmapping pages of the page table means for the whole state. *)
Lemma frames_unmappable p s lo hi :
  frames_ok p s (λ i, lo ≤ i < hi) → unmappable (vms s) (pagetable p) lo (hi - lo) true.
Proof.
  intros [F1 F2 F3]. split.
  - intros i Hi. apply F1. lia.
  - intros i Hi Hp _. destruct (F2 i ltac:(lia) Hp) as (G1 & [G2 _] & G3). done.
  - intros i j Hi Hj Hpi Hpj _. apply F3; try done; lia.
Qed.

Lemma unmapped_swept p s w lo hi :
  frames_ok p s (λ i, lo ≤ i < hi) → unmapped (vms s) w (pagetable p) lo (hi - lo) true →
  swept p s (with_vms s w) (λ i, lo ≤ i < hi) ∧
  ∀ v, is_Some (vmas s !! v) → pa_owned (al (vms s)) v → pa_owned (al w) v.
Proof.
  intros [F1 F2 F3] [U1 U2 U3 U4 U5 U6 U7 U8 U9]. replace (lo + (hi - lo)) with hi in * by lia. split.
  - split; cbn [vms vmas with_vms]; try done.
    intros b. unfold held. cbn [vms vmas with_vms]. rewrite U4. split.
    + intros [[Ho Hn] Hv]. split; [done|]. intros (i & Hi & Hp & ->). apply Hn. eauto.
    + intros [[Ho Hv] Hn]. split; [|done]. split; [done|]. intros (_ & i & Hi & Hp & ->). apply Hn. eauto.
  - intros v Hv Ho. apply U4. split; [done|]. intros (_ & i & Hi & Hp & ->).
    destruct (F2 i Hi Hp) as (_ & [_ Hx] & _). unfold fr in Hx. rewrite Hx in Hv. by destruct Hv.
Qed.

Lemma unmap_range_ok p s l lo hi :
  areas_in p s l → 0 ≤ lo ≤ hi → hi ≤ MAXVA → lo mod PGSIZE = 0 → hi mod PGSIZE = 0 →
  frames_ok p s (λ i, lo / 4096 ≤ i < hi / 4096) →
  ∃ s', unmap_range p lo hi true s = Ok s' ∧ areas_in p s' l ∧ vmas s' = vmas s ∧
    swept p s s' (λ i, lo / 4096 ≤ i < hi / 4096) ∧ ∀ n, pa_avail (al (vms s)) n → pa_avail (al (vms s')) n.
Proof.
  intros Hw Hlo Hhi Ml Mh Hf. pose proof Hw as [W1 W2 W3 W4 W5 W6]. unfold PGSIZE, MAXVA in *.
  pose proof (Z.div_mod lo 4096 ltac:(lia)) as Dl. pose proof (Z.div_mod hi 4096 ltac:(lia)) as Dh.
  assert (Hd : (hi - lo) / 4096 = hi / 4096 - lo / 4096) by (symmetry; apply Z.div_unique with 0; lia).
  assert (El : lo = lo / 4096 * 4096) by lia.
  unfold unmap_range, vmrun, PGSIZE. rewrite u64_small, Hd by lia. replace (vmunmap (pagetable p) lo) with (vmunmap (pagetable p) (lo / 4096 * 4096)) by by rewrite <-El.
  destruct (vmunmap_ok (vms s) (pagetable p) (lo / 4096) (hi / 4096 - lo / 4096) true) as (w & -> & Hu);
    try done; try lia; [by apply frames_unmappable|].
  destruct (unmapped_swept p s w _ _ Hf Hu) as [Hsw Hn]. destruct Hu as [U1 U2 U3 U4 U5 U6 U7 U8 U9].
  cbn [bind]. eexists. split; [reflexivity|]. split_and!; [|done|done|done].
  split; cbn [vms vmas with_vms]; try done; [congruence| |].
  - intros v Hv. destruct (W4 v Hv) as [? Ho]. split; [done|]. by apply Hn.
  - intros q a Hq. rewrite U7 by done. by apply W5.
Qed.

End inv.
End VmaInv.
