(* ===== verification/VmaUnmap.v ===== *)
(** * munmap on the areas of a process

    [cut start end a] are the areas that munmap of [start .. end-1] leaves of
    an area [a].  The loop of munmap replaces every area by what is left of it
    and unmaps the pages in between. *)

From Stdlib Require Import Sorted.
From S2P Require Import Prelude BuddyDefs Pmem CStringDefs VMemDefs VMem VMemSpec VmaDefs MmapDefs VmaRing VmaInv.
Import Pmem VMemDefs VMem VMemSpec VmaDefs MmapDefs VmaRing VmaInv.

Module VmaUnmap.

(** The test of the loop, and the areas that go. *)
Definition hit (start end_ : Z) (a : area) : bool := (start <? a_end a) && (a_addr a <=? end_).
Definition within (start end_ : Z) (a : area) : bool := (start <=? a_addr a) && (a_end a <=? end_).

Definition front (start : Z) (a : area) : list area :=
  if a_addr a <? start then [resized a (a_addr a) start (f_off a)] else [].
Definition back (end_ : Z) (a : area) : list area :=
  if end_ <? a_end a then [resized a end_ (a_end a) (u64 (f_off a + (end_ - a_addr a)))] else [].
Definition cut (start end_ : Z) (a : area) : list area :=
  if hit start end_ a then
    if within start end_ a then if 1 <? ref_count a then [set_refs (ref_count a - 1) a] else []
    else front start a ++ back end_ a
  else [a].

(** The pages of [a] that are unmapped. *)
Definition goes (start end_ : Z) (a : area) (i : Z) : Prop :=
  start / 4096 ≤ i < end_ / 4096 ∧ a_addr a / 4096 ≤ i < a_end a / 4096 ∧
  ¬ (within start end_ a = true ∧ 1 < ref_count a).

(** Areas in order. *)
Definition before (a b : area) : Prop := a_end a ≤ a_addr b.
Abbreviation sorted := (StronglySorted before).

Section unmap.
Context {St : Type} `{PageAllocator St} `{!PageAllocatorLaws St} `{BlockAllocator St} {Fs : Type} `{MapFiles St Fs}.
Implicit Types (s : mem St Fs) (p : mproc) (l : list (Z * area)).

(** A new area takes the place that [v] had. *)
Lemma take_place_ok s hd l1 l2 v new a b :
  ring (vmas s) hd (l1 ++ l2) → vmas s !! v = Some (mk_vma a (pred_of hd l1) (succ_of hd l2)) →
  v ∉ hd :: (l1 ++ l2).*1 → new ∉ v :: hd :: (l1 ++ l2).*1 → dt (vmas s) new = Some b →
  ∃ h', take_place new v s = Ok (with_vmas s h') ∧ ring h' hd (l1 ++ (new, b) :: l2) ∧
    outside (vmas s) h' (new :: hd :: (l1 ++ l2).*1).
Proof.
  intros Hr Hv Hvn Hnew Ha. apply not_elem_of_cons in Hnew as [Hnv Hnew]. pose proof (live_dt _ _ _ Ha) as Ln.
  neighbours hd l1 l2 Hr P S.
  assert (HPn : P ≠ new) by (intros E; by rewrite E in HP). assert (HSn : S ≠ new) by (intros E; by rewrite E in HS).
  assert (HPv : P ≠ v) by (intros E; by rewrite E in HP). assert (HSv : S ≠ v) by (intros E; by rewrite E in HS).
  exists (up_prev S new (up_next P new (up_next new S (up_prev new P (vmas s))))). split.
  - unfold take_place. rewrite (ld_ok s v _ Hv). cbn [bind prev next]. rewrite store_prev_ok by done. cbn [bind].
    rewrite store_next_ok by (cbn; by apply live_up_prev). cbn [bind].
    rewrite (ld_ok _ v (mk_vma a P S)); [|cbn; unfold up_next, up_prev; by rewrite !lookup_alter_ne].
    cbn [bind prev next]. rewrite store_next_ok by (cbn; by apply live_up_next, live_up_prev). cbn [bind].
    rewrite (ld_ok _ v (mk_vma a P S)); [|cbn; unfold up_next, up_prev; by rewrite !lookup_alter_ne].
    cbn [bind prev next]. by rewrite store_prev_ok by (cbn; by apply live_up_next, live_up_next, live_up_prev).
  - apply link_in; try done; intros x; fold P S; autorewrite with links; [| |done].
    + rewrite !nx_up_next by (rewrite ?live_up_next, ?live_up_prev; done). autorewrite with links.
      repeat case_decide; congruence.
    + rewrite pv_up_prev by (rewrite ?live_up_next, ?live_up_prev; done). autorewrite with links.
      rewrite pv_up_prev by done. repeat case_decide; congruence.
Qed.

(** What the steps on links and areas have in common: no page is unmapped. *)
Definition quiet p s s' : Prop := swept p s s' (λ _, False).

Lemma quiet_of p s s' :
  pt (vms s') = pt (vms s) → dm (vms s') = dm (vms s) → (∀ b, held s' b ↔ held s b) →
  segs s' = segs s ∧ fs s' = fs s ∧ shm_segs s' = shm_segs s ∧ map_addr s' = map_addr s → quiet p s s'.
Proof.
  intros Hp Hd Hh Hg. split; try done; [by rewrite Hp|by rewrite Hp| |rewrite Hp; apply zeroed_refl].
  intros b. rewrite Hh. split; [|by intros []]. intros ?. split; [done|]. by intros (i & [] & _).
Qed.
Lemma quiet_step p s1 s2 s3 : quiet p s1 s2 → quiet p s2 s3 → quiet p s1 s3.
Proof.
  intros A B. apply (swept_ext p s1 s3 (λ i, False ∨ False)); [tauto|].
  by apply (swept_trans p s1 s2 s3); [intros ? []|intros ? []|intros ? []| |].
Qed.
Lemma quiet_swept p s1 s2 s3 X : in_user X → quiet p s1 s2 → swept p s2 s3 X → swept p s1 s3 X.
Proof.
  intros Hu A B. apply (swept_ext p s1 s3 (λ i, False ∨ X i)); [tauto|].
  by apply (swept_trans p s1 s2 s3); [intros ? []| |intros ? []| |].
Qed.
Lemma swept_quiet p s1 s2 s3 X : in_user X → swept p s1 s2 X → quiet p s2 s3 → swept p s1 s3 X.
Proof.
  intros Hu A B. apply (swept_ext p s1 s3 (λ i, X i ∨ False)); [tauto|].
  by apply (swept_trans p s1 s2 s3); [|intros ? []|intros ? ? []| |].
Qed.

(** A new area [new] with contents [b], linked in by [op]. *)
Lemma new_area p s l n :
  areas_in p s l → pa_avail (al (vms s)) (S n) →
  ∃ new s1, alloc_node s = Ok (new, s1) ∧ new ≠ 0 ∧ vmas s !! new = None ∧
    vmas s1 = <[new := mk_vma blank 0 0]> (vmas s) ∧ areas_in p s1 l ∧ pa_avail (al (vms s1)) n ∧ quiet p s s1 ∧
    (∀ x, pa_owned (al (vms s)) x → pa_owned (al (vms s1)) x) ∧
    ∀ (b : area), let s2 := with_vmas s1 (up_data new (λ _, b) (vmas s1)) in
      set_data new (λ _, b) s1 = Ok s2 ∧ areas_in p s2 l ∧ dt (vmas s2) new = Some b ∧ quiet p s s2 ∧
      (∀ x, x ≠ new → vmas s2 !! x = vmas s !! x) ∧ pa_avail (al (vms s2)) n.
Proof.
  intros Hw Hav. destruct (alloc_node_ok p s l n Hw Hav)
    as (new & s1 & Hop & Hn0 & Hnone & _ & Hvm & Hw1 & Hav1 & Hh1 & Hpt & Hdm & Hown & Hg).
  assert (Q : quiet p s s1) by by apply quiet_of.
  exists new, s1. split_and!; try done; [intros x Hx; apply Hown; by right|]. intros b s2.
  assert (Hnew : vmas s1 !! new = Some (mk_vma blank 0 0)) by (rewrite Hvm; apply lookup_insert_eq).
  assert (Hnot : new ∉ pvma p :: l.*1).
  { intros Hin. destruct (ring_live _ _ _ _ (w_ring _ _ _ Hw) Hin). congruence. }
  destruct (areas_links p s1 l (up_data new (λ _, b) (vmas s1)) l Hw1) as [Hw2 Hh2].
  - apply (ring_same (vmas s1)); [apply Hw1|]. intros x Hx. apply lookup_alter_ne. by intros <-.
  - apply dom_alter_L.
  - apply Hw1.
  - split_and!; try done.
    + apply store_data_ok. eauto.
    + cbn [vmas with_vmas s2]. rewrite (dt_up_data _ _ _ _ blank); [by rewrite decide_True|]. unfold dt. by rewrite Hnew.
    + apply (quiet_step p s s1); [done|]. by apply quiet_of.
    + intros x Hx. cbn [vmas with_vmas s2]. unfold up_data. rewrite lookup_alter_ne by done. rewrite Hvm.
      by apply lookup_insert_ne.
Qed.

(** The part of the state that a step on the links may not touch. *)
Lemma links_done p s l h l' :
  areas_in p s l → ring h (pvma p) l' → dom h = dom (vmas s) → Forall area_ok l'.*2 →
  areas_in p (with_vmas s h) l' ∧ quiet p s (with_vmas s h).
Proof.
  intros Hw Hr Hd Ha. destruct (areas_links p s l h l' Hw Hr Hd Ha) as [Hw' Hh]. split; [done|]. by apply quiet_of.
Qed.

Lemma fresh_node p s l v : areas_in p s l → vmas s !! v = None → v ∉ pvma p :: l.*1.
Proof. intros Hw Hv Hin. destruct (ring_live _ _ _ _ (w_ring _ _ _ Hw) Hin). congruence. Qed.

Lemma munmap_front_ok p s l1 l2 v a start n :
  areas_in p s (l1 ++ l2) → vmas s !! v = Some (mk_vma a (pred_of (pvma p) l1) (succ_of (pvma p) l2)) →
  v ∉ pvma p :: (l1 ++ l2).*1 → area_ok (resized a (a_addr a) start (f_off a)) → pa_avail (al (vms s)) (S n) →
  ∃ new s', munmap_front v start s = Ok s' ∧ areas_in p s' (l1 ++ (new, resized a (a_addr a) start (f_off a)) :: l2) ∧
    vmas s' !! v = vmas s !! v ∧ v ≠ new ∧ quiet p s s' ∧ pa_avail (al (vms s')) n.
Proof.
  intros Hw Hv Hvn Hok Hav.
  destruct (new_area p s _ n Hw Hav) as (new & s1 & Hop & Hn0 & Hnone & Hvm & Hw1 & _ & _ & _ & Hset).
  set (b := resized a (a_addr a) start (f_off a)) in *. destruct (Hset b) as (Hs2 & Hw2 & Hb & Q2 & Hx & Hav2).
  set (s2 := with_vmas s1 _) in *. assert (Hne : v ≠ new) by (intros ->; congruence).
  destruct (take_place_ok s2 (pvma p) l1 l2 v new a b) as (h & Htp & Hr & Ho & Hdom); try done.
  { apply Hw2. }
  { by rewrite Hx. }
  { apply not_elem_of_cons. split; [done|]. by apply (fresh_node p s). }
  destruct (links_done p s2 _ h _ Hw2 Hr Hdom) as [Hw3 Q3].
  { pose proof (w_areas _ _ _ Hw) as Ha. rewrite fmap_app in *. apply Forall_app in Ha as [A1 A2].
    apply Forall_app. split; [done|]. by apply Forall_cons. }
  exists new, (with_vmas s2 h). split_and!; try done.
  - unfold munmap_front. rewrite Hop. cbn [bind]. rewrite (proj2 (Z.eqb_neq _ _)) by done.
    rewrite (ld_ok s1 v (mk_vma a (pred_of (pvma p) l1) (succ_of (pvma p) l2))) by by rewrite Hvm, lookup_insert_ne.
    cbn [bind data]. fold b. rewrite Hs2. cbn [bind]. exact Htp.
  - cbn [vmas with_vmas]. rewrite Ho; [by rewrite Hx|]. apply not_elem_of_cons. done.
  - by apply (quiet_step p s s2).
Qed.

(** [f] is the area before the range, when there is one. *)
Lemma munmap_back_ok p s l1 lf l2 v a start end_ n :
  areas_in p s (l1 ++ lf ++ l2) → vmas s !! v = Some (mk_vma a (pred_of (pvma p) l1) (succ_of (pvma p) l2)) →
  v ∉ pvma p :: (l1 ++ lf ++ l2).*1 → (if a_addr a <? start then ∃ f, lf = [f] else lf = []) →
  area_ok (resized a end_ (a_end a) (u64 (f_off a + (end_ - a_addr a)))) → pa_avail (al (vms s)) (S n) →
  ∃ new s', munmap_back v start end_ s = Ok s' ∧
    areas_in p s' (l1 ++ lf ++ (new, resized a end_ (a_end a) (u64 (f_off a + (end_ - a_addr a)))) :: l2) ∧
    vmas s' !! v = vmas s !! v ∧ v ≠ new ∧ quiet p s s' ∧ pa_avail (al (vms s')) n.
Proof.
  intros Hw Hv Hvn Hlf Hok Hav. rewrite (app_assoc l1 lf l2) in Hw, Hvn.
  destruct (new_area p s _ n Hw Hav) as (new & s1 & Hop & Hn0 & Hnone & Hvm & Hw1 & _ & _ & _ & Hset).
  set (b := resized a end_ (a_end a) _) in *. destruct (Hset b) as (Hs2 & Hw2 & Hb & Q2 & Hx & Hav2).
  set (s2 := with_vmas s1 _) in *. assert (Hne : v ≠ new) by (intros ->; congruence).
  assert (Hnew : new ∉ pvma p :: ((l1 ++ lf) ++ l2).*1) by by apply (fresh_node p s).
  set (go := (if a_addr a <? start then let* pv := ld (pred_of (pvma p) l1) s2 in insert_after new (next pv) s2
              else take_place new v s2)).
  assert (Hgo : ∃ h, go = Ok (with_vmas s2 h) ∧ ring h (pvma p) ((l1 ++ lf) ++ (new, b) :: l2) ∧
            outside (vmas s2) h (new :: pvma p :: ((l1 ++ lf) ++ l2).*1)).
  { unfold go. destruct (a_addr a <? start).
    - destruct Hlf as [[f c] ->]. pose proof (w_ring _ _ _ Hw2) as Hr2. rewrite <-app_assoc in Hr2.
      destruct (ring_between _ _ _ _ Hr2) as [B1 _]. unfold nx in B1.
      destruct (vmas s2 !! pred_of (pvma p) l1) as [x|] eqn:Ex; [|done]. cbn in B1. injection B1 as B1.
      rewrite (ld_ok s2 _ x Ex). cbn [bind]. rewrite B1. change (succ_of (pvma p) ([(f, c)] ++ l2)) with f.
      destruct (insert_after_ok s2 (pvma p) (l1 ++ [(f, c)]) l2 new b) as (h & Hia & Hr & Ho); try done; [apply Hw2|].
      assert (E : pred_of (pvma p) (l1 ++ [(f, c)]) = f).
      { unfold pred_of. rewrite fmap_app. change ([(f, c)].*1) with [f]. by rewrite last_snoc. }
      rewrite E in Hia. eauto.
    - subst lf. rewrite app_nil_r in *.
      destruct (take_place_ok s2 (pvma p) l1 l2 v new a b) as (h & Htp & Hr & Ho); try done.
      + apply Hw2.
      + by rewrite Hx.
      + by apply not_elem_of_cons.
      + eauto. }
  destruct Hgo as (h & Hgo & Hr & Ho & Hdom).
  destruct (links_done p s2 _ h _ Hw2 Hr Hdom) as [Hw3 Q3].
  { pose proof (w_areas _ _ _ Hw) as Ha. rewrite fmap_app in *. apply Forall_app in Ha as [A1 A2].
    apply Forall_app. split; [done|]. by apply Forall_cons. }
  exists new, (with_vmas s2 h). split_and!; try done.
  - unfold munmap_back. rewrite Hop. cbn [bind]. rewrite (proj2 (Z.eqb_neq _ _)) by done.
    rewrite (ld_ok s1 v (mk_vma a (pred_of (pvma p) l1) (succ_of (pvma p) l2))) by by rewrite Hvm, lookup_insert_ne.
    cbn [bind data prev]. fold b. rewrite Hs2. cbn [bind]. exact Hgo.
  - by rewrite app_assoc.
  - cbn [vmas with_vmas]. rewrite Ho; [by rewrite Hx|]. apply not_elem_of_cons. done.
  - by apply (quiet_step p s s2).
Qed.

(** ** One area *)

(** A range of pages. *)
Record range_ok (start end_ : Z) : Prop := {
  ro_le : 0 ≤ start ≤ end_;
  ro_lo : start mod PGSIZE = 0;
  ro_hi : end_ mod PGSIZE = 0
}.

Lemma div_pages x y : x mod PGSIZE = 0 → y mod PGSIZE = 0 → (x / 4096 < y / 4096 ↔ x < y) ∧ (x / 4096 ≤ y / 4096 ↔ x ≤ y).
Proof.
  unfold PGSIZE. intros Hx Hy. pose proof (Z.div_mod x 4096 ltac:(lia)). pose proof (Z.div_mod y 4096 ltac:(lia)). lia.
Qed.

Lemma front_ok start end_ a :
  range_ok start end_ → area_ok a → hit start end_ a = true → Forall area_ok (front start a).
Proof.
  intros [Hr1 Hr2 Hr3] [A1 A2 A3 A4 A5] Hh. unfold front. destruct (Z.ltb_spec (a_addr a) start); [|done].
  unfold hit in Hh. apply andb_true_iff in Hh as [Hh1%Z.ltb_lt _].
  apply Forall_singleton. split; cbn; try done; lia.
Qed.
Lemma back_ok start end_ a :
  range_ok start end_ → area_ok a → hit start end_ a = true → Forall area_ok (back end_ a).
Proof.
  intros [Hr1 Hr2 Hr3] [A1 A2 A3 A4 A5] Hh. unfold back. destruct (Z.ltb_spec end_ (a_end a)); [|done].
  unfold hit in Hh. apply andb_true_iff in Hh as [_ Hh1%Z.leb_le].
  apply Forall_singleton. split; cbn; try done; lia.
Qed.

Lemma goes_user start end_ a : area_ok a → in_user (goes start end_ a).
Proof.
  intros [A1 A2 A3 A4 A5] i (_ & Hi & _). unfold MAXVA in A2.
  pose proof (Z.div_pos (a_addr a) 4096 ltac:(lia) ltac:(lia)).
  pose proof (Z.div_le_mono (a_end a) (2 ^ 38) 4096 ltac:(lia) ltac:(lia)). change (2 ^ 38 / 4096) with (2 ^ 26) in *. lia.
Qed.

(** The pages that go are those between two bounds. *)
Lemma goes_part start end_ a i :
  range_ok start end_ → area_ok a → within start end_ a = false →
  goes start end_ a i ↔ Z.max (a_addr a) start / 4096 ≤ i < Z.min (a_end a) end_ / 4096.
Proof.
  intros [Hr1 Hr2 Hr3] [A1 A2 A3 A4 A5] Hw. unfold goes. rewrite Hw.
  destruct (div_pages (a_addr a) start A3 Hr2) as [_ D1], (div_pages start (a_addr a) Hr2 A3) as [_ D2].
  destruct (div_pages (a_end a) end_ A4 Hr3) as [_ D3], (div_pages end_ (a_end a) Hr3 A4) as [_ D4].
  destruct (Z.max_spec (a_addr a) start) as [[? ->]|[? ->]], (Z.min_spec (a_end a) end_) as [[? ->]|[? ->]];
    intuition (try lia; try discriminate).
Qed.
Lemma goes_whole start end_ a i :
  range_ok start end_ → area_ok a → within start end_ a = true → ref_count a ≤ 1 →
  goes start end_ a i ↔ a_addr a / 4096 ≤ i < a_end a / 4096.
Proof.
  intros [Hr1 Hr2 Hr3] [A1 A2 A3 A4 A5] Hw Hrc. unfold goes.
  unfold within in Hw. apply andb_true_iff in Hw as [W1%Z.leb_le W2%Z.leb_le].
  destruct (div_pages start (a_addr a) Hr2 A3) as [_ D2], (div_pages (a_end a) end_ A4 Hr3) as [_ D3].
  intuition lia.
Qed.

Lemma area_pieces l1 l2 (lm : list (Z * area)) (v : Z) (a : area) :
  Forall area_ok (l1 ++ (v, a) :: l2).*2 → Forall area_ok lm.*2 → Forall area_ok (l1 ++ lm ++ l2).*2.
Proof.
  rewrite !fmap_app. cbn. intros [A1 A2]%Forall_app B. apply Forall_cons in A2 as [_ A2].
  by apply Forall_app_2; [|apply Forall_app_2].
Qed.

(** The state between the removal of [v] and its release: [lm] is in its place. *)
Record pending p s l1 lm l2 (v : Z) (a : area) : Prop := {
  pe_areas : areas_in p s (l1 ++ lm ++ l2);
  pe_node : vmas s !! v = Some (mk_vma a (pred_of (pvma p) l1) (succ_of (pvma p) l2));
  pe_out : v ∉ pvma p :: (l1 ++ lm ++ l2).*1
}.

Lemma area_of p s l1 v a l2 : areas_in p s (l1 ++ (v, a) :: l2) → area_ok a.
Proof.
  intros Hw. pose proof (w_areas _ _ _ Hw) as Hx. rewrite fmap_app in Hx. apply Forall_app in Hx as [_ Hx].
  by apply Forall_cons in Hx as [? _].
Qed.

Lemma part_unlink p s l1 v a l2 :
  areas_in p s (l1 ++ (v, a) :: l2) →
  ∃ s', unlink v s = Ok s' ∧ pending p s' l1 [] l2 v a ∧ quiet p s s' ∧ al (vms s') = al (vms s).
Proof.
  intros Hw. pose proof (w_ring _ _ _ Hw) as Hring.
  destruct (nodup_split _ _ _ _ _ (r_nodup _ _ _ Hring)) as (N1 & N2 & N3 & _).
  destruct (unlink_ok s (pvma p) l1 v a l2 Hring) as (h1 & Hul & Hr1 & [_ Hd1] & Hv1).
  destruct (links_done p s _ h1 (l1 ++ l2) Hw Hr1 Hd1) as [Hw1 Q1].
  { apply (area_pieces l1 l2 [] v a); [apply Hw|constructor]. }
  exists (with_vmas s h1). split_and!; try done. split; try done.
  rewrite !fmap_app. cbn. intros [?|[?|?]%elem_of_app]%elem_of_cons; done.
Qed.

Lemma part_front p s l1 l2 v a start end_ n :
  pending p s l1 [] l2 v a → area_ok a → range_ok start end_ → hit start end_ a = true → pa_avail (al (vms s)) (S n) →
  ∃ lf s', (if a_addr a <? start then munmap_front v start s else Ok s) = Ok s' ∧ pending p s' l1 lf l2 v a ∧
    lf.*2 = front start a ∧ (if a_addr a <? start then ∃ f, lf = [f] else lf = []) ∧ quiet p s s' ∧
    pa_avail (al (vms s')) n.
Proof.
  intros [P1 P2 P3] Ha Hr Hh Hav. pose proof (front_ok start end_ a Hr Ha Hh) as Hok. unfold front in *.
  destruct (a_addr a <? start).
  - apply Forall_cons in Hok as [Hok _].
    destruct (munmap_front_ok p s l1 l2 v a start n P1 P2 P3 Hok Hav) as (f & s2 & Hop & Hw2 & Hv2 & Hne & Q & Hav2).
    exists [(f, resized a (a_addr a) start (f_off a))], s2. split_and!; try done; [|eauto].
    split; [done|by rewrite Hv2|]. cbn in *. rewrite !fmap_app in *. cbn. set_solver.
  - exists [], s. split_and!; try done; [apply swept_refl|]. by apply (pa_avail_le _ (S n)); [|lia].
Qed.

Lemma part_back p s l1 lf l2 v a start end_ n :
  pending p s l1 lf l2 v a → area_ok a → range_ok start end_ → hit start end_ a = true →
  (if a_addr a <? start then ∃ f, lf = [f] else lf = []) → pa_avail (al (vms s)) (S n) →
  ∃ lb s', (if end_ <? a_end a then munmap_back v start end_ s else Ok s) = Ok s' ∧ pending p s' l1 (lf ++ lb) l2 v a ∧
    lb.*2 = back end_ a ∧ quiet p s s' ∧ pa_avail (al (vms s')) n.
Proof.
  intros [P1 P2 P3] Ha Hr Hh Hlf Hav. pose proof (back_ok start end_ a Hr Ha Hh) as Hok. unfold back in *.
  destruct (end_ <? a_end a).
  - apply Forall_cons in Hok as [Hok _].
    destruct (munmap_back_ok p s l1 lf l2 v a start end_ n P1 P2 P3 Hlf Hok Hav) as (b & s3 & Hop & Hw3 & Hv3 & Hne & Q & Hav3).
    eexists [(b, _)], s3. split_and!; try done. split; [by rewrite <-app_assoc|by rewrite Hv3|].
    rewrite !fmap_app in *. cbn. set_solver.
  - exists [], s. rewrite app_nil_r. split_and!; try done; [apply swept_refl|]. by apply (pa_avail_le _ (S n)); [|lia].
Qed.

Lemma part_pages p s l1 lm l2 v a start end_ :
  pending p s l1 lm l2 v a → area_ok a → range_ok start end_ → within start end_ a = false →
  frames_ok p s (goes start end_ a) →
  let lo := Z.max (a_addr a) start in
  let hi := Z.min (a_end a) end_ in
  ∃ s', (if lo <? hi then unmap_range p lo hi true s else Ok s) = Ok s' ∧ pending p s' l1 lm l2 v a ∧
    swept p s s' (goes start end_ a) ∧ ∀ n, pa_avail (al (vms s)) n → pa_avail (al (vms s')) n.
Proof.
  intros [P1 P2 P3] Ha Hr Hwi Hf lo hi.
  assert (Hg : ∀ i, goes start end_ a i ↔ lo / 4096 ≤ i < hi / 4096) by (intros i; by apply goes_part).
  destruct Ha as [A1 A2 A3 A4 A5], Hr as [R1 R2 R3]. destruct (Z.ltb_spec lo hi) as [Hlt|Hge].
  - destruct (unmap_range_ok p s _ lo hi P1) as (s4 & Hop4 & Hw4 & Hv4 & Hsw & Hav4).
    + lia.
    + lia.
    + unfold lo. by destruct (Z.max_spec (a_addr a) start) as [[? ->]|[? ->]].
    + unfold hi. by destruct (Z.min_spec (a_end a) end_) as [[? ->]|[? ->]].
    + apply (frames_sub p s (goes start end_ a)); [|done]. intros i Hi. by apply Hg.
    + exists s4. split_and!; try done; [by split; [|rewrite Hv4|]|].
      apply (swept_ext p s s4 (λ i, lo / 4096 ≤ i < hi / 4096)); [|done]. intros i. symmetry. by apply Hg.
  - exists s. split_and!; try done. apply (swept_ext p s s (λ _, False)); [|apply swept_refl].
    intros i. rewrite Hg. pose proof (Z.div_le_mono hi lo 4096 ltac:(lia) Hge). lia.
Qed.

Lemma part_free p s l1 lm l2 v a :
  pending p s l1 lm l2 v a →
  ∃ s', free_node v s = Ok s' ∧ areas_in p s' (l1 ++ lm ++ l2) ∧ quiet p s s' ∧
    ∀ n, pa_avail (al (vms s)) n → pa_avail (al (vms s')) (S n).
Proof.
  intros [P1 P2 P3]. destruct (free_node_ok p s _ v P1) as (s' & Hop & _ & Hw & Hav & Hh & Hpt & Hdm & _ & Hg); [eauto|done|].
  exists s'. split_and!; try done. by apply quiet_of.
Qed.

Lemma munmap_part_ok p s l1 v a l2 start end_ n :
  areas_in p s (l1 ++ (v, a) :: l2) → range_ok start end_ → hit start end_ a = true → within start end_ a = false →
  frames_ok p s (goes start end_ a) → pa_avail (al (vms s)) (S (S n)) →
  ∃ lm s', munmap_part p v a start end_ s = Ok s' ∧ areas_in p s' (l1 ++ lm ++ l2) ∧
    lm.*2 = front start a ++ back end_ a ∧ swept p s s' (goes start end_ a) ∧ pa_avail (al (vms s')) (S n).
Proof.
  intros Hw Hr Hh Hwi Hf Hav. pose proof (area_of _ _ _ _ _ _ Hw) as Ha.
  assert (Hu : in_user (goes start end_ a)) by by apply goes_user.
  destruct (part_unlink p s l1 v a l2 Hw) as (s1 & Hop1 & P1 & Q1 & E1). rewrite <-E1 in Hav.
  destruct (part_front p s1 l1 l2 v a start end_ (S n) P1 Ha Hr Hh Hav) as (lf & s2 & Hop2 & P2 & Elf & Hlf & Q2 & Hav2).
  destruct (part_back p s2 l1 lf l2 v a start end_ n P2 Ha Hr Hh Hlf Hav2) as (lb & s3 & Hop3 & P3 & Elb & Q3 & Hav3).
  assert (Q : quiet p s s3) by (apply (quiet_step p s s1); [done|]; by apply (quiet_step p s1 s2)).
  destruct (part_pages p s3 l1 (lf ++ lb) l2 v a start end_ P3 Ha Hr Hwi) as (s4 & Hop4 & P4 & Sw & Hav4).
  { apply (frames_swept p s s3 (λ _, False)); [done|tauto|done|]. by apply (frames_sub p s (goes start end_ a)); [tauto|]. }
  destruct (part_free p s4 l1 (lf ++ lb) l2 v a P4) as (s5 & Hop5 & Hw5 & Q5 & Hav5).
  exists (lf ++ lb), s5. split_and!; try done.
  - unfold munmap_part. rewrite (ao_private _ Ha). cbn [bind]. rewrite Hop1. cbn [bind]. rewrite Hop2. cbn [bind].
    rewrite Hop3. cbn [bind negb]. rewrite Hop4. cbn [bind]. exact Hop5.
  - by rewrite fmap_app, Elf, Elb.
  - apply (swept_quiet p s s4); try done. by apply (quiet_swept p s s3).
  - by apply Hav5, Hav4.
Qed.

(** An area whose contents change. *)
Lemma set_data_area p s l1 v a l2 f :
  areas_in p s (l1 ++ (v, a) :: l2) → area_ok (f a) →
  ∃ s', set_data v f s = Ok s' ∧ areas_in p s' (l1 ++ (v, f a) :: l2) ∧ quiet p s s' ∧ vms s' = vms s.
Proof.
  intros Hw Ho. pose proof (w_ring _ _ _ Hw) as Hr. pose proof (ring_at _ _ _ _ _ _ Hr) as Hv.
  destruct (nodup_split _ _ _ _ _ (r_nodup _ _ _ Hr)) as (N1 & N2 & N3 & _).
  destruct (links_done p s _ (up_data v f (vmas s)) (l1 ++ (v, f a) :: l2) Hw) as [Hw' Q].
  - assert (Hd : ∀ b, dt (up_data v f (vmas s)) b = if decide (b = v) then Some (f a) else dt (vmas s) b).
    { intros b. apply dt_up_data. unfold dt. by rewrite Hv. }
    destruct Hr as [R1 R2 R3]. split.
    + assert (E : (l1 ++ (v, f a) :: l2).*1 = (l1 ++ (v, a) :: l2).*1) by by rewrite !fmap_app. rewrite E.
      apply (chain_frame (vmas s) _ _ _ (pvma p :: (l1 ++ (v, a) :: l2).*1) (pvma p)); try done; intros b _;
        [apply nx_up_data|apply pv_up_data].
    + by rewrite !fmap_app in *.
    + apply Forall_app in R3 as [R3 R4]. apply Forall_cons in R4 as [_ R4].
      apply Forall_app. split; [|apply Forall_cons; split; [cbn; rewrite Hd; by rewrite decide_True|]].
      * apply (holds_ext (vmas s)); [done|]. intros b Hb. rewrite Hd, decide_False; [done|]. by intros ->.
      * apply (holds_ext (vmas s)); [done|]. intros b Hb. rewrite Hd, decide_False; [done|]. by intros ->.
  - apply dom_alter_L.
  - pose proof (w_areas _ _ _ Hw) as Hx. rewrite fmap_app in *. apply Forall_app in Hx as [X1 X2].
    apply Forall_cons in X2 as [_ X2]. apply Forall_app. split; [done|]. by apply Forall_cons.
  - exists (with_vmas s (up_data v f (vmas s))). split_and!; try done. apply store_data_ok. eauto.
Qed.

Lemma munmap_whole_ok p s l1 v a l2 start end_ n :
  areas_in p s (l1 ++ (v, a) :: l2) → range_ok start end_ → within start end_ a = true →
  frames_ok p s (goes start end_ a) → pa_avail (al (vms s)) n →
  ∃ lm s', munmap_whole p v a s = Ok s' ∧ areas_in p s' (l1 ++ lm ++ l2) ∧
    lm.*2 = (if 1 <? ref_count a then [set_refs (ref_count a - 1) a] else []) ∧
    swept p s s' (goes start end_ a) ∧ pa_avail (al (vms s')) n.
Proof.
  intros Hw Hr Hwi Hf Hav. pose proof (area_of _ _ _ _ _ _ Hw) as Ha.
  unfold munmap_whole. destruct (Z.ltb_spec 1 (ref_count a)) as [Hrc|Hrc].
  - destruct (set_data_area p s l1 v a l2 (set_refs (ref_count a - 1)) Hw) as (s' & -> & Hw' & Q & E).
    { destruct Ha as [A1 A2 A3 A4 A5]. by split. }
    exists [(v, set_refs (ref_count a - 1) a)], s'. rewrite E. split_and!; try done.
    apply (swept_ext p s s' (λ _, False)); [|done]. intros i. split; [done|]. intros (_ & _ & Hn). by apply Hn.
  - rewrite (ao_private _ Ha). pose proof Ha as [A1 A2 A3 A4 A5].
    assert (Hg : ∀ i, goes start end_ a i ↔ a_addr a / 4096 ≤ i < a_end a / 4096) by (intros i; by apply goes_whole).
    destruct (unmap_range_ok p s _ (a_addr a) (a_end a) Hw) as (s1 & Hop1 & Hw1 & Hv1 & Hsw1 & Hav1); try done.
    { apply (frames_sub p s (goes start end_ a)); [|done]. intros i. by rewrite Hg. }
    rewrite Hop1. cbn [bind].
    destruct (part_unlink p s1 l1 v a l2 Hw1) as (s2 & -> & P2 & Q2 & E2). cbn [bind].
    destruct (part_free p s2 l1 [] l2 v a P2) as (s3 & -> & Hw3 & Q3 & Hav3).
    exists [], s3. split_and!; try done.
    + apply (swept_quiet p s s1); [by apply goes_user| |by apply (quiet_step p s1 s2)].
      apply (swept_ext p s s1 (λ i, a_addr a / 4096 ≤ i < a_end a / 4096)); [|done]. intros i. by rewrite Hg.
    + apply (pa_avail_le _ (S n)); [|lia]. apply Hav3. rewrite E2. by apply Hav1.
Qed.

(** ** The loop *)

(** The pages that go from some area of [l]. *)
Definition gone (start end_ : Z) (l : list area) (i : Z) : Prop := ∃ a, a ∈ l ∧ goes start end_ a i.

Lemma gone_user start end_ (l : list area) : Forall area_ok l → in_user (gone start end_ l).
Proof. intros Ha i (a & Hin & Hg). apply (goes_user start end_ a); [|done]. by apply (proj1 (Forall_forall _ _) Ha). Qed.

Lemma gone_cons start end_ a (l : list area) i : gone start end_ (a :: l) i ↔ goes start end_ a i ∨ gone start end_ l i.
Proof. unfold gone. setoid_rewrite elem_of_cons. naive_solver. Qed.

Lemma goes_hit start end_ a i : range_ok start end_ → area_ok a → goes start end_ a i → hit start end_ a = true.
Proof.
  intros [R1 R2 R3] [A1 A2 A3 A4 A5] (G1 & G2 & _). unfold hit.
  destruct (div_pages start (a_end a) R2 A4) as [D1 _], (div_pages (a_addr a) end_ A3 R3) as [D2 _].
  apply andb_true_iff. split; [apply Z.ltb_lt, D1; lia|]. apply Z.leb_le. enough (a_addr a < end_) by lia. apply D2. lia.
Qed.

(** Areas in order have no page in common. *)
Lemma sorted_disjoint a (l : list area) start end_ i :
  Forall area_ok (a :: l) → sorted (a :: l) → goes start end_ a i → gone start end_ l i → False.
Proof.
  intros [A1 A2]%Forall_cons Hs (_ & G1 & _) (b & Hb & _ & G2 & _). apply StronglySorted_inv in Hs as [_ Hs].
  pose proof (proj1 (Forall_forall _ _) Hs b Hb) as Hab. unfold before in Hab.
  pose proof (Z.div_le_mono (a_end a) (a_addr b) 4096 ltac:(lia) Hab). lia.
Qed.

Lemma munmap_area_ok p s l1 v a l2 start end_ n :
  areas_in p s (l1 ++ (v, a) :: l2) → range_ok start end_ → hit start end_ a = true →
  frames_ok p s (goes start end_ a) → pa_avail (al (vms s)) (S (S n)) →
  ∃ lm s', (if (start <=? a_addr a) && (a_end a <=? end_) then munmap_whole p v a s
            else if (a_addr a <? start) || (end_ <? a_end a) then munmap_part p v a start end_ s else Ok s) = Ok s' ∧
    areas_in p s' (l1 ++ lm ++ l2) ∧ lm.*2 = cut start end_ a ∧ swept p s s' (goes start end_ a) ∧
    pa_avail (al (vms s')) (S n).
Proof.
  intros Hw Hr Hh Hf Hav. unfold cut. rewrite Hh. fold (within start end_ a).
  destruct (within start end_ a) eqn:Hwi.
  - apply (munmap_whole_ok p s l1 v a l2 start end_); try done. by apply (pa_avail_le _ (S (S n))); [|lia].
  - assert ((a_addr a <? start) || (end_ <? a_end a) = true) as -> by (unfold within in Hwi; lia).
    by apply munmap_part_ok.
Qed.

Lemma munmap_loop_ok p start end_ todo : ∀ fuel s l1 found n,
  areas_in p s (l1 ++ todo) → (length todo < fuel)%nat → range_ok start end_ → sorted todo.*2 →
  frames_ok p s (gone start end_ todo.*2) → pa_avail (al (vms s)) (S (length todo + n)) →
  ∃ s' l2, munmap_loop fuel p (succ_of (pvma p) todo) start end_ found s =
             Ok (found || existsb (hit start end_) todo.*2, s') ∧
    areas_in p s' (l1 ++ l2) ∧ l2.*2 = todo.*2 ≫= cut start end_ ∧ swept p s s' (gone start end_ todo.*2) ∧
    pa_avail (al (vms s')) n.
Proof.
  induction todo as [|[v a] todo IH]; intros fuel s l1 found n Hw Hfuel Hr Hs Hf Hav; (destruct fuel as [|fuel]; [cbn in Hfuel; lia|]).
  - cbn [munmap_loop]. change (succ_of (pvma p) []) with (pvma p). rewrite Z.eqb_refl. exists s, [].
    cbn [existsb fmap list_fmap]. rewrite orb_false_r. split_and!; try done.
    + apply (swept_ext p s s (λ _, False)); [|apply swept_refl]. intros i. split; [done|]. intros (a & Ha & _). by apply elem_of_nil in Ha.
    + by apply (pa_avail_le _ (S n)); [|lia].
  - pose proof (w_ring _ _ _ Hw) as Hring. pose proof (area_of _ _ _ _ _ _ Hw) as Ha.
    destruct (nodup_split _ _ _ _ _ (r_nodup _ _ _ Hring)) as (N1 & _).
    cbn [munmap_loop]. change (succ_of (pvma p) ((v, a) :: todo)) with v. rewrite (proj2 (Z.eqb_neq _ _)) by done.
    rewrite (ld_ok s v _ (ring_at _ _ _ _ _ _ Hring)). cbn [bind data next].
    assert (Hall : Forall area_ok (a :: todo.*2)).
    { pose proof (w_areas _ _ _ Hw) as Hx. rewrite fmap_app in Hx. by apply Forall_app in Hx as [_ Hx]. }
    assert (Hs' : sorted todo.*2) by by apply StronglySorted_inv in Hs as [Hs _].
    cbn [fmap list_fmap fst snd] in *. rewrite bind_cons. cbn [existsb]. fold (hit start end_ a).
    assert (Hdis : ∀ i, goes start end_ a i → gone start end_ todo.*2 i → False) by (intros i; by apply sorted_disjoint).
    assert (Hu : in_user (gone start end_ todo.*2)) by (apply gone_user; by apply Forall_cons in Hall as [_ ?]).
    assert (Hf1 : frames_ok p s (λ i, goes start end_ a i ∨ gone start end_ todo.*2 i)).
    { apply (frames_sub p s (gone start end_ (a :: todo.*2))); [|done]. intros i. by rewrite gone_cons. }
    destruct (hit start end_ a) eqn:Hh.
    + destruct (munmap_area_ok p s l1 v a todo start end_ (length todo + n)) as (lm & s1 & -> & Hw1 & Elm & Sw1 & Hav1); try done.
      { apply (frames_sub p s _ _ (λ i Hi, or_introl Hi) Hf1). }
      cbn [bind]. rewrite app_assoc in Hw1.
      destruct (IH fuel s1 (l1 ++ lm) true n) as (s2 & l2 & -> & Hw2 & El2 & Sw2 & Hav2); try done; [cbn in Hfuel; lia| |].
      { by apply (frames_swept p s s1 (goes start end_ a)). }
      exists s2, (lm ++ l2). rewrite orb_true_r. split_and!; try done; [by rewrite app_assoc|by rewrite fmap_app, Elm, El2|].
      apply (swept_ext p s s2 (λ i, goes start end_ a i ∨ gone start end_ todo.*2 i)); [intros i; by rewrite gone_cons|].
      apply (swept_trans p s s1 s2); try done. by apply goes_user.
    + assert (Hno : ∀ i, ¬ goes start end_ a i) by (intros i Hg; rewrite (goes_hit start end_ a i) in Hh; done).
      destruct (IH fuel s (l1 ++ [(v, a)]) found n) as (s2 & l2 & -> & Hw2 & El2 & Sw2 & Hav2); try done.
      { by rewrite <-app_assoc. }
      { cbn in Hfuel. lia. }
      { apply (frames_sub p s _ _ (λ i Hi, or_intror Hi) Hf1). }
      { by apply (pa_avail_le _ _ _ Hav); cbn; lia. }
      exists s2, ((v, a) :: l2). split_and!; try done; [by rewrite <-app_assoc in Hw2| |].
      * unfold cut. rewrite Hh. cbn. by rewrite El2.
      * apply (swept_ext p s s2 (gone start end_ todo.*2)); [|done]. intros i. rewrite gone_cons. naive_solver.
Qed.

(** The result of munmap, for a range that does not wrap around. *)
Definition munmap_start (start : Z) : Z := start / 4096 * 4096.
Definition munmap_end (start len : Z) : Z := (start + len) / 4096 * 4096.

Lemma munmap_range start len : 0 ≤ start → 0 < len → range_ok (munmap_start start) (munmap_end start len).
Proof.
  intros Hs Hl. unfold munmap_start, munmap_end. split; unfold PGSIZE; [|by rewrite Z.mod_mul by lia..].
  pose proof (Z.div_le_mono start (start + len) 4096 ltac:(lia) ltac:(lia)). pose proof (Z.div_pos start 4096 ltac:(lia) ltac:(lia)). lia.
Qed.

Lemma munmap_ok p s l start len n :
  areas_in p s l → sorted l.*2 → 0 ≤ start → 0 < len → start + len < 2 ^ 64 →
  frames_ok p s (gone (munmap_start start) (munmap_end start len) l.*2) → pa_avail (al (vms s)) (S (length l + n)) →
  ∃ s' l', munmap p start len s = Ok (if existsb (hit (munmap_start start) (munmap_end start len)) l.*2 then 0 else -1, s') ∧
    areas_in p s' l' ∧ l'.*2 = l.*2 ≫= cut (munmap_start start) (munmap_end start len) ∧
    swept p s s' (gone (munmap_start start) (munmap_end start len) l.*2) ∧ pa_avail (al (vms s')) n.
Proof.
  intros Hw Hs Hst Hl Hm Hf Hav. pose proof (munmap_range start len Hst Hl) as Hr. unfold munmap.
  destruct (ring_hd _ _ _ (w_ring _ _ _ Hw)) as [a0 Hh]. rewrite (ld_ok s _ _ Hh). cbn [bind next].
  rewrite u64_small, (PGROUNDDOWN_div start), (PGROUNDDOWN_div (start + len)) by lia.
  change (start / 4096 * 4096) with (munmap_start start). change ((start + len) / 4096 * 4096) with (munmap_end start len).
  rewrite PGROUNDDOWN_div by apply Hr.
  assert (E : munmap_start start / 4096 * 4096 = munmap_start start) by (unfold munmap_start; by rewrite Z.div_mul by lia).
  rewrite E, Z.eqb_refl, (proj2 (Z.leb_gt len 0)) by lia. cbn [negb orb].
  destruct (munmap_loop_ok p (munmap_start start) (munmap_end start len) l (ring_fuel s) s [] false n) as (s' & l' & -> & Hx); try done.
  - unfold ring_fuel. pose proof (ring_size _ _ _ (w_ring _ _ _ Hw)). lia.
  - cbn [bind orb]. eauto.
Qed.

(** ** What is left is in order *)

Lemma cut_ok start end_ a : range_ok start end_ → area_ok a → Forall area_ok (cut start end_ a).
Proof.
  intros Hr Ha. unfold cut. destruct (hit start end_ a) eqn:Hh; [|by apply Forall_singleton].
  destruct (within start end_ a).
  - destruct (1 <? ref_count a); [|constructor]. apply Forall_singleton. destruct Ha. by split.
  - apply Forall_app. split; [by apply (front_ok start end_)|by apply (back_ok start end_)].
Qed.

(** The pieces of an area lie inside it and in order. *)
Lemma cut_inside start end_ a :
  range_ok start end_ → area_ok a →
  Forall (λ b, a_addr a ≤ a_addr b ∧ a_end b ≤ a_end a) (cut start end_ a) ∧ sorted (cut start end_ a).
Proof.
  intros [R1 R2 R3] [A1 A2 A3 A4 A5]. unfold cut. destruct (hit start end_ a) eqn:Hh.
  2:{ split; [by apply Forall_singleton|]. repeat constructor. }
  unfold hit in Hh. apply andb_true_iff in Hh as [h1%Z.ltb_lt h2%Z.leb_le].
  destruct (within start end_ a).
  { destruct (1 <? ref_count a); (split; [|repeat constructor]); repeat constructor; cbn; lia. }
  unfold front, back. destruct (Z.ltb_spec (a_addr a) start), (Z.ltb_spec end_ (a_end a)); cbn;
    (split; [repeat constructor; cbn; lia|repeat constructor; unfold before; cbn; lia]).
Qed.

Lemma sorted_app (l1 l2 : list area) : sorted (l1 ++ l2) ↔ sorted l1 ∧ sorted l2 ∧ ∀ a b, a ∈ l1 → b ∈ l2 → before a b.
Proof.
  induction l1 as [|x l1 IH]; cbn.
  - split; [intros ?; split_and!; [constructor|done|intros a b Ha; by apply elem_of_nil in Ha]|by intros (_ & ? & _)].
  - split.
    + intros [Hs Hx]%StronglySorted_inv. apply IH in Hs as (S1 & S2 & S3). apply Forall_app in Hx as [X1 X2].
      split_and!; [by constructor|done|]. intros a b [->|Ha]%elem_of_cons Hb; [|by apply S3].
      by apply (proj1 (Forall_forall _ _) X2).
    + intros ([Hs Hx]%StronglySorted_inv & S2 & S3). constructor.
      * apply IH. split_and!; try done. intros a b Ha Hb. apply S3; [by right|done].
      * apply Forall_app. split; [done|]. apply Forall_forall. intros b Hb. apply S3; [left|done].
Qed.

Lemma cut_sorted start end_ (l : list area) :
  range_ok start end_ → Forall area_ok l → sorted l → sorted (l ≫= cut start end_).
Proof.
  intros Hr. induction l as [|a l IH]; intros Ha Hs; [constructor|]. apply Forall_cons in Ha as [A1 A2].
  apply StronglySorted_inv in Hs as [S1 S2]. rewrite bind_cons. destruct (cut_inside start end_ a Hr A1) as [C1 C2].
  apply sorted_app. split_and!; [done|by apply IH|]. intros x y Hx Hy.
  apply list_elem_of_bind in Hy as (b & Hy & Hb). pose proof (proj1 (Forall_forall _ _) A2 b Hb) as B1.
  destruct (cut_inside start end_ b Hr B1) as [C3 _]. unfold before.
  destruct (proj1 (Forall_forall _ _) C1 x Hx) as [_ ?], (proj1 (Forall_forall _ _) C3 y Hy) as [? _].
  pose proof (proj1 (Forall_forall _ _) S2 b Hb) as Hab. unfold before in Hab. lia.
Qed.
End unmap.
End VmaUnmap.
