(* ===== verification/VmaPages.v ===== *)
(** * Pages given to a process

    [filled p s s' X fl]: the pages of [X], which were not mapped, now have
    frames of their own, fresh from the allocator and full of zeros, with the
    flags [fl]; everything else is as before, except for the page tables that
    were needed. *)

From S2P Require Import Prelude BuddyDefs Pmem CStringDefs VMemDefs VMem VMemSpec VmaDefs MmapDefs VmaRing VmaInv VmaUnmap.
Import Pmem VMemDefs VMem VMemSpec VmaDefs MmapDefs VmaRing VmaInv VmaUnmap.

Module VmaPages.

(** ** Words of page tables *)

Lemma clear_write_frame w : PTE2PA (Z.ldiff w PTE_W) = PTE2PA w.
Proof. unfold PTE2PA. rewrite Z.shiftr_ldiff. change (Z.shiftr PTE_W 10) with 0. by rewrite Z.ldiff_0_r. Qed.
Lemma clear_write_flags w : PTE_FLAGS (Z.ldiff w PTE_W) = Z.ldiff (PTE_FLAGS w) PTE_W.
Proof.
  unfold PTE_FLAGS. apply Z.bits_inj. intros n. rewrite !Z.land_spec, !Z.ldiff_spec, !Z.land_spec.
  destruct (Z.testbit w n), (Z.testbit 1023 n), (Z.testbit PTE_W n); done.
Qed.
Lemma flags_V w : has w PTE_V = has (PTE_FLAGS w) PTE_V.
Proof. unfold has, PTE_FLAGS. rewrite <-Z.land_assoc. done. Qed.
Lemma clear_write_V w : has (Z.ldiff w PTE_W) PTE_V = has w PTE_V.
Proof.
  rewrite !has_V. rewrite <-!Z.bit0_odd, Z.ldiff_spec. cbn. by rewrite andb_true_r.
Qed.

Lemma zero_mem_lookup a n (d : gmap Z Z) x :
  zero_mem a n d !! x = if decide (a ≤ x < a + n) then Some 0 else d !! x.
Proof.
  unfold zero_mem.
  assert (Hg : ∀ k, foldr (λ i d, <[a + i := 0]> d) d (seqZ k (n - k)) !! x =
            if decide (a + k ≤ x < a + n) then Some 0 else d !! x).
  { intros k. remember (Z.to_nat (n - k)) as m eqn:Em. revert k Em. induction m as [|m IH]; intros k Em.
    - rewrite seqZ_nil by lia. cbn. rewrite decide_False by lia. done.
    - rewrite seqZ_cons by lia. cbn. replace (Z.pred (n - k)) with (n - Z.succ k) by lia.
      destruct (decide (x = a + k)) as [->|Hne].
      + rewrite lookup_insert_eq, decide_True by lia. done.
      + rewrite lookup_insert_ne, IH by (done || lia). repeat case_decide; try lia; done. }
  specialize (Hg 0). rewrite Z.sub_0_r, Z.add_0_r in Hg. exact Hg.
Qed.

Section pages.
Context {St : Type} `{PageAllocator St} `{!PageAllocatorLaws St} `{BlockAllocator St} {Fs : Type} `{MapFiles St Fs}.
Implicit Types (s : mem St Fs) (p : mproc) (l : list (Z * area)) (v w : vm St).

Lemma with_vms_id s : with_vms s (vms s) = s.
Proof. by destruct s. Qed.

(** ** One page *)

Lemma alloc_page_ok v root n :
  space v root → pa_avail (al v) (S n) →
  ∃ m w, alloc_page v = Ok (m, w) ∧ phys m ∧ ¬ pa_owned (al v) m ∧ (∀ b, pa_owned (al w) b ↔ b = m ∨ pa_owned (al v) b) ∧
    pa_avail (al w) n ∧ space w root ∧ pt w = pt v ∧ vmem_lock w = vmem_lock v ∧ dm w = zero_mem m PGSIZE (dm v).
Proof.
  intros Hs Hav. unfold alloc_page.
  destruct (pa_alloc_ok (al v) n (sp_inv _ _ Hs) Hav) as (m & st & -> & Hi & Hav' & Hb & Hal & Hno & Hown).
  cbn [bind]. rewrite (proj2 (Z.eqb_neq m 0)) by lia. eexists m, _. split; [reflexivity|].
  split_and!; try done. split; cbn; [done| |apply (sp_inj _ _ Hs)].
  intros q a Hq Ha. destruct (sp_table _ _ Hs q a Hq Ha) as [? ?]. split; [done|]. apply Hown. by right.
Qed.

Lemma absent_page v root va :
  space v root → vmem_lock v = false → 0 ≤ va < MAXVA → present v root (va / 4096) = false →
  has (pte_at (pt v) root va) PTE_V = false.
Proof.
  intros Hs Hlk Hva Hp. rewrite <-Hp. unfold present, pte_at.
  destruct (indices_of_page va (va / 4096 * 4096)) as [-> ->]; [lia|pose proof (Z.div_pos va 4096); lia|by rewrite Z.div_mul by lia|done].
Qed.

(** [experm] on a page that is not mapped. *)
Lemma experm_absent v root va perm :
  space v root → vmem_lock v = false → 0 ≤ va < MAXVA → present v root (va / 4096) = false →
  experm root va perm v = Ok (0, v).
Proof.
  intros Hs Hlk Hva Hp. unfold experm. rewrite (proj2 (Z.leb_gt _ _)), (walk_spec v root va Hs Hlk) by lia. cbn [bind].
  destruct (table_at (pt v) root (vpath va)) as [a|] eqn:Ha; cbn [fmap option_fmap option_map]; [|done].
  rewrite (rd_pte v root) by done. cbn [bind]. by rewrite (absent_page v root va).
Qed.

(** The entry of a page that is mapped can be found and changed. *)
Lemma write_entry v root i word :
  space v root → vmem_lock v = false → 0 ≤ i < 2 ^ 26 → present v root i = true →
  ∃ pte v', walk root (i * 4096) false v = Ok (Some pte, v) ∧ rd pte v = Ok (pte_at (pt v) root (i * 4096)) ∧
    wr pte word v = Ok v' ∧ space v' root ∧ al v' = al v ∧ dm v' = dm v ∧ vmem_lock v' = vmem_lock v ∧
    tables_grow v v' root ∧
    ∀ va, 0 ≤ va < MAXVA → pte_at (pt v') root va = if decide (va / 4096 = i) then word else pte_at (pt v) root va.
Proof.
  intros Hs Hlk Hi Hp. destruct (page_addr i Hi) as [Hva Hd].
  destruct (table_at (pt v) root (vpath (i * 4096))) as [a|] eqn:Ha.
  2:{ unfold present, pte_at, leaf in Hp. rewrite Ha in Hp. done. }
  exists (slot a (PX 0 (i * 4096))). destruct (pte_write v root (i * 4096) a word Hs Hva Ha) as (Hw & Hs' & Hpte).
  eexists. split_and!; [|by rewrite (rd_pte v root)|exact Hw|done|done|done|done| |].
  - rewrite (walk_spec v root (i * 4096) Hs Hlk) by lia. by rewrite Ha.
  - apply (tables_grow_leaf v root (vpath (i * 4096))); try done; [apply vpath_path..|apply PX_index].
  - rewrite Hd in Hpte. exact Hpte.
Qed.

(** ** States with new pages *)

Record filled p s s' (X : Z → Prop) (fl : Z) : Prop := {
  fi_keep : ∀ va, 0 ≤ va < MAXVA → ¬ X (va / 4096) →
    pte_at (pt (vms s')) (pagetable p) va = pte_at (pt (vms s)) (pagetable p) va;
  fi_entry : ∀ i, X i → pr s' p i = true ∧ PTE_FLAGS (pte_at (pt (vms s')) (pagetable p) (i * 4096)) = fl;
  fi_frame : ∀ i, X i → phys (fr s' p i) ∧ ¬ pa_owned (al (vms s)) (fr s' p i) ∧ held s' (fr s' p i) ∧
    ∀ q, path q → table_at (pt (vms s')) (pagetable p) q ≠ Some (fr s' p i);
  fi_once : ∀ i j, X i → X j → fr s' p i = fr s' p j → i = j;
  fi_zero : ∀ i o, X i → 0 ≤ o < 4096 → dm (vms s') !! (fr s' p i + o) = Some 0;
  fi_dm : ∀ x, (∀ i, X i → ¬ (fr s' p i ≤ x < fr s' p i + 4096)) → dm (vms s') !! x = dm (vms s) !! x;
  fi_own : ∀ b, pa_owned (al (vms s)) b → pa_owned (al (vms s')) b;
  fi_held : ∀ b, held s b → held s' b;
  fi_got : ∀ b, held s' b → held s b ∨ (∃ i, X i ∧ b = fr s' p i) ∨
    ∃ q, path q ∧ table_at (pt (vms s')) (pagetable p) q = Some b;
  fi_old : ∀ q a, path q → table_at (pt (vms s)) (pagetable p) q = Some a → table_at (pt (vms s')) (pagetable p) q = Some a;
  fi_new : ∀ q a, path q → table_at (pt (vms s')) (pagetable p) q = Some a →
    table_at (pt (vms s)) (pagetable p) q = Some a ∨ ¬ pa_owned (al (vms s)) a
}.

Lemma filled_ext p s s' (X Y : Z → Prop) fl : (∀ i, X i ↔ Y i) → filled p s s' X fl → filled p s s' Y fl.
Proof.
  intros E [F1 F2 F3 F4 F5 F6 F7 F8 F9 F10 F11]. split; try done.
  - intros va Hva Hn. apply F1; [done|]. by rewrite E.
  - intros i Hi. by apply F2, E.
  - intros i Hi. by apply F3, E.
  - intros i j Hi Hj. by apply F4; apply E.
  - intros i o Hi. by apply F5, E.
  - intros x Hx. apply F6. intros i Hi. by apply Hx, E.
  - intros b Hb. destruct (F9 b Hb) as [|[(i & Hi & ->)|]]; [by left|right; left; exists i|by right; right].
    split; [by apply E|done].
Qed.

Lemma phys_apart a b x : phys a → phys b → a ≠ b → a ≤ x < a + 4096 → ¬ (b ≤ x < b + 4096).
Proof.
  intros [_ Ha] [_ Hb] Hne Hx Hy. apply Hne.
  pose proof (Z.div_mod a 4096 ltac:(lia)). pose proof (Z.div_mod b 4096 ltac:(lia)). lia.
Qed.

Lemma filled_step p s1 s2 s3 X Y fl :
  in_user X → (∀ i, X i → Y i → False) → filled p s1 s2 X fl → filled p s2 s3 Y fl →
  filled p s1 s3 (λ i, X i ∨ Y i) fl.
Proof.
  intros UX Hdis A B. destruct A as [A1 A2 A3 A4 A5 A6 A7 A8 A9 A10 A11].
  pose proof B as [B1 B2 B3 B4 B5 B6 B7 B8 B9 B10 B11].
  assert (E : ∀ i, X i → pte_at (pt (vms s3)) (pagetable p) (i * 4096) = pte_at (pt (vms s2)) (pagetable p) (i * 4096)).
  { intros i Hx. destruct (page_addr i (UX i Hx)) as [Ha Hd]. apply B1; [done|]. rewrite Hd. intros Hy. by apply (Hdis i). }
  assert (Ep : ∀ i, X i → pr s3 p i = pr s2 p i) by (intros i Hx; unfold pr, present; by rewrite E).
  assert (Ef : ∀ i, X i → fr s3 p i = fr s2 p i) by (intros i Hx; unfold fr, frame; by rewrite E).
  assert (Hxy : ∀ i j, X i → Y j → fr s3 p i ≠ fr s3 p j).
  { intros i j Hx Hy Eij. destruct (B3 j Hy) as (_ & Hn & _). apply Hn. rewrite <-Eij, Ef by done.
    by destruct (A3 i Hx) as (_ & _ & [? _] & _). }
  split.
  - intros va Hva Hn. rewrite B1, A1; try done; intros ?; apply Hn; [by left|by right].
  - intros i [Hx|Hy]; [|by apply B2]. rewrite Ep, E by done. by apply A2.
  - intros i [Hx|Hy].
    + rewrite Ef by done. destruct (A3 i Hx) as (G1 & G2 & G3 & G4). split_and!; [done|done|by apply B8|].
      intros q Hq Ht. destruct (B11 q _ Hq Ht) as [Ht'|Hn]; [by apply (G4 q)|]. apply Hn, G3.
    + destruct (B3 i Hy) as (G1 & G2 & G3 & G4). split_and!; try done. intros Ho. apply G2. by apply A7.
  - intros i j [Hi|Hi] [Hj|Hj]; [rewrite !Ef by done; by apply A4| | |by apply B4]; intros Eij.
    + by destruct (Hxy i j Hi Hj).
    + by destruct (Hxy j i Hj Hi).
  - intros i o [Hx|Hy] Ho; [|by apply B5]. rewrite B6; [rewrite Ef by done; by apply A5|].
    intros j Hj. apply (phys_apart (fr s3 p i)).
    + rewrite Ef by done. apply (A3 i Hx).
    + apply (B3 j Hj).
    + by apply Hxy.
    + lia.
  - intros x Hx. rewrite B6, A6; try done; intros i Hi; [rewrite <-Ef by done|]; apply Hx; [by left|by right].
  - auto.
  - auto.
  - intros b Hb. destruct (B9 b Hb) as [Hb'|[(i & Hi & ->)|?]]; [|right; left; eauto|by right; right].
    destruct (A9 b Hb') as [|[(i & Hi & ->)|(q & Hq & Ht)]]; [by left|right; left; exists i|right; right; eauto].
    rewrite Ef by done. eauto.
  - auto.
  - intros q a Hq Ha. destruct (B11 q a Hq Ha) as [Ha'|Hn]; [by apply A11|right; auto].
Qed.

(** The frames of the old pages and of the new ones. *)
Lemma frames_filled p s s' X Y fl :
  in_user Y → (∀ i, X i → Y i → False) → (∀ i, X i → fl ≠ PTE_V) → filled p s s' X fl → frames_ok p s Y →
  frames_ok p s' (λ i, X i ∨ Y i).
Proof.
  intros UY Hdis Hfl [A1 A2 A3 A4 A5 A6 A7 A8 A9 A10 A11] [F1 F2 F3].
  assert (E : ∀ i, Y i → pte_at (pt (vms s')) (pagetable p) (i * 4096) = pte_at (pt (vms s)) (pagetable p) (i * 4096)).
  { intros i Hy. destruct (page_addr i (UY i Hy)) as [Ha Hd]. apply A1; [done|]. rewrite Hd. intros Hx. by apply (Hdis i). }
  assert (Ep : ∀ i, Y i → pr s' p i = pr s p i) by (intros i Hy; unfold pr, present; by rewrite E).
  assert (Ef : ∀ i, Y i → fr s' p i = fr s p i) by (intros i Hy; unfold fr, frame; by rewrite E).
  assert (Hxy : ∀ i j, X i → Y j → pr s' p j = true → fr s' p i ≠ fr s' p j).
  { intros i j Hx Hy Hp Eij. rewrite Ep in Hp by done. destruct (A3 i Hx) as (_ & Hn & _). apply Hn. rewrite Eij, Ef by done.
    by destruct (F2 j Hy Hp) as (_ & [? _] & _). }
  split.
  - intros i [Hx|Hy] Hp; [rewrite (proj2 (A2 i Hx)); by apply (Hfl i)|]. rewrite E by done. rewrite Ep in Hp by done. by apply F1.
  - intros i [Hx|Hy] Hp.
    + destruct (A3 i Hx) as ((G1 & _) & _ & G2 & G3). split_and!; try done. lia.
    + rewrite Ep in Hp by done. rewrite Ef by done. destruct (F2 i Hy Hp) as (G1 & G2 & G3). split_and!; [done|by apply A8|].
      intros q Hq Ht. destruct (A11 q _ Hq Ht) as [Ht'|Hn]; [by apply (G3 q)|]. apply Hn, G2.
  - intros i j [Hi|Hi] [Hj|Hj] Hpi Hpj Eij; [by apply A4|by destruct (Hxy i j Hi Hj)|by destruct (Hxy j i Hj Hi)|].
    rewrite !Ep in Hpi, Hpj by done. rewrite !Ef in Eij by done. by apply F3.
Qed.

(** A change of the links and contents of areas changes no page. *)
Lemma filled_quiet p s1 s2 s3 X fl :
  filled p s1 s2 X fl → vms s3 = vms s2 → (∀ b, held s3 b ↔ held s2 b) → filled p s1 s3 X fl.
Proof.
  intros [A1 A2 A3 A4 A5 A6 A7 A8 A9 A10 A11] E Hh.
  split; unfold pr, fr in *; rewrite ?E; try done.
  - intros i Hi. destruct (A3 i Hi) as (G1 & G2 & G3 & G4). split_and!; try done. by apply Hh.
  - intros b Hb. by apply Hh, A8.
  - intros b Hb%Hh. by apply A9.
Qed.

(** A page of zeros is mapped. *)
Lemma fill_page p s l i perm n :
  areas_in p s l → 0 ≤ i < 2 ^ 26 → pr s p i = false → 0 ≤ perm < 1024 → pa_avail (al (vms s)) (3 + n) →
  ∃ m s1 s2, vmdo alloc_page s = Ok (m, s1) ∧ m ≠ 0 ∧ m mod PGSIZE = 0 ∧
    vmdo (mappages (pagetable p) (i * 4096) m PGSIZE perm) s1 = Ok (1, s2) ∧
    areas_in p s1 l ∧ pr s1 p i = false ∧
    areas_in p s2 l ∧ vmas s2 = vmas s ∧ filled p s s2 (λ j, j = i) (Z.lor perm PTE_V) ∧ pa_avail (al (vms s2)) n ∧
    (segs s2 = segs s ∧ fs s2 = fs s ∧ shm_segs s2 = shm_segs s ∧ map_addr s2 = map_addr s).
Proof.
  intros Hw Hi Hp Hperm Hav. pose proof Hw as [W1 W2 W3 W4 W5 W6]. destruct (page_addr i Hi) as [Hva Hd].
  destruct (alloc_page_ok (vms s) (pagetable p) (2 + n) W1 Hav)
    as (m & v1 & Hal & Hphys & Hno & Hown & Hav1 & Hs1 & Hpt1 & Hlk1 & Hdm1).
  assert (Hb : page_count (i * 4096) 4096 = 1).
  { unfold page_count. replace (i * 4096 + 4096 - 1) with (4095 + i * 4096) by lia. rewrite Z.div_add, Z.div_mul by lia.
    change (4095 / 4096) with 0. lia. }
  destruct (mappages_ok v1 (pagetable p) (i * 4096) m 4096 perm n Hs1) as (v2 & Hmp & [M1 M2 M3 M4 M5] & Hav2);
    rewrite ?Hb; [by rewrite Hlk1|..]; try (unfold phys, MAXVA in *; lia); [|exact Hav1|].
  { intros j Hj. unfold first_page in Hj. rewrite Hd in Hj. assert (j = i) as -> by lia.
    unfold pr, present in *. by rewrite Hpt1. }
  rewrite Hb in M5. unfold first_page in M5. rewrite Hd in M5.
  assert (Hmn : vmas s !! m = None).
  { destruct (vmas s !! m) eqn:Em; [|done]. destruct Hno. apply W4. eauto. }
  assert (Hnode1 : ∀ x, is_Some (vmas s !! x) → x ≠ 0 ∧ pa_owned (al v1) x).
  { intros x Hx. destruct (W4 x Hx). split; [done|]. apply Hown. by right. }
  exists m, (with_vms s v1), (with_vms s v2).
  assert (Hpte : ∀ va, 0 ≤ va < MAXVA → va / 4096 = i → pte_at (pt v2) (pagetable p) va = leaf_word m perm).
  { intros va H2 H3. rewrite M5, decide_True by (done || lia). f_equal. lia. }
  destruct (leaf_pte m perm Hphys Hperm) as (L1 & L2 & L3). fold (leaf_word m perm) in L1, L2, L3.
  assert (Hfr : frame v2 (pagetable p) i = m) by (unfold frame; by rewrite Hpte, L2).
  assert (Hnt : ∀ q a, path q → table_at (pt v2) (pagetable p) q = Some a →
            table_at (pt (vms s)) (pagetable p) q = Some a ∨ (¬ pa_owned (al (vms s)) a ∧ a ≠ m)).
  { intros q a Hq Ha. destruct (tg_new _ _ _ M4 q a Hq Ha) as [Hx|Hx]; [left; by rewrite <-Hpt1|right].
    split; [intros Hy; apply Hx, Hown; by right|]. intros ->. apply Hx, Hown. by left. }
  assert (Hold : ∀ q a, path q → table_at (pt (vms s)) (pagetable p) q = Some a → vmas s !! a = None ∧ a ≠ m).
  { intros q a Hq Ha. split; [by apply (W5 q)|]. intros ->. apply Hno. by apply (sp_table _ _ W1 q). }
  unfold vmdo. cbn [vms with_vms]. rewrite Hal. cbn [bind].
  split; [done|]. split; [unfold phys in Hphys; lia|]. split; [apply Hphys|].
  split; [unfold PGSIZE; by rewrite Hmp|]. split_and!; [| | |reflexivity| |exact Hav2|reflexivity..].
  - split; cbn [vms vmas with_vms]; [exact Hs1|by rewrite Hlk1|exact W3|exact Hnode1| |exact W6].
    intros q a Hq Ha. rewrite Hpt1 in Ha. by apply (W5 q).
  - unfold pr, present in *. cbn [vms with_vms]. by rewrite Hpt1.
  - split; cbn [vms vmas with_vms]; [exact M1|congruence|exact W3| | |exact W6].
    + intros x Hx. destruct (Hnode1 x Hx). split; [done|]. by apply M4.
    + intros q a Hq Ha. destruct (Hnt q a Hq Ha) as [Ha'|[Hn _]]; [by apply (W5 q)|].
      destruct (vmas s !! a) eqn:Ea; [|done]. destruct Hn. apply W4. eauto.
  - split; unfold pr, fr, held; cbn [vms vmas with_vms].
    + intros va H2 H3. rewrite M5, decide_False by (done || lia). by rewrite Hpt1.
    + intros j ->. unfold present. rewrite Hpte by done. done.
    + intros j ->. rewrite Hfr. split_and!; try done; [apply M4, Hown; by left|].
      intros q Hq Ht. destruct (Hnt q m Hq Ht) as [Ht'|[_ ?]]; [|done]. by destruct (Hold q m Hq Ht').
    + intros j k -> ->. done.
    + intros j o -> Ho. rewrite Hfr, M2, Hdm1, zero_mem_lookup, decide_True by (unfold PGSIZE; lia). done.
    + intros x Hx. rewrite M2, Hdm1, zero_mem_lookup, decide_False; [done|]. unfold PGSIZE. intros Hc.
      apply (Hx i eq_refl). rewrite Hfr. lia.
    + intros b Hbo. apply M4, Hown. by right.
    + intros b [Hbo Hbn]. split; [|done]. apply M4, Hown. by right.
    + intros b [Hbo Hbn]. destruct (tg_got _ _ _ M4 b Hbo) as [[->|Hb']%Hown|?]; [|by left|by right; right].
      right. left. exists i. by rewrite Hfr.
    + intros q a Hq Ha. apply M4; [done|]. by rewrite Hpt1.
    + intros q a Hq Ha. destruct (Hnt q a Hq Ha) as [|[]]; [by left|by right].
Qed.

End pages.
End VmaPages.
