(* ===== verification/VmaMap.v ===== *)
(** * Mapping anonymous memory

    The search for a place, the insertion of the new area and the loop of
    mmap that gives a private anonymous mapping its pages. *)

From Stdlib Require Import Sorted.
From S2P Require Import Prelude BuddyDefs Pmem CStringDefs VMemDefs VMem VMemSpec VmaDefs MmapDefs VmaRing VmaInv VmaUnmap VmaPages.
Import Pmem VMemDefs VMem VMemSpec VmaDefs MmapDefs VmaRing VmaInv VmaUnmap VmaPages.

Module VmaMap.

(** No area reaches into the range. *)
Definition clear (lo hi : Z) (l : list area) : Prop := Forall (λ a, a_end a ≤ lo ∨ hi ≤ a_addr a) l.

(** The area of a mapping that must be copied before it is written. *)
Definition marked (prot : Z) (a : area) : area :=
  if has prot PROT_WRITE then set_flags (Z.lor (a_flags a) MAP_PRIVATE) a else a.
(** The flags of the entries of a private mapping. *)
Definition entry_flags (prot : Z) : Z :=
  let fl := Z.lor (get_mmapperms prot) PTE_V in
  if has prot PROT_WRITE then Z.ldiff fl PTE_W else fl.

Lemma marked_twice prot a : marked prot (marked prot a) = marked prot a.
Proof.
  unfold marked. destruct (has prot PROT_WRITE); [|done]. unfold set_flags. cbn. f_equal.
  rewrite <-Z.lor_assoc. by rewrite Z.lor_diag.
Qed.
Lemma marked_ok prot a : area_ok a → area_ok (marked prot a).
Proof. intros [A1 A2 A3 A4 A5]. unfold marked. destruct (has prot PROT_WRITE); by split. Qed.
Lemma marked_bounds prot a : a_addr (marked prot a) = a_addr a ∧ a_end (marked prot a) = a_end a.
Proof. unfold marked. by destruct (has prot PROT_WRITE). Qed.

Lemma perms_range prot : 0 ≤ get_mmapperms prot < 32.
Proof.
  unfold get_mmapperms. destruct (prot =? PROT_NONE); [lia|].
  by destruct (has prot PROT_READ), (has prot PROT_WRITE), (has prot PROT_EXEC).
Qed.
Lemma entry_flags_user prot : prot ≠ PROT_NONE → has (entry_flags prot) PTE_U = true ∧ entry_flags prot ≠ PTE_V.
Proof.
  intros Hp. unfold entry_flags, get_mmapperms. rewrite (proj2 (Z.eqb_neq _ _)) by done.
  by destruct (has prot PROT_READ), (has prot PROT_WRITE), (has prot PROT_EXEC).
Qed.
(** Reading and executing is as asked for, writing needs a copy first. *)
Lemma entry_flags_bits prot :
  prot ≠ PROT_NONE →
  has (entry_flags prot) PTE_R = has prot PROT_READ ∧ has (entry_flags prot) PTE_X = has prot PROT_EXEC ∧
  has (entry_flags prot) PTE_W = false.
Proof.
  intros Hp. unfold entry_flags, get_mmapperms. rewrite (proj2 (Z.eqb_neq _ _)) by done.
  by destruct (has prot PROT_READ), (has prot PROT_WRITE), (has prot PROT_EXEC).
Qed.

Section map.
Context {St : Type} `{PageAllocator St} `{!PageAllocatorLaws St} `{BlockAllocator St} {Fs : Type} `{MapFiles St Fs}.
Implicit Types (s : mem St Fs) (p : mproc) (l : list (Z * area)).

Definition same_globals s s' : Prop :=
  segs s' = segs s ∧ fs s' = fs s ∧ shm_segs s' = shm_segs s ∧ map_addr s' = map_addr s.

Lemma same_globals_trans s1 s2 s3 : same_globals s1 s2 → same_globals s2 s3 → same_globals s1 s3.
Proof. unfold same_globals. intuition congruence. Qed.

(** ** The pages of a mapping *)

Lemma filled_none p s fl : filled p s s (λ _, False) fl.
Proof. split; try done; intros; by left. Qed.

Lemma protect_page p s0 s l1 v a l2 i fl flags prot :
  areas_in p s (l1 ++ (v, a) :: l2) → filled p s0 s (λ j, j = i) fl → 0 ≤ i < 2 ^ 26 → has flags MAP_PRIVATE = true →
  ∃ s', protect_private p v (i * 4096) flags prot s = Ok s' ∧ areas_in p s' (l1 ++ (v, marked prot a) :: l2) ∧
    filled p s0 s' (λ j, j = i) (if has prot PROT_WRITE then Z.ldiff fl PTE_W else fl) ∧ al (vms s') = al (vms s) ∧
    same_globals s s'.
Proof.
  intros Hw Hf Hi Hfl. pose proof Hw as [W1 W2 W3 W4 W5 W6]. unfold protect_private, marked. rewrite Hfl. cbn [andb].
  destruct (has prot PROT_WRITE); [|by exists s].
  destruct (fi_entry _ _ _ _ _ Hf i eq_refl) as [Hpr Hpf]. unfold pr in Hpr.
  set (w := pte_at (pt (vms s)) (pagetable p) (i * 4096)) in *.
  destruct (write_entry (vms s) (pagetable p) i (Z.ldiff w PTE_W) W1 W2 Hi Hpr)
    as (pte & v1 & Hwk & Hrd & Hwr & Hs1 & Hal & Hdm & Hlk & Htg & Hpte).
  unfold vmdo, vmrun. rewrite Hwk. cbn [bind]. rewrite with_vms_id, Hrd. cbn [bind]. fold w.
  assert (has w PTE_V = true) as -> by exact Hpr. rewrite Hwr. cbn [bind].
  assert (Hw1 : areas_in p (with_vms s v1) (l1 ++ (v, a) :: l2)).
  { split; cbn [vms vmas with_vms]; try done; [congruence|by rewrite Hal|].
    intros q x Hq Hx. destruct (tg_new _ _ _ Htg q x Hq Hx) as [|Hn]; [by apply (W5 q)|].
    destruct (vmas s !! x) eqn:Ex; [|done]. destruct Hn. apply W4. eauto. }
  destruct (set_data_area p _ l1 v a l2 (λ a, set_flags (Z.lor (a_flags a) MAP_PRIVATE) a) Hw1) as (s2 & -> & Hw2 & Q2 & E2).
  { destruct (area_of _ _ _ _ _ _ Hw). by split. }
  exists s2. split_and!; try done; [|by rewrite E2|apply Q2].
  apply (filled_quiet p s0 (with_vms s v1)); [|done|].
  2:{ intros b. rewrite (sw_held _ _ _ _ Q2). split; [by intros []|]. intros ?. split; [done|]. by intros (? & [] & _). }
  destruct Hf as [F1 F2 F3 F4 F5 F6 F7 F8 F9 F10 F11]. destruct (page_addr i Hi) as [Hva Hd].
  assert (Hself : pte_at (pt v1) (pagetable p) (i * 4096) = Z.ldiff w PTE_W) by by rewrite Hpte, decide_True.
  assert (Hfrm : frame v1 (pagetable p) i = fr s p i).
  { unfold fr, frame. rewrite Hself. apply clear_write_frame. }
  assert (Htb : ∀ q x, path q → table_at (pt v1) (pagetable p) q = Some x → table_at (pt (vms s)) (pagetable p) q = Some x).
  { intros q x Hq Hx. destruct (tg_new _ _ _ Htg q x Hq Hx) as [|Hn]; [done|]. destruct Hn.
    rewrite <-Hal. by apply (sp_table _ _ Hs1 q). }
  split; unfold pr, fr, held in *; cbn [vms vmas with_vms] in *; rewrite ?Hal, ?Hdm; try done.
  - intros va V1 V2. rewrite Hpte, decide_False by done. by apply F1.
  - intros j ->. unfold present. rewrite Hself, clear_write_V, clear_write_flags. split; [done|]. by rewrite Hpf.
  - intros j ->. rewrite Hfrm. destruct (F3 i eq_refl) as (G1 & G2 & G3 & G4). split_and!; try done; try apply G3.
    intros q Hq Hx. by apply (G4 q Hq), Htb.
  - intros j k -> ->. done.
  - intros j o ->. rewrite Hfrm. by apply F5.
  - intros x Hx. apply F6. intros j ->. rewrite <-Hfrm. by apply Hx.
  - intros b Hb. destruct (F9 b Hb) as [|[(j & -> & ->)|(q & Hq & Hx)]]; [by left|right; left; exists i; by rewrite Hfrm|].
    right; right. exists q. split; [done|]. by apply Htg.
  - intros q x Hq Hx. apply Htg; [done|]. by apply F10.
  - intros q x Hq Hx. apply F11; [done|]. by apply Htb.
Qed.

(** Pages [c..c+k-1] of a mapping that starts at page [c0]. *)
Lemma anon_loop_ok p l1 v l2 c0 len flags prot k : ∀ fuel s a c n,
  areas_in p s (l1 ++ (v, a) :: l2) → has flags MAP_PRIVATE = true → 0 ≤ c0 ≤ c → c + Z.of_nat k ≤ 2 ^ 26 →
  (c - c0 + Z.of_nat k - 1) * 4096 < len ≤ (c - c0 + Z.of_nat k) * 4096 → (k < fuel)%nat →
  (∀ i, c ≤ i < c + Z.of_nat k → pr s p i = false) → pa_avail (al (vms s)) (3 * k + n) →
  ∃ s', anon_loop fuel p v (c0 * 4096) ((c - c0) * 4096) len (get_mmapperms prot) flags prot s = Ok (0, s') ∧
    areas_in p s' (l1 ++ (v, if decide (k = O) then a else marked prot a) :: l2) ∧
    filled p s s' (λ i, c ≤ i < c + Z.of_nat k) (entry_flags prot) ∧ pa_avail (al (vms s')) n ∧ same_globals s s'.
Proof.
  induction k as [|k IH]; intros fuel s a c n Hw Hfl Hc Hck Hlen Hfuel Hno Hav; (destruct fuel as [|fuel]; [lia|]); cbn [anon_loop].
  - rewrite (proj2 (Z.ltb_ge _ _)) by lia. exists s. split_and!; try done.
    apply (filled_ext p s s (λ _, False)); [intros; lia|apply filled_none].
  - rewrite (proj2 (Z.ltb_lt _ _)) by lia. rewrite u64_small by lia.
    replace (c0 * 4096 + (c - c0) * 4096) with (c * 4096) by lia.
    assert (Hci : 0 ≤ c < 2 ^ 26) by lia. destruct (page_addr c Hci) as [Hva Hd].
    assert (Hpr : pr s p c = false) by (apply Hno; lia).
    unfold vmdo at 1. rewrite experm_absent; try done; [|apply Hw|apply Hw|by rewrite Hd].
    cbn [bind]. rewrite with_vms_id. cbn [Z.eqb]. pose proof (perms_range prot).
    destruct (fill_page p s _ c (get_mmapperms prot) (3 * k + n) Hw Hci Hpr)
      as (m & s1 & s2 & -> & Hm0 & _ & Hmp & _ & _ & Hw2 & _ & Hf2 & Hav2 & Hg2).
    { lia. }
    { by replace (3 + (3 * k + n))%nat with (3 * S k + n)%nat by lia. }
    cbn [bind]. rewrite (proj2 (Z.eqb_neq m 0)) by done. rewrite Hmp. cbn [bind Z.ltb Z.compare Z.eqb negb].
    destruct (protect_page p s s2 l1 v a l2 c _ flags prot Hw2 Hf2 Hci Hfl) as (s3 & -> & Hw3 & Hf3 & Hal3 & Hg3).
    fold (entry_flags prot) in Hf3. cbn [bind]. unfold PGSIZE. rewrite u64_small by lia.
    replace ((c - c0) * 4096 + 4096) with ((c + 1 - c0) * 4096) by lia.
    destruct (IH fuel s3 (marked prot a) (c + 1) n) as (s4 & -> & Hw4 & Hf4 & Hav4 & Hg4); try done; try lia.
    { intros i Hi. rewrite <-(Hno i) by lia. destruct (page_addr i ltac:(lia)) as [Ha Hdi].
      unfold pr, present. by rewrite (fi_keep _ _ _ _ _ Hf3) by (done || lia). }
    { by rewrite Hal3. }
    exists s4. split_and!; try done.
    + destruct (decide (S k = 0%nat)); [lia|]. rewrite marked_twice in Hw4. by destruct (decide (k = 0%nat)).
    + apply (filled_ext p s s4 (λ i, i = c ∨ c + 1 ≤ i < c + 1 + Z.of_nat k)); [intros; lia|].
      apply (filled_step p s s3); [intros i ->; lia|intros; lia|done|done].
    + apply (same_globals_trans s s3); [|done]. by apply (same_globals_trans s s2).
Qed.

(** ** The place of a new area *)

Lemma alloc_find_ok p lo hi todo : ∀ fuel s l1,
  areas_in p s (l1 ++ todo) → sorted todo.*2 → clear lo hi todo.*2 → (length todo < fuel)%nat →
  ∃ la lb, todo = la ++ lb ∧ alloc_find fuel (pvma p) (succ_of (pvma p) todo) lo hi s = Ok (inr (succ_of (pvma p) lb)) ∧
    Forall (λ a, a_end a ≤ lo) la.*2 ∧ Forall (λ a, hi ≤ a_addr a) lb.*2.
Proof.
  induction todo as [|[v a] todo IH]; intros fuel s l1 Hw Hs Hc Hfuel; (destruct fuel as [|fuel]; [cbn in Hfuel; lia|]).
  - exists [], []. cbn [alloc_find]. change (succ_of (pvma p) []) with (pvma p). by rewrite Z.eqb_refl.
  - pose proof (w_ring _ _ _ Hw) as Hring. destruct (nodup_split _ _ _ _ _ (r_nodup _ _ _ Hring)) as (N1 & _).
    cbn [alloc_find]. change (succ_of (pvma p) ((v, a) :: todo)) with v. rewrite (proj2 (Z.eqb_neq _ _)) by done.
    rewrite (ld_ok s v _ (ring_at _ _ _ _ _ _ Hring)). cbn [bind data next].
    cbn in Hs, Hc. apply Forall_cons in Hc as [Hca Hc]. apply StronglySorted_inv in Hs as [Hs Hsa].
    destruct (Z.leb_spec hi (a_addr a)) as [Hle|Hgt].
    + exists [], ((v, a) :: todo). split_and!; try done. cbn. apply Forall_cons. split; [done|].
      assert (Hao : area_ok a) by by apply (area_of _ _ _ _ _ _ Hw).
      eapply Forall_impl; [exact Hsa|]. intros b Hb. unfold before in Hb. destruct Hao. lia.
    + destruct Hca as [Hca|]; [|lia]. rewrite (proj2 (Z.leb_le _ _)) by done.
      destruct (IH fuel s (l1 ++ [(v, a)])) as (la & lb & -> & Hop & L1 & L2); try done; [by rewrite <-app_assoc|cbn in Hfuel; lia|].
      exists ((v, a) :: la), lb. split_and!; try done. cbn. by apply Forall_cons.
Qed.

(** The new area. *)
Definition fresh_area (type : segtype) (perm lo hi sz : Z) : area := mk_area type perm 0 lo (u64 sz) hi 0 (-1) 0 0 1 0.

Lemma insert_sorted (la lb : list area) b :
  sorted (la ++ lb) → Forall (λ a, a_end a ≤ a_addr b) la → Forall (λ a, a_end b ≤ a_addr a) lb → sorted (la ++ b :: lb).
Proof.
  intros (S1 & S2 & S3)%sorted_app L1 L2. apply sorted_app. split_and!; [done|by constructor|].
  intros x y Hx [->|Hy]%elem_of_cons; [by apply (proj1 (Forall_forall _ _) L1)|by apply S3].
Qed.

Lemma sorted_replace (l1 l2 : list area) a b :
  sorted (l1 ++ a :: l2) → a_addr b = a_addr a → a_end b = a_end a → sorted (l1 ++ b :: l2).
Proof.
  intros (S1 & S2 & S3)%sorted_app Ea Ee. apply StronglySorted_inv in S2 as [S2 S4]. apply sorted_app. split_and!; [done| |].
  - constructor; [done|]. eapply Forall_impl; [exact S4|]. intros x. unfold before. by rewrite Ee.
  - intros x y Hx [->|Hy]%elem_of_cons; [|apply S3; [done|by right]].
    unfold before. rewrite Ea. apply S3; [done|left].
Qed.

Lemma alloc_vma_ok p s l type addr sz perm n :
  areas_in p s l → sorted l.*2 → let lo := PGROUNDUP addr in let hi := PGROUNDUP (u64 (addr + sz)) in
  area_ok (fresh_area type perm lo hi sz) → clear lo hi l.*2 → pa_avail (al (vms s)) (S n) →
  ∃ v s' la lb, l = la ++ lb ∧ alloc_vma p type addr sz perm false 0 s = Ok (v, s') ∧ v ≠ 0 ∧
    areas_in p s' (la ++ (v, fresh_area type perm lo hi sz) :: lb) ∧ quiet p s s' ∧ pa_avail (al (vms s')) n ∧
    sorted (la ++ (v, fresh_area type perm lo hi sz) :: lb).*2 ∧ vmas s !! v = None ∧
    ∀ x, pa_owned (al (vms s)) x → pa_owned (al (vms s')) x.
Proof.
  intros Hw Hs lo hi Ho Hc Hav. unfold alloc_vma. rewrite (proj2 (Z.eqb_neq _ _)) by by apply (areas_null p s l).
  destruct (ring_hd _ _ _ (w_ring _ _ _ Hw)) as [a0 Hh]. rewrite (ld_ok s _ _ Hh). cbn [bind next]. fold lo hi.
  destruct (alloc_find_ok p lo hi l (ring_fuel s) s [] Hw Hs Hc) as (la & lb & -> & -> & L1 & L2).
  { unfold ring_fuel. pose proof (ring_size _ _ _ (w_ring _ _ _ Hw)). lia. }
  cbn [bind]. destruct (new_area p s _ n Hw Hav) as (v & s1 & -> & Hv0 & Hnone & Hvm & Hw1 & Hav1 & Q1 & Hown & Hset).
  cbn [bind]. rewrite (proj2 (Z.eqb_neq v 0)) by done.
  assert ((if negb (sz =? 0) then if negb (0 =? 0) then _ else Ok s1 else Ok s1) = Ok s1) as -> by by destruct (sz =? 0).
  cbn [bind]. destruct (Hset (fresh_area type perm lo hi sz)) as (Hs2 & Hw2 & Hb & Q2 & _ & Hav2).
  assert (E : set_data v (λ a, mk_area type perm (orig_prot a) lo (u64 sz) hi (a_flags a) (-1) 0 0 1 0) s1 =
              set_data v (λ _, fresh_area type perm lo hi sz) s1).
  { unfold set_data, upd, ld. rewrite Hvm, lookup_insert_eq. done. }
  rewrite E, Hs2. cbn [bind]. set (s2 := with_vmas s1 _) in *.
  destruct (insert_before_ok s2 (pvma p) la lb v _ (w_ring _ _ _ Hw2) (fresh_node p s _ v Hw Hnone) Hb) as (h & -> & Hr & [_ Hd]).
  cbn [bind]. destruct (links_done p s2 _ h _ Hw2 Hr Hd) as [Hw3 Q3].
  { pose proof (w_areas _ _ _ Hw) as Hx. rewrite fmap_app in *. apply Forall_app in Hx as [X1 X2].
    apply Forall_app. split; [done|]. by apply Forall_cons. }
  exists v, (with_vmas s2 h), la, lb. split_and!; try done; [by apply (quiet_step p s s2)|].
  rewrite fmap_app in Hs |- *. by apply insert_sorted.
Qed.

(** ** alloc_mmap_vma *)

Definition is_map (a : area) : bool :=
  (bool_decide (a_type a = MMAP) || bool_decide (a_type a = SHARE)) && (a_addr a <? USER_MMAP_START).

(** The address of the first mapping below [USER_MMAP_START], or that of the head. *)
Definition first_addr p s l : Z :=
  match filter (λ x, is_map x.2 = true) l with
  | x :: _ => a_addr x.2
  | [] => match dt (vmas s) (pvma p) with Some a => a_addr a | None => 0 end
  end.

Lemma find_mmap_ok p todo : ∀ fuel s l1,
  areas_in p s (l1 ++ todo) → (length todo < fuel)%nat →
  find_mmap_loop fuel (pvma p) (succ_of (pvma p) todo) s =
    Ok (match filter (λ x, is_map x.2 = true) todo with x :: _ => x.1 | [] => 0 end).
Proof.
  induction todo as [|[v a] todo IH]; intros fuel s l1 Hw Hfuel; (destruct fuel as [|fuel]; [cbn in Hfuel; lia|]).
  - cbn [find_mmap_loop]. change (succ_of (pvma p) []) with (pvma p). by rewrite Z.eqb_refl.
  - pose proof (w_ring _ _ _ Hw) as Hring. destruct (nodup_split _ _ _ _ _ (r_nodup _ _ _ Hring)) as (N1 & _).
    cbn [find_mmap_loop]. change (succ_of (pvma p) ((v, a) :: todo)) with v. rewrite (proj2 (Z.eqb_neq _ _)) by done.
    rewrite (ld_ok s v _ (ring_at _ _ _ _ _ _ Hring)). cbn [bind data next]. fold (is_map a).
    destruct (is_map a) eqn:E.
    + by rewrite filter_cons_True.
    + rewrite filter_cons_False by (cbn; by rewrite E). apply (IH fuel s (l1 ++ [(v, a)])); [by rewrite <-app_assoc|cbn in Hfuel; lia].
Qed.

Lemma find_place p s l :
  areas_in p s l →
  ∃ f x, find_mmap_vma (pvma p) s = Ok f ∧ ld (if f =? 0 then pvma p else f) s = Ok x ∧ a_addr (data x) = first_addr p s l.
Proof.
  intros Hw. pose proof (w_ring _ _ _ Hw) as Hring. unfold find_mmap_vma.
  destruct (ring_hd _ _ _ Hring) as [a0 Hh]. rewrite (ld_ok s _ _ Hh). cbn [bind next].
  rewrite (find_mmap_ok p l (ring_fuel s) s [] Hw).
  2:{ unfold ring_fuel. pose proof (ring_size _ _ _ Hring). lia. }
  unfold first_addr. destruct (filter _ l) as [|[v a] rest] eqn:Ef.
  - eexists 0, _. split; [done|]. change (0 =? 0) with true. cbv iota. rewrite (ld_ok s _ _ Hh). split; [done|]. unfold dt. by rewrite Hh.
  - assert (Hin : (v, a) ∈ l) by (apply (list_elem_of_filter (λ x, is_map x.2 = true)); rewrite Ef; left).
    apply list_elem_of_split in Hin as (l1 & l2 & El). rewrite El in Hring.
    pose proof (ring_at _ _ _ _ _ _ Hring) as Hv. destruct (w_nodes _ _ _ Hw v ltac:(eauto)) as [Hv0 _].
    exists v, (mk_vma a (pred_of (pvma p) l1) (succ_of (pvma p) l2)). split; [done|].
    rewrite (proj2 (Z.eqb_neq v 0)) by done. split; [by apply ld_ok|done].
Qed.

(** The heap size of the process and the cursor matter to no area. *)
Lemma areas_other p p' s s' l :
  areas_in p s l → pvma p' = pvma p → pagetable p' = pagetable p → vms s' = vms s → vmas s' = vmas s → areas_in p' s' l.
Proof. intros [W1 W2 W3 W4 W5 W6] E1 E2 E3 E4. split; rewrite ?E1, ?E2, ?E3, ?E4; done. Qed.

Lemma choose_start_other faddr start len p s b p' s' :
  choose_start faddr start len p s = (b, p', s') →
  pvma p' = pvma p ∧ pagetable p' = pagetable p ∧ vms s' = vms s ∧ vmas s' = vmas s ∧ ofile p' = ofile p ∧
  segs s' = segs s ∧ fs s' = fs s ∧ shm_segs s' = shm_segs s.
Proof.
  unfold choose_start. repeat case_match; intros; simplify_eq; done.
Qed.


(** ** mmap *)

Lemma filled_of_quiet p s0 s1 s2 X fl :
  quiet p s0 s1 → (∀ b, pa_owned (al (vms s0)) b → pa_owned (al (vms s1)) b) → filled p s1 s2 X fl → filled p s0 s2 X fl.
Proof.
  intros Q Hown [F1 F2 F3 F4 F5 F6 F7 F8 F9 F10 F11].
  assert (Hh : ∀ b, held s1 b ↔ held s0 b).
  { intros b. rewrite (sw_held _ _ _ _ Q). split; [by intros []|]. intros ?. split; [done|]. by intros (? & [] & _). }
  split; try done.
  - intros va Hva Hn. rewrite F1 by done. apply (sw_keep _ _ _ _ Q); [done|tauto].
  - intros i Hi. destruct (F3 i Hi) as (G1 & G2 & G3 & G4). split_and!; try done; try apply G3. auto.
  - intros x Hx. rewrite F6 by done. by rewrite (sw_dm _ _ _ _ Q).
  - auto.
  - intros b Hb. by apply F8, Hh.
  - intros b Hb. destruct (F9 b Hb) as [Hx|?]; [left; by apply Hh|by right].
  - intros q a Hq Ha. apply F10; [done|]. by rewrite (sw_tables _ _ _ _ Q).
  - intros q a Hq Ha. destruct (F11 q a Hq Ha) as [Hx|Hx]; [left; by rewrite <-(sw_tables _ _ _ _ Q)|right; auto].
Qed.

(** Only the memory of the first state and the page table matter. *)
Lemma filled_base p s s0 s2 X fl : filled p s0 s2 X fl → vms s0 = vms s → vmas s0 = vmas s → filled p s s2 X fl.
Proof.
  intros [F1 F2 F3 F4 F5 F6 F7 F8 F9 F10 F11] E1 E2. unfold held in *. rewrite E1, E2 in *. by split.
Qed.
Lemma filled_proc p p' s s' X fl : filled p s s' X fl → pagetable p' = pagetable p → filled p' s s' X fl.
Proof.
  intros [F1 F2 F3 F4 F5 F6 F7 F8 F9 F10 F11] E. unfold pr, fr in *. split; unfold pr, fr; rewrite ?E; done.
Qed.

(** What a private anonymous mapping asks for: no fixed address, nothing
    shared, pages on demand of the kernel. *)
Record private_anon (flags : Z) : Prop := {
  pn_anon : has flags MAP_ANONYMOUS = true;
  pn_private : has flags MAP_PRIVATE = true;
  pn_shared : has flags MAP_SHARED = false;
  pn_fixed : has flags MAP_FIXED = false;
  pn_alloc : has flags MAP_ALLOC = false
}.

Definition map_pages (len : Z) : Z := (len + 4095) / 4096.

(** The area of such a mapping. *)
Definition map_area (prot lo len off : Z) : area :=
  let a := mk_area MMAP (get_mmapperms prot) prot lo (u64 len) (lo + map_pages len * 4096) 0 (-1) (u64 off) 0 1 0 in
  if prot =? PROT_NONE then a else marked prot a.

Lemma roundup_div a : 0 ≤ a < 2 ^ 63 → PGROUNDUP a = (a + 4095) / 4096 * 4096.
Proof.
  intros Ha. unfold PGROUNDUP. change (PGSIZE) with 4096. replace (a + 4096 - 1) with (a + 4095) by lia. rewrite u64_small by lia.
  fold PGSIZE. apply PGROUNDDOWN_div. lia.
Qed.

Lemma aligned_div a : a mod 4096 = 0 → a = a / 4096 * 4096.
Proof. intros Ha. pose proof (Z.div_mod a 4096 ltac:(lia)). lia. Qed.

(** The bounds of the new area. *)
Lemma map_bounds b len :
  b mod 4096 = 0 → 0 ≤ b → 0 < len → b + len ≤ MAXVA →
  PGROUNDUP b = b ∧ PGROUNDUP (u64 (b + len)) = b + map_pages len * 4096 ∧ 0 < map_pages len ∧
  b / 4096 + map_pages len ≤ 2 ^ 26 ∧ (map_pages len - 1) * 4096 < len ≤ map_pages len * 4096.
Proof.
  intros Hb H2 H3 H4. unfold map_pages, MAXVA in *. pose proof (aligned_div b Hb) as Eb.
  assert (Hp : (b + len + 4095) / 4096 = b / 4096 + (len + 4095) / 4096).
  { replace (b + len + 4095) with (len + 4095 + b / 4096 * 4096) by lia. rewrite Z.div_add by lia. lia. }
  pose proof (Z.div_mod (len + 4095) 4096 ltac:(lia)). pose proof (Z.mod_pos_bound (len + 4095) 4096 ltac:(lia)).
  rewrite u64_small by lia. rewrite !roundup_div by lia. rewrite Hp. split_and!; try lia.
  replace (b + 4095) with (4095 + b / 4096 * 4096) by lia. rewrite Z.div_add by lia. change (4095 / 4096) with 0. lia.
Qed.

Lemma private_flags flags : private_anon flags →
  has flags (Z.lor (Z.lor MAP_PRIVATE MAP_SHARED) MAP_SHARED_VALIDATE) = true ∧
  (Z.land flags (Z.lor MAP_PRIVATE MAP_SHARED) =? 0) = false.
Proof.
  intros [_ Hp _ _ _]. change (Z.lor (Z.lor MAP_PRIVATE MAP_SHARED) MAP_SHARED_VALIDATE) with 3.
  change (Z.lor MAP_PRIVATE MAP_SHARED) with 3. unfold has, truthy in *.
  assert (Z.land flags 3 ≠ 0).
  { intros E. assert (E2 : Z.land flags MAP_PRIVATE = 0).
    { change MAP_PRIVATE with (Z.land 3 MAP_PRIVATE). by rewrite Z.land_assoc, E. }
    rewrite E2 in Hp. done. }
  rewrite (proj2 (Z.eqb_neq _ _)) by done. done.
Qed.

(** The new area, before its pages. *)
Lemma mmap_area p s l start len prot flags off b p' s0 n :
  areas_in p s l → sorted l.*2 → private_anon flags → 0 < len →
  choose_start (first_addr p s l) start len p s = (b, p', s0) →
  b mod 4096 = 0 → 0 ≤ b → b + len ≤ MAXVA → clear b (b + map_pages len * 4096) l.*2 → pa_avail (al (vms s)) (S n) →
  let a := mk_area MMAP (get_mmapperms prot) prot b (u64 len) (b + map_pages len * 4096) 0 (-1) (u64 off) 0 1 0 in
  ∃ v s1 s2 la lb, l = la ++ lb ∧
    alloc_mmap_vma p flags start len (get_mmapperms prot) (-1) off s = Ok (v, p', s1) ∧
    (∃ x, ld v s1 = Ok x ∧ a_addr (data x) = b) ∧ set_data v (set_prot prot) s1 = Ok s2 ∧
    areas_in p s2 (la ++ (v, a) :: lb) ∧ sorted (la ++ (v, a) :: lb).*2 ∧ quiet p s0 s2 ∧ pa_avail (al (vms s2)) n ∧
    (∀ x, pa_owned (al (vms s)) x → pa_owned (al (vms s2)) x).
Proof.
  intros Hw Hs Hfl Hlen Hch Hb H2 H3 Hc Hav a.
  destruct (map_bounds b len Hb H2 Hlen H3) as (B1 & B2 & B3 & B4 & B5).
  destruct (choose_start_other _ _ _ _ _ _ _ _ Hch) as (C1 & C2 & C3 & C4 & _).
  assert (Hw0 : areas_in p s0 l) by by apply (areas_other p p s).
  set (a0 := fresh_area MMAP (get_mmapperms prot) b (b + map_pages len * 4096) len).
  assert (Ho : area_ok a0).
  { unfold a0, fresh_area. unfold MAXVA, PGSIZE in *. pose proof (aligned_div b Hb).
    split; cbn; unfold MAXVA, PGSIZE; try done; [lia|lia|]. rewrite Z.mod_add by lia. done. }
  destruct (alloc_vma_ok p s0 l MMAP b len (get_mmapperms prot) n Hw0 Hs) as (v & s1 & la & lb & -> & Hop & Hv0 & Hw1 & Q1 & Hav1 & Hs1 & Hnone & Hown);
    rewrite ?B1, ?B2; try done; [by rewrite C3|]. rewrite B1, B2 in Hw1, Hs1. fold a0 in Hw1, Hs1.
  destruct (set_data_area p s1 la v a0 lb (set_file (-1) (u64 off)) Hw1) as (s2 & Hop2 & Hw2 & Q2 & E2).
  { destruct Ho. by split. }
  destruct (set_data_area p s2 la v _ lb (set_prot prot) Hw2) as (s3 & Hop3 & Hw3 & Q3 & E3).
  { destruct Ho. by split. }
  exists v, s2, s3, la, lb. split_and!; try done.
  - unfold alloc_mmap_vma. destruct (find_place p s _ Hw) as (f & x & -> & Hld & Ex). cbn [bind]. rewrite Hld. cbn [bind].
    rewrite Ex, Hch. change (has flags 1) with (has flags MAP_SHARED). rewrite (pn_alloc _ Hfl), (pn_shared _ Hfl). change (negb (-1 =? -1)) with false. cbn [orb andb].
    assert (Ep : alloc_vma p' MMAP b len (get_mmapperms prot) false 0 s0 = alloc_vma p MMAP b len (get_mmapperms prot) false 0 s0).
    { unfold alloc_vma. by rewrite C1. }
    rewrite Ep, Hop. cbn [bind]. rewrite (proj2 (Z.eqb_neq v 0)) by done.
    rewrite Hop2. done.
  - pose proof (ring_at _ _ _ _ _ _ (w_ring _ _ _ Hw2)) as Hat. eexists. split; [by apply ld_ok|done].
  - rewrite !fmap_app in *. by apply (sorted_replace _ _ a0).
  - apply (quiet_step p s0 s2); [by apply (quiet_step p s0 s1)|done].
  - by rewrite E3, E2.
  - intros x Hx. rewrite E3, E2. apply Hown. by rewrite C3.
Qed.

Lemma mmap_private_ok p s l start len prot flags fd off b p' s0 n :
  areas_in p s l → sorted l.*2 → private_anon flags → 0 < len →
  choose_start (first_addr p s l) start len p s = (b, p', s0) →
  b mod 4096 = 0 → 0 ≤ b → b + len ≤ MAXVA → clear b (b + map_pages len * 4096) l.*2 →
  (prot ≠ PROT_NONE → ∀ i, b / 4096 ≤ i < b / 4096 + map_pages len → pr s p i = false) →
  pa_avail (al (vms s)) (1 + (3 * Z.to_nat (map_pages len) + n)) →
  ∃ v s' la lb, l = la ++ lb ∧ mmap p start len prot flags fd off s = Ok (b, p', s') ∧
    areas_in p s' (la ++ (v, map_area prot b len off) :: lb) ∧ sorted (la ++ (v, map_area prot b len off) :: lb).*2 ∧
    filled p s s' (λ i, prot ≠ PROT_NONE ∧ b / 4096 ≤ i < b / 4096 + map_pages len) (entry_flags prot) ∧
    pa_avail (al (vms s')) n ∧ same_globals s0 s'.
Proof.
  intros Hw Hs Hfl Hlen Hch Hb H2 H3 Hc Hno Hav.
  destruct (map_bounds b len Hb H2 Hlen H3) as (_ & _ & B3 & B4 & B5).
  destruct (choose_start_other _ _ _ _ _ _ _ _ Hch) as (C1 & C2 & C3 & C4 & _).
  destruct (mmap_area p s l start len prot flags off b p' s0 _ Hw Hs Hfl Hlen Hch Hb H2 H3 Hc Hav)
    as (v & s1 & s2 & la & lb & -> & Hop1 & (x & Hld & Ex) & Hop2 & Hw2 & Hs2 & Q2 & Hav2 & Hown2).
  set (a := mk_area MMAP _ _ _ _ _ _ _ _ _ _ _) in *. pose proof (perms_range prot) as Hpm.
  assert (Hrun : mmap p start len prot flags fd off s =
    if prot =? PROT_NONE then Ok (b, p', s2)
    else let* (r, s) := anon_loop (page_fuel (u64 len)) p' v b 0 (u64 len) (get_mmapperms prot) flags prot s2 in
         Ok (if r =? 0 then b else u64 (-1), p', s)).
  { unfold mmap, mmap_check. destruct (private_flags flags Hfl) as [-> ->]. destruct Hfl as [-> F2 -> -> F5]. cbn [negb andb].
    rewrite (proj2 (Z.eqb_neq len 0)), (i32_small (get_mmapperms prot)) by lia. cbn [bind negb Z.eqb andb].
    rewrite Hop1. cbn [bind]. rewrite Hld. cbn [bind]. rewrite Ex, Hop2. cbn [bind]. destruct (prot =? PROT_NONE); [done|].
    cbn [orb]. destruct (anon_loop _ _ _ _ _ _ _ _ _ _) as [[r s']| | |]; done. }
  assert (Hl : ∀ s' X, filled p s2 s' X (entry_flags prot) → filled p s s' X (entry_flags prot)).
  { intros s' X Hf. apply (filled_base p s s0); [|done|done]. apply (filled_of_quiet p s0 s2); [done| |done].
    intros y Hy. apply Hown2. by rewrite <-C3. }
  unfold map_area. fold a. destruct (Z.eqb_spec prot PROT_NONE) as [Hp|Hp].
  - exists v, s2, la, lb. split_and!; try done.
    + apply (filled_ext p s s2 (λ _, False)); [tauto|]. apply Hl, filled_none.
    + by apply (pa_avail_le _ _ _ Hav2); lia.
    + apply Q2.
  - destruct (anon_loop_ok p' la v lb (b / 4096) len flags prot (Z.to_nat (map_pages len)) (page_fuel (u64 len)) s2 a (b / 4096) n)
      as (s3 & Hop3 & Hw3 & Hf3 & Hav3 & Hg3).
    + by apply (areas_other p p' s2).
    + apply Hfl.
    + pose proof (Z.div_pos b 4096). lia.
    + lia.
    + lia.
    + unfold page_fuel, PGSIZE, map_pages in *. unfold MAXVA in *. rewrite u64_small by lia.
      pose proof (Z.div_mod len 4096 ltac:(lia)). pose proof (Z.mod_pos_bound len 4096 ltac:(lia)). lia.
    + intros i Hi. unfold pr. rewrite C2. rewrite <-(Hno Hp i) by lia. destruct (page_addr i ltac:(pose proof (Z.div_pos b 4096); lia)) as [Ha Hd].
      unfold pr, present. rewrite <-C3. f_equal. apply (sw_keep _ _ _ _ Q2); tauto.
    + done.
    + rewrite Z2Nat.id in Hf3 by lia. replace ((b / 4096 - b / 4096) * 4096) with 0 in Hop3 by lia.
      rewrite <-aligned_div in Hop3 by done. rewrite decide_False in Hw3 by lia.
      unfold MAXVA in H3. rewrite (u64_small len) in * by lia.
      exists v, s3, la, lb. split_and!; try done.
      * rewrite Hrun, Hop3. done.
      * by apply (areas_other p' p s3).
      * rewrite !fmap_app in *. apply (sorted_replace _ _ a); [done|apply marked_bounds..].
      * apply Hl. apply (filled_ext p s2 s3 (λ i, b / 4096 ≤ i < b / 4096 + map_pages len)); [tauto|].
        by apply (filled_proc p' p).
      * apply (same_globals_trans s0 s2); [apply Q2|done].
Qed.
End map.
End VmaMap.
