(* ===== verification/VmaFault.v ===== *)
(** * Page faults and copy on write

    The area of an address, the copy of a page before it is written, and the
    page of zeros for an address without a page. *)

From Stdlib Require Import Sorted.
From S2P Require Import Prelude BuddyDefs Pmem CStringDefs CString VMemDefs VMem VMemCopy VMemSpec VmaDefs MmapDefs VmaForkDefs.
From S2P Require Import VmaRing VmaInv VmaUnmap VmaPages VmaMap.
Import Pmem VMemDefs VMem VMemSpec VmaDefs MmapDefs VmaForkDefs VmaRing VmaInv VmaUnmap VmaPages VmaMap.

Module VmaFault.

Definition contains (va : Z) (a : area) : bool := (a_addr a <=? va) && (va <? a_end a).

(** The first area of [l] that contains [va]. *)
Definition area_of_addr (va : Z) (l : list (Z * area)) : option (Z * area) := head (filter (λ x, contains va x.2 = true) l).

Lemma area_of_addr_cons va x l :
  area_of_addr va (x :: l) = if contains va x.2 then Some x else area_of_addr va l.
Proof.
  unfold area_of_addr. destruct (contains va x.2) eqn:E; [by rewrite filter_cons_True|].
  rewrite filter_cons_False; [done|]. by rewrite E.
Qed.
Lemma area_of_addr_in va l x : area_of_addr va l = Some x → x ∈ l ∧ contains va x.2 = true.
Proof.
  induction l as [|y l IH]; [done|]. rewrite area_of_addr_cons. destruct (contains va y.2) eqn:E.
  - intros [= ->]. split; [left|done].
  - intros Hx. destruct (IH Hx). split; [by right|done].
Qed.

Section fault.
Context {St : Type} `{PageAllocator St} `{!PageAllocatorLaws St} `{BlockAllocator St} {Fs : Type} `{MapFiles St Fs}.
Implicit Types (s : mem St Fs) (p : mproc) (l : list (Z * area)).

(** ** The searches *)

Definition addr_or_0 (o : option (Z * area)) : Z := match o with Some x => x.1 | None => 0 end.

Lemma area_at_ok p va todo : ∀ fuel s l1,
  areas_in p s (l1 ++ todo) → (length todo < fuel)%nat →
  area_at fuel (pvma p) (succ_of (pvma p) todo) va s = Ok (addr_or_0 (area_of_addr va todo)).
Proof.
  induction todo as [|[v a] todo IH]; intros fuel s l1 Hw Hfuel; (destruct fuel as [|fuel]; [cbn in Hfuel; lia|]).
  - cbn [area_at]. change (succ_of (pvma p) []) with (pvma p). by rewrite Z.eqb_refl.
  - pose proof (w_ring _ _ _ Hw) as Hring. destruct (nodup_split _ _ _ _ _ (r_nodup _ _ _ Hring)) as (N1 & _).
    cbn [area_at]. change (succ_of (pvma p) ((v, a) :: todo)) with v. rewrite (proj2 (Z.eqb_neq _ _)) by done.
    rewrite (ld_ok s v _ (ring_at _ _ _ _ _ _ Hring)). cbn [bind data next]. rewrite area_of_addr_cons. cbn [snd].
    fold (contains va a). destruct (contains va a); [done|].
    apply (IH fuel s (l1 ++ [(v, a)])); [by rewrite <-app_assoc|cbn in Hfuel; lia].
Qed.

(** The search of the page-fault handler stops at the first area above. *)
Lemma fault_area_ok p va todo : ∀ fuel s l1,
  areas_in p s (l1 ++ todo) → sorted todo.*2 → (length todo < fuel)%nat →
  fault_area fuel (pvma p) (succ_of (pvma p) todo) va s = Ok (addr_or_0 (area_of_addr va todo)).
Proof.
  induction todo as [|[v a] todo IH]; intros fuel s l1 Hw Hs Hfuel; (destruct fuel as [|fuel]; [cbn in Hfuel; lia|]).
  - cbn [fault_area]. change (succ_of (pvma p) []) with (pvma p). by rewrite Z.eqb_refl.
  - pose proof (w_ring _ _ _ Hw) as Hring. destruct (nodup_split _ _ _ _ _ (r_nodup _ _ _ Hring)) as (N1 & _).
    cbn [fault_area]. change (succ_of (pvma p) ((v, a) :: todo)) with v. rewrite (proj2 (Z.eqb_neq _ _)) by done.
    rewrite (ld_ok s v _ (ring_at _ _ _ _ _ _ Hring)). cbn [bind data next]. rewrite area_of_addr_cons. cbn [snd].
    cbn in Hs. apply StronglySorted_inv in Hs as [Hs Hsa]. unfold contains.
    destruct (Z.leb_spec (a_end a) va) as [He|He].
    + rewrite (proj2 (Z.ltb_ge va (a_end a))), andb_false_r by done.
      apply (IH fuel s (l1 ++ [(v, a)])); [by rewrite <-app_assoc|done|cbn in Hfuel; lia].
    + rewrite (proj2 (Z.ltb_lt va (a_end a))), andb_true_r, (proj2 (Z.leb_le va (a_end a))), andb_true_r by lia.
      destruct (Z.leb_spec (a_addr a) va) as [Ha|Ha]; [done|].
      destruct (area_of_addr va todo) as [x|] eqn:Ex; [exfalso|done].
      apply area_of_addr_in in Ex as [Hx Hcx]. unfold contains in Hcx. apply andb_true_iff in Hcx as [Hcx%Z.leb_le _].
      pose proof (proj1 (Forall_forall _ _) Hsa x.2 (list_elem_of_fmap_2 snd _ _ Hx)) as Hb. unfold before in Hb. lia.
Qed.

Lemma run_search {A} p s l (f : nat → Z → Z → mem St Fs → res A) r :
  areas_in p s l → (∀ fuel, (length l < fuel)%nat → f fuel (pvma p) (succ_of (pvma p) l) s = Ok r) →
  (let* h := ld (pvma p) s in f (ring_fuel s) (pvma p) (next h) s) = Ok r.
Proof.
  intros Hw Hf. pose proof (w_ring _ _ _ Hw) as Hring. destruct (ring_hd _ _ _ Hring) as [a0 Hh].
  rewrite (ld_ok s _ _ Hh). cbn [bind next]. apply Hf. unfold ring_fuel. pose proof (ring_size _ _ _ Hring). lia.
Qed.

(** ** The copy of a page *)

Lemma copy_frame (v : vm St) root f n :
  space v root → pa_avail (al v) (S n) → phys f → pa_owned (al v) f → CString.live (dm v) f 4096 →
  ∃ m w d, alloc_page v = Ok (m, w) ∧ phys m ∧ ¬ pa_owned (al v) m ∧ (∀ b, pa_owned (al w) b ↔ b = m ∨ pa_owned (al v) b) ∧
    pa_avail (al w) n ∧ space w root ∧ pt w = pt v ∧ vmem_lock w = vmem_lock v ∧
    CStringDefs.memmove m f PGSIZE (dm w) = Ok d ∧
    ∀ x, d !! x = if decide (m ≤ x < m + 4096) then dm v !! (f + (x - m)) else dm v !! x.
Proof.
  intros Hs Hav Hf Hof Hlv.
  destruct (alloc_page_ok v root n Hs Hav) as (m & w & Hal & Hphys & Hno & Hown & Hav1 & Hs1 & Hpt1 & Hlk1 & Hdm1).
  assert (Hne : f ≠ m) by (intros ->; done).
  destruct (VMemCopy.live_bytes (dm v) f 4096) as (bs & Hlen & Hbs).
  { intros i Hi. apply Hlv. lia. }
  destruct (CString.memmove_written (dm w) f m PGSIZE bs) as (d & Hd & Hwr).
  - unfold PGSIZE. lia.
  - rewrite Hlen. done.
  - intros i c Hi. rewrite Hdm1, zero_mem_lookup, decide_False; [by apply Hbs|]. unfold PGSIZE.
    apply (phys_apart f m); try done. apply lookup_lt_Some in Hi. lia.
  - intros a Ha. rewrite Hdm1, zero_mem_lookup, decide_True by done. eauto.
  - exists m, w, d. split_and!; try done. intros x. rewrite (Hwr x), Hlen. change (Z.of_nat 4096) with 4096.
    case_decide as E.
    + destruct (lookup_lt_is_Some_2 bs (Z.to_nat (x - m))) as [c Hc]; [lia|]. rewrite Hc. symmetry.
      pose proof (Hbs _ _ Hc) as Hx. by rewrite Z2Nat.id in Hx by lia.
    + rewrite Hdm1, zero_mem_lookup, decide_False by (unfold PGSIZE; lia). done.
Qed.

(** What copy on write does to page [i]: a frame of its own, with the same
    contents and permission to write; the old frame is not given back. *)
Record copied p s s' (i : Z) : Prop := {
  co_keep : ∀ va, 0 ≤ va < MAXVA → va / 4096 ≠ i →
    pte_at (pt (vms s')) (pagetable p) va = pte_at (pt (vms s)) (pagetable p) va;
  co_entry : pr s' p i = true ∧ PTE_FLAGS (pte_at (pt (vms s')) (pagetable p) (i * 4096)) =
    Z.lor (PTE_FLAGS (pte_at (pt (vms s)) (pagetable p) (i * 4096))) PTE_W;
  co_frame : phys (fr s' p i) ∧ ¬ pa_owned (al (vms s)) (fr s' p i);
  co_bytes : ∀ x, dm (vms s') !! x =
    if decide (fr s' p i ≤ x < fr s' p i + 4096) then dm (vms s) !! (fr s p i + (x - fr s' p i)) else dm (vms s) !! x;
  co_own : ∀ b, pa_owned (al (vms s')) b ↔ b = fr s' p i ∨ pa_owned (al (vms s)) b;
  co_held : ∀ b, held s' b ↔ b = fr s' p i ∨ held s b;
  co_tables : ∀ q, path q → table_at (pt (vms s')) (pagetable p) q = table_at (pt (vms s)) (pagetable p) q
}.

Lemma pte_flags_range (w : Z) : 0 ≤ PTE_FLAGS w < 1024.
Proof. unfold PTE_FLAGS. change 1023 with (Z.ones 10). rewrite Z.land_ones by lia. apply Z.mod_pos_bound. lia. Qed.

Lemma write_flags (w : Z) :
  has w PTE_V = true → 0 ≤ Z.lor (PTE_FLAGS w) PTE_W < 1024 ∧ Z.lor (Z.lor (PTE_FLAGS w) PTE_W) PTE_V = Z.lor (PTE_FLAGS w) PTE_W.
Proof.
  intros Hv. split; [apply (lor_range _ _ 10); [lia|apply pte_flags_range|unfold PTE_W; lia]|].
  rewrite flags_V in Hv. rewrite <-Z.lor_assoc, (Z.lor_comm PTE_W), Z.lor_assoc. f_equal.
  apply Z.bits_inj. intros n. rewrite Z.lor_spec. destruct (decide (n = 0)) as [->|Hn].
  - change (Z.testbit PTE_V 0) with true. rewrite orb_true_r. rewrite has_V in Hv. by rewrite Z.bit0_odd.
  - destruct (decide (n < 0)); [by rewrite !Z.testbit_neg_r by lia|].
    assert (Z.testbit PTE_V n = false) as ->; [|by rewrite orb_false_r].
    change PTE_V with (2 ^ 0). by rewrite Z.pow2_bits_false by lia.
Qed.

(** The copy itself. *)
Lemma cow_page p s l i n :
  areas_in p s l → 0 ≤ i < 2 ^ 26 → pr s p i = true → phys (fr s p i) → held s (fr s p i) →
  CString.live (dm (vms s)) (fr s p i) 4096 → pa_avail (al (vms s)) (S n) →
  let word := pte_at (pt (vms s)) (pagetable p) (i * 4096) in
  ∃ pte m s1 d s2, vmdo (walk (pagetable p) (i * 4096) false) s = Ok (Some pte, s) ∧ rd pte (vms s) = Ok word ∧
    vmdo alloc_page s = Ok (m, s1) ∧ m ≠ 0 ∧ CStringDefs.memmove m (PTE2PA word) PGSIZE (dm (vms s1)) = Ok d ∧
    vmrun (wr pte (Z.lor (Z.lor (PA2PTE m) (Z.lor (PTE_FLAGS word) PTE_W)) PTE_V)) (with_vms s1 (with_dm (vms s1) d)) = Ok s2 ∧
    areas_in p s2 l ∧ vmas s2 = vmas s ∧ copied p s s2 i ∧ pa_avail (al (vms s2)) n ∧ same_globals s s2.
Proof.
  intros Hw Hi Hp Hf [Hof Hnf] Hlv Hav word. pose proof Hw as [W1 W2 W3 W4 W5 W6]. destruct (page_addr i Hi) as [Hva Hd].
  destruct (copy_frame (vms s) (pagetable p) (fr s p i) n W1 Hav Hf Hof Hlv)
    as (m & v1 & d & Hal & Hphys & Hno & Hown & Hav1 & Hs1 & Hpt1 & Hlk1 & Hmv & Hbytes).
  set (nw := Z.lor (Z.lor (PA2PTE m) (Z.lor (PTE_FLAGS word) PTE_W)) PTE_V).
  assert (Hsd : space (with_dm v1 d) (pagetable p)) by by apply space_dm.
  assert (Hp1 : present (with_dm v1 d) (pagetable p) i = true) by (unfold pr, present in *; cbn; by rewrite Hpt1).
  destruct (write_entry (vms s) (pagetable p) i 0 W1 W2 Hi Hp) as (pte & _ & Hwk & Hrd & _).
  destruct (write_entry (with_dm v1 d) (pagetable p) i nw Hsd) as (pte' & v2 & Hwk' & _ & Hwr & Hs2 & Hal2 & Hdm2 & Hlk2 & Htg & Hpte);
    [by cbn; rewrite Hlk1|done|done|].
  assert (pte' = pte) as ->.
  { rewrite (walk_spec _ (pagetable p) (i * 4096) W1 W2) in Hwk by lia.
    rewrite (walk_spec _ (pagetable p) (i * 4096) Hsd) in Hwk' by (cbn; rewrite ?Hlk1; (done || lia)).
    cbn [pt with_dm] in Hwk'. rewrite Hpt1 in Hwk'. congruence. }
  assert (Hvw : has word PTE_V = true) by exact Hp. destruct (write_flags word Hvw) as [Hfl1 Hfl2].
  destruct (leaf_pte m _ Hphys Hfl1) as (L1 & L2 & L3). fold (leaf_word m (Z.lor (PTE_FLAGS word) PTE_W)) in L1, L2, L3.
  assert (Hself : pte_at (pt v2) (pagetable p) (i * 4096) = nw) by by rewrite Hpte, decide_True.
  assert (Hfr : frame v2 (pagetable p) i = m) by (unfold frame; rewrite Hself; exact L2).
  assert (Hmn : vmas s !! m = None). { destruct (vmas s !! m) eqn:Em; [|done]. destruct Hno. apply W4. eauto. }
  assert (Htb : ∀ q, path q → table_at (pt v2) (pagetable p) q = table_at (pt (vms s)) (pagetable p) q).
  { intros q Hq. rewrite <-Hpt1. apply option_eq. intros x. split; intros Hx; [|by apply Htg].
    destruct (tg_new _ _ _ Htg q x Hq Hx) as [|Hn]; [done|]. destruct Hn. rewrite <-Hal2. by apply (sp_table _ _ Hs2 q). }
  exists pte, m, (with_vms s v1), d, (with_vms s v2). unfold vmdo, vmrun. rewrite Hwk, Hal. cbn [bind vms with_vms].
  rewrite with_vms_id. split_and!; try done; [unfold phys in *; lia|fold nw; by rewrite Hwr| | |by rewrite Hal2].
  - split; cbn [vms vmas with_vms]; [exact Hs2|by rewrite Hlk2; cbn; rewrite Hlk1|exact W3| |by intros q x Hq; rewrite Htb by done; apply W5|exact W6].
    intros x Hx. destruct (W4 x Hx). split; [done|]. rewrite Hal2. cbn. apply Hown. by right.
  - split; unfold pr, fr, held in *; cbn [vms vmas with_vms]; rewrite ?Hfr, ?Hal2; cbn [al with_dm]; try done.
    + intros va V1 V2. rewrite Hpte, decide_False by done. cbn. by rewrite Hpt1.
    + unfold present. rewrite Hself. split; [exact L1|]. etrans; [exact L3|exact Hfl2].
    + intros x. rewrite Hdm2. cbn. apply Hbytes.
    + intros b. rewrite Hown. split; [intros [[->|?] ?]; [by left|by right]|]. intros [->|[? ?]]; [split; [by left|done]|split; [by right|done]].
Qed.


Lemma handle_cow_ok p s l i n :
  areas_in p s l → 0 ≤ i < 2 ^ 26 →
  match area_of_addr (i * 4096) l with
  | Some (v, a) =>
      if has (a_flags a) MAP_PRIVATE && pr s p i then
        phys (fr s p i) → held s (fr s p i) → CString.live (dm (vms s)) (fr s p i) 4096 → pa_avail (al (vms s)) (S n) →
        ∃ s', handle_cow_write p (i * 4096) s = Ok (0, s') ∧ areas_in p s' l ∧ vmas s' = vmas s ∧ copied p s s' i ∧
          pa_avail (al (vms s')) n ∧ same_globals s s'
      else handle_cow_write p (i * 4096) s = Ok (-1, s)
  | None => handle_cow_write p (i * 4096) s = Ok (-1, s)
  end.
Proof.
  intros Hw Hi. destruct (page_addr i Hi) as [Hva Hd]. unfold handle_cow_write.
  pose proof (run_search p s l (λ fuel hd v, area_at fuel hd v (i * 4096)) _ Hw
    (λ fuel, area_at_ok p (i * 4096) l fuel s [] Hw)) as Hat. cbv beta in Hat.
  apply bind_Ok in Hat as (h & Hh & Hat). rewrite Hh. cbn [bind]. rewrite Hat. cbn [bind].
  destruct (area_of_addr (i * 4096) l) as [[v a]|] eqn:Ea; [|done].
  apply area_of_addr_in in Ea as [Hin _]. apply list_elem_of_split in Hin as (l1 & l2 & El). cbn [addr_or_0 fst].
  pose proof Hw as Hw'. rewrite El in Hw'. pose proof (ring_at _ _ _ _ _ _ (w_ring _ _ _ Hw')) as Hv.
  destruct (w_nodes _ _ _ Hw v ltac:(eauto)) as [Hv0 _]. rewrite (proj2 (Z.eqb_neq v 0)) by done.
  rewrite (ld_ok s v _ Hv). cbn [bind data].
  destruct (has (a_flags a) MAP_PRIVATE); cbn [andb]; [|done]. destruct (pr s p i) eqn:Hp.
  - intros Hf Hh2 Hlv Hav. destruct (cow_page p s l i n Hw Hi Hp Hf Hh2 Hlv Hav)
      as (pte & m & s1 & d & s2 & -> & Hrd & Hal & Hm & Hmv & Hwr & Hw2 & Hvm & Hco & Hav2 & Hg).
    cbn [bind]. rewrite Hrd. cbn [bind]. assert (has _ PTE_V = true) as -> by exact Hp.
    rewrite Hal. cbn [bind]. rewrite (proj2 (Z.eqb_neq m 0)) by done. rewrite Hmv. cbn [bind]. rewrite Hwr. cbn [bind]. eauto 10.
  - unfold vmdo. rewrite (walk_spec (vms s) (pagetable p) (i * 4096)); [|apply Hw|apply Hw|lia]. cbn [bind]. rewrite with_vms_id.
    destruct (table_at (pt (vms s)) (pagetable p) (vpath (i * 4096))) as [t|] eqn:Et; cbn [fmap option_fmap option_map]; [|done].
    rewrite (rd_pte (vms s) (pagetable p)) by (done || apply Hw). cbn [bind]. assert (has _ PTE_V = false) as -> by exact Hp. done.
Qed.

(** ** The handler *)

Lemma valid_pte_ok p s l i :
  areas_in p s l → 0 ≤ i < 2 ^ 26 →
  ∃ pte, valid_pte p (i * 4096) s =
    Ok (if pr s p i then Some (pte, pte_at (pt (vms s)) (pagetable p) (i * 4096)) else None, s).
Proof.
  intros Hw Hi. destruct (page_addr i Hi) as [Hva Hd]. unfold valid_pte, vmdo.
  rewrite (walk_spec (vms s) (pagetable p) (i * 4096)); [|apply Hw|apply Hw|lia]. cbn [bind]. rewrite with_vms_id.
  destruct (table_at (pt (vms s)) (pagetable p) (vpath (i * 4096))) as [t|] eqn:Et; cbn [fmap option_fmap option_map].
  - exists (slot t (PX 0 (i * 4096))). rewrite (rd_pte (vms s) (pagetable p)) by (done || apply Hw). done.
  - exists 0. assert (pr s p i = false) as ->; [|done]. unfold pr, present, pte_at, leaf. by rewrite Et.
Qed.

(** The flags the handler gives to a page: all of them. *)
Definition all_flags : Z := 159.

(** A page that is there gets all permissions; the page allocated for it is lost. *)
Record granted p s s' (i : Z) : Prop := {
  ga_pte : ∀ va, 0 ≤ va < MAXVA → pte_at (pt (vms s')) (pagetable p) va =
    if decide (va / 4096 = i) then Z.lor (pte_at (pt (vms s)) (pagetable p) (i * 4096)) all_flags
    else pte_at (pt (vms s)) (pagetable p) va;
  ga_held : ∀ b, held s b → held s' b;
  ga_dm : ∃ m, ¬ pa_owned (al (vms s)) m ∧ pa_owned (al (vms s')) m ∧ phys m ∧ dm (vms s') = zero_mem m PGSIZE (dm (vms s));
  ga_tables : ∀ q, path q → table_at (pt (vms s')) (pagetable p) q = table_at (pt (vms s)) (pagetable p) q
}.

Lemma fault_zero_absent p s l i n :
  areas_in p s l → 0 ≤ i < 2 ^ 26 → pr s p i = false → pa_avail (al (vms s)) (3 + n) →
  ∃ s', fault_zero p (i * 4096) s = Ok (0, s') ∧ areas_in p s' l ∧ vmas s' = vmas s ∧
    filled p s s' (λ j, j = i) all_flags ∧ pa_avail (al (vms s')) n ∧ same_globals s s'.
Proof.
  intros Hw Hi Hp Hav. destruct (fill_page p s l i all_flags n Hw Hi Hp) as
    (m & s1 & s2 & Hal & Hm0 & Hmod & Hmp & Hw1 & Hp1 & Hw2 & Hv2 & Hf2 & Hav2 & Hg2); [unfold all_flags; lia|done|].
  unfold fault_zero. rewrite Hal. cbn [bind]. rewrite (proj2 (Z.eqb_neq m 0)), Hmod by done. cbn [Z.eqb negb].
  destruct (valid_pte_ok p s1 l i Hw1 Hi) as [pte ->]. rewrite Hp1. cbn [bind].
  change (Z.lor (Z.lor (Z.lor (Z.lor (Z.lor PTE_R PTE_W) PTE_X) PTE_D) PTE_U) PTE_V) with all_flags.
  rewrite Hmp. cbn [bind]. exists s2. split_and!; done.
Qed.

Lemma fault_zero_present p s l i n :
  areas_in p s l → 0 ≤ i < 2 ^ 26 → pr s p i = true → pa_avail (al (vms s)) (S n) →
  ∃ s', fault_zero p (i * 4096) s = Ok (0, s') ∧ areas_in p s' l ∧ vmas s' = vmas s ∧ granted p s s' i ∧
    pa_avail (al (vms s')) n ∧ same_globals s s'.
Proof.
  intros Hw Hi Hp Hav. pose proof Hw as [W1 W2 W3 W4 W5 W6].
  destruct (alloc_page_ok (vms s) (pagetable p) n W1 Hav) as (m & v1 & Hal & Hphys & Hno & Hown & Hav1 & Hs1 & Hpt1 & Hlk1 & Hdm1).
  unfold fault_zero, vmdo at 1. rewrite Hal. cbn [bind]. destruct (Hphys) as [Hm1 Hm2].
  unfold PGSIZE at 1. rewrite (proj2 (Z.eqb_neq m 0)), Hm2 by lia. cbn [Z.eqb negb].
  assert (Hw1 : areas_in p (with_vms s v1) l).
  { split; cbn [vms vmas with_vms]; [exact Hs1|by rewrite Hlk1|exact W3| | |exact W6].
    - intros x Hx. destruct (W4 x Hx). split; [done|]. apply Hown. by right.
    - intros q a Hq Ha. rewrite Hpt1 in Ha. by apply (W5 q). }
  assert (Hp1 : pr (with_vms s v1) p i = true) by (unfold pr, present in *; cbn; by rewrite Hpt1).
  change (Z.lor (Z.lor (Z.lor (Z.lor (Z.lor PTE_R PTE_W) PTE_X) PTE_D) PTE_U) PTE_V) with all_flags.
  set (word := pte_at (pt (vms s)) (pagetable p) (i * 4096)).
  destruct (write_entry v1 (pagetable p) i (Z.lor word all_flags) Hs1) as (pte & v2 & Hwk & Hrd & Hwr & Hs2 & Hal2 & Hdm2 & Hlk2 & Htg & Hpte);
    [by rewrite Hlk1|done|exact Hp1|].
  unfold valid_pte, vmdo, vmrun. cbn [vms with_vms]. rewrite Hwk. cbn [bind vms with_vms]. rewrite Hrd. cbn [bind].
  rewrite Hpt1 in Hrd |- *. fold word. assert (has word PTE_V = true) as -> by exact Hp. cbn [bind vms with_vms]. rewrite Hwr.
  cbn [bind]. eexists. split; [reflexivity|].
  assert (Htb : ∀ q, path q → table_at (pt v2) (pagetable p) q = table_at (pt (vms s)) (pagetable p) q).
  { intros q Hq. rewrite <-Hpt1. apply option_eq. intros x. split; intros Hx; [|by apply Htg].
    destruct (tg_new _ _ _ Htg q x Hq Hx) as [|Hn]; [done|]. destruct Hn. rewrite <-Hal2. by apply (sp_table _ _ Hs2 q). }
  split_and!; [|reflexivity| |by cbn; rewrite Hal2|by split_and!].
  - split; cbn [vms vmas with_vms]; [exact Hs2|by rewrite Hlk2, Hlk1|exact W3| |by intros q x Hq; rewrite Htb by done; apply W5|exact W6].
    intros x Hx. destruct (W4 x Hx). split; [done|]. rewrite Hal2. apply Hown. by right.
  - split; unfold held; cbn [vms vmas with_vms]; rewrite ?Hal2; [| | |exact Htb].
    + intros va Hva. rewrite Hpte by done. fold word. by rewrite Hpt1.
    + intros b [Hb1 Hb2]. split; [apply Hown; by right|done].
    + exists m. split_and!; [exact Hno|apply Hown; by left|exact Hphys|]. by rewrite Hdm2.
Qed.

(** The area of an address is that of its page. *)
Lemma contains_page va a : area_ok a → 0 ≤ va → contains (va / 4096 * 4096) a = contains va a.
Proof.
  intros [A1 A2 A3 A4 A5] Hva. unfold contains, PGSIZE in *. pose proof (Z.div_mod va 4096 ltac:(lia)).
  pose proof (Z.mod_pos_bound va 4096 ltac:(lia)). pose proof (aligned_div _ A3). pose proof (aligned_div _ A4).
  f_equal; [destruct (Z.leb_spec (a_addr a) va), (Z.leb_spec (a_addr a) (va / 4096 * 4096))|
            destruct (Z.ltb_spec va (a_end a)), (Z.ltb_spec (va / 4096 * 4096) (a_end a))]; try done; lia.
Qed.
Lemma area_of_page va l : Forall area_ok l.*2 → 0 ≤ va → area_of_addr (va / 4096 * 4096) l = area_of_addr va l.
Proof.
  intros Ha Hva. induction l as [|x l IH]; [done|]. cbn in Ha. apply Forall_cons in Ha as [A1 A2].
  by rewrite !area_of_addr_cons, contains_page, IH.
Qed.

(** Which pages of an area are copied on a fault. *)
Definition needs_copy p s (a : area) (i : Z) : bool :=
  has (a_flags a) MAP_PRIVATE && pr s p i && negb (has (pte_at (pt (vms s)) (pagetable p) (i * 4096)) PTE_W).

(** The handler for an area without a file and without a segment. *)
Lemma fault_in_ok p s l v a addr :
  areas_in p s l → sorted l.*2 → 0 ≤ addr < MAXVA → area_of_addr addr l = Some (v, a) → orig_prot a ≠ PROT_NONE → a_fd a = -1 →
  let i := addr / 4096 in
  fault_in p a addr (i * 4096) s =
    if needs_copy p s a i then let* (r, s) := handle_cow_write p (i * 4096) s in
                               if r =? 0 then Ok (0, [], s) else let* (r, s) := fault_zero p (i * 4096) s in Ok (r, [], s)
    else let* (r, s) := fault_zero p (i * 4096) s in Ok (r, [], s).
Proof.
  intros Hw Hs Ha Hat Hp Hfd i. assert (Hi : 0 ≤ i < 2 ^ 26).
  { unfold MAXVA in Ha. split; [apply Z.div_pos; lia|]. apply Z.div_lt_upper_bound; lia. }
  apply area_of_addr_in in Hat as [Hin _]. apply list_elem_of_split in Hin as (l1 & l2 & ->).
  pose proof (ao_private _ (area_of _ _ _ _ _ _ Hw)) as Hsh.
  unfold fault_in, fault_cow, needs_copy. rewrite (proj2 (Z.eqb_neq _ _)) by done. rewrite Hfd, Hsh.
  change (-1 =? -1) with true. cbn [negb]. rewrite andb_false_r.
  destruct (has (a_flags a) MAP_PRIVATE); cbn [andb bind Z.eqb negb]; [|done].
  destruct (valid_pte_ok p s _ i Hw Hi) as [pte ->]. cbn [bind]. destruct (pr s p i); cbn [andb bind Z.eqb negb]; [|done].
  destruct (negb (has _ PTE_W)); cbn [bind Z.eqb negb]; [|done].
  destruct (handle_cow_write p (i * 4096) s) as [[r s1]| | |]; cbn [bind]; try done. rewrite andb_true_r.
  destruct (r =? 0); cbn [bind Z.eqb negb]; done.
Qed.

Lemma pagefault_ok p s l addr :
  areas_in p s l → sorted l.*2 → 0 ≤ addr < MAXVA →
  pagefault_handler p addr s =
    match area_of_addr addr l with
    | Some (_, a) => fault_in p a addr (addr / 4096 * 4096) s
    | None => if addr <=? psz p then let* (r, s) := fault_zero p (addr / 4096 * 4096) s in Ok (r, [], s)
              else Ok (-1, [SIGSEGV], s)
    end.
Proof.
  intros Hw Hs Ha. unfold pagefault_handler. rewrite PGROUNDDOWN_div by lia.
  pose proof (run_search p s l (λ fuel hd v, fault_area fuel hd v addr) _ Hw
    (λ fuel, fault_area_ok p addr l fuel s [] Hw Hs)) as Hat. cbv beta in Hat.
  apply bind_Ok in Hat as (h & Hh & Hat). rewrite Hh. cbn [bind]. rewrite Hat. cbn [bind].
  destruct (area_of_addr addr l) as [[v a]|] eqn:Ea; cbn [addr_or_0 fst]; [|by change (0 =? 0) with true].
  apply area_of_addr_in in Ea as [Hin _]. apply list_elem_of_split in Hin as (l1 & l2 & ->).
  pose proof (ring_at _ _ _ _ _ _ (w_ring _ _ _ Hw)) as Hv. destruct (w_nodes _ _ _ Hw v ltac:(eauto)) as [Hv0 _].
  rewrite (proj2 (Z.eqb_neq v 0)) by done. cbn [negb]. by rewrite (ld_ok s v _ Hv).
Qed.

End fault.
End VmaFault.
