(* ===== verification/VmaView.v ===== *)
(** * The address space of a process

    [areas_of]: the areas in the order of the ring.  [view]: the bytes that the
    process sees in its mappings, through its page table.  [mem_inv]: what
    mmap, munmap and page faults keep: the areas are in order, every page of a
    mapping has a frame of its own, and there is no page outside of the areas
    but for the program, the heap and what the kernel keeps at the top. *)

From Stdlib Require Import Sorted.
From S2P Require Import Prelude BuddyDefs Pmem CStringDefs CString VMemDefs VMem VMemSpec VmaDefs MmapDefs VmaForkDefs.
From S2P Require Import VmaRing VmaInv VmaUnmap VmaPages VmaMap VmaFault.
Import Pmem VMemDefs VMem VMemSpec VmaDefs MmapDefs VmaForkDefs VmaRing VmaInv VmaUnmap VmaPages VmaMap VmaFault.

Module VmaView.

Definition in_area (i : Z) (a : area) : bool := (a_addr a / 4096 <=? i) && (i <? a_end a / 4096).
Definition is_stack (a : area) : bool := bool_decide (a_type a = STACK).
(** Page [i] lies in an area; in a mapping, any area but the stack. *)
Definition covered (l : list area) (i : Z) : bool := existsb (in_area i) l.
Definition mapping (l : list area) (i : Z) : bool := existsb (λ a, negb (is_stack a) && in_area i a) l.

(** What lies below [USER_MMAP_START] is a mapping. *)
Definition low (l : list area) : Prop := Forall (λ a, a_type a = MMAP ∨ a_type a = SHARE ∨ USER_MMAP_START ≤ a_addr a) l.

#[export] Instance goes_dec start end_ a i : Decision (goes start end_ a i).
Proof. unfold goes. apply _. Defined.
#[export] Instance gone_dec start end_ (l : list area) i : Decision (gone start end_ l i).
Proof.
  refine (cast_if (decide (Exists (λ a, goes start end_ a i) l))); abstract (unfold gone; rewrite <-Exists_exists; done).
Defined.

Lemma covered_spec l i : covered l i = true ↔ ∃ a, a ∈ l ∧ in_area i a = true.
Proof. unfold covered. rewrite existsb_exists. by setoid_rewrite list_elem_of_In. Qed.
Lemma mapping_spec l i : mapping l i = true ↔ ∃ a, a ∈ l ∧ a_type a ≠ STACK ∧ in_area i a = true.
Proof.
  unfold mapping, is_stack. rewrite existsb_exists. split.
  - intros (a & Ha%list_elem_of_In & [Ht%negb_true_iff Hi]%andb_true_iff). apply bool_decide_eq_false in Ht. eauto.
  - intros (a & Ha%list_elem_of_In & Ht & Hi). exists a. by rewrite bool_decide_false.
Qed.
Lemma in_area_spec i a : in_area i a = true ↔ a_addr a / 4096 ≤ i < a_end a / 4096.
Proof. unfold in_area. rewrite andb_true_iff, Z.leb_le, Z.ltb_lt. done. Qed.
Lemma mapping_covered l i : mapping l i = true → covered l i = true.
Proof. rewrite mapping_spec, covered_spec. intros (a & ? & _ & ?). eauto. Qed.
Lemma covered_user l : Forall area_ok l → in_user (λ i, covered l i = true).
Proof.
  intros Hl i (a & Ha & Hi)%covered_spec. destruct (proj1 (Forall_forall _ _) Hl a Ha) as [A1 A2 _ _ _].
  apply in_area_spec in Hi. pose proof (Z.div_pos (a_addr a) 4096 ltac:(lia) ltac:(lia)).
  pose proof (Z.div_le_mono (a_end a) MAXVA 4096 ltac:(lia) A2) as Hd. change (MAXVA / 4096) with (2 ^ 26) in Hd. lia.
Qed.
Lemma mapping_user l : Forall area_ok l → in_user (λ i, mapping l i = true).
Proof. intros Hl i Hi. by apply (covered_user l Hl), mapping_covered. Qed.
Lemma covered_app l1 l2 i : covered (l1 ++ l2) i = covered l1 i || covered l2 i.
Proof. apply existsb_app. Qed.
Lemma mapping_app l1 l2 i : mapping (l1 ++ l2) i = mapping l1 i || mapping l2 i.
Proof. apply existsb_app. Qed.

Section view.
Context {St : Type} `{PageAllocator St} `{!PageAllocatorLaws St} `{BlockAllocator St} {Fs : Type} `{MapFiles St Fs}.
Implicit Types (s : mem St Fs) (p : mproc) (l : list (Z * area)).

(** ** The areas in memory *)

Fixpoint ring_walk (fuel : nat) (head v : Z) s : list (Z * area) :=
  match fuel with
  | O => []
  | S fuel =>
      if v =? head then []
      else match vmas s !! v with Some x => (v, data x) :: ring_walk fuel head (next x) s | None => [] end
  end.
Definition areas_of p s : list (Z * area) :=
  match vmas s !! pvma p with Some h => ring_walk (ring_fuel s) (pvma p) (next h) s | None => [] end.

Lemma ring_walk_ok p todo : ∀ fuel s l1,
  areas_in p s (l1 ++ todo) → (length todo < fuel)%nat → ring_walk fuel (pvma p) (succ_of (pvma p) todo) s = todo.
Proof.
  induction todo as [|[v a] todo IH]; intros fuel s l1 Hw Hfuel; (destruct fuel as [|fuel]; [cbn in Hfuel; lia|]); cbn [ring_walk].
  - change (succ_of (pvma p) []) with (pvma p). by rewrite Z.eqb_refl.
  - pose proof (w_ring _ _ _ Hw) as Hring. destruct (nodup_split _ _ _ _ _ (r_nodup _ _ _ Hring)) as (N1 & _).
    change (succ_of (pvma p) ((v, a) :: todo)) with v. rewrite (proj2 (Z.eqb_neq _ _)) by done.
    rewrite (ring_at _ _ _ _ _ _ Hring). cbn [data next]. f_equal.
    apply (IH fuel s (l1 ++ [(v, a)])); [by rewrite <-app_assoc|cbn in Hfuel; lia].
Qed.
Lemma areas_of_ok p s l : areas_in p s l → areas_of p s = l.
Proof.
  intros Hw. pose proof (w_ring _ _ _ Hw) as Hring. unfold areas_of. destruct (ring_hd _ _ _ Hring) as [a0 ->].
  cbn [next]. apply (ring_walk_ok p l _ s [] Hw). unfold ring_fuel. pose proof (ring_size _ _ _ Hring). lia.
Qed.
Lemma areas_of_same p p' s : pvma p' = pvma p → areas_of p' s = areas_of p s.
Proof. intros E. unfold areas_of. by rewrite E. Qed.

(** ** What the process sees *)

Definition view p s (va : Z) : option Z :=
  if mapping (areas_of p s).*2 (va / 4096) && pr s p (va / 4096) then dm (vms s) !! (fr s p (va / 4096) + va mod 4096)
  else None.

(** ** The invariant *)

Record mem_inv_of p s l : Prop := {
  mi_areas : areas_in p s l;
  mi_sorted : sorted l.*2;
  mi_frames : frames_ok p s (λ i, mapping l.*2 i = true);
  mi_live : ∀ i, mapping l.*2 i = true → pr s p i = true → phys (fr s p i) ∧ CString.live (dm (vms s)) (fr s p i) 4096;
  mi_pages : ∀ i, 0 ≤ i < 2 ^ 26 → pr s p i = true → covered l.*2 i = true ∨ i * 4096 < psz p ∨ MAXUVA ≤ i * 4096;
  mi_heap : 0 ≤ psz p ≤ MAXVA;
  mi_low : low l.*2
}.
Definition mem_inv p s : Prop := mem_inv_of p s (areas_of p s).

Lemma mem_inv_intro p s l : mem_inv_of p s l → mem_inv p s.
Proof. intros Hi. unfold mem_inv. by rewrite (areas_of_ok p s l (mi_areas _ _ _ Hi)). Qed.

(** The condition on the frames is one on the pages that are there. *)
Lemma frames_present p s (X Y : Z → Prop) : (∀ i, Y i → pr s p i = true → X i) → frames_ok p s X → frames_ok p s Y.
Proof. intros Hs [F1 F2 F3]. split; eauto. Qed.

(** A byte of a page of the mappings lies in no page that was free. *)
Lemma frame_apart p s l i m o :
  mem_inv_of p s l → mapping l.*2 i = true → pr s p i = true → phys m → ¬ pa_owned (al (vms s)) m → 0 ≤ o < 4096 →
  ¬ (m ≤ fr s p i + o < m + 4096).
Proof.
  intros Hi Hm Hp Hf Hn Ho. apply (phys_apart (fr s p i) m); [by apply (mi_live _ _ _ Hi)|done| |lia].
  intros E. apply Hn. rewrite <-E. destruct (f_own _ _ _ (mi_frames _ _ _ Hi) i Hm Hp) as (_ & [? _] & _). done.
Qed.

Lemma mod_page va : 0 ≤ va mod 4096 < 4096.
Proof. apply Z.mod_pos_bound. lia. Qed.

Lemma view_eq p s l va :
  areas_in p s l → view p s va =
    if mapping l.*2 (va / 4096) && pr s p (va / 4096) then dm (vms s) !! (fr s p (va / 4096) + va mod 4096) else None.
Proof. intros Hw. unfold view. by rewrite (areas_of_ok p s l Hw). Qed.

(** The same entry gives the same page. *)
Lemma same_page p p' s s' i :
  pagetable p' = pagetable p →
  pte_at (pt (vms s')) (pagetable p) (i * 4096) = pte_at (pt (vms s)) (pagetable p) (i * 4096) →
  pr s' p' i = pr s p i ∧ fr s' p' i = fr s p i.
Proof. intros Ep E. unfold pr, fr, present, frame. by rewrite Ep, E. Qed.

(** *** Pages that go *)

Lemma swept_inv p s s' l l' X `{!∀ i, Decision (X i)} :
  mem_inv_of p s l → swept p s s' X → areas_in p s' l' → sorted l'.*2 → (∀ i, X i → mapping l.*2 i = true) →
  (∀ i, mapping l'.*2 i = true → mapping l.*2 i = true) → (∀ i, mapping l.*2 i = true → X i ∨ mapping l'.*2 i = true) →
  (∀ i, covered l.*2 i = true → X i ∨ covered l'.*2 i = true) → low l'.*2 →
  mem_inv_of p s' l' ∧ ∀ va, view p s' va = if decide (X (va / 4096)) then None else view p s va.
Proof.
  intros Hi Hsw Hw' Hs' Hx H3 H4 H5 H6. pose proof (mi_areas _ _ _ Hi) as Hw. pose proof (w_areas _ _ _ Hw) as Ha.
  assert (Hgone : ∀ i, X i → pr s' p i = false).
  { intros i X1. apply (swept_absent p s s' X); [done|by apply (mapping_user _ Ha), Hx|done]. }
  assert (Hkeep : ∀ i, 0 ≤ i < 2 ^ 26 → ¬ X i → pr s' p i = pr s p i ∧ fr s' p i = fr s p i).
  { intros i Hu Hn. by destruct (swept_page p s s' X i Hsw Hu Hn) as (_ & ? & ?). }
  assert (Hpres : ∀ i, 0 ≤ i < 2 ^ 26 → pr s' p i = true → ¬ X i ∧ pr s p i = true ∧ fr s' p i = fr s p i).
  { intros i Hu Hp. destruct (decide (X i)) as [X1|X1]; [rewrite Hgone in Hp; done|]. destruct (Hkeep i Hu X1). split_and!; congruence. }
  assert (Hmu : ∀ i, mapping l'.*2 i = true → 0 ≤ i < 2 ^ 26) by (intros i Hm; by apply (mapping_user _ Ha), H3).
  split; [split|]; try done.
  - apply (frames_present p s' (λ i, mapping l.*2 i = true ∧ ¬ X i)).
    + intros i Hm Hp. split; [by apply H3|]. by apply (Hpres i (Hmu i Hm)).
    + apply (frames_swept p s s' X); try done; [intros i [? _]; by apply (mapping_user _ Ha)|tauto|].
      apply (frames_sub p s (λ i, mapping l.*2 i = true)); [|apply Hi]. intros i [?|[? _]]; auto.
  - intros i Hm Hp. destruct (Hpres i (Hmu i Hm) Hp) as (Hn & Hp0 & ->). rewrite (sw_dm _ _ _ _ Hsw).
    by apply (mi_live _ _ _ Hi); [apply H3|].
  - intros i Hu Hp. destruct (Hpres i Hu Hp) as (Hn & Hp0 & _). destruct (mi_pages _ _ _ Hi i Hu Hp0) as [Hc|?]; [|by right].
    destruct (H5 i Hc); [done|by left].
  - apply Hi.
  - intros va. rewrite (view_eq p s' l'), (view_eq p s l), (sw_dm _ _ _ _ Hsw) by done. case_decide as X1.
    + by rewrite Hgone, andb_false_r.
    + destruct (mapping l.*2 (va / 4096)) eqn:Em.
      * destruct (H4 _ Em) as [|Em']; [done|]. destruct (Hkeep (va / 4096)) as [-> ->]; [by apply Hmu|done|]. by rewrite Em'.
      * destruct (mapping l'.*2 (va / 4096)) eqn:Em'; [|done]. apply H3 in Em'. congruence.
Qed.

(** *** Pages of zeros *)

Lemma filled_inv p p' s s' l l' X fl `{!∀ i, Decision (X i)} :
  mem_inv_of p s l → filled p s s' X fl → (∀ i, X i → fl ≠ PTE_V) → areas_in p' s' l' → sorted l'.*2 →
  pagetable p' = pagetable p → psz p ≤ psz p' ≤ MAXVA → in_user X →
  (∀ i, X i → pr s p i = false) → (∀ i, X i → covered l'.*2 i = true ∨ i * 4096 < psz p') →
  (∀ i, mapping l'.*2 i = true → pr s p i = true → mapping l.*2 i = true) →
  (∀ i, mapping l.*2 i = true → mapping l'.*2 i = true) → (∀ i, covered l.*2 i = true → covered l'.*2 i = true) →
  low l'.*2 → mem_inv_of p' s' l' ∧
  ∀ va, view p' s' va = if decide (X (va / 4096)) then if mapping l'.*2 (va / 4096) then Some 0 else None else view p s va.
Proof.
  intros Hi Hf Hfl Hw' Hs' Ep Hz Ux Hx Hxc Hm1 Hm2 Hc Hlow. pose proof (mi_areas _ _ _ Hi) as Hw. pose proof (w_areas _ _ _ Hw) as Ha.
  assert (Epr : ∀ i, pr s' p' i = pr s' p i) by (intros i; unfold pr; by rewrite Ep).
  assert (Efr : ∀ i, fr s' p' i = fr s' p i) by (intros i; unfold fr; by rewrite Ep).
  assert (Hkeep : ∀ i, 0 ≤ i < 2 ^ 26 → ¬ X i → pr s' p i = pr s p i ∧ fr s' p i = fr s p i).
  { intros i Hu Hn. destruct (page_addr i Hu) as [Hva Hd]. apply same_page; [done|]. apply (fi_keep _ _ _ _ _ Hf); [done|by rewrite Hd]. }
  assert (Hmu : ∀ i, mapping l'.*2 i = true → 0 ≤ i < 2 ^ 26) by (apply (mapping_user l'.*2), (w_areas _ _ _ Hw')).
  assert (Hold : ∀ i, mapping l'.*2 i = true → ¬ X i → pr s' p i = true → mapping l.*2 i = true ∧ pr s p i = true ∧ fr s' p i = fr s p i).
  { intros i Hm Hn Hp. destruct (Hkeep i (Hmu i Hm) Hn) as [E1 E2]. rewrite E1 in Hp. auto. }
  assert (Hdm : ∀ i o, mapping l.*2 i = true → pr s p i = true → 0 ≤ o < 4096 → dm (vms s') !! (fr s p i + o) = dm (vms s) !! (fr s p i + o)).
  { intros i o Hm Hp Ho. apply (fi_dm _ _ _ _ _ Hf). intros j Hj. destruct (fi_frame _ _ _ _ _ Hf j Hj) as (F1 & F2 & _).
    by apply (frame_apart p s l i). }
  split; [split|]; try done.
  - apply (frames_present p' s' (λ i, X i ∨ (mapping l.*2 i = true ∧ pr s p i = true))).
    + intros i Hm Hp. rewrite Epr in Hp. destruct (decide (X i)) as [|Hn]; [by left|right]. destruct (Hold i Hm Hn Hp) as (? & ? & _). done.
    + assert (frames_ok p s' (λ i, X i ∨ (mapping l.*2 i = true ∧ pr s p i = true))) as [F1 F2 F3].
      { apply (frames_filled p s s' X _ fl); try done.
        - intros i [? _]. by apply (mapping_user _ Ha).
        - intros i X1 [_ Hp]. rewrite Hx in Hp; done.
        - apply (frames_sub p s (λ i, mapping l.*2 i = true)); [by intros i []|apply Hi]. }
      split; intros i; [intros ?; rewrite Epr, Ep; by apply F1|intros ?; rewrite Epr, Efr, Ep; by apply F2|].
      intros j Hxi Hxj. rewrite !Epr, !Efr. by apply F3.
  - intros i Hm Hp. rewrite Epr in Hp. rewrite Efr. destruct (decide (X i)) as [X1|X1].
    + split; [by apply (fi_frame _ _ _ _ _ Hf)|]. intros x Hr. replace x with (fr s' p i + (x - fr s' p i)) by lia.
      rewrite (fi_zero _ _ _ _ _ Hf) by (done || lia). eauto.
    + destruct (Hold i Hm X1 Hp) as (O1 & O2 & ->). destruct (mi_live _ _ _ Hi i O1 O2) as [L1 L2]. split; [done|].
      intros x Hr. replace x with (fr s p i + (x - fr s p i)) by lia. rewrite Hdm by (done || lia).
      replace (fr s p i + (x - fr s p i)) with x by lia. by apply L2.
  - intros i Hu Hp. rewrite Epr in Hp. destruct (decide (X i)) as [X1|X1].
    + destruct (Hxc i X1); [by left|by right; left].
    + destruct (Hkeep i Hu X1) as [E1 _]. rewrite E1 in Hp. destruct (mi_pages _ _ _ Hi i Hu Hp) as [|[|]]; [left; auto|right; left; lia|by right; right].
  - pose proof (mi_heap _ _ _ Hi). lia.
  - intros va. pose proof (mod_page va) as Ho. rewrite (view_eq p' s' l'), (view_eq p s l), Epr, Efr by done. set (i := va / 4096) in *.
    case_decide as X1.
    + rewrite (proj1 (fi_entry _ _ _ _ _ Hf i X1)), andb_true_r. destruct (mapping l'.*2 i); [|done]. by apply (fi_zero _ _ _ _ _ Hf).
    + destruct (mapping l'.*2 i) eqn:Em'.
      * destruct (Hkeep i (Hmu i Em') X1) as [-> ->]. destruct (pr s p i) eqn:Hp; [|by rewrite !andb_false_r].
        rewrite (Hm1 i) by done. cbn [andb]. by apply Hdm; [apply Hm1|..].
      * destruct (mapping l.*2 i) eqn:Em; [|done]. rewrite Hm2 in Em'; done.
Qed.

(** *** A page that stays *)

(** What a fault on page [i] may do to a page that is there: change its
    permissions, and its frame for a new one, but not the bytes. *)
Record renewed p s s' l (i : Z) : Prop := {
  rn_keep : ∀ j, 0 ≤ j < 2 ^ 26 → j ≠ i → pte_at (pt (vms s')) (pagetable p) (j * 4096) = pte_at (pt (vms s)) (pagetable p) (j * 4096);
  rn_entry : pr s' p i = true ∧ PTE_FLAGS (pte_at (pt (vms s')) (pagetable p) (i * 4096)) ≠ PTE_V;
  rn_frame : fr s' p i = fr s p i ∨ phys (fr s' p i) ∧ ¬ pa_owned (al (vms s)) (fr s' p i) ∧ held s' (fr s' p i);
  rn_held : ∀ b, held s b → held s' b;
  rn_tables : ∀ q, path q → table_at (pt (vms s')) (pagetable p) q = table_at (pt (vms s)) (pagetable p) q;
  rn_bytes : ∀ j o, mapping l.*2 j = true → pr s p j = true → 0 ≤ o < 4096 → dm (vms s') !! (fr s' p j + o) = dm (vms s) !! (fr s p j + o)
}.

Lemma renewed_pages p s s' l i :
  renewed p s s' l i → pr s p i = true → ∀ j, 0 ≤ j < 2 ^ 26 → pr s' p j = pr s p j ∧ (j = i ∨ fr s' p j = fr s p j).
Proof.
  intros Hr Hp j Hu. destruct (decide (j = i)) as [->|Hn]; [rewrite (proj1 (rn_entry _ _ _ _ _ Hr)); by auto|].
  destruct (same_page p p s s' j eq_refl (rn_keep _ _ _ _ _ Hr j Hu Hn)). auto.
Qed.

(** A frame that a page did not have before belongs to no other page. *)
Lemma renewed_frames p s s' l i :
  mem_inv_of p s l → renewed p s s' l i → pr s p i = true →
  frames_ok p s' (λ j, mapping l.*2 j = true).
Proof.
  intros Hi Hr Hpi. pose proof (mi_areas _ _ _ Hi) as Hw. pose proof (mapping_user _ (w_areas _ _ _ Hw)) as Hmu.
  destruct (mi_frames _ _ _ Hi) as [F1 F2 F3]. pose proof (renewed_pages _ _ _ _ _ Hr Hpi) as Hpg.
  assert (Hown : ∀ j, mapping l.*2 j = true → pr s p j = true → pa_owned (al (vms s)) (fr s p j)).
  { intros j Hm Hp. by destruct (F2 j Hm Hp) as (_ & [? _] & _). }
  assert (Hcase : ∀ j, mapping l.*2 j = true → fr s' p j = fr s p j ∨ j = i ∧ phys (fr s' p i) ∧ ¬ pa_owned (al (vms s)) (fr s' p i) ∧ held s' (fr s' p i)).
  { intros j Hm. destruct (Hpg j (Hmu j Hm)) as [_ [->|]]; [|by left]. destruct (rn_frame _ _ _ _ _ Hr); auto. }
  split.
  - intros j Hm. rewrite (proj1 (Hpg j (Hmu j Hm))). intros Hp. destruct (decide (j = i)) as [->|Hn]; [apply Hr|].
    rewrite (rn_keep _ _ _ _ _ Hr) by auto. by apply F1.
  - intros j Hm. rewrite (proj1 (Hpg j (Hmu j Hm))). intros Hp.
    destruct (Hcase j Hm) as [->|(-> & C1 & C2 & C3)].
    + destruct (F2 j Hm Hp) as (G1 & G2 & G3). split_and!; [done|by apply (rn_held _ _ _ _ _ Hr)|]. intros q Hq. rewrite (rn_tables _ _ _ _ _ Hr) by done. by apply G3.
    + split_and!; [unfold phys in C1; lia|done|]. intros q Hq Ht. rewrite (rn_tables _ _ _ _ _ Hr) in Ht by done. apply C2. by apply (sp_table _ _ (w_space _ _ _ Hw) q).
  - intros j k Hmj Hmk. rewrite (proj1 (Hpg j (Hmu j Hmj))), (proj1 (Hpg k (Hmu k Hmk))). intros Hpj Hpk.
    destruct (Hcase j Hmj) as [->|(-> & _ & C2 & _)], (Hcase k Hmk) as [->|(-> & _ & D2 & _)]; [by apply F3| | |done].
    + intros E. destruct D2. rewrite <-E. by apply Hown.
    + intros E. destruct C2. rewrite E. by apply Hown.
Qed.

Lemma renewed_inv p s s' l i :
  mem_inv_of p s l → areas_in p s' l → renewed p s s' l i → pr s p i = true →
  mem_inv_of p s' l ∧ ∀ va, view p s' va = view p s va.
Proof.
  intros Hi Hw' Hr Hpi. pose proof (mi_areas _ _ _ Hi) as Hw. pose proof (mapping_user _ (w_areas _ _ _ Hw)) as Hmu.
  pose proof (renewed_pages _ _ _ _ _ Hr Hpi) as Hpg. split; [split|]; try apply Hi; try done.
  - by apply (renewed_frames p s s' l i).
  - intros j Hm. rewrite (proj1 (Hpg j (Hmu j Hm))). intros Hp. destruct (mi_live _ _ _ Hi j Hm Hp) as [L1 L2]. split.
    + destruct (Hpg j (Hmu j Hm)) as [_ [-> | ->]]; [|done]. destruct (rn_frame _ _ _ _ _ Hr) as [->|[? _]]; [|done]. by apply (mi_live _ _ _ Hi).
    + intros x Hx. replace x with (fr s' p j + (x - fr s' p j)) by lia. rewrite (rn_bytes _ _ _ _ _ Hr) by (done || lia). apply L2. lia.
  - intros j Hu. rewrite (proj1 (Hpg j Hu)). by apply (mi_pages _ _ _ Hi).
  - intros va. rewrite (view_eq p s' l), (view_eq p s l) by done. destruct (mapping l.*2 (va / 4096)) eqn:Em; [|done].
    rewrite (proj1 (Hpg _ (Hmu _ Em))). destruct (pr s p (va / 4096)) eqn:Hp; [|done]. apply (rn_bytes _ _ _ _ _ Hr); [done..|apply mod_page].
Qed.

(** Copy on write. *)
Lemma copied_renewed p s s' l i :
  mem_inv_of p s l → copied p s s' i → renewed p s s' l i.
Proof.
  intros Hi Hc. pose proof (mapping_user _ (w_areas _ _ _ (mi_areas _ _ _ Hi))) as Hmu.
  destruct (co_entry _ _ _ _ Hc) as [C1 C2]. destruct (co_frame _ _ _ _ Hc) as [C3 C4].
  assert (Hkeep : ∀ j, 0 ≤ j < 2 ^ 26 → j ≠ i → pte_at (pt (vms s')) (pagetable p) (j * 4096) = pte_at (pt (vms s)) (pagetable p) (j * 4096)).
  { intros j Hu Hn. destruct (page_addr j Hu) as [Hva Hd]. apply (co_keep _ _ _ _ Hc); [done|by rewrite Hd]. }
  split; try done.
  - split; [done|]. rewrite C2. intros E.
    assert (E2 : Z.testbit (Z.lor (PTE_FLAGS (pte_at (pt (vms s)) (pagetable p) (i * 4096))) PTE_W) 2 = true)
      by (rewrite Z.lor_spec; change (Z.testbit PTE_W 2) with true; by rewrite orb_true_r). by rewrite E in E2.
  - right. split_and!; [done|done|apply (co_held _ _ _ _ Hc); by left..].
  - intros b Hb. apply (co_held _ _ _ _ Hc). by right.
  - apply Hc.
  - intros j o Hm Hp Ho. rewrite (co_bytes _ _ _ _ Hc). destruct (decide (j = i)) as [->|Hn]; [rewrite decide_True by lia; f_equal; lia|].
    destruct (same_page p p s s' j eq_refl (Hkeep j (Hmu j Hm) Hn)) as [_ ->]. rewrite decide_False; [done|]. by apply (frame_apart p s l j).
Qed.

(** All permissions. *)
Lemma all_flags_word (w : Z) : PTE2PA (Z.lor w all_flags) = PTE2PA w ∧ has (Z.lor w all_flags) PTE_V = true ∧ PTE_FLAGS (Z.lor w all_flags) ≠ PTE_V.
Proof.
  split_and!.
  - unfold PTE2PA. rewrite Z.shiftr_lor. by rewrite Z.lor_0_r.
  - unfold has, truthy. rewrite Z.land_lor_distr_l. rewrite (proj2 (Z.eqb_neq _ _)); [done|]. intros E%Z.lor_eq_0_iff. by destruct E.
  - intros E. assert (E2 : Z.testbit (PTE_FLAGS (Z.lor w all_flags)) 1 = true); [|by rewrite E in E2].
    unfold PTE_FLAGS. rewrite Z.land_spec, Z.lor_spec. change (Z.testbit all_flags 1) with true. by rewrite orb_true_r.
Qed.

Lemma granted_renewed p s s' l i :
  mem_inv_of p s l → granted p s s' i → 0 ≤ i < 2 ^ 26 → renewed p s s' l i.
Proof.
  intros Hi Hg Hu. destruct (page_addr i Hu) as [Hva Hd]. pose proof (mapping_user _ (w_areas _ _ _ (mi_areas _ _ _ Hi))) as Hmu.
  assert (Hself : pte_at (pt (vms s')) (pagetable p) (i * 4096) = Z.lor (pte_at (pt (vms s)) (pagetable p) (i * 4096)) all_flags).
  { rewrite (ga_pte _ _ _ _ Hg) by done. by rewrite decide_True. }
  assert (Hkeep : ∀ j, 0 ≤ j < 2 ^ 26 → j ≠ i → pte_at (pt (vms s')) (pagetable p) (j * 4096) = pte_at (pt (vms s)) (pagetable p) (j * 4096)).
  { intros j Hj Hn. destruct (page_addr j Hj) as [Hvj Hdj]. rewrite (ga_pte _ _ _ _ Hg) by done. by rewrite Hdj, decide_False. }
  destruct (all_flags_word (pte_at (pt (vms s)) (pagetable p) (i * 4096))) as (A1 & A2 & A3).
  assert (Hfi : fr s' p i = fr s p i) by (unfold fr, frame; by rewrite Hself).
  split; try apply Hg; try done.
  - split; [unfold pr, present; by rewrite Hself|by rewrite Hself].
  - by left.
  - intros j o Hm Hp Ho. assert (fr s' p j = fr s p j) as ->.
    { destruct (decide (j = i)) as [->|Hn]; [done|]. apply (same_page p p s s' j eq_refl). auto. }
    destruct (ga_dm _ _ _ _ Hg) as (m & M1 & _ & M3 & ->). rewrite zero_mem_lookup, decide_False; [done|]. by apply (frame_apart p s l j).
Qed.

End view.
End VmaView.
