(* ===== verification/VmaCalls.v ===== *)
(** * munmap, mmap and page faults on an address space

    Each call in a state where the invariant holds: the result, the areas and
    the bytes that the process sees afterwards.  Then the invariant of a new
    process. *)

From Stdlib Require Import Sorted.
From S2P Require Import Prelude BuddyDefs Pmem CStringDefs CString VMemDefs VMem VMemSpec VmaDefs MmapDefs VmaForkDefs.
From S2P Require Import VmaRing VmaInv VmaUnmap VmaPages VmaMap VmaFault VmaView.
Import Pmem VMemDefs VMem VMemSpec VmaDefs MmapDefs VmaForkDefs VmaRing VmaInv VmaUnmap VmaPages VmaMap VmaFault VmaView.

Module VmaCalls.

(** ** What munmap leaves of the areas *)

Lemma cut_origin start end_ a b :
  range_ok start end_ → area_ok a → b ∈ cut start end_ a → a_type b = a_type a ∧ a_addr a ≤ a_addr b ∧ a_end b ≤ a_end a.
Proof.
  intros Hr Ha Hb. destruct (cut_inside start end_ a Hr Ha) as [Hin _]. pose proof (proj1 (Forall_forall _ _) Hin b Hb).
  split; [|done]. unfold cut, front, back in Hb.
  repeat case_match; repeat (apply elem_of_cons in Hb as [->|Hb] || apply elem_of_nil in Hb || cbn in Hb); done.
Qed.

Lemma cut_page start end_ a i :
  range_ok start end_ → area_ok a → in_area i a = true →
  goes start end_ a i ∨ ∃ b, b ∈ cut start end_ a ∧ a_type b = a_type a ∧ in_area i b = true.
Proof.
  intros [R1 R2 R3] [A1 A2 A3 A4 A5] Hi. setoid_rewrite in_area_spec in Hi. setoid_rewrite in_area_spec.
  unfold cut, goes, PGSIZE in *. pose proof (aligned_div _ R2). pose proof (aligned_div _ R3).
  pose proof (aligned_div _ A3). pose proof (aligned_div _ A4).
  destruct (hit start end_ a) eqn:Hh; [|right; exists a; split; [left|done]].
  destruct (within start end_ a) eqn:Hwi.
  - destruct (Z.ltb_spec 1 (ref_count a)); [right; eexists; split; [left|done]|left].
    unfold within in Hwi. apply andb_true_iff in Hwi as [w1%Z.leb_le w2%Z.leb_le]. split_and!; lia.
  - unfold front, back. destruct (decide (i < start / 4096)) as [L|L].
    + right. rewrite (proj2 (Z.ltb_lt (a_addr a) start)) by lia. eexists. split; [left|]. split; [done|]. cbn. lia.
    + destruct (decide (end_ / 4096 ≤ i)) as [M|M]; [|left; split_and!; [lia..|by intros [? _]]].
      right. rewrite (proj2 (Z.ltb_lt end_ (a_end a))) by lia. eexists. split; [apply elem_of_app; right; left|]. split; [done|]. cbn. lia.
Qed.

(** No stack in the range. *)
Definition off_stack (start end_ : Z) (l : list area) : bool :=
  forallb (λ a, negb (is_stack a) || (a_end a <=? start) || (end_ <=? a_addr a)) l.

Section cut.
Context (start end_ : Z) (l : list area) (Hr : range_ok start end_) (Ha : Forall area_ok l).

Lemma cut_mapping i : mapping (l ≫= cut start end_) i = true → mapping l i = true.
Proof.
  rewrite !mapping_spec. intros (b & (a & Hb & Hin)%list_elem_of_bind & Ht & Hi). exists a.
  destruct (cut_origin start end_ a b Hr (proj1 (Forall_forall _ _) Ha a Hin) Hb) as (E & L1 & L2).
  rewrite <-E. split_and!; try done. apply in_area_spec in Hi. apply in_area_spec.
  pose proof (Z.div_le_mono _ _ 4096 ltac:(lia) L1). pose proof (Z.div_le_mono _ _ 4096 ltac:(lia) L2). lia.
Qed.
Lemma mapping_cut i : mapping l i = true → gone start end_ l i ∨ mapping (l ≫= cut start end_) i = true.
Proof.
  rewrite !mapping_spec. intros (a & Hin & Ht & Hi).
  destruct (cut_page start end_ a i Hr (proj1 (Forall_forall _ _) Ha a Hin) Hi) as [Hg|(b & Hb & E & Hib)]; [left; exists a; done|right].
  exists b. rewrite E. split_and!; try done. apply list_elem_of_bind. eauto.
Qed.
Lemma covered_cut i : covered l i = true → gone start end_ l i ∨ covered (l ≫= cut start end_) i = true.
Proof.
  rewrite !covered_spec. intros (a & Hin & Hi).
  destruct (cut_page start end_ a i Hr (proj1 (Forall_forall _ _) Ha a Hin) Hi) as [Hg|(b & Hb & E & Hib)]; [left; exists a; done|right].
  exists b. split; [|done]. apply list_elem_of_bind. eauto.
Qed.
Lemma gone_mapping i : off_stack start end_ l = true → gone start end_ l i → mapping l i = true.
Proof.
  intros Hst (a & Hin & (G1 & G2 & _)). apply mapping_spec. exists a. split_and!; [done| |by apply in_area_spec].
  unfold off_stack in Hst. rewrite forallb_forall in Hst. specialize (Hst a (proj1 (list_elem_of_In _ _) Hin)).
  unfold is_stack in Hst. intros E. rewrite bool_decide_true in Hst by done. cbn in Hst.
  destruct Hr as [_ R2 R3], (proj1 (Forall_forall _ _) Ha a Hin) as [_ _ A3 A4 _]. unfold PGSIZE in *.
  pose proof (aligned_div _ R2). pose proof (aligned_div _ R3). pose proof (aligned_div _ A3). pose proof (aligned_div _ A4).
  apply orb_true_iff in Hst as [?%Z.leb_le|?%Z.leb_le]; lia.
Qed.
Lemma cut_low : low l → low (l ≫= cut start end_).
Proof.
  intros Hl. apply Forall_forall. intros b (a & Hb & Hin)%list_elem_of_bind.
  destruct (cut_origin start end_ a b Hr (proj1 (Forall_forall _ _) Ha a Hin) Hb) as (-> & L1 & _).
  destruct (proj1 (Forall_forall _ _) Hl a Hin) as [|[|]]; [by left|by right; left|right; right; lia].
Qed.
End cut.

Section calls.
Context {St : Type} `{PageAllocator St} `{!PageAllocatorLaws St} `{BlockAllocator St} {Fs : Type} `{MapFiles St Fs}.
Implicit Types (s : mem St Fs) (p : mproc) (l : list (Z * area)).

(** ** munmap *)

Lemma munmap_call p s start len n :
  mem_inv p s → 0 ≤ start → 0 < len → start + len < 2 ^ 64 →
  let lo := munmap_start start in let hi := munmap_end start len in let l := (areas_of p s).*2 in
  off_stack lo hi l = true → pa_avail (al (vms s)) (S (length l + n)) →
  ∃ s', munmap p start len s = Ok (if existsb (hit lo hi) l then 0 else -1, s') ∧ mem_inv p s' ∧
    (areas_of p s').*2 = l ≫= cut lo hi ∧
    (∀ va, view p s' va = if decide (gone lo hi l (va / 4096)) then None else view p s va) ∧
    swept p s s' (gone lo hi l) ∧ pa_avail (al (vms s')) n.
Proof.
  intros Hi Hst Hl Hm lo hi l Hoff Hav. pose proof (mi_areas _ _ _ Hi) as Hw. pose proof (w_areas _ _ _ Hw) as Ha.
  pose proof (munmap_range start len Hst Hl) as Hr. fold lo hi in Hr.
  destruct (munmap_ok p s (areas_of p s) start len n Hw) as (s' & l' & Hop & Hw' & El & Hsw & Hav'); try done; try apply Hi.
  { apply (frames_sub p s (λ i, mapping l i = true)); [|apply Hi]. intros i. by apply gone_mapping. }
  { unfold l in Hav. by rewrite length_fmap in Hav. }
  fold lo hi in Hop, El, Hsw.
  destruct (swept_inv p s s' (areas_of p s) l' (gone lo hi l)) as [Hi' Hv]; try done.
  - rewrite El. apply cut_sorted; try done. apply Hi.
  - intros i. by apply gone_mapping.
  - intros i. rewrite El. by apply cut_mapping.
  - intros i. rewrite El. by apply mapping_cut.
  - intros i. rewrite El. by apply covered_cut.
  - rewrite El. apply cut_low; try done. apply Hi.
  - exists s'. split_and!; try done; [by apply (mem_inv_intro p s' l')|by rewrite (areas_of_ok p s' l')].
Qed.

(** ** mmap *)

(** The address that mmap chooses, with the heap end and the cursor it leaves. *)
Definition place p s (start len : Z) : Z * mproc * mem St Fs := choose_start (first_addr p s (areas_of p s)) start len p s.

(** Neither an area nor a page is in the way. *)
Definition place_free p s (b len : Z) : bool :=
  (b mod 4096 =? 0) && (0 <=? b) && (b + len <=? MAXVA) &&
  forallb (λ a, (a_end a <=? b) || (b + map_pages len * 4096 <=? a_addr a)) (areas_of p s).*2 &&
  forallb (λ i, negb (pr s p i)) (seqZ (b / 4096) (map_pages len)).

Lemma place_free_spec p s b len :
  place_free p s b len = true ↔ b mod 4096 = 0 ∧ 0 ≤ b ∧ b + len ≤ MAXVA ∧ clear b (b + map_pages len * 4096) (areas_of p s).*2 ∧
    ∀ i, b / 4096 ≤ i < b / 4096 + map_pages len → pr s p i = false.
Proof.
  unfold place_free, clear. rewrite !andb_true_iff, Z.eqb_eq, !Z.leb_le, !forallb_forall, Forall_forall.
  setoid_rewrite <-list_elem_of_In. setoid_rewrite orb_true_iff. setoid_rewrite Z.leb_le. setoid_rewrite negb_true_iff.
  setoid_rewrite elem_of_seqZ. tauto.
Qed.

(** The heap end never moves down. *)
Lemma choose_start_heap faddr start len p s b p' s' :
  choose_start faddr start len p s = (b, p', s') → 0 ≤ psz p ≤ MAXVA → 0 < len → b + len ≤ MAXVA → psz p ≤ psz p' ≤ MAXVA.
Proof.
  intros Hch Hz Hl Hb. unfold choose_start in Hch. unfold MAXVA in *.
  repeat case_match; simplify_eq; cbn; try lia. rewrite roundup_div in Hb by lia.
  pose proof (Z.div_mod (psz p + 4095) 4096 ltac:(lia)). pose proof (Z.mod_pos_bound (psz p + 4095) 4096 ltac:(lia)).
  rewrite u64_small by lia. rewrite roundup_div by lia. pose proof (Z.div_mod (psz p + len + 4095) 4096 ltac:(lia)). pose proof (Z.mod_pos_bound (psz p + len + 4095) 4096 ltac:(lia)). lia.
Qed.

Lemma map_area_bounds prot b len off :
  a_addr (map_area prot b len off) = b ∧ a_end (map_area prot b len off) = b + map_pages len * 4096 ∧ a_type (map_area prot b len off) = MMAP.
Proof. unfold map_area, marked. by destruct (prot =? PROT_NONE), (has prot PROT_WRITE). Qed.

Lemma map_area_page prot b len off i :
  b mod 4096 = 0 → in_area i (map_area prot b len off) = true ↔ b / 4096 ≤ i < b / 4096 + map_pages len.
Proof. intros Hb. destruct (map_area_bounds prot b len off) as (E1 & E2 & _). by rewrite in_area_spec, E1, E2, Z.div_add by lia. Qed.

(** The pages of a list of areas with one more. *)
Lemma mapping_insert la x lb i : mapping (la ++ x :: lb) i = (negb (is_stack x) && in_area i x) || mapping (la ++ lb) i.
Proof. rewrite !mapping_app. cbn. destruct (mapping la i), (negb (is_stack x) && in_area i x); done. Qed.
Lemma covered_insert la x lb i : covered (la ++ x :: lb) i = in_area i x || covered (la ++ lb) i.
Proof. rewrite !covered_app. cbn. destruct (covered la i), (in_area i x); done. Qed.

Lemma mmap_call p s start len prot flags fd off b p' s0 n :
  mem_inv p s → private_anon flags → 0 < len → place p s start len = (b, p', s0) → place_free p s b len = true →
  pa_avail (al (vms s)) (1 + (3 * Z.to_nat (map_pages len) + n)) →
  let l := (areas_of p s).*2 in
  ∃ s' la lb, l = la ++ lb ∧ mmap p start len prot flags fd off s = Ok (b, p', s') ∧ mem_inv p' s' ∧
    (areas_of p' s').*2 = la ++ map_area prot b len off :: lb ∧
    (∀ va, view p' s' va = if bool_decide (prot ≠ PROT_NONE) && (b <=? va) && (va <? b + map_pages len * 4096) then Some 0 else view p s va) ∧
    filled p s s' (λ i, prot ≠ PROT_NONE ∧ b / 4096 ≤ i < b / 4096 + map_pages len) (entry_flags prot) ∧
    pa_avail (al (vms s')) n ∧ same_globals s0 s'.
Proof.
  intros Hi Hfl Hlen Hpl (P1 & P2 & P3 & P4 & P5)%place_free_spec Hav l. pose proof (mi_areas _ _ _ Hi) as Hw.
  destruct (mmap_private_ok p s _ start len prot flags fd off b p' s0 n Hw (mi_sorted _ _ _ Hi) Hfl Hlen Hpl P1 P2 P3 P4)
    as (v & s' & la & lb & El & Hop & Hw' & Hs' & Hf & Hav' & Hg); [auto|done|].
  destruct (choose_start_other _ _ _ _ _ _ _ _ Hpl) as (C1 & C2 & _). destruct (map_bounds b len P1 P2 Hlen P3) as (_ & _ & B3 & B4 & _).
  set (x := map_area prot b len off) in *. set (l' := la ++ (v, x) :: lb) in *. pose proof (Z.div_pos b 4096 P2 ltac:(lia)).
  assert (Hx : ∀ i, in_area i x = true ↔ b / 4096 ≤ i < b / 4096 + map_pages len) by (intros i; by apply map_area_page).
  destruct (map_area_bounds prot b len off) as (_ & _ & Et). fold x in Et.
  assert (Hns : negb (is_stack x) = true) by (unfold is_stack; by rewrite Et).
  assert (Hw2 : areas_in p' s' l') by by apply (areas_other p p' s').
  assert (Hm : ∀ i, mapping l'.*2 i = in_area i x || mapping (areas_of p s).*2 i).
  { intros i. unfold l'. rewrite El, !fmap_app, fmap_cons, mapping_insert. cbn [snd]. by rewrite Hns. }
  assert (Hc : ∀ i, covered l'.*2 i = in_area i x || covered (areas_of p s).*2 i).
  { intros i. unfold l'. by rewrite El, !fmap_app, fmap_cons, covered_insert. }
  destruct (filled_inv p p' s s' (areas_of p s) l' (λ i, prot ≠ PROT_NONE ∧ b / 4096 ≤ i < b / 4096 + map_pages len) (entry_flags prot))
    as [Hi' Hv]; try done.
  - intros i [Hp _]. by apply entry_flags_user.
  - apply (choose_start_heap _ _ _ _ _ _ _ _ Hpl); [apply Hi|done..].
  - intros i [_ Hb]. lia.
  - intros i [_ Hb]. by apply P5.
  - intros i [_ Hb]. left. by rewrite Hc, (proj2 (Hx i)).
  - intros i. rewrite Hm, orb_true_iff, Hx. intros [Hb|]; [|done]. by rewrite P5.
  - intros i Hmi. by rewrite Hm, Hmi, orb_true_r.
  - intros i Hci. by rewrite Hc, Hci, orb_true_r.
  - pose proof (mi_low _ _ _ Hi) as Hlow. unfold low, l' in *. rewrite El in Hlow. rewrite fmap_app in *. apply Forall_app in Hlow as [L1 L2].
    apply Forall_app. split; [done|]. apply Forall_cons. split; [by left|done].
  - exists s', la.*2, lb.*2. unfold l. split_and!; try done.
    + by rewrite El, fmap_app.
    + by apply (mem_inv_intro p' s' l').
    + rewrite (areas_of_ok p' s' l' Hw2). unfold l'. by rewrite fmap_app.
    + intros va. rewrite Hv, Hm. pose proof (aligned_div b P1). pose proof (Z.div_mod va 4096 ltac:(lia)). pose proof (mod_page va).
      destruct (decide _) as [[D1 D]|D].
      * rewrite (proj2 (Hx (va / 4096))) by exact D. cbn [orb]. rewrite bool_decide_true by exact D1.
        rewrite (proj2 (Z.leb_le b va)), (proj2 (Z.ltb_lt va _)) by lia. done.
      * destruct (decide (prot = PROT_NONE)) as [->|Hp]; [done|]. rewrite bool_decide_true by done. cbn [andb].
        destruct (Z.leb_spec b va); [|done]. destruct (Z.ltb_spec va (b + map_pages len * 4096)); [|done]. destruct D. split; [done|]. lia.
Qed.

(** Without a hint, and with room above the heap, the mapping goes directly
    below the lowest one: this place is free. *)
Lemma place_below p s v a rest len :
  mem_inv p s → areas_of p s = (v, a) :: rest → a_type a = MMAP ∨ a_type a = SHARE → a_addr a < USER_MMAP_START →
  0 < len → PGROUNDUP (psz p) + len < a_addr a →
  place p s 0 len = (a_addr a - map_pages len * 4096, p, s) ∧ place_free p s (a_addr a - map_pages len * 4096) len = true.
Proof.
  intros Hi El Ht Hlo Hlen Hroom. pose proof (mi_areas _ _ _ Hi) as Hw. pose proof (mi_heap _ _ _ Hi) as Hz.
  pose proof (w_areas _ _ _ Hw) as Ha. rewrite El in Ha. cbn in Ha. apply Forall_cons in Ha as [[A1 A2 A3 A4 A5] Ha].
  change USER_MMAP_START with 0x5fffe000 in Hlo. unfold PGSIZE, MAXVA in *.
  assert (Em : is_map a = true).
  { unfold is_map. change USER_MMAP_START with 0x5fffe000. rewrite (proj2 (Z.ltb_lt _ _)), andb_true_r by done. apply orb_true_iff.
    by destruct Ht as [-> | ->]; [left|right]. }
  rewrite roundup_div in Hroom by lia. set (h := (psz p + 4095) / 4096) in *. set (k := a_addr a / 4096).
  pose proof (aligned_div _ A3) as Ea. fold k in Ea.
  pose proof (Z.div_mod (psz p + 4095) 4096 ltac:(lia)) as D1. pose proof (Z.mod_pos_bound (psz p + 4095) 4096 ltac:(lia)). fold h in D1.
  assert (Hb : (a_addr a - len) / 4096 = k - map_pages len).
  { unfold map_pages. pose proof (Z.div_mod (len + 4095) 4096 ltac:(lia)). pose proof (Z.mod_pos_bound (len + 4095) 4096 ltac:(lia)).
    symmetry. apply Z.div_unique with (4095 - (len + 4095) mod 4096); lia. }
  pose proof (Z.div_mod (a_addr a - len) 4096 ltac:(lia)) as D2. pose proof (Z.mod_pos_bound (a_addr a - len) 4096 ltac:(lia)). rewrite Hb in D2.
  assert (Eb : a_addr a - map_pages len * 4096 = (k - map_pages len) * 4096) by lia. rewrite Eb.
  split.
  - unfold place, first_addr. rewrite El, filter_cons_True by done. cbn [snd]. unfold choose_start. cbn [Z.eqb].
    rewrite !u64_small by lia. rewrite roundup_div by lia. fold h. rewrite (proj2 (Z.ltb_lt len _)), (proj2 (Z.ltb_lt _ _)) by lia. cbn [andb].
    rewrite PGROUNDDOWN_div, Hb by lia. done.
  - assert (Hc : clear ((k - map_pages len) * 4096) ((k - map_pages len) * 4096 + map_pages len * 4096) (areas_of p s).*2).
    { pose proof (mi_sorted _ _ _ Hi) as Hs. rewrite El in *. cbn in Hs |- *. apply StronglySorted_inv in Hs as [_ Hs]. apply Forall_cons.
      split; [right; lia|]. eapply Forall_impl; [exact Hs|]. intros x Hx. unfold before in Hx. right. lia. }
    apply place_free_spec. split_and!; [by rewrite Z.mod_mul by lia|lia|unfold MAXVA; lia|done|]. intros i Hir. rewrite Z.div_mul in Hir by lia.
    destruct (pr s p i) eqn:Hp; [exfalso|done]. destruct (mi_pages _ _ _ Hi i) as [Hcov|[Hx|Hx]]; [lia|done| | |].
    + apply covered_spec in Hcov as (x & Hx & Hix). apply in_area_spec in Hix. pose proof (w_areas _ _ _ Hw) as Hall.
      destruct (proj1 (Forall_forall _ _) Hall x Hx) as [_ _ X3 X4 _]. unfold PGSIZE in *. pose proof (aligned_div _ X3). pose proof (aligned_div _ X4).
      destruct (proj1 (Forall_forall _ _) Hc x Hx); lia.
    + lia.
    + change MAXUVA with 0x80000000 in Hx. lia.
Qed.

(** ** Page faults *)

(** The areas for which the handler has a page of zeros or a copy. *)
Definition fault_plain p s (addr : Z) : bool :=
  match area_of_addr addr (areas_of p s) with
  | Some (_, a) => (orig_prot a =? PROT_NONE) || ((a_fd a =? -1) && negb (is_stack a))
  | None => (psz p <? addr) || (addr / 4096 * 4096 <? psz p)
  end.
Definition fault_answer p s (addr : Z) : Z * list Z :=
  match area_of_addr addr (areas_of p s) with
  | Some (_, a) => if orig_prot a =? PROT_NONE then (- SIGSEGV, [SIGSEGV]) else (0, [])
  | None => if addr <=? psz p then (0, []) else (-1, [SIGSEGV])
  end.

Lemma area_page addr (l : list (Z * area)) v a :
  Forall area_ok l.*2 → area_of_addr addr l = Some (v, a) → a ∈ l.*2 ∧ in_area (addr / 4096) a = true.
Proof.
  intros Ha [Hin Hc]%area_of_addr_in. pose proof (list_elem_of_fmap_2 snd _ _ Hin) as Hx. split; [done|]. cbn in *.
  destruct (proj1 (Forall_forall _ _) Ha a Hx) as [A1 _ A3 A4 _]. unfold PGSIZE in *. apply in_area_spec. unfold contains in Hc.
  apply andb_true_iff in Hc as [c1%Z.leb_le c2%Z.ltb_lt]. split; [apply Z.div_le_mono; lia|]. apply Z.div_lt_upper_bound; [lia|].
  pose proof (aligned_div _ A4). lia.
Qed.

(** The page that the handler gives to an address: present and writable. *)
Definition usable p s (i : Z) : Prop := pr s p i = true ∧ has (pte_at (pt (vms s)) (pagetable p) (i * 4096)) PTE_W = true.

Lemma testbit_has w : has w PTE_W = Z.testbit w 2.
Proof. unfold has, truthy. change PTE_W with (2 ^ 2). destruct (Z.testbit w 2) eqn:E.
  - rewrite (proj2 (Z.eqb_neq _ _)); [done|]. intros E2. assert (E3 : Z.testbit (Z.land w (2 ^ 2)) 2 = false) by (by rewrite E2, Z.bits_0).
    by rewrite Z.land_spec, E in E3.
  - rewrite (proj2 (Z.eqb_eq _ _)); [done|]. apply Z.bits_inj_0. intros m. rewrite Z.land_spec. destruct (decide (m = 2)) as [->|Hm]; [by rewrite E|].
    destruct (decide (m < 0)); [by rewrite !Z.testbit_neg_r by lia|]. by rewrite Z.pow2_bits_false, andb_false_r by lia.
Qed.

(** The page of zeros, where there is no page or where the page keeps its bytes. *)
Lemma zero_call p s addr n :
  mem_inv p s → let i := addr / 4096 in 0 ≤ i < 2 ^ 26 → pa_avail (al (vms s)) (3 + n) →
  covered (areas_of p s).*2 i = true ∨ i * 4096 < psz p →
  ∃ s', fault_zero p (i * 4096) s = Ok (0, s') ∧ mem_inv p s' ∧ areas_of p s' = areas_of p s ∧ usable p s' i ∧
    (∀ va, view p s' va = if bool_decide (va / 4096 = i) && mapping (areas_of p s).*2 i && negb (pr s p i) then Some 0 else view p s va) ∧
    pa_avail (al (vms s')) n ∧ same_globals s s'.
Proof.
  intros Hi i Hu Hav Hc. pose proof (mi_areas _ _ _ Hi) as Hw. destruct (pr s p i) eqn:Hp.
  - destruct (fault_zero_present p s _ i (2 + n) Hw Hu Hp Hav) as (s' & Hop & Hw' & Hvm & Hg & Hav' & Hgl).
    pose proof (granted_renewed p s s' _ i Hi Hg Hu) as Hr. destruct (renewed_inv p s s' _ i Hi Hw' Hr Hp) as [Hi' Hv].
    exists s'. split_and!; try done; [by apply (mem_inv_intro p s' (areas_of p s))|by apply areas_of_ok| | |].
    + split; [apply Hr|]. destruct (page_addr i Hu) as [Hva Hd]. rewrite (ga_pte _ _ _ _ Hg), decide_True, testbit_has, Z.lor_spec by done.
      change (Z.testbit all_flags 2) with true. by rewrite orb_true_r.
    + intros va. by rewrite Hv, !andb_false_r.
    + by apply (pa_avail_le _ (2 + n)); [|lia].
  - destruct (fault_zero_absent p s _ i n Hw Hu Hp Hav) as (s' & Hop & Hw' & Hvm & Hf & Hav' & Hgl).
    pose proof (mi_heap _ _ _ Hi) as Hz.
    destruct (filled_inv p p s s' (areas_of p s) (areas_of p s) (λ j, j = i) all_flags) as [Hi' Hv]; try done; try apply Hi; try (intros j ->; done).
    { split; [done|apply Hz]. }
    destruct (fi_entry _ _ _ _ _ Hf i eq_refl) as [E1 E2].
    exists s'. split_and!; try done; [by apply (mem_inv_intro p s' (areas_of p s))|by apply areas_of_ok| |].
    + split; [done|]. rewrite testbit_has. assert (E3 : Z.testbit (PTE_FLAGS (pte_at (pt (vms s')) (pagetable p) (i * 4096))) 2 = true) by by rewrite E2.
      unfold PTE_FLAGS in E3. rewrite Z.land_spec in E3. by apply andb_true_iff in E3 as [? _].
    + intros va. rewrite Hv. cbn [negb]. rewrite andb_true_r. case_decide as D; [|by rewrite bool_decide_false].
      rewrite bool_decide_true, D by done. cbn [andb]. destruct (mapping _ i) eqn:Em; [done|]. unfold view. by rewrite D, Em.
Qed.

(** Copy on write keeps what the process sees; afterwards the page may be
    written and its frame is a new one. *)
Lemma cow_call p s v a i n :
  mem_inv p s → 0 ≤ i < 2 ^ 26 → area_of_addr (i * 4096) (areas_of p s) = Some (v, a) → a_type a ≠ STACK →
  has (a_flags a) MAP_PRIVATE = true → pr s p i = true → pa_avail (al (vms s)) (S n) →
  ∃ s', handle_cow_write p (i * 4096) s = Ok (0, s') ∧ mem_inv p s' ∧ areas_of p s' = areas_of p s ∧ usable p s' i ∧
    (∀ va, view p s' va = view p s va) ∧ copied p s s' i ∧ pa_avail (al (vms s')) n ∧ same_globals s s'.
Proof.
  intros Hi Hu Hat Ht Hpv Hp Hav. pose proof (mi_areas _ _ _ Hi) as Hw.
  destruct (area_page _ _ _ _ (w_areas _ _ _ Hw) Hat) as [Hin Hia]. rewrite Z.div_mul in Hia by lia.
  assert (Hm : mapping (areas_of p s).*2 i = true) by (apply mapping_spec; eauto).
  pose proof (handle_cow_ok p s _ i n Hw Hu) as Hc. rewrite Hat, Hpv, Hp in Hc. cbn [andb] in Hc.
  destruct (mi_live _ _ _ Hi i Hm Hp) as [L1 L2]. destruct (f_own _ _ _ (mi_frames _ _ _ Hi) i Hm Hp) as (_ & Hh & _).
  destruct (Hc L1 Hh L2 Hav) as (s' & Hop & Hw' & Hvm & Hco & Hav' & Hg).
  pose proof (copied_renewed p s s' _ i Hi Hco) as Hr. destruct (renewed_inv p s s' _ i Hi Hw' Hr Hp) as [Hi' Hv].
  exists s'. split_and!; try done; [by apply (mem_inv_intro p s' (areas_of p s))|by apply areas_of_ok|].
  split; [apply Hr|]. rewrite testbit_has. destruct (co_entry _ _ _ _ Hco) as [_ E].
  assert (E3 : Z.testbit (PTE_FLAGS (pte_at (pt (vms s')) (pagetable p) (i * 4096))) 2 = true).
  { rewrite E, Z.lor_spec. change (Z.testbit PTE_W 2) with true. by rewrite orb_true_r. }
  unfold PTE_FLAGS in E3. rewrite Z.land_spec in E3. by apply andb_true_iff in E3 as [? _].
Qed.

Lemma fault_call p s addr n :
  mem_inv p s → 0 ≤ addr < MAXVA → fault_plain p s addr = true → pa_avail (al (vms s)) (3 + n) →
  let i := addr / 4096 in
  ∃ s', pagefault_handler p addr s = Ok ((fault_answer p s addr).1, (fault_answer p s addr).2, s') ∧ mem_inv p s' ∧
    areas_of p s' = areas_of p s ∧
    (if (fault_answer p s addr).1 =? 0 then
       usable p s' i ∧
       ∀ va, view p s' va = if bool_decide (va / 4096 = i) && mapping (areas_of p s).*2 i && negb (pr s p i) then Some 0 else view p s va
     else s' = s) ∧ pa_avail (al (vms s')) n.
Proof.
  intros Hi Ha Hpl Hav i. pose proof (mi_areas _ _ _ Hi) as Hw. pose proof (mi_sorted _ _ _ Hi) as Hs.
  assert (Hu : 0 ≤ i < 2 ^ 26) by (unfold MAXVA, i in *; split; [apply Z.div_pos; lia|apply Z.div_lt_upper_bound; lia]).
  rewrite (pagefault_ok p s _ addr Hw Hs Ha). unfold fault_plain, fault_answer in *. fold i.
  assert (Hle : pa_avail (al (vms s)) n) by (apply (pa_avail_le _ (3 + n)); [done|lia]).
  destruct (area_of_addr addr (areas_of p s)) as [[v a]|] eqn:Hat.
  - destruct (area_page _ _ _ _ (w_areas _ _ _ Hw) Hat) as [Hin Hia]. fold i in Hia.
    destruct (orig_prot a =? PROT_NONE) eqn:Ep.
    { unfold fault_in. rewrite Ep. exists s. by split_and!. }
    cbn [orb] in Hpl. apply andb_true_iff in Hpl as [Hfd%Z.eqb_eq Hst%negb_true_iff]. apply bool_decide_eq_false in Hst.
    pose proof (fault_in_ok p s _ v a addr Hw Hs Ha Hat (proj1 (Z.eqb_neq _ _) Ep) Hfd) as Hrun. cbv zeta in Hrun. fold i in Hrun. rewrite Hrun.
    assert (Hm : mapping (areas_of p s).*2 i = true) by (apply mapping_spec; eauto).
    destruct (zero_call p s addr n Hi Hu Hav (or_introl (mapping_covered _ _ Hm))) as (s' & Hz & Z1 & Z2 & Z3 & Z4 & Z5 & _). fold i in Hz, Z3, Z4.
    cbn [fst snd Z.eqb]. destruct (needs_copy p s a i) eqn:Hn; [|rewrite Hz; cbn [bind]; eauto 10].
    unfold needs_copy in Hn. apply andb_true_iff in Hn as [[N1 N2]%andb_true_iff _].
    rewrite <-(area_of_page addr) in Hat by (lia || apply Hw). fold i in Hat.
    destruct (cow_call p s v a i (2 + n) Hi Hu Hat Hst N1 N2 Hav) as (s2 & -> & Y1 & Y2 & Y3 & Y4 & _ & Y6 & _). cbn [bind Z.eqb].
    exists s2. split_and!; try done; [intros va; by rewrite Y4, N2, andb_false_r|]. by apply (pa_avail_le _ (2 + n)); [|lia].
  - destruct (Z.leb_spec addr (psz p)) as [Hle2|Hgt]; cbn [fst snd Z.eqb]; [|by exists s; split_and!].
    apply orb_true_iff in Hpl as [Hx%Z.ltb_lt|Hx%Z.ltb_lt]; [lia|].
    destruct (zero_call p s addr n Hi Hu Hav (or_intror Hx)) as (s' & Hz & Z1 & Z2 & Z3 & Z4 & Z5 & _). fold i in Hz, Z3, Z4.
    rewrite Hz. cbn [bind]. eauto 10.
Qed.

(** ** A new process *)

(** The state in which a process gets its first area: its page table, and no
    page that a mapping could be given. *)
Record bare p s : Prop := {
  ba_space : space (vms s) (pagetable p);
  ba_lock : vmem_lock (vms s) = false;
  ba_nodes : ∀ v, is_Some (vmas s !! v) → v ≠ 0 ∧ pa_owned (al (vms s)) v;
  ba_tables : ∀ q a, path q → table_at (pt (vms s)) (pagetable p) q = Some a → vmas s !! a = None;
  ba_pages : ∀ i, 0 ≤ i < 2 ^ 26 → pr s p i = true → i * 4096 < psz p ∨ MAXUVA ≤ i * 4096;
  ba_heap : 0 ≤ psz p ≤ MAXVA
}.

(** The first area: empty, at [USER_MMAP_START]. *)
Definition first_area : area := mk_area MMAP 0 0 USER_MMAP_START 0 USER_MMAP_START 0 0 0 0 1 0.

Lemma new_head p s n :
  bare p s → pa_avail (al (vms s)) (S n) →
  ∃ v s1 s2 s3, alloc_node s = Ok (v, s1) ∧ v ≠ 0 ∧ set_prev v v s1 = Ok s2 ∧ set_next v v s2 = Ok s3 ∧
    areas_in (with_pvma v p) s3 [] ∧ (∀ i, pr s3 (with_pvma v p) i = pr s p i) ∧ pa_avail (al (vms s3)) n ∧
    vmas s3 = <[v := mk_vma blank v v]> (vmas s) ∧ pt (vms s3) = pt (vms s) ∧ dm (vms s3) = dm (vms s) ∧
    ¬ pa_owned (al (vms s)) v ∧ ∀ b, pa_owned (al (vms s3)) b ↔ b = v ∨ pa_owned (al (vms s)) b.
Proof.
  intros [B1 B2 B3 B4 B5 B6] Hav. unfold alloc_node.
  destruct (pa_alloc_ok (al (vms s)) n (sp_inv _ _ B1) Hav) as (v & st & -> & Hi & Hav' & Hb & _ & Hno & Hown). cbn [bind].
  rewrite (proj2 (Z.eqb_neq v 0)) by lia. set (s1 := with_vmas _ _).
  exists v, s1, (with_vmas s1 (<[v := mk_vma blank v 0]> (vmas s1))), (with_vmas s1 (<[v := mk_vma blank v v]> (vmas s1))).
  assert (E1 : vmas s1 !! v = Some (mk_vma blank 0 0)) by apply lookup_insert_eq. split_and!; try done; [lia| | | |].
  - unfold set_prev, upd, ld. by rewrite E1.
  - unfold set_next, upd, ld. cbn [vmas with_vmas]. rewrite lookup_insert_eq. cbn [of_opt bind data prev]. unfold with_vmas. cbn.
    by rewrite !insert_insert_eq.
  - assert (Hne : vmas s !! v = None). { destruct (vmas s !! v) eqn:E; [|done]. destruct Hno. apply B3. eauto. }
    split; cbn [vms vmas with_vmas with_vms al pt dm vmem_lock with_al pagetable pvma with_pvma s1]; try done.
    + split; cbn [al pt dm vmem_lock with_al]; [done| |apply (sp_inj _ _ B1)].
      intros q a Hq Ha. destruct (sp_table _ _ B1 q a Hq Ha) as [Ht Ho]. split; [done|]. apply Hown. by right.
    + split; [|repeat constructor; by intros ?%elem_of_nil|constructor]. cbn. unfold nx, pv. rewrite !lookup_insert_eq. done.
    + intros b. rewrite insert_insert_eq, lookup_insert_is_Some'. intros [<-|Hb']; [split; [lia|apply Hown; by left]|].
      split; [by apply B3|]. apply Hown. right. by apply B3.
    + intros q a Hq Ha. rewrite insert_insert_eq, lookup_insert_ne; [by apply (B4 q)|]. intros <-. apply Hno. by apply (sp_table _ _ B1 q).
  - cbn. by rewrite insert_insert_eq.
Qed.

Lemma vma_init_ok p s n :
  bare p s → pa_avail (al (vms s)) (S (S n)) →
  ∃ v s', vma_init p s = Ok (v, with_pvma v p, s') ∧ mem_inv (with_pvma v p) s' ∧ (areas_of (with_pvma v p) s').*2 = [first_area] ∧
    (∀ va, view (with_pvma v p) s' va = None) ∧ pa_avail (al (vms s')) n.
Proof.
  intros Hb Hav. destruct (new_head p s (S n) Hb Hav) as (v & s1 & s2 & s3 & H2 & Hv0 & H3 & H4 & Hw & Hp & Hav3 & _).
  set (p1 := with_pvma v p) in *. unfold vma_init. rewrite H2. cbn [bind]. rewrite (proj2 (Z.eqb_neq v 0)) by done.
  rewrite H3. cbn [bind]. rewrite H4. cbn [bind]. fold p1.
  destruct (alloc_vma_ok p1 s3 [] MMAP USER_MMAP_START 0 0 n Hw) as (w & s4 & la & lb & El & Hop & Hw0 & Hw4 & Q4 & Hav4 & Hs4 & _);
    [constructor|by split; vm_compute|constructor|done|].
  symmetry in El. apply app_eq_nil in El as [-> ->]. cbn [app] in Hw4.
  destruct (set_data_area p1 s4 [] w _ [] (set_file 0 0) Hw4) as (s5 & Hop5 & Hw5 & Q5 & E5); [by split; vm_compute|]. cbn [app] in Hw5.
  change (set_file 0 0 _) with first_area in Hw5.
  assert (Hrun : alloc_mmap_vma p1 0 USER_MMAP_START 0 0 0 0 s3 = Ok (w, p1, s5)).
  { unfold alloc_mmap_vma. destruct (find_place p1 s3 [] Hw) as (f & x & -> & Hld & _). cbn [bind]. rewrite Hld. cbn [bind].
    unfold choose_start. change (USER_MMAP_START =? 0) with false. cbv iota.
    change (if has 0 1 then false else has 0 MAP_ALLOC || negb (0 =? -1) && truthy 0) with false. rewrite Hop. cbn [bind].
    rewrite (proj2 (Z.eqb_neq w 0)) by done. change (u64 0) with 0. by rewrite Hop5. }
  rewrite Hrun. cbn [bind]. rewrite (proj2 (Z.eqb_neq w 0)) by done.
  assert (Hp5 : ∀ i, 0 ≤ i < 2 ^ 26 → pr s5 p1 i = pr s p i).
  { intros i Hi. rewrite <-Hp. destruct (swept_page p1 s3 s5 (λ _, False) i (quiet_step _ _ _ _ Q4 Q5) Hi) as (_ & ? & _); tauto. }
  assert (Hm : ∀ i, mapping [first_area] i = false) by (intros i; unfold mapping, in_area; cbn; lia).
  exists v, s5. fold p1. split_and!; [done| |by rewrite (areas_of_ok p1 s5 _ Hw5)| |by rewrite E5].
  - apply (mem_inv_intro p1 s5 [(w, first_area)]). split; change ([(w, first_area)].*2) with [first_area]; try done.
    + repeat constructor.
    + split; intros i; [intros Hi|intros Hi|intros j Hi]; by rewrite Hm in Hi.
    + intros i Hi. by rewrite Hm in Hi.
    + intros i Hi Hpr. rewrite Hp5 in Hpr by done. right. by apply (ba_pages _ _ Hb).
    + apply Hb.
    + repeat constructor.
  - intros va. rewrite (view_eq p1 s5 _ va Hw5). change ([(w, first_area)].*2) with [first_area]. by rewrite Hm.
Qed.

End calls.
End VmaCalls.
