(* ===== verification/VmaExit.v ===== *)
(** * The memory of a process that ends

    [free_vma_list] gives back the pages in the areas and the areas, one after
    the other, while it walks along the ring.  Then the page table goes, with
    the pages of the program and the heap. *)

From Stdlib Require Import Sorted.
From S2P Require Import Prelude BuddyDefs Pmem CStringDefs VMemDefs VMem VMemSpec VMemFree VmaDefs MmapDefs VmaForkDefs.
From S2P Require Import VmaRing VmaInv VmaUnmap VmaMap VmaView.
Import Pmem VMemDefs VMem VMemSpec VMemFree VmaDefs MmapDefs VmaForkDefs VmaRing VmaInv VmaUnmap VmaMap VmaView.

Module VmaExit.

Section exit.
Context {St : Type} `{PageAllocator St} `{!PageAllocatorLaws St} `{BlockAllocator St} {Fs : Type} `{MapFiles St Fs}.
Implicit Types (s : mem St Fs) (p : mproc) (l : list (Z * area)).

(** ** Pages *)

(** Where [vmunmap] works, the loop of [free_vma_list] does the same. *)
Lemma drop_one v root c :
  space v root → vmem_lock v = false → 0 ≤ c < 2 ^ 26 → unmappable v root c 1 true →
  ∃ v', drop_page root (c * 4096) false v = Ok v' ∧ unmapped v v' root c 1 true.
Proof.
  intros Hs Hlk Hc Hu. destruct (unmap_one v root c true Hs Hc Hu) as (v' & Hop & Hr). exists v'. split; [|done].
  assert (Hva : c * 4096 < MAXVA) by (unfold MAXVA; lia). unfold unmap_page in Hop. rewrite (walk_internal_noalloc v root _ Hs) in Hop by lia.
  unfold drop_page. rewrite (walk_spec v root _ Hs Hlk) by lia. cbn [bind] in *.
  destruct (table_at (pt v) root (vpath (c * 4096))) as [a|] eqn:Ha; cbn [fmap option_fmap option_map] in *; [|done].
  rewrite (rd_pte v root) in * by (done || lia). cbn [bind] in *. fold (present v root c) in *.
  destruct (present v root c) eqn:Ev; cbn [negb] in *; [|done].
  rewrite (proj2 (Z.eqb_neq _ _)) in * by (apply (ua_leaf _ _ _ _ _ Hu); [lia|done]). fold (frame v root c) in *.
  destruct (ua_frame _ _ _ _ _ Hu c ltac:(lia) Ev eq_refl) as (Hne & Ho & _).
  rewrite (proj2 (Z.eqb_neq _ _)), (pa_range_ok _ _ (sp_inv _ _ Hs) Ho) in Hop by done. exact Hop.
Qed.

Lemma drop_pages v root c k :
  space v root → vmem_lock v = false → 0 ≤ c → 0 ≤ k → c + k ≤ 2 ^ 26 → unmappable v root c k true →
  ∃ v', for_range 0 k (λ i, drop_page root (c * 4096 + i * PGSIZE) false) v = Ok v' ∧ unmapped v v' root c k true.
Proof.
  intros Hs Hlk Hc Hk Hck Hua. apply (for_range_inv (λ j v', unmapped v v' root c j true)); [done|by apply unmapped_none|].
  intros j v1 Hj Hu. unfold PGSIZE. replace (c * 4096 + j * 4096) with ((c + j) * 4096) by lia.
  destruct (drop_one v1 root (c + j)) as (v2 & Hop & Hu');
    [apply Hu|by rewrite (um_lock _ _ _ _ _ _ Hu)|lia|by apply (unmappable_step v v1 root c j k)|].
  exists v2. split; [done|]. apply (unmapped_step v v1 v2); [lia..|done|done].
Qed.

(** ** Areas *)

Section areas.
Context (p : mproc) (s0 : mem St Fs) (l : list (Z * area)).
Context (Hw : areas_in p s0 l) (Hsort : sorted l.*2) (Hf : frames_ok p s0 (λ i, covered l.*2 i = true)).
Context (Hns : Forall (λ a, a_type a ≠ SHARE) l.*2).

(** The nodes [ns] are gone, and the pages in the areas [la]. *)
Record left_over (ns : list Z) (la : list area) s : Prop := {
  lo_space : space (vms s) (pagetable p);
  lo_lock : vmem_lock (vms s) = false;
  lo_vmas : ∀ b, vmas s !! b = if decide (b ∈ ns) then None else vmas s0 !! b;
  lo_nodes : ∀ v, is_Some (vmas s !! v) → pa_owned (al (vms s)) v;
  lo_swept : swept p s0 s (λ i, covered la i = true);
  lo_avail : ∀ n, pa_avail (al (vms s0)) n → pa_avail (al (vms s)) (length ns + n)
}.

Lemma left_over_nil : left_over [] [] s0.
Proof.
  split; [apply Hw|apply Hw| | | |done].
  - intros b. by rewrite decide_False by apply not_elem_of_nil.
  - intros v Hv. by apply (w_nodes _ _ _ Hw).
  - by apply (swept_ext p s0 s0 (λ _, False)); [|apply swept_refl].
Qed.

Lemma give_node ns la s v :
  left_over ns la s → is_Some (vmas s !! v) → ∃ s', free_node v s = Ok s' ∧ left_over (ns ++ [v]) la s'.
Proof.
  intros [L1 L2 L3 L4 L5 L6] Hv. unfold free_node. pose proof (L4 v Hv) as Ho.
  destruct (pa_free_ok (al (vms s)) v (sp_inv _ _ L1) Ho) as (st & E & Hi & F1 & F2 & F3). rewrite E. cbn [bind].
  eexists. split; [reflexivity|]. split; cbn [vms vmas with_vmas with_vms al pt dm vmem_lock with_al]; try done.
  - apply (space_free _ _ v); try done. intros q Hq. rewrite (sw_tables _ _ _ _ L5) by done. intros Ht.
    apply (w_tables _ _ _ Hw) in Ht; [|done]. rewrite L3 in Hv. destruct Hv as [x Hx]. case_decide; congruence.
  - intros b. rewrite lookup_delete, L3. repeat case_decide; set_solver.
  - intros b [x Hb]. apply lookup_delete_Some in Hb as [Hne Hb]. by destruct (F2 b (L4 b (ex_intro _ x Hb))) as [->|].
  - destruct L5 as [A1 A2 A3 A4 A5 A6 A7]. split; try done. intros b. rewrite <-A5. unfold held. cbn. rewrite lookup_delete_None. split.
    + intros [Hob [->|Hn]]; [done|]. split; [by apply F1|done].
    + intros [Hob Hn]. destruct (F2 b Hob) as [->|]; [destruct Hv; congruence|]. split; [done|by right].
  - intros n Hn. rewrite length_app, Nat.add_1_r. cbn. by apply (pa_free_avail (al (vms s)) v st _ (sp_inv _ _ L1) Ho E), L6.
Qed.

(** The pages of the next area. *)
Lemma give_pages ns l1 v a l2 s :
  l = l1 ++ (v, a) :: l2 → left_over ns l1.*2 s →
  ∃ s', vmrun (for_range 0 ((a_end a - a_addr a + PGSIZE - 1) / PGSIZE) (λ i, drop_page (pagetable p) (a_addr a + i * PGSIZE) false)) s = Ok s' ∧
    left_over ns (l1.*2 ++ [a]) s' ∧ vmas s' = vmas s.
Proof.
  intros El [L1 L2 L3 L4 L5 L6]. pose proof (w_areas _ _ _ Hw) as Hall. rewrite El, fmap_app in Hall, Hsort, Hf.
  apply sorted_app in Hsort as (_ & _ & Hbef). pose proof (proj1 (Forall_app _ _ _) Hall) as [Hall1 Hall2]. apply Forall_cons in Hall2 as [[A1 A2 A3 A4 A5] _].
  cbn [fst snd] in *. unfold PGSIZE, MAXVA in *.
  pose proof (aligned_div _ A3) as D1. pose proof (aligned_div _ A4) as D2.
  assert (Hn : (a_end a - a_addr a + 4096 - 1) / 4096 = a_end a / 4096 - a_addr a / 4096) by (symmetry; apply Z.div_unique with 4095; lia).
  assert (Hx : ∀ i, in_area i a = true ↔ a_addr a / 4096 ≤ i < a_end a / 4096) by (intros i; apply in_area_spec).
  assert (Hdis : ∀ i, covered l1.*2 i = true → a_addr a / 4096 ≤ i < a_end a / 4096 → False).
  { intros i (b & Hb & Hi%in_area_spec)%covered_spec Hi'. pose proof (Hbef b a Hb ltac:(left)) as Hab. unfold before in Hab.
    pose proof (Z.div_le_mono _ _ 4096 ltac:(lia) Hab). lia. }
  assert (Hfa : frames_ok p s (λ i, a_addr a / 4096 ≤ i < a_end a / 4096)).
  { apply (frames_swept p s0 s (λ i, covered l1.*2 i = true)); try done; [intros i Hi; lia|].
    eapply frames_sub; [|exact Hf]. cbn. intros i [Hi|Hi]; rewrite covered_app; [by rewrite Hi|]. apply Hx in Hi. cbn. rewrite Hi. by rewrite orb_true_r. }
  destruct (drop_pages (vms s) (pagetable p) (a_addr a / 4096) (a_end a / 4096 - a_addr a / 4096)) as (w & Hop & Hu); try done; try lia; [by apply frames_unmappable|].
  destruct (unmapped_swept p s w _ _ Hfa Hu) as [Hsw Hnd].
  unfold vmrun. rewrite Hn. unfold PGSIZE in Hop. rewrite <-D1 in Hop. rewrite Hop. cbn [bind]. eexists. split; [reflexivity|]. split; [|done].
  split; cbn [vms vmas with_vms]; try done; [apply Hu|rewrite (um_lock _ _ _ _ _ _ Hu); done|by intros b Hb; apply Hnd; [|apply L4]| |].
  - apply (swept_ext p s0 _ (λ i, covered l1.*2 i = true ∨ a_addr a / 4096 ≤ i < a_end a / 4096)).
    { intros i. rewrite covered_app, orb_true_iff, <-Hx. cbn. by rewrite orb_false_r. }
    apply (swept_trans p s0 s); try done; [by apply covered_user|intros i Hi; lia].
  - intros n Hn'. by apply (um_avail _ _ _ _ _ _ Hu), L6.
Qed.

Lemma free_list_ok todo : ∀ fuel l1 s,
  l = l1 ++ todo → (length todo < fuel)%nat → left_over l1.*1 l1.*2 s →
  ∃ s', free_list_loop fuel p (pvma p) (succ_of (pvma p) todo) s = Ok (p, s') ∧ left_over (l.*1 ++ [pvma p]) l.*2 s'.
Proof.
  pose proof (w_ring _ _ _ Hw) as Hring.
  induction todo as [|[v a] todo IH]; intros fuel l1 s El Hfuel Hl; (destruct fuel as [|fuel]; [cbn in Hfuel; lia|]); cbn [free_list_loop].
  - change (succ_of (pvma p) []) with (pvma p). rewrite Z.eqb_refl. rewrite app_nil_r in El. subst l1.
    destruct (give_node _ _ s (pvma p) Hl) as (s' & -> & Hl'); [|cbn [bind]; eauto].
    rewrite (lo_vmas _ _ _ Hl), decide_False; [apply (ring_live _ _ _ _ Hring); left|]. by apply NoDup_cons, (r_nodup _ _ _ Hring).
  - rewrite El in Hring. destruct (nodup_split _ _ _ _ _ (r_nodup _ _ _ Hring)) as (N1 & N2 & N3 & N4).
    change (succ_of (pvma p) ((v, a) :: todo)) with v. rewrite (proj2 (Z.eqb_neq _ _)) by done.
    assert (Hv : vmas s !! v = Some (mk_vma a (pred_of (pvma p) l1) (succ_of (pvma p) todo))).
    { rewrite (lo_vmas _ _ _ Hl), decide_False by done. by apply ring_at. }
    rewrite (ld_ok s v _ Hv). cbn [bind data].
    assert (Ht : a_type a ≠ SHARE). { rewrite El, fmap_app in Hns. apply Forall_app in Hns as [_ Hns']. by apply Forall_cons in Hns' as [? _]. }
    assert (Hsh : shared a = false) by (unfold shared; by rewrite bool_decide_false). rewrite Hsh, bool_decide_false by done. cbn [bind].
    destruct (give_pages l1.*1 l1 v a todo s El Hl) as (s1 & -> & Hl1 & Ev). cbn [bind].
    rewrite (ld_ok s1 v _ ltac:(rewrite Ev; exact Hv)). cbn [bind next].
    assert (Hs : ∃ y, vmas s1 !! succ_of (pvma p) todo = Some y ∧ prev y = v).
    { destruct (ring_between (vmas s0) (pvma p) (l1 ++ [(v, a)]) todo) as [_ Hp]; [by rewrite <-app_assoc|].
      unfold pv in Hp. apply fmap_Some in Hp as (y & Hy & E). exists y. split.
      - rewrite Ev, (lo_vmas _ _ _ Hl), decide_False; [done|]. intros Hin. pose proof (succ_of_in (pvma p) todo) as Hsu.
        rewrite fmap_app in N4. apply NoDup_cons in N4 as [N4 N5]. apply NoDup_app in N5 as (_ & N5 & _).
        apply elem_of_cons in Hsu as [E1|Hsu]; [|by apply (N5 _ Hin)]. rewrite E1 in Hin. apply N4, elem_of_app. by left.
      - rewrite <-E. unfold pred_of. rewrite fmap_app. cbn. by rewrite last_snoc. }
    destruct Hs as (y & Hy & Ey). rewrite (ld_ok s1 _ y Hy). cbn [bind]. rewrite Ey.
    destruct (give_node _ _ s1 v Hl1) as (s2 & -> & Hl2); [rewrite Ev; eauto|]. cbn [bind].
    apply (IH fuel (l1 ++ [(v, a)]) s2); [by rewrite <-app_assoc|cbn in Hfuel; lia|]. by rewrite !fmap_app.
Qed.

Lemma free_vma_list_ok :
  ∃ s', free_vma_list p s0 = Ok (1, with_pvma 0 p, s') ∧ left_over (l.*1 ++ [pvma p]) l.*2 s'.
Proof.
  unfold free_vma_list. rewrite (proj2 (Z.eqb_neq _ _)) by by apply (areas_null p s0 l).
  pose proof (w_ring _ _ _ Hw) as Hring. destruct (ring_hd _ _ _ Hring) as [a0 Hh]. rewrite (ld_ok s0 _ _ Hh). cbn [bind next].
  destruct (free_list_ok l (ring_fuel s0) [] s0) as (s' & -> & Hl); [done| |apply left_over_nil|cbn [bind]; eauto].
  unfold ring_fuel. pose proof (ring_size _ _ _ Hring). lia.
Qed.

(** The pages that are still handed out. *)
Lemma left_owned s b :
  left_over (l.*1 ++ [pvma p]) l.*2 s →
  pa_owned (al (vms s)) b ↔ pa_owned (al (vms s0)) b ∧ (b ∉ l.*1 ++ [pvma p]) ∧
    ¬ ∃ i, covered l.*2 i = true ∧ pr s0 p i = true ∧ b = fr s0 p i.
Proof.
  clear Hsort Hns. intros [L1 L2 L3 L4 L5 L6]. pose proof (sw_held _ _ _ _ L5 b) as Hh. unfold held in Hh.
  assert (Hnode : b ∈ l.*1 ++ [pvma p] → is_Some (vmas s0 !! b)).
  { intros Hb. apply (ring_live _ _ _ _ (w_ring _ _ _ Hw)). set_solver. }
  assert (Hframe : is_Some (vmas s0 !! b) → ¬ ∃ i, covered l.*2 i = true ∧ pr s0 p i = true ∧ b = fr s0 p i).
  { intros [x Hx] (i & Hi & Hp & ->). destruct (f_own _ _ _ Hf i Hi Hp) as (_ & [_ Hn] & _). congruence. }
  specialize (L3 b). specialize (L4 b). pose proof (w_nodes _ _ _ Hw b) as Hn. case_decide as D.
  - split; [|tauto]. intros Ho. destruct (Hnode D) as [x Hx]. destruct (proj1 Hh (conj Ho L3)) as [[_ Hx'] _]. congruence.
  - rewrite L3 in L4, Hh. destruct (vmas s0 !! b) as [x|] eqn:E; [|tauto].
    split; [|intros _; by apply L4]. intros _. split_and!; [by apply Hn|done|by apply Hframe].
Qed.

End areas.

(** ** The page table *)

Lemma marked_leaf (v : vm St) root c :
  space v root → well_marked v root → present v root c = true → PTE_FLAGS (pte_at (pt v) root (c * 4096)) ≠ PTE_V.
Proof.
  intros Hs Hm. unfold present, pte_at, leaf. destruct (table_at (pt v) root (vpath (c * 4096))) as [a|] eqn:Ha; [|done]. cbn.
  destruct (pt v !! slot a (PX 0 (c * 4096))) as [w|] eqn:Hw; [|done]. cbn. intros Hv E.
  destruct (vpath_path (c * 4096)) as [Hp Hl]. apply (Hm (vpath (c * 4096)) a (PX 0 (c * 4096)) w) in E; try done; [lia|apply PX_index].
Qed.

Lemma unmapped_marked (v v' : vm St) root c k do_free : unmapped v v' root c k do_free → well_marked v root → well_marked v' root.
Proof. intros Hu. apply marked_zeroed; apply Hu. Qed.

(** A page of the kernel's in the table of a process. *)
Lemma forget_page (v : vm St) root c :
  space v root → vmem_lock v = false → well_marked v root → 0 ≤ c < 2 ^ 26 →
  ∃ v', vmunmap root (c * 4096) 1 false v = Ok v' ∧ unmapped v v' root c 1 false ∧ well_marked v' root ∧ vmem_lock v' = false.
Proof.
  intros Hs Hlk Hm Hc. destruct (vmunmap_ok v root c 1 false) as (v' & Hop & Hu); try done; try lia.
  { split; [|done|done]. intros i Hi. by apply marked_leaf. }
  exists v'. split_and!; [done|done|by apply (unmapped_marked v v' root c 1 false)|]. by rewrite (um_lock _ _ _ _ _ _ Hu).
Qed.

(** The tables are given back, and the pages [c .. c + k - 1]. *)
Record torn_down (v v' : vm St) (root c k : Z) : Prop := {
  td_own : ∀ b, pa_owned (al v') b ↔ pa_owned (al v) b ∧ (¬ ∃ q, path q ∧ table_at (pt v) root q = Some b) ∧
    ¬ ∃ i, c ≤ i < c + k ∧ present v root i = true ∧ b = frame v root i;
  td_out : ∀ x, ¬ table_word (pt v) root x → pt v' !! x = pt v !! x;
  td_inv : pa_inv (al v');
  td_rest : dm v' = dm v ∧ vmem_lock v' = vmem_lock v;
  td_avail : ∀ n, pa_avail (al v) n → pa_avail (al v') n
}.

Lemma uvmfree_ok (v : vm St) root c sz :
  let k := (sz + 4095) / 4096 in
  space v root → vmem_lock v = false → well_marked v root → 0 ≤ c → 0 ≤ sz < 2 ^ 63 → c + k ≤ 2 ^ 26 → unmappable v root c k true →
  ∃ v', uvmfree root (c * 4096) sz v = Ok v' ∧ torn_down v v' root c k.
Proof.
  intros k Hs Hlk Hm Hc Hsz Hck Hua. unfold uvmfree, PGSIZE. rewrite roundup_div, Z.div_mul by lia. fold k.
  assert (Hk : 0 ≤ k) by (apply Z.div_pos; lia).
  assert (∃ v1, (if 0 <? sz then vmunmap root (c * 4096) k true v else Ok v) = Ok v1 ∧ unmapped v v1 root c k true) as (v1 & -> & Hu).
  { destruct (Z.ltb_spec 0 sz); [by apply vmunmap_ok|]. assert (sz = 0) as -> by lia. exists v. split; [done|]. by apply unmapped_none. }
  cbn [bind]. destruct (freewalk_ok v1 root) as (v2 & -> & [F1 F2 F3 F4 F5 F6 F7]); [apply Hu|by apply (unmapped_marked v v1 root c k true)|].
  destruct Hu as [U1 U2 U3 U4 U5 U6 U7 U8 U9]. exists v2. split; [done|]. split; auto; [| |intuition congruence].
  - intros b. rewrite F2, U4. split.
    + intros [[Hb N1] N2]. split_and!; [done| |].
      * intros (q & Hq & Ht). apply N2. exists q. rewrite U7 by done. done.
      * intros N. apply N1. done.
    + intros (Hb & N1 & N2). split; [split; [done|by intros [_ N]]|]. intros (q & Hq & _ & Ht). rewrite U7 in Ht by done. eauto.
  - intros x Hx. rewrite F4.
    + destruct (U8 x) as [|[_ ?]]; [done|done].
    + intros (q & a & i & Hq & Hi & Ha & ->). rewrite U7 in Ha by done. apply Hx. by exists q, a, i.
Qed.

(** The pages of the kernel's at the top are unmapped, and kept. *)
Record trimmed (v v' : vm St) (root : Z) : Prop := {
  tr_space : space v' root;
  tr_lock : vmem_lock v' = false;
  tr_marked : well_marked v' root;
  tr_own : ∀ b, pa_owned (al v') b ↔ pa_owned (al v) b;
  tr_tables : ∀ q, path q → table_at (pt v') root q = table_at (pt v) root q;
  tr_pages : ∀ i, 0 ≤ i < 2 ^ 26 - 2 → pte_at (pt v') root (i * 4096) = pte_at (pt v) root (i * 4096);
  tr_words : zeroed (pt v) (pt v') root;
  tr_dm : dm v' = dm v;
  tr_avail : ∀ n, pa_avail (al v) n → pa_avail (al v') n
}.

Lemma trim_ok (v : vm St) root :
  space v root → vmem_lock v = false → well_marked v root →
  ∃ v1 v', vmunmap root TRAMPOLINE 1 false v = Ok v1 ∧ vmunmap root TRAPFRAME 1 false v1 = Ok v' ∧ trimmed v v' root.
Proof.
  intros Hs Hlk Hm. change TRAMPOLINE with ((2 ^ 26 - 1) * 4096). change TRAPFRAME with ((2 ^ 26 - 2) * 4096).
  destruct (forget_page v root (2 ^ 26 - 1) Hs Hlk Hm) as (v1 & Hop1 & U & Hm1 & Hlk1); [lia|].
  destruct (forget_page v1 root (2 ^ 26 - 2) (um_space _ _ _ _ _ _ U) Hlk1 Hm1) as (v2 & Hop2 & W & Hm2 & Hlk2); [lia|].
  exists v1, v2. split_and!; [done|done|]. destruct U as [U1 U2 U3 U4 U5 U6 U7 U8 U9], W as [W1 W2 W3 W4 W5 W6 W7 W8 W9].
  split; auto; [| | |by apply (zeroed_trans _ (pt v1))|congruence].
  - intros b. rewrite W4, U4. naive_solver.
  - intros q Hq. by rewrite W7, U7.
  - intros i Hi. rewrite W6, U6; try done; try (unfold MAXVA; lia); rewrite Z.div_mul; lia.
Qed.

Lemma freepagetable_ok p s virt :
  let root := pagetable p in let c := virt / 4096 in let k := (psz p - virt + 4095) / 4096 in
  space (vms s) root → vmem_lock (vms s) = false → well_marked (vms s) root → 0 ≤ virt ≤ psz p → psz p ≤ TRAPFRAME → virt mod PGSIZE = 0 →
  unmappable (vms s) root c k true →
  ∃ v, proc_freepagetable p virt (psz p) s = Ok (with_vms s v) ∧ torn_down (vms s) v root c k.
Proof.
  intros root c k Hs Hlk Hm Hv Hz Hal Hua. change TRAPFRAME with ((2 ^ 26 - 2) * 4096) in Hz. unfold PGSIZE in Hal.
  pose proof (aligned_div virt Hal) as Ev. fold c in Ev. assert (Hc : 0 ≤ c) by (apply Z.div_pos; lia).
  assert (Hck : 0 ≤ k ∧ c + k ≤ 2 ^ 26 - 2).
  { unfold k. split; [apply Z.div_pos; lia|]. rewrite <-Z.div_add_l by lia. apply Z.lt_succ_r, Z.div_lt_upper_bound; lia. }
  unfold proc_freepagetable, vmrun. fold root. destruct (trim_ok (vms s) root Hs Hlk Hm) as (v1 & v2 & -> & Hop2 & [R1 R2 R3 R4 R5 R6 R7 R8 R9]).
  cbn [bind vms with_vms]. rewrite Hop2. cbn [bind vms with_vms]. rewrite u64_small by lia.
  assert (Hpr : ∀ i, c ≤ i < c + k → present v2 root i = present (vms s) root i ∧ frame v2 root i = frame (vms s) root i).
  { intros i Hi. unfold present, frame. by rewrite R6 by lia. }
  destruct (uvmfree_ok v2 root c (psz p - virt)) as (v3 & Hop & [T1 T2 T5 T3 T4]); try done; try lia; fold k.
  { destruct Hua as [A1 A2 A3]. split; intros i.
    - intros Hi. rewrite (proj1 (Hpr i Hi)), R6 by lia. by apply A1.
    - intros Hi. destruct (Hpr i Hi) as [-> ->]. intros Hp _. destruct (A2 i Hi Hp eq_refl) as (G1 & G2 & G3). split_and!; [done|by apply R4|].
      intros q Hq. rewrite R5 by done. by apply G3.
    - intros j Hi Hj. destruct (Hpr i Hi) as [-> ->], (Hpr j Hj) as [-> ->]. by apply A3. }
  rewrite <-Ev in Hop. rewrite Hop. cbn [bind]. fold k in T1. exists v3. split; [done|]. split; [| |done|intuition congruence|auto].
  - intros b. rewrite T1, R4. do 2 f_equiv; [by apply not_iff_compat, exist_proper; intros q; split; intros [Hq Hx]; rewrite R5 in *|].
    apply not_iff_compat, exist_proper. intros i. split; intros (Hi & Hp & E); destruct (Hpr i Hi) as [X1 X2]; rewrite X1, X2 in *; done.
  - intros x Hx. rewrite T2.
    + by destruct (R7 x) as [|[_ ?]].
    + intros (q & a & i & Hq & Hi & Ha & ->). rewrite R5 in Ha by done. apply Hx. by exists q, a, i.
Qed.

(** ** The end of a process *)

(** The pages of the process: those in its areas, the program and the heap. *)
Definition own_page p s (virt i : Z) : Prop := covered (areas_of p s).*2 i = true ∨ virt ≤ i * 4096 < psz p.
(** The nodes of its areas. *)
Definition own_nodes p s : list Z := (areas_of p s).*1 ++ [pvma p].
Definition own_table p s (b : Z) : Prop := ∃ q, path q ∧ table_at (pt (vms s)) (pagetable p) q = Some b.
(** The pages of memory behind them. *)
Definition uses p s (X : Z → Prop) (b : Z) : Prop :=
  b ∈ own_nodes p s ∨ own_table p s b ∨ ∃ i, X i ∧ pr s p i = true ∧ b = fr s p i.

(** What a process can give back. *)
Record can_exit p s (virt : Z) : Prop := {
  ce_inv : mem_inv p s;
  ce_marked : well_marked (vms s) (pagetable p);
  ce_private : Forall (λ a, a_type a ≠ SHARE) (areas_of p s).*2;
  ce_range : 0 ≤ virt ≤ psz p ∧ psz p ≤ TRAPFRAME ∧ virt mod PGSIZE = 0;
  ce_frames : frames_ok p s (own_page p s virt)
}.

Record exited p s s' (virt : Z) : Prop := {
  xt_own : ∀ b, pa_owned (al (vms s')) b ↔ pa_owned (al (vms s)) b ∧ ¬ uses p s (own_page p s virt) b;
  xt_vmas : ∀ v, vmas s' !! v = if decide (v ∈ own_nodes p s) then None else vmas s !! v;
  xt_words : ∀ x, ¬ table_word (pt (vms s)) (pagetable p) x → pt (vms s') !! x = pt (vms s) !! x;
  xt_inv : pa_inv (al (vms s'));
  xt_rest : dm (vms s') = dm (vms s) ∧ vmem_lock (vms s') = false ∧ same_globals s s';
  xt_avail : ∀ n, pa_avail (al (vms s)) n → pa_avail (al (vms s')) (length (own_nodes p s) + n)
}.

Lemma page_range virt z i :
  virt mod 4096 = 0 → (virt / 4096 ≤ i < virt / 4096 + (z - virt + 4095) / 4096) ↔ (virt ≤ i * 4096 < z).
Proof.
  intros Hv%aligned_div. pose proof (Z.div_mod (z - virt + 4095) 4096 ltac:(lia)). pose proof (Z.mod_pos_bound (z - virt + 4095) 4096 ltac:(lia)). lia.
Qed.

(** The program and the heap, once the areas are gone. *)
Lemma program_left p s s1 virt :
  let l := areas_of p s in
  can_exit p s virt → left_over p s (own_nodes p s) l.*2 s1 →
  (∀ i, virt ≤ i * 4096 < psz p → pr s1 p i = negb (covered l.*2 i) && pr s p i ∧ (covered l.*2 i = false → fr s1 p i = fr s p i)) ∧
  unmappable (vms s1) (pagetable p) (virt / 4096) ((psz p - virt + 4095) / 4096) true.
Proof.
  intros l [Hi Hm Hns (Hv & Hz & Hal) Hf] [L1 L2 L3 L4 L5 L6]. change TRAPFRAME with ((2 ^ 26 - 2) * 4096) in Hz.
  assert (Hpg : ∀ i, virt ≤ i * 4096 < psz p → pr s1 p i = negb (covered l.*2 i) && pr s p i ∧ (covered l.*2 i = false → fr s1 p i = fr s p i)).
  { intros i Hr. assert (Hu : 0 ≤ i < 2 ^ 26) by lia. destruct (covered l.*2 i) eqn:E; cbn [negb andb].
    - split; [|done]. by apply (swept_absent p s s1 _ i L5).
    - destruct (swept_page p s s1 _ i L5 Hu) as (_ & ? & ?); [congruence|]. done. }
  split; [done|]. set (c := virt / 4096). set (k := _ / 4096). replace k with (c + k - c) by lia. apply frames_unmappable.
  apply (frames_present p s1 (λ i, virt ≤ i * 4096 < psz p ∧ covered l.*2 i = false)).
  - intros i Hr Hp. apply (page_range virt (psz p) i Hal) in Hr. split; [done|]. rewrite (proj1 (Hpg i Hr)) in Hp. by destruct (covered l.*2 i).
  - apply (frames_swept p s s1 (λ i, covered l.*2 i = true)); [intros i [? _]; lia|intros i ? [_ ?]; congruence|done|].
    eapply frames_sub; [|exact Hf]. intros i [?|[? _]]; [by left|by right].
Qed.

Lemma free_memory_ok p s virt :
  can_exit p s virt → ∃ s', free_memory p virt s = Ok (with_pagetable 0 (with_pvma 0 p), s') ∧ exited p s s' virt.
Proof.
  intros Hce. pose proof Hce as [Hi Hm Hns (Hv & Hz & Hal) Hf]. pose proof (mi_areas _ _ _ Hi) as Hw. set (l := areas_of p s) in *.
  assert (Hroot : pagetable p ≠ 0).
  { destruct (sp_table _ _ (w_space _ _ _ Hw) [] (pagetable p)) as [[[? _] _] _]; [by split; [cbn; lia|]|done|lia]. }
  unfold free_memory. rewrite (proj2 (Z.eqb_neq _ _)) by done.
  assert (Hfc : frames_ok p s (λ i, covered l.*2 i = true)) by (eapply frames_sub; [|exact Hf]; by left).
  destruct (free_vma_list_ok p s l Hw (mi_sorted _ _ _ Hi) Hfc Hns) as (s1 & -> & Hl). cbn [bind].
  destruct (program_left p s s1 virt Hce Hl) as [Hpg Hua]. fold l in Hpg.
  pose proof (λ b, left_owned p s l Hw Hfc s1 b Hl) as Ho1. destruct Hl as [L1 L2 L3 L4 L5 L6].
  destruct (freepagetable_ok (with_pvma 0 p) s1 virt) as (v & Hop & [T1 T2 T5 T3 T4]); try done.
  { apply (marked_zeroed (vms s)); [apply L5|apply L5|done]. }
  cbn [psz with_pvma pagetable] in *. rewrite Hop. cbn [bind]. eexists. split; [reflexivity|].
  pose proof (sw_tables _ _ _ _ L5) as Ht. split; cbn [vms vmas with_vms]; try done.
  - intros b. rewrite T1, Ho1. fold l (own_nodes p s). split.
    + intros ((Hb & Hn & N1) & N2 & N3). split; [done|]. intros [?|[Hx|Hx]]; [done|revert Hx|revert Hx].
      * intros (q & Hq & Hx). apply N2. exists q. by rewrite Ht.
      * intros (i & Hx & Hp & ->). destruct (covered l.*2 i) eqn:E; [apply N1; eauto|]. destruct Hx as [Hx|Hx]; [unfold l in E; congruence|].
        destruct (Hpg i Hx) as [Ep Ef]. rewrite E in Ep. apply N3. exists i. split; [by apply page_range|].
        change (pr s1 p i = true ∧ fr s p i = fr s1 p i). by rewrite Ep, Ef.
    + intros [Hb N]. split_and!; [done|by intros ?; apply N; left| | |].
      * intros (i & Hx & Hp & ->). apply N. right; right. exists i. by split; [left|].
      * intros (q & Hq & Hx). apply N. right; left. exists q. by rewrite <-Ht.
      * intros (i & Hx%page_range & Hp & ->); [|done]. destruct (Hpg i Hx) as [Ep Ef]. change (present _ _ i) with (pr s1 p i) in Hp.
        rewrite Ep in Hp. apply andb_true_iff in Hp as [E%negb_true_iff Hp]. apply N. right; right. exists i. split; [by right|]. split; [done|by apply Ef].
  - intros x Hx. rewrite T2.
    + by destruct (sw_words _ _ _ _ L5 x) as [|[_ ?]].
    + intros (q & a & i & Hq & Hj & Ha & ->). rewrite Ht in Ha by done. apply Hx. by exists q, a, i.
  - destruct T3 as [E1 E2]. split_and!; [rewrite E1; apply L5|congruence|apply L5..].
  - intros n Hn. by apply T4, L6.
Qed.

(** ** The other processes *)

(** A step that spares the tables, the areas and the frames of process [q]. *)
Section other.
Context (q : mproc) (s s' : mem St Fs) (Hi : mem_inv q s).
Let l := areas_of q s.
Context (Hinv : pa_inv (al (vms s'))) (Hlk : vmem_lock (vms s') = false) (Hdm : dm (vms s') = dm (vms s)).
Context (Hword : ∀ b i, own_table q s b → index i → pt (vms s') !! slot b i = pt (vms s) !! slot b i).
Context (Hnode : ∀ v, v ∈ own_nodes q s → vmas s' !! v = vmas s !! v).
Context (Hnodes : ∀ v, is_Some (vmas s' !! v) → v ≠ 0 ∧ pa_owned (al (vms s')) v).
Context (Hown : ∀ b, uses q s (λ i, mapping l.*2 i = true) b → pa_owned (al (vms s)) b →
  pa_owned (al (vms s')) b ∧ (vmas s !! b = None → vmas s' !! b = None)).

Lemma other_table r : path r → table_at (pt (vms s')) (pagetable q) r = table_at (pt (vms s)) (pagetable q) r.
Proof.
  induction r as [|j r IH] using rev_ind; intros Hr; [done|]. rewrite !table_at_snoc. apply path_snoc in Hr as (H1r & H2r & Hj).
  assert (Hr : path r) by (split; [lia|done]). rewrite IH by done. destruct (table_at (pt (vms s)) (pagetable q) r) as [b|] eqn:Hb; [|done]. cbn.
  unfold child. rewrite Hword; [done|by exists r|done].
Qed.

Lemma other_pte va : pte_at (pt (vms s')) (pagetable q) va = pte_at (pt (vms s)) (pagetable q) va.
Proof.
  unfold pte_at, leaf. destruct (vpath_path va) as [Hv _]. rewrite other_table by done.
  destruct (table_at (pt (vms s)) (pagetable q) (vpath va)) as [b|] eqn:Hb; [|done]. cbn.
  rewrite Hword; [done|by eexists|apply PX_index].
Qed.

Lemma other_page i : pr s' q i = pr s q i ∧ fr s' q i = fr s q i.
Proof. unfold pr, fr, present, frame. by rewrite other_pte. Qed.

Lemma other_areas : areas_in q s' l.
Proof.
  pose proof (mi_areas _ _ _ Hi) as [W1 W2 W3 W4 W5 W6]. split; [split|..]; try done.
  - intros r a Hr. rewrite other_table by done. intros Ha. assert (Ht : own_table q s a) by by exists r.
    destruct (sp_table _ _ W1 r a Hr Ha) as [[T1 T2] T3]. split; [split; [done|]|].
    + intros i Hj. rewrite Hword by done. by apply T2.
    + apply Hown; [by right; left|done].
  - intros r r' a Hr Hr'. rewrite !other_table by done. by apply (sp_inj _ _ W1).
  - apply (ring_same (vmas s)); [done|]. intros b Hb. apply Hnode. unfold own_nodes. fold l. set_solver.
  - intros r a Hr. rewrite other_table by done. intros Ha. apply Hown; [by right; left; exists r|by apply (sp_table _ _ W1 r)|by apply (W5 r)].
Qed.

Lemma other_kept : mem_inv q s' ∧ areas_of q s' = l ∧ ∀ va, view q s' va = view q s va.
Proof.
  pose proof other_areas as Hw. pose proof Hi as [M1 M2 [F1 F2 F3] M4 M5 M6 M7]. fold l in M1, M2, F1, F2, F3, M4, M5, M7. split; [|split].
  - apply (mem_inv_intro q s' l). split; try done; [split|..].
    + intros i Hm. rewrite other_pte, (proj1 (other_page i)). by apply F1.
    + intros i Hm. destruct (other_page i) as [-> ->]. intros Hp. destruct (F2 i Hm Hp) as (G1 & [G2 G3] & G4). split; [done|]. split.
      * destruct (Hown (fr s q i)); [right; right; by exists i|done|]. by split; auto.
      * intros r Hr. rewrite other_table by done. by apply G4.
    + intros i j. destruct (other_page i) as [-> ->], (other_page j) as [-> ->]. by apply F3.
    + intros i. destruct (other_page i) as [-> ->]. rewrite Hdm. by apply M4.
    + intros i. rewrite (proj1 (other_page i)). by apply M5.
  - by apply areas_of_ok.
  - intros va. rewrite (view_eq q s' l va Hw), (view_eq q s l va M1), Hdm. destruct (other_page (va / 4096)) as [-> ->]. done.
Qed.

End other.

(** The words of a table that the process does not have are left alone. *)
Lemma exit_word p q s s' virt b i :
  can_exit p s virt → exited p s s' virt → mem_inv q s → own_table q s b → ¬ own_table p s b → index i →
  pt (vms s') !! slot b i = pt (vms s) !! slot b i.
Proof.
  intros Hce Hx Hi (r' & Hr' & Hb) Hn Hj. apply (xt_words _ _ _ _ Hx). intros (r & a & j & Hr & Hj' & Ha & E). apply Hn. exists r.
  destruct (sp_table _ _ (w_space _ _ _ (mi_areas _ _ _ Hi)) r' b Hr' Hb) as [[[_ M1] _] _].
  destruct (sp_table _ _ (w_space _ _ _ (mi_areas _ _ _ (ce_inv _ _ _ Hce))) r a Hr Ha) as [[[_ M2] _] _].
  by destruct (slot_inj b a i j M1 M2 Hj Hj' E) as [-> _].
Qed.

(** A node that is left is none of the pages that went. *)
Lemma exit_node p s s' virt v :
  can_exit p s virt → exited p s s' virt → is_Some (vmas s' !! v) → v ≠ 0 ∧ pa_owned (al (vms s')) v.
Proof.
  intros Hce Hx [x Hv]. pose proof (xt_vmas _ _ _ _ Hx v) as E. case_decide as D; [congruence|]. rewrite Hv in E.
  pose proof (mi_areas _ _ _ (ce_inv _ _ _ Hce)) as Hw. destruct (w_nodes _ _ _ Hw v) as [H1v Ho]; [eauto|]. split; [done|].
  apply (xt_own _ _ _ _ Hx). split; [done|]. intros [?|[(r & Hr & Ht)|(i & Hr & Hp & ->)]]; [done| |].
  - pose proof (w_tables _ _ _ Hw r v Hr Ht). congruence.
  - destruct (f_own _ _ _ (ce_frames _ _ _ Hce) i Hr Hp) as (_ & [_ ?] & _). congruence.
Qed.

(** ** The theorems *)



End exit.
End VmaExit.
