(* ===== verification/VmaSpec.v ===== *)
(** * The address space of a process: what mmap, munmap and faults promise

    The abstract address space: a list of areas and the bytes that the process
    sees in its mappings.  The calls of the kernel, on page tables, frames and
    a ring of areas in memory, refine its steps. *)

From Stdlib Require Import Sorted.
From S2P Require Import Prelude BuddyDefs Pmem CStringDefs CString VMemDefs VMem VMemSpec VmaDefs MmapDefs VmaForkDefs.
From S2P Require Import VmaRing VmaInv VmaUnmap VmaPages VmaMap VmaFault VmaView VmaCalls.
Import Pmem VMemDefs VMem VMemSpec VmaDefs MmapDefs VmaForkDefs VmaRing VmaInv VmaUnmap VmaPages VmaMap VmaFault VmaView VmaCalls.

Module VmaSpec.

(** ** The abstract machine *)

Record aspace := mk_aspace { as_areas : list area; as_bytes : Z → option Z }.

Inductive call :=
  | Map (start len prot flags fd off : Z)
  | Unmap (start len : Z)
  | Fault (addr : Z).
Inductive answer :=
  | Mapped (b : Z)
  | Unmapped (r : Z)
  | Faulted (r : Z) (signals : list Z).

(** A mapping goes where no area is, at the hint if there is one, and reads as
    zeros.  Unmapping cuts the range out of the areas; its bytes are gone.  A
    fault in an area that may be accessed gives zeros to the rest of the
    page; any other fault changes nothing and is answered with a signal,
    unless it is in the heap. *)
Inductive astep : call → answer → aspace → aspace → Prop :=
  | astep_map start len prot flags fd off b la lb f f' :
      clear b (b + map_pages len * 4096) (la ++ lb) → (start ≠ 0 → b = start) →
      sorted (la ++ map_area prot b len off :: lb) →
      (∀ va, f' va = if bool_decide (prot ≠ PROT_NONE) && (b <=? va) && (va <? b + map_pages len * 4096) then Some 0 else f va) →
      astep (Map start len prot flags fd off) (Mapped b) (mk_aspace (la ++ lb) f) (mk_aspace (la ++ map_area prot b len off :: lb) f')
  | astep_unmap start len l f f' :
      let lo := munmap_start start in let hi := munmap_end start len in
      (∀ va, f' va = if decide (gone lo hi l (va / 4096)) then None else f va) →
      astep (Unmap start len) (Unmapped (if existsb (hit lo hi) l then 0 else -1)) (mk_aspace l f) (mk_aspace (l ≫= cut lo hi) f')
  | astep_fault addr l f f' a :
      a ∈ l → contains addr a = true → orig_prot a ≠ PROT_NONE →
      (∀ va, f' va = if bool_decide (va / 4096 = addr / 4096 ∧ f va = None) then Some 0 else f va) →
      astep (Fault addr) (Faulted 0 []) (mk_aspace l f) (mk_aspace l f')
  | astep_forbidden addr l f a :
      a ∈ l → contains addr a = true → orig_prot a = PROT_NONE →
      astep (Fault addr) (Faulted (- SIGSEGV) [SIGSEGV]) (mk_aspace l f) (mk_aspace l f)
  | astep_heap addr l f r :
      (∀ a, a ∈ l → contains addr a = false) → r = Faulted 0 [] ∨ r = Faulted (-1) [SIGSEGV] →
      astep (Fault addr) r (mk_aspace l f) (mk_aspace l f).

Inductive asteps : list call → list answer → aspace → aspace → Prop :=
  | asteps_nil x : asteps [] [] x x
  | asteps_cons c a cs l x y z : astep c a x y → asteps cs l y z → asteps (c :: cs) (a :: l) x z.

Section spec.
Context {St : Type} `{PageAllocator St} `{!PageAllocatorLaws St} `{BlockAllocator St} {Fs : Type} `{MapFiles St Fs}.
Implicit Types (s : mem St Fs) (p : mproc).

(** ** The calls *)

Definition exec (c : call) p s : res (answer * mproc * mem St Fs) :=
  match c with
  | Map start len prot flags fd off => let* (b, p, s) := mmap p start len prot flags fd off s in Ok (Mapped b, p, s)
  | Unmap start len => let* (r, s) := munmap p start len s in Ok (Unmapped r, p, s)
  | Fault addr => let* (r, sg, s) := pagefault_handler p addr s in Ok (Faulted r sg, p, s)
  end.
Fixpoint run (cs : list call) p s : res (list answer * mproc * mem St Fs) :=
  match cs with
  | [] => Ok ([], p, s)
  | c :: cs =>
      let* (a, p, s) := exec c p s in
      let* (l, p, s) := run cs p s in
      Ok (a :: l, p, s)
  end.

Definition is_private_anon (flags : Z) : bool :=
  has flags MAP_ANONYMOUS && has flags MAP_PRIVATE && negb (has flags MAP_SHARED) && negb (has flags MAP_FIXED) && negb (has flags MAP_ALLOC).

(** The calls the theorems speak of: private anonymous mappings at a free
    place, ranges that spare the stack, faults in areas without a file. *)
Definition allowed (c : call) p s : bool :=
  match c with
  | Map start len prot flags fd off => is_private_anon flags && (0 <? len) && place_free p s (place p s start len).1.1 len
  | Unmap start len =>
      (0 <=? start) && (0 <? len) && (start + len <? 2 ^ 64) && off_stack (munmap_start start) (munmap_end start len) (areas_of p s).*2
  | Fault addr => (0 <=? addr) && (addr <? MAXVA) && fault_plain p s addr
  end.
(** The pages a call may take. *)
Definition cost (c : call) p s : nat :=
  match c with
  | Map _ len _ _ _ _ => 1 + 3 * Z.to_nat (map_pages len)
  | Unmap _ _ => S (length (areas_of p s))
  | Fault _ => 3
  end.
Fixpoint safe_run (cs : list call) p s : Prop :=
  match cs with
  | [] => True
  | c :: cs =>
      allowed c p s = true ∧ pa_avail (al (vms s)) (cost c p s) ∧
      ∀ a p' s', exec c p s = Ok (a, p', s') → safe_run cs p' s'
  end.

(** The abstract address space of a state. *)
Definition shows p s (x : aspace) : Prop := as_areas x = (areas_of p s).*2 ∧ ∀ va, as_bytes x va = view p s va.

Lemma is_private_anon_spec flags : is_private_anon flags = true → private_anon flags.
Proof. unfold is_private_anon. rewrite !andb_true_iff, !negb_true_iff. intros ((((? & ?) & ?) & ?) & ?). by split. Qed.

(** A page that is there shows its bytes. *)
Lemma view_present p s va : mem_inv p s → mapping (areas_of p s).*2 (va / 4096) = true → view p s va = None ↔ pr s p (va / 4096) = false.
Proof.
  intros Hi Hm. unfold view. rewrite Hm. cbn [andb]. destruct (pr s p (va / 4096)) eqn:Hp; [|done]. split; [|done]. intros E.
  destruct (mi_live _ _ _ Hi _ Hm Hp) as [_ L]. destruct (L (fr s p (va / 4096) + va mod 4096)) as [c Hc]; [pose proof (mod_page va); lia|]. congruence.
Qed.

Lemma fault_step p s addr f :
  mem_inv p s → (∀ va, f va = view p s va) → 0 ≤ addr < MAXVA → fault_plain p s addr = true → pa_avail (al (vms s)) 3 →
  ∃ r sg s' y, pagefault_handler p addr s = Ok (r, sg, s') ∧ mem_inv p s' ∧
    astep (Fault addr) (Faulted r sg) (mk_aspace (areas_of p s).*2 f) y ∧ shows p s' y.
Proof.
  intros Hi Hf Ha Hpl Hav. destruct (fault_call p s addr 0 Hi Ha Hpl Hav) as (s' & -> & Hi' & Ea & Hv & _).
  pose proof (w_areas _ _ _ (mi_areas _ _ _ Hi)) as Hok. unfold fault_answer, fault_plain in *.
  destruct (area_of_addr addr (areas_of p s)) as [[v a]|] eqn:Hat.
  - destruct (area_page _ _ _ _ Hok Hat) as [Hin Hia]. apply area_of_addr_in in Hat as [_ Hc]. cbn in Hc.
    destruct (Z.eqb_spec (orig_prot a) PROT_NONE) as [Ep|Ep]; cbn [fst snd orb] in *.
    + change (- SIGSEGV =? 0) with false in Hv. cbv iota in Hv. subst s'. eexists _, _, s, (mk_aspace _ f). split_and!; [done|done|by eapply astep_forbidden|by split].
    + apply andb_true_iff in Hpl as [_ Hst%negb_true_iff]. apply bool_decide_eq_false in Hst. destruct Hv as [_ Hv].
      assert (Hm : mapping (areas_of p s).*2 (addr / 4096) = true) by (apply mapping_spec; eauto).
      eexists _, _, s', (mk_aspace _ (view p s')). split_and!; [done|done| |split; [symmetry; by rewrite Ea|done]].
      eapply astep_fault; try done. intros va. rewrite Hf, Hv, Hm, andb_true_r. destruct (decide (va / 4096 = addr / 4096)) as [E|E].
      * rewrite (bool_decide_true (_ = _)) by done. cbn [andb]. pose proof (view_present p s va Hi) as Hvp. rewrite E in Hvp.
        destruct (pr s p (addr / 4096)); cbn [negb].
        -- rewrite bool_decide_false; [done|]. intros [_ X]. by apply Hvp in X.
        -- rewrite bool_decide_true; [done|]. split; [done|]. by apply Hvp.
      * rewrite !bool_decide_false by tauto. done.
  - assert (Hnone : ∀ a, a ∈ (areas_of p s).*2 → contains addr a = false).
    { intros a (x & -> & Hx)%list_elem_of_fmap. destruct (contains addr x.2) eqn:E; [exfalso|done].
      assert (Hne : filter (λ x, contains addr x.2 = true) (areas_of p s) = []).
      { unfold area_of_addr in Hat. by destruct (filter _ _). }
      assert (Hx2 : x ∈ filter (λ x, contains addr x.2 = true) (areas_of p s)) by by apply list_elem_of_filter.
      rewrite Hne in Hx2. by apply elem_of_nil in Hx2. }
    eexists _, _, s', (mk_aspace _ f). split_and!; [done|done| |split; [by rewrite Ea|]].
    + apply astep_heap; [done|]. destruct (addr <=? psz p); auto.
    + intros va. cbn [as_bytes]. rewrite Hf. destruct (addr <=? psz p); cbn [fst Z.eqb] in Hv; [|by rewrite Hv]. destruct Hv as [_ ->].
      destruct (mapping (areas_of p s).*2 (addr / 4096)) eqn:Hm; [exfalso|by rewrite andb_false_r].
      apply mapping_spec in Hm as (a & Hin & _ & Hia). destruct (proj1 (Forall_forall _ _) Hok a Hin) as [A1 _ A3 A4 _].
      unfold PGSIZE in *. apply in_area_spec in Hia. specialize (Hnone a Hin). unfold contains in Hnone. pose proof (aligned_div _ A3). pose proof (aligned_div _ A4).
      pose proof (Z.div_mod addr 4096 ltac:(lia)). pose proof (mod_page addr).
      rewrite (proj2 (Z.leb_le _ _)), (proj2 (Z.ltb_lt _ _)) in Hnone by lia. done.
Qed.

Lemma exec_ok c p s x :
  mem_inv p s → shows p s x → allowed c p s = true → pa_avail (al (vms s)) (cost c p s) →
  ∃ a p' s' y, exec c p s = Ok (a, p', s') ∧ mem_inv p' s' ∧ astep c a x y ∧ shows p' s' y.
Proof.
  intros Hi Hx Hal Hav. destruct x as [l f]. destruct Hx as [Hl Hf]. cbn in Hl, Hf. subst l.
  destruct c as [start len prot flags fd off|start len|addr]; cbn [allowed cost exec] in *.
  - apply andb_true_iff in Hal as [[Hfl%is_private_anon_spec Hlen%Z.ltb_lt]%andb_true_iff Hpl].
    destruct (place p s start len) as [[b p'] s0] eqn:Ep. cbn [fst snd] in Hpl.
    destruct (mmap_call p s start len prot flags fd off b p' s0 0 Hi Hfl Hlen Ep Hpl) as (s' & la & lb & El & -> & Hi' & Ea & Hv & _);
      [by rewrite Nat.add_0_r|]. cbn [bind].
    eexists _, p', s', (mk_aspace _ (view p' s')). split_and!; [done|done| |by split; [symmetry; exact Ea|]].
    rewrite El. apply place_free_spec in Hpl as (_ & _ & _ & Hc & _). constructor; [by rewrite <-El| | |].
    + intros Hst. unfold place, choose_start in Ep. rewrite (proj2 (Z.eqb_neq start 0)) in Ep by done. by simplify_eq.
    + rewrite <-Ea. apply Hi'.
    + intros va. by rewrite Hf, Hv.
  - apply andb_true_iff in Hal as [[[H2%Z.leb_le H3%Z.ltb_lt]%andb_true_iff H4%Z.ltb_lt]%andb_true_iff Hoff].
    destruct (munmap_call p s start len 0 Hi H2 H3 H4 Hoff) as (s' & -> & Hi' & Ea & Hv & _); [by rewrite length_fmap, Nat.add_0_r|].
    cbn [bind]. eexists _, p, s', (mk_aspace _ (view p s')). split_and!; [done|done| |by split; [symmetry; exact Ea|]].
    constructor. intros va. by rewrite Hf, Hv.
  - apply andb_true_iff in Hal as [[H2%Z.leb_le H3%Z.ltb_lt]%andb_true_iff Hpl].
    destruct (fault_step p s addr f Hi Hf (conj H2 H3) Hpl Hav) as (r & sg & s' & y & -> & Hi' & Hst & Hy). cbn [bind]. eauto 10.
Qed.

Lemma calls_ok cs : ∀ p s x,
  mem_inv p s → shows p s x → safe_run cs p s →
  ∃ l p' s' y, run cs p s = Ok (l, p', s') ∧ mem_inv p' s' ∧ asteps cs l x y ∧ shows p' s' y.
Proof.
  induction cs as [|c cs IH]; intros p s x Hi Hx Hs; [eexists [], p, s, x; split_and!; [done|done|constructor|apply Hx..]|].
  destruct Hs as (Hal & Hav & Hs). destruct (exec_ok c p s x Hi Hx Hal Hav) as (a & p1 & s1 & y & He & Hi1 & Hst & Hy).
  destruct (IH p1 s1 y Hi1 Hy (Hs _ _ _ He)) as (l & p2 & s2 & z & Hr & Hi2 & Hsts & Hz).
  exists (a :: l), p2, s2, z. cbn [run]. rewrite He. cbn [bind]. rewrite Hr. cbn [bind]. split_and!; try done; [by econstructor|apply Hz..].
Qed.

(** ** Mapping and unmapping again *)

(** An area without its size and its offset, which munmap computes anew for
    the area behind the range. *)
Definition shape (a : area) : segtype * Z * Z * Z * Z * Z * Z * Z * Z :=
  (a_type a, a_perm a, orig_prot a, a_addr a, a_end a, a_flags a, a_fd a, ref_count a, shm_kernel a).

Lemma cut_beside lo hi a :
  lo < hi → area_ok a → a_end a ≤ lo ∨ hi ≤ a_addr a → shape <$> cut lo hi a = [shape a] ∨ a_addr a = a_end a.
Proof.
  intros Hlh [A1 _ _ _ _] Hc. unfold cut, hit, within, front, back. destruct (Z.ltb_spec lo (a_end a)) as [L1|L1]; [|by left].
  destruct (Z.leb_spec (a_addr a) hi) as [L2|L2]; [|by left]. assert (Ea : a_addr a = hi) by lia. cbn [andb].
  rewrite (proj2 (Z.leb_le lo _)), (proj2 (Z.ltb_ge (a_addr a) lo)) by lia. cbn [andb app].
  destruct (Z.leb_spec (a_end a) hi); [right; lia|]. rewrite (proj2 (Z.ltb_lt hi (a_end a))) by lia. left. cbn. unfold shape. cbn. by rewrite Ea.
Qed.

Lemma clear_cut lo hi (l : list area) :
  lo < hi → Forall area_ok l → Forall (λ a, a_addr a < a_end a ∨ a_addr a ≠ hi) l → clear lo hi l →
  shape <$> (l ≫= cut lo hi) = shape <$> l ∧ ∀ i, ¬ gone lo hi l i.
Proof.
  intros Hlh Ha Hn Hc. split.
  - induction l as [|a l IH]; [done|]. apply Forall_cons in Ha as [A1 A2], Hc as [C1 C2], Hn as [N1 N2].
    rewrite bind_cons, fmap_app, IH by done. destruct (cut_beside lo hi a Hlh A1 C1) as [-> |E]; [done|].
    destruct N1 as [?|N1]; [lia|]. unfold cut, hit. destruct A1 as [L _ _ _ _].
    assert ((lo <? a_end a) && (a_addr a <=? hi) = false) as ->; [|done]. lia.
  - intros i (a & Hin & (G1 & G2 & _)). destruct (proj1 (Forall_forall _ _) Ha a Hin) as [L _ A3 A4 _]. unfold PGSIZE in *.
    destruct (proj1 (Forall_forall _ _) Hc a Hin) as [C|C];
      [pose proof (Z.div_le_mono _ _ 4096 ltac:(lia) C)|pose proof (Z.div_le_mono _ _ 4096 ltac:(lia) C)]; lia.
Qed.

(** A mapping among other areas, unmapped. *)
Lemma unmap_inserted (la lb : list area) b prot len off :
  b mod 4096 = 0 → 0 < map_pages len → let n := map_pages len * 4096 in let l := la ++ map_area prot b len off :: lb in
  Forall area_ok (la ++ lb) → Forall (λ a, a_addr a < a_end a ∨ a_addr a ≠ b + n) (la ++ lb) → clear b (b + n) (la ++ lb) →
  shape <$> (l ≫= cut b (b + n)) = shape <$> (la ++ lb) ∧
  (∀ i, gone b (b + n) l i ↔ b / 4096 ≤ i < b / 4096 + map_pages len) ∧ existsb (hit b (b + n)) l = true ∧ off_stack b (b + n) l = true.
Proof.
  intros Hb Hn n l Hok Hne Hc. destruct (clear_cut b (b + n) (la ++ lb)) as [Hsh Hng]; [lia|done|done|done|].
  destruct (map_area_bounds prot b len off) as (X1 & X2 & X3). unfold l. set (x := map_area prot b len off) in *. fold n in X2.
  assert (E : (b + n) / 4096 = b / 4096 + map_pages len) by (unfold n; by rewrite Z.div_add by lia).
  assert (X4 : ref_count x = 1) by (unfold x, map_area, marked; by destruct (prot =? PROT_NONE), (has prot PROT_WRITE)).
  assert (Hhit : hit b (b + n) x = true) by (unfold hit; rewrite X1, X2; lia).
  assert (Hwi : within b (b + n) x = true) by (unfold within; rewrite X1, X2; lia).
  split_and!.
  - assert (cut b (b + n) x = []) as Hx by (unfold cut; by rewrite Hhit, Hwi, X4). rewrite bind_app, bind_cons, Hx. cbn [app].
    by rewrite <-bind_app.
  - intros i. split.
    + intros (a & Hin & Hg). destruct (decide (a = x)) as [->|Hax]; [destruct Hg as (G & _); lia|]. destruct (Hng i). exists a. set_solver.
    + intros Hr. exists x. split; [set_solver|]. unfold goes. rewrite X1, X2, X4, E. split_and!; lia.
  - rewrite existsb_app. cbn [existsb]. by rewrite Hhit, orb_true_r.
  - unfold off_stack. apply forallb_forall. intros a Ha%list_elem_of_In. unfold is_stack.
    destruct (decide (a = x)) as [->|Hax]; [by rewrite X3|]. destruct (proj1 (Forall_forall _ _) Hc a); [set_solver|lia..].
Qed.

(** ** The claims *)

(** C4. [vma_init] gives a process with a page table an address space without
    mappings that satisfies the invariant.  From any state that satisfies it,
    every sequence of private anonymous mappings at free places, of unmappings
    that spare the stack and of page faults in areas without a file, each with
    enough free pages, runs to its end without a panic; its answers, the areas
    in the ring and the bytes in the mappings of the process are those of a
    run of the abstract address space, and the invariant holds at the end. *)
Theorem address_space_refinement :
  (∀ p s n, bare p s → pa_avail (al (vms s)) (2 + n) →
     ∃ v s', vma_init p s = Ok (v, with_pvma v p, s') ∧ mem_inv (with_pvma v p) s' ∧
       shows (with_pvma v p) s' (mk_aspace [first_area] (λ _, None)) ∧ pa_avail (al (vms s')) n) ∧
  (∀ cs p s x, mem_inv p s → shows p s x → safe_run cs p s →
     ∃ l p' s' y, run cs p s = Ok (l, p', s') ∧ mem_inv p' s' ∧ asteps cs l x y ∧ shows p' s' y).
Proof.
  split; [|exact calls_ok]. intros p s n Hb Hav. destruct (vma_init_ok p s n Hb Hav) as (v & s' & Hop & Hi & Ea & Hv & Hav').
  exists v, s'. split_and!; try done.
Qed.




(** C9. Copy on write: an address outside of every private area, or without a
    page, is refused.  Otherwise the page gets a frame that nobody had, with
    the bytes of the old one and permission to write; all other pages and all
    that the process sees stay as they are.  The old frame is not given back. *)
Theorem cow_correct p s i n :
  mem_inv p s → 0 ≤ i < 2 ^ 26 → pa_avail (al (vms s)) (S n) →
  match area_of_addr (i * 4096) (areas_of p s) with
  | Some (_, a) =>
      if has (a_flags a) MAP_PRIVATE && pr s p i then
        a_type a ≠ STACK →
        ∃ s', handle_cow_write p (i * 4096) s = Ok (0, s') ∧ mem_inv p s' ∧ areas_of p s' = areas_of p s ∧
          usable p s' i ∧ ¬ pa_owned (al (vms s)) (fr s' p i) ∧
          (∀ va, view p s' va = view p s va) ∧ (∀ j, 0 ≤ j < 2 ^ 26 → j ≠ i → pr s' p j = pr s p j ∧ fr s' p j = fr s p j) ∧
          (∀ b, held s' b ↔ b = fr s' p i ∨ held s b) ∧ pa_avail (al (vms s')) n
      else handle_cow_write p (i * 4096) s = Ok (-1, s)
  | None => handle_cow_write p (i * 4096) s = Ok (-1, s)
  end.
Proof.
  intros Hi Hu Hav. pose proof (handle_cow_ok p s _ i n (mi_areas _ _ _ Hi) Hu) as Hc.
  destruct (area_of_addr (i * 4096) (areas_of p s)) as [[v a]|] eqn:Hat; [|done].
  destruct (has (a_flags a) MAP_PRIVATE && pr s p i) eqn:E; [|done]. apply andb_true_iff in E as [E1 E2]. intros Ht.
  destruct (cow_call p s v a i n Hi Hu Hat Ht E1 E2 Hav) as (s' & Hop & Hi' & Ea & Hus & Hv & Hco & Hav' & _).
  exists s'. split_and!; try done; try apply Hus; [apply Hco| |apply Hco]. intros j Hj Hne. destruct (page_addr j Hj) as [Hva Hd].
  apply same_page; [done|]. apply (co_keep _ _ _ _ Hco); [done|by rewrite Hd].
Qed.


End spec.
End VmaSpec.
