(* ===== verification/VmaRuns.v ===== *)
(** * The address space on a concrete machine

    The buddy allocator on 512 KiB, a process with an empty page table and a heap
    of three pages, no files.  The theorems on mmap, munmap, copy on write and
    page faults at states of this machine. *)

From S2P Require Import Prelude CList BuddyDefs BuddyBits BuddyInv BuddyInit Pmem PmemSpec CStringDefs VMemDefs VMem VMemSpec VmaDefs MmapDefs.
From S2P Require Import VmaForkDefs VmaRing VmaInv VmaUnmap VmaPages VmaMap VmaFault VmaView VmaCalls VmaSpec.
Import Buddy BuddyInit Pmem PmemSpec VMemDefs VMem VMemSpec VmaDefs MmapDefs VmaForkDefs VmaRing VmaInv VmaUnmap VmaPages VmaMap VmaFault VmaView
  VmaCalls VmaSpec.

Module VmaRuns.

(** ** The machine *)

Definition ram : res buddy := buddy_init 0x80200000 0x80280000 empty_state.
Definition ram_state : buddy := get empty_state ram.

Lemma ram_inv : pa_inv ram_state.
Proof.
  destruct (buddy_init_spec 0x80200000 0x80280000 128 empty_state) as (s & Hop & Hw & Hlk & _).
  - unfold BuddyInit.range_ok. split_and!; vm_compute; congruence.
  - unfold ram_state, ram. rewrite Hop. exact (conj Hw Hlk).
Qed.

(** The free pages of a state are counted. *)
Definition avail_b (s : buddy) (n : nat) : bool := (n <=? length (filter (λ q, free_page_b s q = true) (seqZ 0 128)))%nat.
Lemma avail_b_spec s n : avail_b s n = true → pa_avail s n.
Proof.
  intros Hn%Nat.leb_le. exists (filter (λ q, free_page_b s q = true) (seqZ 0 128)). split; [apply NoDup_filter, NoDup_seqZ|].
  split; [done|]. intros q [Hq _]%list_elem_of_filter. by apply free_page_b_spec.
Qed.

#[export] Instance no_files : MapFiles buddy unit := {
  mf_flags _ _ := 0;
  mf_readable _ _ := true;
  mf_fstat _ _ := (-1, 0);
  mf_pos _ _ := 0;
  mf_lseek _ _ t := (-1, t);
  mf_read _ _ _ t v := Ok (-1, t, v);
  mf_dup _ t := Ok t
}.

Abbreviation state := (mproc * mem buddy unit)%type.

Definition table : Z * vm buddy := get (0, mk_vm ram_state ∅ ∅ false) (uvmcreate (mk_vm ram_state ∅ ∅ false)).
Definition proc0 : mproc := mk_mproc 0 table.1 0x3000 1 0 0 ∅ [].
Definition mem0 : mem buddy unit := mk_mem table.2 ∅ ∅ ∅ tt USER_MMAP_START.

Lemma bare0 : VmaCalls.bare proc0 mem0 ∧ pa_avail (al (vms mem0)) 40.
Proof.
  destruct (uvmcreate_space (mk_vm ram_state ∅ ∅ false) 40) as (root & s & Hop & _ & Hs & Hav & _ & Hlk & Hno & _);
    [exact ram_inv|apply avail_b_spec; vm_compute; reflexivity|].
  assert (E : table = (root, s)) by (unfold table; exact (get_Ok (0, mk_vm ram_state ∅ ∅ false) _ _ Hop)).
  unfold proc0, mem0. rewrite E. cbn [fst snd]. split; [|exact Hav].
  split; cbn [pagetable vms vmas psz]; [exact Hs|exact Hlk|by intros ? [? ?]|reflexivity| |unfold MAXVA; lia].
  intros i _. unfold pr, present. cbn [pagetable vms]. rewrite Hno. discriminate.
Qed.

(** The process after [vma_init]. *)
Definition init : state := match vma_init proc0 mem0 with Ok (_, p, s) => (p, s) | _ => (proc0, mem0) end.
Lemma init_inv : mem_inv init.1 init.2.
Proof.
  destruct bare0 as [Hb Hav]. destruct (vma_init_ok proc0 mem0 38 Hb Hav) as (v & s & E & Hi & _).
  unfold init. rewrite E. exact Hi.
Qed.

(** ** Runs *)

Definition after (cs : list call) (x : state) : state := match run cs x.1 x.2 with Ok (_, p, s) => (p, s) | _ => x end.

(** The answers of a run, if every call is allowed and has its pages. *)
Fixpoint checked (cs : list call) (x : state) : option (list answer) :=
  match cs with
  | [] => Some []
  | c :: cs =>
      if allowed c x.1 x.2 && avail_b (al (vms x.2)) (cost c x.1 x.2) then
        match exec c x.1 x.2 with Ok (a, p, s) => cons a <$> checked cs (p, s) | _ => None end
      else None
  end.
Lemma checked_spec cs : ∀ l p s,
  checked cs (p, s) = Some l → safe_run cs p s ∧ ∀ l' p' s', run cs p s = Ok (l', p', s') → l' = l.
Proof.
  induction cs as [|c cs IH]; intros l p s; cbn [checked safe_run run fst snd]; [intros [= <-]; split; [done|by intros ? ? ? [= <- _ _]]|].
  destruct (allowed c p s) eqn:Hal; [|done]. destruct (avail_b _ _) eqn:Hav; [|done]. cbn [andb].
  destruct (exec c p s) as [[[a p1] s1]| | |]; try done. cbn [bind]. intros (l1 & Hl & ->)%fmap_Some. apply IH in Hl as [H1 H2]. split.
  - split_and!; [done|by apply avail_b_spec|]. by intros a' p' s' [= <- <- <-].
  - intros l' p' s' Hr. apply bind_Ok in Hr as ([[l2 p2] s2] & Hr & [= <- <- <-]). f_equal. by apply (H2 l2 p2 s2).
Qed.

Lemma shows_view (p : mproc) (s : mem buddy unit) : shows p s (mk_aspace (areas_of p s).*2 (view p s)).
Proof. by split. Qed.

Lemma after_inv cs x l : mem_inv x.1 x.2 → checked cs x = Some l → mem_inv (after cs x).1 (after cs x).2.
Proof.
  destruct x as [p s]. intros Hi [Hs _]%checked_spec. destruct (calls_ok cs p s _ Hi (shows_view p s) Hs) as (l' & p' & s' & y & E & Hi' & _).
  unfold after. cbn [fst snd]. rewrite E. exact Hi'.
Qed.

Definition rw : Z := Z.lor PROT_READ PROT_WRITE.
Definition anon : Z := Z.lor MAP_PRIVATE MAP_ANONYMOUS.
Definition low_area : Z := 0x10000000.

(** 5000 bytes at an address of the process's choice, then 4096 bytes at one of
    the kernel's. *)
Definition maps : list call := [Map low_area 5000 rw anon (-1) 0; Map 0 4096 PROT_NONE anon (-1) 0].
Definition two : state := after maps init.

(** A fault in the first mapping gives the page a frame of its own, one in the
    second is refused, as is one where the first has been unmapped. *)
Definition calls : list call := [Fault (low_area + 8); Fault (low_area - 8); Unmap low_area 4096; Fault low_area].
Definition answered : list answer := [Faulted 0 []; Faulted (-11) [SIGSEGV]; Unmapped 0; Faulted (-1) [SIGSEGV]].

(** Another 8192 bytes without a hint: two pages below the mappings. *)
Definition next_place : Z := low_area - 3 * 4096.
Definition two_areas : list area := [map_area PROT_NONE (low_area - 4096) 4096 0; map_area rw low_area 5000 0; first_area].

(** A mapping for reading after a fault. *)
Definition readable : state := after [Map low_area 4096 PROT_READ anon (-1) 0; Fault low_area] init.

(** What the theorems ask of these states. *)
Definition asked : Prop :=
  checked maps init = Some [Mapped low_area; Mapped (low_area - 4096)] ∧ checked calls two = Some answered ∧
  (areas_of two.1 two.2).*2 = two_areas ∧ avail_b (al (vms two.2)) 20 = true ∧ psz two.1 = 0x3000 ∧
  place_free two.1 two.2 next_place 8192 = true ∧ (place two.1 two.2 0 8192).1.1 = next_place ∧
  option_map snd (area_of_addr low_area (areas_of two.1 two.2)) = Some (map_area rw low_area 5000 0) ∧
  (fault_plain two.1 two.2 (low_area + 8) = true ∧ fault_answer two.1 two.2 (low_area + 8) = (0, [])) ∧
  (fault_plain two.1 two.2 (low_area - 8) = true ∧ fault_answer two.1 two.2 (low_area - 8) = (- SIGSEGV, [SIGSEGV])) ∧
  (fault_plain two.1 two.2 0x1234 = true ∧ fault_answer two.1 two.2 0x1234 = (0, [])) ∧
  pr two.2 two.1 (low_area / 4096) = true ∧ has (pte_at (pt (vms two.2)) (pagetable two.1) low_area) PTE_W = false ∧
  view two.1 two.2 (low_area + 4999) = Some 0 ∧ view two.1 two.2 (low_area + 8) = Some 0 ∧ view two.1 two.2 (next_place - 1) = None.

(** What the calls do outside of the theorems: a hint that overlaps a part of
    an area panics the kernel; with [MAP_FIXED] over an area that another one
    follows, the loop goes on with the area that munmap has replaced;
    unmapping less than a page succeeds, splits the area and unmaps nothing;
    the first address behind the heap is taken for one of the heap, and gets a
    page outside of all areas; a fault in a mapping for reading gives all
    permissions. *)
Definition oddities : Prop :=
  mmap two.1 (low_area + 4096) 8192 rw anon (-1) 0 two.2 = Panic "vma address overflow" ∧
  mmap two.1 (low_area - 4096) 4096 rw (Z.lor MAP_FIXED anon) (-1) 0 two.2 = Undef ∧
  match munmap two.1 (low_area + 4096) 904 two.2 with
  | Ok (r, s) => (r, view two.1 s (low_area + 4096), length (areas_of two.1 s)) = (0, Some 0, 4%nat)
  | _ => False
  end ∧
  match pagefault_handler two.1 0x3000 two.2 with
  | Ok (r, _, s) => (r, psz two.1, pr s two.1 3, covered (areas_of two.1 s).*2 3) = (0, 0x3000, true, false)
  | _ => False
  end ∧
  PTE_FLAGS (pte_at (pt (vms readable.2)) (pagetable readable.1) low_area) = all_flags.

Lemma machine_facts : asked ∧ oddities.
Proof. vm_compute. repeat split. Qed.

Lemma two_inv : mem_inv two.1 two.2.
Proof. destruct machine_facts as [(Hm & _) _]. exact (after_inv maps init _ init_inv Hm). Qed.
Lemma two_facts : asked.
Proof. exact (proj1 machine_facts). Qed.
Lemma mapping_oddities : oddities.
Proof. exact (proj2 machine_facts). Qed.

Lemma two_avail n : (n ≤ 20)%nat → pa_avail (al (vms two.2)) n.
Proof. intros Hn. destruct two_facts as (_ & _ & _ & Ha & _). apply (pa_avail_le _ 20); [by apply avail_b_spec|exact Hn]. Qed.

Lemma address_space_witness :
  (∃ v s, vma_init proc0 mem0 = Ok (v, with_pvma v proc0, s) ∧ shows (with_pvma v proc0) s (mk_aspace [first_area] (λ _, None))) ∧
  ∃ p s y, run calls two.1 two.2 = Ok (answered, p, s) ∧ mem_inv p s ∧
    asteps calls answered (mk_aspace two_areas (view two.1 two.2)) y ∧ shows p s y.
Proof.
  destruct (@address_space_refinement buddy _ _ _ unit _) as [T1 T2]. destruct bare0 as [Hb Hav]. split.
  - destruct (T1 proc0 mem0 38%nat Hb Hav) as (v & s & E & _ & Hx & _). exists v, s. split; [exact E|exact Hx].
  - destruct two_facts as (_ & Hc & Ea & _). destruct (checked_spec calls answered two.1 two.2) as [Hs Hl]; [rewrite <-surjective_pairing; exact Hc|].
    pose proof (shows_view two.1 two.2) as Hx. rewrite Ea in Hx.
    destruct (T2 calls two.1 two.2 _ two_inv Hx Hs) as (l & p & s & y & Hr & Hi & Hst & Hy). pose proof (Hl l p s Hr) as ->.
    exists p, s, y. split; [exact Hr|]. split; [exact Hi|]. split; [exact Hst|exact Hy].
Defined.


Lemma anon_flags : private_anon anon.
Proof. split; reflexivity. Qed.

(** The process and the state that [mmap] starts from once the place is chosen. *)
Definition chosen (x : state) (start len : Z) : mproc * mem buddy unit := ((place x.1 x.2 start len).1.2, (place x.1 x.2 start len).2).
Lemma chosen_eq x start len b :
  (place x.1 x.2 start len).1.1 = b → place x.1 x.2 start len = (b, (chosen x start len).1, (chosen x start len).2).
Proof. unfold chosen. destruct (place x.1 x.2 start len) as [[b' p'] s']. cbn. by intros ->. Qed.



(** Page 0 of the first mapping. *)
Lemma cow_witness :
  ∃ s', handle_cow_write two.1 low_area two.2 = Ok (0, s') ∧ usable two.1 s' (low_area / 4096) ∧
    has (pte_at (pt (vms two.2)) (pagetable two.1) low_area) PTE_W = false ∧ ¬ pa_owned (al (vms two.2)) (fr s' two.1 (low_area / 4096)) ∧
    ∀ va, view two.1 s' va = view two.1 two.2 va.
Proof.
  pose proof (cow_correct two.1 two.2 (low_area / 4096) 0 two_inv ltac:(vm_compute; intuition congruence) (two_avail 1 ltac:(lia))) as T.
  destruct two_facts as (_ & _ & _ & _ & _ & _ & _ & Hat & _ & _ & _ & Hp & Hw & _).
  change (low_area / 4096 * 4096) with low_area in T.
  destruct (area_of_addr low_area (areas_of two.1 two.2)) as [[v a]|]; [|discriminate Hat]. injection Hat as ->.
  rewrite Hp in T. change (has _ MAP_PRIVATE && true) with true in T. cbv iota in T.
  destruct T as (s' & Hop & Hi & _ & Hus & Hno & Hv & _); [discriminate|]. exists s'. auto.
Defined.


End VmaRuns.
