(* ===== verification/VmaExitRuns.v ===== *)
(** * The end of a process on a concrete machine

    The process of [VmaRuns] with two mappings, next to a second process that
    has a page table and no areas yet; the theorems on the end of the first. *)

From S2P Require Import Prelude BuddyDefs Pmem PmemSpec CStringDefs VMemDefs VMem VMemSpec VMemFree VmaDefs MmapDefs.
From S2P Require Import VmaForkDefs VmaRing VmaInv VmaUnmap VmaMap VmaView VmaCalls VmaExit VmaSpec VmaRuns.
Import Buddy Pmem PmemSpec VMemDefs VMem VMemSpec VMemFree VmaDefs MmapDefs VmaForkDefs VmaRing VmaInv VmaUnmap VmaMap VmaView VmaCalls VmaExit
  VmaSpec VmaRuns.

Module VmaExitRuns.

(** ** The flags of the words are checked *)

Fixpoint marked_b (depth : nat) (t : gmap Z Z) (a : Z) : bool :=
  forallb (λ i, match t !! slot a i with
                | Some w =>
                    if has w PTE_V then
                      match depth with
                      | O => negb (PTE_FLAGS w =? PTE_V)
                      | S d => (PTE_FLAGS w =? PTE_V) && marked_b d t (PTE2PA w)
                      end
                    else true
                | None => true
                end) (seqZ 0 512).

Lemma marked_word d t a i w :
  marked_b d t a = true → index i → t !! slot a i = Some w → has w PTE_V = true →
  match d with O => PTE_FLAGS w ≠ PTE_V | S d => PTE_FLAGS w = PTE_V ∧ marked_b d t (PTE2PA w) = true end.
Proof.
  intros Hm Hi Hw Hv. assert (Hin : In i (seqZ 0 512)) by (apply list_elem_of_In, elem_of_seqZ; unfold index in Hi; lia).
  destruct d; cbn [marked_b] in Hm; pose proof (proj1 (forallb_forall _ _) Hm i Hin) as Hx; cbv beta in Hx; rewrite Hw, Hv in Hx.
  - by apply Z.eqb_neq, negb_true_iff.
  - apply andb_true_iff in Hx as [?%Z.eqb_eq ?]. done.
Qed.

Lemma marked_table t q : ∀ d root a,
  marked_b (length q + d) t root = true → Forall index q → table_at t root q = Some a → marked_b d t a = true.
Proof.
  induction q as [|i q IH]; intros d root a Hm Hq Ha; [by injection Ha as <-|]. apply Forall_cons in Hq as [Hi Hq].
  cbn [table_at] in Ha. unfold child in Ha. destruct (t !! slot root i) as [w|] eqn:Hw; [|done]. cbn in Ha.
  destruct (has w PTE_V) eqn:Hv; [|done]. cbn in Ha. apply (IH d (PTE2PA w) a); try done.
  by apply (marked_word (S (length q + d)) t root i w).
Qed.

Lemma marked_b_spec {St} (v : vm St) root : marked_b 2 (pt v) root = true → well_marked v root.
Proof.
  intros Hm q a i w [Hl Hq] Hi Ha Hw Hv.
  assert (Hd : marked_b (2 - length q) (pt v) a = true).
  { apply (marked_table (pt v) q (2 - length q) root a); [|done..]. by replace (length q + (2 - length q))%nat with 2%nat by lia. }
  pose proof (marked_word _ _ _ _ _ Hd Hi Hw Hv) as Hx. destruct (2 - length q)%nat eqn:E; [split; [done|lia]|].
  split; [lia|by intros _; apply Hx].
Qed.

(** ** A second process *)

Section second.
Context {St : Type} `{PageAllocator St} `{!PageAllocatorLaws St} {Fs : Type}.
Implicit Types (s : mem St Fs) (p q : mproc).

Definition second s : res (mproc * mem St Fs) :=
  let* (root, v) := uvmcreate (vms s) in
  let* (h, s) := alloc_node (with_vms s v) in
  let* s := set_prev h h s in
  let* s := set_next h h s in
  Ok (mk_mproc h root 0 2 0 0 ∅ [], s).

Definition in_mapping p s (i : Z) : Prop := mapping (areas_of p s).*2 i = true.

(** All that a process uses has been handed out. *)
Lemma uses_owned p s b : mem_inv p s → uses p s (in_mapping p s) b → pa_owned (al (vms s)) b.
Proof.
  intros Hi. pose proof (mi_areas _ _ _ Hi) as Hw. intros [Hb|[(r & Hr & Ht)|(i & Hm & Hp & ->)]].
  - apply (w_nodes _ _ _ Hw), (ring_live _ _ _ _ (w_ring _ _ _ Hw)). unfold own_nodes in Hb. set_solver.
  - by apply (sp_table _ _ (w_space _ _ _ Hw) r b).
  - by destruct (f_own _ _ _ (mi_frames _ _ _ Hi) i Hm Hp) as (_ & [? _] & _).
Qed.

(** What the new process brings: a table and a node, both in new pages. *)
Record joined s s' q : Prop := {
  jn_areas : areas_in q s' [];
  jn_none : ∀ i, pr s' q i = false;
  jn_size : psz q = 0;
  jn_tables : ∀ r a, path r → table_at (pt (vms s')) (pagetable q) r = Some a → a = pagetable q;
  jn_pt : pt (vms s') = zero_table (pagetable q) (pt (vms s));
  jn_vmas : vmas s' = <[pvma q := mk_vma blank (pvma q) (pvma q)]> (vmas s);
  jn_dm : dm (vms s') = dm (vms s);
  jn_new : ¬ pa_owned (al (vms s)) (pvma q) ∧ ¬ pa_owned (al (vms s)) (pagetable q);
  jn_own : ∀ b, pa_owned (al (vms s')) b ↔ b = pvma q ∨ b = pagetable q ∨ pa_owned (al (vms s)) b
}.

Lemma second_run p s :
  mem_inv p s → pa_avail (al (vms s)) 2 → ∃ q s', second s = Ok (q, s') ∧ joined s s' q.
Proof.
  intros Hi Hav. pose proof (mi_areas _ _ _ Hi) as Hw. unfold second.
  destruct (uvmcreate_space (vms s) 1 (sp_inv _ _ (w_space _ _ _ Hw)) Hav) as
    (root & v1 & -> & Hr0 & Hs1 & Hav1 & Hd1 & Hlk1 & Hno1 & Hn1 & Hpt1 & Hf1 & Ho1). cbn [bind].
  set (q0 := mk_mproc 0 root 0 2 0 0 ∅ []). set (s1 := with_vms s v1).
  assert (Hroot : ∀ r a, path r → table_at (pt v1) root r = Some a → a = root).
  { intros r a Hr Ha. destruct r; [by injection Ha|]. by rewrite Hn1 in Ha. }
  assert (Hb : VmaCalls.bare q0 s1).
  { split; cbn [pagetable vms vmas psz q0 s1 with_vms]; try done; [by rewrite Hlk1; apply Hw| | |].
    - intros b Hb. destruct (w_nodes _ _ _ Hw b Hb). split; [done|]. apply Ho1. by right.
    - intros r a Hr Ha%Hroot; [|done]. subst a. destruct (vmas s !! root) eqn:E; [|done]. destruct Hf1. apply (w_nodes _ _ _ Hw). eauto.
    - intros i _. unfold pr, present. cbn [pagetable vms q0 s1 with_vms]. by rewrite Hno1. }
  destruct (new_head q0 s1 0 Hb Hav1) as (h & s2 & s3 & s4 & Hop2 & Hh0 & Hop3 & Hop4 & Hw4 & Hp4 & _ & Hv4 & Hpt4 & Hd4 & Hf4 & Ho4).
  rewrite Hop2. cbn [bind]. rewrite Hop3. cbn [bind]. rewrite Hop4. cbn [bind].
  set (q := with_pvma h q0) in *. exists q, s4. split; [done|].
  split; try done; cbn [pvma pagetable q with_pvma q0].
  - intros i. rewrite Hp4. unfold pr, present. cbn [pagetable vms q0 s1 with_vms]. by rewrite Hno1.
  - rewrite Hpt4. done.
  - by rewrite Hpt4.
  - by rewrite Hd4.
  - split; [|done]. intros Ho. apply Hf4, Ho1. by right.
  - intros b. rewrite Ho4. cbn [vms s1 with_vms]. by rewrite Ho1.
Qed.

Lemma second_ok p s :
  mem_inv p s → pa_avail (al (vms s)) 2 →
  ∃ q s', second s = Ok (q, s') ∧ mem_inv p s' ∧ mem_inv q s' ∧ areas_of q s' = [] ∧
    ∀ b, uses q s' (in_mapping q s') b → ¬ uses p s' (in_mapping p s') b.
Proof.
  intros Hi Hav. destruct (second_run p s Hi Hav) as (q & s' & Hop & [J1 J2 J3 J4 J5 J6 J7 [J8 J8'] J9]). exists q, s'. split; [done|].
  pose proof (mi_areas _ _ _ Hi) as Hw. pose proof (areas_of_ok q s' [] J1) as Eq.
  assert (Hword : ∀ b i, own_table p s b → index i → pt (vms s') !! slot b i = pt (vms s) !! slot b i).
  { intros b i (r & Hr & Ht) Hj. rewrite J5. apply zero_table_out. intros j Hj' E.
    destruct (sp_table _ _ (w_space _ _ _ Hw) r b Hr Ht) as [[[_ M1] _] Ho].
    destruct (sp_table _ _ (w_space _ _ _ J1) [] (pagetable q)) as [[[_ M2] _] _]; [by split; [cbn; lia|]|done|].
    destruct (slot_inj b (pagetable q) i j M1 M2 Hj Hj' E) as [-> _]. done. }
  assert (Hnew : ∀ b, pa_owned (al (vms s)) b → vmas s' !! b = vmas s !! b).
  { intros b Hb. rewrite J6. apply lookup_insert_ne. intros E. by rewrite <-E in Hb. }
  destruct (other_kept p s s' Hi) as (Hi' & Ea & _); try done; [apply J1|apply J1| | | |].
  { intros v Hv. apply Hnew. apply (uses_owned p s v Hi). by left. }
  { intros v Hv. by apply (w_nodes _ _ _ J1). }
  { intros b _ Ho. rewrite Hnew by done. split; [|done]. apply J9. by right; right. }
  split_and!; [done| |done|].
  - apply (mem_inv_intro q s' []). split; [done|apply Sorted.SSorted_nil|split; intros i; [done|done|intros j; done]|done|intros i _; by rewrite J2|rewrite J3; unfold MAXVA; lia|apply Forall_nil_2].
  - intros b Hq Hp. assert (Ho : pa_owned (al (vms s)) b).
    { apply (uses_owned p s b Hi). destruct Hp as [Hb|[(r & Hr & Ht)|(i & Hm & Hx & ->)]].
      - left. unfold own_nodes in *. by rewrite Ea in Hb.
      - right; left. exists r. split; [done|]. by rewrite (other_table p s s' Hword) in Ht.
      - right; right. exists i. unfold in_mapping in *. rewrite Ea in Hm. destruct (other_page p s s' Hword i) as [E1 E2]. rewrite E1 in Hx. by rewrite E2. }
    destruct Hq as [Hb|[(r & Hr & Ht)|(i & Hm & Hx & ->)]].
    + unfold own_nodes in Hb. rewrite Eq in Hb. apply list_elem_of_singleton in Hb as ->. done.
    + apply J4 in Ht; [|done]. by subst b.
    + by rewrite J2 in Hx.
Qed.

End second.
(** ** The machine *)

(** A process with one mapping of 5000 bytes, and a second process. *)
Definition one_map : list call := [Map low_area 5000 rw anon (-1) 0].
Definition one : state := after one_map init.
Definition duo : state := get one (second one.2).
Definition one_areas : list area := [map_area rw low_area 5000 0; first_area].

Definition exit_asked : Prop :=
  checked one_map init = Some [Mapped low_area] ∧ avail_b (al (vms one.2)) 2 = true ∧
  marked_b 2 (pt (vms duo.2)) (pagetable one.1) = true ∧ (areas_of one.1 duo.2).*2 = one_areas ∧ psz one.1 = 0x3000 ∧
  (pr duo.2 one.1 0 = false ∧ pr duo.2 one.1 1 = false ∧ pr duo.2 one.1 2 = false) ∧ pr duo.2 one.1 (low_area / 4096) = true.
Lemma exit_facts : exit_asked.
Proof. vm_compute. repeat split. Qed.

Lemma duo_inv :
  mem_inv one.1 duo.2 ∧ mem_inv duo.1 duo.2 ∧ areas_of duo.1 duo.2 = [] ∧
  ∀ b, uses duo.1 duo.2 (in_mapping duo.1 duo.2) b → ¬ uses one.1 duo.2 (in_mapping one.1 duo.2) b.
Proof.
  destruct exit_facts as (Hc & Hav & _). pose proof (after_inv one_map init _ init_inv Hc) as Hi. fold one in Hi.
  destruct (second_ok one.1 one.2 Hi (avail_b_spec _ _ Hav)) as (q & s & E & H1 & H2 & H3 & H4).
  assert (Ed : duo = (q, s)) by exact (get_Ok one _ _ E). rewrite Ed. exact (conj H1 (conj H2 (conj H3 H4))).
Qed.

(** The pages of the process that are there lie in its mapping. *)
Lemma one_pages i : own_page one.1 duo.2 0 i → pr duo.2 one.1 i = true → in_mapping one.1 duo.2 i.
Proof.
  destruct exit_facts as (_ & _ & _ & Ea & Ez & Hh & _). unfold own_page, in_mapping. rewrite Ea, Ez. intros [Hc|Hr] Hp; [exact Hc|].
  destruct Hh as (H0 & H1 & H2). assert (Hi : i = 0 ∨ i = 1 ∨ i = 2) by lia.
  destruct Hi as [E|[E|E]]; rewrite E in Hp; [rewrite H0 in Hp|rewrite H1 in Hp|rewrite H2 in Hp]; discriminate Hp.
Qed.

Lemma one_exit : can_exit one.1 duo.2 0.
Proof.
  destruct duo_inv as (Hi & _). destruct exit_facts as (_ & _ & Hm & Ea & Ez & _). split; [exact Hi|by apply marked_b_spec| | |].
  - rewrite Ea. unfold one_areas. repeat (apply Forall_cons; split); [vm_compute; discriminate..|constructor].
  - rewrite Ez. split_and!; vm_compute; congruence.
  - apply (frames_present one.1 duo.2 (in_mapping one.1 duo.2)); [exact one_pages|apply (mi_frames _ _ _ Hi)].
Qed.



End VmaExitRuns.
